(* ===== verification/_CoqProject ===== *)
-Q . S2P
Prelude.v
Memory.v
Utf8.v
Strings.v
Format.v
Document.v
Append.v
Lifecycle.v
Build.v
Iter.v
IterSafe.v
RoundTrip.v
Find.v
Values.v
Contracts.v
Numbers.v
Md5.v
Oid.v
Dates.v
Calendar.v
Timegm.v
Iso8601.v
DateText.v
Writer.v
Reader.v
Decimal128.v
DecimalText.v
Base64.v
Printf.v
Visit.v
Validate.v
Json.v
JsonText.v
JsonPrint.v
JsonGrammar.v
JsonRead.v
JsonEvents.v
JsonSteps.v
JsonLeaves.v
JsonTypes.v
JsonNested.v
JsonTokens.v
JsonLexer.v
JsonRoundTrip.v
Service.v
Semaphore.v
Command.v
Sandbox.v
SandboxSpec.v
SandboxSignals.v
SandboxRefine.v
SandboxRuns.v
Executor.v
Event.v
Sets.v
Feeder.v
Flags.v
FlagsInv.v
FlagsRuns.v
