(* ===== verification/Prelude.v ===== *)
(** * !CHAOS: a verification development

    ** The program

    !CHAOS is a control-system framework.  Its nodes are services that are
    initialised, started and stopped; a control unit runs batch commands in a
    sandbox with two threads; services are reached through lists of URLs; the
    state of a node is published as flags and alarms; and everything that is
    exchanged is a BSON document, built and read by the C library under
    src/chaos/common/bson/bson.  This development models these parts.

    The framework (C++, src/chaos/common):

    - the life cycle of services (utility/InizializableService,
      StartableService, SWEService): static functions drive a boost::msm state
      machine and call the virtual methods, which may throw;
    - batch commands (batch_command/BatchCommand, AbstractSandbox): running
      property, features, faults, time-out;
    - the sandbox (batch_command/BatchCommandSandbox): a queue by priority, a
      stack of paused commands, a scheduler thread that runs the current command
      and a checker thread that decides what runs next; every change is announced
      to the executor;
    - the executor (batch_command/BatchCommandExecutor): submits commands and
      keeps the history of their states from the events of the sandbox;
    - the semaphore on which the threads wait (thread/WaitSemaphore);
    - the service feeder (network/URLServiceFeeder, utility/Bimap): hands out the
      services of a list of URLs in turn or in order;
    - state flags and alarms (state_flag/, alarm/): flags shared by catalogs that
      listen to them;
    - events (event/): packets with a code, a name and a typed value that
      channels send as datagrams to the nodes.

    The document library (C):

    - the document buffer (bson.c): a [bson_t] is stored inline (120 bytes) or
      in an allocated block that grows to powers of two, possibly nested in a
      parent whose buffer it shares;
    - the append functions (bson.c), one per type, all over [_bson_append];
    - creation, copying, moving and destruction of documents (bson.c);
    - the iterator (bson-iter.c): one step decodes one element, the accessors
      read the current value, [bson_iter_recurse] enters a nested document,
      [bson_iter_find_descendant] follows a dotted path,
      [bson_iter_visit_all] calls a table of visitor functions;
    - validation (bson.c), a visitor over the iterator with its own state;
    - values as a tagged union (bson-value.c);
    - a writer that builds documents one after the other in a buffer of its
      caller and a reader that cuts a stream into documents (bson-writer.c,
      bson-reader.c);
    - extended JSON: the visitors that print a document (bson.c), and the handlers
      of the events of a lexer that build one (bson-json.c), with the texts of
      dates (bson-iso8601.c, bson-timegm.c), decimal floating point
      (bson-decimal128.c) and base 64 (b64_ntop.h, b64_pton.h);
    - UTF-8 (bson-utf8.c), growing strings (bson-string.c), decimal numbers
      (bson-keys.c, bson-string.c), MD5 (bson-md5.c), object ids and their
      context (bson-oid.c, bson-context.c), memory (bson-memory.c).

    ** How C is modelled

    A C function is a Rocq function with the source's name.  Integers are [Z],
    with [u8], [u32], [u64], [s32], [s64] written where the C type wraps.  A
    byte is a [Z] in [0, 256), a pointer into a buffer is the list of the
    bytes that can still be read there.  The result is an [outcome]: [Ret], a
    failed assertion [Abort], an access outside the object or other undefined
    behaviour [Oob], or an exhausted iteration bound [Fuel].  Every theorem
    that concludes [Ret] therefore says that the code terminates, stays inside
    its objects and fails no assertion.  Functions on [bson_t] live in the
    state monad [M] over [mem] (Document): the objects by address and the heap
    blocks by address, so that documents which share a buffer (parent and
    child, static copies) really share it.

    ** How the framework is modelled

    An object is a record, a method a function on it, with the same [outcome].
    Objects that are shared by address (commands, flags, catalogs) live in a
    finite map; releasing one removes it, so that a later use is [Oob].  The code
    of a command is an argument: the calls it makes on the base class, and what it
    throws.  The threads of the sandbox are a step function over labels ([label],
    [step], [run] in Sandbox): a step is what one thread does between two points
    where it takes or releases a mutex or waits, the labels of a run are an
    arbitrary interleaving.  A wait on a semaphore is the three steps of
    [WaitSemaphore::wait] (Semaphore): the test of the flag without the mutex, the
    lock, and the sleep, so that a signal between the test and the sleep is lost.
    Two things are coarser than the code: the statistics of a submission change
    with it, and the threads are running when [stop] is called.  An [endHandler]
    that throws, which nothing catches, is left out.  The clock and the try-locks are inputs of the
    steps.  [tame] asks that the values of running properties and submission rules
    are those of the enumerations, that a time-out handler does not bring an ended
    command back, and that submitted commands are not sticky; runs are shorter than
    2^64 - 1 steps, because ids have 64 bits.  The back end of boost::msm is the
    class [BoostMsm] in Service, with its documented laws and the instance
    [msm_model]; multi-index containers are the sequences of their elements in the
    order of the index that is used; the unique ids of flags are arguments.

    ** Files

    - Prelude: outcomes, machine integers, byte lists, tactics and hints.
    - Memory: bson-memory.c, [bson_next_power_of_two].
    - Utf8: bson-utf8.c, against RFC 3629.
    - Strings: bson-string.c, the growing [bson_string_t].
    - Format: the abstract data: [value], the trees a document holds, and
      [encode_doc], their encoding by the BSON specification.
    - Document: the memory model, the two representations, growth,
      [_bson_append], children; the predicate [rep], which says that an object
      in memory holds given bytes, with the frame conditions.
    - Append: the [bson_append_*] functions.
    - Lifecycle: [bson_new_from_data], [bson_copy], [bson_steal],
      [bson_destroy_with_steal], [bson_reserve_buffer], [bson_compare] and so on.
    - Build: building a tree of values with the append functions.
    - Iter: bson-iter.c and bson-iter.h, the step, the accessors, overwriting.
    - IterSafe: the step on arbitrary bytes.
    - RoundTrip: the step and the accessors on encoded trees.
    - Find: search, descent, counting.
    - Values: [bson_value_t], [bson_append_value], [bson_append_iter],
      [bson_copy_to_excluding].
    - Contracts: what the document functions promise to their clients.
    - Numbers: bson-keys.c, [bson_ascii_strtoll], [bson_snprintf].
    - Md5: bson-md5.c, against RFC 1321.
    - Oid: bson-oid.c, bson-oid.h, bson-context.c.
    - Dates, Calendar, Timegm: bson-timegm.c; the Gregorian calendar as the
      reference; that the search over time stamps inverts it.
    - Iso8601, DateText: bson-iso8601.c, the parser and the formatter; that the
      parser is safe and reads what the formatter writes.
    - Writer, Reader: bson-writer.c, bson-reader.c.
    - Decimal128, DecimalText: bson-decimal128.c; the text of a decimal and what is
      read from a numeral.
    - Base64: b64_ntop.h, b64_pton.h.
    - Printf: %.20g of a double from its bits, exact.
    - Visit: [bson_iter_visit_all] over a table of visitor functions.
    - Validate: [bson_validate] and its visitors.
    - Json: [bson_utf8_escape_for_json], the as_json visitors of the three modes and
      the entry points.
    - JsonText, JsonPrint: [json_text], a printer of trees as the reference; that
      each visitor prints its part; that the entry points return that text.
    - JsonGrammar: the grammar of JSON over bytes, and that the text is in it.
    - JsonRead: bson-json.c, the handlers [json_event]s are passed to.
    - JsonEvents: the events of canonical extended JSON; defects of the handlers.
    - JsonSteps, JsonLeaves, JsonTypes, JsonNested: what the handlers do with
      them, for keys and frames, single values, types with an object inside,
      documents; [document_events_read].
    - JsonTokens, JsonLexer: the grammar with events ([json_tokens]), the events of
      the printed text, an executable lexer that is complete for the grammar.
    - JsonRoundTrip: printing and reading composed.
    - Service: the transition tables and the functions that drive them.
    - Command: commands, their features and faults, [commandPost].
    - Semaphore: WaitSemaphore.
    - Sandbox: the sandbox, its two threads and the calls of its owner.
    - SandboxSignals: what every step does to the two semaphores; when a signal is
      lost.
    - SandboxSpec: the contract of the sandbox, an abstract machine on the places
      of the commands (waiting, running, paused, ended) and the announced events.
    - SandboxRefine: the invariant, and that every step follows the contract.
    - SandboxRuns: what follows for all runs.
    - Executor: the history of command states, submission.
    - Event: the layout of events, the descriptors, the class [EventChannel] of
      channels with its law [ChannelOf], forwarding, receiving, dispatching.
    - Sets: ordered sets of the C++ library.
    - Feeder: the service feeder.
    - Flags, FlagsInv, FlagsRuns: flags, catalogs and alarms; their invariant; what
      holds after every history of calls.

    ** What is shown

    - Commands: [sandbox_refines_contract] (every interleaving is a run of the
      contract), [command_life_cycle] (queued, running and paused in turn, ended
      once; the place of a command is its last event), [sandbox_no_deadlock] and
      [queued_command_starts] (progress, unless a signal was lost in
      [WaitSemaphore::wait]; [lost_wakeup_deadlocks] is a run in which it is),
      [checker_decides], [deinit_ends_all],
      [sandbox_accesses] (the only accesses outside objects are the two described
      ones), [history_follows_sandbox] (executor and sandbox composed),
      [history_capped], [submitCommand_spec].
    - Services: [lifecycle_transaction], [swe_recovery].
    - Feeder: [feeder_serves], [round_robin_fair], [failover_lowest_index].
    - Events: [event_delivered] (what a channel sends is what the server passes on),
      [event_received] (any datagram; an empty one ends the process), [alerts_read_back].
    - Flags: [catalog_tracks_flags], [alarm_handler_notified],
      [raw_levels_roundtrip].
    - Defects of the framework: [fatal_fault_outside_table],
      [killed_command_read_after_release], [submission_rule_outside_table],
      [submitted_id_read_after_release], [failed_start_sticks], [failed_deinit_sticks], [double_init_breaks], [wait_lost_wakeup],
      [feeder_index_off_by_one], [removed_url_revived], [url_added_twice_asserts],
      [clear_keeps_urls], [shared_flag_hides_alarm], [copied_catalog_breaks],
      [alarm_added_twice_freed], [declared_flag_without_level],
      [long_event_cut], [received_value_overread], [event_overflows],
      [string_sent_as_double], [custom_alert_taken_for_log],
      [factory_writes_past_object], [empty_datagram_aborts].
    - Writing: [build_encodes] (the append functions produce exactly the
      encoding of the tree), [append_all_or_nothing] (an append changes nothing
      or adds exactly one element), [parent_locked_while_child_open].  These,
      [build_read_roundtrip] and the theorems of the writer leave out regular
      expressions, whose append can write past the buffer.
    - Reading: [decode_encode] (the iterator inverts the encoding),
      [build_read_roundtrip] (end to end, through memory),
      [find_descendant_correct], [copy_to_excluding_filters].
    - Hostile input: [iter_next_memory_safe] (one step over arbitrary bytes is
      safe except for one described over-read, and one conversion of a double),
      [search_terminates]; [visit_all_safe] and [validate_total] ask for four
      readable bytes behind the buffer.  The sum of two [int32_t] in the length
      test of the deprecated binary subtype is taken to wrap around.
    - Validation: [validate_correct] (exactly the rules of the flags, DBRefs
      and nesting included).
    - Documents as values: [copy_independent], [compare_lexicographic],
      [steal_moves], [concat_appends_elements],
      [destroy_with_steal_returns_bytes], [new_from_data_accepts_documents].
    - Streams: [writer_writes_documents], [reader_reads_stream] (however the source
      is cut), [written_documents_read_back].
    - JSON: [as_json_text] (the text of the reference printer),
      [as_json_well_formed], [json_round_trip] (canonical extended JSON is read back
      to the same bytes), [escape_roundtrip].
    - Dates and numbers: [timegm_correct], [date_parse_safe], [date_format_parse],
      [decimal_round_trip], [numeral_read], [base64_roundtrip].
    - Helpers: UTF-8 validation and encoding, decimal numbers both ways, MD5
      for every split of the message, object ids (text, time, uniqueness,
      order, hash).
    - Defects of the library, each as a closed theorem on a concrete input:
      [binary_overread_reachable], [as_int64_of_large_double], [append_regex_overflow],
      [new_from_buffer_overread], [steal_from_buffer_loses_bytes],
      [bson_utf8_from_unichar_six_bytes], [validate_accepts_invalid_utf8],
      [validate_stops_at_scope], [writer_begin_overflows],
      [first_read_error_is_eof], [date_format_outside], [digits_read_past_end], [pton_signed_index],
      [legacy_nan_is_not_json], [overlong_nul_not_printed],
      [scope_restarts_depth]; of the JSON handlers [array_code_wrong_key],
      [bad_decimal_stored], [bad_oid_stored], [timestamp_truncated],
      [union_of_two_types], [scope_key_for_empty_key], [dbpointer_leaks].

    ** Bounds

    A loop that is not structural takes fuel computed from its input:
    [iter_fuel] is one more than the document's length, and every iteration
    moves forward by at least one byte; nested validation takes the length of
    the document, because a nested document is shorter than the one it is in;
    UTF-8 and MD5 loops take the number of bytes.  Loops of dates take constants:
    the normalisation of a year ([year_fuel], the rest shrinks by a factor) and of
    the days in it ([month_fuel], fewer than 367 days), the bisection of
    [_bson_timegm] over 64 bits ([bisect_fuel]).  The buffer of the writer doubles at most 66 times
    ([grow_fuel]).  The digits of a decimal are shifted at most the number of
    digits plus 36.  %.20g takes 400 steps, more than the decimal exponent of a
    double.  The visitors of JSON take the length of the document, as validation
    does.  The theorems conclude [Ret], so the fuel is enough.  Sizes are bounded by
    INT32_MAX, as in the code; the text of JSON by 2^28 ([room]), so that the
    doubling of the string does not overflow; the stack of the JSON reader has 100
    frames, so that documents of height 99 are read.

    ** Arguments and omissions

    The clock, the host name, the process id and the random source are fields
    of an environment record; printf formatting is modelled for decimal numbers
    and otherwise is the formatted text; allocation succeeds (the library
    aborts when it does not); bytes that C leaves undefined are [undef_byte].
    The machine is little-endian with 64-bit [size_t].

    The reader of JSON starts from the events of the lexer: jsonsl is a bundled
    third-party lexer, whose place is taken by [json_tokens], the grammar of JSON
    with events.  [strtod] is an argument of the handlers; [readable] asks that it
    reads back the text of the doubles of the document.  An error of the handlers is
    its code, without the message.

    Not modelled: of bson-json.c the chunks in which a text is passed to the lexer,
    several documents in one text, the accumulation of tokens over chunks, files;
    the clock and atomics (operating system and compiler); bcon.c (variadic front
    end); vendored code (Lua, sqlite, mongoose, jsonsl, the second copy of
    libbson); of the framework the parallel sandbox and the attribute cache (C++
    templates over boost containers and threads), the serialisation of state
    flags, the network transport, drivers, persistence and user interfaces, which are input and output through third-party libraries. *)

From stdpp Require Export prelude gmap.
From Stdlib Require Export ZArith Lia.

#[global] Open Scope Z_scope.

(** ** Outcomes of C code

    [Ret] is a normal return; [Abort] is a failed [BSON_ASSERT]; [Oob] is an
    access outside the object a pointer points into (undefined behaviour in
    C); [Fuel] is a loop that used up the iteration bound given to its
    model.  A theorem that concludes [Ret _] therefore states termination,
    memory safety and the absence of assertion failures as well. *)
Inductive outcome (A : Type) : Type :=
| Ret (a : A)
| Abort
| Oob
| Fuel.
Arguments Ret {A} a.
Arguments Abort {A}.
Arguments Oob {A}.
Arguments Fuel {A}.

#[export] Instance outcome_ret : MRet outcome := @Ret.
#[export] Instance outcome_bind : MBind outcome := fun A B f m =>
  match m with Ret a => f a | Abort => Abort | Oob => Oob | Fuel => Fuel end.
#[export] Instance outcome_map : FMap outcome := fun A B f m =>
  match m with Ret a => Ret (f a) | Abort => Abort | Oob => Oob | Fuel => Fuel end.

(** [returns o]: neither aborts nor leaves its objects. *)
Definition returns {A} (o : outcome A) : Prop := exists a, o = Ret a.

Lemma bind_ret {A B} (f : A -> outcome B) (a : A) : mbind f (Ret a) = f a.
Proof. reflexivity. Qed.

Lemma bind_inv {A B} (f : A -> outcome B) (o : outcome A) (b : B) :
  mbind f o = Ret b -> exists a, o = Ret a /\ f a = Ret b.
Proof. destruct o; simpl; naive_solver. Qed.

(** ** Machine integers *)
Definition u8 (z : Z) : Z := z mod 2 ^ 8.
Definition u32 (z : Z) : Z := z mod 2 ^ 32.
Definition u64 (z : Z) : Z := z mod 2 ^ 64.
Definition s8 (z : Z) : Z := (z + 2 ^ 7) mod 2 ^ 8 - 2 ^ 7.
Definition s32 (z : Z) : Z := (z + 2 ^ 31) mod 2 ^ 32 - 2 ^ 31.
Definition s64 (z : Z) : Z := (z + 2 ^ 63) mod 2 ^ 64 - 2 ^ 63.

Definition INT32_MAX : Z := 2147483647.
Definition INT_MAX : Z := 2147483647.

Lemma u8_id z : 0 <= z < 256 -> u8 z = z.
Proof. intros. unfold u8. rewrite Z.mod_small; lia. Qed.
Lemma u32_id z : 0 <= z < 2 ^ 32 -> u32 z = z.
Proof. intros. unfold u32. rewrite Z.mod_small; lia. Qed.
Lemma u64_id z : 0 <= z < 2 ^ 64 -> u64 z = z.
Proof. intros. unfold u64. rewrite Z.mod_small; lia. Qed.
Lemma u8_range z : 0 <= u8 z < 256.
Proof. unfold u8. pose proof (Z.mod_pos_bound z (2 ^ 8)). lia. Qed.
Lemma u32_range z : 0 <= u32 z < 2 ^ 32.
Proof. apply Z.mod_pos_bound. lia. Qed.
Lemma u64_range z : 0 <= u64 z < 2 ^ 64.
Proof. apply Z.mod_pos_bound. lia. Qed.
Lemma s32_id z : - 2 ^ 31 <= z < 2 ^ 31 -> s32 z = z.
Proof. intros. unfold s32. rewrite Z.mod_small; lia. Qed.
Lemma s64_id z : - 2 ^ 63 <= z < 2 ^ 63 -> s64 z = z.
Proof. intros. unfold s64. rewrite Z.mod_small; lia. Qed.
Lemma s32_u32 z : s32 (u32 z) = s32 z.
Proof. unfold s32, u32. by rewrite Zplus_mod_idemp_l. Qed.
Lemma s64_u64 z : s64 (u64 z) = s64 z.
Proof. unfold s64, u64. by rewrite Zplus_mod_idemp_l. Qed.

(** ** Bit operations as arithmetic *)
Lemma land_mask z m n : 0 <= n -> m = 2 ^ n - 1 -> Z.land z m = z mod 2 ^ n.
Proof. intros Hn ->. rewrite <- Z.land_ones, Z.ones_equiv by lia. done. Qed.

Lemma lor_shift_add a x n : 0 <= n -> 0 <= x < 2 ^ n -> Z.lor (Z.shiftl a n) x = a * 2 ^ n + x.
Proof.
  intros Hn Hx. rewrite <- Z.shiftl_mul_pow2 by lia. symmetry. apply Z.add_nocarry_lor.
  apply Z.bits_inj'. intros k Hk. rewrite Z.land_spec, Z.bits_0.
  destruct (Z.lt_ge_cases k n).
  - by rewrite Z.shiftl_spec_low.
  - enough (Z.testbit x k = false) as -> by apply andb_false_r.
    destruct (Z.eq_dec x 0) as [->|]; [by rewrite Z.bits_0|].
    apply Z.bits_above_log2; [lia|]. apply Z.lt_le_trans with n; [apply Z.log2_lt_pow2; lia | lia].
Qed.

Lemma lor_mul_add a x n : 0 <= n -> 0 <= x < 2 ^ n -> Z.lor (a * 2 ^ n) x = a * 2 ^ n + x.
Proof. intros. rewrite <- Z.shiftl_mul_pow2 at 1 by lia. by apply lor_shift_add. Qed.

(** A decidable property that evaluates to true on 0..255 holds of every byte. *)
Lemma byte_decide (P : Z -> Prop) {dec : forall b, Decision (P b)} b :
  bool_decide (Forall P (seqZ 0 256)) = true -> 0 <= b < 256 -> P b.
Proof.
  intros H Hb. apply bool_decide_eq_true in H. rewrite Forall_forall in H.
  apply H, elem_of_seqZ. lia.
Qed.

(** ** Byte memory

    The bytes of an object from a pointer to the end of the object.  Bytes of
    memory that has never been written hold [undef_byte], which is not a byte
    value: a document whose bytes are all in [0, 256) has been fully
    initialised. *)
Abbreviation bytes := (list Z) (only parsing).
Definition is_byte (b : Z) : Prop := 0 <= b < 256.
Definition undef_byte : Z := -1.
Definition zlen {A} (l : list A) : Z := Z.of_nat (length l).

Definition rd (l : bytes) (i : Z) : outcome Z :=
  if i <? 0 then Oob
  else match l !! Z.to_nat i with Some b => Ret b | None => Oob end.

Definition rdn (l : bytes) (i n : Z) : outcome bytes :=
  if (0 <=? i) && (0 <=? n) && (i + n <=? zlen l)
  then Ret (take (Z.to_nat n) (drop (Z.to_nat i) l)) else Oob.

Definition wrn (l : bytes) (i : Z) (bs : bytes) : outcome bytes :=
  if (0 <=? i) && (i + zlen bs <=? zlen l)
  then Ret (take (Z.to_nat i) l ++ bs ++ drop (Z.to_nat i + length bs) l)
  else Oob.

(** Little-endian encoding of the [n] low bytes of an integer. *)
Fixpoint le_bytes (n : nat) (z : Z) : bytes :=
  match n with
  | O => []
  | S n => z mod 256 :: le_bytes n (z / 256)
  end.

Fixpoint le_val (l : bytes) : Z :=
  match l with
  | [] => 0
  | b :: t => b + 256 * le_val t
  end.

(** [memcpy (&x, p + i, sizeof x)] followed by [BSON_UINT*_FROM_LE]. *)
Definition rd_le (n : Z) (l : bytes) (i : Z) : outcome Z :=
  bs ← rdn l i n; Ret (le_val bs).

(** [strlen]: the index of the first NUL; running off the object is [Oob]. *)
Fixpoint strlen (l : bytes) : outcome Z :=
  match l with
  | [] => Oob
  | b :: t => if b =? 0 then Ret 0 else n ← strlen t; Ret (n + 1)
  end.

(** The bytes before the first NUL. *)
Fixpoint cstr (l : bytes) : bytes :=
  match l with
  | [] => []
  | b :: t => if b =? 0 then [] else b :: cstr t
  end.

(** ** Shared automation *)
Create Rewrite HintDb zlen.
Lemma zlen_nil {A} : zlen (@nil A) = 0.
Proof. reflexivity. Qed.
Lemma zlen_cons {A} (x : A) l : zlen (x :: l) = 1 + zlen l.
Proof. unfold zlen. simpl. lia. Qed.
Lemma zlen_app {A} (l k : list A) : zlen (l ++ k) = zlen l + zlen k.
Proof. unfold zlen. rewrite length_app. lia. Qed.
Lemma zlen_take {A} n (l : list A) : zlen (take n l) = Z.min (Z.of_nat n) (zlen l).
Proof. unfold zlen. rewrite length_take. lia. Qed.
Lemma zlen_drop {A} n (l : list A) : zlen (drop n l) = Z.max 0 (zlen l - Z.of_nat n).
Proof. unfold zlen. rewrite length_drop. lia. Qed.
Lemma zlen_nonneg {A} (l : list A) : 0 <= zlen l.
Proof. unfold zlen. lia. Qed.
Lemma zlen_replicate {A} n (x : A) : zlen (replicate n x) = Z.of_nat n.
Proof. unfold zlen. by rewrite length_replicate. Qed.
Lemma length_le_bytes n z : length (le_bytes n z) = n.
Proof. revert z; induction n; intros; simpl; auto. Qed.
Lemma zlen_le_bytes n z : zlen (le_bytes n z) = Z.of_nat n.
Proof. unfold zlen. by rewrite length_le_bytes. Qed.
#[export] Hint Rewrite @zlen_nil @zlen_cons @zlen_app @zlen_take @zlen_drop
  @zlen_replicate zlen_le_bytes : zlen.

(** [zl]: linear arithmetic about list lengths, both as [Z] and as [nat]. *)
Ltac zl :=
  autorewrite with zlen in *; unfold zlen in *;
  rewrite ?length_app, ?length_take, ?length_drop, ?length_replicate,
    ?length_le_bytes in *; simpl length in *; lia.

(** [cond]: decide every boolean integer test of the goal that [zl] can decide. *)
Ltac bool_hyps :=
  repeat match goal with
  | H : (_ && _)%bool = true |- _ => apply andb_true_iff in H as [? ?]
  | H : (_ || _)%bool = false |- _ => apply orb_false_iff in H as [? ?]
  | H : (_ <=? _) = true |- _ => apply Z.leb_le in H
  | H : (_ <=? _) = false |- _ => apply Z.leb_gt in H
  | H : (_ <? _) = true |- _ => apply Z.ltb_lt in H
  | H : (_ <? _) = false |- _ => apply Z.ltb_ge in H
  | H : (_ =? _) = true |- _ => apply Z.eqb_eq in H
  | H : (_ =? _) = false |- _ => apply Z.eqb_neq in H
  | H : negb _ = true |- _ => apply negb_true_iff in H
  | H : negb _ = false |- _ => apply negb_false_iff in H
  end.

(** ** Reading and writing *)
Lemma rd_app_l l k i : 0 <= i < zlen l -> rd (l ++ k) i = rd l i.
Proof.
  intros. unfold rd. destruct (i <? 0) eqn:?; [done|].
  rewrite lookup_app_l; [done | zl].
Qed.

Lemma rd_app_r l k i : zlen l <= i -> rd (l ++ k) i = rd k (i - zlen l).
Proof.
  intros. unfold rd. pose proof (zlen_nonneg l).
  replace (i <? 0) with false by lia. replace (i - zlen l <? 0) with false by lia.
  rewrite lookup_app_r by zl.
  by replace (Z.to_nat i - length l)%nat with (Z.to_nat (i - zlen l)) by zl.
Qed.

Lemma rd_ret l i : 0 <= i < zlen l -> returns (rd l i).
Proof.
  intros. unfold rd. replace (i <? 0) with false by lia.
  destruct (lookup_lt_is_Some_2 l (Z.to_nat i)) as [b ->]; [zl|]. by exists b.
Qed.

Lemma rd_Ret_inv l i b : rd l i = Ret b -> 0 <= i < zlen l /\ l !! Z.to_nat i = Some b.
Proof.
  unfold rd. destruct (i <? 0) eqn:E; [done|].
  destruct (l !! Z.to_nat i) eqn:E2; [|done]. intros. simplify_eq.
  apply lookup_lt_Some in E2 as ?. split; [zl | done].
Qed.

Lemma rdn_ret l i n :
  0 <= i -> 0 <= n -> i + n <= zlen l ->
  rdn l i n = Ret (take (Z.to_nat n) (drop (Z.to_nat i) l)).
Proof.
  intros. unfold rdn. replace (0 <=? i) with true by lia.
  replace (0 <=? n) with true by lia. by replace (i + n <=? zlen l) with true by lia.
Qed.

Lemma rdn_Ret_inv l i n bs :
  rdn l i n = Ret bs ->
  0 <= i /\ 0 <= n /\ i + n <= zlen l /\ bs = take (Z.to_nat n) (drop (Z.to_nat i) l).
Proof. unfold rdn. case_match; intros; simplify_eq. bool_hyps. auto. Qed.

(** Reading the middle segment of a concatenation. *)
Lemma rdn_mid l m k i n :
  i = zlen l -> n = zlen m -> rdn (l ++ m ++ k) i n = Ret m.
Proof.
  intros -> ->. rewrite rdn_ret by zl. do 1 f_equal.
  unfold zlen. rewrite !Nat2Z.id, drop_app_length, take_app_length. done.
Qed.

Lemma wrn_ret l i bs :
  0 <= i -> i + zlen bs <= zlen l ->
  wrn l i bs = Ret (take (Z.to_nat i) l ++ bs ++ drop (Z.to_nat i + length bs) l).
Proof.
  intros. unfold wrn. replace (0 <=? i) with true by lia.
  by replace (i + zlen bs <=? zlen l) with true by lia.
Qed.

(** Overwriting the middle segment of a concatenation. *)
Lemma wrn_mid l m k i bs :
  i = zlen l -> zlen bs = zlen m -> wrn (l ++ m ++ k) i bs = Ret (l ++ bs ++ k).
Proof.
  intros -> E. rewrite wrn_ret by zl.
  assert (length bs = length m) as E' by zl. rewrite E'.
  unfold zlen. rewrite Nat2Z.id, take_app_length. do 3 f_equal.
  by rewrite app_assoc, <- length_app, drop_app_length.
Qed.

(** ** Little-endian round trips *)
Lemma le_val_bytes n z : le_val (le_bytes n z) = z mod 256 ^ Z.of_nat n.
Proof.
  revert z. induction n as [|n IH]; intros z.
  - simpl. by rewrite Z.mod_1_r.
  - cbn [le_bytes le_val]. rewrite IH, Nat2Z.inj_succ, Z.pow_succ_r by lia.
    rewrite Z.rem_mul_r by lia. lia.
Qed.

Lemma le_bytes_val l n :
  length l = n -> Forall is_byte l -> le_bytes n (le_val l) = l.
Proof.
  intros <- H. induction H as [|b l Hb H IH]; [done|].
  cbn [length le_bytes le_val]. unfold is_byte in Hb.
  rewrite (Z.mul_comm 256), Z.mod_add, Z.mod_small, Z.div_add, Z.div_small, Z.add_0_l by lia.
  by rewrite IH.
Qed.

Lemma le_bytes_app n k z :
  le_bytes (n + k) z = le_bytes n z ++ le_bytes k (z / 256 ^ Z.of_nat n).
Proof.
  revert z. induction n as [|n IH]; intros z.
  - simpl. by rewrite Z.div_1_r.
  - change (S n + k)%nat with (S (n + k)). cbn [le_bytes app].
    by rewrite IH, Z.div_div, Nat2Z.inj_succ, Z.pow_succ_r by lia.
Qed.

Lemma le_bytes_mod n z : le_bytes n (z mod 256 ^ Z.of_nat n) = le_bytes n z.
Proof.
  pose proof (le_bytes_val (le_bytes n z) n (length_le_bytes n z)) as H.
  rewrite le_val_bytes in H. apply H. clear H. revert z.
  induction n; intros; simpl; constructor; auto.
  unfold is_byte. pose proof (Z.mod_pos_bound z 256). lia.
Qed.

Lemma le_bytes_byte n z : Forall is_byte (le_bytes n z).
Proof.
  revert z. induction n; intros; simpl; constructor; auto.
  unfold is_byte. pose proof (Z.mod_pos_bound z 256). lia.
Qed.

Lemma le_val_range l : Forall is_byte l -> 0 <= le_val l < 256 ^ zlen l.
Proof.
  induction 1 as [|b l Hb H IH]; [done|].
  rewrite zlen_cons, Z.pow_add_r by zl. unfold is_byte in Hb. simpl le_val.
  change (256 ^ 1) with 256. lia.
Qed.

Lemma rd_le_mid n l m k i :
  i = zlen l -> n = zlen m -> rd_le n (l ++ m ++ k) i = Ret (le_val m).
Proof. intros. unfold rd_le. by rewrite rdn_mid. Qed.

Lemma rd_le_ret n l i :
  0 <= i -> 0 <= n -> i + n <= zlen l ->
  rd_le n l i = Ret (le_val (take (Z.to_nat n) (drop (Z.to_nat i) l))).
Proof. intros. unfold rd_le. by rewrite rdn_ret. Qed.

Lemma rd_le_oob n l i : zlen l < i + n -> rd_le n l i = Oob.
Proof.
  intros H. unfold rd_le, rdn. replace (i + n <=? zlen l) with false by lia. by rewrite andb_false_r.
Qed.

Lemma take_take_drop_le {A} n i k (l : list A) :
  (i + n <= k)%nat -> take n (drop i (take k l)) = take n (drop i l).
Proof. intros H. rewrite skipn_firstn_comm, take_take. f_equal. lia. Qed.

(** ** C strings *)
Lemma strlen_cstr s k :
  Forall (fun b => b <> 0) s -> strlen (s ++ 0 :: k) = Ret (zlen s).
Proof.
  induction 1 as [|b s Hb H IH]; [done|].
  simpl. rewrite (proj2 (Z.eqb_neq b 0) Hb), IH. simpl. f_equal. zl.
Qed.

Lemma cstr_app s k : Forall (fun b => b <> 0) s -> cstr (s ++ 0 :: k) = s.
Proof.
  induction 1 as [|b s Hb H IH]; [done|].
  simpl. by rewrite (proj2 (Z.eqb_neq b 0) Hb), IH.
Qed.

Lemma strlen_Ret_inv l n :
  strlen l = Ret n -> n = zlen (cstr l) /\ n < zlen l.
Proof.
  revert n. induction l as [|b l IH]; intros n; [done|]. simpl.
  destruct (b =? 0) eqn:E.
  - intros. simplify_eq. zl.
  - destruct (strlen l) eqn:E2; simpl; intros; simplify_eq.
    destruct (IH _ eq_refl). rewrite !zlen_cons. lia.
Qed.
