(* ===== verification/Memory.v ===== *)
(** * Allocation and buffer sizes (bson-memory.c, bson-types.h)

    [bson_malloc] and [bson_realloc] (which abort rather than fail) and the
    power-of-two rounding that every growing buffer of the library uses. *)
From S2P Require Import Prelude.

(** [realloc_func (mem, size, ctx)]; [None] is the NULL pointer. *)
Definition bson_realloc_func : Type := option bytes -> Z -> bytes.

Definition bson_malloc (num_bytes : Z) : bytes := replicate (Z.to_nat num_bytes) undef_byte.

Definition bson_realloc (mem : option bytes) (num_bytes : Z) : bytes :=
  let old := default [] mem in
  take (Z.to_nat num_bytes) old ++ replicate (Z.to_nat num_bytes - length old) undef_byte.

Definition bson_realloc_ctx : bson_realloc_func := bson_realloc.

Definition bson_next_power_of_two (v : Z) : Z :=
  let v := u64 (v - 1) in
  let v := Z.lor v (Z.shiftr v 1) in
  let v := Z.lor v (Z.shiftr v 2) in
  let v := Z.lor v (Z.shiftr v 4) in
  let v := Z.lor v (Z.shiftr v 8) in
  let v := Z.lor v (Z.shiftr v 16) in
  let v := Z.lor v (Z.shiftr v 32) in
  u64 (v + 1).

Definition bson_is_power_of_two (v : Z) : bool :=
  negb (v =? 0) && (Z.land v (u32 (v - 1)) =? 0).


(** ** Rounding up to a power of two *)

(** [smeared n x w]: bit [i] of [x] is set iff one of the bits
    [i .. i + n) of [w] is. *)
Definition smeared (n : nat) (x w : Z) : Prop :=
  forall i, 0 <= i -> Z.testbit x i = true <-> exists d, (d < n)%nat /\ Z.testbit w (i + Z.of_nat d) = true.

Lemma smeared_1 w : smeared 1 w w.
Proof.
  intros i Hi. split.
  - intros H. exists O. split; [lia|]. by rewrite Z.add_0_r.
  - intros (d & Hd & H). replace d with O in H by lia. by rewrite Z.add_0_r in H.
Qed.

Lemma smeared_double n x w :
  smeared n x w -> smeared (n + n) (Z.lor x (Z.shiftr x (Z.of_nat n))) w.
Proof.
  intros H i Hi. rewrite Z.lor_spec, Z.shiftr_spec, orb_true_iff, (H i), (H (i + Z.of_nat n)) by lia.
  split.
  - intros [(d & Hd & E)|(d & Hd & E)]; [exists d | exists (n + d)%nat]; (split; [lia|]); [done|].
    rewrite <- E. f_equal. lia.
  - intros (d & Hd & E). destruct (decide (d < n)%nat); [left; eauto|right].
    exists (d - n)%nat. split; [lia|]. rewrite <- E. f_equal. lia.
Qed.

(** After six doublings a non-zero 64-bit value is a block of ones. *)
Lemma smeared_64 x w : 0 < w < 2 ^ 64 -> 0 <= x -> smeared 64 x w -> x = 2 ^ (Z.log2 w + 1) - 1.
Proof.
  intros Hw Hx H. pose proof (Z.log2_nonneg w).
  assert (Z.log2 w < 64) by (apply Z.log2_lt_pow2; lia).
  replace (2 ^ (Z.log2 w + 1) - 1) with (Z.ones (Z.log2 w + 1)) by (rewrite Z.ones_equiv; lia).
  apply Z.bits_inj'. intros i Hi. apply eq_iff_eq_true. rewrite (H i Hi).
  rewrite Z.testbit_ones_nonneg by lia. rewrite Z.ltb_lt. split.
  - intros (d & Hd & E). destruct (Z.lt_ge_cases i (Z.log2 w + 1)); [done|].
    rewrite Z.bits_above_log2 in E by lia. done.
  - intros Hlt. exists (Z.to_nat (Z.log2 w - i)). split; [lia|].
    rewrite Z2Nat.id, Zplus_minus by lia.
    apply Z.bit_log2. lia.
Qed.

(** [bson_next_power_of_two] is the least power of two that is not smaller. *)
Lemma next_power_of_two_spec v :
  1 < v <= 2 ^ 63 -> bson_next_power_of_two v = 2 ^ Z.log2_up v.
Proof.
  intros Hv. unfold bson_next_power_of_two. rewrite (u64_id (v - 1)) by lia.
  set (w := v - 1).
  match goal with |- u64 (?x + 1) = _ => assert (Hs : smeared 64 x w) end.
  { change 64%nat with (32 + 32)%nat. apply smeared_double.
    change 32%nat with (16 + 16)%nat. apply smeared_double.
    change 16%nat with (8 + 8)%nat. apply smeared_double.
    change 8%nat with (4 + 4)%nat. apply smeared_double.
    change 4%nat with (2 + 2)%nat. apply smeared_double.
    change 2%nat with (1 + 1)%nat. apply smeared_double. apply smeared_1. }
  apply smeared_64 in Hs; [|lia|].
  2: { repeat (apply Z.lor_nonneg; split; [|apply Z.shiftr_nonneg]); subst w; lia. }
  rewrite Hs, Z.sub_add. subst w. rewrite (Z.sub_1_r v), Z.log2_up_eqn by lia.
  assert (Z.log2 (Z.pred v) < 63) by (apply Z.log2_lt_pow2; lia).
  pose proof (Z.log2_nonneg (Z.pred v)).
  rewrite u64_id; [done|]. split; [apply Z.pow_nonneg; lia|].
  apply Z.pow_lt_mono_r; lia.
Qed.

Lemma next_power_of_two_bounds v :
  1 < v <= 2 ^ 62 -> v <= bson_next_power_of_two v < 2 * v.
Proof.
  intros Hv. rewrite next_power_of_two_spec by lia.
  destruct (Z.log2_up_spec v) as [H1 H2]; [lia|]. split; [done|].
  pose proof (Z.log2_up_pos v).
  replace (Z.log2_up v) with (Z.succ (Z.pred (Z.log2_up v))) by lia.
  rewrite Z.pow_succ_r by lia. lia.
Qed.

Lemma zlen_bson_malloc n : 0 <= n -> zlen (bson_malloc n) = n.
Proof. intros. unfold bson_malloc. rewrite zlen_replicate. lia. Qed.

(** The contract of a reallocation function: contents kept, size as asked. *)
Definition realloc_ok (f : bson_realloc_func) : Prop :=
  forall old n, zlen old <= n -> exists ext, f (Some old) n = old ++ ext /\ zlen (old ++ ext) = n.

Lemma bson_realloc_ctx_ok : realloc_ok bson_realloc_ctx.
Proof.
  intros old n H. unfold bson_realloc_ctx, bson_realloc. cbn [default].
  eexists. rewrite take_ge by zl. split; [done | zl].
Qed.

(** Writing at the start of fresh memory. *)
Lemma wrn_malloc n (bs : bytes) :
  zlen bs <= n -> wrn (bson_malloc n) 0 bs = Ret (bs ++ bson_malloc (n - zlen bs)).
Proof.
  intros H. pose proof (zlen_nonneg bs). rewrite wrn_ret by (rewrite ?zlen_bson_malloc; lia).
  change (Z.to_nat 0) with O. rewrite take_0, app_nil_l. unfold bson_malloc.
  rewrite drop_replicate. do 3 f_equal. zl.
Qed.
