(* ===== verification/Utf8.v ===== *)
(** * UTF-8 (chaos/common/bson/bson/bson-utf8.c)

    Decoding, validation and encoding of UTF-8 sequences, and the proof that
    [bson_utf8_validate] accepts exactly the strings that are a concatenation
    of shortest-form encodings of Unicode scalar values (with the two-byte
    NUL of "modified UTF-8" as the only extension).

    A [const char *] is the list of bytes from the pointer to the end of its
    object; [char] is read as an unsigned byte, which is what every use in the
    file masks it to. *)
From S2P Require Import Prelude.

(** ** Operations *)

Definition _bson_utf8_get_sequence (utf8 : bytes) (i : Z) : outcome (Z * Z) :=
  c ← rd utf8 i;
  Ret (if Z.land c 0x80 =? 0 then (1, 0x7F)
       else if Z.land c 0xE0 =? 0xC0 then (2, 0x1F)
       else if Z.land c 0xF0 =? 0xE0 then (3, 0x0F)
       else if Z.land c 0xF8 =? 0xF0 then (4, 0x07)
       else if Z.land c 0xFC =? 0xF8 then (5, 0x03)
       else if Z.land c 0xFE =? 0xFC then (6, 0x01)
       else (0, 0)).

(** The loop over the continuation bytes [j .. j + n): [None] is the early
    [return false] on a byte that is not of the form 10xxxxxx. *)
Fixpoint utf8_continuation (utf8 : bytes) (j : Z) (n : nat) (c : Z) : outcome (option Z) :=
  match n with
  | O => Ret (Some c)
  | S n =>
    b ← rd utf8 j;
    let c := u32 (Z.lor (Z.shiftl c 6) (Z.land b 0x3F)) in
    if negb (Z.land b 0xC0 =? 0x80) then Ret None
    else utf8_continuation utf8 (j + 1) n c
  end.

(** The loop [for (j = 0; j < seq_length; j++)] that looks for NUL bytes. *)
Fixpoint utf8_no_null (utf8 : bytes) (utf8_len k : Z) (n : nat) : outcome bool :=
  match n with
  | O => Ret true
  | S n =>
    if k >? utf8_len then Ret false
    else b ← rd utf8 k;
         if b =? 0 then Ret false else utf8_no_null utf8 utf8_len (k + 1) n
  end.

(** The [switch (seq_length)] that rejects non-shortest forms. *)
Definition utf8_shortest_form (seq_length c : Z) : bool :=
  if seq_length =? 1 then c <=? 0x007F
  else if seq_length =? 2 then ((0x0080 <=? c) && (c <=? 0x07FF)) || (c =? 0)
  else if seq_length =? 3 then
    ((0x0800 <=? c) && (c <=? 0x0FFF)) || ((0x1000 <=? c) && (c <=? 0xFFFF))
  else if seq_length =? 4 then
    ((0x10000 <=? c) && (c <=? 0x3FFFF)) || ((0x40000 <=? c) && (c <=? 0xFFFFF))
    || ((0x100000 <=? c) && (c <=? 0x10FFFF))
  else false.

Fixpoint utf8_validate_loop (fuel : nat) (utf8 : bytes) (utf8_len : Z) (allow_null : bool)
    (i : Z) : outcome bool :=
  match fuel with
  | O => Fuel
  | S fuel =>
    if negb (i <? utf8_len) then Ret true
    else
      '(seq_length, first_mask) ← _bson_utf8_get_sequence utf8 i;
      if seq_length =? 0 then Ret false
      else if utf8_len - i <? seq_length then Ret false
      else
        b ← rd utf8 i;
        r ← utf8_continuation utf8 (i + 1) (Z.to_nat (seq_length - 1)) (Z.land b first_mask);
        match r with
        | None => Ret false
        | Some c =>
          ok ← (if allow_null then Ret true
                else utf8_no_null utf8 utf8_len i (Z.to_nat seq_length));
          if negb ok then Ret false
          else if c >? 0x0010FFFF then Ret false
          else if Z.land c 0xFFFFF800 =? 0xD800 then Ret false
          else if utf8_shortest_form seq_length c
          then utf8_validate_loop fuel utf8 utf8_len allow_null (u32 (i + seq_length))
          else Ret false
        end
  end.

(** Every iteration advances [i] by at least one: [utf8_len + 1] iterations
    are enough when the length fits the [unsigned] loop counter. *)
Definition bson_utf8_validate (utf8 : bytes) (utf8_len : Z) (allow_null : bool) : outcome bool :=
  utf8_validate_loop (S (Z.to_nat utf8_len)) utf8 utf8_len allow_null 0.

Fixpoint utf8_get_char_loop (utf8 : bytes) (i : Z) (n : nat) (c : Z) : outcome Z :=
  match n with
  | O => Ret c
  | S n =>
    b ← rd utf8 i;
    utf8_get_char_loop utf8 (i + 1) n (u32 (Z.lor (Z.shiftl c 6) (Z.land b 0x3F)))
  end.

Definition bson_utf8_get_char (utf8 : bytes) : outcome Z :=
  '(num, mask) ← _bson_utf8_get_sequence utf8 0;
  b ← rd utf8 0;
  utf8_get_char_loop utf8 1 (Z.to_nat (num - 1)) (Z.land b mask).

(** Returns the number of bytes the pointer is advanced by. *)
Definition bson_utf8_next_char (utf8 : bytes) : outcome Z :=
  '(num, mask) ← _bson_utf8_get_sequence utf8 0;
  Ret num.

(** The bytes stored in [utf8[]]; [*len] is their number. *)
Definition bson_utf8_from_unichar (unichar : Z) : bytes :=
  let sh n m t := Z.lor t (Z.land (Z.shiftr unichar n) m) in
  if unichar <=? 0x7F then [unichar]
  else if unichar <=? 0x7FF then [sh 6 0x3F 0xC0; sh 0 0x3F 0x80]
  else if unichar <=? 0xFFFF then [sh 12 0xF 0xE0; sh 6 0x3F 0x80; sh 0 0x3F 0x80]
  else if unichar <=? 0x1FFFFF then
    [sh 18 0x7 0xF0; sh 12 0x3F 0x80; sh 6 0x3F 0x80; sh 0 0x3F 0x80]
  else if unichar <=? 0x3FFFFFF then
    [sh 24 0x3 0xF8; sh 18 0x3F 0x80; sh 12 0x3F 0x80; sh 6 0x3F 0x80; sh 0 0x3F 0x80]
  else if unichar <=? 0x7FFFFFFF then
    [sh 31 0x1 0xFC; sh 25 0x3F 0x80; sh 19 0x3F 0x80; sh 13 0x3F 0x80; sh 7 0x3F 0x80;
     sh 0 0x1 0x80]
  else [].

(** ** Reference definition: RFC 3629

    [utf8_encode] is the encoding of a scalar value written with division;
    [utf8_char] are the byte sequences of one character. *)
Definition scalar_value (c : Z) : Prop := 0 <= c < 0xD800 \/ 0xE000 <= c <= 0x10FFFF.

Definition utf8_encode (c : Z) : bytes :=
  if c <? 0x80 then [c]
  else if c <? 0x800 then [0xC0 + c / 64; 0x80 + c mod 64]
  else if c <? 0x10000 then [0xE0 + c / 4096; 0x80 + c / 64 mod 64; 0x80 + c mod 64]
  else [0xF0 + c / 262144; 0x80 + c / 4096 mod 64; 0x80 + c / 64 mod 64; 0x80 + c mod 64].

Inductive utf8_char (allow_null : bool) : bytes -> Prop :=
| utf8_char_enc c : scalar_value c -> c <> 0 \/ allow_null = true -> utf8_char allow_null (utf8_encode c)
| utf8_char_nul2 : utf8_char allow_null [0xC0; 0x80].

Inductive utf8_string (allow_null : bool) : bytes -> Prop :=
| utf8_string_nil : utf8_string allow_null []
| utf8_string_cons ch s :
    utf8_char allow_null ch -> utf8_string allow_null s -> utf8_string allow_null (ch ++ s).

(** ** Byte-level facts *)

(** The class of a leading byte, by range. *)
Definition lead_class (c : Z) : Z * Z :=
  if c <? 128 then (1, 0x7F) else if c <? 192 then (0, 0)
  else if c <? 224 then (2, 0x1F) else if c <? 240 then (3, 0x0F)
  else if c <? 248 then (4, 0x07) else if c <? 252 then (5, 0x03)
  else if c <? 254 then (6, 0x01) else (0, 0).

Lemma get_sequence_class utf8 i b :
  rd utf8 i = Ret b -> is_byte b -> _bson_utf8_get_sequence utf8 i = Ret (lead_class b).
Proof.
  intros E Hb. unfold _bson_utf8_get_sequence. rewrite E. simpl. f_equal.
  set (f := fun c => if Z.land c 0x80 =? 0 then (1, 0x7F)
       else if Z.land c 0xE0 =? 0xC0 then (2, 0x1F)
       else if Z.land c 0xF0 =? 0xE0 then (3, 0x0F)
       else if Z.land c 0xF8 =? 0xF0 then (4, 0x07)
       else if Z.land c 0xFC =? 0xF8 then (5, 0x03)
       else if Z.land c 0xFE =? 0xFC then (6, 0x01)
       else (0, 0)).
  change (f b = lead_class b).
  apply (byte_decide (fun c => f c = lead_class c)); [vm_compute; done | done].
Qed.

Lemma cont_byte b : is_byte b -> (Z.land b 0xC0 =? 0x80) = ((128 <=? b) && (b <? 192)).
Proof.
  apply (byte_decide (fun c => (Z.land c 0xC0 =? 0x80) = ((128 <=? c) && (c <? 192)))).
  vm_compute; done.
Qed.

Lemma acc_step c b :
  0 <= c < 2 ^ 26 -> u32 (Z.lor (Z.shiftl c 6) (Z.land b 0x3F)) = c * 64 + b mod 64.
Proof.
  intros Hc. rewrite (land_mask b 0x3F 6) by lia.
  pose proof (Z.mod_pos_bound b (2 ^ 6)).
  rewrite lor_shift_add by lia. change (2 ^ 6) with 64 in *. rewrite u32_id; lia.
Qed.

Lemma surrogate_test c :
  0 <= c < 2 ^ 32 -> (Z.land c 0xFFFFF800 =? 0xD800) = ((0xD800 <=? c) && (c <? 0xE000)).
Proof.
  intros Hc.
  assert (Z.land c 0xFFFFF800 = c / 2048 * 2048) as ->.
  { change 0xFFFFF800 with (Z.shiftl (Z.ones 21) 11).
    rewrite <- (Z.mul_comm 2048). change 2048 with (2 ^ 11) at 1.
    rewrite Z.mul_comm, <- Z.shiftl_mul_pow2 by lia.
    change 2048 with (2 ^ 11). rewrite <- Z.shiftr_div_pow2 by lia.
    apply Z.bits_inj'. intros k Hk. rewrite Z.land_spec.
    destruct (Z.lt_ge_cases k 11).
    - by rewrite !Z.shiftl_spec_low, andb_false_r by lia.
    - rewrite !Z.shiftl_spec, Z.shiftr_spec, Z.testbit_ones_nonneg by lia.
      replace (k - 11 + 11) with k by lia.
      destruct (Z.lt_ge_cases k 32).
      + replace (k - 11 <? 21) with true by lia. by rewrite andb_true_r.
      + enough (Z.testbit c k = false) as -> by done.
        destruct (Z.eq_dec c 0) as [->|]; [by rewrite Z.bits_0|].
        apply Z.bits_above_log2; [lia|].
        apply Z.lt_le_trans with 32; [apply Z.log2_lt_pow2; lia | lia]. }
  pose proof (Z.div_mod c 2048). pose proof (Z.mod_pos_bound c 2048).
  destruct (_ =? _) eqn:E1; symmetry; [apply andb_true_iff|apply andb_false_iff]; bool_hyps; lia.
Qed.

(** ** One character of the validation loop, on lists *)

Definition is_cont (b : Z) : bool := (128 <=? b) && (b <? 192).
Definition accumulate (c : Z) (bs : bytes) : Z := fold_left (fun c b => c * 64 + b mod 64) bs c.

Definition char_len (allow_null : bool) (r : bytes) : option nat :=
  match r with
  | [] => None
  | b0 :: r' =>
    let '(n, m) := lead_class b0 in
    let bs := take (Z.to_nat (n - 1)) r' in
    let c := accumulate (Z.land b0 m) bs in
    if n =? 0 then None else if zlen r <? n then None
    else if negb (forallb is_cont bs) then None
    else if negb (allow_null || forallb (fun b => negb (b =? 0)) (b0 :: bs)) then None
    else if c >? 0x10FFFF then None
    else if (0xD800 <=? c) && (c <? 0xE000) then None
    else if utf8_shortest_form n c then Some (Z.to_nat n) else None
  end.

Lemma rd_at pre b k i : i = zlen pre -> rd (pre ++ b :: k) i = Ret b.
Proof.
  intros ->. rewrite rd_app_r, Z.sub_diag by lia. done.
Qed.

Lemma app_shift (pre : bytes) b k : pre ++ b :: k = (pre ++ [b]) ++ k.
Proof. by rewrite <- app_assoc. Qed.

Lemma acc_room (bs : bytes) c b :
  (length bs <= 4)%nat -> 0 <= c < 2 ^ (32 - 6 * (1 + zlen bs)) ->
  c < 2 ^ 26 /\ 0 <= c * 64 + b mod 64 < 2 ^ (32 - 6 * zlen bs).
Proof.
  intros Hlen Hc. pose proof (Z.mod_pos_bound b 64).
  assert (2 ^ (32 - 6 * (1 + zlen bs)) <= 2 ^ 26) by (apply Z.pow_le_mono_r; zl).
  assert (2 ^ (32 - 6 * zlen bs) = 2 ^ (32 - 6 * (1 + zlen bs)) * 64) as E.
  { change 64 with (2 ^ 6). rewrite <- Z.pow_add_r by zl. f_equal. lia. }
  lia.
Qed.

Lemma continuation_spec pre bs post c :
  Forall is_byte bs -> (length bs <= 5)%nat -> 0 <= c < 2 ^ (32 - 6 * zlen bs) ->
  utf8_continuation (pre ++ bs ++ post) (zlen pre) (length bs) c =
    Ret (if forallb is_cont bs then Some (accumulate c bs) else None).
Proof.
  intros H. revert pre c. induction H as [|b bs Hb H IH]; intros pre c Hlen Hc; [done|].
  simpl in Hlen. rewrite zlen_cons in Hc.
  destruct (acc_room bs c b) as [? ?]; [lia | lia |].
  change (accumulate c (b :: bs)) with (accumulate (c * 64 + b mod 64) bs).
  cbn [length utf8_continuation forallb].
  rewrite <- app_comm_cons, rd_at by done. cbn [mbind outcome_bind].
  rewrite cont_byte, acc_step by (done || lia). fold (is_cont b).
  destruct (is_cont b); [|done]. cbn [negb andb].
  pose proof (Z.mod_pos_bound b 64).
  rewrite app_shift, <- (IH (pre ++ [b])) by lia.
  replace (zlen pre + 1) with (zlen (pre ++ [b])) by zl. done.
Qed.

Lemma no_null_spec pre bs post n :
  zlen pre + zlen bs <= n ->
  utf8_no_null (pre ++ bs ++ post) n (zlen pre) (length bs) =
    Ret (forallb (fun b => negb (b =? 0)) bs).
Proof.
  revert pre. induction bs as [|b bs IH]; intros pre Hn; [done|].
  rewrite zlen_cons in Hn. pose proof (zlen_nonneg bs).
  cbn [length utf8_no_null forallb]. replace (zlen pre >? n) with false by lia.
  rewrite <- app_comm_cons, rd_at by done. cbn [mbind outcome_bind].
  destruct (b =? 0); [done|]. cbn [negb andb].
  rewrite app_shift, <- (IH (pre ++ [b])) by zl.
  replace (zlen pre + 1) with (zlen (pre ++ [b])) by zl. done.
Qed.

(** The lead byte's payload leaves room for its continuation bytes. *)
Lemma lead_class_bound b :
  is_byte b ->
  let n := (lead_class b).1 in let c := Z.land b (lead_class b).2 in
  0 <= n <= 6 /\ 0 <= c /\ (n <> 0 -> c < 2 ^ (32 - 6 * (n - 1))).
Proof.
  apply (byte_decide (fun b =>
    0 <= (lead_class b).1 <= 6 /\ 0 <= Z.land b (lead_class b).2 /\
    ((lead_class b).1 <> 0 -> Z.land b (lead_class b).2 < 2 ^ (32 - 6 * ((lead_class b).1 - 1))))).
  vm_compute. done.
Qed.

Lemma accumulate_nonneg c bs : 0 <= c -> 0 <= accumulate c bs.
Proof.
  revert c. induction bs as [|b bs IH]; intros c Hc; [done|].
  change (0 <= accumulate (c * 64 + b mod 64) bs). apply IH.
  pose proof (Z.mod_pos_bound b 64). lia.
Qed.

(** One iteration of the loop, on the list of remaining bytes. *)
Lemma validate_step fuel pre r post allow :
  Forall is_byte r -> r <> [] -> zlen pre + zlen r < 2 ^ 32 ->
  utf8_validate_loop (S fuel) (pre ++ r ++ post) (zlen pre + zlen r) allow (zlen pre) =
    match char_len allow r with
    | None => Ret false
    | Some n => utf8_validate_loop fuel (pre ++ r ++ post) (zlen pre + zlen r) allow
                  (zlen pre + Z.of_nat n)
    end.
Proof.
  intros Hr Hne Hlen. destruct r as [|b0 r']; [done|]. inversion_clear Hr as [|?? Hb0 Hr'].
  rewrite zlen_cons in *. pose proof (zlen_nonneg r'). pose proof (zlen_nonneg pre).
  cbn [utf8_validate_loop]. replace (zlen pre <? zlen pre + (1 + zlen r')) with true by lia.
  rewrite <- app_comm_cons, (get_sequence_class _ _ b0), rd_at by (apply rd_at || done; done).
  pose proof (lead_class_bound b0 Hb0) as Hbd. cbn [char_len negb].
  destruct (lead_class b0) as [n m]. cbn [mbind outcome_bind] in *. simpl in Hbd.
  destruct Hbd as (Hn & Hc0 & Hc). rewrite zlen_cons.
  destruct (n =? 0) eqn:En; [done|]. bool_hyps.
  replace (zlen pre + (1 + zlen r') - zlen pre) with (1 + zlen r') by lia.
  destruct (1 + zlen r' <? n) eqn:Esh; [done|]. bool_hyps.
  set (bs := take (Z.to_nat (n - 1)) r').
  assert (length bs = Z.to_nat (n - 1)) as Hbs by (subst bs; rewrite length_take; zl).
  assert (r' ++ post = bs ++ drop (Z.to_nat (n - 1)) r' ++ post) as Er
    by (subst bs; by rewrite app_assoc, take_drop).
  assert (Forall is_byte bs) by (subst bs; by apply Forall_take).
  assert (Hcont : utf8_continuation (pre ++ b0 :: r' ++ post) (zlen pre + 1)
            (Z.to_nat (n - 1)) (Z.land b0 m) =
          Ret (if forallb is_cont bs then Some (accumulate (Z.land b0 m) bs) else None)).
  { rewrite Er, <- Hbs, app_shift. replace (zlen pre + 1) with (zlen (pre ++ [b0])) by zl.
    apply continuation_spec; [done | lia |].
    replace (zlen bs) with (n - 1) by zl. auto. }
  assert (Hnull : utf8_no_null (pre ++ b0 :: r' ++ post) (zlen pre + (1 + zlen r')) (zlen pre)
            (Z.to_nat n) = Ret (forallb (fun b => negb (b =? 0)) (b0 :: bs))).
  { rewrite Er. replace (Z.to_nat n) with (length (b0 :: bs)) by (simpl; lia).
    rewrite app_comm_cons. apply no_null_spec. zl. }
  rewrite Hcont. cbn [mbind outcome_bind]. destruct (forallb is_cont bs) eqn:Ecn; [|done].
  cbn [negb]. set (c := accumulate (Z.land b0 m) bs).
  replace (if allow then Ret true else utf8_no_null (pre ++ b0 :: r' ++ post) _ _ _)
    with (Ret (allow || forallb (fun b => negb (b =? 0)) (b0 :: bs)))
    by (destruct allow; [done | by rewrite Hnull]).
  cbn [mbind outcome_bind]. destruct (allow || _); [|done]. cbn [negb].
  destruct (c >? 0x10FFFF) eqn:Ec; [done|].
  assert (0 <= c) by by apply accumulate_nonneg.
  rewrite surrogate_test by lia. destruct (_ && _)%bool; [done|].
  destruct (utf8_shortest_form n c); [|done].
  rewrite u32_id by lia. by rewrite Z2Nat.id by lia.
Qed.

(** Splits a successful [char_len] into its guards. *)
Ltac char_guards H :=
  repeat match type of H with
  | (if ?b then None else _) = Some _ => destruct b eqn:?; [discriminate H|]
  | (if ?b then Some _ else None) = Some _ => destruct b eqn:?; [|discriminate H]
  end; bool_hyps.

Ltac divmod := Z.div_mod_to_equations; lia.

Lemma utf8_char_intro allow c ch :
  scalar_value c -> c <> 0 \/ allow = true -> ch = utf8_encode c -> utf8_char allow ch.
Proof. intros ?? ->. by constructor. Qed.

(** Evaluates the guards of [utf8_encode] under range hypotheses. *)
Ltac encode_cases :=
  unfold utf8_encode;
  repeat match goal with |- context [if ?b then _ else _] => destruct b eqn:? end;
  bool_hyps; try lia.

Lemma is_cont_range b : is_cont b = true -> 128 <= b < 192 /\ b mod 64 = b - 128.
Proof. unfold is_cont. intros. bool_hyps. split; [lia | divmod]. Qed.

Lemma lead2 b : 192 <= b < 224 -> Z.land b 0x1F = b - 192.
Proof. intros. rewrite (land_mask _ _ 5) by lia. divmod. Qed.
Lemma lead3 b : 224 <= b < 240 -> Z.land b 0x0F = b - 224.
Proof. intros. rewrite (land_mask _ _ 4) by lia. divmod. Qed.
Lemma lead4 b : 240 <= b < 248 -> Z.land b 0x07 = b - 240.
Proof. intros. rewrite (land_mask _ _ 3) by lia. divmod. Qed.

Ltac cont_guards :=
  unfold accumulate in *; simpl take in *; cbn [fold_left forallb] in *; bool_hyps;
  repeat match goal with
  | H : is_cont _ = true |- _ => apply is_cont_range in H as [? E]; rewrite ?E in *; clear E
  end.

Section CharLen.
Context (allow : bool).

(** The four accepted sequence lengths, one lemma each. *)
Lemma seq1_char b0 :
  0 <= b0 < 128 -> allow || forallb (fun b => negb (b =? 0)) [b0] = true -> utf8_char allow [b0].
Proof.
  intros Hb H. apply (utf8_char_intro _ b0); [by left; lia| |by encode_cases].
  destruct allow; [by right|left]. simpl in H. destruct (b0 =? 0) eqn:?; [done|]. lia.
Qed.

Lemma seq2_char b0 b1 :
  192 <= b0 < 224 -> 128 <= b1 < 192 -> 
  let c := (b0 - 192) * 64 + (b1 - 128) in
  utf8_shortest_form 2 c = true -> utf8_char allow [b0; b1].
Proof.
  intros H0 H1 c Hs. cbn in Hs. apply orb_true_iff in Hs as [Hs|Hs]; bool_hyps; subst c.
  - eapply utf8_char_intro with (c := (b0 - 192) * 64 + (b1 - 128));
      [left; lia | left; lia | encode_cases; repeat f_equal; divmod].
  - replace b0 with 0xC0 by lia. replace b1 with 0x80 by lia. constructor.
Qed.

Lemma seq3_char b0 b1 b2 :
  224 <= b0 < 240 -> 128 <= b1 < 192 -> 128 <= b2 < 192 ->
  let c := ((b0 - 224) * 64 + (b1 - 128)) * 64 + (b2 - 128) in
  ((0xD800 <=? c) && (c <? 0xE000)) = false ->
  utf8_shortest_form 3 c = true -> utf8_char allow [b0; b1; b2].
Proof.
  intros H0 H1 H2 c Hd Hs. cbn in Hs.
  assert (0x800 <= c <= 0xFFFF) by (apply orb_true_iff in Hs as [Hs|Hs]; bool_hyps; lia).
  apply andb_false_iff in Hd.
  apply utf8_char_intro with (c := c);
    [destruct Hd; bool_hyps; [left|right]; lia | left; lia | subst c].
  encode_cases. repeat f_equal; divmod.
Qed.

Lemma seq4_char b0 b1 b2 b3 :
  240 <= b0 < 248 -> 128 <= b1 < 192 -> 128 <= b2 < 192 -> 128 <= b3 < 192 ->
  let c := (((b0 - 240) * 64 + (b1 - 128)) * 64 + (b2 - 128)) * 64 + (b3 - 128) in
  utf8_shortest_form 4 c = true -> utf8_char allow [b0; b1; b2; b3].
Proof.
  intros H0 H1 H2 H3 c Hs. cbn in Hs.
  assert (0x10000 <= c <= 0x10FFFF)
    by (rewrite !orb_true_iff in Hs; destruct Hs as [[Hs|Hs]|Hs]; bool_hyps; lia).
  apply utf8_char_intro with (c := c); [right; lia | left; lia | subst c].
  encode_cases. repeat f_equal; divmod.
Qed.

Lemma char_len_sound r n :
  Forall is_byte r -> char_len allow r = Some n ->
  (1 <= n <= length r)%nat /\ utf8_char allow (take n r).
Proof.
  intros Hr H. destruct r as [|b0 r]; [done|]. inversion_clear Hr as [|?? Hb0 Hr'].
  unfold char_len, lead_class in H. unfold is_byte in Hb0.
  destruct (b0 <? 128) eqn:E1; [|destruct (b0 <? 192) eqn:E2; [|destruct (b0 <? 224) eqn:E3;
    [|destruct (b0 <? 240) eqn:E4; [|destruct (b0 <? 248) eqn:E5; [|destruct (b0 <? 252) eqn:E6;
    [|destruct (b0 <? 254) eqn:E7]]]]]]; try done; bool_hyps; char_guards H; simplify_eq.
  all: rewrite zlen_cons in *.
  - split; [simpl; lia|]. apply seq1_char; [lia | done].
  - destruct r as [|b1 r]; [zl|]. split; [simpl; lia|]. cont_guards.
    apply seq2_char; [lia | lia |]. by rewrite lead2 in * by lia.
  - destruct r as [|b1 [|b2 r]]; [zl | zl |]. split; [simpl; lia|]. cont_guards.
    apply seq3_char; [lia | lia | lia | by rewrite lead3 in * by lia..].
  - destruct r as [|b1 [|b2 [|b3 r]]]; [zl | zl | zl |]. split; [simpl; lia|]. cont_guards.
    apply seq4_char; [lia | lia | lia | lia | by rewrite lead4 in * by lia].
Qed.

Lemma char_len_intro b0 bs s n m :
  lead_class b0 = (n, m) -> n = zlen (b0 :: bs) -> forallb is_cont bs = true ->
  allow || forallb (fun b => negb (b =? 0)) (b0 :: bs) = true ->
  let c := accumulate (Z.land b0 m) bs in
  c <= 0x10FFFF -> ~ (0xD800 <= c < 0xE000) -> utf8_shortest_form n c = true ->
  char_len allow (b0 :: bs ++ s) = Some (length (b0 :: bs)).
Proof.
  intros Hl Hn Hcont Hnul c Hc Hd Hs. unfold char_len. rewrite Hl, zlen_cons, zlen_app.
  rewrite zlen_cons in Hn. pose proof (zlen_nonneg bs). pose proof (zlen_nonneg s).
  replace (take (Z.to_nat (n - 1)) (bs ++ s)) with bs
    by (replace (Z.to_nat (n - 1)) with (length bs) by zl; by rewrite take_app_length).
  fold c. rewrite Hcont, Hnul, Hs. cbn [negb].
  replace (n =? 0) with false by lia. replace (1 + (zlen bs + zlen s) <? n) with false by lia.
  replace (c >? 0x10FFFF) with false by lia.
  replace ((0xD800 <=? c) && (c <? 0xE000)) with false by lia.
  f_equal. simpl. zl.
Qed.

Lemma nonzero_forall bs : Forall (fun b => b <> 0) bs -> forallb (fun b => negb (b =? 0)) bs = true.
Proof. induction 1; [done|]. simpl. rewrite (proj2 (Z.eqb_neq _ _) H). done. Qed.

Ltac enc_side :=
  unfold accumulate, lead_class, is_cont, utf8_shortest_form; cbn [fold_left forallb];
  rewrite ?lead2, ?lead3, ?lead4 by divmod;
  repeat match goal with |- context [if ?b then _ else _] => destruct b eqn:? end;
  bool_hyps; repeat split; repeat constructor; divmod.

(** The encoding of a scalar value is recognised, whatever follows it. *)
Lemma char_len_complete ch s :
  utf8_char allow ch -> char_len allow (ch ++ s) = Some (length ch).
Proof.
  destruct 1 as [c Hc Hnul|].
  - assert (0 <= c <= 0x10FFFF) by (destruct Hc; lia).
    assert (Hsur : ~ (0xD800 <= c < 0xE000)) by (destruct Hc; lia).
    assert (Hz : forall bs, Forall (fun b => b <> 0) bs ->
      allow || forallb (fun b => negb (b =? 0)) bs = true)
      by (intros; rewrite nonzero_forall by done; apply orb_true_r).
    encode_cases.
    + assert (Ec : Z.land c 0x7F = c) by (rewrite (land_mask _ _ 7) by lia; divmod).
      apply (char_len_intro c [] s 1 0x7F); try done; unfold accumulate; simpl;
        rewrite ?Ec; try lia.
      { enc_side. }
      { destruct Hnul as [? | ->]; [by apply (Hz [c]); repeat constructor | done]. }
      { unfold utf8_shortest_form. simpl. lia. }
    + apply (char_len_intro (0xC0 + c / 64) [0x80 + c mod 64] s 2 0x1F); try done.
      { enc_side. } { enc_side. } { apply Hz. enc_side. } { enc_side. } { enc_side. } { enc_side. }
    + apply (char_len_intro (0xE0 + c / 4096) [0x80 + c / 64 mod 64; 0x80 + c mod 64] s 3 0x0F);
        try done.
      { enc_side. } { enc_side. } { apply Hz. enc_side. } { enc_side. } { enc_side. } { enc_side. }
    + apply (char_len_intro (0xF0 + c / 262144)
        [0x80 + c / 4096 mod 64; 0x80 + c / 64 mod 64; 0x80 + c mod 64] s 4 0x07); try done.
      { enc_side. } { enc_side. } { apply Hz. enc_side. } { enc_side. } { enc_side. } { enc_side. }
  - apply (char_len_intro 0xC0 [0x80] s 2 0x1F); try done; [by rewrite orb_true_r | vm_compute; intros [? ?]; congruence].
Qed.

End CharLen.

(** ** The validator decides the reference definition *)

Lemma utf8_string_step allow r :
  Forall is_byte r -> r <> [] ->
  (utf8_string allow r <-> exists n, char_len allow r = Some n /\ utf8_string allow (drop n r)).
Proof.
  intros Hr Hne. split.
  - destruct 1 as [|ch s Hch Hs]; [done|]. exists (length ch).
    by rewrite char_len_complete, drop_app_length.
  - intros (n & Hn & Hs). apply char_len_sound in Hn as [_ Hch]; [|done].
    rewrite <- (take_drop n r). by constructor.
Qed.

Lemma validate_loop_spec fuel pre r post allow :
  Forall is_byte r -> zlen pre + zlen r < 2 ^ 32 -> (length r < fuel)%nat ->
  exists b, utf8_validate_loop fuel (pre ++ r ++ post) (zlen pre + zlen r) allow (zlen pre) = Ret b
    /\ (b = true <-> utf8_string allow r).
Proof.
  revert pre r. induction fuel as [|fuel IH]; intros pre r Hr Hlen Hfuel; [lia|].
  destruct (decide (r = [])) as [->|Hne].
  { exists true. split; [|split; [constructor|done]].
    cbn. by replace (zlen pre <? zlen pre + zlen []) with false by zl. }
  rewrite validate_step by done. pose proof (utf8_string_step allow r Hr Hne) as Hstep.
  destruct (char_len allow r) as [n|] eqn:En; [|exists false; split; [done|]; split; [done|]; intros Hx; apply Hstep in Hx as (? & ? & _); congruence].
  destruct (char_len_sound allow r n Hr En) as [Hn _].
  destruct (IH (pre ++ take n r) (drop n r)) as (b & Hb & Hiff);
    [by apply Forall_drop | zl | rewrite length_drop; lia |].
  exists b. split; [|rewrite Hiff, Hstep; split; [eauto | intros (? & ? & ?); congruence]].
  rewrite <- Hb, <- app_assoc, (app_assoc (take n r)), take_drop.
  f_equal; zl.
Qed.

(** C35: [bson_utf8_validate] always terminates inside the string, and
    answers [true] exactly when the [utf8_len] bytes are a concatenation of
    shortest-form UTF-8 encodings of Unicode scalar values: NUL only when
    [allow_null], and the two-byte NUL C0 80 as the single extension to
    RFC 3629. *)
Theorem bson_utf8_validate_correct (s post : bytes) (allow_null : bool) :
  Forall is_byte s -> zlen s < 2 ^ 32 ->
  exists b, bson_utf8_validate (s ++ post) (zlen s) allow_null = Ret b
    /\ (b = true <-> utf8_string allow_null s).
Proof.
  intros Hs Hlen. unfold bson_utf8_validate.
  destruct (validate_loop_spec (S (Z.to_nat (zlen s))) [] s post allow_null) as (b & Hb & Hiff);
    [done | zl | unfold zlen; lia |].
  exists b. rewrite zlen_nil, Z.add_0_l in Hb. done.
Qed.

Lemma bson_utf8_validate_correct_witness :
  exists b, bson_utf8_validate ([0x61; 0xC3; 0xA9; 0xE2; 0x82; 0xAC] ++ [0; 7]) 6 false = Ret b
    /\ (b = true <-> utf8_string false [0x61; 0xC3; 0xA9; 0xE2; 0x82; 0xAC]).
Proof.
  apply (bson_utf8_validate_correct [0x61; 0xC3; 0xA9; 0xE2; 0x82; 0xAC] [0; 7] false);
    [repeat constructor; done | done].
Defined.

(** ** Encoding and decoding one character *)

Lemma mask_byte t x n m :
  0 <= n -> m = 2 ^ n - 1 -> t mod 2 ^ n = 0 -> Z.lor t (Z.land x m) = t + x mod 2 ^ n.
Proof.
  intros Hn Hm Ht. rewrite (land_mask _ _ n) by done.
  pose proof (Z.mod_pos_bound x (2 ^ n)).
  replace t with (t / 2 ^ n * 2 ^ n) by (rewrite (Z.div_mod t (2 ^ n)) at 2; lia).
  apply lor_mul_add; lia.
Qed.

(** [bson_utf8_from_unichar] in arithmetic, for the first five forms. *)
Lemma from_unichar_arith c :
  0 <= c <= 0x3FFFFFF ->
  bson_utf8_from_unichar c =
    if c <=? 0x7F then [c]
    else if c <=? 0x7FF then [0xC0 + c / 64; 0x80 + c mod 64]
    else if c <=? 0xFFFF then [0xE0 + c / 4096; 0x80 + c / 64 mod 64; 0x80 + c mod 64]
    else if c <=? 0x1FFFFF then
      [0xF0 + c / 262144; 0x80 + c / 4096 mod 64; 0x80 + c / 64 mod 64; 0x80 + c mod 64]
    else [0xF8 + c / 16777216; 0x80 + c / 262144 mod 64; 0x80 + c / 4096 mod 64;
          0x80 + c / 64 mod 64; 0x80 + c mod 64].
Proof.
  intros Hc. unfold bson_utf8_from_unichar. rewrite !Z.shiftr_div_pow2 by lia.
  rewrite Z.pow_0_r, Z.div_1_r.
  rewrite !(mask_byte _ _ 6 0x3F), !(mask_byte _ _ 4 0xF), !(mask_byte _ _ 3 0x7),
    !(mask_byte _ _ 2 0x3) by done.
  replace (c <=? 0x3FFFFFF) with true by lia.
  repeat match goal with |- context [if ?b then _ else _] => destruct b eqn:? end; bool_hyps;
    try done; repeat f_equal; divmod.
Qed.

Lemma get_char_spec b0 bs post n m :
  is_byte b0 -> lead_class b0 = (n, m) -> n = zlen (b0 :: bs) -> (length bs <= 5)%nat ->
  Forall is_byte bs ->
  bson_utf8_get_char (b0 :: bs ++ post) = Ret (accumulate (Z.land b0 m) bs) /\
  bson_utf8_next_char (b0 :: bs ++ post) = Ret n.
Proof.
  intros Hb Hl Hn Hlen Hbs. unfold bson_utf8_get_char, bson_utf8_next_char.
  rewrite (get_sequence_class _ _ b0), Hl by done. cbn [mbind outcome_bind].
  split; [|done]. change (rd (b0 :: bs ++ post) 0) with (Ret b0). cbn [mbind outcome_bind].
  replace (Z.to_nat (n - 1)) with (length bs) by zl.
  pose proof (lead_class_bound b0 Hb) as Hbd. rewrite Hl in Hbd. cbn in Hbd.
  destruct Hbd as (_ & Hc0 & Hc). rewrite zlen_cons in Hn. pose proof (zlen_nonneg bs).
  assert (Hc' : Z.land b0 m < 2 ^ (32 - 6 * zlen bs)) by (replace (zlen bs) with (n - 1) by lia; auto with lia).
  clear Hl Hn Hc. revert Hc0 Hc'. generalize (Z.land b0 m) as c.
  change (b0 :: bs ++ post) with ([b0] ++ bs ++ post). change 1 with (zlen [b0]) at 1.
  generalize [b0] as pre. clear b0 Hb.
  induction Hbs as [|b bs Hb Hbs IH]; intros pre c H0 H1; [done|].
  rewrite zlen_cons in *. pose proof (zlen_nonneg bs). simpl in Hlen.
  destruct (acc_room bs c b) as [? ?]; [lia | lia |].
  change (accumulate c (b :: bs)) with (accumulate (c * 64 + b mod 64) bs).
  cbn [length utf8_get_char_loop]. rewrite <- app_comm_cons, rd_at by done.
  cbn [mbind outcome_bind]. rewrite acc_step by lia. pose proof (Z.mod_pos_bound b 64).
  rewrite app_shift. replace (zlen pre + 1) with (zlen (pre ++ [b])) by zl.
  apply IH; lia.
Qed.

Ltac lead_side := unfold lead_class;
  repeat match goal with |- context [if ?b then _ else _] => destruct b eqn:? end;
  bool_hyps; (done || divmod).
Ltac bytes_side := repeat constructor; unfold is_byte; divmod.

(** Decoding a lead byte and its continuation bytes, with the value given. *)
Lemma decode_value b0 bs post n m c :
  lead_class b0 = (n, m) -> is_byte b0 -> n = zlen (b0 :: bs) -> (length bs <= 5)%nat ->
  Forall is_byte bs -> accumulate (Z.land b0 m) bs = c ->
  bson_utf8_get_char (b0 :: bs ++ post) = Ret c /\
  bson_utf8_next_char (b0 :: bs ++ post) = Ret (zlen (b0 :: bs)).
Proof. intros ?? Hn ?? <-. rewrite <- Hn. by apply get_char_spec. Qed.

(** Round trip of one character: for every code point up to 0x3FFFFFF
    (in particular for all of Unicode), decoding what
    [bson_utf8_from_unichar] wrote gives the code point back, and
    [bson_utf8_next_char] advances by exactly the bytes written. *)
Theorem bson_utf8_unichar_roundtrip (c : Z) (post : bytes) :
  0 <= c <= 0x3FFFFFF ->
  bson_utf8_get_char (bson_utf8_from_unichar c ++ post) = Ret c /\
  bson_utf8_next_char (bson_utf8_from_unichar c ++ post) = Ret (zlen (bson_utf8_from_unichar c)).
Proof.
  intros Hc. rewrite from_unichar_arith by done.
  repeat match goal with |- context [if ?b then _ else _] => destruct b eqn:? end; bool_hyps.
  - apply (decode_value c [] post 1 0x7F); [lead_side | bytes_side | done | simpl; lia | bytes_side |].
    unfold accumulate. cbn. rewrite (land_mask _ _ 7) by lia. divmod.
  - apply (decode_value _ [_] post 2 0x1F); [lead_side | bytes_side | done | simpl; lia | bytes_side |].
    unfold accumulate. cbn [fold_left]. rewrite (land_mask _ _ 5) by lia. divmod.
  - apply (decode_value _ [_; _] post 3 0x0F); [lead_side | bytes_side | done | simpl; lia | bytes_side |].
    unfold accumulate. cbn [fold_left]. rewrite (land_mask _ _ 4) by lia. divmod.
  - apply (decode_value _ [_; _; _] post 4 0x07); [lead_side | bytes_side | done | simpl; lia | bytes_side |].
    unfold accumulate. cbn [fold_left]. rewrite (land_mask _ _ 3) by lia. divmod.
  - apply (decode_value _ [_; _; _; _] post 5 0x03); [lead_side | bytes_side | done | simpl; lia | bytes_side |].
    unfold accumulate. cbn [fold_left]. rewrite (land_mask _ _ 2) by lia. divmod.
Qed.

Lemma bson_utf8_unichar_roundtrip_witness :
  bson_utf8_get_char (bson_utf8_from_unichar 0x20AC ++ [0]) = Ret 0x20AC /\
  bson_utf8_next_char (bson_utf8_from_unichar 0x20AC ++ [0])
    = Ret (zlen (bson_utf8_from_unichar 0x20AC)).
Proof. apply (bson_utf8_unichar_roundtrip 0x20AC [0]). lia. Defined.

(** On scalar values [bson_utf8_from_unichar] is the RFC 3629 encoding. *)
Lemma from_unichar_encode c : scalar_value c -> bson_utf8_from_unichar c = utf8_encode c.
Proof.
  intros Hc. rewrite from_unichar_arith by (destruct Hc; lia). unfold utf8_encode.
  repeat match goal with |- context [if ?b then _ else _] => destruct b eqn:? end; bool_hyps;
    try done; destruct Hc; lia.
Qed.

(** The six-byte form is not an encoding: for every code point it is
    used for (0x4000000 .. 0x7FFFFFFF) decoding the six bytes gives
    [c / 128 * 64 + c mod 2], never [c] (the shifts 31, 25, 19, 13, 7, 0 of
    the source should be 30, 24, 18, 12, 6, 0). *)
Theorem bson_utf8_from_unichar_six_bytes (c : Z) (post : bytes) :
  0x4000000 <= c <= 0x7FFFFFFF ->
  bson_utf8_get_char (bson_utf8_from_unichar c ++ post) = Ret (c / 128 * 64 + c mod 2) /\
  c / 128 * 64 + c mod 2 <> c.
Proof.
  intros Hc. split; [|divmod]. unfold bson_utf8_from_unichar.
  rewrite !Z.shiftr_div_pow2 by lia. rewrite Z.pow_0_r, Z.div_1_r.
  rewrite !(mask_byte _ _ 6 0x3F), !(mask_byte _ _ 1 0x1) by done.
  repeat match goal with |- context [if ?b then _ else _] => destruct b eqn:? end;
    bool_hyps; try lia.
  apply (decode_value _ [_; _; _; _; _] post 6 0x01);
    [lead_side | bytes_side | done | simpl; lia | bytes_side |].
  unfold accumulate. cbn [fold_left]. rewrite (land_mask _ _ 1) by lia.
  change (2 ^ 6) with 64. change (2 ^ 1) with 2. divmod.
Qed.

Lemma bson_utf8_from_unichar_six_bytes_witness :
  bson_utf8_get_char (bson_utf8_from_unichar 0x4000003 ++ [0]) = Ret (0x4000003 / 128 * 64 + 0x4000003 mod 2)
  /\ 0x4000003 / 128 * 64 + 0x4000003 mod 2 <> 0x4000003.
Proof. apply (bson_utf8_from_unichar_six_bytes 0x4000003 [0]). lia. Defined.
