(* ===== verification/Strings.v ===== *)
(** * Growable strings (bson-string.c)

    [bson_string_t] and the string helpers of the library.  The invariant
    [srep s t] relates a [bson_string_t] to the text it holds; every
    operation is shown to maintain it and to act on the text as expected. *)
From S2P Require Import Prelude Memory Utf8.

(** ** Operations *)

Record bson_string_t := mk_string { s_str : bytes; s_len : Z; s_alloc : Z }.

Definition BSON_ASSERTo (b : bool) : outcome () := if b then Ret () else Abort.

Definition round_alloc (alloc : Z) : Z :=
  if bson_is_power_of_two alloc then alloc else u32 (bson_next_power_of_two alloc).

Definition bson_string_new (str : option bytes) : outcome bson_string_t :=
  len ← match str with Some s => n ← strlen s; Ret (u32 n) | None => Ret 0 end;
  let alloc := round_alloc (u32 (len + 1)) in
  BSON_ASSERTo (1 <=? alloc);;
  let p := bson_malloc alloc in
  p ← match str with Some s => bs ← rdn s 0 len; wrn p 0 bs | None => Ret p end;
  p ← wrn p len [0];
  p ← wrn p len [0];
  Ret (mk_string p len alloc).

(** Returns the segment when it is not freed. *)
Definition bson_string_free (string : bson_string_t) (free_segment : bool) : option bytes :=
  if negb free_segment then Some (s_str string) else None.

Definition bson_string_append (string : bson_string_t) (str : bytes) : outcome bson_string_t :=
  n ← strlen str;
  let len := u32 n in
  let string :=
    if u32 (s_alloc string - s_len string - 1) <? len then
      let alloc := round_alloc (u32 (s_alloc string + len)) in
      mk_string (bson_realloc (Some (s_str string)) alloc) (s_len string) alloc
    else string in
  bs ← rdn str 0 len;
  p ← wrn (s_str string) (s_len string) bs;
  let l := u32 (s_len string + len) in
  p ← wrn p l [0];
  Ret (mk_string p l (s_alloc string)).

Definition bson_string_append_c (string : bson_string_t) (c : Z) : outcome bson_string_t :=
  if s_alloc string =? u32 (s_len string + 1) then bson_string_append string [c; 0]
  else
    p ← wrn (s_str string) (s_len string) [c];
    let l := u32 (s_len string + 1) in
    p ← wrn p l [0];
    Ret (mk_string p l (s_alloc string)).

Definition bson_string_append_unichar (string : bson_string_t) (unichar : Z) : outcome bson_string_t :=
  BSON_ASSERTo (negb (unichar =? 0));;
  let str := bson_utf8_from_unichar unichar in
  if zlen str <=? 6 then bson_string_append string (str ++ [0]) else Ret string.

(** [printed] is the text [bson_strdupv_printf] produces for the format and
    its arguments: the formatting itself is the C library's. *)
Definition bson_string_append_printf (string : bson_string_t) (printed : bytes) : outcome bson_string_t :=
  bson_string_append string (printed ++ [0]).

Definition bson_string_truncate (string : bson_string_t) (len : Z) : outcome bson_string_t :=
  BSON_ASSERTo (len <? INT_MAX);;
  let alloc := u32 (len + 1) in
  let alloc := if alloc <? 16 then 16 else alloc in
  let alloc := round_alloc alloc in
  let p := bson_realloc (Some (s_str string)) alloc in
  p ← wrn p len [0];
  Ret (mk_string p len alloc).

Definition bson_strdup (str : option bytes) : outcome (option bytes) :=
  match str with
  | None => Ret None
  | Some str =>
    len ← strlen str;
    out ← rdn str 0 (len + 1);
    p ← wrn (bson_malloc (len + 1)) 0 out;
    Ret (Some p)
  end.

(** [strncpy]: copies up to [size] bytes, padding with NULs. *)
Fixpoint strncpy_bytes (size : nat) (src : bytes) : outcome bytes :=
  match size with
  | O => Ret []
  | S size =>
    match src with
    | [] => Oob
    | b :: src =>
      if b =? 0 then Ret (replicate (S size) 0)
      else t ← strncpy_bytes size src; Ret (b :: t)
    end
  end.

Definition bson_strncpy (dst src : bytes) (size : Z) : outcome bytes :=
  bs ← strncpy_bytes (Z.to_nat size) src;
  dst ← wrn dst 0 bs;
  wrn dst (size - 1) [0].

Definition bson_strndup (str : bytes) (n_bytes : Z) : outcome bytes :=
  bson_strncpy (bson_malloc (n_bytes + 1)) str (n_bytes + 1).

(** [strnlen] *)
Fixpoint bson_strnlen_nat (s : bytes) (maxlen : nat) : outcome Z :=
  match maxlen with
  | O => Ret 0
  | S maxlen =>
    match s with
    | [] => Oob
    | b :: s => if b =? 0 then Ret 0 else n ← bson_strnlen_nat s maxlen; Ret (n + 1)
    end
  end.

Definition bson_strnlen (s : bytes) (maxlen : Z) : outcome Z :=
  bson_strnlen_nat s (Z.to_nat maxlen).

(** ** The invariant *)

Record srep (s : bson_string_t) (t : bytes) : Prop := mk_srep {
  srep_len : s_len s = zlen t;
  srep_alloc : s_alloc s = zlen (s_str s);
  srep_bound : s_alloc s <= 2 ^ 31;
  srep_bytes : exists slack, s_str s = t ++ 0 :: slack;
}.

Lemma is_power_of_two_le v : 1 <= v <= 2 ^ 31 -> v <= round_alloc v <= 2 ^ 31.
Proof.
  intros Hv. unfold round_alloc. destruct (bson_is_power_of_two v) eqn:E; [lia|].
  assert (v <> 1) by (intros ->; done).
  assert (bson_next_power_of_two v <= 2 ^ 31).
  { rewrite next_power_of_two_spec by lia. apply Z.pow_le_mono_r; [lia|].
    change 31 with (Z.log2_up (2 ^ 31)). apply Z.log2_up_le_mono. lia. }
  pose proof (next_power_of_two_bounds v ltac:(lia)). rewrite u32_id by lia. lia.
Qed.

Lemma bson_realloc_grow old n :
  zlen old <= n -> exists ext, bson_realloc (Some old) n = old ++ ext /\ zlen ext = n - zlen old.
Proof.
  intros H. destruct (bson_realloc_ctx_ok old n H) as (ext & E & L).
  exists ext. split; [done|]. rewrite zlen_app in L. lia.
Qed.

(** Writing [bs] and a terminator at the end of the text. *)
Lemma write_text (t bs slack : bytes) :
  zlen bs <= zlen slack ->
  exists slack', wrn (t ++ 0 :: slack) (zlen t) bs ≫= (fun p => wrn p (zlen t + zlen bs) [0])
    = Ret ((t ++ bs) ++ 0 :: slack') /\ zlen slack' = zlen slack - zlen bs.
Proof.
  intros H. set (room := 0 :: slack).
  set (gap := take (length bs) room). set (rest := drop (length bs) room).
  assert (Er : room = gap ++ rest) by (symmetry; apply take_drop).
  destruct rest as [|x slack'] eqn:Erest.
  { subst rest. apply (f_equal length) in Erest. rewrite length_drop in Erest. subst room. zl. }
  assert (zlen gap = zlen bs) by (subst gap room; zl).
  exists slack'. rewrite Er, (wrn_mid t gap (x :: slack')) by lia. cbn [mbind outcome_bind].
  rewrite app_assoc. rewrite (wrn_mid (t ++ bs) [x] slack') by (zl || done).
  split; [done|]. apply (f_equal zlen) in Er. subst room. rewrite zlen_app, !zlen_cons in Er. lia.
Qed.

Lemma bson_string_new_spec (t post : bytes) :
  Forall (fun b => b <> 0) t -> zlen t < 2 ^ 31 ->
  exists s, bson_string_new (Some (t ++ 0 :: post)) = Ret s /\ srep s t.
Proof.
  intros Hnz Hlen. unfold bson_string_new. rewrite strlen_cstr by done. cbn [mbind outcome_bind].
  pose proof (zlen_nonneg t). rewrite !u32_id by (rewrite ?u32_id; lia).
  pose proof (is_power_of_two_le (zlen t + 1) ltac:(lia)). set (al := round_alloc _) in *.
  replace (1 <=? al) with true by lia. cbn [mbind outcome_bind BSON_ASSERTo].
  rewrite (rdn_mid [] t (0 :: post)) by done. cbn [mbind outcome_bind].
  pose proof (zlen_bson_malloc al ltac:(lia)) as Hm. set (p := bson_malloc al) in *.
  assert (exists x ext, p = take (length t) p ++ x :: ext) as (x & ext & Ep).
  { destruct (drop (length t) p) as [|x ext] eqn:E.
    - apply (f_equal length) in E. rewrite length_drop in E. zl.
    - exists x, ext. by rewrite <- E, take_drop. }
  set (g := take (length t) p) in *. assert (zlen g = zlen t) by (subst g; zl).
  assert (zlen p = zlen t + 1 + zlen ext) as Lp by (rewrite Ep; zl).
  rewrite Ep. rewrite (wrn_mid [] g (x :: ext)) by done. cbn [mbind outcome_bind app].
  rewrite (wrn_mid t [x] ext) by done. cbn [mbind outcome_bind].
  rewrite (wrn_mid t [0] ext) by done. cbn [mbind outcome_bind].
  eexists. split; [reflexivity|]. constructor; cbn [s_len s_str s_alloc];
    [done | zl | lia | by exists ext].
Qed.

Lemma bson_string_new_empty : exists s, bson_string_new None = Ret s /\ srep s [].
Proof.
  eexists. split; [vm_compute; reflexivity|]. constructor; [done | done | done | by exists []].
Qed.

Lemma bson_string_append_spec s t (str post : bytes) :
  srep s t -> Forall (fun b => b <> 0) str -> zlen t + zlen str < 2 ^ 30 ->
  exists s', bson_string_append s (str ++ 0 :: post) = Ret s' /\ srep s' (t ++ str).
Proof.
  intros [Sl Sa Sb [slack Es]] Hnz Hlen. unfold bson_string_append.
  pose proof (zlen_nonneg t). pose proof (zlen_nonneg str). pose proof (zlen_nonneg slack).
  assert (La : s_alloc s = zlen t + 1 + zlen slack) by (rewrite Sa, Es; zl).
  rewrite strlen_cstr by done. cbn [mbind outcome_bind].
  rewrite !(u32_id (zlen str)), (u32_id (s_alloc s - s_len s - 1)), Sl by lia.
  (* the buffer after a possible reallocation *)
  set (s1 := if _ <? _ then _ else s).
  assert (Hs1 : s_len s1 = zlen t /\ s_alloc s1 <= 2 ^ 31 /\
    exists slack1, s_str s1 = t ++ 0 :: slack1 /\ zlen str <= zlen slack1 /\
      s_alloc s1 = zlen t + 1 + zlen slack1).
  { subst s1. destruct (s_alloc s - zlen t - 1 <? zlen str) eqn:E; bool_hyps.
    - rewrite (u32_id (s_alloc s + zlen str)) by lia.
      pose proof (is_power_of_two_le (s_alloc s + zlen str) ltac:(lia)).
      set (al := round_alloc _) in *. cbn [s_len s_alloc s_str].
      destruct (bson_realloc_grow (s_str s) al) as (ext & Ee & Le); [lia|].
      split; [done|]. split; [lia|]. exists (slack ++ ext). rewrite Ee, Es, <- app_assoc.
      split; [done|]. zl.
    - split; [done|]. split; [done|]. exists slack. split; [done|]. lia. }
  destruct Hs1 as (L1 & B1 & slack1 & E1 & R1 & A1).
  rewrite (rdn_mid [] str (0 :: post)) by done. cbn [mbind outcome_bind]. rewrite E1, L1.
  rewrite u32_id by lia.
  destruct (write_text t str slack1 R1) as (slack2 & E2 & L2).

  destruct (wrn (t ++ 0 :: slack1) (zlen t) str) as [p| | |]; try discriminate E2.
  cbn [mbind outcome_bind] in *. rewrite E2. cbn [mbind outcome_bind].
  eexists. split; [reflexivity|]. constructor; cbn [s_len s_str s_alloc]; [zl | zl | done | eauto].
Qed.

Lemma bson_string_append_c_spec s t c :
  srep s t -> c <> 0 -> zlen t + 1 < 2 ^ 30 ->
  exists s', bson_string_append_c s c = Ret s' /\ srep s' (t ++ [c]).
Proof.
  intros R Hc Hlen. unfold bson_string_append_c. pose proof R as [Sl Sa Sb [slack Es]].
  pose proof (zlen_nonneg t). rewrite !u32_id by lia.
  destruct (s_alloc s =? s_len s + 1) eqn:E; bool_hyps.
  - apply (bson_string_append_spec s t [c] []); [done | by repeat constructor | zl].
  - assert (La : s_alloc s = zlen t + 1 + zlen slack) by (rewrite Sa, Es; zl).
    pose proof (zlen_nonneg slack).
    destruct (write_text t [c] slack) as (slack' & E' & L'); [zl|].
    rewrite Es, Sl. change (zlen [c]) with 1 in *.
    destruct (wrn (t ++ 0 :: slack) (zlen t) [c]) as [p| | |]; try discriminate E'.
    cbn [mbind outcome_bind] in *. rewrite E'. cbn [mbind outcome_bind].
    eexists. split; [reflexivity|]. constructor; cbn [s_len s_str s_alloc]; [zl | zl | done | eauto].
Qed.

Lemma bson_string_append_unichar_spec s t c :
  srep s t -> 0 < c <= 0x3FFFFFF -> zlen t + 6 < 2 ^ 30 ->
  exists s', bson_string_append_unichar s c = Ret s' /\ srep s' (t ++ bson_utf8_from_unichar c).
Proof.
  intros R Hc Hlen. unfold bson_string_append_unichar.
  replace (negb (c =? 0)) with true by (symmetry; apply negb_true_iff; lia).
  cbn [mbind outcome_bind BSON_ASSERTo].
  assert (Forall (fun b => b <> 0) (bson_utf8_from_unichar c) /\ zlen (bson_utf8_from_unichar c) <= 6)
    as [Hnz Hl].
  { rewrite from_unichar_arith by lia.
    repeat match goal with |- context [if ?b then _ else _] => destruct b eqn:? end; bool_hyps;
      (split; [repeat constructor; divmod | zl]). }
  replace (zlen (bson_utf8_from_unichar c) <=? 6) with true by lia.
  by apply (bson_string_append_spec s t _ []); [| |lia].
Qed.

Lemma bson_string_truncate_spec s t n :
  srep s t -> 0 <= n <= zlen t -> n < 2 ^ 30 ->
  exists s', bson_string_truncate s n = Ret s' /\ srep s' (take (Z.to_nat n) t).
Proof.
  intros [Sl Sa Sb [slack Es]] Hn Hmax. unfold bson_string_truncate, INT_MAX.
  replace (n <? 2147483647) with true by lia. cbn [mbind outcome_bind BSON_ASSERTo].
  rewrite u32_id by lia. set (al0 := if n + 1 <? 16 then 16 else n + 1).
  assert (n + 1 <= al0 <= 2 ^ 31) by (subst al0; destruct (n + 1 <? 16) eqn:E; bool_hyps; lia).
  pose proof (is_power_of_two_le al0 ltac:(lia)). set (al := round_alloc al0) in *.
  set (p := bson_realloc _ al).
  assert (zlen p = al /\ exists x ext, p = take (Z.to_nat n) t ++ x :: ext) as (Lp & x & ext & Ep).
  { assert (Lp : zlen p = al) by (subst p; unfold bson_realloc; cbn [from_option id]; zl).
    split; [done|].
    assert (Epre : take (Z.to_nat n) p = take (Z.to_nat n) t).
    { subst p. unfold bson_realloc. cbn [from_option id]. rewrite Es.
      rewrite take_app_le, take_take, Nat.min_l
        by (rewrite ?length_take, ?length_app; unfold zlen in *; simpl; lia).
      apply take_app_le. zl. }
    destruct (drop (Z.to_nat n) p) as [|x ext] eqn:E.
    - apply (f_equal length) in E. rewrite length_drop in E. zl.
    - exists x, ext. by rewrite <- E, <- Epre, take_drop. }
  rewrite Ep, (wrn_mid _ [x] ext) by (zl || done). cbn [mbind outcome_bind].
  eexists. split; [reflexivity|].
  rewrite Ep in Lp. constructor; cbn [s_len s_str s_alloc]; [zl | zl | lia | eauto].
Qed.
