(* ===== verification/Format.v ===== *)
(** * The BSON format (bsonspec.org), as the abstract specification

    Documents are lists of key/value pairs; [encode_value] and [encode_doc]
    give their bytes.  The builder ([Document], [Append], [Build]) is proved
    to produce these bytes and the iterator ([Iter], [RoundTrip]) to read them
    back.  The type numbers are those of [bson_type_t] in bson-types.h. *)
From S2P Require Import Prelude.

Definition BSON_TYPE_EOD : Z := 0x00.
Definition BSON_TYPE_DOUBLE : Z := 0x01.
Definition BSON_TYPE_UTF8 : Z := 0x02.
Definition BSON_TYPE_DOCUMENT : Z := 0x03.
Definition BSON_TYPE_ARRAY : Z := 0x04.
Definition BSON_TYPE_BINARY : Z := 0x05.
Definition BSON_TYPE_UNDEFINED : Z := 0x06.
Definition BSON_TYPE_OID : Z := 0x07.
Definition BSON_TYPE_BOOL : Z := 0x08.
Definition BSON_TYPE_DATE_TIME : Z := 0x09.
Definition BSON_TYPE_NULL : Z := 0x0A.
Definition BSON_TYPE_REGEX : Z := 0x0B.
Definition BSON_TYPE_DBPOINTER : Z := 0x0C.
Definition BSON_TYPE_CODE : Z := 0x0D.
Definition BSON_TYPE_SYMBOL : Z := 0x0E.
Definition BSON_TYPE_CODEWSCOPE : Z := 0x0F.
Definition BSON_TYPE_INT32 : Z := 0x10.
Definition BSON_TYPE_TIMESTAMP : Z := 0x11.
Definition BSON_TYPE_INT64 : Z := 0x12.
Definition BSON_TYPE_DECIMAL128 : Z := 0x13.
Definition BSON_TYPE_MAXKEY : Z := 0x7F.
Definition BSON_TYPE_MINKEY : Z := 0xFF.
Definition BSON_SUBTYPE_BINARY : Z := 0x00.
Definition BSON_SUBTYPE_BINARY_DEPRECATED : Z := 0x02.

(** ** Values *)

Inductive value : Type :=
| VDouble (bits : Z)
| VUtf8 (s : bytes)
| VDocument (els : list (bytes * value))
| VArray (els : list (bytes * value))
| VBinary (subtype : Z) (data : bytes)
| VUndefined
| VOid (oid : bytes)
| VBool (b : bool)
| VDateTime (msec : Z)
| VNull
| VRegex (regex options : bytes)
| VDbPointer (collection oid : bytes)
| VCode (js : bytes)
| VSymbol (s : bytes)
| VCodeWScope (js : bytes) (scope : list (bytes * value))
| VInt32 (n : Z)
| VTimestamp (timestamp increment : Z)
| VInt64 (n : Z)
| VDecimal128 (low high : Z)
| VMaxKey
| VMinKey.

Definition type_of (v : value) : Z :=
  match v with
  | VDouble _ => BSON_TYPE_DOUBLE
  | VUtf8 _ => BSON_TYPE_UTF8
  | VDocument _ => BSON_TYPE_DOCUMENT
  | VArray _ => BSON_TYPE_ARRAY
  | VBinary _ _ => BSON_TYPE_BINARY
  | VUndefined => BSON_TYPE_UNDEFINED
  | VOid _ => BSON_TYPE_OID
  | VBool _ => BSON_TYPE_BOOL
  | VDateTime _ => BSON_TYPE_DATE_TIME
  | VNull => BSON_TYPE_NULL
  | VRegex _ _ => BSON_TYPE_REGEX
  | VDbPointer _ _ => BSON_TYPE_DBPOINTER
  | VCode _ => BSON_TYPE_CODE
  | VSymbol _ => BSON_TYPE_SYMBOL
  | VCodeWScope _ _ => BSON_TYPE_CODEWSCOPE
  | VInt32 _ => BSON_TYPE_INT32
  | VTimestamp _ _ => BSON_TYPE_TIMESTAMP
  | VInt64 _ => BSON_TYPE_INT64
  | VDecimal128 _ _ => BSON_TYPE_DECIMAL128
  | VMaxKey => BSON_TYPE_MAXKEY
  | VMinKey => BSON_TYPE_MINKEY
  end.

(** ** Encoding *)

(** A whole document with the given element bytes. *)
Definition doc_bytes (body : bytes) : bytes := le_bytes 4 (zlen body + 5) ++ body ++ [0].

(** The header of an element: type byte, key, NUL. *)
Definition elem_hdr (ty : Z) (kb : bytes) : bytes := ty :: kb ++ [0].

(** A length-prefixed string with its terminator. *)
Definition string_bytes (s : bytes) : bytes := le_bytes 4 (zlen s + 1) ++ s ++ [0].

Definition binary_bytes (subtype : Z) (data : bytes) : bytes :=
  if subtype =? BSON_SUBTYPE_BINARY_DEPRECATED
  then le_bytes 4 (zlen data + 4) ++ [subtype] ++ le_bytes 4 (zlen data) ++ data
  else le_bytes 4 (zlen data) ++ [subtype] ++ data.

Fixpoint encode_value (v : value) : bytes :=
  match v with
  | VDouble bits => le_bytes 8 bits
  | VUtf8 s => string_bytes s
  | VDocument els | VArray els =>
    doc_bytes (concat (map (fun '(k, v) => elem_hdr (type_of v) k ++ encode_value v) els))
  | VBinary subtype data => binary_bytes subtype data
  | VUndefined | VNull | VMaxKey | VMinKey => []
  | VOid oid => oid
  | VBool b => [if b then 1 else 0]
  | VDateTime msec => le_bytes 8 (u64 msec)
  | VRegex regex options => (regex ++ [0]) ++ options ++ [0]
  | VDbPointer collection oid => string_bytes collection ++ oid
  | VCode js => string_bytes js
  | VSymbol s => string_bytes s
  | VCodeWScope js scope =>
    let d := doc_bytes (concat (map (fun '(k, v) => elem_hdr (type_of v) k ++ encode_value v) scope)) in
    le_bytes 4 (4 + zlen (string_bytes js) + zlen d) ++ string_bytes js ++ d
  | VInt32 n => le_bytes 4 (u32 n)
  | VTimestamp timestamp increment => le_bytes 4 increment ++ le_bytes 4 timestamp
  | VInt64 n => le_bytes 8 (u64 n)
  | VDecimal128 low high => le_bytes 8 low ++ le_bytes 8 high
  end.

Definition encode_elem (kv : bytes * value) : bytes :=
  elem_hdr (type_of kv.2) kv.1 ++ encode_value kv.2.

Definition encode_body (els : list (bytes * value)) : bytes := concat (map encode_elem els).

Definition encode_doc (els : list (bytes * value)) : bytes := doc_bytes (encode_body els).

Lemma encode_body_cons kv els : encode_body (kv :: els) = encode_elem kv ++ encode_body els.
Proof. reflexivity. Qed.

Lemma encode_body_app els els' : encode_body (els ++ els') = encode_body els ++ encode_body els'.
Proof. unfold encode_body. by rewrite map_app, concat_app. Qed.

Lemma encode_elems_eq els :
  concat (map (fun '(k, v) => elem_hdr (type_of v) k ++ encode_value v) els) = encode_body els.
Proof.
  unfold encode_body. f_equal. apply map_ext. by intros [k v].
Qed.

Lemma encode_document els : encode_value (VDocument els) = encode_doc els.
Proof. unfold encode_doc. by rewrite <- encode_elems_eq. Qed.
Lemma encode_array els : encode_value (VArray els) = encode_doc els.
Proof. unfold encode_doc. by rewrite <- encode_elems_eq. Qed.
Lemma encode_codewscope js scope :
  encode_value (VCodeWScope js scope) =
    le_bytes 4 (4 + zlen (string_bytes js) + zlen (encode_doc scope)) ++ string_bytes js ++ encode_doc scope.
Proof. unfold encode_doc. by rewrite <- encode_elems_eq. Qed.

Lemma zlen_doc_bytes body : zlen (doc_bytes body) = zlen body + 5.
Proof. unfold doc_bytes. zl. Qed.
Lemma zlen_elem_hdr ty kb : zlen (elem_hdr ty kb) = zlen kb + 2.
Proof. unfold elem_hdr. zl. Qed.
Lemma zlen_string_bytes s : zlen (string_bytes s) = zlen s + 5.
Proof. unfold string_bytes. zl. Qed.
#[export] Hint Rewrite zlen_doc_bytes zlen_elem_hdr zlen_string_bytes : zlen.

Lemma doc_bytes_inj body body' : doc_bytes body = doc_bytes body' -> body = body'.
Proof.
  intros E. assert (zlen body = zlen body') as El by (apply (f_equal zlen) in E; rewrite !zlen_doc_bytes in E; lia).
  unfold doc_bytes in E. rewrite El in E. apply app_inv_head in E. by apply app_inv_tail in E.
Qed.

(** ** Well-formed values

    Keys and zero-terminated strings contain no NUL, numbers are in range
    and every byte is a byte: what a value of the C types satisfies. *)
Definition no_nul (s : bytes) : Prop := Forall (fun b => b <> 0) s.

(** Induction on values through the element lists. *)
Fixpoint value_ind' (P : value -> Prop)
    (Hdoc : forall els, Forall (fun kv => P kv.2) els -> P (VDocument els))
    (Harr : forall els, Forall (fun kv => P kv.2) els -> P (VArray els))
    (Hcws : forall js els, Forall (fun kv => P kv.2) els -> P (VCodeWScope js els))
    (Hleaf : forall v, match v with VDocument _ | VArray _ | VCodeWScope _ _ => True | _ => P v end)
    (v : value) : P v :=
  let go := fix go (els : list (bytes * value)) : Forall (fun kv => P kv.2) els :=
    match els with
    | [] => Forall_nil_2 _
    | kv :: els => Forall_cons_2 (fun kv => P kv.2) kv els (value_ind' P Hdoc Harr Hcws Hleaf kv.2) (go els)
    end in
  match v as v return P v with
  | VDocument els => Hdoc els (go els)
  | VArray els => Harr els (go els)
  | VCodeWScope js els => Hcws js els (go els)
  | v => Hleaf v
  end.

Definition int64_range (z : Z) : Prop := - 2 ^ 63 <= z < 2 ^ 63.
Definition int32_range (z : Z) : Prop := - 2 ^ 31 <= z < 2 ^ 31.
Definition uint_range (n z : Z) : Prop := 0 <= z < 2 ^ n.

Definition leaf_ok (v : value) : Prop :=
  match v with
  | VDouble bits => uint_range 64 bits
  | VUtf8 s | VSymbol s => Forall is_byte s
  | VBinary subtype data => is_byte subtype /\ Forall is_byte data
  | VOid oid => zlen oid = 12 /\ Forall is_byte oid
  | VDateTime n | VInt64 n => int64_range n
  | VRegex regex options => no_nul regex /\ no_nul options /\ Forall is_byte regex /\ Forall is_byte options
  | VDbPointer collection oid =>
    no_nul collection /\ Forall is_byte collection /\ zlen oid = 12 /\ Forall is_byte oid
  | VCode js => no_nul js /\ Forall is_byte js
  | VCodeWScope js _ => no_nul js /\ Forall is_byte js
  | VInt32 n => int32_range n
  | VTimestamp t i => uint_range 32 t /\ uint_range 32 i
  | VDecimal128 low high => uint_range 64 low /\ uint_range 64 high
  | VDocument _ | VArray _ | VUndefined | VBool _ | VNull | VMaxKey | VMinKey => True
  end.

Definition key_wf (k : bytes) : Prop := no_nul k /\ Forall is_byte k.

Inductive value_ok : value -> Prop :=
| value_ok_leaf v :
    match v with VDocument _ | VArray _ | VCodeWScope _ _ => False | _ => True end ->
    leaf_ok v -> value_ok v
| value_ok_document els : elems_ok els -> value_ok (VDocument els)
| value_ok_array els : elems_ok els -> value_ok (VArray els)
| value_ok_codewscope js els : leaf_ok (VCodeWScope js els) -> elems_ok els -> value_ok (VCodeWScope js els)
with elems_ok : list (bytes * value) -> Prop :=
| elems_ok_nil : elems_ok []
| elems_ok_cons k v els : key_wf k -> value_ok v -> elems_ok els -> elems_ok ((k, v) :: els).
