(* ===== verification/Document.v ===== *)
(** * The document buffer (bson.c, bson-private.h, bson-types.h, bson-memory.c)

    A [bson_t] is a document under construction: either inline (120 bytes in
    the structure itself) or a window into a heap buffer that a parent
    document may own.  Parents and children share one buffer through the
    [buf]/[buflen] pointers, so the model has a store of objects and a store
    of buffer variables, and a [bson_t] names the variable its [buf] points
    to.

    The file models growth, [_bson_data], [_bson_append] and the child
    protocol, and proves them against an abstract view of a document: the
    bytes of its elements ([body]). *)
From S2P Require Import Prelude Memory Format.

(** ** Data *)

Definition BSON_FLAG_INLINE : Z := 1.
Definition BSON_FLAG_STATIC : Z := 2.
Definition BSON_FLAG_RDONLY : Z := 4.
Definition BSON_FLAG_CHILD : Z := 8.
Definition BSON_FLAG_IN_CHILD : Z := 16.
Definition BSON_FLAG_NO_FREE : Z := 32.
Definition BSON_INLINE_DATA_SIZE : Z := 120.
Definition BSON_MAX_SIZE : Z := 2147483647.

Definition has_flag (flags f : Z) : bool := negb (Z.land flags f =? 0).
Definition set_flag (flags f : Z) : Z := Z.lor flags f.
Definition clear_flag (flags f : Z) : Z := Z.ldiff flags f.

(** The fields of [bson_impl_alloc_t] after [flags] and [len].  [buf] and
    [buflen] point to the same variable pair, here the cell at address
    [a_buf]; the [alloc] and [alloclen] fields of an object are the cell at
    the object's own address. *)
Record bson_impl_alloc_t := mk_alloc {
  a_parent : option Z;
  a_depth : Z;
  a_buf : Z;
  a_offset : Z;
  a_realloc : option bson_realloc_func;
}.

Inductive bson_impl :=
| Inline (data : bytes)
| Alloc (a : bson_impl_alloc_t).

Record bson_t := mk_bson { b_flags : Z; b_len : Z; b_impl : bson_impl }.

(** A buffer pointer and its length. *)
Record cell := mk_cell { c_buf : option bytes; c_len : Z }.

Record mem := mk_mem { objs : gmap Z bson_t; cells : gmap Z cell }.

(** ** The monad of C code over the store *)

Definition M (A : Type) : Type := mem -> outcome (mem * A).
#[export] Instance M_ret : MRet M := fun A a m => Ret (m, a).
#[export] Instance M_bind : MBind M := fun A B f c m =>
  match c m with
  | Ret (m', a) => f a m'
  | Abort => Abort | Oob => Oob | Fuel => Fuel
  end.

Definition lift {A} (o : outcome A) : M A := fun m => a ← o; Ret (m, a).
Definition BSON_ASSERT (b : bool) : M () := fun m => if b then Ret (m, ()) else Abort.

Definition get_obj (b : Z) : M bson_t := fun m =>
  match objs m !! b with Some o => Ret (m, o) | None => Oob end.
Definition put_obj (b : Z) (o : bson_t) : M () := fun m =>
  Ret (mk_mem (<[b := o]> (objs m)) (cells m), ()).
Definition get_cell (l : Z) : M cell := fun m =>
  match cells m !! l with Some c => Ret (m, c) | None => Oob end.
Definition put_cell (l : Z) (c : cell) : M () := fun m =>
  Ret (mk_mem (objs m) (<[l := c]> (cells m)), ()).

Definition set_len (b len : Z) : M () :=
  o ← get_obj b; put_obj b (mk_bson (b_flags o) len (b_impl o)).
Definition set_flags (b flags : Z) : M () :=
  o ← get_obj b; put_obj b (mk_bson flags (b_len o) (b_impl o)).

(** Pointers into the inline array of an object or into a heap buffer. *)
Inductive ptr := PInline (b off : Z) | PCell (l off : Z).

Definition ptr_add (p : ptr) (n : Z) : ptr :=
  match p with PInline b off => PInline b (off + n) | PCell l off => PCell l (off + n) end.

(** The bytes from the pointer to the end of its object. *)
Definition load (p : ptr) : M bytes :=
  match p with
  | PInline b off =>
    o ← get_obj b;
    match b_impl o with
    | Inline data => lift (rdn data off (zlen data - off))
    | Alloc _ => lift Oob
    end
  | PCell l off =>
    c ← get_cell l;
    match c_buf c with
    | Some buf => lift (rdn buf off (zlen buf - off))
    | None => lift Oob
    end
  end.

Definition store (p : ptr) (bs : bytes) : M () :=
  match p with
  | PInline b off =>
    o ← get_obj b;
    match b_impl o with
    | Inline data =>
      data' ← lift (wrn data off bs);
      put_obj b (mk_bson (b_flags o) (b_len o) (Inline data'))
    | Alloc _ => lift Oob
    end
  | PCell l off =>
    c ← get_cell l;
    match c_buf c with
    | Some buf => buf' ← lift (wrn buf off bs); put_cell l (mk_cell (Some buf') (c_len c))
    | None => lift Oob
    end
  end.

(** ** Growth *)

Definition _bson_impl_inline_grow (b size : Z) : M bool :=
  o ← get_obj b;
  match b_impl o with
  | Alloc _ => lift Oob
  | Inline data =>
    if b_len o + size <=? BSON_INLINE_DATA_SIZE then mret true
    else
      let req := bson_next_power_of_two (u64 (b_len o + size)) in
      if req <=? INT32_MAX then
        old ← lift (rdn data 0 (b_len o));
        buf ← lift (wrn (bson_malloc req) 0 old);
        put_cell b (mk_cell (Some buf) req);;
        put_obj b (mk_bson (clear_flag (b_flags o) BSON_FLAG_INLINE) (b_len o)
                     (Alloc (mk_alloc None 0 b 0 (Some bson_realloc_ctx))));;
        mret true
      else mret false
  end.

Definition _bson_impl_alloc_grow (b size : Z) : M bool :=
  o ← get_obj b;
  match b_impl o with
  | Inline _ => lift Oob
  | Alloc a =>
    let req := u64 (a_offset a + b_len o + size + a_depth a) in
    c ← get_cell (a_buf a);
    if req <=? c_len c then mret true
    else
      let req := bson_next_power_of_two req in
      match a_realloc a with
      | Some realloc =>
        if req <=? INT32_MAX then
          put_cell (a_buf a) (mk_cell (Some (realloc (c_buf c) req)) req);;
          mret true
        else mret false
      | None => mret false
      end
  end.

Definition _bson_grow (b size : Z) : M bool :=
  o ← get_obj b;
  if has_flag (b_flags o) BSON_FLAG_INLINE
  then _bson_impl_inline_grow b size
  else _bson_impl_alloc_grow b size.

Definition _bson_data (b : Z) : M ptr :=
  o ← get_obj b;
  if has_flag (b_flags o) BSON_FLAG_INLINE then mret (PInline b 0)
  else match b_impl o with
       | Alloc a => mret (PCell (a_buf a) (a_offset a))
       | Inline _ => lift Oob
       end.

Definition _bson_encode_length (b : Z) : M () :=
  o ← get_obj b;
  p ← _bson_data b;
  store p (le_bytes 4 (b_len o)).

(** ** Appending *)

(** The [do ... while (n_pairs)] loop: copies one (length, pointer) pair and
    takes the next one from the argument list while pairs remain. *)
Fixpoint append_pairs (b : Z) (n_pairs : nat) (buf : ptr) (data_len : Z) (data : bytes)
    (args : list (Z * bytes)) : M ptr :=
  bs ← lift (rdn data 0 data_len);
  store buf bs;;
  o ← get_obj b;
  set_len b (u32 (b_len o + data_len));;
  let buf := ptr_add buf data_len in
  match n_pairs with
  | O => mret buf
  | S n_pairs =>
    match args with
    | (data_len, data) :: args => append_pairs b n_pairs buf data_len data args
    | [] => lift Oob
    end
  end.

Definition _bson_append_va (b n_bytes n_pairs first_len : Z) (first_data : bytes)
    (args : list (Z * bytes)) : M bool :=
  o ← get_obj b;
  BSON_ASSERT (negb (has_flag (b_flags o) BSON_FLAG_IN_CHILD));;
  BSON_ASSERT (negb (has_flag (b_flags o) BSON_FLAG_RDONLY));;
  ok ← _bson_grow b n_bytes;
  if negb ok then mret false
  else
    p ← _bson_data b;
    o ← get_obj b;
    buf ← append_pairs b (Z.to_nat (n_pairs - 1)) (ptr_add p (b_len o - 1)) first_len first_data args;
    _bson_encode_length b;;
    store buf [0];;
    mret true.

Definition _bson_append (b n_pairs n_bytes first_len : Z) (first_data : bytes)
    (args : list (Z * bytes)) : M bool :=
  BSON_ASSERT (negb (n_pairs =? 0));;
  BSON_ASSERT (negb (first_len =? 0));;
  o ← get_obj b;
  if n_bytes >? u64 (BSON_MAX_SIZE - b_len o) then mret false
  else _bson_append_va b n_bytes n_pairs first_len first_data args.

(** ** Child documents *)

(** [key_length < 0] means "use strlen". *)
Definition key_len (key : bytes) (key_length : Z) : M Z :=
  if key_length <? 0 then n ← lift (strlen key); mret (s32 n) else mret key_length.

Definition _bson_append_bson_begin (b : Z) (key : bytes) (key_length child_type child : Z) : M bool :=
  o ← get_obj b;
  BSON_ASSERT (negb (has_flag (b_flags o) BSON_FLAG_RDONLY));;
  BSON_ASSERT (negb (has_flag (b_flags o) BSON_FLAG_IN_CHILD));;
  BSON_ASSERT ((child_type =? BSON_TYPE_DOCUMENT) || (child_type =? BSON_TYPE_ARRAY));;
  key_length ← key_len key key_length;
  grown ← (if has_flag (b_flags o) BSON_FLAG_INLINE then
             BSON_ASSERT (b_len o <=? 120);;
             ok ← _bson_grow b (128 - b_len o);
             (if (ok : bool) then
                o ← get_obj b;
                BSON_ASSERT (negb (has_flag (b_flags o) BSON_FLAG_INLINE));;
                mret true
              else mret false)
           else mret true);
  if negb grown then mret false
  else
    ok ← _bson_append b 4 (u32 (1 + key_length + 1 + 5)) 1 [u8 child_type]
           [(key_length, key); (1, [0]); (5, [5; 0; 0; 0; 0])];
    if negb ok then mret false
    else
      o ← get_obj b;
      set_flags b (set_flag (b_flags o) BSON_FLAG_IN_CHILD);;
      match b_impl o with
      | Inline _ => lift Oob
      | Alloc a =>
        let depth := if has_flag (b_flags o) BSON_FLAG_CHILD then u32 (a_depth a + 1) else 1 in
        put_cell child (mk_cell None 0);;
        put_obj child
          (mk_bson (set_flag (set_flag BSON_FLAG_CHILD BSON_FLAG_NO_FREE) BSON_FLAG_STATIC) 5
             (Alloc (mk_alloc (Some b) depth (a_buf a) (u64 (a_offset a + b_len o - 1 - 5))
                       (a_realloc a))));;
        mret true
      end.

Definition _bson_append_bson_end (b child : Z) : M bool :=
  o ← get_obj b;
  oc ← get_obj child;
  BSON_ASSERT (has_flag (b_flags o) BSON_FLAG_IN_CHILD);;
  BSON_ASSERT (negb (has_flag (b_flags oc) BSON_FLAG_IN_CHILD));;
  set_flags b (clear_flag (b_flags o) BSON_FLAG_IN_CHILD);;
  set_len b (u32 (b_len o + b_len oc - 5));;
  p ← _bson_data b;
  o ← get_obj b;
  store (ptr_add p (b_len o - 1)) [0];;
  _bson_encode_length b;;
  mret true.

Definition bson_append_array_begin (b : Z) (key : bytes) (key_length child : Z) : M bool :=
  _bson_append_bson_begin b key key_length BSON_TYPE_ARRAY child.
Definition bson_append_array_end (b child : Z) : M bool := _bson_append_bson_end b child.
Definition bson_append_document_begin (b : Z) (key : bytes) (key_length child : Z) : M bool :=
  _bson_append_bson_begin b key key_length BSON_TYPE_DOCUMENT child.
Definition bson_append_document_end (b child : Z) : M bool := _bson_append_bson_end b child.

(** ** Life cycle *)

Definition bson_init (b : Z) : M () :=
  put_obj b (mk_bson (set_flag BSON_FLAG_INLINE BSON_FLAG_STATIC) 5
    (Inline ([5; 0; 0; 0; 0] ++ bson_malloc 115))).

Definition bson_reinit (b : Z) : M () :=
  p ← _bson_data b;
  set_len b 5;;
  store p [5; 0; 0; 0; 0].

(** * Proofs *)

(** ** Flags *)

Lemma has_clear_same x f : has_flag (clear_flag x f) f = false.
Proof.
  unfold has_flag, clear_flag. apply negb_false_iff, Z.eqb_eq.
  apply Z.bits_inj'. intros i Hi. rewrite Z.land_spec, Z.ldiff_spec, Z.bits_0.
  destruct (Z.testbit x i), (Z.testbit f i); done.
Qed.

Lemma has_clear_other x f g : Z.land f g = 0 -> has_flag (clear_flag x f) g = has_flag x g.
Proof.
  intros Hd. unfold has_flag, clear_flag. do 2 f_equal.
  apply Z.bits_inj'. intros i Hi. rewrite !Z.land_spec, Z.ldiff_spec.
  apply (f_equal (fun z => Z.testbit z i)) in Hd. rewrite Z.land_spec, Z.bits_0 in Hd.
  destruct (Z.testbit x i), (Z.testbit f i), (Z.testbit g i); done.
Qed.

Lemma has_set_same x f : f <> 0 -> has_flag (set_flag x f) f = true.
Proof.
  intros Hf. unfold has_flag, set_flag. apply negb_true_iff, Z.eqb_neq.
  rewrite Z.land_comm, Z.land_lor_distr_r, Z.land_diag. intros H. apply Z.lor_eq_0_iff in H. lia.
Qed.

Lemma has_set_other x f g : Z.land f g = 0 -> has_flag (set_flag x f) g = has_flag x g.
Proof.
  intros Hd. unfold has_flag, set_flag.
  by rewrite Z.land_lor_distr_l, Hd, Z.lor_0_r.
Qed.

(** ** Running the monad *)

Lemma run_bind {A B} (c : M A) (f : A -> M B) m m' a :
  c m = Ret (m', a) -> (mbind f c) m = f a m'.
Proof. intros H. unfold mbind, M_bind. by rewrite H. Qed.

Lemma mbind_inv {A B} (c : M A) (f : A -> M B) m m' b :
  (mbind f c) m = Ret (m', b) -> exists m1 a, c m = Ret (m1, a) /\ f a m1 = Ret (m', b).
Proof. unfold mbind, M_bind. destruct (c m) as [[m1 a]| | |]; [eauto | done..]. Qed.

Lemma run_get_obj b o m : objs m !! b = Some o -> get_obj b m = Ret (m, o).
Proof. intros H. unfold get_obj. by rewrite H. Qed.

(** [step H]: run the first command of a sequence with the equation [H]. *)
Ltac step H := rewrite (run_bind _ _ _ _ _ H); cbn beta zeta.

(** ** The view of one object: its structure and its whole buffer *)

Definition o_offset (o : bson_t) : Z :=
  match b_impl o with Inline _ => 0 | Alloc a => a_offset a end.
Definition o_depth (o : bson_t) : Z :=
  match b_impl o with Inline _ => 0 | Alloc a => a_depth a end.
Definition base_ptr (b : Z) (o : bson_t) : ptr :=
  match b_impl o with Inline _ => PInline b 0 | Alloc a => PCell (a_buf a) (a_offset a) end.
Definition own_cell (b : Z) (o : bson_t) : Z :=
  match b_impl o with Inline _ => b | Alloc a => a_buf a end.
Definition with_len (o : bson_t) (n : Z) : bson_t := mk_bson (b_flags o) n (b_impl o).
Definition with_flags (o : bson_t) (f : Z) : bson_t := mk_bson f (b_len o) (b_impl o).
Definition with_buf (o : bson_t) (B : bytes) : bson_t :=
  match b_impl o with Inline _ => mk_bson (b_flags o) (b_len o) (Inline B) | Alloc _ => o end.

Definition view (m : mem) (b : Z) (o : bson_t) (B : bytes) : Prop :=
  objs m !! b = Some o /\
  match b_impl o with
  | Inline data => has_flag (b_flags o) BSON_FLAG_INLINE = true /\ data = B
  | Alloc a => has_flag (b_flags o) BSON_FLAG_INLINE = false /\
               cells m !! a_buf a = Some (mk_cell (Some B) (zlen B))
  end.

Definition upd (m : mem) (b : Z) (o : bson_t) (B : bytes) : mem :=
  match b_impl o with
  | Inline _ => mk_mem (<[b := with_buf o B]> (objs m)) (cells m)
  | Alloc a => mk_mem (<[b := o]> (objs m)) (<[a_buf a := mk_cell (Some B) (zlen B)]> (cells m))
  end.

(** Two structures that use the same buffer in the same way. *)
Definition same_place (o o' : bson_t) : Prop :=
  match b_impl o, b_impl o' with
  | Inline _, Inline _ => True
  | Alloc a, Alloc a' => a_buf a = a_buf a'
  | _, _ => False
  end /\ has_flag (b_flags o') BSON_FLAG_INLINE = has_flag (b_flags o) BSON_FLAG_INLINE.

Lemma view_upd m b o o' B B' :
  view m b o B -> same_place o o' -> view (upd m b o' B') b (with_buf o' B') B'.
Proof.
  intros [H1 H2] [Hs Hf]. unfold view, upd, with_buf in *.
  destruct o as [f n [d|a]], o' as [f' n' [d'|a']]; simpl in *; try done.
  - rewrite lookup_insert_eq, Hf. by destruct H2.
  - rewrite !lookup_insert_eq, Hf. by destruct H2.
Qed.

Lemma upd_upd m b o o' B B' :
  same_place o o' -> upd (upd m b o B) b o' B' = upd m b o' B'.
Proof.
  intros [Hs _]. unfold upd. destruct o as [f n [d|a]], o' as [f' n' [d'|a']]; simpl in *; try done.
  - by rewrite insert_insert_eq.
  - rewrite Hs. by rewrite !insert_insert_eq.
Qed.

Lemma same_place_with_buf o o' B : same_place o o' -> same_place (with_buf o B) o'.
Proof. unfold same_place, with_buf. by destruct o as [f n [d|a]], o' as [f' n' [d'|a']]. Qed.

Lemma upd_view m b o B : view m b o B -> upd m b o B = m.
Proof.
  intros [H1 H2]. destruct m as [os cs]. unfold upd, with_buf. destruct o as [f n [d|a]]; simpl in *.
  - destruct H2 as [_ ->]. by rewrite insert_id.
  - destruct H2 as [_ ?]. by rewrite !insert_id.
Qed.

Section View.
Context (m : mem) (b : Z) (o : bson_t) (B : bytes) (V : view m b o B).

Lemma get_obj_view : get_obj b m = Ret (m, o).
Proof. apply run_get_obj, V. Qed.

Lemma data_view : _bson_data b m = Ret (m, base_ptr b o).
Proof using V.
  unfold _bson_data. step get_obj_view. destruct V as [_ H].
  unfold base_ptr. destruct (b_impl o); destruct H as [-> _]; done.
Qed.

Lemma set_len_view n : set_len b n m = Ret (upd m b (with_len o n) B, ()).
Proof using V.
  unfold set_len. step get_obj_view. unfold put_obj, upd, with_len, with_buf. destruct V as [_ H].
  destruct o as [f l [d|a]]; simpl in *; [by destruct H as [_ ->]|].
  destruct H as [_ H]. by rewrite (insert_id (cells m)).
Qed.

Lemma set_flags_view f :
  has_flag f BSON_FLAG_INLINE = has_flag (b_flags o) BSON_FLAG_INLINE ->
  set_flags b f m = Ret (upd m b (with_flags o f) B, ()).
Proof using V.
  intros _. unfold set_flags. step get_obj_view. unfold put_obj, upd, with_flags, with_buf.
  destruct V as [_ H].
  destruct o as [f' l [d|a]]; simpl in *; [by destruct H as [_ ->]|].
  destruct H as [_ H]. by rewrite (insert_id (cells m)).
Qed.

Lemma store_view i l mid r bs :
  B = l ++ mid ++ r -> zlen l = o_offset o + i -> zlen bs = zlen mid ->
  store (ptr_add (base_ptr b o) i) bs m = Ret (upd m b o (l ++ bs ++ r), ()).
Proof using V.
  intros HB Hl Hbs. destruct V as [V1 V2]. unfold base_ptr, o_offset in *.
  assert (zlen B = zlen (l ++ bs ++ r)) as EB by (subst B; zl).
  unfold upd, with_buf. destruct (b_impl o) as [d|a] eqn:Ei; cbn [ptr_add store].
  - destruct V2 as [Vf ->]. step (run_get_obj _ _ _ V1). rewrite Ei.
    unfold mbind, M_bind, lift. rewrite HB, wrn_mid by done. cbn. done.
  - destruct V2 as [Vf Vc]. unfold mbind at 1, M_bind at 1, get_cell. rewrite Vc. cbn [c_buf c_len].
    unfold mbind, M_bind, lift. rewrite HB, wrn_mid by done. cbn.
    unfold put_cell. by rewrite (insert_id (objs m)), <- HB, EB.
Qed.

Lemma ptr_add_0 (p : ptr) : ptr_add p 0 = p.
Proof. destruct p; cbn; by rewrite Z.add_0_r. Qed.

Lemma encode_length_view pre hdr rest :
  B = pre ++ hdr ++ rest -> zlen pre = o_offset o -> zlen hdr = 4 ->
  _bson_encode_length b m = Ret (upd m b o (pre ++ le_bytes 4 (b_len o) ++ rest), ()).
Proof using V.
  intros HB Hpre Hhdr. unfold _bson_encode_length. step get_obj_view. step data_view.
  rewrite <- (ptr_add_0 (base_ptr b o)). apply store_view with hdr; [done | lia | by rewrite zlen_le_bytes].
Qed.

End View.

Lemma upd_with_buf m b o B B' : upd m b (with_buf o B) B' = upd m b o B'.
Proof. unfold upd, with_buf. by destruct o as [f n [d|a]]. Qed.
Lemma with_len_with_buf o n B : with_len (with_buf o B) n = with_buf (with_len o n) B.
Proof. unfold with_len, with_buf. by destruct o as [f l [d|a]]. Qed.
Lemma with_flags_with_buf o n B : with_flags (with_buf o B) n = with_buf (with_flags o n) B.
Proof. unfold with_flags, with_buf. by destruct o as [f l [d|a]]. Qed.
Lemma base_ptr_with_buf b o B : base_ptr b (with_buf o B) = base_ptr b o.
Proof. unfold base_ptr, with_buf. by destruct o as [f l [d|a]]. Qed.
Lemma o_offset_with_buf o B : o_offset (with_buf o B) = o_offset o.
Proof. unfold o_offset, with_buf. by destruct o as [f l [d|a]]. Qed.
Lemma o_depth_with_buf o B : o_depth (with_buf o B) = o_depth o.
Proof. unfold o_depth, with_buf. by destruct o as [f l [d|a]]. Qed.
Lemma b_len_with_buf o B : b_len (with_buf o B) = b_len o.
Proof. unfold with_buf. by destruct o as [f l [d|a]]. Qed.
Lemma b_flags_with_buf o B : b_flags (with_buf o B) = b_flags o.
Proof. unfold with_buf. by destruct o as [f l [d|a]]. Qed.
Lemma with_buf_with_buf o B B' : with_buf (with_buf o B) B' = with_buf o B'.
Proof. unfold with_buf. by destruct o as [f l [d|a]]. Qed.
#[export] Hint Rewrite upd_with_buf with_len_with_buf with_flags_with_buf base_ptr_with_buf
  o_offset_with_buf o_depth_with_buf b_len_with_buf b_flags_with_buf with_buf_with_buf : zlen.

Lemma same_place_refl o : same_place o o.
Proof. unfold same_place. by destruct (b_impl o). Qed.
Lemma same_place_len o n : same_place o (with_len o n).
Proof. unfold same_place, with_len. simpl. by destruct (b_impl o). Qed.
Lemma same_place_flags o f :
  has_flag f BSON_FLAG_INLINE = has_flag (b_flags o) BSON_FLAG_INLINE -> same_place o (with_flags o f).
Proof. unfold same_place, with_flags. simpl. by destruct (b_impl o). Qed.
#[export] Hint Resolve same_place_refl same_place_len same_place_with_buf : core.

(** The bytes that a list of (length, pointer) pairs stands for. *)
Definition pair_ok (p : Z * bytes) : Prop := 0 <= p.1 <= zlen p.2.
Definition pair_data (p : Z * bytes) : bytes := take (Z.to_nat p.1) p.2.
Definition payload (ps : list (Z * bytes)) : bytes := concat (map pair_data ps).

Lemma zlen_pair_data p : pair_ok p -> zlen (pair_data p) = p.1.
Proof. unfold pair_ok, pair_data. intros. zl. Qed.

(** Copying one pair over [gap], then continuing. *)
Lemma copy_pair_view {A} m b o B l gap r i p (K : M A) :
  view m b o B -> B = l ++ gap ++ r -> zlen l = o_offset o + i -> pair_ok p -> zlen gap = p.1 ->
  0 <= b_len o -> b_len o + p.1 < 2 ^ 32 ->
  (bs ← lift (rdn p.2 0 p.1);
   store (ptr_add (base_ptr b o) i) bs;;
   o ← get_obj b;
   set_len b (u32 (b_len o + p.1));; K) m
  = K (upd m b (with_len o (b_len o + p.1)) (l ++ pair_data p ++ r)).
Proof.
  intros V HB Hl Hp Hgap H0 Hlen. pose proof (zlen_pair_data p Hp) as Ep. unfold pair_ok in Hp.
  unfold mbind at 1, M_bind at 1, lift at 1. rewrite rdn_ret by lia. cbn beta iota.
  change (take (Z.to_nat p.1) (drop (Z.to_nat 0) p.2)) with (pair_data p).
  assert (Hst : store (ptr_add (base_ptr b o) i) (pair_data p) m
                = Ret (upd m b o (l ++ pair_data p ++ r), ()))
    by (apply (store_view m b o B V i l gap r); [done | done | lia]).
  cbn [mbind outcome_bind]. step Hst.
  pose proof (view_upd m b o o B (l ++ pair_data p ++ r) V (same_place_refl o)) as V1.
  step (get_obj_view _ _ _ _ V1). rewrite b_len_with_buf, u32_id by lia.
  step (set_len_view _ _ _ _ V1 (b_len o + p.1)).
  by rewrite with_len_with_buf, upd_with_buf, upd_upd.
Qed.

Lemma append_pairs_view ps : forall m b o B l gap r i p,
  view m b o B -> B = l ++ gap ++ r -> zlen l = o_offset o + i ->
  Forall pair_ok (p :: ps) -> zlen gap = zlen (payload (p :: ps)) ->
  0 <= b_len o -> b_len o + zlen gap < 2 ^ 32 ->
  append_pairs b (length ps) (ptr_add (base_ptr b o) i) p.1 p.2 ps m =
    Ret (upd m b (with_len o (b_len o + zlen gap)) (l ++ payload (p :: ps) ++ r),
         ptr_add (base_ptr b o) (i + zlen gap)).
Proof.
  induction ps as [|p' ps IH]; intros m b o B l gap r i p V HB Hl Hok Hgap H0 Hlen;
    inversion_clear Hok as [|?? Hp Hps]; pose proof (zlen_pair_data p Hp) as Ep;
    cbn [append_pairs length]; change (payload (p :: ?q)) with (pair_data p ++ payload q) in *;
    rewrite zlen_app in Hgap; pose proof Hp as Hp'; unfold pair_ok in Hp'.
  - change (payload []) with (@nil Z) in *. rewrite app_nil_r, zlen_nil in *.
    rewrite (copy_pair_view m b o B l gap r i p) by (done || lia).
    replace (zlen gap) with p.1 by lia. unfold mret, M_ret. destruct (base_ptr b o); cbn [ptr_add];
      by rewrite Z.add_assoc.
  - pose proof (zlen_nonneg (payload (p' :: ps))).
    set (g1 := take (Z.to_nat p.1) gap). set (g2 := drop (Z.to_nat p.1) gap).
    assert (gap = g1 ++ g2) as Eg by (symmetry; apply take_drop).
    assert (zlen g1 = p.1) as Eg1 by (subst g1; zl).
    assert (zlen gap = p.1 + zlen g2) as Eg2 by (rewrite Eg; zl).
    rewrite (copy_pair_view m b o B l g1 (g2 ++ r) i p)
      by (done || lia || (rewrite HB, Eg; by rewrite <- app_assoc)).
    set (o1 := with_len o (b_len o + p.1)). set (B1 := l ++ pair_data p ++ g2 ++ r).
    pose proof (view_upd m b o o1 B B1 V (same_place_len _ _)) as V1.
    replace (ptr_add (ptr_add (base_ptr b o) i) p.1)
      with (ptr_add (base_ptr b (with_buf o1 B1)) (i + p.1))
      by (rewrite base_ptr_with_buf; unfold base_ptr; simpl; destruct (b_impl o); simpl; f_equal; lia).
    destruct p' as [dl' d'].
    epose proof (IH _ b _ B1 (l ++ pair_data p) g2 r (i + p.1) (dl', d') V1) as E.
    cbn [fst snd] in E. rewrite E; clear E; autorewrite with zlen; try done;
      unfold o1, with_len, o_offset in *; cbn [b_len b_impl b_flags]; try lia.
    2: { subst B1. by rewrite <- app_assoc. }
    rewrite upd_upd by (unfold same_place, o1, with_len; simpl; by destruct (b_impl o)).
    unfold o1, with_len, base_ptr. cbn [b_len b_flags b_impl]. rewrite <- !app_assoc.
    replace (b_len o + p.1 + zlen g2) with (b_len o + zlen gap) by lia.
    replace (i + p.1 + zlen g2) with (i + zlen gap) by lia. done.
Qed.

(** ** The abstract document

    [doc_bytes body] is a whole BSON document with the given elements;
    [rep m b o pre body slack] says that the object at [b] is a document with
    elements [body], at the end of prefix [pre] of its buffer, with [slack]
    unused bytes after it. *)
Definition image (pre body slack : bytes) : bytes := pre ++ doc_bytes body ++ slack.

Record rep (m : mem) (b : Z) (o : bson_t) (pre body slack : bytes) : Prop := mk_rep {
  rep_view : view m b o (image pre body slack);
  rep_len : b_len o = zlen body + 5;
  rep_offset : o_offset o = zlen pre;
  rep_depth : 0 <= o_depth o <= zlen slack;
  rep_size : match b_impl o with
             | Inline _ => zlen (image pre body slack) = BSON_INLINE_DATA_SIZE
             | Alloc a => zlen (image pre body slack) <= INT32_MAX
             end;
  rep_realloc : match b_impl o with
                | Alloc a => forall f, a_realloc a = Some f -> realloc_ok f
                | Inline _ => True
                end;
  rep_child : has_flag (b_flags o) BSON_FLAG_CHILD = false -> o_depth o = 0;
}.

Lemma rep_bound m b o pre body slack :
  rep m b o pre body slack ->
  zlen pre + b_len o + zlen slack = zlen (image pre body slack) /\ 5 <= b_len o /\
  zlen (image pre body slack) <= INT32_MAX.
Proof.
  intros R. destruct R as [_ Rl _ _ Rs _ _].
  assert (zlen pre + b_len o + zlen slack = zlen (image pre body slack)) as E
    by (unfold image; rewrite !zlen_app, zlen_doc_bytes; lia).
  pose proof (zlen_nonneg body). split; [done|]. split; [lia|].
  destruct (b_impl o); [|done]. rewrite Rs. unfold BSON_INLINE_DATA_SIZE, INT32_MAX. lia.
Qed.

(** Replacing the elements and the unused bytes within the same buffer. *)
Lemma rep_rewrite m b o pre body slack n body' slack' :
  rep m b o pre body slack -> n = zlen body' + 5 ->
  zlen (image pre body' slack') = zlen (image pre body slack) -> o_depth o <= zlen slack' ->
  rep (upd m b (with_len o n) (image pre body' slack')) b
      (with_buf (with_len o n) (image pre body' slack')) pre body' slack'.
Proof.
  intros [V Rl Ro Rd Rs Rr Rc] -> Lim Hd. constructor; autorewrite with zlen.
  - eapply view_upd; [exact V | apply same_place_len].
  - done.
  - done.
  - unfold with_len, o_depth in *. cbn [b_impl]. lia.
  - rewrite Lim. unfold with_buf, with_len. cbn [b_impl b_flags b_len].
    by destruct (b_impl o) eqn:Ei; cbn [b_impl]; rewrite ?Ei.
  - unfold with_buf, with_len. cbn [b_impl b_flags b_len].
    by destruct (b_impl o) eqn:Ei; cbn [b_impl]; rewrite ?Ei.
  - unfold with_len, o_depth in *. by cbn [b_impl b_flags].
Qed.

(** A representation depends only on the object and its buffer. *)
Lemma rep_frame m m' b o pre body slack :
  objs m' !! b = objs m !! b -> cells m' !! own_cell b o = cells m !! own_cell b o ->
  rep m b o pre body slack -> rep m' b o pre body slack.
Proof.
  intros E1 E2 [[V1 V2] ? ? ? ? ? ?]. constructor; try done. split; [congruence|].
  unfold own_cell in E2. destruct (b_impl o); [done|]. destruct V2. split; congruence.
Qed.

(** The part of the store an operation on [b] may change. *)
Definition frame (b : Z) (o : bson_t) (m m' : mem) : Prop :=
  (forall b', b' <> b -> objs m' !! b' = objs m !! b') /\
  (forall l, l <> own_cell b o -> cells m' !! l = cells m !! l).

Lemma frame_refl b o m : frame b o m m.
Proof. by split. Qed.

Lemma frame_trans b o o' m m' m'' :
  own_cell b o = own_cell b o' -> frame b o m m' -> frame b o' m' m'' -> frame b o m m''.
Proof.
  intros E [H1 H2] [H3 H4]. split.
  - intros b' ?. by rewrite H3, H1.
  - intros l ?. rewrite H4, H2 by congruence. done.
Qed.

Lemma frame_upd m b o o' B :
  match b_impl o' with Inline _ => True | Alloc a => a_buf a = own_cell b o end ->
  frame b o m (upd m b o' B).
Proof.
  intros H. unfold upd, frame. destruct (b_impl o'); simpl; split; intros; try done;
    by rewrite lookup_insert_ne by congruence.
Qed.

(** How an object's structure may evolve under growth and append: nothing
    but its length changes, except that an inline object may have moved to
    the heap. *)
Definition evolves (b : Z) (o o' : bson_t) : Prop :=
  match b_impl o with
  | Alloc a => b_impl o' = Alloc a /\ b_flags o' = b_flags o
  | Inline _ =>
    (exists d, b_impl o' = Inline d /\ b_flags o' = b_flags o) \/
    (b_impl o' = Alloc (mk_alloc None 0 b 0 (Some bson_realloc_ctx)) /\
     b_flags o' = clear_flag (b_flags o) BSON_FLAG_INLINE)
  end.

Lemma evolves_own b o o' : evolves b o o' -> own_cell b o' = own_cell b o.
Proof.
  unfold evolves, own_cell. destruct (b_impl o).
  - by intros [(d & -> & _)|[-> _]].
  - by intros [-> _].
Qed.

Lemma evolves_flag b o o' f :
  evolves b o o' -> Z.land BSON_FLAG_INLINE f = 0 -> has_flag (b_flags o') f = has_flag (b_flags o) f.
Proof.
  unfold evolves. destruct (b_impl o).
  - intros [(d & _ & ->)|[_ ->]] Hf; [done | by apply has_clear_other].
  - by intros [_ ->].
Qed.

(** ** Growth *)

(** Whether [_bson_grow] can make room for [n] more bytes. *)
Definition can_grow (o : bson_t) (cap n : Z) : bool :=
  match b_impl o with
  | Inline _ => (b_len o + n <=? BSON_INLINE_DATA_SIZE)
                || (bson_next_power_of_two (b_len o + n) <=? INT32_MAX)
  | Alloc a =>
    let req := a_offset a + b_len o + n + a_depth a in
    (req <=? cap) ||
    (bool_decide (is_Some (a_realloc a)) && (bson_next_power_of_two req <=? INT32_MAX))
  end.

(** What [_bson_grow] promises, in either representation. *)
Definition grown (m : mem) (b : Z) (o : bson_t) (pre body slack : bytes) (n : Z)
    (m' : mem) (ok : bool) : Prop :=
  ok = can_grow o (zlen (image pre body slack)) n /\
  (ok = false -> m' = m) /\
  (ok = true -> exists o' slack', rep m' b o' pre body slack' /\ n + o_depth o' <= zlen slack' /\
    evolves b o o' /\ b_len o' = b_len o /\ frame b o m m').

Lemma evolves_refl b o : evolves b o o.
Proof. unfold evolves. destruct (b_impl o); eauto. Qed.

Lemma inline_grow_spec m b o data pre body slack n :
  rep m b o pre body slack -> b_impl o = Inline data -> 0 <= n < 2 ^ 32 ->
  exists m' ok, _bson_impl_inline_grow b n m = Ret (m', ok) /\ grown m b o pre body slack n m' ok.
Proof.
  intros R Ei Hn. pose proof (rep_bound _ _ _ _ _ _ R) as (Hb & H5 & Hmax).
  destruct R as [V Rl Ro Rd Rs Rr Rc]. pose proof V as [V1 V2].
  unfold grown, can_grow, o_offset, o_depth in *. rewrite Ei in V2, Ro, Rd, Rs, Rc |- *. destruct V2 as [Vf Vd].
  unfold BSON_INLINE_DATA_SIZE, INT32_MAX in *.
  unfold _bson_impl_inline_grow. step (get_obj_view _ _ _ _ V). rewrite Ei.
  unfold BSON_INLINE_DATA_SIZE, INT32_MAX. rewrite u64_id by lia.
  destruct (b_len o + n <=? 120) eqn:Efit; bool_hyps.
  - exists m, true. split; [done|]. split; [done|]. split; [done|]. intros _.
    exists o, slack. split; [by constructor; unfold o_offset, o_depth; rewrite ?Ei|].
    rewrite Ei. split; [lia|]. split; [apply evolves_refl|]. split; [done | apply frame_refl].
  - pose proof (next_power_of_two_bounds (b_len o + n) ltac:(lia)) as Hnp.
    set (req := bson_next_power_of_two (b_len o + n)) in *.
    destruct (req <=? 2147483647) eqn:Ereq; bool_hyps.
    2: { exists m, false. by repeat split. }
    assert (pre = []) as -> by (apply length_zero_iff_nil; zl).
    assert (Hold : rdn data 0 (b_len o) = Ret (doc_bytes body))
      by (rewrite Vd; apply (rdn_mid [] _ slack); [done | zl]).
    set (rest := bson_malloc (req - b_len o)).
    assert (Hnew : wrn (bson_malloc req) 0 (doc_bytes body) = Ret (doc_bytes body ++ rest)).
    { unfold rest. rewrite wrn_malloc, zlen_doc_bytes, Rl by (rewrite zlen_doc_bytes; lia). done. }
    unfold mbind at 1, M_bind at 1, lift at 1. rewrite Hold. cbn [mbind outcome_bind].
    unfold mbind at 1, M_bind at 1, lift at 1. rewrite Hnew. cbn [mbind outcome_bind].
    eexists _, true. split; [reflexivity|]. split; [done|]. split; [done|]. intros _.
    exists (mk_bson (clear_flag (b_flags o) BSON_FLAG_INLINE) (b_len o)
              (Alloc (mk_alloc None 0 b 0 (Some bson_realloc_ctx)))), rest.
    split; [|split; [|split; [|split]]].
    + assert (zlen (image [] body rest) = req) as Ez
        by (unfold image, rest; rewrite !zlen_app, zlen_bson_malloc; zl).
      constructor; unfold o_offset, o_depth; cbn [b_impl b_len a_offset a_depth a_realloc].
      * split; cbn [b_impl a_buf objs cells]; rewrite lookup_insert_eq; [done|].
        split; [apply has_clear_same|]. by rewrite Ez.
      * done.
      * done.
      * pose proof (zlen_nonneg rest). lia.
      * rewrite Ez. unfold INT32_MAX. lia.
      * intros f E. simplify_eq. apply bson_realloc_ctx_ok.
      * done.
    + unfold o_depth; cbn [b_impl a_depth]. unfold rest. rewrite zlen_bson_malloc; lia.
    + unfold evolves. rewrite Ei. right. done.
    + done.
    + unfold frame, own_cell. rewrite Ei. cbn [objs cells].
      split; intros; by rewrite lookup_insert_ne.
Qed.

Lemma alloc_grow_spec m b o a pre body slack n :
  rep m b o pre body slack -> b_impl o = Alloc a -> 0 <= n < 2 ^ 32 -> a_depth a < 2 ^ 32 ->
  exists m' ok, _bson_impl_alloc_grow b n m = Ret (m', ok) /\ grown m b o pre body slack n m' ok.
Proof.
  intros R Ei Hn Hdm. pose proof (rep_bound _ _ _ _ _ _ R) as (Hb & H5 & Hmax).
  destruct R as [V Rl Ro Rd Rs Rr Rc]. pose proof V as [V1 V2].
  unfold grown, can_grow, o_offset, o_depth in *.
  rewrite Ei in V2, Ro, Rd, Rs, Rr, Rc |- *. destruct V2 as [Vf Vc].
  unfold INT32_MAX in *. pose proof (zlen_nonneg pre).
  unfold _bson_impl_alloc_grow. step (get_obj_view _ _ _ _ V). rewrite Ei.
  rewrite u64_id by lia. unfold mbind at 1, M_bind at 1, get_cell. rewrite Vc. cbn [c_len c_buf].
  unfold INT32_MAX. set (need := a_offset a + b_len o + n + a_depth a) in *.
  destruct (need <=? zlen (image pre body slack)) eqn:Efit; bool_hyps.
  - exists m, true. split; [done|]. split; [done|]. split; [done|]. intros _.
    exists o, slack. split; [by constructor; unfold o_offset, o_depth; rewrite ?Ei|].
    rewrite Ei. split; [lia|]. split; [apply evolves_refl|]. split; [done | apply frame_refl].
  - pose proof (next_power_of_two_bounds need ltac:(lia)) as Hnp.
    destruct (a_realloc a) as [f|] eqn:Ef; [|exists m, false; by repeat split].
    set (req := bson_next_power_of_two need) in *.
    destruct (req <=? 2147483647) eqn:Ereq; bool_hyps.
    2: { exists m, false. by repeat split. }
    destruct (Rr f eq_refl (image pre body slack) req) as (ext & Eext & Elen); [lia|].
    eexists _, true. split; [reflexivity|]. split; [done|]. split; [done|]. intros _.
    assert (image pre body slack ++ ext = image pre body (slack ++ ext)) as Eim
      by (unfold image; by rewrite <- !app_assoc).
    exists o, (slack ++ ext).
    rewrite Eim in *. rewrite Eext.
    split; [|split; [|split; [|split]]].
    + constructor; unfold o_offset, o_depth; rewrite ?Ei.
      * split; [done|]. rewrite Ei. cbn [cells]. rewrite lookup_insert_eq. by rewrite Elen.
      * done.
      * done.
      * pose proof (zlen_nonneg ext). rewrite zlen_app. lia.
      * rewrite Elen. unfold INT32_MAX. lia.
      * by rewrite Ef.
      * done.
    + rewrite Ei. unfold image in Elen. rewrite !zlen_app in *. rewrite zlen_doc_bytes in *. lia.
    + apply evolves_refl.
    + done.
    + unfold frame, own_cell. rewrite Ei. cbn [objs cells].
      split; [done|]. intros. by rewrite lookup_insert_ne.
Qed.

Lemma grow_spec m b o pre body slack n :
  rep m b o pre body slack -> 0 <= n < 2 ^ 32 ->
  exists m' ok, _bson_grow b n m = Ret (m', ok) /\ grown m b o pre body slack n m' ok.
Proof.
  intros R Hn. pose proof (rep_bound _ _ _ _ _ _ R) as (Hb & H5 & Hmax).
  pose proof R as [V Rl Ro Rd Rs Rr Rc]. pose proof V as [V1 V2].
  unfold _bson_grow. step (get_obj_view _ _ _ _ V). destruct (b_impl o) as [d|a] eqn:Ei.
  - destruct V2 as [-> _]. by eapply inline_grow_spec.
  - destruct V2 as [-> _]. eapply alloc_grow_spec; try done.
    unfold o_depth in Rd. rewrite Ei in Rd. unfold INT32_MAX in *. pose proof (zlen_nonneg pre). lia.
Qed.

(** No work when the room is there. *)
Lemma grow_noop m b o pre body slack n :
  rep m b o pre body slack -> 0 <= n < 2 ^ 32 -> n + o_depth o <= zlen slack ->
  _bson_grow b n m = Ret (m, true).
Proof.
  intros R Hn Hroom. pose proof (rep_bound _ _ _ _ _ _ R) as (Hb & H5 & Hmax).
  destruct R as [V Rl Ro Rd Rs _ _]. pose proof V as [V1 V2]. pose proof (zlen_nonneg pre).
  unfold _bson_grow, o_offset, o_depth, INT32_MAX in *. step (get_obj_view _ _ _ _ V).
  destruct (b_impl o) as [d|a] eqn:Ei; destruct V2 as [-> Vc].
  - unfold _bson_impl_inline_grow. step (get_obj_view _ _ _ _ V). rewrite Ei.
    by replace (b_len o + n <=? BSON_INLINE_DATA_SIZE) with true by lia.
  - unfold _bson_impl_alloc_grow. step (get_obj_view _ _ _ _ V). rewrite Ei.
    unfold mbind at 1, M_bind at 1, get_cell. rewrite Vc. cbn [c_len]. rewrite u64_id by lia.
    by replace (_ <=? _) with true by lia.
Qed.

(** ** Append: all or nothing *)

Definition writable (o : bson_t) : Prop :=
  has_flag (b_flags o) BSON_FLAG_IN_CHILD = false /\ has_flag (b_flags o) BSON_FLAG_RDONLY = false.

Definition can_append (o : bson_t) (cap n : Z) : bool :=
  (n <=? BSON_MAX_SIZE - b_len o) && can_grow o cap n.

(** What appending [data] to a document promises: either nothing changes and
    the answer is [false], or the elements are extended by exactly [data]. *)
Definition appended (m : mem) (b : Z) (o : bson_t) (pre body slack data : bytes)
    (m' : mem) (ok : bool) : Prop :=
  ok = can_append o (zlen (image pre body slack)) (zlen data) /\
  (ok = false -> m' = m) /\
  (ok = true -> exists o' slack', rep m' b o' pre (body ++ data) slack' /\
    evolves b o o' /\ frame b o m m').

Lemma evolves_trans b o o' o'' : evolves b o o' -> evolves b o' o'' -> evolves b o o''.
Proof.
  unfold evolves. destruct (b_impl o) as [d|a].
  - intros [(d' & E & F)|[E F]]; rewrite E, F; [done | intros [-> ->]; by right].
  - intros [E F]. by rewrite E, F.
Qed.

Lemma evolves_len b o o' n : evolves b o o' -> evolves b o (with_len o' n).
Proof. unfold evolves, with_len. by destruct (b_impl o). Qed.

Lemma evolves_buf b o o' B : evolves b o o' -> evolves b o (with_buf o' B).
Proof.
  unfold evolves, with_buf. destruct (b_impl o).
  - intros [(d & E & ?)|[E ?]]; rewrite E; simpl; eauto.
  - intros [E ?]. by rewrite E.
Qed.

(** The room behind a document: [n] bytes for new data and one for the terminator. *)
Lemma split_room (slack : bytes) n :
  0 <= n <= zlen slack -> exists gap x slack', 0 :: slack = gap ++ x :: slack' /\ zlen gap = n.
Proof.
  intros Hn. destruct (drop (Z.to_nat n) (0 :: slack)) as [|x slack'] eqn:E.
  { apply (f_equal length) in E. rewrite length_drop in E. zl. }
  exists (take (Z.to_nat n) (0 :: slack)), x, slack'. rewrite <- E, take_drop.
  split; [done | zl].
Qed.

(** Writing the pairs, the length and the terminator into prepared room. *)
Lemma write_pairs_spec m b o pre body slack p ps :
  rep m b o pre body slack -> Forall pair_ok (p :: ps) ->
  zlen (payload (p :: ps)) + o_depth o <= zlen slack ->
  exists m' o' slack',
    (buf ← append_pairs b (length ps) (ptr_add (base_ptr b o) (b_len o - 1)) p.1 p.2 ps;
     _bson_encode_length b;; store buf [0];; mret true) m = Ret (m', true) /\
    rep m' b o' pre (body ++ payload (p :: ps)) slack' /\
    evolves b o o' /\ frame b o m m'.
Proof.
  intros R Hok Hroom. pose proof (rep_bound _ _ _ _ _ _ R) as (Hb & H5 & Hmax).
  pose proof R as [V Rl Ro Rd Rs Rr Rc]. unfold INT32_MAX in Hmax.
  set (data := payload (p :: ps)) in *. pose proof (zlen_nonneg data). pose proof (zlen_nonneg pre).
  destruct (split_room slack (zlen data)) as (gap & x & slack' & Egap & Lgap); [lia|].
  assert (Lslack : zlen slack = zlen data + zlen slack')
    by (apply (f_equal zlen) in Egap; rewrite zlen_app, !zlen_cons in Egap; lia).
  set (hdr := le_bytes 4 (zlen body + 5)).
  set (l := pre ++ hdr ++ body).
  assert (Ll : zlen l = o_offset o + (b_len o - 1)) by (subst l hdr; zl).
  assert (HB : image pre body slack = l ++ gap ++ x :: slack').
  { unfold image, doc_bytes, l. rewrite <- Egap, <- !app_assoc. done. }
  pose proof (append_pairs_view ps m b o _ l gap (x :: slack') (b_len o - 1) p V HB Ll Hok
                Lgap ltac:(lia) ltac:(lia)) as Hpairs.
  fold data in Hpairs. step Hpairs.
  set (o1 := with_len o (b_len o + zlen gap)). set (B1 := l ++ data ++ x :: slack').
  pose proof (view_upd m b o o1 _ B1 V (same_place_len _ _)) as V1.
  (* the length field *)
  assert (Henc : _bson_encode_length b (upd m b o1 B1)
    = Ret (upd m b o1 (pre ++ le_bytes 4 (b_len o1) ++ (body ++ data) ++ x :: slack'), ())).
  { rewrite (encode_length_view _ _ _ _ V1 pre hdr ((body ++ data) ++ x :: slack'));
      autorewrite with zlen; [by rewrite upd_upd | | done | subst hdr; by rewrite zlen_le_bytes].
    subst B1 l. by rewrite <- !app_assoc. }
  step Henc. set (B2 := pre ++ le_bytes 4 (b_len o1) ++ (body ++ data) ++ x :: slack').
  pose proof (view_upd m b o o1 _ B2 V (same_place_len _ _)) as V2.
  (* the terminator *)
  assert (Hterm : store (ptr_add (base_ptr b o) (b_len o - 1 + zlen gap)) [0] (upd m b o1 B2)
    = Ret (upd m b o1 (image pre (body ++ data) slack'), ())).
  { replace (base_ptr b o) with (base_ptr b (with_buf o1 B2)) by (by rewrite base_ptr_with_buf).
    rewrite (store_view _ b _ B2 V2 _ (pre ++ le_bytes 4 (b_len o1) ++ body ++ data) [x] slack').
    - rewrite upd_with_buf, upd_upd by done. do 3 f_equal. unfold image, doc_bytes.
      rewrite <- !app_assoc. do 2 f_equal. unfold o1, with_len. cbn [b_len]. f_equal. zl.
    - subst B2. by rewrite <- !app_assoc.
    - autorewrite with zlen. unfold o1, with_len, o_offset in *. cbn [b_impl]. zl.
    - done. }
  step Hterm.
  eexists _, (with_buf o1 (image pre (body ++ data) slack')), slack'. split; [reflexivity|].
  assert (Lim : zlen (image pre (body ++ data) slack') = zlen (image pre body slack)).
  { rewrite HB. unfold image, l. autorewrite with zlen. zl. }
  split; [|split].
  - apply (rep_rewrite m b o pre body slack); [done | rewrite Rl, Lgap, zlen_app; lia | done | lia].
  - apply evolves_buf, evolves_len, evolves_refl.
  - apply frame_upd. unfold o1, with_len, own_cell. cbn [b_impl]. by destruct (b_impl o).
Qed.

Lemma append_va_spec m b o pre body slack p ps n_pairs :
  rep m b o pre body slack -> writable o -> Forall pair_ok (p :: ps) ->
  n_pairs = zlen (p :: ps) -> zlen (payload (p :: ps)) < 2 ^ 32 ->
  exists m' ok, _bson_append_va b (zlen (payload (p :: ps))) n_pairs p.1 p.2 ps m = Ret (m', ok) /\
    ok = can_grow o (zlen (image pre body slack)) (zlen (payload (p :: ps))) /\
    (ok = false -> m' = m) /\
    (ok = true -> exists o' slack', rep m' b o' pre (body ++ payload (p :: ps)) slack' /\
      evolves b o o' /\ frame b o m m').
Proof.
  intros R [Wc Wr] Hok -> Hlen. pose proof (zlen_nonneg (payload (p :: ps))).
  unfold _bson_append_va. step (get_obj_view _ _ _ _ (rep_view _ _ _ _ _ _ R)).
  rewrite Wc, Wr. step (eq_refl (Ret (m, ()))). step (eq_refl (Ret (m, ()))).
  destruct (grow_spec m b o pre body slack (zlen (payload (p :: ps))) R) as (m1 & ok & E & Hok1 & Hf & Ht);
    [lia|]. step E. destruct ok; cbn [negb].
  2: { exists m1, false. split; [done|]. by repeat split. }
  destruct (Ht eq_refl) as (o1 & slack1 & R1 & Hroom & Hev & Hlen1 & Hfr).
  step (data_view _ _ _ _ (rep_view _ _ _ _ _ _ R1)).
  step (get_obj_view _ _ _ _ (rep_view _ _ _ _ _ _ R1)).
  replace (Z.to_nat (zlen (p :: ps) - 1)) with (length ps) by zl.
  destruct (write_pairs_spec m1 b o1 pre body slack1 p ps R1 Hok Hroom)
    as (m2 & o2 & slack2 & E2 & R2 & Hev2 & Hfr2).
  exists m2, true. split; [exact E2|]. split; [done|]. split; [done|]. intros _.
  exists o2, slack2. split; [done|]. split; [|].
  - eapply evolves_trans; eauto.
  - eapply frame_trans; [|done|done]. symmetry. by eapply evolves_own.
Qed.

Lemma append_spec m b o pre body slack p ps n_pairs :
  rep m b o pre body slack -> writable o -> Forall pair_ok (p :: ps) -> p.1 <> 0 ->
  n_pairs = zlen (p :: ps) -> zlen (payload (p :: ps)) < 2 ^ 32 ->
  exists m' ok, _bson_append b n_pairs (zlen (payload (p :: ps))) p.1 p.2 ps m = Ret (m', ok) /\
    appended m b o pre body slack (payload (p :: ps)) m' ok.
Proof.
  intros R W Hok Hp -> Hlen. pose proof (rep_bound _ _ _ _ _ _ R) as (Hb & H5 & Hmax).
  pose proof (zlen_nonneg pre). pose proof (zlen_nonneg slack). pose proof (zlen_nonneg ps).
  unfold _bson_append. rewrite zlen_cons.
  replace (1 + zlen ps =? 0) with false by lia. replace (p.1 =? 0) with false by lia.
  step (eq_refl (Ret (m, ()))). step (eq_refl (Ret (m, ()))).
  step (get_obj_view _ _ _ _ (rep_view _ _ _ _ _ _ R)).
  unfold appended, can_append, BSON_MAX_SIZE, INT32_MAX in *. rewrite u64_id by lia.
  destruct (zlen (payload (p :: ps)) >? 2147483647 - b_len o) eqn:Eg.
  { replace (_ <=? 2147483647 - b_len o) with false by lia. exists m, false. by repeat split. }
  replace (_ <=? 2147483647 - b_len o) with true by lia. cbn [andb].
  rewrite <- zlen_cons with (x := p). by apply append_va_spec.
Qed.

(** With room for the whole payload already behind the document, the append
    succeeds even when the announced size [n_bytes] is smaller. *)
Lemma append_roomy_spec m b o pre body slack p ps n_pairs n_bytes :
  rep m b o pre body slack -> writable o -> Forall pair_ok (p :: ps) -> p.1 <> 0 ->
  n_pairs = zlen (p :: ps) -> 0 <= n_bytes <= zlen (payload (p :: ps)) ->
  zlen (payload (p :: ps)) <= BSON_MAX_SIZE - b_len o ->
  zlen (payload (p :: ps)) + o_depth o <= zlen slack ->
  exists m' o' slack', _bson_append b n_pairs n_bytes p.1 p.2 ps m = Ret (m', true) /\
    rep m' b o' pre (body ++ payload (p :: ps)) slack' /\ evolves b o o' /\ frame b o m m'.
Proof.
  intros R [Wc Wr] Hok Hp -> Hn Hmx Hroom. pose proof (rep_bound _ _ _ _ _ _ R) as (Hb & H5 & Hmax).
  pose proof (zlen_nonneg pre). pose proof (zlen_nonneg slack). pose proof (zlen_nonneg ps).
  unfold _bson_append. rewrite zlen_cons.
  replace (1 + zlen ps =? 0) with false by lia. replace (p.1 =? 0) with false by lia.
  step (eq_refl (Ret (m, ()))). step (eq_refl (Ret (m, ()))).
  step (get_obj_view _ _ _ _ (rep_view _ _ _ _ _ _ R)).
  unfold BSON_MAX_SIZE, INT32_MAX in *. rewrite u64_id by lia.
  destruct (n_bytes >? 2147483647 - b_len o) eqn:Eg; [lia|].
  unfold _bson_append_va. step (get_obj_view _ _ _ _ (rep_view _ _ _ _ _ _ R)).
  rewrite Wc, Wr. step (eq_refl (Ret (m, ()))). step (eq_refl (Ret (m, ()))).
  step (grow_noop _ _ _ _ _ _ n_bytes R ltac:(lia) ltac:(lia)). cbn [negb].
  step (data_view _ _ _ _ (rep_view _ _ _ _ _ _ R)).
  step (get_obj_view _ _ _ _ (rep_view _ _ _ _ _ _ R)).
  replace (Z.to_nat (1 + zlen ps - 1)) with (length ps) by zl.
  by apply write_pairs_spec with slack.
Qed.

(** ** When there is room *)

Definition growable (o : bson_t) : Prop :=
  match b_impl o with Inline _ => True | Alloc a => is_Some (a_realloc a) end.

Lemma next_power_of_two_le v : 1 < v <= 2 ^ 30 -> bson_next_power_of_two v <= 2 ^ 30.
Proof.
  intros Hv. rewrite next_power_of_two_spec by lia.
  apply Z.pow_le_mono_r; [lia|]. change 30 with (Z.log2_up (2 ^ 30)). apply Z.log2_up_le_mono. lia.
Qed.

(** A growable document takes any append that keeps it within 2^30 bytes. *)
Lemma can_append_small m b o pre body slack n :
  rep m b o pre body slack -> growable o -> 0 <= n ->
  zlen pre + zlen body + 5 + n + o_depth o <= 2 ^ 30 ->
  can_append o (zlen (image pre body slack)) n = true.
Proof.
  intros R G Hn Hsz. pose proof (rep_bound _ _ _ _ _ _ R) as (Hb & H5 & Hmax).
  destruct R as [V Rl Ro Rd Rs Rr Rc]. pose proof (zlen_nonneg pre). pose proof (zlen_nonneg body).
  unfold can_append, can_grow, BSON_MAX_SIZE, INT32_MAX, o_offset, growable in *.
  apply andb_true_iff. split; [lia|]. unfold o_depth in *.
  destruct (b_impl o) as [d|a]; apply orb_true_iff; right.
  - pose proof (next_power_of_two_le (b_len o + n) ltac:(lia)). lia.
  - rewrite bool_decide_eq_true_2 by done. cbn [andb].
    pose proof (next_power_of_two_le (a_offset a + b_len o + n + a_depth a) ltac:(lia)). lia.
Qed.

(** ** Child documents

    [opened m p o pre body hdr]: the document at [p] has begun a child after
    its elements [body]; [hdr] is the type byte and key of the child.  The
    parent's length field is stale while the child is open: the bytes are
    described by the child's own [rep], whose prefix contains the parent. *)
Record opened (m : mem) (p : Z) (o : bson_t) (pre body hdr : bytes) : Prop := mk_opened {
  op_obj : objs m !! p = Some o;
  op_in_child : has_flag (b_flags o) BSON_FLAG_IN_CHILD = true;
  op_rdonly : has_flag (b_flags o) BSON_FLAG_RDONLY = false;
  op_inline : has_flag (b_flags o) BSON_FLAG_INLINE = false;
  op_len : b_len o = zlen body + zlen hdr + 10;
  op_offset : o_offset o = zlen pre;
  op_depth : 0 <= o_depth o;
  op_impl : match b_impl o with
            | Inline _ => False
            | Alloc a => forall f, a_realloc a = Some f -> realloc_ok f
            end;
  op_child : has_flag (b_flags o) BSON_FLAG_CHILD = false -> o_depth o = 0;
}.

(** The child shares the parent's buffer, one level deeper. *)
Definition child_of (o oc : bson_t) : Prop :=
  o_depth oc = o_depth o + 1 /\
  match b_impl o, b_impl oc with
  | Alloc a, Alloc ac => a_buf ac = a_buf a /\ a_realloc ac = a_realloc a
  | _, _ => False
  end.

Lemma end_spec m p o child oc pre L body hdr bodyc slackc :
  opened m p o pre body hdr -> zlen L = 4 -> child <> p ->
  rep m child oc (pre ++ L ++ body ++ hdr) bodyc slackc -> child_of o oc ->
  has_flag (b_flags oc) BSON_FLAG_IN_CHILD = false ->
  exists m' o' slack', _bson_append_bson_end p child m = Ret (m', true) /\
    rep m' p o' pre (body ++ hdr ++ doc_bytes bodyc) slack' /\
    b_flags o' = clear_flag (b_flags o) BSON_FLAG_IN_CHILD /\ b_impl o' = b_impl o /\
    frame p o m m'.
Proof.
  intros [Oo Oc Or Oi Ol Oof Od Oim Och] HL Hne R [Hd Hsh] Hc.
  pose proof (rep_bound _ _ _ _ _ _ R) as (Hb & H5 & Hmax). unfold INT32_MAX in Hmax.
  destruct R as [V Rl Ro Rd Rs Rr Rc]. rewrite !zlen_app in *.
  destruct (b_impl o) as [|a] eqn:Ei; [done|]. destruct (b_impl oc) as [|ac] eqn:Eic; [done|].
  destruct Hsh as [Ebuf Ere].
  pose proof (zlen_nonneg pre). pose proof (zlen_nonneg body). pose proof (zlen_nonneg hdr).
  destruct slackc as [|x slack']; [rewrite zlen_nil in *; lia|].
  set (Bf := image (pre ++ L ++ body ++ hdr) bodyc (x :: slack')) in *.
  set (new := body ++ hdr ++ doc_bytes bodyc).
  assert (VP : view m p o Bf).
  { split; [done|]. rewrite Ei. split; [done|]. destruct V as [_ V]. rewrite Eic, Ebuf in V. apply V. }
  unfold _bson_append_bson_end.
  step (get_obj_view _ _ _ _ VP). step (get_obj_view _ _ _ _ V). rewrite Oc, Hc.
  step (eq_refl (Ret (m, ()))). step (eq_refl (Ret (m, ()))).
  set (f' := clear_flag (b_flags o) BSON_FLAG_IN_CHILD).
  assert (Hf' : has_flag f' BSON_FLAG_INLINE = has_flag (b_flags o) BSON_FLAG_INLINE)
    by (by apply has_clear_other).
  step (set_flags_view _ _ _ _ VP f' Hf').
  pose proof (view_upd _ _ _ _ _ Bf VP (same_place_flags o f' Hf')) as V1.
  step (set_len_view _ _ _ _ V1 (u32 (b_len o + b_len oc - 5))).
  replace (with_buf (with_flags o f') Bf) with (with_flags o f')
    by (unfold with_buf, with_flags; cbn [b_impl]; by rewrite Ei).
  rewrite upd_upd by auto. rewrite u32_id by lia.
  set (o2 := with_len (with_flags o f') (b_len o + b_len oc - 5)).
  assert (S2 : same_place o o2) by (unfold same_place, o2; cbn; by rewrite Ei).
  assert (W2 : forall B, with_buf o2 B = o2) by (intros; unfold with_buf, o2; cbn; by rewrite Ei).
  pose proof (view_upd _ _ _ _ _ Bf VP S2) as V2. rewrite W2 in V2.
  assert (Ln : zlen new = zlen body + zlen hdr + b_len oc)
    by (unfold new; rewrite !zlen_app, zlen_doc_bytes; lia).
  assert (L2 : b_len o2 = zlen new + 5) by (unfold o2; cbn; lia).
  assert (O2 : o_offset o2 = zlen pre) by done.
  step (data_view _ _ _ _ V2). step (get_obj_view _ _ _ _ V2).
  assert (E3 : store (ptr_add (base_ptr p o2) (b_len o2 - 1)) [0] (upd m p o2 Bf)
               = Ret (upd m p o2 ((pre ++ L ++ new) ++ [0] ++ slack'), ())).
  { rewrite (store_view _ _ _ _ V2 (b_len o2 - 1) (pre ++ L ++ new) [x] slack').
    - by rewrite upd_upd by apply same_place_refl.
    - unfold Bf, image, new. by rewrite <- !app_assoc.
    - rewrite !zlen_app. lia.
    - done. }
  step E3. pose proof (view_upd _ _ _ _ _ ((pre ++ L ++ new) ++ [0] ++ slack') VP S2) as V3.
  rewrite W2 in V3.
  assert (E4 : _bson_encode_length p (upd m p o2 ((pre ++ L ++ new) ++ [0] ++ slack'))
               = Ret (upd m p o2 (image pre new slack'), ())).
  { rewrite (encode_length_view _ _ _ _ V3 pre L (new ++ [0] ++ slack')).
    - rewrite upd_upd by apply same_place_refl. unfold image, doc_bytes.
      by rewrite L2, <- !app_assoc.
    - by rewrite <- !app_assoc.
    - done.
    - done. }
  step E4. eexists _, o2, slack'. split; [reflexivity|].
  split; [|split; [done|]; split; [by unfold o2; cbn|]].
  - pose proof (view_upd _ _ _ _ _ (image pre new slack') VP S2) as V4. rewrite W2 in V4.
    rewrite zlen_cons in *.
    constructor; try done; unfold o2, o_depth in *; cbn [b_impl with_len with_flags b_flags] in *;
      rewrite ?Ei in *.
    + lia.
    + unfold image. rewrite !zlen_app, zlen_doc_bytes. unfold INT32_MAX. lia.
    + exact Oim.
    + unfold f'. by rewrite has_clear_other.
  - apply frame_upd. unfold o2, own_cell. cbn. by rewrite Ei.
Qed.

(** [key_ok key key_length kb]: the key argument stands for the bytes [kb],
    either by an explicit length or (negative length) by its terminator. *)
Definition key_ok (key : bytes) (key_length : Z) (kb : bytes) : Prop :=
  zlen kb < 2 ^ 31 /\
  ((key_length = zlen kb /\ exists rest, key = kb ++ rest) \/
   (key_length < 0 /\ Forall (fun b => b <> 0) kb /\ exists rest, key = kb ++ 0 :: rest)).

Lemma key_ok_pair key key_length kb :
  key_ok key key_length kb -> pair_ok (zlen kb, key) /\ pair_data (zlen kb, key) = kb.
Proof.
  intros [_ H].
  assert (exists rest, key = kb ++ rest) as [rest ->] by (destruct H as [[_ ?]|(_ & _ & ? & ?)]; eauto).
  unfold pair_ok, pair_data. cbn [fst snd]. split; [zl|].
  unfold zlen. by rewrite Nat2Z.id, take_app_length.
Qed.

Lemma key_len_spec key key_length kb m :
  key_ok key key_length kb -> key_len key key_length m = Ret (m, zlen kb).
Proof.
  intros [Hk H]. unfold key_len. pose proof (zlen_nonneg kb).
  destruct H as [[-> _]|(Hl & Hnz & rest & ->)].
  - by replace (zlen kb <? 0) with false by lia.
  - replace (key_length <? 0) with true by lia.
    unfold mbind, M_bind, lift. rewrite strlen_cstr by done. cbn. by rewrite s32_id by lia.
Qed.

(** The pairs that most append functions pass after the type byte. *)
Lemma payload_hdr ty key key_length kb rest :
  key_ok key key_length kb ->
  payload ((1, [ty]) :: (zlen kb, key) :: (1, [0]) :: rest) = elem_hdr ty kb ++ payload rest.
Proof.
  intros Hk. destruct (key_ok_pair _ _ _ Hk) as [_ E].
  unfold payload. cbn [map concat]. rewrite E. unfold pair_data, elem_hdr. cbn. by rewrite <- !app_assoc.
Qed.

(** Proves that literal pairs are well formed. *)
Ltac pairs_ok := repeat first [apply Forall_nil_2 | apply Forall_cons_2]; unfold pair_ok; cbn [fst snd]; try zl.

Lemma pairs_hdr_ok ty key key_length kb rest :
  key_ok key key_length kb -> Forall pair_ok rest ->
  Forall pair_ok ((1, [ty]) :: (zlen kb, key) :: (1, [0]) :: rest).
Proof.
  intros Hk Hr. destruct (key_ok_pair _ _ _ Hk) as [Hp _].
  constructor; [by unfold pair_ok|]. constructor; [done|]. constructor; [by unfold pair_ok | done].
Qed.

(** The first part of [_bson_append_bson_begin]: an inline parent moves to
    the heap; nothing else changes. *)
Lemma begin_grow_spec m p o pre body slack :
  rep m p o pre body slack ->
  exists m1 o1 slack1,
    (if has_flag (b_flags o) BSON_FLAG_INLINE then
       BSON_ASSERT (b_len o <=? 120);;
       ok ← _bson_grow p (128 - b_len o);
       (if (ok : bool) then
          o ← get_obj p;
          BSON_ASSERT (negb (has_flag (b_flags o) BSON_FLAG_INLINE));;
          mret true
        else mret false)
     else mret true) m = Ret (m1, true) /\
    rep m1 p o1 pre body slack1 /\ evolves p o o1 /\ b_len o1 = b_len o /\ frame p o m m1 /\
    (growable o -> growable o1) /\ has_flag (b_flags o1) BSON_FLAG_INLINE = false /\
    exists a, b_impl o1 = Alloc a /\ (a_buf a = own_cell p o).
Proof.
  intros R. pose proof (rep_bound _ _ _ _ _ _ R) as (Hb & H5 & Hmax).
  pose proof R as [V Rl Ro Rd Rs Rr Rc]. pose proof V as [V1 V2].
  pose proof (zlen_nonneg pre). pose proof (zlen_nonneg slack).
  destruct (b_impl o) as [d|a] eqn:Ei; destruct V2 as [Vf V2]; rewrite Vf.
  2: { exists m, o, slack. split; [done|]. split; [done|]. split; [apply evolves_refl|].
       split; [done|]. split; [apply frame_refl|]. split; [done|]. split; [done|].
       exists a. split; [done|]. unfold own_cell. by rewrite Ei. }
  unfold BSON_INLINE_DATA_SIZE in Rs. replace (b_len o <=? 120) with true by lia.
  step (eq_refl (Ret (m, ()))).
  destruct (grow_spec m p o pre body slack (128 - b_len o) R) as (m1 & ok & E & Hok & _ & Ht); [lia|].
  unfold can_grow in Hok. rewrite Ei in Hok. unfold BSON_INLINE_DATA_SIZE in Hok.
  replace (b_len o + (128 - b_len o)) with 128 in Hok by lia.
  assert (ok = true) as -> by (rewrite Hok; vm_compute; done).
  destruct (Ht eq_refl) as (o1 & slack1 & R1 & Hroom & Hev & Hl & Hfr).
  step E. step (get_obj_view _ _ _ _ (rep_view _ _ _ _ _ _ R1)).
  pose proof Hev as Hev'. unfold evolves in Hev'. rewrite Ei in Hev'.
  destruct Hev' as [(d' & Ed & Efl)|[Ea Efl]].
  { exfalso. pose proof (rep_size _ _ _ _ _ _ R1) as Rs1. pose proof (rep_bound _ _ _ _ _ _ R1) as (Hb1 & _).
    unfold BSON_INLINE_DATA_SIZE, o_depth in *. rewrite Ed in *. lia. }
  assert (Hni : has_flag (b_flags o1) BSON_FLAG_INLINE = false) by (rewrite Efl; apply has_clear_same).
  rewrite Hni. step (eq_refl (Ret (m1, ()))).
  exists m1, o1, slack1. split; [done|]. split; [done|]. split; [done|]. split; [done|].
  split; [done|]. unfold growable. rewrite Ea. split; [by eauto|]. split; [done|].
  eexists. split; [reflexivity|]. unfold own_cell. by rewrite Ei.
Qed.

(** What a successful [_bson_append_bson_begin] leaves behind. *)
Definition begun (m : mem) (p child : Z) (o : bson_t) (pre body hdr : bytes) (m' : mem) : Prop :=
  exists o' oc L slack',
    zlen L = 4 /\ opened m' p o' pre body hdr /\ writable oc /\ child_of o' oc /\
    rep m' child oc (pre ++ L ++ body ++ hdr) [] slack' /\
    (exists o1, evolves p o o1 /\ b_impl o' = b_impl o1 /\
       b_flags o' = set_flag (b_flags o1) BSON_FLAG_IN_CHILD) /\
    (forall b', b' <> p -> b' <> child -> objs m' !! b' = objs m !! b') /\
    (forall l, l <> own_cell p o -> l <> child -> cells m' !! l = cells m !! l).

(** The last part: flag the parent and set up the child structure. *)
Lemma begin_child_spec m p child o pre body ty kb slack :
  rep m p o pre (body ++ elem_hdr ty kb ++ [5; 0; 0; 0; 0]) slack -> writable o ->
  has_flag (b_flags o) BSON_FLAG_INLINE = false -> child <> p -> child <> own_cell p o ->
  exists m',
    (o ← get_obj p;
     set_flags p (set_flag (b_flags o) BSON_FLAG_IN_CHILD);;
     match b_impl o with
     | Inline _ => lift Oob
     | Alloc a =>
       let depth := if has_flag (b_flags o) BSON_FLAG_CHILD then u32 (a_depth a + 1) else 1 in
       put_cell child (mk_cell None 0);;
       put_obj child
         (mk_bson (set_flag (set_flag BSON_FLAG_CHILD BSON_FLAG_NO_FREE) BSON_FLAG_STATIC) 5
            (Alloc (mk_alloc (Some p) depth (a_buf a) (u64 (a_offset a + b_len o - 1 - 5))
                      (a_realloc a))));;
       mret true
     end) m = Ret (m', true) /\ begun m p child o pre body (elem_hdr ty kb) m'.
Proof.
  intros R [Wc Wr] Hni Hne Hcell. pose proof (rep_bound _ _ _ _ _ _ R) as (Hb & H5 & Hmax).
  pose proof R as [V Rl Ro Rd Rs Rr Rc]. pose proof V as [V1 V2].
  pose proof (zlen_nonneg body). pose proof (zlen_elem_hdr ty kb). pose proof (zlen_nonneg kb).
  set (hdr := elem_hdr ty kb) in *. set (B := image pre _ slack) in *.
  pose proof (zlen_nonneg pre). pose proof (zlen_nonneg slack). unfold INT32_MAX in *.
  rewrite !zlen_app in Rl. change (zlen [5; 0; 0; 0; 0]) with 5 in Rl.
  destruct (b_impl o) as [d|a] eqn:Ei; [destruct V2; congruence|]. destruct V2 as [_ Vc].
  unfold own_cell, o_offset, o_depth in *. rewrite Ei in *.
  step (get_obj_view _ _ _ _ V).
  set (f' := set_flag (b_flags o) BSON_FLAG_IN_CHILD).
  assert (Hf' : has_flag f' BSON_FLAG_INLINE = has_flag (b_flags o) BSON_FLAG_INLINE)
    by (by apply has_set_other).
  step (set_flags_view _ _ _ _ V f' Hf').
  assert (Eupd : upd m p (with_flags o f') B = mk_mem (<[p := with_flags o f']> (objs m)) (cells m))
    by (unfold upd; cbn [b_impl with_flags]; rewrite Ei; by rewrite (insert_id (cells m))).
  rewrite Eupd, Ei.
  set (depth := if has_flag (b_flags o) BSON_FLAG_CHILD then u32 (a_depth a + 1) else 1).
  assert (Hdepth : depth = a_depth a + 1).
  { unfold depth. destruct (has_flag (b_flags o) BSON_FLAG_CHILD) eqn:Ech.
    - rewrite u32_id; lia.
    - rewrite Rc by done. done. }
  eexists. split; [reflexivity|].
  rewrite u64_id by lia.
  set (oc := mk_bson _ 5 _). set (L := le_bytes 4 (zlen (body ++ hdr ++ [5; 0; 0; 0; 0]) + 5)).
  assert (EB : B = image (pre ++ L ++ body ++ hdr) [] (0 :: slack)).
  { unfold B, image, doc_bytes. fold L. rewrite <- !app_assoc. done. }
  assert (LL : zlen L = 4) by apply zlen_le_bytes.
  exists (with_flags o f'), oc, L, (0 :: slack). split; [done|]. split; [|split; [|split; [|split; [|split; [|split]]]]].
  - constructor; cbn [objs cells with_flags b_flags b_impl b_len]; rewrite ?Hf'; try done.
    + by rewrite lookup_insert_ne, lookup_insert_eq.
    + by apply has_set_same.
    + unfold f'. by rewrite has_set_other.
    + lia.
    + unfold o_offset. cbn [b_impl with_flags]. by rewrite Ei.
    + unfold o_depth. cbn [b_impl with_flags]. rewrite Ei. lia.
    + by rewrite Ei.
    + unfold f', o_depth. cbn [b_impl with_flags]. rewrite Ei, has_set_other by done. done.
  - done.
  - unfold child_of, o_depth. cbn [b_impl with_flags oc a_depth a_buf a_realloc]. by rewrite Ei.
  - constructor; unfold o_offset, o_depth; cbn [oc b_len b_impl a_offset a_depth a_realloc objs cells]; try done.
    + split; [apply lookup_insert_eq|]. cbn. split; [done|].
      rewrite lookup_insert_ne by done. by rewrite Vc, EB.
    + rewrite !zlen_app. lia.
    + rewrite zlen_cons. lia.
    + rewrite <- EB. done.
  - exists o. split; [apply evolves_refl|]. done.
  - intros b' ??. cbn [objs]. by rewrite !lookup_insert_ne by done.
  - intros l ??. cbn [cells]. by rewrite lookup_insert_ne by done.
Qed.

Lemma begun_frame m m1 p child o o1 pre body hdr m' :
  evolves p o o1 -> frame p o m m1 -> begun m1 p child o1 pre body hdr m' ->
  begun m p child o pre body hdr m'.
Proof.
  intros Hev [F1 F2] (o' & oc & L & slack & HL & Ho & W & C & R & (o2 & E2 & Ei & Ef) & G1 & G2).
  pose proof (evolves_own _ _ _ Hev) as Hown.
  exists o', oc, L, slack. repeat (split; [done|]). split; [|split].
  - exists o2. split; [by eapply evolves_trans | done].
  - intros b' ??. by rewrite G1, F1.
  - intros l ??. rewrite G2, F2 by congruence. done.
Qed.

Lemma writable_evolves b o o' : evolves b o o' -> writable o -> writable o'.
Proof. intros H [? ?]. split; by rewrite (evolves_flag _ _ _ _ H). Qed.

Lemma growable_evolves b o o' : evolves b o o' -> growable o -> growable o'.
Proof.
  unfold evolves, growable. destruct (b_impl o).
  - intros [(d & -> & _)|[-> _]]; simpl; eauto.
  - intros [-> _]. done.
Qed.

Lemma depth_evolves b o o' : evolves b o o' -> o_depth o' = o_depth o.
Proof.
  unfold evolves, o_depth. destruct (b_impl o).
  - by intros [(d & -> & _)|[-> _]].
  - by intros [-> _].
Qed.

Lemma begin_spec m p child o pre body slack key key_length kb ty :
  rep m p o pre body slack -> writable o -> key_ok key key_length kb ->
  ty = BSON_TYPE_DOCUMENT \/ ty = BSON_TYPE_ARRAY -> child <> p -> child <> own_cell p o ->
  exists m' ok, _bson_append_bson_begin p key key_length ty child m = Ret (m', ok) /\
    (ok = false -> exists o' slack', rep m' p o' pre body slack' /\ evolves p o o' /\ frame p o m m') /\
    (ok = true -> begun m p child o pre body (elem_hdr ty kb) m') /\
    (growable o -> zlen pre + zlen body + zlen kb + 12 + o_depth o <= 2 ^ 30 -> ok = true).
Proof.
  intros R W Hk Hty Hne Hcell. pose proof W as [Wc Wr]. pose proof (zlen_nonneg kb). pose proof Hk as [Hkl _].
  unfold _bson_append_bson_begin. step (get_obj_view _ _ _ _ (rep_view _ _ _ _ _ _ R)).
  rewrite Wc, Wr. step (eq_refl (Ret (m, ()))). step (eq_refl (Ret (m, ()))).
  assert ((ty =? BSON_TYPE_DOCUMENT) || (ty =? BSON_TYPE_ARRAY) = true) as Ety
    by (destruct Hty as [-> | ->]; done).
  rewrite Ety. step (eq_refl (Ret (m, ()))). step (key_len_spec _ _ _ m Hk).
  destruct (begin_grow_spec m p o pre body slack R)
    as (m1 & o1 & slack1 & E1 & R1 & Hev & Hl & Hfr & Hg & Hni & a & Ea & Eb).
  step E1. cbn [negb].
  destruct (key_ok_pair _ _ _ Hk) as [Hkp Hkd].
  set (ps := [(zlen kb, key); (1, [0]); (5, [5; 0; 0; 0; 0])]).
  assert (Epay : payload ((1, [u8 ty]) :: ps) = elem_hdr ty kb ++ [5; 0; 0; 0; 0]).
  { unfold ps. rewrite (payload_hdr _ _ _ _ _ Hk). by destruct Hty as [-> | ->]. }
  assert (En : u32 (1 + zlen kb + 1 + 5) = zlen (payload ((1, [u8 ty]) :: ps)))
    by (rewrite Epay, u32_id by lia; zl).
  destruct (append_spec m1 p o1 pre body slack1 (1, [u8 ty]) ps 4 R1 (writable_evolves _ _ _ Hev W))
    as (m2 & ok & E2 & Hok & Hf & Ht); [apply (pairs_hdr_ok _ _ _ _ _ Hk); pairs_ok | done | done | rewrite <- En; apply u32_range |].
  rewrite <- En in E2. cbn [fst snd] in E2. step E2. destruct ok; cbn [negb].
  - destruct (Ht eq_refl) as (o2 & slack2 & R2 & Hev2 & Hfr2). rewrite Epay in R2.
    pose proof (evolves_own _ _ _ Hev). pose proof (evolves_own _ _ _ Hev2).
    destruct (begin_child_spec m2 p child o2 pre body ty kb slack2 R2) as (m3 & E3 & B3);
      [eapply writable_evolves, writable_evolves; eauto | | done | congruence |].
    { unfold evolves in Hev2. rewrite Ea in Hev2. destruct Hev2 as [_ ->]. done. }
    exists m3, true. split; [exact E3|]. split; [done|]. split; [|done]. intros _.
    eapply begun_frame; [exact Hev | exact Hfr |]. eapply begun_frame; eauto.
  - exists m2, false. split; [done|]. rewrite (Hf eq_refl) in *. split; [eauto|]. split; [done|].
    intros Hgr Hsz. rewrite Hok.
    eapply can_append_small; [done | by apply Hg | apply zlen_nonneg |].
    rewrite (depth_evolves _ _ _ Hev), Epay. zl.
Qed.
