(* ===== verification/Append.v ===== *)
(** * The append functions (bson.c)

    One definition per [bson_append_*] function: each passes its element to
    [_bson_append] as (length, pointer) pairs.  The theorems say which bytes
    every function adds.  A [double] is its 64-bit pattern; a [bson_oid_t] is
    its 12 bytes. *)
From S2P Require Import Prelude Memory Format Strings Document.

(** ** Data *)

Record bson_decimal128_t := mk_dec128 { d_low : Z; d_high : Z }.

(** ** Operations *)

(** The bytes and length of another document passed by pointer. *)
Definition doc_arg (src : Z) : M (Z * bytes) :=
  o ← get_obj src;
  p ← _bson_data src;
  d ← load p;
  mret (b_len o, d).

Definition bson_append_binary (b : Z) (key : bytes) (key_length subtype : Z) (binary : bytes)
    (length : Z) : M bool :=
  key_length ← key_len key key_length;
  let subtype8 := u8 subtype in
  if subtype =? BSON_SUBTYPE_BINARY_DEPRECATED then
    let length_le := le_bytes 4 (u32 (length + 4)) in
    let deprecated_length_le := le_bytes 4 length in
    _bson_append b 7 (u32 (1 + key_length + 1 + 4 + 1 + 4 + length)) 1 [BSON_TYPE_BINARY]
      [(key_length, key); (1, [0]); (4, length_le); (1, [subtype8]); (4, deprecated_length_le);
       (length, binary)]
  else
    _bson_append b 6 (u32 (1 + key_length + 1 + 4 + 1 + length)) 1 [BSON_TYPE_BINARY]
      [(key_length, key); (1, [0]); (4, le_bytes 4 length); (1, [subtype8]); (length, binary)].

Definition bson_append_bool (b : Z) (key : bytes) (key_length : Z) (value : bool) : M bool :=
  let abyte := if value then 1 else 0 in
  key_length ← key_len key key_length;
  _bson_append b 4 (u32 (1 + key_length + 1 + 1)) 1 [BSON_TYPE_BOOL]
    [(key_length, key); (1, [0]); (1, [abyte])].

Definition bson_append_code (b : Z) (key : bytes) (key_length : Z) (javascript : bytes) : M bool :=
  key_length ← key_len key key_length;
  n ← lift (strlen javascript);
  let length := u32 (s32 n + 1) in
  _bson_append b 5 (u32 (1 + key_length + 1 + 4 + length)) 1 [BSON_TYPE_CODE]
    [(key_length, key); (1, [0]); (4, le_bytes 4 length); (length, javascript)].

Definition bson_append_code_with_scope (b : Z) (key : bytes) (key_length : Z) (javascript : bytes)
    (scope : option Z) : M bool :=
  match scope with
  | None => bson_append_code b key key_length javascript
  | Some scope =>
    key_length ← key_len key key_length;
    n ← lift (strlen javascript);
    let js_length := u32 (s32 n + 1) in
    '(len, d) ← doc_arg scope;
    let codews_length := u32 (4 + 4 + js_length + len) in
    _bson_append b 7 (u32 (1 + key_length + 1 + 4 + 4 + js_length + len)) 1 [BSON_TYPE_CODEWSCOPE]
      [(key_length, key); (1, [0]); (4, le_bytes 4 codews_length); (4, le_bytes 4 js_length);
       (js_length, javascript); (len, d)]
  end.

Definition bson_append_dbpointer (b : Z) (key : bytes) (key_length : Z) (collection oid : bytes) : M bool :=
  key_length ← key_len key key_length;
  n ← lift (strlen collection);
  let length := u32 (s32 n + 1) in
  _bson_append b 6 (u32 (1 + key_length + 1 + 4 + length + 12)) 1 [BSON_TYPE_DBPOINTER]
    [(key_length, key); (1, [0]); (4, le_bytes 4 length); (length, collection); (12, oid)].

Definition bson_append_document (b : Z) (key : bytes) (key_length value : Z) : M bool :=
  key_length ← key_len key key_length;
  '(len, d) ← doc_arg value;
  _bson_append b 4 (u32 (1 + key_length + 1 + len)) 1 [BSON_TYPE_DOCUMENT]
    [(key_length, key); (1, [0]); (len, d)].

Definition bson_append_double (b : Z) (key : bytes) (key_length value : Z) : M bool :=
  key_length ← key_len key key_length;
  _bson_append b 4 (u32 (1 + key_length + 1 + 8)) 1 [BSON_TYPE_DOUBLE]
    [(key_length, key); (1, [0]); (8, le_bytes 8 value)].

Definition bson_append_int32 (b : Z) (key : bytes) (key_length value : Z) : M bool :=
  key_length ← key_len key key_length;
  _bson_append b 4 (u32 (1 + key_length + 1 + 4)) 1 [BSON_TYPE_INT32]
    [(key_length, key); (1, [0]); (4, le_bytes 4 (u32 value))].

Definition bson_append_int64 (b : Z) (key : bytes) (key_length value : Z) : M bool :=
  key_length ← key_len key key_length;
  _bson_append b 4 (u32 (1 + key_length + 1 + 8)) 1 [BSON_TYPE_INT64]
    [(key_length, key); (1, [0]); (8, le_bytes 8 (u64 value))].

Definition bson_append_decimal128 (b : Z) (key : bytes) (key_length : Z) (value : bson_decimal128_t) : M bool :=
  key_length ← key_len key key_length;
  let value_le := le_bytes 8 (d_low value) ++ le_bytes 8 (d_high value) in
  _bson_append b 4 (u32 (1 + key_length + 1 + 16)) 1 [BSON_TYPE_DECIMAL128]
    [(key_length, key); (1, [0]); (16, value_le)].

(** [bson_append_maxkey], [_minkey], [_null] and [_undefined] have the same body. *)
Definition append_empty (ty b : Z) (key : bytes) (key_length : Z) : M bool :=
  key_length ← key_len key key_length;
  _bson_append b 3 (u32 (1 + key_length + 1)) 1 [ty] [(key_length, key); (1, [0])].

Definition bson_append_maxkey (b : Z) (key : bytes) (key_length : Z) : M bool :=
  append_empty BSON_TYPE_MAXKEY b key key_length.
Definition bson_append_minkey (b : Z) (key : bytes) (key_length : Z) : M bool :=
  append_empty BSON_TYPE_MINKEY b key key_length.
Definition bson_append_null (b : Z) (key : bytes) (key_length : Z) : M bool :=
  append_empty BSON_TYPE_NULL b key key_length.
Definition bson_append_undefined (b : Z) (key : bytes) (key_length : Z) : M bool :=
  append_empty BSON_TYPE_UNDEFINED b key key_length.

Definition bson_append_oid (b : Z) (key : bytes) (key_length : Z) (value : bytes) : M bool :=
  key_length ← key_len key key_length;
  _bson_append b 4 (u32 (1 + key_length + 1 + 12)) 1 [BSON_TYPE_OID]
    [(key_length, key); (1, [0]); (12, value)].

(** "ilmsux" *)
Definition BSON_REGEX_OPTIONS_SORTED : bytes := [0x69; 0x6C; 0x6D; 0x73; 0x75; 0x78].

(** [strchr (options, c)] for a non-NUL [c]. *)
Fixpoint strchr (s : bytes) (c : Z) : outcome bool :=
  match s with
  | [] => Oob
  | x :: s => if x =? c then Ret true else if x =? 0 then Ret false else strchr s c
  end.

Fixpoint regex_options_loop (cs : bytes) (buffer : bson_string_t) (options : bytes) : outcome bson_string_t :=
  match cs with
  | [] => Ret buffer
  | c :: cs =>
    found ← strchr options c;
    buffer ← (if (found : bool) then bson_string_append_c buffer c else Ret buffer);
    regex_options_loop cs buffer options
  end.

Definition _bson_append_regex_options_sorted (buffer : bson_string_t) (options : bytes) : outcome bson_string_t :=
  regex_options_loop BSON_REGEX_OPTIONS_SORTED buffer options.

Definition bson_append_regex (b : Z) (key : bytes) (key_length : Z) (regex options : option bytes) : M bool :=
  key_length ← key_len key key_length;
  let regex := default [0] regex in
  let options := default [0] options in
  n ← lift (strlen regex);
  let regex_len := u32 (s32 n + 1) in
  options_sorted ← lift (bson_string_new None);
  options_sorted ← lift (_bson_append_regex_options_sorted options_sorted options);
  _bson_append b 5 (u32 (1 + key_length + 1 + regex_len + s_len options_sorted)) 1 [BSON_TYPE_REGEX]
    [(key_length, key); (1, [0]); (regex_len, regex);
     (u32 (s_len options_sorted + 1), s_str options_sorted)].

(** [bson_append_utf8] and [bson_append_symbol] have the same body. *)
Definition append_string (ty b : Z) (key : bytes) (key_length : Z) (value : option bytes)
    (length : Z) : M bool :=
  match value with
  | None => bson_append_null b key key_length
  | Some value =>
    key_length ← key_len key key_length;
    length ← key_len value length;
    _bson_append b 6 (u32 (1 + key_length + 1 + 4 + length + 1)) 1 [ty]
      [(key_length, key); (1, [0]); (4, le_bytes 4 (u32 (length + 1))); (length, value); (1, [0])]
  end.

Definition bson_append_utf8 (b : Z) (key : bytes) (key_length : Z) (value : option bytes)
    (length : Z) : M bool :=
  append_string BSON_TYPE_UTF8 b key key_length value length.
Definition bson_append_symbol (b : Z) (key : bytes) (key_length : Z) (value : option bytes)
    (length : Z) : M bool :=
  append_string BSON_TYPE_SYMBOL b key key_length value length.

Definition bson_append_timestamp (b : Z) (key : bytes) (key_length timestamp increment : Z) : M bool :=
  key_length ← key_len key key_length;
  let value := Z.lor (u64 (Z.shiftl timestamp 32)) increment in
  _bson_append b 4 (u32 (1 + key_length + 1 + 8)) 1 [BSON_TYPE_TIMESTAMP]
    [(key_length, key); (1, [0]); (8, le_bytes 8 value)].

Definition bson_append_date_time (b : Z) (key : bytes) (key_length value : Z) : M bool :=
  key_length ← key_len key key_length;
  _bson_append b 4 (u32 (1 + key_length + 1 + 8)) 1 [BSON_TYPE_DATE_TIME]
    [(key_length, key); (1, [0]); (8, le_bytes 8 (u64 value))].

Definition bson_append_timeval (b : Z) (key : bytes) (key_length tv_sec tv_usec : Z) : M bool :=
  let unix_msec := u64 (u64 (u64 tv_sec * 1000) + u64 tv_usec / 1000) in
  bson_append_date_time b key key_length (s64 unix_msec).

Definition bson_append_time_t (b : Z) (key : bytes) (key_length value : Z) : M bool :=
  bson_append_timeval b key key_length value 0.

(** [now] is the value of [time (NULL)]. *)
Definition bson_append_now_utc (now b : Z) (key : bytes) (key_length : Z) : M bool :=
  BSON_ASSERT (-1 <=? key_length);;
  bson_append_time_t b key key_length now.

Definition bson_concat (dst src : Z) : M bool :=
  o ← get_obj src;
  p ← _bson_data src;
  d ← load p;
  c4 ← lift (if b_len o =? 5 then Ret 0 else rd d 4);
  if negb ((b_len o =? 5) || (c4 =? 0)) then
    d ← load (ptr_add p 4);
    _bson_append dst 1 (u32 (b_len o - 5)) (u32 (b_len o - 5)) d []
  else mret true.

(** * Which bytes each function appends *)

(** [appends c m b o pre body slack data]: running [c] appends exactly
    [data] to the document, or changes nothing and returns [false] when there
    is no room. *)
Definition appends (c : M bool) (m : mem) (b : Z) (o : bson_t) (pre body slack data : bytes) : Prop :=
  exists m' ok, c m = Ret (m', ok) /\ appended m b o pre body slack data m' ok.

(** A document's own bytes, as the functions that take one by pointer see them. *)
Lemma load_add_rep m b o pre body slack n l r :
  rep m b o pre body slack -> doc_bytes body ++ slack = l ++ r -> zlen l = n ->
  load (ptr_add (base_ptr b o) n) m = Ret (m, r).
Proof.
  intros [V _ Ro _ _ _ _] Elr Hn. destruct V as [V1 V2]. unfold base_ptr, o_offset in *.
  assert (E : rdn (image pre body slack) (zlen pre + n) (zlen (image pre body slack) - (zlen pre + n)) = Ret r).
  { assert (Ei : image pre body slack = (pre ++ l) ++ r ++ [])
      by (unfold image; by rewrite Elr, app_nil_r, app_assoc).
    rewrite Ei. apply rdn_mid; rewrite ?zlen_app, ?zlen_nil; lia. }
  destruct (b_impl o) as [d|a] eqn:Ei; cbn [load ptr_add].
  - destruct V2 as [_ ->]. step (run_get_obj _ _ _ V1). rewrite Ei. unfold lift. by rewrite Ro, E.
  - destruct V2 as [_ Vc]. unfold mbind, M_bind, get_cell. rewrite Vc. cbn [c_buf].
    unfold lift. by rewrite Ro, E.
Qed.

Lemma load_rep m b o pre body slack :
  rep m b o pre body slack -> load (base_ptr b o) m = Ret (m, doc_bytes body ++ slack).
Proof. intros R. rewrite <- (ptr_add_0 (base_ptr b o)). by apply load_add_rep with pre body slack []. Qed.

Lemma doc_arg_rep m b o pre body slack :
  rep m b o pre body slack -> doc_arg b m = Ret (m, (zlen body + 5, doc_bytes body ++ slack)).
Proof.
  intros R. unfold doc_arg. step (get_obj_view _ _ _ _ (rep_view _ _ _ _ _ _ R)).
  step (data_view _ _ _ _ (rep_view _ _ _ _ _ _ R)). step (load_rep _ _ _ _ _ _ R).
  by rewrite (rep_len _ _ _ _ _ _ R).
Qed.

Section Appends.
Context (m : mem) (b : Z) (o : bson_t) (pre body slack : bytes).
Context (R : rep m b o pre body slack) (W : writable o).
Context (key : bytes) (key_length : Z) (kb : bytes) (Hk : key_ok key key_length kb).

(** The common shape: type byte, key, NUL, then [rest]. *)
Lemma append_elem_spec ty rest n_pairs n_bytes data :
  Forall pair_ok rest -> payload rest = data ->
  n_pairs = 3 + zlen rest -> n_bytes = zlen kb + 2 + zlen data -> n_bytes < 2 ^ 32 ->
  appends (_bson_append b n_pairs (u32 n_bytes) 1 [ty] ((zlen kb, key) :: (1, [0]) :: rest))
    m b o pre body slack (elem_hdr ty kb ++ data).
Proof using R W Hk.
  intros Hr <- -> En Hn. unfold appends. pose proof (zlen_nonneg kb). pose proof (zlen_nonneg (payload rest)).
  pose proof (payload_hdr ty key key_length kb rest Hk) as Ep.
  destruct (append_spec m b o pre body slack (1, [ty]) ((zlen kb, key) :: (1, [0]) :: rest) (3 + zlen rest) R W)
    as (m' & ok & E & A).
  - by apply (pairs_hdr_ok _ _ key_length).
  - done.
  - rewrite !zlen_cons. lia.
  - rewrite Ep, zlen_app, zlen_elem_hdr. lia.
  - rewrite Ep in *. rewrite zlen_app, zlen_elem_hdr in E.
    replace (u32 n_bytes) with (zlen kb + 2 + zlen (payload rest)) by (rewrite u32_id; lia).
    eauto.
Qed.

Lemma run_key_len {A} (K : Z -> M A) : mbind K (key_len key key_length) m = K (zlen kb) m.
Proof using Hk. by rewrite (run_bind _ _ _ _ _ (key_len_spec _ _ _ m Hk)). Qed.

Lemma run_lift {A B} (x : outcome A) (a : A) (K : A -> M B) :
  x = Ret a -> mbind K (lift x) m = K a m.
Proof. intros ->. done. Qed.

Lemma kb_range : 0 <= zlen kb < 2 ^ 31.
Proof using Hk. destruct Hk. pose proof (zlen_nonneg kb). lia. Qed.

Lemma one_pair n (d data : bytes) :
  0 <= n <= zlen d -> take (Z.to_nat n) d = data ->
  Forall pair_ok [(n, d)] /\ payload [(n, d)] = data.
Proof.
  intros Hn <-. split; [by apply Forall_cons_2; [|apply Forall_nil_2]|].
  unfold payload, pair_data. cbn. by rewrite app_nil_r.
Qed.

(** Functions whose value is one block of fixed size. *)
Lemma append_block_spec ty n (d : bytes) :
  zlen d = n -> 0 <= n <= 16 ->
  appends (_bson_append b 4 (u32 (1 + zlen kb + 1 + n)) 1 [ty] [(zlen kb, key); (1, [0]); (n, d)])
    m b o pre body slack (elem_hdr ty kb ++ d).
Proof using R W Hk.
  intros Hd Hn. pose proof kb_range.
  destruct (one_pair n d d) as [Hok Hp]; [lia | apply take_ge; zl |].
  apply append_elem_spec; [done | done | done | lia | lia].
Qed.

Ltac block := unfold appends in *; rewrite run_key_len; apply append_block_spec;
  [rewrite ?zlen_app, ?zlen_le_bytes; done | lia].

Lemma bson_append_double_spec bits :
  appends (bson_append_double b key key_length bits) m b o pre body slack
    (elem_hdr BSON_TYPE_DOUBLE kb ++ encode_value (VDouble bits)).
Proof using R W Hk. unfold bson_append_double. block. Qed.

Lemma bson_append_int32_spec n :
  appends (bson_append_int32 b key key_length n) m b o pre body slack
    (elem_hdr BSON_TYPE_INT32 kb ++ encode_value (VInt32 n)).
Proof using R W Hk. unfold bson_append_int32. block. Qed.

Lemma bson_append_int64_spec n :
  appends (bson_append_int64 b key key_length n) m b o pre body slack
    (elem_hdr BSON_TYPE_INT64 kb ++ encode_value (VInt64 n)).
Proof using R W Hk. unfold bson_append_int64. block. Qed.

Lemma bson_append_date_time_spec n :
  appends (bson_append_date_time b key key_length n) m b o pre body slack
    (elem_hdr BSON_TYPE_DATE_TIME kb ++ encode_value (VDateTime n)).
Proof using R W Hk. unfold bson_append_date_time. block. Qed.

Lemma bson_append_bool_spec v :
  appends (bson_append_bool b key key_length v) m b o pre body slack
    (elem_hdr BSON_TYPE_BOOL kb ++ encode_value (VBool v)).
Proof using R W Hk. unfold bson_append_bool. cbn zeta. block. Qed.

Lemma bson_append_oid_spec oid :
  zlen oid = 12 ->
  appends (bson_append_oid b key key_length oid) m b o pre body slack
    (elem_hdr BSON_TYPE_OID kb ++ encode_value (VOid oid)).
Proof using R W Hk. intros. unfold bson_append_oid. block. Qed.

Lemma bson_append_decimal128_spec low high :
  appends (bson_append_decimal128 b key key_length (mk_dec128 low high)) m b o pre body slack
    (elem_hdr BSON_TYPE_DECIMAL128 kb ++ encode_value (VDecimal128 low high)).
Proof using R W Hk. unfold bson_append_decimal128. block. Qed.

Lemma append_empty_spec ty :
  appends (append_empty ty b key key_length) m b o pre body slack (elem_hdr ty kb ++ []).
Proof using R W Hk.
  unfold append_empty, appends. rewrite run_key_len. pose proof kb_range.
  apply append_elem_spec; [apply Forall_nil_2 | done | done | rewrite zlen_nil; lia | lia].
Qed.

Lemma bson_append_timestamp_spec t i :
  uint_range 32 t -> uint_range 32 i ->
  appends (bson_append_timestamp b key key_length t i) m b o pre body slack
    (elem_hdr BSON_TYPE_TIMESTAMP kb ++ encode_value (VTimestamp t i)).
Proof using R W Hk.
  intros Ht Hi. unfold bson_append_timestamp, uint_range in *. cbn zeta.
  replace (encode_value (VTimestamp t i)) with (le_bytes 8 (Z.lor (u64 (Z.shiftl t 32)) i)).
  { block. }
  rewrite Z.shiftl_mul_pow2, u64_id, lor_mul_add by lia. cbn [encode_value].
  rewrite (Z.add_comm _ i), (Z.mul_comm t). change 8%nat with (4 + 4)%nat.
  rewrite le_bytes_app. change (256 ^ Z.of_nat 4) with (2 ^ 32).
  rewrite (Z.mul_comm _ t), Z.div_add, (Z.div_small i), Z.add_0_l by lia. f_equal.
  rewrite <- (le_bytes_mod 4 (i + _)). change (256 ^ Z.of_nat 4) with (2 ^ 32).
  rewrite Z.mod_add, Z.mod_small by lia. done.
Qed.

(** Pairs whose data is exactly a given block. *)
Lemma payload_cons n d ps data : take (Z.to_nat n) d = data -> payload ((n, d) :: ps) = data ++ payload ps.
Proof. intros <-. done. Qed.

Lemma take_zlen (d k : bytes) : take (Z.to_nat (zlen d)) (d ++ k) = d.
Proof. unfold zlen. by rewrite Nat2Z.id, take_app_length. Qed.

Lemma take_all n (d : bytes) : zlen d = n -> take (Z.to_nat n) d = d.
Proof. intros <-. rewrite <- (app_nil_r d) at 2. apply take_zlen. Qed.

(** A string argument with an explicit or computed length. *)
Lemma append_string_spec ty value length s :
  key_ok value length s -> zlen kb + zlen s + 7 <= INT32_MAX ->
  appends (append_string ty b key key_length (Some value) length) m b o pre body slack
    (elem_hdr ty kb ++ string_bytes s).
Proof using R W Hk.
  intros Hv Hsz. unfold append_string, appends. rewrite run_key_len.
  rewrite (run_bind _ _ _ _ _ (key_len_spec _ _ _ m Hv)).
  destruct (key_ok_pair _ _ _ Hv) as [Hp Hd]. unfold INT32_MAX in *.
  pose proof (zlen_nonneg kb). pose proof (zlen_nonneg s). rewrite (u32_id (zlen s + 1)) by lia.
  apply append_elem_spec; [| | done | zl | lia].
  - apply Forall_cons_2; [done|]. apply Forall_cons_2; [exact Hp|]. pairs_ok.
  - unfold payload. cbn [map concat]. rewrite Hd. done.
Qed.

Lemma bson_append_binary_spec subtype data post :
  is_byte subtype -> zlen kb + zlen data + 11 <= INT32_MAX ->
  appends (bson_append_binary b key key_length subtype (data ++ post) (zlen data)) m b o pre body slack
    (elem_hdr BSON_TYPE_BINARY kb ++ encode_value (VBinary subtype data)).
Proof using R W Hk.
  intros Hs Hsz. unfold bson_append_binary, appends. rewrite run_key_len. unfold INT32_MAX in *.
  pose proof (zlen_nonneg kb). pose proof (zlen_nonneg data). pose proof (zlen_nonneg post).
  cbn [encode_value]. unfold binary_bytes. rewrite u8_id by done.
  destruct (subtype =? BSON_SUBTYPE_BINARY_DEPRECATED) eqn:E.
  - rewrite (u32_id (zlen data + 4)) by lia.
    apply append_elem_spec; [pairs_ok | | done | zl | lia].
    unfold payload, pair_data. cbn [map concat fst snd]. by rewrite take_zlen, app_nil_r.
  - apply append_elem_spec; [pairs_ok | | done | zl | lia].
    unfold payload, pair_data. cbn [map concat fst snd]. by rewrite take_zlen, app_nil_r.
Qed.

(** A zero-terminated argument copied with its terminator. *)
Lemma cstr_block (s post : bytes) :
  no_nul s -> zlen s < 2 ^ 31 - 1 ->
  strlen (s ++ 0 :: post) = Ret (zlen s) /\ u32 (s32 (zlen s) + 1) = zlen s + 1 /\
  take (Z.to_nat (zlen s + 1)) (s ++ 0 :: post) = s ++ [0].
Proof.
  intros Hn Hl. pose proof (zlen_nonneg s). split; [by apply strlen_cstr|].
  rewrite s32_id, u32_id by lia. split; [done|].
  replace (s ++ 0 :: post) with ((s ++ [0]) ++ post) by (by rewrite <- app_assoc).
  replace (zlen s + 1) with (zlen (s ++ [0])) by zl. apply take_zlen.
Qed.

Lemma bson_append_code_spec js post :
  no_nul js -> zlen kb + zlen js + 7 <= INT32_MAX ->
  appends (bson_append_code b key key_length (js ++ 0 :: post)) m b o pre body slack
    (elem_hdr BSON_TYPE_CODE kb ++ encode_value (VCode js)).
Proof using R W Hk.
  intros Hn Hsz. unfold bson_append_code, appends. rewrite run_key_len. unfold INT32_MAX in *.
  pose proof (zlen_nonneg kb). pose proof (zlen_nonneg js). pose proof (zlen_nonneg post).
  destruct (cstr_block js post Hn) as (E1 & E2 & E3); [lia|].
  rewrite (run_lift _ _ _ E1). cbn zeta. rewrite E2.
  apply append_elem_spec; [pairs_ok | | done | cbn [encode_value]; zl | lia].
  unfold payload, pair_data. cbn [map concat fst snd]. by rewrite E3, app_nil_r.
Qed.

Lemma bson_append_dbpointer_spec collection post oid :
  no_nul collection -> zlen oid = 12 -> zlen kb + zlen collection + 19 <= INT32_MAX ->
  appends (bson_append_dbpointer b key key_length (collection ++ 0 :: post) oid) m b o pre body slack
    (elem_hdr BSON_TYPE_DBPOINTER kb ++ encode_value (VDbPointer collection oid)).
Proof using R W Hk.
  intros Hn Ho Hsz. unfold bson_append_dbpointer, appends. rewrite run_key_len. unfold INT32_MAX in *.
  pose proof (zlen_nonneg kb). pose proof (zlen_nonneg collection). pose proof (zlen_nonneg post).
  destruct (cstr_block collection post Hn) as (E1 & E2 & E3); [lia|].
  rewrite (run_lift _ _ _ E1). cbn zeta. rewrite E2.
  apply append_elem_spec; [pairs_ok | | done | cbn [encode_value]; zl | lia].
  unfold payload, pair_data. cbn [map concat fst snd encode_value]. rewrite E3.
  unfold string_bytes. rewrite !take_all by (rewrite ?zlen_le_bytes; done).
  by rewrite app_nil_r, <- !app_assoc.
Qed.

(** Another document passed by pointer: [src] is any readable document. *)
Context (src : Z) (os : bson_t) (pres bodys slacks : bytes) (Rs : rep m src os pres bodys slacks).

Lemma doc_arg_spec : doc_arg src m = Ret (m, (zlen bodys + 5, doc_bytes bodys ++ slacks)).
Proof using Rs. clear R W. apply doc_arg_rep with os pres. done. Qed.

Lemma append_doc_spec ty :
  zlen kb + zlen bodys + 7 <= INT32_MAX ->
  appends (_bson_append b 4 (u32 (1 + zlen kb + 1 + (zlen bodys + 5))) 1 [ty]
             [(zlen kb, key); (1, [0]); (zlen bodys + 5, doc_bytes bodys ++ slacks)])
    m b o pre body slack (elem_hdr ty kb ++ doc_bytes bodys).
Proof using R W Hk Rs.
  intros Hsz. unfold INT32_MAX in *. pose proof (zlen_nonneg kb). pose proof (zlen_nonneg bodys).
  destruct (one_pair (zlen bodys + 5) (doc_bytes bodys ++ slacks) (doc_bytes bodys)) as [Hok Hp].
  { pose proof (zlen_nonneg slacks). rewrite zlen_app, zlen_doc_bytes. lia. }
  { rewrite <- zlen_doc_bytes. apply take_zlen. }
  apply append_elem_spec; [done | done | done | rewrite zlen_doc_bytes; lia | lia].
Qed.

Lemma bson_append_document_spec :
  zlen kb + zlen bodys + 7 <= INT32_MAX ->
  appends (bson_append_document b key key_length src) m b o pre body slack
    (elem_hdr BSON_TYPE_DOCUMENT kb ++ doc_bytes bodys).
Proof using R W Hk Rs.
  intros. unfold bson_append_document, appends. rewrite run_key_len, (run_bind _ _ _ _ _ doc_arg_spec).
  by apply append_doc_spec.
Qed.

Lemma bson_append_code_with_scope_spec js post :
  no_nul js -> zlen kb + zlen js + zlen bodys + 16 <= INT32_MAX ->
  appends (bson_append_code_with_scope b key key_length (js ++ 0 :: post) (Some src)) m b o pre body slack
    (elem_hdr BSON_TYPE_CODEWSCOPE kb ++
     le_bytes 4 (4 + zlen (string_bytes js) + zlen (doc_bytes bodys)) ++ string_bytes js ++ doc_bytes bodys).
Proof using R W Hk Rs.
  intros Hn Hsz. unfold bson_append_code_with_scope, appends. rewrite run_key_len. unfold INT32_MAX in *.
  pose proof (zlen_nonneg kb). pose proof (zlen_nonneg js). pose proof (zlen_nonneg post). pose proof (zlen_nonneg bodys).
  destruct (cstr_block js post Hn) as (E1 & E2 & E3); [lia|].
  rewrite (run_lift _ _ _ E1). cbn zeta. rewrite E2, (run_bind _ _ _ _ _ doc_arg_spec). cbn beta iota zeta.
  rewrite (u32_id (4 + 4 + _ + _)) by lia.
  pose proof (zlen_nonneg slacks).
  apply append_elem_spec; [pairs_ok | | done | zl | lia].
  - unfold payload, pair_data. cbn [map concat fst snd]. rewrite E3, <- zlen_doc_bytes, take_zlen, app_nil_r.
    unfold string_bytes at 2. rewrite zlen_string_bytes, zlen_doc_bytes, <- !app_assoc.
    rewrite !take_all by (rewrite ?zlen_le_bytes; done). do 2 f_equal. lia.
Qed.

(** [bson_concat] adds the elements of the source. *)
Lemma bson_concat_spec :
  zlen bodys = 0 \/ (exists ty t, bodys = ty :: t /\ ty <> 0) ->
  exists m' ok, bson_concat b src m = Ret (m', ok) /\
    (bodys <> [] -> appended m b o pre body slack bodys m' ok) /\ (bodys = [] -> m' = m /\ ok = true).
Proof using R W Rs.
  intros Hty. unfold bson_concat. pose proof (rep_bound _ _ _ _ _ _ Rs) as (Hb & H5 & Hmax).
  step (get_obj_view _ _ _ _ (rep_view _ _ _ _ _ _ Rs)).
  step (data_view _ _ _ _ (rep_view _ _ _ _ _ _ Rs)). step (load_rep _ _ _ _ _ _ Rs).
  rewrite (rep_len _ _ _ _ _ _ Rs) in *. pose proof (zlen_nonneg bodys). pose proof (zlen_nonneg pres).
  pose proof (zlen_nonneg slacks). unfold INT32_MAX in *.
  destruct bodys as [|ty t].
  { cbn. eexists m, true. by repeat split. }
  destruct Hty as [Hz|(ty' & t' & E & Hnz)]; [rewrite zlen_cons in Hz; pose proof (zlen_nonneg t); lia|].
  injection E as <- <-. rewrite zlen_cons in *. pose proof (zlen_nonneg t).
  replace (1 + zlen t + 5 =? 5) with false by lia.
  assert (E4 : rd (doc_bytes (ty :: t) ++ slacks) 4 = Ret ty) by done.
  rewrite (run_lift _ _ _ E4). replace (ty =? 0) with false by lia. cbn [negb orb].
  assert (El : load (ptr_add (base_ptr src os) 4) m = Ret (m, (ty :: t) ++ [0] ++ slacks)).
  { apply (load_add_rep m src os pres (ty :: t) slacks 4 (le_bytes 4 (zlen (ty :: t) + 5))); [done | | done].
    unfold doc_bytes. by rewrite <- !app_assoc. }
  step El. replace (u32 (1 + zlen t + 5 - 5)) with (zlen (ty :: t)) by (rewrite zlen_cons, u32_id; lia).
  set (d := (ty :: t) ++ [0] ++ slacks).
  destruct (append_spec m b o pre body slack (zlen (ty :: t), d) [] 1 R W) as (m' & ok & E' & A).
  - apply Forall_cons_2; [|apply Forall_nil_2]. unfold pair_ok, d. cbn [fst snd]. rewrite !zlen_app. zl.
  - cbn [fst]. rewrite zlen_cons. lia.
  - done.
  - unfold payload, pair_data. cbn [map concat fst snd]. unfold d. rewrite take_zlen. rewrite app_nil_r, zlen_cons. lia.
  - assert (Ep : payload [(zlen (ty :: t), d)] = ty :: t)
      by (unfold payload, pair_data; cbn [map concat fst snd]; unfold d; by rewrite take_zlen, app_nil_r).
    rewrite Ep in *. cbn [fst snd] in E'. exists m', ok. split; [exact E'|]. by split.
Qed.

(** ** Regular expressions *)

Definition regex_options (options : bytes) : bytes :=
  filter (fun c => c ∈ options) BSON_REGEX_OPTIONS_SORTED.

Lemma strchr_spec (s post : bytes) c :
  no_nul s -> strchr (s ++ 0 :: post) c = Ret (if c =? 0 then true else bool_decide (c ∈ s)).
Proof.
  clear. induction 1 as [|x s Hx H IH]; cbn [app strchr].
  - rewrite Z.eqb_sym. destruct (c =? 0) eqn:E; [done|]. done.
  - rewrite IH. destruct (x =? c) eqn:E; bool_hyps.
    + subst. replace (c =? 0) with false by lia. by rewrite bool_decide_eq_true_2 by set_solver.
    + replace (x =? 0) with false by lia. destruct (c =? 0); [done|].
      do 2 f_equal. apply bool_decide_ext. set_solver.
Qed.

Lemma regex_options_loop_spec cs : forall s t (options post : bytes),
  srep s t -> no_nul options -> no_nul cs -> zlen t + zlen cs < 2 ^ 29 ->
  exists s', regex_options_loop cs s (options ++ 0 :: post) = Ret s' /\
    srep s' (t ++ filter (fun c => c ∈ options) cs).
Proof.
  clear. induction cs as [|c cs IH]; intros s t options post S Ho Hc Hl.
  { exists s. cbn. by rewrite app_nil_r. }
  inversion_clear Hc as [|?? Hc0 Hcs]. rewrite zlen_cons in Hl. pose proof (zlen_nonneg cs).
  pose proof (zlen_nonneg t).
  cbn [regex_options_loop]. rewrite strchr_spec by done. replace (c =? 0) with false by lia.
  cbn [mbind outcome_bind]. rewrite filter_cons. case_decide as Hd.
  - rewrite bool_decide_eq_true_2 by done.
    destruct (bson_string_append_c_spec s t c S Hc0) as (s1 & -> & S1); [lia|]. cbn [mbind outcome_bind].
    destruct (IH s1 (t ++ [c]) options post S1 Ho Hcs) as (s' & E & S'); [rewrite zlen_app; zl|].
    exists s'. split; [done|]. by rewrite <- app_assoc in S'.
  - rewrite bool_decide_eq_false_2 by done. cbn [mbind outcome_bind].
    apply IH; [done | done | done | lia].
Qed.

(** With enough room already reserved the element is appended as specified:
    the length that the function announces is one byte short (it leaves out
    the terminator of the options), so growth alone does not guarantee it. *)
Lemma bson_append_regex_spec (regex options post post' : bytes) :
  no_nul regex -> no_nul options -> zlen kb + zlen regex + 16 <= INT32_MAX ->
  zlen kb + zlen regex + 10 + o_depth o <= zlen slack ->
  exists m' o' slack',
    bson_append_regex b key key_length (Some (regex ++ 0 :: post)) (Some (options ++ 0 :: post')) m
      = Ret (m', true) /\
    rep m' b o' pre (body ++ elem_hdr BSON_TYPE_REGEX kb ++ encode_value (VRegex regex (regex_options options))) slack' /\
    evolves b o o' /\ frame b o m m'.
Proof using R W Hk.
  clear Rs. intros Hr Ho Hsz Hroom. unfold bson_append_regex. rewrite run_key_len. cbn [from_option id].
  pose proof (zlen_nonneg kb). pose proof (zlen_nonneg regex). pose proof (zlen_nonneg post). unfold INT32_MAX in *.
  destruct (cstr_block regex post Hr) as (E1 & E2 & E3); [lia|].
  rewrite (run_lift _ _ _ E1). cbn zeta. rewrite E2.
  destruct bson_string_new_empty as (s0 & E0 & S0). rewrite (run_lift _ _ _ E0).
  destruct (regex_options_loop_spec BSON_REGEX_OPTIONS_SORTED s0 [] options post' S0 Ho) as (s1 & E4 & S1);
    [by repeat constructor | done |].
  unfold _bson_append_regex_options_sorted. rewrite (run_lift _ _ _ E4). cbn [app] in S1.
  fold (regex_options options) in S1.
  assert (Hlo : zlen (regex_options options) <= 6).
  { unfold regex_options, zlen. pose proof (length_filter (fun c => c ∈ options) BSON_REGEX_OPTIONS_SORTED) as Hf.
    change (length BSON_REGEX_OPTIONS_SORTED) with 6%nat in Hf. lia. }
  destruct S1 as [Sl Sa Sb [sl Es]]. rewrite Sl, Es. pose proof (zlen_nonneg (regex_options options)).
  set (os' := regex_options options) in *. rewrite (u32_id (zlen os' + 1)) by lia.
  set (ps := [(zlen kb, key); (1, [0]); (zlen regex + 1, regex ++ 0 :: post); (zlen os' + 1, os' ++ 0 :: sl)]).
  assert (Hpay : payload ((1, [BSON_TYPE_REGEX]) :: ps)
                 = elem_hdr BSON_TYPE_REGEX kb ++ encode_value (VRegex regex os')).
  { unfold ps. rewrite (payload_hdr _ _ _ _ _ Hk). f_equal. unfold payload, pair_data. cbn [map concat fst snd].
    rewrite E3, app_nil_r. cbn [encode_value]. f_equal.
    replace (os' ++ 0 :: sl) with ((os' ++ [0]) ++ sl) by (by rewrite <- app_assoc).
    replace (zlen os' + 1) with (zlen (os' ++ [0])) by zl. apply take_zlen. }
  rewrite <- Hpay. rewrite u32_id by lia.
  assert (Lpay : zlen (payload ((1, [BSON_TYPE_REGEX]) :: ps)) = zlen kb + zlen regex + zlen os' + 4)
    by (rewrite Hpay; cbn [encode_value]; zl).
  pose proof (rep_bound _ _ _ _ _ _ R) as (Hb & H5 & Hmax). unfold INT32_MAX in Hmax.
  pose proof (rep_depth _ _ _ _ _ _ R). pose proof (zlen_nonneg pre).
  assert (Hpairs : Forall pair_ok ((1, [BSON_TYPE_REGEX]) :: ps))
    by (apply (pairs_hdr_ok _ _ _ _ _ Hk); pairs_ok).
  apply (append_roomy_spec m b o pre body slack (1, [BSON_TYPE_REGEX]) ps 5 _ R W Hpairs ltac:(done) eq_refl);
    unfold BSON_MAX_SIZE; lia.
Qed.

End Appends.
