(* ===== verification/Lifecycle.v ===== *)
(** * Creating, copying, moving and comparing documents (bson.c)

    Objects and buffer variables are allocated by the caller of the model:
    a function that calls [malloc] for a [bson_t] takes the address of the
    new object as its first argument.  [bson_free] removes the buffer of a
    variable or the whole object. *)
From S2P Require Import Prelude Memory Format Document Append.

(** ** Operations *)

(** [bson_free] of a heap buffer and of a [bson_t]. *)
Definition free_buf (l : Z) : M () := c ← get_cell l; put_cell l (mk_cell None (c_len c)).
Definition free_obj (b : Z) : M () := fun m =>
  Ret (mk_mem (delete b (objs m)) (delete b (cells m)), ()).

(** The five bytes of the empty document. *)
Definition empty_doc : bytes := [5; 0; 0; 0; 0].

Definition bson_init_static (b : Z) (data : bytes) (length : Z) : M bool :=
  if (length <? 5) || (length >? INT_MAX) then mret false
  else
    len_le ← lift (rd_le 4 data 0);
    if negb (len_le =? length) then mret false
    else
      last ← lift (rd data (length - 1));
      if negb (last =? 0) then mret false
      else
        buf ← lift (rdn data 0 length);
        put_cell b (mk_cell (Some buf) length);;
        put_obj b (mk_bson (set_flag BSON_FLAG_STATIC BSON_FLAG_RDONLY) (u32 length)
                     (Alloc (mk_alloc None 0 b 0 None)));;
        mret true.

Definition bson_new (b : Z) : M Z :=
  put_obj b (mk_bson BSON_FLAG_INLINE 5 (Inline (empty_doc ++ bson_malloc 115)));;
  mret b.

Definition bson_sized_new (b size : Z) : M Z :=
  BSON_ASSERT (size <=? INT32_MAX);;
  if size <=? BSON_INLINE_DATA_SIZE then
    bson_init b;;
    o ← get_obj b;
    set_flags b (clear_flag (b_flags o) BSON_FLAG_STATIC);;
    mret b
  else
    let alloclen := Z.max 5 size in
    buf ← lift (wrn (bson_malloc alloclen) 0 empty_doc);
    put_cell b (mk_cell (Some buf) alloclen);;
    put_obj b (mk_bson 0 5 (Alloc (mk_alloc None 0 b 0 (Some bson_realloc_ctx))));;
    mret b.

(** [None] is the NULL pointer. *)
Definition bson_new_from_data (b : Z) (data : bytes) (length : Z) : M (option Z) :=
  if (length <? 5) || (length >? INT_MAX) then mret None
  else
    last ← lift (rd data (length - 1));
    if negb (last =? 0) then mret None
    else
      len_le ← lift (rd_le 4 data 0);
      if negb (length =? len_le) then mret None
      else
        bson ← bson_sized_new b length;
        p ← _bson_data bson;
        bs ← lift (rdn data 0 length);
        store p bs;;
        set_len bson (u32 length);;
        mret (Some bson).

(** [l] is the address of the caller's [buf]/[buf_len] variable pair. *)
Definition bson_new_from_buffer (b l : Z) (realloc_func : option bson_realloc_func) : M (option Z) :=
  let realloc_func := default bson_realloc_ctx realloc_func in
  let finish (length : Z) : M (option Z) :=
    c ← get_cell l;
    match c_buf c with
    | None => lift Oob
    | Some buf =>
      last ← lift (rd buf (u32 (length - 1)));
      if negb (last =? 0) then mret None
      else
        put_cell b (mk_cell None 0);;
        put_obj b (mk_bson BSON_FLAG_NO_FREE length (Alloc (mk_alloc None 0 l 0 (Some realloc_func))));;
        mret (Some b)
    end in
  c ← get_cell l;
  match c_buf c with
  | None =>
    buf ← lift (wrn (realloc_func None 5) 0 (le_bytes 4 5));
    buf ← lift (wrn buf 4 [0]);
    put_cell l (mk_cell (Some buf) 5);;
    finish 5
  | Some buf =>
    if (c_len c <? 5) || (c_len c >? INT_MAX) then mret None
    else length ← lift (rd_le 4 buf 0); finish length
  end.

Definition bson_copy (b src : Z) : M (option Z) :=
  p ← _bson_data src;
  data ← load p;
  o ← get_obj src;
  bson_new_from_data b data (b_len o).

Definition bson_copy_to (src dst : Z) : M () :=
  o ← get_obj src;
  if has_flag (b_flags o) BSON_FLAG_INLINE then
    put_obj dst (mk_bson (set_flag BSON_FLAG_STATIC BSON_FLAG_INLINE) (b_len o) (b_impl o))
  else
    p ← _bson_data src;
    data ← load p;
    let len := bson_next_power_of_two (b_len o) in
    bs ← lift (rdn data 0 (b_len o));
    buf ← lift (wrn (bson_malloc len) 0 bs);
    put_cell dst (mk_cell (Some buf) len);;
    put_obj dst (mk_bson BSON_FLAG_STATIC (b_len o)
                   (Alloc (mk_alloc None 0 dst 0 (Some bson_realloc_ctx)))).

Definition bson_destroy (b : Z) : M () :=
  o ← get_obj b;
  (if negb (has_flag (b_flags o) (set_flag (set_flag BSON_FLAG_RDONLY BSON_FLAG_INLINE) BSON_FLAG_NO_FREE))
   then match b_impl o with Alloc a => free_buf (a_buf a) | Inline _ => lift Oob end
   else mret ());;
  if negb (has_flag (b_flags o) BSON_FLAG_STATIC) then free_obj b else mret ().

(** The flags that forbid taking a document's buffer away. *)
Definition not_owner : Z := set_flag (set_flag BSON_FLAG_CHILD BSON_FLAG_IN_CHILD) BSON_FLAG_RDONLY.

Definition bson_reserve_buffer (b size : Z) : M (option ptr) :=
  o ← get_obj b;
  if has_flag (b_flags o) not_owner then mret None
  else
    ok ← _bson_grow b size;
    if negb ok then mret None
    else set_len b size;; p ← _bson_data b; mret (Some p).

Definition bson_steal (dst src : Z) : M bool :=
  bson_init dst;;
  o ← get_obj src;
  if has_flag (b_flags o) not_owner then mret false
  else
    (match has_flag (b_flags o) BSON_FLAG_INLINE, b_impl o with
     | true, Inline data =>
       d ← get_obj dst;
       put_obj dst (mk_bson (b_flags d) (b_len o) (Inline data));;
       set_len src 0
     | false, Alloc a =>
       c ← get_cell src;
       put_cell dst c;;
       put_obj dst (mk_bson (set_flag (b_flags o) BSON_FLAG_STATIC) (b_len o)
                      (Alloc (mk_alloc (a_parent a) (a_depth a) dst (a_offset a) (a_realloc a))))
     | _, _ => lift Oob
     end);;
    (if negb (has_flag (b_flags o) BSON_FLAG_STATIC) then free_obj src else set_len src 0);;
    mret true.

(** Returns the stolen buffer and the length. *)
Definition bson_destroy_with_steal (b : Z) (steal : bool) : M (option bytes * Z) :=
  o ← get_obj b;
  if negb steal then bson_destroy b;; mret (None, b_len o)
  else
    ret ← (if has_flag (b_flags o) not_owner then mret None
           else match has_flag (b_flags o) BSON_FLAG_INLINE, b_impl o with
                | true, Inline data =>
                  bs ← lift (rdn data 0 (b_len o));
                  buf ← lift (wrn (bson_malloc (b_len o)) 0 bs);
                  mret (Some buf)
                | false, Alloc a =>
                  c ← get_cell (a_buf a);
                  put_cell (a_buf a) (mk_cell None (c_len c));;
                  mret (c_buf c)
                | _, _ => lift Oob
                end);
    bson_destroy b;;
    mret (ret, b_len o).

Definition bson_get_data (b : Z) : M bytes := p ← _bson_data b; load p.

(** [memcmp] up to the sign of its result. *)
Fixpoint memcmp (s1 s2 : bytes) (n : nat) {struct n} : outcome Z :=
  match n with
  | O => Ret 0
  | S n =>
    match s1, s2 with
    | x :: s1, y :: s2 => if x <? y then Ret (-1) else if y <? x then Ret 1 else memcmp s1 s2 n
    | _, _ => Oob
    end
  end.

Definition bson_compare (b other : Z) : M Z :=
  p1 ← _bson_data b; data1 ← load (ptr_add p1 4);
  o1 ← get_obj b;
  let len1 := u32 (b_len o1 - 4) in
  p2 ← _bson_data other; data2 ← load (ptr_add p2 4);
  o2 ← get_obj other;
  let len2 := u32 (b_len o2 - 4) in
  if len1 =? len2 then lift (memcmp data1 data2 (Z.to_nat len1))
  else
    ret ← lift (memcmp data1 data2 (Z.to_nat (Z.min len1 len2)));
    let ret := if ret =? 0 then s64 (u64 (len1 - len2)) else ret in
    mret (if ret <? 0 then -1 else if ret >? 0 then 1 else 0).

Definition bson_equal (b other : Z) : M bool := c ← bson_compare b other; mret (c =? 0).

(** * Proofs *)

(** ** Bytes that are a document *)

(** The check that every constructor from raw bytes makes. *)
Definition is_doc (d : bytes) : Prop := 5 <= zlen d /\ le_val (take 4 d) = zlen d /\ last d = Some 0.

Lemma is_doc_bytes d : Forall is_byte d -> is_doc d <-> (exists body, d = doc_bytes body /\ zlen d < 2 ^ 32).
Proof.
  intros Hb. split.
  - intros (H5 & Hl & Hlast). apply last_Some in Hlast as [l Hl0].
    assert (exists body, l = take 4 d ++ body) as [body Hbody].
    { assert (4 <= length l)%nat by (rewrite Hl0 in H5; zl).
      exists (drop 4 l). rewrite Hl0, take_app_le by done. by rewrite take_drop. }
    assert (Hd : d = take 4 d ++ body ++ [0]) by (rewrite Hl0 at 1; rewrite Hbody at 1; by rewrite <- app_assoc).
    assert (zlen d = zlen body + 5) as Ez by (rewrite Hd; autorewrite with zlen; lia).
    assert (Hf : Forall is_byte (take 4 d)) by (by apply Forall_take).
    assert (L4 : length (take 4 d) = 4%nat) by zl.
    exists body. split.
    + unfold doc_bytes. rewrite <- Ez, <- Hl, (le_bytes_val _ 4); done.
    + rewrite <- Hl. pose proof (le_val_range _ Hf) as Hr. unfold zlen in Hr. rewrite L4 in Hr.
      change (256 ^ Z.of_nat 4) with (2 ^ 32) in Hr. lia.
  - intros (body & -> & Hlt). pose proof (zlen_nonneg body). rewrite zlen_doc_bytes in *.
    split; [rewrite zlen_doc_bytes; lia|]. unfold doc_bytes. split.
    + rewrite take_app_le, (take_ge (le_bytes 4 _)) by zl.
      rewrite le_val_bytes. change (256 ^ Z.of_nat 4) with (2 ^ 32). rewrite Z.mod_small by lia. zl.
    + by rewrite !last_app.
Qed.

(** A stand-alone document at [b]: it owns its buffer and can be written. *)
Record fresh_doc (m : mem) (b : Z) (o : bson_t) (body slack : bytes) : Prop := mk_fresh {
  fd_rep : rep m b o [] body slack;
  fd_writable : writable o;
  fd_growable : growable o;
  fd_own : own_cell b o = b;
  fd_depth : o_depth o = 0;
}.

(** Only the object and its own variables change. *)
Definition only (b : Z) (m m' : mem) : Prop :=
  (forall b', b' <> b -> objs m' !! b' = objs m !! b') /\
  (forall l, l <> b -> cells m' !! l = cells m !! l).

Lemma only_trans b m m' m'' : only b m m' -> only b m' m'' -> only b m m''.
Proof. intros [A1 A2] [B1 B2]. split; intros; [rewrite B1, A1 | rewrite B2, A2]; done. Qed.

Lemma frame_only b o m m' : own_cell b o = b -> frame b o m m' -> only b m m'.
Proof. intros E [F1 F2]. split; [done|]. rewrite E in F2. done. Qed.

Lemma only_upd m b o B : own_cell b o = b -> only b m (upd m b o B).
Proof.
  intros E. apply (frame_only b o); [done|]. apply frame_upd. unfold own_cell in *. by destruct (b_impl o).
Qed.

Lemma inline_fresh m b f :
  has_flag f BSON_FLAG_INLINE = true -> has_flag f BSON_FLAG_IN_CHILD = false ->
  has_flag f BSON_FLAG_RDONLY = false ->
  fresh_doc (mk_mem (<[b := mk_bson f 5 (Inline (empty_doc ++ bson_malloc 115))]> (objs m)) (cells m)) b
    (mk_bson f 5 (Inline (empty_doc ++ bson_malloc 115))) [] (bson_malloc 115).
Proof.
  intros Hi Hc Hr. constructor; try done. constructor; try done. split; [apply lookup_insert_eq | done].
Qed.

Lemma only_put_obj m b o cs :
  (forall l, l <> b -> cs !! l = cells m !! l) -> only b m (mk_mem (<[b := o]> (objs m)) cs).
Proof. intros H. split; [|done]. intros. cbn [objs]. by rewrite lookup_insert_ne. Qed.

Lemma bson_sized_new_spec m b size :
  0 <= size <= INT32_MAX ->
  exists m' o slack, bson_sized_new b size m = Ret (m', b) /\ fresh_doc m' b o [] slack /\
    size <= 5 + zlen slack /\ only b m m'.
Proof.
  intros Hs. unfold bson_sized_new. replace (size <=? INT32_MAX) with true by lia.
  step (eq_refl (Ret (m, ()))). unfold BSON_INLINE_DATA_SIZE. destruct (size <=? 120) eqn:E; bool_hyps.
  - set (oi := mk_bson (set_flag BSON_FLAG_INLINE BSON_FLAG_STATIC) 5 (Inline (empty_doc ++ bson_malloc 115))).
    set (m1 := mk_mem (<[b := oi]> (objs m)) (cells m)).
    step (eq_refl (Ret (m1, ()))). step (run_get_obj b oi m1 (lookup_insert_eq _ _ _)).
    unfold set_flags. rewrite (run_bind _ _ m1 _ _ (run_bind _ _ _ _ _ (run_get_obj b oi m1 (lookup_insert_eq _ _ _)))).
    eexists _, _, _. split; [reflexivity|]. cbn [objs cells m1]. rewrite insert_insert_eq.
    split; [by apply inline_fresh|]. split; [by rewrite zlen_bson_malloc|]. by apply only_put_obj.
  - unfold INT32_MAX in *. set (n := Z.max 5 size).
    pose proof (zlen_bson_malloc (n - 5) ltac:(lia)) as Hm.
    assert (Ew : wrn (bson_malloc n) 0 empty_doc = Ret (empty_doc ++ bson_malloc (n - 5))).
    { apply wrn_malloc. change (zlen empty_doc) with 5. lia. }
    rewrite (run_lift m _ _ _ Ew).
    assert (Lim : zlen (image [] [] (bson_malloc (n - 5))) = n).
    { unfold image. rewrite !zlen_app, Hm. change (zlen (doc_bytes [])) with 5. rewrite zlen_nil. lia. }
    eexists _, (mk_bson 0 5 (Alloc (mk_alloc None 0 b 0 (Some bson_realloc_ctx)))), (bson_malloc (n - 5)).
    split; [reflexivity|]. split; [|split; [lia|]].
    + constructor; try done; [|by eexists]. constructor; cbn [b_impl a_realloc]; try done.
      * split; [apply lookup_insert_eq|]. split; [done|]. cbn [cells a_buf]. rewrite lookup_insert_eq. by rewrite Lim.
      * unfold o_depth. cbn. rewrite Hm. lia.
      * rewrite Lim. unfold INT32_MAX, n. lia.
      * intros f Hf. simplify_eq. apply bson_realloc_ctx_ok.
    + cbn [objs cells]. apply only_put_obj. intros. by rewrite lookup_insert_ne.
Qed.

(** Overwriting a whole stand-alone document. *)
Lemma overwrite_doc m b o slack body :
  fresh_doc m b o [] slack -> zlen body + 5 <= 5 + zlen slack ->
  exists m' o' slack',
    (p ← _bson_data b; store p (doc_bytes body);; set_len b (zlen body + 5)) m = Ret (m', ()) /\
    fresh_doc m' b o' body slack' /\ only b m m'.
Proof.
  intros [R W G Ho Hd] Hsz. pose proof R as [V Rl Ro Rd Rs Rr Rc].
  set (B := image [] [] slack) in *. set (rest := drop (Z.to_nat (zlen body + 5)) B).
  set (gap := take (Z.to_nat (zlen body + 5)) B).
  assert (LB : zlen B = 5 + zlen slack) by (unfold B, image; rewrite !zlen_app; done).
  assert (EB : B = [] ++ gap ++ rest) by (symmetry; apply take_drop).
  pose proof (zlen_nonneg body). pose proof (zlen_nonneg rest).
  assert (Lg : zlen gap = zlen body + 5) by (unfold gap; rewrite zlen_take; lia).
  step (data_view _ _ _ _ V).
  assert (Es : store (base_ptr b o) (doc_bytes body) m = Ret (upd m b o ([] ++ doc_bytes body ++ rest), ())).
  { rewrite <- (ptr_add_0 (base_ptr b o)).
    apply (store_view _ _ _ _ V 0 [] gap rest); [done | by rewrite Ro | by rewrite zlen_doc_bytes]. }
  step Es. pose proof (view_upd _ _ _ o _ ([] ++ doc_bytes body ++ rest) V (same_place_refl o)) as V1.
  eexists _, (with_buf (with_len o (zlen body + 5)) (image [] body rest)), rest. split; [apply (set_len_view _ _ _ _ V1)|].
  assert (LB' : zlen (image [] body rest) = zlen B) by (rewrite EB; unfold image; rewrite !zlen_app, zlen_doc_bytes; lia).
  rewrite with_len_with_buf, upd_with_buf, upd_upd by done.
  split; [constructor|].
  - by apply (rep_rewrite m b o [] [] slack); [| | |lia].
  - unfold writable in *. by rewrite b_flags_with_buf.
  - unfold growable, with_buf, with_len in *. cbn [b_impl]. by destruct (b_impl o).
  - unfold own_cell, with_buf, with_len in *. cbn [b_impl]. by destruct (b_impl o) eqn:E; rewrite ?E.
  - by rewrite o_depth_with_buf.
  - by apply only_upd.
Qed.

Lemma rd_last (data : bytes) n :
  1 <= n <= zlen data -> exists x, rd data (n - 1) = Ret x /\ last (take (Z.to_nat n) data) = Some x.
Proof.
  intros Hn. destruct (rd_ret data (n - 1)) as [x Ex]; [lia|]. exists x. split; [done|].
  apply rd_Ret_inv in Ex as [_ Ex]. rewrite last_lookup, length_take, lookup_take_lt by zl.
  rewrite <- Ex. f_equal. zl.
Qed.

(** [bson_new_from_data] accepts exactly the byte strings that are a document. *)
Lemma new_from_data_spec m b data length :
  0 <= length <= zlen data -> Forall is_byte (take (Z.to_nat length) data) ->
  exists m' r, bson_new_from_data b data length m = Ret (m', r) /\
    (r = None -> m' = m /\ ~ (is_doc (take (Z.to_nat length) data) /\ length <= INT_MAX)) /\
    (forall b', r = Some b' -> b' = b /\ length <= INT_MAX /\ exists o body slack,
      take (Z.to_nat length) data = doc_bytes body /\ fresh_doc m' b o body slack /\ only b m m').
Proof.
  intros Hl Hb. unfold bson_new_from_data. set (d := take (Z.to_nat length) data).
  assert (Ld : zlen d = length) by (unfold d; rewrite zlen_take; lia). unfold is_doc. rewrite Ld.
  destruct ((length <? 5) || (length >? INT_MAX)) eqn:E0.
  { exists m, None. split; [done|]. split; [|done]. intros _. split; [done|]. lia. }
  apply orb_false_iff in E0 as [E0 E1]. unfold INT_MAX in *.
  destruct (rd_last data length) as (x & Ex & Hx); [lia|]. fold d in Hx.
  rewrite (run_lift m _ _ _ Ex).
  destruct (x =? 0) eqn:E2; cbn [negb]; bool_hyps.
  2: { exists m, None. split; [done|]. split; [|done]. intros _. split; [done|].
       rewrite Hx. intros [(_ & _ & ?) _]. simplify_eq. }
  subst x.
  assert (E4 : rd_le 4 data 0 = Ret (le_val (take 4 d))).
  { rewrite rd_le_ret by lia. do 2 f_equal. unfold d. rewrite take_take, Nat.min_l by lia. done. }
  rewrite (run_lift m _ _ _ E4). destruct (length =? le_val (take 4 d)) eqn:E5; cbn [negb]; bool_hyps.
  2: { exists m, None. split; [done|]. split; [|done]. intros _. split; [done|]. lia. }
  destruct (bson_sized_new_spec m b length) as (m1 & o1 & s1 & F1 & D1 & C1 & O1); [unfold INT32_MAX; lia|].
  step F1.
  destruct (proj1 (is_doc_bytes d Hb)) as (body & Ebody & _);
    [unfold is_doc; rewrite Ld, Hx; split; [lia|]; split; [lia | done]|].
  assert (Lb : zlen body + 5 = length) by (rewrite <- zlen_doc_bytes, <- Ebody; done).
  destruct (overwrite_doc m1 b o1 s1 body D1) as (m2 & o2 & s2 & F2 & D2 & O2); [lia|].
  assert (Er : rdn data 0 length = Ret (doc_bytes body)) by (rewrite rdn_ret by lia; by rewrite <- Ebody).
  pose proof (data_view _ _ _ _ (rep_view _ _ _ _ _ _ (fd_rep _ _ _ _ _ D1))) as Edata.
  step Edata. rewrite (run_lift m1 _ _ _ Er). rewrite (run_bind _ _ _ _ _ Edata) in F2.
  apply mbind_inv in F2 as (m3 & u & Est & Eset). step Est.
  rewrite u32_id, <- Lb by lia. step Eset.
  exists m2, (Some b). split; [done|]. split; [done|]. intros b' [= <-].
  split; [done|]. split; [lia|]. exists o2, body, s2. split; [done|]. split; [done|]. by eapply only_trans.
Qed.

Lemma get_data_spec m b o pre body slack :
  rep m b o pre body slack -> bson_get_data b m = Ret (m, doc_bytes body ++ slack).
Proof.
  intros R. unfold bson_get_data. step (data_view _ _ _ _ (rep_view _ _ _ _ _ _ R)).
  by apply load_rep with pre.
Qed.

Lemma copy_spec m b src o pre body slack :
  rep m src o pre body slack -> Forall is_byte body ->
  exists m' o' slack', bson_copy b src m = Ret (m', Some b) /\ fresh_doc m' b o' body slack' /\ only b m m'.
Proof.
  intros R Hb. pose proof (rep_bound _ _ _ _ _ _ R) as (Hbd & H5 & Hmax). unfold INT32_MAX in Hmax.
  pose proof (zlen_nonneg pre). pose proof (zlen_nonneg slack). pose proof (zlen_nonneg body).
  unfold bson_copy. step (data_view _ _ _ _ (rep_view _ _ _ _ _ _ R)). step (load_rep _ _ _ _ _ _ R).
  step (get_obj_view _ _ _ _ (rep_view _ _ _ _ _ _ R)). rewrite (rep_len _ _ _ _ _ _ R) in *.
  assert (Ht : take (Z.to_nat (zlen body + 5)) (doc_bytes body ++ slack) = doc_bytes body)
    by (rewrite <- zlen_doc_bytes; apply take_zlen).
  assert (Hd : Forall is_byte (doc_bytes body)).
  { unfold doc_bytes. apply Forall_app_2; [apply le_bytes_byte|]. apply Forall_app_2; [done|]. by repeat constructor. }
  destruct (new_from_data_spec m b (doc_bytes body ++ slack) (zlen body + 5)) as (m' & r & E & Hn & Hs);
    [rewrite zlen_app, zlen_doc_bytes; lia | by rewrite Ht |]. rewrite Ht in *.
  destruct r as [b'|].
  - destruct (Hs b' eq_refl) as (-> & _ & o' & body' & slack' & Eb & D & O).
    apply doc_bytes_inj in Eb as <-. eauto 8.
  - destruct (Hn eq_refl) as [_ []]. split; [|unfold INT_MAX; lia].
    apply is_doc_bytes; [done|]. exists body. split; [done|]. rewrite zlen_doc_bytes. lia.
Qed.

Lemma copy_to_spec m src dst o pre body slack :
  rep m src o pre body slack -> zlen body + 5 <= 2 ^ 30 ->
  exists m' o' slack', bson_copy_to src dst m = Ret (m', ()) /\ fresh_doc m' dst o' body slack' /\ only dst m m'.
Proof.
  intros R Hsz. pose proof R as [V Rl Ro Rd Rs Rr Rc]. unfold bson_copy_to. pose proof (zlen_nonneg body).
  step (get_obj_view _ _ _ _ V). pose proof V as [V1 V2]. unfold o_offset in Ro.
  destruct (b_impl o) as [d|a] eqn:Ei; destruct V2 as [Vf Vc]; rewrite Vf.
  - assert (pre = []) as -> by (apply length_zero_iff_nil; zl). subst d.
    eexists _, (mk_bson (set_flag BSON_FLAG_STATIC BSON_FLAG_INLINE) (b_len o) (Inline (image [] body slack))), slack.
    split; [reflexivity|]. split; [|by apply only_put_obj].
    constructor; try done. constructor; try done.
    + split; [apply lookup_insert_eq | done].
    + split; [done | apply zlen_nonneg].
  - step (data_view _ _ _ _ V). step (load_rep _ _ _ _ _ _ R). rewrite Rl.
    assert (Er : rdn (doc_bytes body ++ slack) 0 (zlen body + 5) = Ret (doc_bytes body))
      by (apply (rdn_mid []); [done | by rewrite zlen_doc_bytes]).
    rewrite (run_lift m _ _ _ Er).
    pose proof (next_power_of_two_bounds (zlen body + 5) ltac:(lia)).
    pose proof (next_power_of_two_le (zlen body + 5) ltac:(lia)).
    set (n := bson_next_power_of_two (zlen body + 5)) in *.
    pose proof (zlen_bson_malloc (n - (zlen body + 5)) ltac:(lia)) as Hm.
    assert (Ew : wrn (bson_malloc n) 0 (doc_bytes body)
                 = Ret (doc_bytes body ++ bson_malloc (n - (zlen body + 5)))) by (rewrite wrn_malloc, zlen_doc_bytes by (rewrite zlen_doc_bytes; lia); done).
    rewrite (run_lift m _ _ _ Ew).
    assert (Lim : zlen (image [] body (bson_malloc (n - (zlen body + 5)))) = n)
      by (unfold image; rewrite !zlen_app, Hm, zlen_doc_bytes, zlen_nil; lia).
    eexists _, (mk_bson BSON_FLAG_STATIC (zlen body + 5) (Alloc (mk_alloc None 0 dst 0 (Some bson_realloc_ctx)))),
      (bson_malloc (n - (zlen body + 5))). split; [reflexivity|].
    split; [|cbn [objs cells]; apply only_put_obj; intros; by rewrite lookup_insert_ne].
    constructor; try done; [|by eexists]. constructor; cbn [b_impl a_realloc]; try done.
    + split; [apply lookup_insert_eq|]. split; [done|]. cbn [cells a_buf]. rewrite lookup_insert_eq. by rewrite Lim.
    + unfold o_depth. cbn. rewrite Hm. lia.
    + rewrite Lim. unfold INT32_MAX. lia.
    + intros f Hf. simplify_eq. apply bson_realloc_ctx_ok.
Qed.

(** ** Comparison *)

(** Lexicographic order on byte strings, a prefix being smaller. *)
Fixpoint lex (s1 s2 : bytes) : Z :=
  match s1, s2 with
  | [], [] => 0
  | [], _ => -1
  | _, [] => 1
  | x :: s1, y :: s2 => if x <? y then -1 else if y <? x then 1 else lex s1 s2
  end.

Lemma lex_eq s1 s2 : lex s1 s2 = 0 <-> s1 = s2.
Proof.
  revert s2. induction s1 as [|x s1 IH]; intros [|y s2]; cbn [lex]; [done..|].
  destruct (x <? y) eqn:E1; bool_hyps; [split; [done | intros [= -> ->]; lia]|].
  destruct (y <? x) eqn:E2; bool_hyps; [split; [done | intros [= -> ->]; lia]|].
  rewrite IH. split; [intros ->; f_equal; lia | by intros [= _ ->]].
Qed.

Lemma lex_antisym s1 s2 : lex s2 s1 = - lex s1 s2.
Proof.
  revert s2. induction s1 as [|x s1 IH]; intros [|y s2]; cbn [lex]; [done..|].
  destruct (x <? y) eqn:E1, (y <? x) eqn:E2; bool_hyps; try lia. apply IH.
Qed.

Lemma lex_values s1 s2 : lex s1 s2 = -1 \/ lex s1 s2 = 0 \/ lex s1 s2 = 1.
Proof.
  revert s2. induction s1 as [|x s1 IH]; intros [|y s2]; cbn [lex]; auto.
  destruct (x <? y), (y <? x); auto.
Qed.

(** [memcmp] over the common length, then the lengths, is the lexicographic order. *)
Lemma memcmp_lex s1 s2 k1 k2 :
  exists c, memcmp (s1 ++ k1) (s2 ++ k2) (Nat.min (length s1) (length s2)) = Ret c /\
    lex s1 s2 = if c =? 0 then (if zlen s1 <? zlen s2 then -1 else if zlen s1 >? zlen s2 then 1 else 0) else c.
Proof.
  revert s2. induction s1 as [|x s1 IH]; intros [|y s2]; cbn [lex length Nat.min memcmp app].
  - by exists 0.
  - exists 0. split; [done|]. rewrite zlen_cons. change (zlen []) with 0. pose proof (zlen_nonneg s2).
    replace (0 <? 1 + zlen s2) with true by lia. done.
  - exists 0. split; [done|]. rewrite zlen_cons. change (zlen []) with 0. pose proof (zlen_nonneg s1).
    replace (1 + zlen s1 <? 0) with false by lia. by replace (1 + zlen s1 >? 0) with true by lia.
  - destruct (x <? y); [by exists (-1)|]. destruct (y <? x); [by exists 1|].
    destruct (IH s2) as (c & E & H). exists c. split; [done|]. rewrite H, !zlen_cons.
    replace (1 + zlen s1 <? 1 + zlen s2) with (zlen s1 <? zlen s2) by lia.
    by replace (1 + zlen s1 >? 1 + zlen s2) with (zlen s1 >? zlen s2) by lia.
Qed.

Lemma compare_spec m b1 o1 pre1 body1 slack1 b2 o2 pre2 body2 slack2 :
  rep m b1 o1 pre1 body1 slack1 -> rep m b2 o2 pre2 body2 slack2 ->
  bson_compare b1 b2 m = Ret (m, lex (body1 ++ [0]) (body2 ++ [0])).
Proof.
  intros R1 R2. unfold bson_compare.
  pose proof (rep_bound _ _ _ _ _ _ R1) as (B1 & _ & M1). pose proof (rep_bound _ _ _ _ _ _ R2) as (B2 & _ & M2).
  pose proof (zlen_nonneg pre1). pose proof (zlen_nonneg pre2). pose proof (zlen_nonneg slack1).
  pose proof (zlen_nonneg slack2). pose proof (zlen_nonneg body1). pose proof (zlen_nonneg body2).
  assert (L : forall m b o pre body slack, rep m b o pre body slack ->
    load (ptr_add (base_ptr b o) 4) m = Ret (m, (body ++ [0]) ++ slack)).
  { intros. eapply load_add_rep; [done| |apply (zlen_le_bytes 4 (zlen body + 5))].
    unfold doc_bytes. by rewrite <- !app_assoc. }
  step (data_view _ _ _ _ (rep_view _ _ _ _ _ _ R1)). step (L _ _ _ _ _ _ R1).
  step (get_obj_view _ _ _ _ (rep_view _ _ _ _ _ _ R1)).
  step (data_view _ _ _ _ (rep_view _ _ _ _ _ _ R2)). step (L _ _ _ _ _ _ R2).
  step (get_obj_view _ _ _ _ (rep_view _ _ _ _ _ _ R2)). unfold INT32_MAX in *.
  rewrite (rep_len _ _ _ _ _ _ R1), (rep_len _ _ _ _ _ _ R2) in *. rewrite !u32_id by lia.
  replace (zlen body1 + 5 - 4) with (zlen (body1 ++ [0])) by zl.
  replace (zlen body2 + 5 - 4) with (zlen (body2 ++ [0])) by zl.
  assert (D : zlen (body1 ++ [0]) = zlen body1 + 1 /\ zlen (body2 ++ [0]) = zlen body2 + 1) by (split; zl).
  set (s1 := body1 ++ [0]) in *. set (s2 := body2 ++ [0]) in *.
  destruct (memcmp_lex s1 s2 slack1 slack2) as (c & E & Hl). rewrite Hl.
  assert (En : Z.to_nat (Z.min (zlen s1) (zlen s2)) = Nat.min (length s1) (length s2)) by (unfold zlen; lia).
  destruct (zlen s1 =? zlen s2) eqn:El; bool_hyps.
  - replace (Z.to_nat (zlen s1)) with (Nat.min (length s1) (length s2)) by (rewrite <- En; lia).
    rewrite E. unfold lift. cbn [mbind outcome_bind]. rewrite El, Z.ltb_irrefl.
    replace (zlen s2 >? zlen s2) with false by lia. destruct (c =? 0) eqn:Ec; bool_hyps; by subst.
  - rewrite En, (run_lift m _ _ _ E). unfold mret, M_ret. do 2 f_equal. destruct (c =? 0) eqn:Ec; bool_hyps.
    + rewrite s64_u64, s64_id by lia.
      destruct (zlen s1 - zlen s2 <? 0) eqn:?, (zlen s1 <? zlen s2) eqn:?; bool_hyps; lia || done || idtac.
      by replace (zlen s1 - zlen s2 >? 0) with (zlen s1 >? zlen s2) by lia.
    + destruct (lex_values s1 s2) as [V|[V|V]]; rewrite Hl in V; [by rewrite V | by destruct Ec | by rewrite V].
Qed.

(** ** Moving *)

Lemma has_flag_or f g h : has_flag f (set_flag g h) = has_flag f g || has_flag f h.
Proof.
  unfold has_flag, set_flag. rewrite Z.land_lor_distr_r.
  destruct (Z.land f g =? 0) eqn:E1, (Z.land f h =? 0) eqn:E2; bool_hyps; cbn [negb orb];
    [rewrite E1, E2; done | ..]; apply negb_true_iff, Z.eqb_neq; rewrite Z.lor_eq_0_iff; lia.
Qed.

Lemma owner_flags f :
  has_flag f not_owner = false ->
  has_flag f BSON_FLAG_CHILD = false /\ has_flag f BSON_FLAG_IN_CHILD = false /\ has_flag f BSON_FLAG_RDONLY = false.
Proof. unfold not_owner. rewrite !has_flag_or. intros H. by bool_hyps. Qed.

Lemma steal_spec m dst src o body slack :
  rep m src o [] body slack -> has_flag (b_flags o) not_owner = false -> own_cell src o = src -> dst <> src ->
  exists m' o', bson_steal dst src m = Ret (m', true) /\ rep m' dst o' [] body slack /\
    writable o' /\ own_cell dst o' = dst /\ (growable o -> growable o') /\
    (if has_flag (b_flags o) BSON_FLAG_STATIC then objs m' !! src = Some (with_len o 0) else objs m' !! src = None).
Proof.
  intros R Hno Hown Hne. pose proof (owner_flags _ Hno) as (Hch & Hic & Hro).
  pose proof R as [V Rl Ro Rd Rs Rr Rc]. destruct V as [V1 V2]. unfold bson_steal.
  set (oi := mk_bson (set_flag BSON_FLAG_INLINE BSON_FLAG_STATIC) 5 (Inline (empty_doc ++ bson_malloc 115))).
  set (m1 := mk_mem (<[dst := oi]> (objs m)) (cells m)). step (eq_refl (Ret (m1, ()))).
  assert (G1 : get_obj src m1 = Ret (m1, o)) by (apply run_get_obj; cbn; by rewrite lookup_insert_ne).
  step G1. rewrite Hno. unfold o_offset, own_cell in *.
  destruct (b_impl o) as [d|a] eqn:Ei; destruct V2 as [Vf Vc]; rewrite Vf.
  - subst d. set (on := mk_bson (b_flags oi) (b_len o) (Inline (image [] body slack))).
    set (m2 := mk_mem (<[src := with_len o 0]> (<[dst := on]> (objs m))) (cells m)).
    assert (Rn : rep (mk_mem (<[dst := on]> (objs m)) (cells m)) dst on [] body slack).
    { constructor; try done; [by split; [apply lookup_insert_eq|]|]. split; [done | apply zlen_nonneg]. }
    assert (E2 : (d ← get_obj dst; put_obj dst (mk_bson (b_flags d) (b_len o) (Inline (image [] body slack)));;
                  set_len src 0) m1 = Ret (m2, ())).
    { step (run_get_obj dst oi m1 (lookup_insert_eq _ _ _)).
      unfold set_len, mbind, M_bind, put_obj, get_obj. cbn [objs cells m1].
      rewrite insert_insert_eq, lookup_insert_ne, V1 by done. unfold m2, with_len. by rewrite Ei. }
    step E2. destruct (has_flag (b_flags o) BSON_FLAG_STATIC) eqn:Es; cbn [negb].
    + assert (E3 : set_len src 0 m2 = Ret (m2, ())).
      { unfold set_len, mbind, M_bind, put_obj, get_obj. cbn [objs cells m2].
        rewrite lookup_insert_eq. unfold m2 at 1. cbn [objs cells]. by rewrite insert_insert_eq. }
      step E3. eexists _, on. split; [reflexivity|]. split; [|repeat (split; [done|]); apply lookup_insert_eq].
      refine (rep_frame _ _ _ _ _ _ _ _ _ Rn); [|done]. cbn [objs m2]. by rewrite lookup_insert_ne.
    + eexists _, on. split; [reflexivity|]. split; [|repeat (split; [done|]); apply lookup_delete_eq].
      refine (rep_frame _ _ _ _ _ _ _ _ _ Rn); cbn [objs cells m2].
      * by rewrite lookup_delete_ne, lookup_insert_ne.
      * unfold own_cell. cbn. by rewrite lookup_delete_ne.
  - set (on := mk_bson (set_flag (b_flags o) BSON_FLAG_STATIC) (b_len o)
                 (Alloc (mk_alloc (a_parent a) (a_depth a) dst (a_offset a) (a_realloc a)))).
    rewrite Hown in Vc. set (c := mk_cell _ _) in Vc.
    set (m2 := mk_mem (<[dst := on]> (objs m)) (<[dst := c]> (cells m))).
    assert (E2 : (c ← get_cell src; put_cell dst c;; put_obj dst on) m1 = Ret (m2, ())).
    { unfold get_cell, mbind, M_bind, put_obj, put_cell. cbn [objs cells m1]. rewrite Vc. unfold m1. cbn [objs cells]. by rewrite insert_insert_eq. }
    step E2. clear G1.
    assert (Rn : rep m2 dst on [] body slack).
    { constructor; unfold o_offset, o_depth in *; cbn [on b_impl a_offset a_depth a_realloc b_len b_flags]; rewrite ?Ei in *; try done.
      - split; [apply lookup_insert_eq|]. cbn. split; [by rewrite has_set_other | apply lookup_insert_eq].
      - intros _. by apply Rc. }
    assert (Wn : writable on) by (split; cbn; by rewrite has_set_other).
    assert (Gn : growable o -> growable on) by (unfold growable; by rewrite Ei).
    destruct (has_flag (b_flags o) BSON_FLAG_STATIC) eqn:Es; cbn [negb].
    + assert (E3 : set_len src 0 m2 = Ret (mk_mem (<[src := with_len o 0]> (objs m2)) (cells m2), ())).
      { unfold set_len, mbind, M_bind, put_obj, get_obj. cbn [objs cells m2]. by rewrite lookup_insert_ne, V1. }
      step E3. eexists _, on. split; [reflexivity|]. split; [|repeat (split; [done|]); apply lookup_insert_eq].
      refine (rep_frame _ _ _ _ _ _ _ _ _ Rn); [|done]. cbn [objs m2]. by rewrite lookup_insert_ne.
    + eexists _, on. split; [reflexivity|]. split; [|repeat (split; [done|]); apply lookup_delete_eq].
      refine (rep_frame _ _ _ _ _ _ _ _ _ Rn); cbn [objs cells m2].
      * by rewrite lookup_delete_ne.
      * unfold own_cell. cbn. by rewrite lookup_delete_ne.
Qed.
