(* ===== verification/Build.v ===== *)
(** * Building documents through the interface

    [build] is a client of the append functions: it writes a tree of values
    with one call per element, opening a child document for every nested
    document or array and a second document for the scope of a
    code-with-scope value.  The main theorem says that whatever is built this
    way is the encoding of the tree: the append functions implement the
    abstract format of [Format]. *)
From S2P Require Import Prelude Memory Format Strings Document Append Lifecycle.

(** The object at address [b] uses [b + 1] for its child or its scope. *)
Fixpoint build_value (b : Z) (k : bytes) (v : value) {struct v} : M bool :=
  let build := fix build (b : Z) (els : list (bytes * value)) : M bool :=
    match els with
    | [] => mret true
    | (k, v) :: els => ok ← build_value b k v; if (ok : bool) then build b els else mret false
    end in
  let n := zlen k in
  match v with
  | VDouble bits => bson_append_double b k n bits
  | VUtf8 s => bson_append_utf8 b k n (Some s) (zlen s)
  | VDocument els =>
    ok ← bson_append_document_begin b k n (b + 1);
    if negb ok then mret false
    else ok ← build (b + 1) els; if negb ok then mret false else bson_append_document_end b (b + 1)
  | VArray els =>
    ok ← bson_append_array_begin b k n (b + 1);
    if negb ok then mret false
    else ok ← build (b + 1) els; if negb ok then mret false else bson_append_array_end b (b + 1)
  | VBinary subtype data => bson_append_binary b k n subtype data (zlen data)
  | VUndefined => bson_append_undefined b k n
  | VOid oid => bson_append_oid b k n oid
  | VBool v => bson_append_bool b k n v
  | VDateTime msec => bson_append_date_time b k n msec
  | VNull => bson_append_null b k n
  | VRegex regex options => bson_append_regex b k n (Some (regex ++ [0])) (Some (options ++ [0]))
  | VDbPointer collection oid => bson_append_dbpointer b k n (collection ++ [0]) oid
  | VCode js => bson_append_code b k n (js ++ [0])
  | VSymbol s => bson_append_symbol b k n (Some s) (zlen s)
  | VCodeWScope js scope =>
    bson_init (b + 1);;
    ok ← build (b + 1) scope;
    if negb ok then mret false
    else bson_append_code_with_scope b k n (js ++ [0]) (Some (b + 1))
  | VInt32 z => bson_append_int32 b k n z
  | VTimestamp t i => bson_append_timestamp b k n t i
  | VInt64 z => bson_append_int64 b k n z
  | VDecimal128 low high => bson_append_decimal128 b k n (mk_dec128 low high)
  | VMaxKey => bson_append_maxkey b k n
  | VMinKey => bson_append_minkey b k n
  end.

Fixpoint build (b : Z) (els : list (bytes * value)) : M bool :=
  match els with
  | [] => mret true
  | (k, v) :: els => ok ← build_value b k v; if (ok : bool) then build b els else mret false
  end.

(** A value without regular expressions, whose append needs room beforehand
    ([bson_append_regex_spec]). *)
Fixpoint no_regex (v : value) : Prop :=
  match v with
  | VRegex _ _ => False
  | VDocument els | VArray els | VCodeWScope _ els =>
    (fix all (els : list (bytes * value)) : Prop :=
       match els with [] => True | (_, v) :: els => no_regex v /\ all els end) els
  | _ => True
  end.

(** ** The specification of a builder *)

(** What changes while building at [b]: the object itself, its buffer, and
    everything at higher addresses. *)
Definition frame_above (b : Z) (o : bson_t) (m m' : mem) : Prop :=
  (forall b', b' < b -> objs m' !! b' = objs m !! b') /\
  (forall l, l <= b -> l <> own_cell b o -> cells m' !! l = cells m !! l).

(** [yields c b data Q]: run on any document that can grow, [c] appends [data] and
    its result satisfies [Q]. *)
Definition yields {A} (c : M A) (b : Z) (data : bytes) (Q : A -> Prop) : Prop :=
  forall m o pre body slack,
  rep m b o pre body slack -> writable o -> growable o -> own_cell b o <= b ->
  zlen pre + zlen body + zlen data + 5 + o_depth o <= 2 ^ 30 ->
  exists m' o' slack' x, c m = Ret (m', x) /\ Q x /\ rep m' b o' pre (body ++ data) slack' /\
    evolves b o o' /\ frame_above b o m m'.

(** The builders answer [true]. *)
Definition builds (c : M bool) (b : Z) (data : bytes) : Prop := yields c b data (eq true).

Lemma frame_frame_above b o m m' : frame b o m m' -> frame_above b o m m'.
Proof. intros [F1 F2]. split; [intros; apply F1; lia | auto]. Qed.

Lemma frame_above_refl b o m : frame_above b o m m.
Proof. by split. Qed.

Lemma frame_above_trans b o o' m m' m'' :
  own_cell b o' = own_cell b o -> frame_above b o m m' -> frame_above b o' m' m'' -> frame_above b o m m''.
Proof.
  intros E [H1 H2] [H3 H4]. split; intros.
  - by rewrite H3, H1.
  - rewrite H4, H2 by congruence. done.
Qed.

(** A single append that promises [appends] is a builder. *)
Lemma builds_appends (c : M bool) b data :
  (forall m o pre body slack, rep m b o pre body slack -> writable o -> zlen data <= 2 ^ 30 ->
     appends c m b o pre body slack data) ->
  builds c b data.
Proof.
  intros H m o pre body slack R W G Ho Hsz.
  pose proof (zlen_nonneg pre). pose proof (zlen_nonneg body). pose proof (rep_depth _ _ _ _ _ _ R).
  destruct (H m o pre body slack R W ltac:(lia)) as (m' & ok & E & Hok & _ & Ht).
  assert (ok = true) as -> by (rewrite Hok; eapply can_append_small; eauto using zlen_nonneg; lia).
  destruct (Ht eq_refl) as (o' & slack' & R' & Ev & F).
  exists m', o', slack', true. eauto 6 using frame_frame_above.
Qed.

Lemma yields_ret {A} (x : A) b (Q : A -> Prop) : Q x -> yields (mret x) b [] Q.
Proof.
  intros Hx m o pre body slack R W G Ho Hsz. exists m, o, slack, x. rewrite app_nil_r.
  split; [done|]. split; [done|]. split; [done|]. split; [apply evolves_refl | apply frame_above_refl].
Qed.

Lemma yields_bind {A B} (c : M A) (f : A -> M B) b d1 d2 Q R :
  yields c b d1 Q -> (forall x, Q x -> yields (f x) b d2 R) -> yields (x ← c; f x) b (d1 ++ d2) R.
Proof.
  intros H1 H2 m o pre body slack R0 W G Ho Hsz. rewrite zlen_app in Hsz. pose proof (zlen_nonneg d2).
  destruct (H1 m o pre body slack R0 W G Ho ltac:(lia)) as (m1 & o1 & s1 & x & E1 & Hx & R1 & Ev1 & F1).
  pose proof (evolves_own _ _ _ Ev1). pose proof (depth_evolves _ _ _ Ev1).
  destruct (H2 x Hx m1 o1 pre (body ++ d1) s1 R1) as (m2 & o2 & s2 & y & E2 & Hy & R2 & Ev2 & F2);
    [by eapply writable_evolves | by eapply growable_evolves | lia | rewrite zlen_app; lia |].
  exists m2, o2, s2, y. rewrite (run_bind _ _ _ _ _ E1), app_assoc.
  split; [done|]. split; [done|]. split; [done|]. split; [by eapply evolves_trans | by eapply frame_above_trans].
Qed.

(** A computation that calls a builder and whose own result satisfies [R]. *)
Lemma yields_call {A} (call : M bool) (whole : M A) (R : A -> Prop) b data :
  builds call b data -> (forall m m', call m = Ret (m', true) -> exists y, whole m = Ret (m', y) /\ R y) ->
  yields whole b data R.
Proof.
  intros H Hw m o pre body slack R0 W G Ho Hsz.
  destruct (H m o pre body slack R0 W G Ho Hsz) as (m' & o' & s' & x & E & <- & R' & Ev & F).
  destruct (Hw _ _ E) as (y & Ey & Hy). by exists m', o', s', y.
Qed.

Lemma builds_nil b : builds (mret true) b [].
Proof. by apply yields_ret. Qed.

Lemma builds_seq c1 c2 b d1 d2 :
  builds c1 b d1 -> builds c2 b d2 ->
  builds (ok ← c1; if (ok : bool) then c2 else mret false) b (d1 ++ d2).
Proof. intros H1 H2. apply yields_bind with (eq true); [done|]. by intros ? <-. Qed.

Lemma clear_set f g : has_flag f g = false -> clear_flag (set_flag f g) g = f.
Proof.
  unfold has_flag, clear_flag, set_flag. intros H. bool_hyps.
  apply Z.bits_inj'. intros i Hi. rewrite Z.ldiff_spec, Z.lor_spec.
  apply (f_equal (fun z => Z.testbit z i)) in H. rewrite Z.land_spec, Z.bits_0 in H.
  by destruct (Z.testbit f i), (Z.testbit g i).
Qed.

Lemma opened_frame m m' p o pre body hdr :
  objs m' !! p = objs m !! p -> opened m p o pre body hdr -> opened m' p o pre body hdr.
Proof. intros E []. constructor; try done; congruence. Qed.

Lemma growable_child o oc : child_of o oc -> growable o -> growable oc.
Proof.
  intros [_ Hs]. unfold growable. destruct (b_impl o), (b_impl oc); try done.
  by destruct Hs as [_ ->].
Qed.

Lemma child_own b c o oc : child_of o oc -> own_cell c oc = own_cell b o.
Proof.
  intros [_ Hs]. unfold own_cell. destruct (b_impl o), (b_impl oc); try done.
  by destruct Hs as [-> _].
Qed.

Lemma child_evolves b o oc oc' : child_of o oc -> evolves b oc oc' -> child_of o oc'.
Proof.
  unfold child_of, evolves, o_depth. destruct (b_impl o), (b_impl oc); intros [? ?]; try done.
  by intros [-> _].
Qed.

Lemma key_ok_len k : zlen k < 2 ^ 31 -> key_ok k (zlen k) k.
Proof. split; [done|]. left. split; [done|]. exists []. by rewrite app_nil_r. Qed.

(** Writing a child between [begin] and [end] appends the child as one element.
    [whole] is a computation that does the three in turn. *)
Lemma yields_child {A B} ty key n k (c : M A) (whole : M B) (Q : A -> Prop) (R : B -> Prop) b data :
  ty = BSON_TYPE_DOCUMENT \/ ty = BSON_TYPE_ARRAY -> (zlen k < 2 ^ 31 -> key_ok key n k) -> yields c (b + 1) data Q ->
  (forall m m1 m2 m3 x, _bson_append_bson_begin b key n ty (b + 1) m = Ret (m1, true) -> c m1 = Ret (m2, x) -> Q x ->
     _bson_append_bson_end b (b + 1) m2 = Ret (m3, true) -> exists y, whole m = Ret (m3, y) /\ R y) ->
  yields whole b (elem_hdr ty k ++ doc_bytes data) R.
Proof.
  intros Hty Hk Hc Hw m o pre body slack R0 W G Ho Hsz.
  rewrite zlen_app, zlen_elem_hdr, zlen_doc_bytes in Hsz.
  pose proof (zlen_nonneg pre). pose proof (zlen_nonneg body). pose proof (zlen_nonneg k).
  pose proof (zlen_nonneg data). pose proof (rep_depth _ _ _ _ _ _ R0).
  destruct (begin_spec m b (b + 1) o pre body slack key n k ty R0 W) as (m1 & ok & E1 & _ & Ht & Hok);
    [apply Hk; lia | done | lia | lia |].
  rewrite (Hok G ltac:(lia)) in *.
  destruct (Ht eq_refl) as (o1 & oc & L & s1 & HL & Op & Wc & Ch & Rc & (o0 & Ev & Ei & Ef) & F1 & F2).
  pose proof (evolves_own _ _ _ Ev). pose proof (depth_evolves _ _ _ Ev).
  pose proof (writable_evolves _ _ _ Ev W) as [W0 _]. pose proof (growable_evolves _ _ _ Ev G) as G0.
  assert (own_cell b o1 = own_cell b o0) as Eo by (unfold own_cell; by rewrite Ei).
  assert (o_depth o1 = o_depth o0) as Ed by (unfold o_depth; by rewrite Ei).
  pose proof (child_own b (b + 1) _ _ Ch). pose proof Ch as [Hdc _].
  destruct (Hc m1 oc _ [] s1 Rc Wc) as (m2 & oc2 & s2 & x & E2 & Hx & R2 & Ev2 & G1 & G2).
  { eapply growable_child; [done|]. unfold growable. by rewrite Ei. }
  { lia. }
  { rewrite !zlen_app, zlen_elem_hdr, zlen_nil. lia. }
  pose proof (evolves_own _ _ _ Ev2).
  destruct (end_spec m2 b o1 (b + 1) oc2 pre L body (elem_hdr ty k) data s2) as (m3 & o3 & s3 & E3 & R3 & Ef3 & Ei3 & K1 & K2).
  { eapply opened_frame; [|exact Op]. apply G1. lia. }
  { done. } { lia. } { exact R2. } { by eapply child_evolves. }
  { by apply (writable_evolves _ _ _ Ev2 Wc). }
  destruct (Hw m m1 m2 m3 x E1 E2 Hx E3) as (y & Ey & Hy).
  exists m3, o3, s3, y. split; [done|]. split; [done|]. split; [done|]. split.
  - unfold evolves in *. rewrite Ef3, Ei3, Ef, Ei, clear_set by done. exact Ev.
  - split.
    + intros b' Hb. rewrite K1, G1, F1 by lia. done.
    + intros l Hl Hne. rewrite K2, G2, F2 by lia. done.
Qed.

Lemma builds_child ty k (c : M bool) b data :
  ty = BSON_TYPE_DOCUMENT \/ ty = BSON_TYPE_ARRAY -> builds c (b + 1) data ->
  builds (ok ← _bson_append_bson_begin b k (zlen k) ty (b + 1);
          if negb ok then mret false
          else ok ← c; if negb ok then mret false else _bson_append_bson_end b (b + 1))
    b (elem_hdr ty k ++ doc_bytes data).
Proof.
  intros Hty Hc. eapply yields_child; [done | apply key_ok_len | exact Hc |].
  intros m m1 m2 m3 x E1 E2 <- E3. exists true. rewrite (run_bind _ _ _ _ _ E1). cbn [negb].
  rewrite (run_bind _ _ _ _ _ E2). done.
Qed.

(** A second document, as for the scope of code with scope. *)
Lemma init_rep m b :
  exists m' o slack, bson_init b m = Ret (m', ()) /\ rep m' b o [] [] slack /\ writable o /\ growable o /\
    own_cell b o = b /\ o_depth o = 0 /\
    (forall b', b' <> b -> objs m' !! b' = objs m !! b') /\ cells m' = cells m.
Proof.
  eexists _, (mk_bson (set_flag BSON_FLAG_INLINE BSON_FLAG_STATIC) 5 (Inline ([5; 0; 0; 0; 0] ++ bson_malloc 115))),
    (bson_malloc 115).
  split; [reflexivity|]. split; [|split; [done|]; split; [done|]; split; [done|]; split; [done|]; split; [|done]].
  - constructor; try done. split; [apply lookup_insert_eq | done].
  - intros. cbn [objs]. by rewrite lookup_insert_ne.
Qed.

(** [bson_init] makes an object that is not on the heap. *)
Lemma init_static b m m' o : bson_init b m = Ret (m', ()) -> objs m' !! b = Some o -> has_flag (b_flags o) BSON_FLAG_STATIC = true.
Proof. unfold bson_init, put_obj. intros [= <-]. cbn [objs]. rewrite lookup_insert_eq. by intros [= <-]. Qed.

Lemma static_evolves b o o' :
  evolves b o o' -> has_flag (b_flags o) BSON_FLAG_STATIC = true -> has_flag (b_flags o') BSON_FLAG_STATIC = true.
Proof.
  intros Ev H. assert (b_flags o' = b_flags o \/ b_flags o' = clear_flag (b_flags o) BSON_FLAG_INLINE) as [->| ->]; [|done|].
  { unfold evolves in Ev. destruct (b_impl o); [destruct Ev as [(_ & _ & ?)|[_ ?]]; auto | destruct Ev; auto]. }
  revert H. unfold has_flag, clear_flag. rewrite !negb_true_iff, !Z.eqb_neq. intros H E. apply H.
  apply Z.bits_inj'. intros i Hi. apply (f_equal (fun z => Z.testbit z i)) in E. revert E.
  rewrite !Z.land_spec, Z.ldiff_spec, Z.bits_0. destruct (Z.eqb_spec i 1) as [->|Hne]; [cbn; by rewrite andb_true_r|].
  intros _. assert (Z.testbit BSON_FLAG_STATIC i = false) as -> by (change BSON_FLAG_STATIC with (2 ^ 1); apply Z.pow2_bits_false; lia).
  apply andb_false_r.
Qed.

(** The scope is written into a document of its own; [whole] may then free it. *)
Lemma yields_scope {A B} key n k js post (c : M A) (whole : M B) (Q : A -> Prop) (R : B -> Prop) b scope :
  (zlen k < 2 ^ 31 -> key_ok key n k) -> no_nul js -> yields c (b + 1) scope Q ->
  (forall m m1 m2 m3 x o s, bson_init (b + 1) m = Ret (m1, ()) -> c m1 = Ret (m2, x) -> Q x ->
     bson_append_code_with_scope b key n (js ++ 0 :: post) (Some (b + 1)) m2 = Ret (m3, true) ->
     rep m3 (b + 1) o [] scope s -> has_flag (b_flags o) BSON_FLAG_STATIC = true -> own_cell (b + 1) o = b + 1 ->
     exists m4 y, whole m = Ret (m4, y) /\ R y /\
       (forall b', b' <= b -> objs m4 !! b' = objs m3 !! b') /\ (forall l, l <= b -> cells m4 !! l = cells m3 !! l)) ->
  yields whole b (elem_hdr BSON_TYPE_CODEWSCOPE k ++
       le_bytes 4 (4 + zlen (string_bytes js) + zlen (doc_bytes scope)) ++ string_bytes js ++ doc_bytes scope) R.
Proof.
  intros Hk Hjs Hc Hw m o pre body slack R0 W G Ho Hsz. set (data := elem_hdr _ _ ++ _) in *.
  assert (Hd : zlen data = zlen k + zlen js + zlen scope + 16) by (unfold data; zl).
  pose proof (zlen_nonneg pre). pose proof (zlen_nonneg body). pose proof (zlen_nonneg k).
  pose proof (zlen_nonneg js). pose proof (zlen_nonneg scope). pose proof (rep_depth _ _ _ _ _ _ R0).
  destruct (init_rep m (b + 1)) as (m1 & oi & si & E1 & R1 & W1 & G1 & Eo1 & Ed1 & F1 & Fc1).
  destruct (Hc m1 oi [] [] si R1 W1 G1) as (m2 & oi2 & si2 & x & E2 & Hx & R2 & Ev2 & F2 & Fc2);
    [lia | rewrite (@zlen_nil Z); lia |].
  assert (Rb : rep m2 b o pre body slack).
  { apply rep_frame with m; [rewrite F2, F1 by lia; done | rewrite Fc2, Fc1 by lia; done | done]. }
  destruct (bson_append_code_with_scope_spec m2 b o pre body slack Rb W key n k
              (Hk ltac:(lia)) (b + 1) oi2 [] scope si2 R2 js post Hjs)
    as (m3 & ok & E3 & Hok & _ & Ht); [unfold INT32_MAX; lia |].
  fold data in Hok, Ht.
  assert (ok = true) as -> by (rewrite Hok; eapply can_append_small; eauto using zlen_nonneg; lia).
  destruct (Ht eq_refl) as (o3 & s3 & R3 & Ev3 & K1 & K2). pose proof (evolves_own _ _ _ Ev2). pose proof (evolves_own _ _ _ Ev3).
  destruct (Hw m m1 m2 m3 x oi2 si2) as (m4 & y & Ey & Hy & L1 & L2); try done; try lia.
  { apply rep_frame with m2; [apply K1; lia | apply K2; lia | done]. }
  { eapply static_evolves; [exact Ev2|]. eapply init_static; [exact E1|]. by destruct (rep_view _ _ _ _ _ _ R1). }
  exists m4, o3, s3, y. split; [done|]. split; [done|]. split.
  { apply rep_frame with m3; [apply L1; lia | apply L2; lia | done]. }
  split; [done|]. split.
  - intros b' Hb. rewrite L1, K1, F2, F1 by lia. done.
  - intros l Hl Hne. rewrite L2, K2, Fc2, Fc1 by lia. done.
Qed.

Lemma builds_scope k js (c : M bool) b scope :
  no_nul js -> builds c (b + 1) scope ->
  builds (bson_init (b + 1);; ok ← c;
          if negb ok then mret false
          else bson_append_code_with_scope b k (zlen k) (js ++ [0]) (Some (b + 1)))
    b (elem_hdr BSON_TYPE_CODEWSCOPE k ++
       le_bytes 4 (4 + zlen (string_bytes js) + zlen (doc_bytes scope)) ++ string_bytes js ++ doc_bytes scope).
Proof.
  intros Hjs Hc. eapply yields_scope; [apply key_ok_len | done | exact Hc |].
  intros m m1 m2 m3 x o s E1 E2 <- E3 _ _ _. exists m3, true.
  rewrite (run_bind _ _ _ _ _ E1), (run_bind _ _ _ _ _ E2). split; [exact E3|]. by repeat split.
Qed.

(** ** Every element *)

(** The functions that append one block. *)
Lemma append_leaf b k v m o pre body slack :
  match v with VDocument _ | VArray _ | VCodeWScope _ _ => False | _ => True end ->
  leaf_ok v -> no_regex v -> rep m b o pre body slack -> writable o -> zlen (encode_elem (k, v)) <= 2 ^ 30 ->
  appends (build_value b k v) m b o pre body slack (encode_elem (k, v)).
Proof.
  intros Hv Hok Hre R W Hsz.
  unfold encode_elem in *. cbn [fst snd] in *.
  rewrite zlen_app, zlen_elem_hdr in Hsz. pose proof (zlen_nonneg (encode_value v)). pose proof (zlen_nonneg k).
  assert (Hk : key_ok k (zlen k) k) by (apply key_ok_len; lia).
  destruct v; try done; cbn [build_value type_of leaf_ok] in *.
  - by apply bson_append_double_spec.
  - cbn [encode_value] in *. rewrite zlen_string_bytes in *. apply append_string_spec; [done | done | done | | unfold INT32_MAX; lia].
    apply key_ok_len. lia.
  - rewrite <- (app_nil_r data) at 1. apply bson_append_binary_spec; [done | done | done | by destruct Hok |].
    cbn [encode_value] in *. unfold binary_bytes, INT32_MAX in *.
    destruct (subtype =? _); autorewrite with zlen in *; lia.
  - by apply append_empty_spec.
  - by apply bson_append_oid_spec; [| | |destruct Hok].
  - by apply bson_append_bool_spec.
  - by apply bson_append_date_time_spec.
  - by apply append_empty_spec.
  - destruct Hok as (Hn & _ & Ho & _). cbn [encode_value] in *. rewrite zlen_app, zlen_string_bytes in *.
    apply bson_append_dbpointer_spec; try done. unfold INT32_MAX. lia.
  - destruct Hok as (Hn & _). cbn [encode_value] in *. rewrite zlen_string_bytes in *.
    apply bson_append_code_spec; try done. unfold INT32_MAX. lia.
  - cbn [encode_value] in *. rewrite zlen_string_bytes in *. apply append_string_spec; [done | done | done | | unfold INT32_MAX; lia].
    apply key_ok_len. lia.
  - by apply bson_append_int32_spec.
  - by apply bson_append_timestamp_spec; [| | |destruct Hok..].
  - by apply bson_append_int64_spec.
  - by apply bson_append_decimal128_spec.
  - by apply append_empty_spec.
  - by apply append_empty_spec.
Qed.

Lemma builds_leaf b k v :
  match v with VDocument _ | VArray _ | VCodeWScope _ _ => False | _ => True end ->
  leaf_ok v -> no_regex v -> builds (build_value b k v) b (encode_elem (k, v)).
Proof. intros. apply builds_appends. intros. by apply append_leaf. Qed.

Definition no_regexes (els : list (bytes * value)) : Prop := Forall (fun kv => no_regex kv.2) els.

Lemma no_regex_els els :
  (fix all (els : list (bytes * value)) : Prop :=
     match els with [] => True | (_, v) :: els => no_regex v /\ all els end) els -> no_regexes els.
Proof.
  induction els as [|[k v] els IH]; [intros _; apply Forall_nil_2|].
  intros [H1 H2]. apply Forall_cons_2; [done | by apply IH].
Qed.

Definition buildable (v : value) : Prop :=
  value_ok v -> no_regex v -> forall b k, builds (build_value b k v) b (encode_elem (k, v)).

Lemma builds_list els :
  Forall (fun kv => buildable kv.2) els -> elems_ok els -> no_regexes els ->
  forall b, builds (build b els) b (encode_body els).
Proof.
  induction 1 as [|[k v] els Hv _ IH]; intros Hok Hre b; [apply builds_nil|].
  inversion_clear Hok. inversion_clear Hre. rewrite encode_body_cons.
  apply builds_seq; [by apply Hv | by apply IH].
Qed.

(** The nested loop of [build_value] is [build]. *)
Lemma build_value_document b k els :
  build_value b k (VDocument els) =
  (ok ← bson_append_document_begin b k (zlen k) (b + 1);
   if negb ok then mret false
   else ok ← build (b + 1) els; if negb ok then mret false else bson_append_document_end b (b + 1)).
Proof. reflexivity. Qed.
Lemma build_value_array b k els :
  build_value b k (VArray els) =
  (ok ← bson_append_array_begin b k (zlen k) (b + 1);
   if negb ok then mret false
   else ok ← build (b + 1) els; if negb ok then mret false else bson_append_array_end b (b + 1)).
Proof. reflexivity. Qed.
Lemma build_value_scope b k js els :
  build_value b k (VCodeWScope js els) =
  (bson_init (b + 1);; ok ← build (b + 1) els;
   if negb ok then mret false
   else bson_append_code_with_scope b k (zlen k) (js ++ [0]) (Some (b + 1))).
Proof. reflexivity. Qed.

Lemma all_buildable v : buildable v.
Proof.
  revert v. apply (value_ind' buildable); [intros els IH | intros els IH | intros js els IH | intros v].
  - intros Hok Hre b k. inversion_clear Hok; [done|].
    rewrite build_value_document. unfold encode_elem. cbn [fst snd type_of]. rewrite encode_document.
    apply (builds_child BSON_TYPE_DOCUMENT); [by left|]. apply builds_list; auto using no_regex_els.
  - intros Hok Hre b k. inversion_clear Hok; [done|].
    rewrite build_value_array. unfold encode_elem. cbn [fst snd type_of]. rewrite encode_array.
    apply (builds_child BSON_TYPE_ARRAY); [by right|]. apply builds_list; auto using no_regex_els.
  - intros Hok Hre b k. inversion_clear Hok as [| | |? ? Hl He]; [done|]. destruct Hl as [Hn _].
    rewrite build_value_scope. unfold encode_elem. cbn [fst snd type_of]. rewrite encode_codewscope.
    apply builds_scope; [done|]. apply builds_list; auto using no_regex_els.
  - destruct v; try done; intros Hok Hre ad k; inversion Hok; by apply builds_leaf.
Qed.

Lemma builds_elems els b : elems_ok els -> no_regexes els -> builds (build b els) b (encode_body els).
Proof.
  intros. apply builds_list; [|done|done]. apply Forall_forall. intros. apply all_buildable.
Qed.

(** * Properties *)

(** C30: What the append functions build is the encoding of the abstract
    document.  Starting from [bson_init], writing any well-formed tree of
    values (nested documents, arrays and scopes included) without regular
    expressions, which [bson_append_regex] can write past the buffer, and whose
    encoding has at most 2^30 bytes, succeeds: no assertion fails, no byte is accessed outside
    its buffer, and the buffer holds exactly [encode_doc els]. *)
Theorem build_encodes els b m :
  elems_ok els -> no_regexes els -> zlen (encode_doc els) <= 2 ^ 30 ->
  exists m' slack, (bson_init b;; build b els) m = Ret (m', true) /\
    bson_get_data b m' = Ret (m', encode_doc els ++ slack).
Proof.
  intros Hok Hre Hsz. destruct (init_rep m b) as (m1 & o & s & E1 & R & W & G & Ho & Hd & _ & _).
  destruct (builds_elems els b Hok Hre m1 o [] [] s R W G) as (m2 & o2 & s2 & x & E2 & <- & R2 & _ & _); [lia | |].
  { unfold encode_doc in Hsz. rewrite zlen_doc_bytes in Hsz. change (zlen (@nil Z)) with 0. lia. }
  exists m2, s2. rewrite (run_bind _ _ _ _ _ E1). split; [done|].
  by rewrite (get_data_spec _ _ _ _ _ _ R2).
Qed.

(** A document with an integer, a string, a nested document and an array. *)
Definition sample : list (bytes * value) :=
  [([97], VInt32 (-2));
   ([98], VUtf8 [104; 105]);
   ([99], VDocument [([100], VBool true); ([101], VArray [([48], VDouble 0); ([49], VNull)])]);
   ([102], VCodeWScope [120] [([103], VInt64 7)])].

Ltac sample_ok :=
  repeat first
    [ apply elems_ok_nil | apply elems_ok_cons | apply value_ok_document | apply value_ok_array
    | apply value_ok_codewscope | apply value_ok_leaf; [exact I|]
    | apply Forall_nil_2 | apply Forall_cons_2 | split ];
  try (unfold is_byte, int32_range, int64_range, uint_range; cbn; lia); try done.

Lemma sample_elems_ok : elems_ok sample.
Proof. unfold sample. sample_ok. Qed.
Lemma sample_no_regexes : no_regexes sample.
Proof. repeat constructor. Qed.

Lemma build_encodes_witness :
  exists m' slack, (bson_init 1;; build 1 sample) (mk_mem ∅ ∅) = Ret (m', true) /\
    bson_get_data 1 m' = Ret (m', encode_doc sample ++ slack).
Proof. apply build_encodes; [apply sample_elems_ok | apply sample_no_regexes | vm_compute; discriminate]. Defined.
