(* ===== verification/Iter.v ===== *)
(** * The iterator (bson-iter.c, bson-iter.h)

    A [bson_iter_t] walks over the bytes of a document.  [i_raw] holds the
    bytes from the [raw] pointer to the end of the object it points into,
    which may be more than the [len] bytes of the document; [None] is NULL.
    Offsets are [uint32_t].  The [value] member, which only caches the result
    of [bson_iter_value], is the result of that function here. *)
From S2P Require Import Prelude Memory Strings Format Document Append Lifecycle.

(** ** Data *)

Record bson_iter_t := mk_iter {
  i_raw : option bytes;
  i_len : Z;
  i_off : Z;
  i_type : Z;
  i_key : Z;
  i_d1 : Z;
  i_d2 : Z;
  i_d3 : Z;
  i_d4 : Z;
  i_next_off : Z;
  i_err_off : Z;
}.

(** [memset (iter, 0, sizeof *iter)] *)
Definition iter_zero : bson_iter_t := mk_iter None 0 0 0 0 0 0 0 0 0 0.

(** The state that every [init] function and [bson_iter_recurse] set up. *)
Definition iter_start (raw : bytes) (len : Z) : bson_iter_t := mk_iter (Some raw) len 0 0 0 0 0 0 0 4 0.

(** The bytes behind the pointer [raw + off]. *)
Definition at_off (raw : bytes) (off : Z) : outcome bytes := rdn raw off (zlen raw - off).

(** Dereferencing [iter->raw]. *)
Definition raw_of (it : bson_iter_t) : outcome bytes :=
  match i_raw it with Some raw => Ret raw | None => Oob end.

Definition ITER_TYPE (it : bson_iter_t) : outcome Z := raw ← raw_of it; rd raw (i_type it).

Definition bson_iter_key_unsafe (it : bson_iter_t) : outcome bytes := raw ← raw_of it; at_off raw (i_key it).
Definition bson_iter_key (it : bson_iter_t) : outcome bytes := bson_iter_key_unsafe it.

Definition bson_iter_type (it : bson_iter_t) : outcome Z :=
  match i_raw it with
  | None => Abort
  | Some raw => BSON_ASSERTo (negb (i_len it =? 0)) ;; rd raw (i_type it)
  end.

(** ** Starting *)

Definition bson_iter_init (b : Z) : M (bool * bson_iter_t) :=
  o ← get_obj b;
  if b_len o <? 5 then mret (false, iter_zero)
  else raw ← bson_get_data b; mret (true, iter_start raw (b_len o)).

Definition bson_iter_init_from_data (data : bytes) (length : Z) : outcome (bool * bson_iter_t) :=
  if (length <? 5) || (length >? INT_MAX) then Ret (false, iter_zero)
  else
    len_le ← rd_le 4 data 0;
    if negb (len_le =? length) then Ret (false, iter_zero)
    else
      last ← rd data (length - 1);
      if negb (last =? 0) then Ret (false, iter_zero)
      else Ret (true, iter_start data (u32 length)).

(** ** Advancing *)

(** The loops [for (; o < len; o++) if (!data[o])]; [n] is [len - o]. *)
Fixpoint find_nul (n : nat) (data : bytes) (o : Z) : outcome (option Z) :=
  match n with
  | O => Ret None
  | S n => c ← rd data o; if c =? 0 then Ret (Some o) else find_nul n data (u32 (o + 1))
  end.

Definition mark_invalid (it : bson_iter_t) : bson_iter_t :=
  mk_iter None 0 (i_off it) (i_type it) (i_key it) (i_d1 it) (i_d2 it) (i_d3 it) (i_d4 it) 0 (i_err_off it).

Definition set_err (it : bson_iter_t) (e : Z) : bson_iter_t :=
  mk_iter (i_raw it) (i_len it) (i_off it) (i_type it) (i_key it) (i_d1 it) (i_d2 it) (i_d3 it) (i_d4 it)
    (i_next_off it) e.
Definition set_next (it : bson_iter_t) (n : Z) : bson_iter_t :=
  mk_iter (i_raw it) (i_len it) (i_off it) (i_type it) (i_key it) (i_d1 it) (i_d2 it) (i_d3 it) (i_d4 it)
    n (i_err_off it).
Definition set_d (it : bson_iter_t) (d1 d2 d3 d4 : Z) : bson_iter_t :=
  mk_iter (i_raw it) (i_len it) (i_off it) (i_type it) (i_key it) d1 d2 d3 d4 (i_next_off it) (i_err_off it).
Definition set_d1 (it : bson_iter_t) (d : Z) : bson_iter_t := set_d it d (i_d2 it) (i_d3 it) (i_d4 it).
Definition set_d2 (it : bson_iter_t) (d : Z) : bson_iter_t := set_d it (i_d1 it) d (i_d3 it) (i_d4 it).
Definition set_d3 (it : bson_iter_t) (d : Z) : bson_iter_t := set_d it (i_d1 it) (i_d2 it) d (i_d4 it).
Definition set_d4 (it : bson_iter_t) (d : Z) : bson_iter_t := set_d it (i_d1 it) (i_d2 it) (i_d3 it) d.

(** The cases of the [switch] in [_bson_iter_next_internal] that look at the
    value, from [o], the offset of the value.  [(false, it)] is
    [goto mark_invalid]. *)
Definition next_string (it : bson_iter_t) (data : bytes) (len o : Z) : outcome (bool * bson_iter_t) :=
  if u32 (o + 4) >=? len then Ret (false, set_err it o)
  else
    let it := set_d2 it (u32 (o + 4)) in
    l ← rd_le 4 data (i_d1 it);
    if l >? u32 (len - u32 (o + 4)) then Ret (false, set_err it o)
    else
      let it := set_next it (u32 (o + 4 + l)) in
      if (l =? 0) || (i_next_off it >=? len) then Ret (false, set_err it o)
      else
        c ← rd data (i_d2 it + (l - 1));
        if negb (c =? 0) then Ret (false, set_err it (u32 (o + 4 + l - 1)))
        else Ret (true, it).

(** The sum [binary_len + 4] of the [int32_t] is taken to wrap around; C leaves
    it undefined when the length in the data is above [INT32_MAX - 4]. *)
Definition next_binary (it : bson_iter_t) (data : bytes) (len o : Z) : outcome (bool * bson_iter_t) :=
  if o >=? u32 (len - 4) then Ret (false, set_err it o)
  else
    let it := set_d3 (set_d2 it (u32 (o + 4))) (u32 (o + 5)) in
    l ← rd_le 4 data (i_d1 it);
    if l >=? u32 (len - o) then Ret (false, set_err it o)
    else
      subtype ← rd data (i_d2 it);
      if subtype =? BSON_SUBTYPE_BINARY_DEPRECATED then
        if l <? 4 then Ret (false, set_err it o)
        else
          binary_len ← rd_le 4 data (i_d3 it);
          if negb (u32 (binary_len + 4) =? l) then Ret (false, set_err it (i_d3 it))
          else Ret (true, set_next it (u32 (o + 5 + l)))
      else Ret (true, set_next it (u32 (o + 5 + l))).

Definition next_document (it : bson_iter_t) (data : bytes) (len o : Z) : outcome (bool * bson_iter_t) :=
  if o >=? u32 (len - 4) then Ret (false, set_err it o)
  else
    l ← rd_le 4 data (i_d1 it);
    if (l >? len) || (l >? u32 (len - o)) then Ret (false, set_err it o)
    else Ret (true, set_next it (u32 (o + l))).

Definition next_bool (it : bson_iter_t) (data : bytes) (len o : Z) : outcome (bool * bson_iter_t) :=
  if i_d1 it >=? len then Ret (false, set_err it o)
  else
    val ← rd data (i_d1 it);
    if negb (val =? 0) && negb (val =? 1) then Ret (false, set_err it o)
    else Ret (true, set_next it (u32 (o + 1))).

Definition next_regex (it : bson_iter_t) (data : bytes) (len o : Z) : outcome (bool * bson_iter_t * Z) :=
  eor ← find_nul (Z.to_nat (len - o)) data o;
  match eor with
  | None => Ret (false, set_err it (i_next_off it), len)
  | Some o =>
    let o := u32 (o + 1) in
    let it := set_d2 it o in
    eoo ← find_nul (Z.to_nat (len - o)) data o;
    match eoo with
    | None => Ret (false, set_err it (i_next_off it), len)
    | Some o => Ret (true, set_next it (u32 (o + 1)), o)
    end
  end.

Definition next_dbpointer (it : bson_iter_t) (data : bytes) (len o : Z) : outcome (bool * bson_iter_t) :=
  if o >=? u32 (len - 4) then Ret (false, set_err it o)
  else
    let it := set_d2 it (u32 (o + 4)) in
    l ← rd_le 4 data (i_d1 it);
    if (l =? 0) || (l >? u32 (len - o - 4)) then Ret (false, set_err it o)
    else
      c ← rd data (o + l + 3);
      if negb (c =? 0) then Ret (false, set_err it (u32 (o + l + 3)))
      else Ret (true, set_next (set_d3 it (u32 (o + 4 + l))) (u32 (o + 4 + l + 12))).

Definition next_codewscope (it : bson_iter_t) (data : bytes) (len o : Z) : outcome (bool * bson_iter_t) :=
  if (len <? 19) || (o >=? u32 (len - 14)) then Ret (false, set_err it o)
  else
    let it := set_d3 (set_d2 it (u32 (o + 4))) (u32 (o + 8)) in
    l ← rd_le 4 data (i_d1 it);
    if (l <? 14) || (l >=? u32 (len - o)) then Ret (false, set_err it o)
    else
      let it := set_next it (u32 (o + l)) in
      if i_next_off it >=? len then Ret (false, set_err it o)
      else
        l ← rd_le 4 data (i_d2 it);
        if (l =? 0) || (l >=? u32 (len - o - 4 - 4)) then Ret (false, set_err it o)
        else if u32 (o + 4 + 4 + l + 4) >=? i_next_off it then Ret (false, set_err it (u32 (o + 4)))
        else
          let it := set_d4 it (u32 (o + 4 + 4 + l)) in
          doclen ← rd_le 4 data (i_d4 it);
          if negb (u32 (o + 4 + 4 + l + doclen) =? i_next_off it)
          then Ret (false, set_err it (u32 (o + 4 + 4 + l)))
          else Ret (true, it).

(** The [switch]; the other results are [*unsupported] and the value of [o]
    after it, which only the regular expression case changes. *)
Definition next_fields (it : bson_iter_t) (data : bytes) (len o bson_type : Z) :
    outcome (bool * bson_iter_t * bool * Z) :=
  let supported (r : outcome (bool * bson_iter_t)) := '(ok, it) ← r; Ret (ok, it, false, o) in
  let fixed (n : Z) := Ret (true, set_next it (u32 (o + n)), false, o) in
  let ty_is (t : Z) := bson_type =? t in
  if ty_is BSON_TYPE_DATE_TIME || ty_is BSON_TYPE_DOUBLE || ty_is BSON_TYPE_INT64 || ty_is BSON_TYPE_TIMESTAMP then fixed 8
  else if ty_is BSON_TYPE_CODE || ty_is BSON_TYPE_SYMBOL || ty_is BSON_TYPE_UTF8 then supported (next_string it data len o)
  else if ty_is BSON_TYPE_BINARY then supported (next_binary it data len o)
  else if ty_is BSON_TYPE_ARRAY || ty_is BSON_TYPE_DOCUMENT then supported (next_document it data len o)
  else if ty_is BSON_TYPE_OID then fixed 12
  else if ty_is BSON_TYPE_BOOL then supported (next_bool it data len o)
  else if ty_is BSON_TYPE_REGEX then 
    '(ok, it, o) ← next_regex it data len o; Ret (ok, it, false, o)
  else if ty_is BSON_TYPE_DBPOINTER then supported (next_dbpointer it data len o)
  else if ty_is BSON_TYPE_CODEWSCOPE then supported (next_codewscope it data len o)
  else if ty_is BSON_TYPE_INT32 then fixed 4
  else if ty_is BSON_TYPE_DECIMAL128 then fixed 16
  else if ty_is BSON_TYPE_MAXKEY || ty_is BSON_TYPE_MINKEY || ty_is BSON_TYPE_NULL || ty_is BSON_TYPE_UNDEFINED then
    Ret (true, set_next (set_d1 it (u32 (-1))) o, false, o)
  else if ty_is BSON_TYPE_EOD then Ret (false, set_err it o, false, o)
  else Ret (false, set_err it o, true, o).

(** The results of [_bson_iter_next_internal]: its return value, the iterator
    and the three output parameters ([n_key] is [None] when [*key] is NULL or
    has not been set). *)
Record next_t := mk_next {
  n_ok : bool;
  n_iter : bson_iter_t;
  n_key : option bytes;
  n_type : Z;
  n_unsupported : bool;
}.

Definition _bson_iter_next_internal (it : bson_iter_t) : outcome next_t :=
  match i_raw it with
  | None => Ret (mk_next false it None BSON_TYPE_EOD false)
  | Some data =>
    let len := i_len it in
    let off := i_next_off it in
    let it := mk_iter (i_raw it) len off off (u32 (off + 1)) 0 0 0 0 (i_next_off it) (i_err_off it) in
    let o := u32 (off + 1) in
    nul ← find_nul (Z.to_nat (len - o)) data o;
    match nul with
    | None => Ret (mk_next false (mark_invalid it) None BSON_TYPE_EOD false)
    | Some o =>
      let o := u32 (o + 1) in
      let it := set_d1 it o in
      key ← bson_iter_key_unsafe it;
      bson_type ← ITER_TYPE it;
      '(ok, it, unsupported, o) ← next_fields it data len o bson_type;
      if negb ok then Ret (mk_next false (mark_invalid it) (Some key) bson_type unsupported)
      else if i_next_off it >=? len
      then Ret (mk_next false (mark_invalid (set_err it o)) (Some key) bson_type unsupported)
      else Ret (mk_next true (set_err it 0) (Some key) bson_type unsupported)
    end
  end.

Definition bson_iter_next (it : bson_iter_t) : outcome (bool * bson_iter_t) :=
  r ← _bson_iter_next_internal it; Ret (n_ok r, n_iter r).

(** ** Accessors

    Output pointers are assumed to be given; a returned pointer is the bytes
    behind it, [None] when it is NULL. *)

Definition ITER_IS (it : bson_iter_t) (ty : Z) : outcome bool := t ← ITER_TYPE it; Ret (t =? ty).

Definition rd_at (n : Z) (it : bson_iter_t) (off : Z) : outcome Z := raw ← raw_of it; rd_le n raw off.
Definition ptr_at (it : bson_iter_t) (off : Z) : outcome bytes := raw ← raw_of it; at_off raw off.

Definition bson_iter_utf8_len_unsafe (it : bson_iter_t) : outcome Z :=
  val ← rd_at 4 it (i_d1 it); Ret (u32 (Z.max 0 (s32 (s32 val - 1)))).
Definition bson_iter_double_unsafe (it : bson_iter_t) : outcome Z := rd_at 8 it (i_d1 it).
Definition bson_iter_int32_unsafe (it : bson_iter_t) : outcome Z := v ← rd_at 4 it (i_d1 it); Ret (s32 v).
Definition bson_iter_int64_unsafe (it : bson_iter_t) : outcome Z := v ← rd_at 8 it (i_d1 it); Ret (s64 v).
Definition bson_iter_bool_unsafe (it : bson_iter_t) : outcome bool :=
  v ← rd_at 1 it (i_d1 it); Ret (negb (v =? 0)).
Definition bson_iter_decimal128_unsafe (it : bson_iter_t) : outcome bson_decimal128_t :=
  low ← rd_at 8 it (i_d1 it); high ← rd_at 8 it (i_d1 it + 8); Ret (mk_dec128 low high).
Definition bson_iter_oid_unsafe (it : bson_iter_t) : outcome bytes :=
  raw ← raw_of it; rdn raw (i_d1 it) 12.
(** [(time_t) (int64 / 1000UL)]: the division is unsigned. *)
Definition bson_iter_time_t_unsafe (it : bson_iter_t) : outcome Z :=
  v ← bson_iter_int64_unsafe it; Ret (s64 (u64 v / 1000)).
(** C division truncates towards zero. *)
Definition bson_iter_timeval_unsafe (it : bson_iter_t) : outcome (Z * Z) :=
  v ← bson_iter_int64_unsafe it; Ret (Z.quot v 1000, Z.rem v 1000 * 1000).

(** subtype, length, data *)
Definition bson_iter_binary (it : bson_iter_t) : outcome (Z * Z * option bytes) :=
  t ← ITER_IS it BSON_TYPE_BINARY;
  if (t : bool) then
    raw ← raw_of it;
    subtype ← rd raw (i_d2 it);
    binary_len ← rd_at 4 it (i_d1 it);
    if subtype =? BSON_SUBTYPE_BINARY_DEPRECATED
    then binary ← ptr_at it (i_d3 it + 4); Ret (subtype, u32 (binary_len - 4), Some binary)
    else binary ← ptr_at it (i_d3 it); Ret (subtype, binary_len, Some binary)
  else Ret (BSON_SUBTYPE_BINARY, 0, None).

Definition bson_iter_bool (it : bson_iter_t) : outcome bool :=
  t ← ITER_IS it BSON_TYPE_BOOL; if (t : bool) then bson_iter_bool_unsafe it else Ret false.

Definition bson_iter_double (it : bson_iter_t) : outcome Z :=
  t ← ITER_IS it BSON_TYPE_DOUBLE; if (t : bool) then bson_iter_double_unsafe it else Ret 0.

Definition bson_iter_int32 (it : bson_iter_t) : outcome Z :=
  t ← ITER_IS it BSON_TYPE_INT32; if (t : bool) then bson_iter_int32_unsafe it else Ret 0.

Definition bson_iter_int64 (it : bson_iter_t) : outcome Z :=
  t ← ITER_IS it BSON_TYPE_INT64; if (t : bool) then bson_iter_int64_unsafe it else Ret 0.

(** A double compares equal to zero when it is +0 or -0. *)
Definition double_is_zero (bits : Z) : bool := (bits =? 0) || (bits =? 2 ^ 63).

Definition bson_iter_as_bool (it : bson_iter_t) : outcome bool :=
  t ← ITER_TYPE it;
  if t =? BSON_TYPE_BOOL then bson_iter_bool it
  else if t =? BSON_TYPE_DOUBLE then d ← bson_iter_double it; Ret (negb (double_is_zero d))
  else if t =? BSON_TYPE_INT64 then n ← bson_iter_int64 it; Ret (negb (n =? 0))
  else if t =? BSON_TYPE_INT32 then n ← bson_iter_int32 it; Ret (negb (n =? 0))
  else if t =? BSON_TYPE_UTF8 then Ret true
  else if (t =? BSON_TYPE_NULL) || (t =? BSON_TYPE_UNDEFINED) then Ret false
  else Ret true.

(** [(int64_t) d]: the exponent and mantissa of the IEEE 754 double with the
    given bits, truncated; undefined when the result does not fit. *)
Definition double_to_int64 (bits : Z) : outcome Z :=
  let neg := Z.testbit bits 63 in
  let e := Z.land (Z.shiftr bits 52) 0x7FF in
  let f := Z.land bits (2 ^ 52 - 1) in
  if e =? 0x7FF then Oob
  else
    let m := if e =? 0 then f else 2 ^ 52 + f in
    let e := (if e =? 0 then 1 else e) - 1075 in
    let v := Z.shiftl m e in
    let v := if neg then - v else v in
    if (- 2 ^ 63 <=? v) && (v <? 2 ^ 63) then Ret v else Oob.

Definition bson_iter_as_int64 (it : bson_iter_t) : outcome Z :=
  t ← ITER_TYPE it;
  if t =? BSON_TYPE_BOOL then v ← bson_iter_bool it; Ret (if (v : bool) then 1 else 0)
  else if t =? BSON_TYPE_DOUBLE then d ← bson_iter_double it; double_to_int64 d
  else if t =? BSON_TYPE_INT64 then bson_iter_int64 it
  else if t =? BSON_TYPE_INT32 then bson_iter_int32 it
  else Ret 0.

(** [(double) n] for an [int64_t]: the nearest double, ties to even. *)
Definition int64_to_double (n : Z) : Z :=
  let a := Z.abs n in
  let sign := if n <? 0 then 2 ^ 63 else 0 in
  if a =? 0 then 0
  else
    let k := Z.log2 a in
    let shift := k - 52 in
    if shift <=? 0 then sign + Z.shiftl (k + 1023) 52 + (Z.shiftl a (- shift) - 2 ^ 52)
    else
      let q := Z.shiftr a shift in
      let r := a - Z.shiftl q shift in
      let half := Z.shiftl 1 (shift - 1) in
      let q := if (half <? r) || ((half =? r) && Z.odd q) then q + 1 else q in
      sign + Z.shiftl (k + 1023) 52 + (q - 2 ^ 52).

Definition bson_iter_as_double (it : bson_iter_t) : outcome Z :=
  t ← ITER_TYPE it;
  if t =? BSON_TYPE_BOOL then v ← bson_iter_bool it; Ret (int64_to_double (if (v : bool) then 1 else 0))
  else if t =? BSON_TYPE_DOUBLE then bson_iter_double it
  else if t =? BSON_TYPE_INT32 then v ← bson_iter_int32 it; Ret (int64_to_double v)
  else if t =? BSON_TYPE_INT64 then v ← bson_iter_int64 it; Ret (int64_to_double v)
  else Ret 0.

Definition bson_iter_decimal128 (it : bson_iter_t) : outcome (option bson_decimal128_t) :=
  t ← ITER_IS it BSON_TYPE_DECIMAL128;
  if (t : bool) then d ← bson_iter_decimal128_unsafe it; Ret (Some d) else Ret None.

Definition bson_iter_oid (it : bson_iter_t) : outcome (option bytes) :=
  t ← ITER_IS it BSON_TYPE_OID; if (t : bool) then o ← bson_iter_oid_unsafe it; Ret (Some o) else Ret None.

(** regex and options *)
Definition bson_iter_regex (it : bson_iter_t) : outcome (option bytes * option bytes) :=
  t ← ITER_IS it BSON_TYPE_REGEX;
  if (t : bool) then
    ret ← ptr_at it (i_d1 it); ret_options ← ptr_at it (i_d2 it); Ret (Some ret, Some ret_options)
  else Ret (None, None).

(** [bson_iter_utf8], [bson_iter_code] and [bson_iter_symbol] *)
Definition iter_string (ty : Z) (it : bson_iter_t) : outcome (option bytes * Z) :=
  t ← ITER_IS it ty;
  if (t : bool) then
    length ← bson_iter_utf8_len_unsafe it; str ← ptr_at it (i_d2 it); Ret (Some str, length)
  else Ret (None, 0).

Definition bson_iter_utf8 (it : bson_iter_t) : outcome (option bytes * Z) := iter_string BSON_TYPE_UTF8 it.
Definition bson_iter_code (it : bson_iter_t) : outcome (option bytes * Z) := iter_string BSON_TYPE_CODE it.
Definition bson_iter_symbol (it : bson_iter_t) : outcome (option bytes * Z) := iter_string BSON_TYPE_SYMBOL it.

Definition bson_iter_dup_utf8 (it : bson_iter_t) : outcome (option bytes * Z) :=
  '(str, local_length) ← bson_iter_utf8 it;
  match str with
  | None => Ret (None, local_length)
  | Some str =>
    s ← rdn str 0 local_length;
    ret ← wrn (replicate (Z.to_nat (u32 (local_length + 1))) 0) 0 s;
    ret ← wrn ret local_length [0];
    Ret (Some ret, local_length)
  end.

(** code, its length, scope, its length *)
Definition bson_iter_codewscope (it : bson_iter_t) : outcome (option bytes * Z * option bytes * Z) :=
  t ← ITER_IS it BSON_TYPE_CODEWSCOPE;
  if (t : bool) then
    len ← rd_at 4 it (i_d2 it);
    BSON_ASSERTo (len >? 0);;
    scope_len ← rd_at 4 it (i_d4 it);
    scope ← ptr_at it (i_d4 it);
    code ← ptr_at it (i_d3 it);
    Ret (Some code, len - 1, Some scope, scope_len)
  else Ret (None, 0, None, 0).

(** collection, its length, oid *)
Definition bson_iter_dbpointer (it : bson_iter_t) : outcome (option bytes * Z * option bytes) :=
  t ← ITER_IS it BSON_TYPE_DBPOINTER;
  if (t : bool) then
    collection_len ← rd_at 4 it (i_d1 it);
    let collection_len := if collection_len >? 0 then collection_len - 1 else collection_len in
    collection ← ptr_at it (i_d2 it);
    raw ← raw_of it;
    oid ← rdn raw (i_d3 it) 12;
    Ret (Some collection, collection_len, Some oid)
  else Ret (None, 0, None).

Definition bson_iter_date_time (it : bson_iter_t) : outcome Z :=
  t ← ITER_IS it BSON_TYPE_DATE_TIME; if (t : bool) then bson_iter_int64_unsafe it else Ret 0.

Definition bson_iter_time_t (it : bson_iter_t) : outcome Z :=
  t ← ITER_IS it BSON_TYPE_DATE_TIME; if (t : bool) then bson_iter_time_t_unsafe it else Ret 0.

(** timestamp, increment *)
Definition bson_iter_timestamp (it : bson_iter_t) : outcome (Z * Z) :=
  t ← ITER_IS it BSON_TYPE_TIMESTAMP;
  if (t : bool) then
    encoded ← rd_at 8 it (i_d1 it);
    Ret (Z.land (Z.shiftr encoded 32) 0xFFFFFFFF, Z.land encoded 0xFFFFFFFF)
  else Ret (0, 0).

Definition bson_iter_timeval (it : bson_iter_t) : outcome (Z * Z) :=
  t ← ITER_IS it BSON_TYPE_DATE_TIME; if (t : bool) then bson_iter_timeval_unsafe it else Ret (0, 0).

(** length, data *)
Definition iter_doc (ty : Z) (it : bson_iter_t) : outcome (Z * option bytes) :=
  t ← ITER_IS it ty;
  if (t : bool) then
    len ← rd_at 4 it (i_d1 it); d ← ptr_at it (i_d1 it); Ret (len, Some d)
  else Ret (0, None).

Definition bson_iter_document (it : bson_iter_t) : outcome (Z * option bytes) := iter_doc BSON_TYPE_DOCUMENT it.
Definition bson_iter_array (it : bson_iter_t) : outcome (Z * option bytes) := iter_doc BSON_TYPE_ARRAY it.

Definition bson_iter_recurse (it : bson_iter_t) : outcome (option bson_iter_t) :=
  t ← ITER_TYPE it;
  if t =? BSON_TYPE_DOCUMENT then
    '(len, data) ← bson_iter_document it;
    Ret (Some (mk_iter data len 0 0 0 0 0 0 0 4 0))
  else if t =? BSON_TYPE_ARRAY then
    '(len, data) ← bson_iter_array it;
    Ret (Some (mk_iter data len 0 0 0 0 0 0 0 4 0))
  else Ret None.

(** ** Overwriting in place: the changed bytes of the document *)

Definition overwrite (ty : Z) (it : bson_iter_t) (bs : bytes) : outcome bson_iter_t :=
  t ← ITER_IS it ty;
  if (t : bool) then
    raw ← raw_of it;
    raw' ← wrn raw (i_d1 it) bs;
    Ret (mk_iter (Some raw') (i_len it) (i_off it) (i_type it) (i_key it) (i_d1 it) (i_d2 it) (i_d3 it)
           (i_d4 it) (i_next_off it) (i_err_off it))
  else Ret it.

Definition bson_iter_overwrite_bool (it : bson_iter_t) (value : bool) : outcome bson_iter_t :=
  overwrite BSON_TYPE_BOOL it [if value then 1 else 0].
Definition bson_iter_overwrite_int32 (it : bson_iter_t) (value : Z) : outcome bson_iter_t :=
  overwrite BSON_TYPE_INT32 it (le_bytes 4 (u32 value)).
Definition bson_iter_overwrite_int64 (it : bson_iter_t) (value : Z) : outcome bson_iter_t :=
  overwrite BSON_TYPE_INT64 it (le_bytes 8 (u64 value)).
Definition bson_iter_overwrite_double (it : bson_iter_t) (value : Z) : outcome bson_iter_t :=
  overwrite BSON_TYPE_DOUBLE it (le_bytes 8 value).
Definition bson_iter_overwrite_decimal128 (it : bson_iter_t) (value : bson_decimal128_t) : outcome bson_iter_t :=
  overwrite BSON_TYPE_DECIMAL128 it (le_bytes 8 (d_low value) ++ le_bytes 8 (d_high value)).
