(* ===== verification/IterSafe.v ===== *)
(** * Memory safety and progress of the iterator

    [iter_wf]: the state of an iterator over a buffer that holds at least the
    declared number of bytes.  [next_wf] shows that
    [_bson_iter_next_internal] stays inside the buffer (but for one over-read
    of at most four bytes, [binary_overread]), that it always advances, and
    that after a successful call the offsets it leaves behind describe an
    element that lies inside the document ([elem_at]).  The accessors are then
    safe. *)
From S2P Require Import Prelude Memory Strings Format Document Append Lifecycle Iter.

(** ** Well-formed iterators *)

Record iter_wf (it : bson_iter_t) (data : bytes) : Prop := mk_iter_wf {
  wf_raw : i_raw it = Some data;
  wf_len : 0 <= i_len it <= zlen data;
  wf_max : i_len it <= INT_MAX;
  wf_next : 4 <= i_next_off it <= INT_MAX;
  wf_bytes : Forall is_byte (take (Z.to_nat (i_len it)) data);
}.

(** Sizes of the values of fixed size. *)
Definition fixed_size (ty : Z) : option Z :=
  if (ty =? BSON_TYPE_DATE_TIME) || (ty =? BSON_TYPE_DOUBLE) || (ty =? BSON_TYPE_INT64) || (ty =? BSON_TYPE_TIMESTAMP)
  then Some 8
  else if ty =? BSON_TYPE_OID then Some 12
  else if ty =? BSON_TYPE_INT32 then Some 4
  else if ty =? BSON_TYPE_DECIMAL128 then Some 16
  else None.

Definition is_string (ty : Z) : Prop := ty = BSON_TYPE_CODE \/ ty = BSON_TYPE_SYMBOL \/ ty = BSON_TYPE_UTF8.
Definition is_container (ty : Z) : Prop := ty = BSON_TYPE_ARRAY \/ ty = BSON_TYPE_DOCUMENT.
Definition is_empty (ty : Z) : Prop :=
  ty = BSON_TYPE_MAXKEY \/ ty = BSON_TYPE_MINKEY \/ ty = BSON_TYPE_NULL \/ ty = BSON_TYPE_UNDEFINED.

(** [elem_at data o d1 d2 d3 d4 next ty]: the offsets of a well-formed value
    of type [ty] whose bytes start at [o]. *)
Inductive elem_at (data : bytes) (o : Z) : Z -> Z -> Z -> Z -> Z -> Z -> Prop :=
| at_fixed ty n d2 d3 d4 :
    fixed_size ty = Some n -> elem_at data o o d2 d3 d4 (o + n) ty
| at_string ty l d3 d4 :
    is_string ty -> rd_le 4 data o = Ret l -> 1 <= l -> rd data (o + 4 + l - 1) = Ret 0 ->
    elem_at data o o (o + 4) d3 d4 (o + 4 + l) ty
| at_binary l st d4 :
    rd_le 4 data o = Ret l -> 0 <= l -> rd data (o + 4) = Ret st ->
    (st = BSON_SUBTYPE_BINARY_DEPRECATED -> 4 <= l /\ exists n, rd_le 4 data (o + 5) = Ret n /\ u32 (n + 4) = l) ->
    elem_at data o o (o + 4) (o + 5) d4 (o + 5 + l) BSON_TYPE_BINARY
| at_container ty l d2 d3 d4 :
    is_container ty -> rd_le 4 data o = Ret l -> 0 <= l -> elem_at data o o d2 d3 d4 (o + l) ty
| at_bool v d2 d3 d4 :
    rd data o = Ret v -> v = 0 \/ v = 1 -> elem_at data o o d2 d3 d4 (o + 1) BSON_TYPE_BOOL
| at_regex p q d3 d4 :
    o <= p < q -> rd data p = Ret 0 -> rd data q = Ret 0 ->
    elem_at data o o (p + 1) d3 d4 (q + 1) BSON_TYPE_REGEX
| at_dbpointer l d4 :
    rd_le 4 data o = Ret l -> 1 <= l -> rd data (o + 4 + l - 1) = Ret 0 ->
    elem_at data o o (o + 4) (o + 4 + l) d4 (o + 4 + l + 12) BSON_TYPE_DBPOINTER
| at_codewscope l ls ld :
    rd_le 4 data o = Ret l -> rd_le 4 data (o + 4) = Ret ls -> 1 <= ls ->
    rd_le 4 data (o + 8 + ls) = Ret ld -> 4 < ld -> l = 8 + ls + ld ->
    elem_at data o o (o + 4) (o + 8) (o + 8 + ls) (o + l) BSON_TYPE_CODEWSCOPE
| at_empty ty d1 d2 d3 d4 :
    is_empty ty -> elem_at data o d1 d2 d3 d4 o ty.

(** ** Searching for a NUL *)

Lemma find_nul_spec n : forall data o len,
  Z.of_nat n = Z.max 0 (len - o) -> 0 <= o -> len <= zlen data -> len < 2 ^ 32 ->
  (find_nul n data o = Ret None /\ (forall i, o <= i < len -> rd data i <> Ret 0)) \/
  (exists p, find_nul n data o = Ret (Some p) /\ o <= p < len /\ rd data p = Ret 0 /\
     (forall i, o <= i < p -> rd data i <> Ret 0)).
Proof.
  induction n as [|n IH]; intros data o len Hn Ho Hl Hm; cbn [find_nul].
  { left. split; [done|]. intros i Hi. lia. }
  destruct (rd_ret data o) as [c Hc]; [lia|]. rewrite Hc. cbn [mbind outcome_bind].
  destruct (c =? 0) eqn:E; bool_hyps.
  - subst. right. exists o. split; [done|]. split; [lia|]. split; [done|]. intros. lia.
  - rewrite u32_id by lia.
    assert (Hne : forall i, i = o -> rd data i <> Ret 0) by (intros i ->; rewrite Hc; congruence).
    destruct (IH data (o + 1) len) as [[-> H]|(p & -> & Hp & H0 & H)]; try lia.
    + left. split; [done|]. intros i Hi. destruct (Z.eq_dec i o); [auto | apply H; lia].
    + right. exists p. split; [done|]. split; [lia|]. split; [done|].
      intros i Hi. destruct (Z.eq_dec i o); [auto | apply H; lia].
Qed.

Lemma find_nul_from data o len :
  0 <= o -> len <= zlen data -> len < 2 ^ 32 ->
  (find_nul (Z.to_nat (len - o)) data o = Ret None /\ (forall i, o <= i < len -> rd data i <> Ret 0)) \/
  (exists p, find_nul (Z.to_nat (len - o)) data o = Ret (Some p) /\ o <= p < len /\ rd data p = Ret 0 /\
     (forall i, o <= i < p -> rd data i <> Ret 0)).
Proof. intros. apply find_nul_spec; lia. Qed.

(** A little-endian word inside the document. *)
Lemma rd_le_word data len i :
  0 <= i -> i + 4 <= len -> len <= zlen data -> Forall is_byte (take (Z.to_nat len) data) ->
  exists l, rd_le 4 data i = Ret l /\ 0 <= l < 2 ^ 32.
Proof.
  intros Hi Hl Hz Hb. rewrite rd_le_ret by lia. eexists. split; [done|].
  set (w := take (Z.to_nat 4) (drop (Z.to_nat i) data)).
  assert (Hw : Forall is_byte w).
  { assert (w = take (Z.to_nat 4) (drop (Z.to_nat i) (take (Z.to_nat len) data))) as ->.
    { symmetry. apply take_take_drop_le. lia. }
    by apply Forall_take, Forall_drop. }
  pose proof (le_val_range w Hw) as Hr.
  assert (zlen w = 4) as Ew by (unfold w; rewrite zlen_take, zlen_drop; lia).
  rewrite Ew in Hr. change (256 ^ 4) with (2 ^ 32) in Hr. lia.
Qed.

(** ** The cases of the switch *)

(** The parts of the iterator that the switch leaves alone. *)
Definition keeps (it it' : bson_iter_t) : Prop :=
  i_raw it' = i_raw it /\ i_len it' = i_len it /\ i_off it' = i_off it /\ i_type it' = i_type it /\
  i_key it' = i_key it.

Definition describes (data : bytes) (o : Z) (it : bson_iter_t) (ty : Z) : Prop :=
  elem_at data o (i_d1 it) (i_d2 it) (i_d3 it) (i_d4 it) (i_next_off it) ty.

(** One case of the switch: it returns, and if the offset it sets passes the
    final check then the value is well formed. *)
Definition case_ok (data : bytes) (len o : Z) (it : bson_iter_t) (ty : Z) (r : outcome (bool * bson_iter_t)) : Prop :=
  exists ok it', r = Ret (ok, it') /\
    (ok = true -> i_next_off it' < len -> keeps it it' /\ describes data o it' ty).

(** Four bytes that [_bson_iter_next_internal] may read behind the document. *)
Definition binary_overread (data : bytes) (len o : Z) : Prop :=
  o + 4 < len /\ rd data (o + 4) = Ret BSON_SUBTYPE_BINARY_DEPRECATED /\ zlen data < o + 9.

Section Cases.
Context (data : bytes) (len o : Z) (it : bson_iter_t).
Context (Ho : 6 <= o <= len) (Hlen : len <= zlen data) (Hmax : len <= INT_MAX).
Context (Hb : Forall is_byte (take (Z.to_nat len) data)) (Hd1 : i_d1 it = o).

Lemma case_err ty e : case_ok data len o it ty (Ret (false, set_err it e)).
Proof. by exists false, (set_err it e). Qed.

Ltac word off l E Hl := destruct (rd_le_word data len off) as (l & E & Hl); [lia | lia | done | done |].
Ltac fail_case := eexists false, _; split; [reflexivity | done].

Lemma next_string_ok ty : is_string ty -> case_ok data len o it ty (next_string it data len o).
Proof using Ho Hlen Hmax Hb Hd1.
  intros Hty. unfold next_string, INT_MAX in *. rewrite (u32_id (o + 4)) by lia.
  destruct (o + 4 >=? len) eqn:E0; [apply case_err|]. cbn zeta.
  change (i_d1 (set_d2 it (o + 4))) with (i_d1 it). rewrite Hd1.
  word o l E Hl. rewrite E. cbn [mbind outcome_bind]. rewrite (u32_id (len - _)) by lia.
  destruct (l >? len - (o + 4)) eqn:E1; [fail_case|]. rewrite (u32_id (o + 4 + l)) by lia.
  cbn [i_next_off set_next i_d2 set_d2 set_d].
  destruct ((l =? 0) || (o + 4 + l >=? len)) eqn:E2; [fail_case|]. bool_hyps.
  destruct (rd_ret data (o + 4 + (l - 1))) as [c Hc]; [lia|]. rewrite Hc. cbn [mbind outcome_bind].
  destruct (c =? 0) eqn:E3; cbn [negb]; [|fail_case]. bool_hyps. subst c.
  eexists true, _. split; [reflexivity|]. intros _ _. split; [done|].
  unfold describes. cbn. rewrite Hd1. apply at_string; [done | done | lia | by rewrite <- Hc; f_equal; lia].
Qed.

Lemma next_binary_ok :
  case_ok data len o it BSON_TYPE_BINARY (next_binary it data len o) \/
  (next_binary it data len o = Oob /\ binary_overread data len o).
Proof using Ho Hlen Hmax Hb Hd1.
  unfold next_binary, INT_MAX in *. rewrite (u32_id (len - 4)) by lia.
  destruct (o >=? len - 4) eqn:E0; [left; apply case_err|].
  rewrite (u32_id (o + 4)), (u32_id (o + 5)) by lia. cbn zeta.
  change (i_d1 (set_d3 _ _)) with (i_d1 it). rewrite Hd1.
  word o l E Hl. rewrite E. cbn [mbind outcome_bind]. rewrite (u32_id (len - o)) by lia.
  destruct (l >=? len - o) eqn:E1; [left; fail_case|].
  change (i_d2 (set_d3 _ _)) with (o + 4). change (i_d3 (set_d3 _ _)) with (o + 5).
  destruct (rd_ret data (o + 4)) as [st Hst]; [lia|]. rewrite Hst. cbn [mbind outcome_bind].
  rewrite (u32_id (o + 5 + l)) by lia.
  destruct (st =? BSON_SUBTYPE_BINARY_DEPRECATED) eqn:E2; bool_hyps.
  - destruct (l <? 4) eqn:E3; [left; fail_case|]. bool_hyps. subst st.
    destruct (Z.lt_ge_cases (zlen data) (o + 9)).
    { right. split; [by rewrite rd_le_oob by lia|]. split; [lia | done]. }
    left.
    rewrite (rd_le_ret 4 data (o + 5)) by lia. cbn [mbind outcome_bind]. set (n := le_val _).
    destruct (u32 (n + 4) =? l) eqn:E4; cbn [negb]; [|fail_case]. bool_hyps.
    eexists true, _. split; [reflexivity|]. intros _ _. split; [done|]. unfold describes. cbn. rewrite Hd1.
    apply at_binary with BSON_SUBTYPE_BINARY_DEPRECATED; [done | lia | done |]. intros _. split; [lia|].
    exists n. split; [|done]. by rewrite rd_le_ret by lia.
  - left. eexists true, _. split; [reflexivity|]. intros _ _. split; [done|]. unfold describes. cbn. rewrite Hd1.
    apply at_binary with st; [done | lia | done | done].
Qed.

Lemma next_document_ok ty : is_container ty -> case_ok data len o it ty (next_document it data len o).
Proof using Ho Hlen Hmax Hb Hd1.
  intros Hty. unfold next_document, INT_MAX in *. rewrite (u32_id (len - 4)) by lia.
  destruct (o >=? len - 4) eqn:E0; [apply case_err|]. rewrite Hd1.
  word o l E Hl. rewrite E. cbn [mbind outcome_bind]. rewrite (u32_id (len - o)) by lia.
  destruct ((l >? len) || (l >? len - o)) eqn:E1; [fail_case|]. bool_hyps. rewrite u32_id by lia.
  eexists true, _. split; [reflexivity|]. intros _ _. split; [done|]. unfold describes. cbn. rewrite Hd1.
  by apply at_container; [done | done | lia].
Qed.

Lemma next_bool_ok : case_ok data len o it BSON_TYPE_BOOL (next_bool it data len o).
Proof using Ho Hlen Hmax Hd1.
  unfold next_bool, INT_MAX in *. rewrite Hd1. destruct (o >=? len) eqn:E0; [apply case_err|].
  destruct (rd_ret data o) as [v Hv]; [lia|]. rewrite Hv. cbn [mbind outcome_bind].
  destruct (negb (v =? 0) && negb (v =? 1)) eqn:E; [fail_case|]. rewrite u32_id by lia.
  eexists true, _. split; [reflexivity|]. intros _ _. split; [done|]. unfold describes. cbn. rewrite Hd1.
  apply at_bool with v; [done|]. destruct (v =? 0) eqn:?, (v =? 1) eqn:?; bool_hyps; try done; lia.
Qed.

Lemma next_dbpointer_ok : case_ok data len o it BSON_TYPE_DBPOINTER (next_dbpointer it data len o).
Proof using Ho Hlen Hmax Hb Hd1.
  unfold next_dbpointer, INT_MAX in *. rewrite (u32_id (len - 4)) by lia.
  destruct (o >=? len - 4) eqn:E0; [apply case_err|]. rewrite (u32_id (o + 4)) by lia. cbn zeta.
  change (i_d1 (set_d2 it (o + 4))) with (i_d1 it). rewrite Hd1.
  word o l E Hl. rewrite E. cbn [mbind outcome_bind]. rewrite (u32_id (len - o - 4)) by lia.
  destruct ((l =? 0) || (l >? len - o - 4)) eqn:E1; [fail_case|]. bool_hyps.
  destruct (rd_ret data (o + l + 3)) as [c Hc]; [lia|]. rewrite Hc. cbn [mbind outcome_bind].
  destruct (c =? 0) eqn:E3; cbn [negb]; [|fail_case]. bool_hyps. subst c.
  rewrite !u32_id by lia. eexists true, _. split; [reflexivity|]. intros _ _. split; [done|].
  unfold describes. cbn. rewrite Hd1. apply at_dbpointer; [done | lia | by rewrite <- Hc; f_equal; lia].
Qed.

Lemma next_codewscope_ok : case_ok data len o it BSON_TYPE_CODEWSCOPE (next_codewscope it data len o).
Proof using Ho Hlen Hmax Hb Hd1.
  unfold next_codewscope, INT_MAX in *.
  destruct (len <? 19) eqn:E00; [apply case_err|]. cbn [orb]. bool_hyps. rewrite (u32_id (len - 14)) by lia.
  destruct (o >=? len - 14) eqn:E0; [apply case_err|].
  rewrite (u32_id (o + 4)), (u32_id (o + 8)) by lia. cbn zeta.
  change (i_d1 (set_d3 _ _)) with (i_d1 it). rewrite Hd1.
  word o l E Hl. rewrite E. cbn [mbind outcome_bind]. rewrite (u32_id (len - o)) by lia.
  destruct ((l <? 14) || (l >=? len - o)) eqn:E1; [fail_case|]. bool_hyps. rewrite (u32_id (o + l)) by lia.
  change (i_next_off (set_next _ ?n)) with n. change (i_d2 (set_next _ _)) with (o + 4).
  destruct (o + l >=? len) eqn:E2; [fail_case|].
  word (o + 4) ls Es Hls. rewrite Es. cbn [mbind outcome_bind]. rewrite (u32_id (len - o - 4 - 4)) by lia.
  destruct ((ls =? 0) || (ls >=? len - o - 4 - 4)) eqn:E3; [fail_case|]. bool_hyps.
  rewrite (u32_id (o + 4 + 4 + ls + 4)), (u32_id (o + 4 + 4 + ls)) by lia.
  destruct (o + 4 + 4 + ls + 4 >=? o + l) eqn:E4; [fail_case|].
  change (i_d4 (set_d4 _ ?n)) with n. change (i_next_off (set_d4 _ _)) with (o + l).
  word (o + 4 + 4 + ls) ld Ed Hld. rewrite Ed. cbn [mbind outcome_bind].
  destruct (u32 (o + 4 + 4 + ls + ld) =? o + l) eqn:E5; cbn [negb]; [|fail_case]. bool_hyps.
  assert (l = 8 + ls + ld /\ 4 < ld) as [El Hd4]
    by (unfold u32 in E5; Z.to_euclidean_division_equations; lia).
  eexists true, _. split; [reflexivity|]. intros _ _. split; [done|]. unfold describes. cbn. rewrite Hd1.
  replace (o + 4 + 4 + ls) with (o + 8 + ls) in * by lia.
  by apply at_codewscope with ld; [done | done | lia | done | lia | lia].
Qed.

Lemma next_regex_ok :
  exists ok it' o', next_regex it data len o = Ret (ok, it', o') /\
    (ok = true -> i_next_off it' < len -> keeps it it' /\ describes data o it' BSON_TYPE_REGEX).
Proof using Ho Hlen Hmax Hd1.
  unfold next_regex, INT_MAX in *.
  destruct (find_nul_from data o len) as [[-> _]|(p & -> & Hp & H0 & _)]; [lia.. | |]; cbn [mbind outcome_bind].
  { by eexists false, _, _. }
  rewrite (u32_id (p + 1)) by lia. cbn zeta.
  destruct (find_nul_from data (p + 1) len) as [[-> _]|(q & -> & Hq & H1 & _)]; [lia.. | |]; cbn [mbind outcome_bind].
  { by eexists false, _, _. }
  rewrite u32_id by lia. eexists true, _, q. split; [reflexivity|]. intros _ _. split; [done|].
  unfold describes. cbn. rewrite Hd1. apply at_regex; [lia | done | done].
Qed.

(** The whole switch. *)
Lemma next_fields_ok ty :
  (exists ok it' u o', next_fields it data len o ty = Ret (ok, it', u, o') /\
     (ok = true -> i_next_off it' < len -> u = false /\ keeps it it' /\ describes data o it' ty)) \/
  (ty = BSON_TYPE_BINARY /\ next_fields it data len o ty = Oob /\ binary_overread data len o).
Proof using Ho Hlen Hmax Hb Hd1.
  assert (Hsup : forall r, case_ok data len o it ty r ->
    exists ok it' u o', ('(ok, it) ← r; Ret (ok, it, false, o)) = Ret (ok, it', u, o') /\
      (ok = true -> i_next_off it' < len -> u = false /\ keeps it it' /\ describes data o it' ty)).
  { intros r (ok & it' & -> & H). eexists _, _, _, _. split; [reflexivity|]. auto. }
  assert (Hfix : forall n, fixed_size ty = Some n -> 0 <= n <= 16 ->
    exists ok it' u o', Ret (true, set_next it (u32 (o + n)), false, o) = Ret (ok, it', u, o') /\
      (ok = true -> i_next_off it' < len -> u = false /\ keeps it it' /\ describes data o it' ty)).
  { intros n Hn Hr. unfold INT_MAX in *. rewrite u32_id by lia. eexists _, _, _, _. split; [reflexivity|].
    intros _ _. split; [done|]. split; [done|]. unfold describes. cbn. rewrite Hd1. by apply at_fixed. }
  unfold next_fields. cbn zeta beta.
  destruct (_ || _ || _ || _) eqn:E1.
  { left. apply Hfix; [|lia]. unfold fixed_size. by rewrite E1. }
  destruct (_ || _ || (ty =? BSON_TYPE_UTF8)) eqn:E2.
  { left. apply Hsup, next_string_ok. unfold is_string. lia. }
  destruct (ty =? BSON_TYPE_BINARY) eqn:E3; bool_hyps.
  { subst ty. destruct next_binary_ok as [Hc|[Ho' Hc]]; [left; by apply Hsup | right]. by rewrite Ho'. }
  left. destruct ((ty =? BSON_TYPE_ARRAY) || _) eqn:E4.
  { apply Hsup, next_document_ok. unfold is_container. lia. }
  destruct (ty =? BSON_TYPE_OID) eqn:E5; bool_hyps; [subst ty; by apply Hfix|].
  destruct (ty =? BSON_TYPE_BOOL) eqn:E6; bool_hyps; [subst ty; apply Hsup, next_bool_ok|].
  destruct (ty =? BSON_TYPE_REGEX) eqn:E7; bool_hyps.
  { subst ty. destruct next_regex_ok as (ok & it' & o' & -> & Hre). eexists _, _, _, _. split; [reflexivity|]. auto. }
  destruct (ty =? BSON_TYPE_DBPOINTER) eqn:E8; bool_hyps; [subst ty; apply Hsup, next_dbpointer_ok|].
  destruct (ty =? BSON_TYPE_CODEWSCOPE) eqn:E9; bool_hyps; [subst ty; apply Hsup, next_codewscope_ok|].
  destruct (ty =? BSON_TYPE_INT32) eqn:E10; bool_hyps; [subst ty; by apply Hfix|].
  destruct (ty =? BSON_TYPE_DECIMAL128) eqn:E11; bool_hyps; [subst ty; by apply Hfix|].
  destruct (_ || _ || _ || (ty =? BSON_TYPE_UNDEFINED)) eqn:E12.
  { eexists true, _, _, _. split; [reflexivity|]. intros _ _. split; [done|]. split; [done|].
    unfold describes. cbn. apply at_empty. rewrite !orb_true_iff, !Z.eqb_eq in E12. unfold is_empty. tauto. }
  destruct (ty =? BSON_TYPE_EOD); by eexists false, _, _, _.
Qed.
End Cases.

(** ** One step *)

Lemma elem_at_ge data o d1 d2 d3 d4 next ty : elem_at data o d1 d2 d3 d4 next ty -> o <= next.
Proof.
  intros H. destruct H as [ty n ? ? ? Hf| | | | | | | | ]; try lia.
  unfold fixed_size in Hf. repeat case_match; simplify_eq; lia.
Qed.

(** What a successful step leaves behind: [o] is the offset after the key. *)
Record stepped (it : bson_iter_t) (data : bytes) (o : Z) (r : next_t) : Prop := mk_stepped {
  st_wf : iter_wf (n_iter r) data;
  st_len : i_len (n_iter r) = i_len it;
  st_off : i_off (n_iter r) = i_next_off it;
  st_type : i_type (n_iter r) = i_next_off it;
  st_key : i_key (n_iter r) = i_next_off it + 1;
  st_err : i_err_off (n_iter r) = 0;
  st_o : i_next_off it + 2 <= o;
  st_nul : rd data (o - 1) = Ret 0;
  st_no_nul : forall i, i_next_off it + 1 <= i < o - 1 -> rd data i <> Ret 0;
  st_ty : rd data (i_next_off it) = Ret (n_type r);
  st_n_key : n_key r = Some (drop (Z.to_nat (i_next_off it + 1)) data);
  st_elem : describes data o (n_iter r) (n_type r);
  st_next : o <= i_next_off (n_iter r) < i_len it;
}.

(** The element under the iterator is a binary value of subtype 2 whose inner
    length lies behind the end of the buffer. *)
Definition overread_at (it : bson_iter_t) (data : bytes) : Prop :=
  exists o, i_next_off it + 2 <= o <= i_len it /\ rd data (i_next_off it) = Ret BSON_TYPE_BINARY /\
    binary_overread data (i_len it) o.

Definition exhausted (it : bson_iter_t) : Prop := i_raw it = None /\ i_len it = 0 /\ i_next_off it = 0.

Lemma next_wf it data :
  iter_wf it data ->
  (exists r, _bson_iter_next_internal it = Ret r /\
     (n_ok r = true -> exists o, stepped it data o r) /\ (n_ok r = false -> exhausted (n_iter r))) \/
  (_bson_iter_next_internal it = Oob /\ overread_at it data).
Proof.
  intros W. pose proof W as [Wr Wl Wm Wn Wb]. unfold INT_MAX in *.
  unfold _bson_iter_next_internal. rewrite Wr. cbn zeta. set (off := i_next_off it) in *.
  rewrite (u32_id (off + 1)) by lia.
  destruct (find_nul_from data (off + 1) (i_len it)) as [[-> _]|(p & -> & Hp & H0 & Hno)]; [lia.. | |];
    cbn [mbind outcome_bind].
  { left. eexists. split; [reflexivity|]. by split. }
  rewrite (u32_id (p + 1)) by lia. set (it1 := set_d1 _ _).
  assert (Ek : bson_iter_key_unsafe it1 = Ret (drop (Z.to_nat (off + 1)) data)).
  { unfold bson_iter_key_unsafe, raw_of, at_off. cbn. rewrite rdn_ret by lia. f_equal. apply take_ge. zl. }
  rewrite Ek. cbn [mbind outcome_bind].
  destruct (rd_ret data off) as [ty Hty]; [lia|].
  assert (Et : ITER_TYPE it1 = Ret ty) by (unfold ITER_TYPE, raw_of; cbn; done).
  rewrite Et. cbn [mbind outcome_bind].
  destruct (next_fields_ok data (i_len it) (p + 1) it1 ltac:(lia) ltac:(lia) Wm Wb eq_refl ty)
    as [(ok & it2 & u & o' & -> & H)|(-> & -> & Hov)]; cbn [mbind outcome_bind].
  2: { right. split; [done|]. exists (p + 1). split; [lia|]. done. }
  left. destruct ok; cbn [negb].
  2: { eexists. split; [reflexivity|]. by split. }
  destruct (i_next_off it2 >=? i_len it) eqn:Eb.
  { eexists. split; [reflexivity|]. by split. }
  destruct (H eq_refl ltac:(lia)) as (-> & (K1 & K2 & K3 & K4 & K5) & D).
  pose proof (elem_at_ge _ _ _ _ _ _ _ _ D). cbn in K1, K2, K3, K4, K5.
  eexists. split; [reflexivity|]. split; [|done]. intros _. exists (p + 1).
  constructor; cbn [n_iter n_type n_key i_raw i_len i_off i_type i_key i_err_off i_next_off set_err]; try done; try lia.
  - constructor; cbn [i_raw i_len i_next_off set_err]; rewrite ?K2; unfold INT_MAX; solve [lia | congruence | exact Wb].
  - by replace (p + 1 - 1) with p by lia.
  - intros i Hi. apply Hno. lia.
Qed.

(** ** The accessors after a successful step *)

(** Inversion of [elem_at] at a given type. *)
Ltac elem_inv D :=
  inversion D; clear D; subst;
  repeat match goal with
  | H : is_string _ |- _ => destruct H as [H|[H|H]]; try discriminate H
  | H : is_container _ |- _ => destruct H as [H|H]; try discriminate H
  | H : is_empty _ |- _ => destruct H as [H|[H|[H|H]]]; try discriminate H
  | H : fixed_size _ = Some _ |- _ => vm_compute in H; (discriminate H || (injection H as H; subst))
  end.

(** The iterator stands on an element of type [ty] of a document of [len] bytes. *)
Record on_elem (it : bson_iter_t) (data : bytes) (o len ty : Z) : Prop := mk_on_elem {
  oe_raw : i_raw it = Some data;
  oe_ty : rd data (i_type it) = Ret ty;
  oe_elem : describes data o it ty;
  oe_o : 0 <= o <= i_next_off it;
  oe_next : i_next_off it < len;
  oe_len : len <= zlen data;
  oe_max : len <= INT_MAX;
}.

Lemma stepped_on_elem it data o r :
  iter_wf it data -> stepped it data o r -> on_elem (n_iter r) data o (i_len it) (n_type r).
Proof.
  intros W S. pose proof (wf_next _ _ W). pose proof (st_o _ _ _ _ S). pose proof (st_next _ _ _ _ S).
  constructor; try lia.
  - apply (wf_raw _ _ (st_wf _ _ _ _ S)).
  - rewrite (st_type _ _ _ _ S). apply (st_ty _ _ _ _ S).
  - apply (st_elem _ _ _ _ S).
  - apply (wf_len _ _ W).
  - apply (wf_max _ _ W).
Qed.

Lemma bind_returns {A B} (c : outcome A) (f : A -> outcome B) :
  returns c -> (forall a, c = Ret a -> returns (f a)) -> returns (mbind f c).
Proof. intros [a ->] H. by apply H. Qed.

Lemma ret_returns {A} (a : A) : returns (Ret a).
Proof. by exists a. Qed.
#[local] Hint Resolve ret_returns : core.

Section Accessors.
Context {it : bson_iter_t} {data : bytes} {o len ty : Z}.

Lemma iter_is_ret t : on_elem it data o len ty -> ITER_IS it t = Ret (ty =? t).
Proof.
  intros E. unfold ITER_IS, ITER_TYPE, raw_of. rewrite (oe_raw _ _ _ _ _ E). cbn [mbind outcome_bind].
  by rewrite (oe_ty _ _ _ _ _ E).
Qed.

Lemma iter_type_ret : on_elem it data o len ty -> ITER_TYPE it = Ret ty.
Proof. intros E. unfold ITER_TYPE, raw_of. rewrite (oe_raw _ _ _ _ _ E). apply (oe_ty _ _ _ _ _ E). Qed.

Lemma rd_at_eq n off : on_elem it data o len ty -> rd_at n it off = rd_le n data off.
Proof. intros E. unfold rd_at, raw_of. by rewrite (oe_raw _ _ _ _ _ E). Qed.

Lemma rd_at_returns n off :
  on_elem it data o len ty -> 0 <= off -> 0 <= n -> off + n <= len -> returns (rd_at n it off).
Proof.
  intros E ???. pose proof (oe_len _ _ _ _ _ E). rewrite (rd_at_eq _ _ E), rd_le_ret by lia. auto.
Qed.

Lemma ptr_at_ret off :
  on_elem it data o len ty -> 0 <= off <= len -> ptr_at it off = Ret (drop (Z.to_nat off) data).
Proof.
  intros E Ho. pose proof (oe_len _ _ _ _ _ E). unfold ptr_at, raw_of, at_off. rewrite (oe_raw _ _ _ _ _ E).
  cbn [mbind outcome_bind]. rewrite rdn_ret by lia. f_equal. apply take_ge. zl.
Qed.

Lemma ptr_at_returns off : on_elem it data o len ty -> 0 <= off <= len -> returns (ptr_at it off).
Proof. intros. rewrite ptr_at_ret by done. auto. Qed.

Lemma rdn_returns off n :
  on_elem it data o len ty -> 0 <= off -> 0 <= n -> off + n <= len -> returns (raw ← raw_of it; rdn raw off n).
Proof.
  intros E ???. pose proof (oe_len _ _ _ _ _ E). unfold raw_of. rewrite (oe_raw _ _ _ _ _ E). cbn.
  rewrite rdn_ret by lia. auto.
Qed.

(** An accessor that checks its type first. *)
Lemma accessor_returns {A} t (c : outcome A) (d : A) :
  on_elem it data o len ty -> (ty = t -> returns c) ->
  returns (b ← ITER_IS it t; if (b : bool) then c else Ret d).
Proof.
  intros E H. rewrite (iter_is_ret _ E). cbn [mbind outcome_bind].
  destruct (ty =? t) eqn:Et; bool_hyps; auto.
Qed.

Lemma fixed_bound n :
  on_elem it data o len ty -> fixed_size ty = Some n -> i_d1 it = o /\ o + n < len.
Proof.
  intros [_ _ D _ Hn _ _] Hf. unfold describes in D. revert Hn.
  destruct D as [? m ? ? ? Hm| ? ? ? ? Hs| | ? ? ? ? ? Hs| | | | |? ? ? ? ? Hs]; intros Hn;
    try discriminate Hf;
    try (exfalso; revert Hf; repeat destruct Hs as [Hs|Hs]; rewrite Hs; vm_compute; discriminate).
  rewrite Hf in Hm. injection Hm as <-. split; [done | lia].
Qed.

Lemma bind_fixed {A} t n (f : Z -> outcome A) :
  on_elem it data o len ty -> fixed_size t = Some n -> 0 <= n -> (forall v, returns (f v)) -> ty = t ->
  returns (v ← rd_at n it (i_d1 it); f v).
Proof.
  intros E Hf H0 H <-. destruct (fixed_bound n E Hf) as [Ed ?]. pose proof (oe_o _ _ _ _ _ E).
  apply bind_returns; [|auto]. rewrite Ed. by apply rd_at_returns; [|lia..].
Qed.

Lemma fixed_accessors :
  on_elem it data o len ty ->
  returns (bson_iter_double it) /\ returns (bson_iter_int32 it) /\ returns (bson_iter_int64 it) /\
  returns (bson_iter_date_time it) /\ returns (bson_iter_time_t it) /\ returns (bson_iter_timeval it) /\
  returns (bson_iter_timestamp it).
Proof.
  intros E.
  assert (I64 : forall t, fixed_size t = Some 8 -> ty = t -> returns (bson_iter_int64_unsafe it))
    by (intros t Ht Et; unfold bson_iter_int64_unsafe; eapply bind_fixed; eauto; done).
  repeat split; apply accessor_returns; try done; intros Et.
  - unfold bson_iter_double_unsafe. destruct (fixed_bound 8 E) as [Ed ?]; [by rewrite Et|].
    pose proof (oe_o _ _ _ _ _ E). rewrite Ed. by apply rd_at_returns; [|lia..].
  - eapply bind_fixed; eauto; done.
  - by apply (I64 BSON_TYPE_INT64).
  - by apply (I64 BSON_TYPE_DATE_TIME).
  - apply bind_returns; [by apply (I64 BSON_TYPE_DATE_TIME) | auto].
  - apply bind_returns; [by apply (I64 BSON_TYPE_DATE_TIME) | auto].
  - eapply bind_fixed; eauto; done.
Qed.

Lemma oid_decimal_accessors :
  on_elem it data o len ty -> returns (bson_iter_oid it) /\ returns (bson_iter_decimal128 it).
Proof.
  intros E. pose proof (oe_o _ _ _ _ _ E). split; apply accessor_returns; try done; intros Et.
  - destruct (fixed_bound 12 E) as [Ed ?]; [by rewrite Et|]. unfold bson_iter_oid_unsafe. rewrite Ed.
    apply bind_returns; [by apply rdn_returns; [|lia..] | auto].
  - destruct (fixed_bound 16 E) as [Ed ?]; [by rewrite Et|]. unfold bson_iter_decimal128_unsafe. rewrite Ed.
    apply bind_returns; [|auto].
    apply bind_returns; [by apply rd_at_returns; [|lia..]|]. intros.
    apply bind_returns; [by apply rd_at_returns; [|lia..] | auto].
Qed.

(** Which case of [elem_at] holds at a given type. *)
Lemma string_case :
  describes data o it ty -> is_string ty ->
  exists l, i_d1 it = o /\ i_d2 it = o + 4 /\ i_next_off it = o + 4 + l /\
    rd_le 4 data o = Ret l /\ 1 <= l /\ rd data (o + 4 + l - 1) = Ret 0.
Proof.
  unfold describes. intros D Hs.
  destruct Hs as [-> | [-> | ->]]; elem_inv D; eexists; repeat split; eauto; lia.
Qed.

Lemma iter_string_ret t :
  on_elem it data o len ty -> is_string t -> ty = t ->
  exists l, 1 <= l /\ o + 4 + l < len /\ rd_le 4 data o = Ret l /\ rd data (o + 4 + l - 1) = Ret 0 /\
    iter_string t it = Ret (Some (drop (Z.to_nat (o + 4)) data), l - 1).
Proof.
  intros E Ht <-. destruct (string_case (oe_elem _ _ _ _ _ E) Ht) as (l & E1 & E2 & E3 & E4 & E5 & E6).
  pose proof E as [_ _ _ Ho Hn Hl Hm]. unfold INT_MAX in Hm.
  exists l. split; [done|]. split; [lia|]. split; [done|]. split; [done|].
  unfold iter_string. rewrite (iter_is_ret _ E), Z.eqb_refl. cbn [mbind outcome_bind].
  unfold bson_iter_utf8_len_unsafe. rewrite (rd_at_eq _ _ E), E1, E4. cbn [mbind outcome_bind].
  rewrite (s32_id l), s32_id, u32_id, E2, (ptr_at_ret _ E) by lia. cbn [mbind outcome_bind]. do 2 f_equal. lia.
Qed.

Lemma iter_string_returns t : on_elem it data o len ty -> is_string t -> returns (iter_string t it).
Proof.
  intros E Ht. destruct (decide (ty = t)) as [Et|Et].
  - destruct (iter_string_ret t E Ht Et) as (l & _ & _ & _ & _ & ->). auto.
  - unfold iter_string. rewrite (iter_is_ret _ E). replace (ty =? t) with false by lia. cbn [mbind outcome_bind]. auto.
Qed.

Lemma dup_utf8_returns : on_elem it data o len ty -> returns (bson_iter_dup_utf8 it).
Proof.
  intros E. pose proof E as [_ _ _ Ho Hn Hl Hm]. unfold INT_MAX in Hm.
  unfold bson_iter_dup_utf8, bson_iter_utf8. destruct (decide (ty = BSON_TYPE_UTF8)) as [Et|Et].
  - destruct (iter_string_ret BSON_TYPE_UTF8 E ltac:(unfold is_string; auto) Et) as (l & H1 & H2 & _ & _ & ->).
    cbn [mbind outcome_bind]. rewrite u32_id by lia.
    rewrite rdn_ret by (rewrite ?zlen_drop; lia). cbn [mbind outcome_bind].
    set (s := take _ _). assert (zlen s = l - 1) by (unfold s; rewrite zlen_take, !zlen_drop; lia).
    rewrite wrn_ret by (rewrite ?zlen_replicate; lia). cbn [mbind outcome_bind].
    rewrite wrn_ret; [cbn [mbind outcome_bind]; auto | lia |].
    rewrite !zlen_app, zlen_take, zlen_drop, zlen_replicate. change (zlen [0]) with 1. unfold zlen in *. lia.
  - unfold iter_string. rewrite (iter_is_ret _ E). replace (ty =? _) with false by lia. cbn. auto.
Qed.

Lemma bool_returns : on_elem it data o len ty -> returns (bson_iter_bool it).
Proof.
  intros E. apply accessor_returns; [done|]. intros Et. pose proof E as [_ _ D Ho Hn Hl Hm].
  unfold bson_iter_bool_unsafe, describes in *. rewrite Et in D.
  assert (i_d1 it = o /\ i_next_off it = o + 1) as [-> ?] by (elem_inv D; lia).
  apply bind_returns; [by apply rd_at_returns; [|lia..] | auto].
Qed.
Lemma doc_case t :
  describes data o it t -> is_container t ->
  exists l, i_d1 it = o /\ i_next_off it = o + l /\ rd_le 4 data o = Ret l /\ 0 <= l.
Proof. unfold describes. intros D Ht. destruct Ht as [-> | ->]; elem_inv D; eexists; repeat split; eauto; lia. Qed.

Lemma iter_doc_ret t :
  on_elem it data o len ty -> is_container t -> ty = t ->
  exists l, rd_le 4 data o = Ret l /\ i_next_off it = o + l /\
    iter_doc t it = Ret (l, Some (drop (Z.to_nat o) data)).
Proof.
  intros E Ht <-. destruct (doc_case ty (oe_elem _ _ _ _ _ E) Ht) as (l & E1 & E2 & E3 & E4).
  pose proof E as [_ _ _ Ho Hn Hl Hm]. exists l. split; [done|]. split; [done|].
  unfold iter_doc. rewrite (iter_is_ret _ E), Z.eqb_refl. cbn [mbind outcome_bind].
  rewrite (rd_at_eq _ _ E), E1, E3. cbn [mbind outcome_bind]. by rewrite (ptr_at_ret _ E) by lia.
Qed.

Lemma iter_doc_returns t : on_elem it data o len ty -> is_container t -> returns (iter_doc t it).
Proof.
  intros E Ht. destruct (decide (ty = t)) as [Et|Et].
  - destruct (iter_doc_ret t E Ht Et) as (l & _ & _ & ->). auto.
  - unfold iter_doc. rewrite (iter_is_ret _ E). replace (ty =? t) with false by lia. cbn [mbind outcome_bind]. auto.
Qed.

Lemma recurse_returns : on_elem it data o len ty -> returns (bson_iter_recurse it).
Proof.
  intros E. unfold bson_iter_recurse. rewrite (iter_type_ret E). cbn [mbind outcome_bind].
  destruct (ty =? BSON_TYPE_DOCUMENT); [|destruct (ty =? BSON_TYPE_ARRAY); auto].
  - apply bind_returns; [apply iter_doc_returns; [done | by right]|]. intros [??] _. auto.
  - apply bind_returns; [apply iter_doc_returns; [done | by left]|]. intros [??] _. auto.
Qed.

Lemma binary_returns : on_elem it data o len ty -> returns (bson_iter_binary it).
Proof.
  intros E. apply accessor_returns; [done|]. intros Et. pose proof E as [Er _ D Ho Hn Hl Hm].
  unfold describes in D. rewrite Et in D.
  assert (exists l st, i_d1 it = o /\ i_d2 it = o + 4 /\ i_d3 it = o + 5 /\ i_next_off it = o + 5 + l /\
    rd_le 4 data o = Ret l /\ rd data (o + 4) = Ret st /\ 0 <= l /\ (st = BSON_SUBTYPE_BINARY_DEPRECATED -> 4 <= l))
    as (l & st & -> & -> & -> & En & El & Es & H0 & Hst).
  { elem_inv D. eexists _, _. repeat split; eauto; try lia. }
  unfold raw_of. rewrite Er. cbn [mbind outcome_bind]. rewrite Es. cbn [mbind outcome_bind].
  rewrite (rd_at_eq _ _ E), El. cbn [mbind outcome_bind].
  destruct (st =? BSON_SUBTYPE_BINARY_DEPRECATED) eqn:Eb; bool_hyps;
    (apply bind_returns; [apply ptr_at_returns; [done | lia || (specialize (Hst Eb); lia)] | auto]).
Qed.

Lemma regex_returns : on_elem it data o len ty -> returns (bson_iter_regex it).
Proof.
  intros E. apply accessor_returns; [done|]. intros Et. pose proof E as [Er _ D Ho Hn Hl Hm].
  unfold describes in D. rewrite Et in D.
  assert (0 <= i_d1 it <= len /\ 0 <= i_d2 it <= len) as [H1 H2] by (elem_inv D; lia).
  apply bind_returns; [by apply ptr_at_returns|]. intros. apply bind_returns; [by apply ptr_at_returns | auto].
Qed.

Lemma dbpointer_returns : on_elem it data o len ty -> returns (bson_iter_dbpointer it).
Proof.
  intros E. apply accessor_returns; [done|]. intros Et. pose proof E as [Er _ D Ho Hn Hl Hm].
  unfold describes in D. rewrite Et in D.
  assert (exists l, i_d1 it = o /\ i_d2 it = o + 4 /\ i_d3 it = o + 4 + l /\ 1 <= l /\ o + 4 + l + 12 < len /\
    rd_le 4 data o = Ret l) as (l & -> & -> & -> & ? & ? & El)
    by (elem_inv D; eexists; repeat split; eauto; lia).
  rewrite (rd_at_eq _ _ E), El. cbn [mbind outcome_bind]. cbn zeta.
  apply bind_returns; [by apply ptr_at_returns; [|lia]|]. intros. unfold raw_of. rewrite Er. cbn [mbind outcome_bind].
  rewrite rdn_ret by lia. cbn [mbind outcome_bind]. auto.
Qed.

Lemma codewscope_returns : on_elem it data o len ty -> returns (bson_iter_codewscope it).
Proof.
  intros E. apply accessor_returns; [done|]. intros Et. pose proof E as [Er _ D Ho Hn Hl Hm].
  unfold describes in D. rewrite Et in D.
  assert (exists ls ld, i_d2 it = o + 4 /\ i_d3 it = o + 8 /\ i_d4 it = o + 8 + ls /\ 1 <= ls /\ 4 < ld /\
    o + 8 + ls + ld < len /\ rd_le 4 data (o + 4) = Ret ls /\ rd_le 4 data (o + 8 + ls) = Ret ld)
    as (ls & ld & -> & -> & -> & ? & ? & ? & Es & Ed)
    by (elem_inv D; eexists _, _; repeat split; eauto; lia).
  rewrite !(rd_at_eq _ _ E), Es. cbn [mbind outcome_bind]. replace (ls >? 0) with true by lia.
  cbn [BSON_ASSERTo mbind outcome_bind]. rewrite Ed. cbn [mbind outcome_bind].
  apply bind_returns; [by apply ptr_at_returns; [|lia]|]. intros.
  apply bind_returns; [by apply ptr_at_returns; [|lia] | auto].
Qed.

Lemma as_double_returns : on_elem it data o len ty -> returns (bson_iter_as_double it).
Proof.
  intros E. destruct (fixed_accessors E) as (Hd & H32 & H64 & _).
  unfold bson_iter_as_double. rewrite (iter_type_ret E). cbn [mbind outcome_bind].
  repeat match goal with |- context [if ?b then _ else _] => destruct b end; auto;
    apply bind_returns; auto using bool_returns.
Qed.

(** The conversion to an [int64_t] is undefined for a double outside its range. *)
Lemma as_int64_returns :
  on_elem it data o len ty ->
  returns (bson_iter_as_int64 it) \/
  (bson_iter_as_int64 it = Oob /\ ty = BSON_TYPE_DOUBLE /\
   exists bits, bson_iter_double it = Ret bits /\ double_to_int64 bits = Oob).
Proof.
  intros E. destruct (fixed_accessors E) as ((bits & Hd) & H32 & H64 & _).
  unfold bson_iter_as_int64. rewrite (iter_type_ret E). cbn [mbind outcome_bind].
  destruct (ty =? BSON_TYPE_BOOL); [left; apply bind_returns; auto using bool_returns|].
  destruct (ty =? BSON_TYPE_DOUBLE) eqn:Et; [|left; repeat case_match; auto].
  rewrite Hd. cbn [mbind outcome_bind]. destruct (double_to_int64 bits) as [v| | |] eqn:Ev; [left; by exists v | | |].
  1, 3: unfold double_to_int64 in Ev; cbv zeta in Ev; repeat case_match; discriminate.
  right. bool_hyps. split; [done|]. split; [done | by exists bits].
Qed.

Lemma as_bool_returns : on_elem it data o len ty -> returns (bson_iter_as_bool it).
Proof.
  intros E. destruct (fixed_accessors E) as (Hd & H32 & H64 & _).
  unfold bson_iter_as_bool. rewrite (iter_type_ret E). cbn [mbind outcome_bind].
  repeat match goal with |- context [if ?b then _ else _] => destruct b end; auto using bool_returns;
    apply bind_returns; auto.
Qed.

End Accessors.

(** The element is a double whose value, truncated, is not an [int64_t] (or an
    infinity or a NaN). *)
Definition double_outside_int64 (it : bson_iter_t) : Prop :=
  ITER_TYPE it = Ret BSON_TYPE_DOUBLE /\ exists bits, bson_iter_double it = Ret bits /\ double_to_int64 bits = Oob.

(** Every accessor of bson-iter.c returns, [bson_iter_as_int64] unless it converts
    a double to an [int64_t] that cannot hold it. *)
Definition accessors_return (it : bson_iter_t) : Prop :=
  (returns (bson_iter_double it) /\ returns (bson_iter_int32 it) /\ returns (bson_iter_int64 it) /\
   returns (bson_iter_date_time it) /\ returns (bson_iter_time_t it) /\ returns (bson_iter_timeval it) /\
   returns (bson_iter_timestamp it)) /\
  (returns (bson_iter_oid it) /\ returns (bson_iter_decimal128 it)) /\
  returns (bson_iter_utf8 it) /\ returns (bson_iter_code it) /\ returns (bson_iter_symbol it) /\
  returns (bson_iter_dup_utf8 it) /\ returns (bson_iter_bool it) /\ returns (bson_iter_as_bool it) /\
   returns (bson_iter_as_double it) /\ (returns (bson_iter_as_int64 it) \/ bson_iter_as_int64 it = Oob /\ double_outside_int64 it) /\
  returns (bson_iter_document it) /\ returns (bson_iter_array it) /\ returns (bson_iter_recurse it) /\
  returns (bson_iter_binary it) /\ returns (bson_iter_regex it) /\ returns (bson_iter_dbpointer it) /\
  returns (bson_iter_codewscope it).

Lemma on_elem_accessors it data o len ty : on_elem it data o len ty -> accessors_return it.
Proof.
  intros E. split; [by eapply fixed_accessors|]. split; [by eapply oid_decimal_accessors|].
  split_and!.
  - eapply iter_string_returns; [done|]. unfold is_string. auto.
  - eapply iter_string_returns; [done|]. unfold is_string. auto.
  - eapply iter_string_returns; [done|]. unfold is_string. auto.
  - by eapply dup_utf8_returns.
  - by eapply bool_returns.
  - by eapply as_bool_returns.
  - by eapply as_double_returns.
  - destruct (as_int64_returns E) as [? | (? & -> & bits & ? & ?)]; [by left | right].
    split; [done|]. split; [by eapply iter_type_ret | by exists bits].
  - eapply iter_doc_returns; [done | by right].
  - eapply iter_doc_returns; [done | by left].
  - by eapply recurse_returns.
  - by eapply binary_returns.
  - by eapply regex_returns.
  - by eapply dbpointer_returns.
  - by eapply codewscope_returns.
Qed.

(** * Properties *)

(** C5: One step of the iterator over arbitrary bytes (hostile input
    included) whose buffer holds the declared length.  It returns without
    reading outside the buffer, except in the situation [overread_at]; when it
    succeeds it has moved forward by at least two bytes, the new element lies
    inside the document with all its offsets and length fields consistent
    ([stepped]), and every accessor of its value can be called safely, but for
    [bson_iter_as_int64] on a double that no [int64_t] holds; when it fails, the
    iterator is exhausted. *)
Theorem iter_next_memory_safe it data :
  iter_wf it data ->
  (exists r, _bson_iter_next_internal it = Ret r /\
     (n_ok r = true -> (exists o, stepped it data o r) /\ accessors_return (n_iter r)) /\
     (n_ok r = false -> exhausted (n_iter r))) \/
  (_bson_iter_next_internal it = Oob /\ overread_at it data).
Proof.
  intros W. destruct (next_wf it data W) as [(r & E & Hs & Hf)|Hov]; [left | by right].
  exists r. split; [done|]. split; [|done]. intros Hok. destruct (Hs Hok) as [o S].
  split; [by exists o|]. by eapply on_elem_accessors, stepped_on_elem.
Qed.

(** {"a": 1 (int32)} *)
Definition small_doc : bytes := [12; 0; 0; 0; 16; 97; 0; 1; 0; 0; 0; 0].

Lemma iter_next_memory_safe_witness :
  iter_wf (iter_start small_doc 12) small_doc /\
  ((exists r, _bson_iter_next_internal (iter_start small_doc 12) = Ret r /\
     (n_ok r = true -> (exists o, stepped (iter_start small_doc 12) small_doc o r) /\ accessors_return (n_iter r)) /\
     (n_ok r = false -> exhausted (n_iter r))) \/
   (_bson_iter_next_internal (iter_start small_doc 12) = Oob /\ overread_at (iter_start small_doc 12) small_doc)).
Proof.
  assert (W : iter_wf (iter_start small_doc 12) small_doc).
  { constructor; cbn; try done; try (unfold INT_MAX; lia).
    repeat first [apply Forall_nil_2 | apply Forall_cons_2; [unfold is_byte; lia|]]. }
  split; [exact W | exact (iter_next_memory_safe _ _ W)].
Defined.

(** {"a": 1e300}: converting the value to an [int64_t] is undefined. *)
Theorem as_int64_of_large_double :
  match _bson_iter_next_internal (iter_start [16; 0; 0; 0; 1; 97; 0; 0x9c; 0x75; 0; 0x88; 0x3c; 0xe4; 0x37; 0x7e; 0] 16) with
  | Ret r => n_ok r = true /\ bson_iter_as_int64 (n_iter r) = Oob /\ double_outside_int64 (n_iter r)
  | _ => False
  end.
Proof.
  destruct (_bson_iter_next_internal _) as [r| | |] eqn:E; vm_compute in E; try done. injection E as <-.
  split; [done|]. split; [by vm_compute|]. split; [by vm_compute|]. exists 0x7E37E43C8800759C. by split; vm_compute.
Qed.

(** The conversions at the edges: 1, -3, 2^53 + 1 (a tie, rounded down to even),
    2^53 + 3 (rounded up) and 2^63 - 1. *)
Example int64_to_double_values :
  map int64_to_double [1; -3; 2 ^ 53 + 1; 2 ^ 53 + 3; 2 ^ 63 - 1] =
  [0x3FF0000000000000; 0xC008000000000000; 0x4340000000000000; 0x4340000000000002; 0x43E0000000000000].
Proof. by vm_compute. Qed.

(** The over-read.  A document of 13 bytes that [bson_iter_init_from_data]
    accepts, with a binary element of subtype 2 at its end: the first
    [bson_iter_next] reads the inner length behind the end of the buffer. *)
Theorem binary_overread_reachable :
  let doc := [13; 0; 0; 0; 5; 97; 0; 4; 0; 0; 0; 2; 0] in
  bson_iter_init_from_data doc 13 = Ret (true, iter_start doc 13) /\
  bson_iter_next (iter_start doc 13) = Oob.
Proof. vm_compute. auto. Qed.
