(* ===== verification/RoundTrip.v ===== *)
(** * Reading back what was encoded

    On the encoding of an element, [_bson_iter_next_internal] accepts, and
    every accessor returns the value.  [read_elems] is a client of the
    iterator that rebuilds the tree of values; the main lemma says that it
    inverts [encode_doc]. *)
From S2P Require Import Prelude Memory Strings Format Document Append Lifecycle Build Iter IterSafe.

(** ** A client: reading a whole document *)

(** The [len] bytes behind a returned pointer. *)
Definition take_ptr (p : option bytes) (len : Z) : outcome bytes :=
  match p with Some p => rdn p 0 len | None => Oob end.
Definition take_cstr (p : option bytes) : outcome bytes :=
  match p with Some p => n ← strlen p; rdn p 0 n | None => Oob end.

(** One call per element; [None] when the iterator reports an error or an
    element has a type without a value. *)
Fixpoint read_value (fuel : nat) (it : bson_iter_t) : outcome (option value) :=
  match fuel with
  | O => Fuel
  | S fuel =>
    t ← bson_iter_type it;
    if t =? BSON_TYPE_DOUBLE then d ← bson_iter_double it; Ret (Some (VDouble d))
    else if t =? BSON_TYPE_UTF8 then '(s, n) ← bson_iter_utf8 it; s ← take_ptr s n; Ret (Some (VUtf8 s))
    else if t =? BSON_TYPE_DOCUMENT then
      child ← bson_iter_recurse it;
      match child with
      | Some child => els ← read_elems fuel child; Ret (option_map VDocument els)
      | None => Ret None
      end
    else if t =? BSON_TYPE_ARRAY then
      child ← bson_iter_recurse it;
      match child with
      | Some child => els ← read_elems fuel child; Ret (option_map VArray els)
      | None => Ret None
      end
    else if t =? BSON_TYPE_BINARY then
      '(st, n, p) ← bson_iter_binary it; d ← take_ptr p n; Ret (Some (VBinary st d))
    else if t =? BSON_TYPE_UNDEFINED then Ret (Some VUndefined)
    else if t =? BSON_TYPE_OID then o ← bson_iter_oid it; o ← take_ptr o 12; Ret (Some (VOid o))
    else if t =? BSON_TYPE_BOOL then b ← bson_iter_bool it; Ret (Some (VBool b))
    else if t =? BSON_TYPE_DATE_TIME then n ← bson_iter_date_time it; Ret (Some (VDateTime n))
    else if t =? BSON_TYPE_NULL then Ret (Some VNull)
    else if t =? BSON_TYPE_REGEX then
      '(r, opts) ← bson_iter_regex it; r ← take_cstr r; opts ← take_cstr opts; Ret (Some (VRegex r opts))
    else if t =? BSON_TYPE_DBPOINTER then
      '(c, n, oid) ← bson_iter_dbpointer it; c ← take_ptr c n; oid ← take_ptr oid 12;
      Ret (Some (VDbPointer c oid))
    else if t =? BSON_TYPE_CODE then '(s, n) ← bson_iter_code it; s ← take_ptr s n; Ret (Some (VCode s))
    else if t =? BSON_TYPE_SYMBOL then '(s, n) ← bson_iter_symbol it; s ← take_ptr s n; Ret (Some (VSymbol s))
    else if t =? BSON_TYPE_CODEWSCOPE then
      '(js, n, scope, scope_len) ← bson_iter_codewscope it;
      js ← take_ptr js n;
      match scope with
      | Some scope =>
        '(ok, child) ← bson_iter_init_from_data scope scope_len;
        if (ok : bool) then els ← read_elems fuel child; Ret (option_map (VCodeWScope js) els) else Ret None
      | None => Ret None
      end
    else if t =? BSON_TYPE_INT32 then n ← bson_iter_int32 it; Ret (Some (VInt32 n))
    else if t =? BSON_TYPE_TIMESTAMP then '(t, i) ← bson_iter_timestamp it; Ret (Some (VTimestamp t i))
    else if t =? BSON_TYPE_INT64 then n ← bson_iter_int64 it; Ret (Some (VInt64 n))
    else if t =? BSON_TYPE_DECIMAL128 then
      d ← bson_iter_decimal128 it;
      Ret (option_map (fun d => VDecimal128 (d_low d) (d_high d)) d)
    else if t =? BSON_TYPE_MAXKEY then Ret (Some VMaxKey)
    else if t =? BSON_TYPE_MINKEY then Ret (Some VMinKey)
    else Ret None
  end
with read_elems (fuel : nat) (it : bson_iter_t) : outcome (option (list (bytes * value))) :=
  match fuel with
  | O => Fuel
  | S fuel =>
    '(ok, it) ← bson_iter_next it;
    if (ok : bool) then
      k ← bson_iter_key it;
      k ← take_cstr (Some k);
      v ← read_value fuel it;
      match v with
      | None => Ret None
      | Some v => els ← read_elems fuel it; Ret (option_map (cons (k, v)) els)
      end
    else Ret (if i_err_off it =? 0 then Some [] else None)
  end.

(** The whole document at a pointer. *)
Definition read_doc (data : bytes) (length : Z) : outcome (option (list (bytes * value))) :=
  '(ok, it) ← bson_iter_init_from_data data length;
  if (ok : bool) then read_elems (S (Z.to_nat length)) it else Ret None.

(** ** Reading at the boundary of a concatenation *)

Lemma rd_mid p c r i : zlen p = i -> rd (p ++ c :: r) i = Ret c.
Proof.
  intros <-. rewrite rd_app_r by lia. by rewrite Z.sub_diag.
Qed.

Lemma rd_word p x r i :
  zlen p = i -> 0 <= x < 2 ^ 32 -> rd_le 4 (p ++ le_bytes 4 x ++ r) i = Ret x.
Proof.
  intros <- Hx. rewrite rd_le_mid by (rewrite ?zlen_le_bytes; done). f_equal.
  rewrite le_val_bytes. change (256 ^ Z.of_nat 4) with (2 ^ 32). by rewrite Z.mod_small.
Qed.

Lemma find_nul_cstr s p r i n :
  no_nul s -> zlen p = i -> i + zlen s < 2 ^ 32 -> (length s < n)%nat ->
  find_nul n (p ++ s ++ 0 :: r) i = Ret (Some (i + zlen s)).
Proof.
  intros Hs. revert p i n. induction Hs as [|c s Hc Hs IH]; intros p i n <- Hb Hn.
  - destruct n as [|n]; [simpl in Hn; lia|]. cbn [find_nul app]. rewrite rd_mid by done. cbn. do 2 f_equal. rewrite zlen_nil. lia.
  - destruct n as [|n]; [simpl in Hn; lia|]. rewrite zlen_cons in *. pose proof (zlen_nonneg s). pose proof (zlen_nonneg p).
    cbn [find_nul app]. rewrite rd_mid by done. cbn [mbind outcome_bind]. replace (c =? 0) with false by lia.
    rewrite u32_id by lia.
    change (p ++ c :: s ++ 0 :: r) with (p ++ [c] ++ s ++ 0 :: r). rewrite app_assoc.
    rewrite IH; [do 2 f_equal; lia | rewrite zlen_app; done | lia | simpl in Hn; lia].
Qed.

Lemma at_off_app p r i : zlen p = i -> at_off (p ++ r) i = Ret r.
Proof.
  intros <-. unfold at_off. assert (E : p ++ r = p ++ r ++ []) by (by rewrite app_nil_r). rewrite E.
  apply rdn_mid; [done|]. rewrite app_nil_r, zlen_app. lia.
Qed.

(** ** The step over an encoded element *)

(** Offsets of the parts of a value encoded at [o]. *)
Definition d1_of (v : value) (o : Z) : Z :=
  match v with VUndefined | VNull | VMaxKey | VMinKey => u32 (-1) | _ => o end.
Definition d2_of (v : value) (o : Z) : Z :=
  match v with
  | VUtf8 _ | VCode _ | VSymbol _ | VBinary _ _ | VDbPointer _ _ | VCodeWScope _ _ => o + 4
  | VRegex r _ => o + zlen r + 1
  | _ => 0
  end.
Definition d3_of (v : value) (o : Z) : Z :=
  match v with
  | VBinary _ _ => o + 5
  | VDbPointer c _ => o + 4 + (zlen c + 1)
  | VCodeWScope _ _ => o + 8
  | _ => 0
  end.
Definition d4_of (v : value) (o : Z) : Z :=
  match v with VCodeWScope js _ => o + 8 + (zlen js + 1) | _ => 0 end.

Definition fields_set (it : bson_iter_t) (v : value) (o : Z) : bson_iter_t :=
  set_next (set_d it (d1_of v o) (d2_of v o) (d3_of v o) (d4_of v o)) (o + zlen (encode_value v)).

(** What the step needs of a value: no NUL inside a regular expression,
    fields of the right size. *)
Definition step_ok (v : value) : Prop :=
  match v with
  | VRegex r opts => no_nul r /\ no_nul opts
  | VOid oid => zlen oid = 12
  | VDbPointer _ oid => zlen oid = 12
  | VBinary st _ => is_byte st
  | _ => True
  end.

Section Step.
Context (it : bson_iter_t) (P Q : bytes) (len o : Z).
Context (HP : zlen P = o) (Ho : 6 <= o) (Hd : i_d1 it = o /\ i_d2 it = 0 /\ i_d3 it = 0 /\ i_d4 it = 0).
Context (Hmax : len <= INT_MAX).

Ltac setup := destruct Hd as (D1 & D2 & D3 & D4); unfold INT_MAX in *.

Lemma next_string_enc s v :
  encode_value v = string_bytes s -> d1_of v o = o -> d2_of v o = o + 4 -> d3_of v o = 0 -> d4_of v o = 0 ->
  o + zlen (encode_value v) < len ->
  next_string it (P ++ encode_value v ++ Q) len o = Ret (true, fields_set it v o).
Proof using HP Ho Hd Hmax.
  intros Ev E1 E2 E3 E4 Hl. setup. unfold fields_set. rewrite E1, E2, E3, E4, Ev in *. rewrite zlen_string_bytes in *.
  unfold next_string, string_bytes. pose proof (zlen_nonneg s). rewrite (u32_id (o + 4)) by lia.
  destruct (o + 4 >=? len) eqn:?; [lia|]. cbn zeta. change (i_d1 (set_d2 it (o + 4))) with (i_d1 it). rewrite D1.
  rewrite <- !app_assoc, rd_word by lia. cbn [mbind outcome_bind]. rewrite (u32_id (len - _)), (u32_id (o + 4 + _)) by lia.
  destruct (zlen s + 1 >? len - (o + 4)) eqn:?; [lia|]. cbn [i_next_off set_next i_d2 set_d2 set_d].
  destruct ((zlen s + 1 =? 0) || (o + 4 + (zlen s + 1) >=? len)) eqn:?; [lia|].
  rewrite !app_assoc, <- (app_assoc _ [0]). cbn [app]. rewrite rd_mid by (rewrite !zlen_app, zlen_le_bytes; lia).
  cbn [mbind outcome_bind negb Z.eqb]. unfold set_next, set_d2, set_d.
  cbn [i_raw i_len i_off i_type i_key i_d1 i_d2 i_d3 i_d4 i_err_off]. rewrite D1, D3, D4. do 3 f_equal. lia.
Qed.

Lemma next_doc_enc body v :
  encode_value v = doc_bytes body -> d1_of v o = o -> d2_of v o = 0 -> d3_of v o = 0 -> d4_of v o = 0 ->
  o + zlen (encode_value v) < len ->
  next_document it (P ++ encode_value v ++ Q) len o = Ret (true, fields_set it v o).
Proof using HP Ho Hd Hmax.
  intros Ev E1 E2 E3 E4 Hl. setup. unfold fields_set. rewrite E1, E2, E3, E4, Ev in *. rewrite zlen_doc_bytes in *.
  unfold next_document, doc_bytes. pose proof (zlen_nonneg body). rewrite (u32_id (len - 4)) by lia.
  destruct (o >=? len - 4) eqn:?; [lia|]. rewrite D1.
  rewrite <- !app_assoc, rd_word by lia. cbn [mbind outcome_bind]. rewrite !u32_id by lia.
  destruct ((zlen body + 5 >? len) || (zlen body + 5 >? len - o)) eqn:?; [lia|].
  unfold set_next, set_d. cbn. by rewrite D1, D2, D3, D4.
Qed.

Lemma next_binary_enc st data :
  is_byte st -> let v := VBinary st data in
  o + zlen (encode_value v) < len ->
  next_binary it (P ++ encode_value v ++ Q) len o = Ret (true, fields_set it v o).
Proof using HP Ho Hd Hmax.
  intros Hst v Hl. setup. unfold fields_set. subst v. cbn [encode_value d1_of d2_of d3_of d4_of] in *.
  unfold next_binary. pose proof (zlen_nonneg data). unfold binary_bytes in *.
  assert (Hl' : o + (9 + zlen data) <= len + 4) by (destruct (st =? _); autorewrite with zlen in Hl; lia).
  rewrite (u32_id (len - 4)) by lia. destruct (o >=? len - 4) eqn:?; [lia|].
  rewrite (u32_id (o + 4)), (u32_id (o + 5)) by lia. cbn zeta. change (i_d1 (set_d3 _ _)) with (i_d1 it). rewrite D1.
  change (i_d2 (set_d3 _ _)) with (o + 4). change (i_d3 (set_d3 _ _)) with (o + 5). rewrite (u32_id (len - o)) by lia.
  destruct (st =? BSON_SUBTYPE_BINARY_DEPRECATED) eqn:Es; autorewrite with zlen in Hl; bool_hyps;
    rewrite <- !app_assoc, (rd_word P _ _ o) by lia; cbn [mbind outcome_bind].
  - destruct (zlen data + 4 >=? len - o) eqn:?; [lia|].
    rewrite (app_assoc P). cbn [app]. rewrite rd_mid by (rewrite zlen_app, zlen_le_bytes; lia).
    cbn [mbind outcome_bind]. replace (st =? BSON_SUBTYPE_BINARY_DEPRECATED) with true by lia.
    destruct (zlen data + 4 <? 4) eqn:?; [lia|].
    change (st :: ?x) with ([st] ++ x). rewrite app_assoc. rewrite rd_word by (rewrite ?zlen_app, ?zlen_le_bytes; zl).
    cbn [mbind outcome_bind]. rewrite !u32_id, Z.eqb_refl by lia. cbn [negb].
    unfold set_next, set_d3, set_d2, set_d. cbn [i_raw i_len i_off i_type i_key i_d1 i_d2 i_d3 i_d4 i_err_off].
    rewrite D1, D4. do 3 f_equal. rewrite !zlen_app, !zlen_le_bytes. zl.
  - destruct (zlen data >=? len - o) eqn:?; [lia|].
    rewrite (app_assoc P). cbn [app]. rewrite rd_mid by (rewrite zlen_app, zlen_le_bytes; lia).
    cbn [mbind outcome_bind]. replace (st =? BSON_SUBTYPE_BINARY_DEPRECATED) with false by lia.
    rewrite !u32_id by lia.
    unfold set_next, set_d3, set_d2, set_d. cbn [i_raw i_len i_off i_type i_key i_d1 i_d2 i_d3 i_d4 i_err_off].
    rewrite D1, D4. do 3 f_equal. rewrite !zlen_app, !zlen_le_bytes. zl.
Qed.

Lemma next_bool_enc b :
  let v := VBool b in o + 1 < len ->
  next_bool it (P ++ encode_value v ++ Q) len o = Ret (true, fields_set it v o).
Proof using HP Ho Hd Hmax.
  intros v Hl. setup. unfold fields_set, next_bool. rewrite D1. destruct (o >=? len) eqn:?; [lia|].
  subst v. cbn [encode_value app]. rewrite rd_mid by done. cbn [mbind outcome_bind]. rewrite u32_id by lia.
  unfold set_next, set_d. cbn [d1_of d2_of d3_of d4_of].
  cbn [i_raw i_len i_off i_type i_key i_d1 i_d2 i_d3 i_d4 i_err_off]. rewrite D1, D2, D3, D4. by destruct b.
Qed.

Lemma next_regex_enc r opts :
  let v := VRegex r opts in no_nul r -> no_nul opts -> o + zlen (encode_value v) < len ->
  next_regex it (P ++ encode_value v ++ Q) len o
    = Ret (true, fields_set it v o, o + zlen r + 1 + zlen opts).
Proof using HP Ho Hd Hmax.
  intros v Hr Hop Hl. setup. unfold fields_set, next_regex. subst v. cbn [encode_value d1_of d2_of d3_of d4_of] in *.
  rewrite !zlen_app in *. change (zlen [0]) with 1 in *. pose proof (zlen_nonneg r). pose proof (zlen_nonneg opts).
  set (data := P ++ _ ++ Q).
  assert (E1 : data = P ++ r ++ 0 :: opts ++ 0 :: Q) by (unfold data; by rewrite <- !app_assoc).
  assert (E2 : data = (P ++ r ++ [0]) ++ opts ++ 0 :: Q) by (rewrite E1; by rewrite <- !app_assoc).
  assert (F1 : find_nul (Z.to_nat (len - o)) data o = Ret (Some (o + zlen r)))
    by (rewrite E1; apply find_nul_cstr; [done | done | lia | unfold zlen in *; lia]).
  assert (F2 : find_nul (Z.to_nat (len - (o + zlen r + 1))) data (o + zlen r + 1) = Ret (Some (o + zlen r + 1 + zlen opts))).
  { rewrite E2. apply find_nul_cstr; [done | | lia | unfold zlen in *; lia].
    rewrite !zlen_app. change (zlen [0]) with 1. lia. }
  rewrite F1. cbn [mbind outcome_bind]. rewrite (u32_id (o + zlen r + 1)) by lia. cbn zeta. rewrite F2.
  cbn [mbind outcome_bind]. rewrite u32_id by lia. unfold set_next, set_d2, set_d.
  cbn [i_raw i_len i_off i_type i_key i_d1 i_d2 i_d3 i_d4 i_err_off]. rewrite D1, D3, D4. do 4 f_equal. lia.
Qed.

Lemma next_dbpointer_enc c oid :
  let v := VDbPointer c oid in zlen oid = 12 -> o + zlen (encode_value v) < len ->
  next_dbpointer it (P ++ encode_value v ++ Q) len o = Ret (true, fields_set it v o).
Proof using HP Ho Hd Hmax.
  intros v Hoid Hl. setup. unfold fields_set, next_dbpointer. subst v. cbn [encode_value d1_of d2_of d3_of d4_of] in *.
  rewrite zlen_app, zlen_string_bytes in *. pose proof (zlen_nonneg c).
  set (data := P ++ _ ++ Q).
  assert (E1 : data = P ++ le_bytes 4 (zlen c + 1) ++ c ++ 0 :: oid ++ Q)
    by (unfold data, string_bytes; by rewrite <- !app_assoc).
  assert (F1 : rd_le 4 data o = Ret (zlen c + 1)) by (rewrite E1; apply rd_word; lia).
  assert (F2 : rd data (o + (zlen c + 1) + 3) = Ret 0).
  { rewrite E1, !app_assoc, <- app_assoc. rewrite app_assoc. apply rd_mid. rewrite !zlen_app, zlen_le_bytes. lia. }
  rewrite (u32_id (len - 4)) by lia. destruct (o >=? len - 4) eqn:?; [lia|]. rewrite (u32_id (o + 4)) by lia. cbn zeta.
  change (i_d1 (set_d2 it (o + 4))) with (i_d1 it). rewrite D1, F1. cbn [mbind outcome_bind].
  rewrite (u32_id (len - o - 4)) by lia.
  destruct ((zlen c + 1 =? 0) || (zlen c + 1 >? len - o - 4)) eqn:?; [lia|]. rewrite F2. cbn [mbind outcome_bind negb Z.eqb].
  rewrite !u32_id by lia. unfold set_next, set_d2, set_d3, set_d.
  cbn [i_raw i_len i_off i_type i_key i_d1 i_d2 i_d3 i_d4 i_err_off]. rewrite D1, D4. do 3 f_equal. lia.
Qed.

Lemma next_codewscope_enc js scope :
  let v := VCodeWScope js scope in o + zlen (encode_value v) < len ->
  next_codewscope it (P ++ encode_value v ++ Q) len o = Ret (true, fields_set it v o).
Proof using HP Ho Hd Hmax.
  intros v Hl. setup. unfold fields_set, next_codewscope. subst v. rewrite encode_codewscope in *.
  cbn [d1_of d2_of d3_of d4_of] in *. unfold encode_doc in *. set (body := encode_body scope) in *.
  rewrite !zlen_app, zlen_le_bytes, zlen_string_bytes, zlen_doc_bytes in *.
  pose proof (zlen_nonneg js). pose proof (zlen_nonneg body).
  set (data := P ++ _ ++ Q). set (l := 4 + (zlen js + 5) + (zlen body + 5)) in *.
  assert (E1 : data = P ++ le_bytes 4 l ++ le_bytes 4 (zlen js + 1) ++ (js ++ [0]) ++ le_bytes 4 (zlen body + 5) ++ body ++ [0] ++ Q)
    by (unfold data, string_bytes, doc_bytes; by rewrite <- !app_assoc).
  assert (F1 : rd_le 4 data o = Ret l) by (rewrite E1; apply rd_word; lia).
  assert (F2 : rd_le 4 data (o + 4) = Ret (zlen js + 1)).
  { rewrite E1, app_assoc. apply rd_word; [rewrite zlen_app, zlen_le_bytes; lia | lia]. }
  assert (F3 : rd_le 4 data (o + 4 + 4 + (zlen js + 1)) = Ret (zlen body + 5)).
  { rewrite E1. rewrite (app_assoc P), (app_assoc (P ++ _)), (app_assoc ((P ++ _) ++ _)).
    apply rd_word; [rewrite !zlen_app, !zlen_le_bytes; change (zlen [0]) with 1; lia | lia]. }
  rewrite (u32_id (len - 14)) by lia. destruct ((len <? 19) || (o >=? len - 14)) eqn:?; [lia|].
  rewrite (u32_id (o + 4)), (u32_id (o + 8)), (u32_id (len - o)), (u32_id (len - o - 4 - 4)) by lia. cbn zeta.
  change (i_d1 (set_d3 _ _)) with (i_d1 it). rewrite D1, F1. cbn [mbind outcome_bind].
  destruct ((l <? 14) || (l >=? len - o)) eqn:?; [lia|]. rewrite (u32_id (o + l)) by lia.
  change (i_next_off (set_next _ ?n)) with n. change (i_d2 (set_next _ _)) with (o + 4).
  destruct (o + l >=? len) eqn:?; [lia|]. rewrite F2. cbn [mbind outcome_bind].
  destruct ((zlen js + 1 =? 0) || (zlen js + 1 >=? len - o - 4 - 4)) eqn:?; [lia|].
  rewrite (u32_id (o + 4 + 4 + (zlen js + 1) + 4)), (u32_id (o + 4 + 4 + (zlen js + 1))) by lia.
  destruct (o + 4 + 4 + (zlen js + 1) + 4 >=? o + l) eqn:?; [lia|].
  change (i_d4 (set_d4 _ ?n)) with n. change (i_next_off (set_d4 _ _)) with (o + l). rewrite F3. cbn [mbind outcome_bind].
  rewrite (u32_id (o + 4 + 4 + (zlen js + 1) + (zlen body + 5))) by lia.
  destruct (o + 4 + 4 + (zlen js + 1) + (zlen body + 5) =? o + l) eqn:?; [|lia]. cbn [negb].
  unfold set_next, set_d2, set_d3, set_d4, set_d.
  cbn [i_raw i_len i_off i_type i_key i_d1 i_d2 i_d3 i_d4 i_err_off i_next_off]. rewrite D1. do 3 f_equal; lia.
Qed.

Lemma next_fixed_enc v n :
  zlen (encode_value v) = n -> d1_of v o = o -> d2_of v o = 0 -> d3_of v o = 0 -> d4_of v o = 0 ->
  o + n < len -> set_next it (u32 (o + n)) = fields_set it v o.
Proof using HP Ho Hd Hmax.
  intros <- E1 E2 E3 E4 Hl. setup. unfold fields_set. rewrite E1, E2, E3, E4.
  pose proof (zlen_nonneg (encode_value v)). rewrite u32_id by lia.
  unfold set_next, set_d. cbn [i_raw i_len i_off i_type i_key i_d1 i_d2 i_d3 i_d4 i_err_off]. by rewrite D1, D2, D3, D4.
Qed.

Lemma next_fields_enc v :
  step_ok v -> o + zlen (encode_value v) < len ->
  exists o', next_fields it (P ++ encode_value v ++ Q) len o (type_of v) = Ret (true, fields_set it v o, false, o').
Proof using HP Ho Hd Hmax.
  intros Hv Hl.
  assert (Hfix : forall n, zlen (encode_value v) = n -> d1_of v o = o -> d2_of v o = 0 -> d3_of v o = 0 -> d4_of v o = 0 ->
    exists o', Ret (true, set_next it (u32 (o + n)), false, o) = Ret (true, fields_set it v o, false, o'))
    by (intros; exists o; do 4 f_equal; by apply next_fixed_enc; [..|lia]).
  assert (Hempty : encode_value v = [] -> d1_of v o = u32 (-1) -> d2_of v o = 0 -> d3_of v o = 0 -> d4_of v o = 0 ->
    exists o', Ret (true, set_next (set_d1 it (u32 (-1))) o, false, o) = Ret (true, fields_set it v o, false, o')).
  { intros E E1 E2 E3 E4. exists o. unfold fields_set. rewrite E, E1, E2, E3, E4. change (zlen (@nil Z)) with 0. rewrite Z.add_0_r. setup.
    unfold set_next, set_d1, set_d. cbn [i_raw i_len i_off i_type i_key i_d1 i_d2 i_d3 i_d4 i_err_off]. by rewrite D2, D3, D4. }
  destruct v; unfold next_fields; cbn [type_of step_ok] in *; cbn zeta beta;
    repeat match goal with |- context [?a =? ?b] =>
      let c := eval vm_compute in (a =? b) in change (a =? b) with c end; cbn [orb].
  1: by apply Hfix.
  1: rewrite (next_string_enc s (VUtf8 s)) by done; cbn [mbind outcome_bind]; by exists o.
  1: rewrite (next_doc_enc (encode_body els)) by (done || by rewrite encode_document);
     cbn [mbind outcome_bind]; by exists o.
  1: rewrite (next_doc_enc (encode_body els)) by (done || by rewrite encode_array);
     cbn [mbind outcome_bind]; by exists o.
  1: rewrite next_binary_enc by done; cbn [mbind outcome_bind]; by exists o.
  1: by apply Hempty.
  1: by apply Hfix.
  1: rewrite next_bool_enc by done; cbn [mbind outcome_bind]; by exists o.
  1: by apply Hfix.
  1: by apply Hempty.
  1: destruct Hv; rewrite next_regex_enc by done; cbn [mbind outcome_bind]; by eexists.
  1: rewrite next_dbpointer_enc by done; cbn [mbind outcome_bind]; by exists o.
  1: rewrite (next_string_enc js (VCode js)) by done; cbn [mbind outcome_bind]; by exists o.
  1: rewrite (next_string_enc s (VSymbol s)) by done; cbn [mbind outcome_bind]; by exists o.
  1: rewrite next_codewscope_enc by done; cbn [mbind outcome_bind]; by exists o.
  1: by apply Hfix.
  1: apply Hfix; try done; cbn [encode_value]; by rewrite zlen_app, !zlen_le_bytes.
  1: by apply Hfix.
  1: apply Hfix; try done; cbn [encode_value]; by rewrite zlen_app, !zlen_le_bytes.
  all: by apply Hempty.
Qed.
End Step.

(** The iterator on the element [(k, v)] encoded at offset [off] of [data]. *)
Definition at_elem (data : bytes) (len off : Z) (k : bytes) (v : value) : bson_iter_t :=
  let o := off + 2 + zlen k in
  mk_iter (Some data) len off off (off + 1) (d1_of v o) (d2_of v o) (d3_of v o) (d4_of v o)
    (o + zlen (encode_value v)) 0.

Lemma next_enc it p k v Q :
  let data := p ++ encode_elem (k, v) ++ Q in
  i_raw it = Some data -> i_next_off it = zlen p -> 4 <= zlen p -> no_nul k -> step_ok v ->
  zlen p + zlen (encode_elem (k, v)) < i_len it -> i_len it <= zlen data -> i_len it <= INT_MAX ->
  _bson_iter_next_internal it
    = Ret (mk_next true (at_elem data (i_len it) (zlen p) k v) (Some (k ++ 0 :: encode_value v ++ Q)) (type_of v) false).
Proof.
  intros data Hr Hn Hp Hk Hv Hl Hz Hm. unfold INT_MAX in *. subst data.
  unfold encode_elem, elem_hdr in *. cbn [fst snd] in *. set (enc := encode_value v) in *.
  rewrite zlen_app, zlen_cons, zlen_app in Hl. change (zlen [0]) with 1 in Hl.
  pose proof (zlen_nonneg k). pose proof (zlen_nonneg enc).
  set (data := p ++ _ ++ Q) in *. set (len := i_len it) in *.
  assert (E1 : data = p ++ type_of v :: k ++ 0 :: enc ++ Q) by (unfold data; cbn; by rewrite <- !app_assoc).
  assert (E2 : data = (p ++ [type_of v]) ++ k ++ 0 :: enc ++ Q) by (rewrite E1; by rewrite <- !app_assoc).
  assert (E3 : data = (p ++ [type_of v] ++ k ++ [0]) ++ enc ++ Q) by (rewrite E1; by rewrite <- !app_assoc).
  assert (F1 : find_nul (Z.to_nat (len - (zlen p + 1))) data (zlen p + 1) = Ret (Some (zlen p + 1 + zlen k))).
  { rewrite E2. apply find_nul_cstr; [done | | lia | unfold zlen in *; lia].
    rewrite zlen_app. done. }
  unfold _bson_iter_next_internal. rewrite Hr, Hn. fold len. cbn zeta. rewrite (u32_id (zlen p + 1)) by lia.
  rewrite F1. cbn [mbind outcome_bind]. rewrite (u32_id (zlen p + 1 + zlen k + 1)) by lia.
  set (it1 := set_d1 _ _).
  assert (F2 : bson_iter_key_unsafe it1 = Ret (k ++ 0 :: enc ++ Q)).
  { unfold bson_iter_key_unsafe, raw_of. cbn [mbind outcome_bind it1 i_raw i_key set_d1 set_d]. rewrite E2.
    apply at_off_app. by rewrite zlen_app. }
  assert (F3 : ITER_TYPE it1 = Ret (type_of v)).
  { unfold ITER_TYPE, raw_of. cbn. rewrite E1. by apply rd_mid. }
  rewrite F2. cbn [mbind outcome_bind]. rewrite F3. cbn [mbind outcome_bind].
  replace (zlen p + 1 + zlen k + 1) with (zlen p + 2 + zlen k) in * by lia.
  destruct (fun HP Ho Hd Hm => next_fields_enc it1 (p ++ [type_of v] ++ k ++ [0]) Q len (zlen p + 2 + zlen k) HP Ho Hd Hm v) as (o' & F4);
    [rewrite !zlen_app; change (zlen [type_of v]) with 1; change (zlen [0]) with 1; lia | lia | by split; [cbn; lia|] | unfold INT_MAX; lia | done | fold enc; lia |].
  fold enc in F4. rewrite <- E3 in F4. rewrite F4. cbn [mbind outcome_bind negb].
  unfold fields_set. cbn [i_next_off set_next]. fold enc.
  destruct (zlen p + 2 + zlen k + zlen enc >=? len) eqn:?; [lia|].
  unfold at_elem, set_err, set_next, set_d, it1. done.
Qed.

(** The key of the current element. *)
Lemma key_enc p k v Q len :
  bson_iter_key (at_elem (p ++ encode_elem (k, v) ++ Q) len (zlen p) k v) = Ret (k ++ 0 :: encode_value v ++ Q).
Proof.
  unfold bson_iter_key, bson_iter_key_unsafe, raw_of. cbn [at_elem i_raw i_key mbind outcome_bind].
  unfold encode_elem, elem_hdr. cbn [fst snd]. change (type_of v :: k ++ [0]) with ([type_of v] ++ k ++ [0]).
  rewrite <- !app_assoc, app_assoc. apply at_off_app. by rewrite zlen_app.
Qed.

(** The step at the end of the document. *)
Lemma next_eod it p c Q :
  i_raw it = Some (p ++ c :: Q) -> i_next_off it = zlen p -> i_len it = zlen p + 1 -> zlen p < INT_MAX ->
  exists r, _bson_iter_next_internal it = Ret r /\ n_ok r = false /\ i_err_off (n_iter r) = i_err_off it.
Proof.
  intros Hr Hn Hl Hm. unfold INT_MAX in *. pose proof (zlen_nonneg p).
  unfold _bson_iter_next_internal. rewrite Hr, Hn, Hl. cbn zeta. rewrite u32_id by lia.
  rewrite Z.sub_diag. cbn. eauto.
Qed.

(** ** The accessors on an encoded value *)

Lemma rd_le_enc n p x r i :
  zlen p = i -> 0 <= x < 256 ^ Z.of_nat n -> rd_le (Z.of_nat n) (p ++ le_bytes n x ++ r) i = Ret x.
Proof.
  intros <- Hx. rewrite rd_le_mid by (rewrite ?zlen_le_bytes; done). f_equal.
  rewrite le_val_bytes. by rewrite Z.mod_small.
Qed.

Lemma rd_double p x r i : zlen p = i -> 0 <= x < 2 ^ 64 -> rd_le 8 (p ++ le_bytes 8 x ++ r) i = Ret x.
Proof. apply (rd_le_enc 8). Qed.

Lemma take_ptr_app s r : take_ptr (Some (s ++ r)) (zlen s) = Ret s.
Proof. by apply (rdn_mid []). Qed.

Lemma take_cstr_app s r : no_nul s -> take_cstr (Some (s ++ 0 :: r)) = Ret s.
Proof.
  intros Hs. unfold take_cstr. rewrite strlen_cstr by done. cbn [mbind outcome_bind].
  by apply (rdn_mid []).
Qed.

Lemma init_from_data_doc body Q :
  zlen (doc_bytes body) <= INT_MAX ->
  bson_iter_init_from_data (doc_bytes body ++ Q) (zlen (doc_bytes body))
    = Ret (true, iter_start (doc_bytes body ++ Q) (zlen (doc_bytes body))).
Proof.
  intros Hm. unfold INT_MAX in *. rewrite zlen_doc_bytes in *. pose proof (zlen_nonneg body).
  unfold bson_iter_init_from_data, INT_MAX.
  destruct ((zlen body + 5 <? 5) || (zlen body + 5 >? 2147483647)) eqn:?; [lia|].
  assert (E : doc_bytes body ++ Q = [] ++ le_bytes 4 (zlen body + 5) ++ body ++ 0 :: Q)
    by (unfold doc_bytes; by rewrite <- !app_assoc).
  assert (F1 : rd_le 4 (doc_bytes body ++ Q) 0 = Ret (zlen body + 5)) by (rewrite E; apply rd_word; [done | lia]).
  assert (F2 : rd (doc_bytes body ++ Q) (zlen body + 5 - 1) = Ret 0).
  { rewrite E. cbn [app]. rewrite app_assoc. apply rd_mid. rewrite zlen_app, zlen_le_bytes. lia. }
  rewrite F1. cbn [mbind outcome_bind]. rewrite Z.eqb_refl. cbn [negb]. rewrite F2. cbn [mbind outcome_bind negb Z.eqb].
  by rewrite u32_id by lia.
Qed.

(** Evaluate the tests of the type codes. *)
Ltac tests := repeat match goal with |- context [?a =? ?b] =>
  let c := eval vm_compute in (a =? b) in
  match c with true => change (a =? b) with true | false => change (a =? b) with false end end; cbn iota.

Section Access.
Context (P Q : bytes) (len off : Z) (k : bytes) (v : value).
Let enc := encode_value v.
Let data := P ++ enc ++ Q.
Let o := off + 2 + zlen k.
Let it := at_elem data len off k v.
Context (HP : zlen P = o) (Ht : rd data off = Ret (type_of v)) (Hoff : 0 <= off).
Context (Hl : o + zlen enc < len) (Hm : len <= INT_MAX).

Lemma type_enc : bson_iter_type it = Ret (type_of v).
Proof using Ht Hl HP Hoff.
  unfold bson_iter_type. cbn [it at_elem i_raw i_len i_type]. pose proof (zlen_nonneg P). pose proof (zlen_nonneg enc).
  replace (len =? 0) with false by lia. cbn [negb BSON_ASSERTo mbind outcome_bind]. exact Ht.
Qed.

Lemma is_enc t : ITER_IS it t = Ret (type_of v =? t).
Proof using Ht. unfold ITER_IS, ITER_TYPE, raw_of. cbn [it at_elem i_raw i_type mbind outcome_bind]. by rewrite Ht. Qed.

(** The pointer [n] bytes into the value. *)
Lemma ptr_enc n a b i : enc = a ++ b -> zlen a = n -> i = o + n -> ptr_at it i = Ret (b ++ Q).
Proof using HP.
  intros E <- ->. unfold ptr_at, raw_of. cbn [it at_elem i_raw mbind outcome_bind]. unfold data. rewrite E.
  rewrite <- app_assoc, app_assoc. apply at_off_app. rewrite zlen_app. lia.
Qed.

Lemma word_enc a x b i :
  enc = a ++ le_bytes 4 x ++ b -> 0 <= x < 2 ^ 32 -> i = o + zlen a -> rd_at 4 it i = Ret x.
Proof using HP.
  intros E Hx ->. unfold rd_at, raw_of. cbn [it at_elem i_raw mbind outcome_bind]. unfold data. rewrite E.
  rewrite <- !app_assoc, app_assoc. apply rd_word; [rewrite zlen_app; lia | done].
Qed.

Lemma string_enc s t :
  enc = string_bytes s -> d1_of v o = o -> d2_of v o = o + 4 -> type_of v = t ->
  iter_string t it = Ret (Some (s ++ 0 :: Q), zlen s).
Proof using HP Ht Hl Hm.
  intros E E1 E2 <-. unfold INT_MAX in *. pose proof (zlen_nonneg s). pose proof (zlen_nonneg P). rewrite E, zlen_string_bytes in Hl.
  unfold iter_string. rewrite is_enc, Z.eqb_refl. cbn [mbind outcome_bind].
  unfold bson_iter_utf8_len_unsafe. cbn [it at_elem i_d1 i_d2]. fold o. rewrite E1, E2. fold it.
  rewrite (word_enc [] (zlen s + 1) (s ++ [0])) by (done || lia || (change (zlen (@nil Z)) with 0; lia)). cbn [mbind outcome_bind].
  rewrite (s32_id (zlen s + 1)), s32_id, u32_id by lia.
  rewrite (ptr_enc 4 (le_bytes 4 (zlen s + 1)) (s ++ [0])) by done. cbn [mbind outcome_bind].
  rewrite <- app_assoc. do 3 f_equal. lia.
Qed.

Lemma doc_enc body t :
  enc = doc_bytes body -> d1_of v o = o -> type_of v = t ->
  iter_doc t it = Ret (zlen body + 5, Some (doc_bytes body ++ Q)).
Proof using HP Ht Hl Hm.
  intros E E1 <-. unfold INT_MAX in *. pose proof (zlen_nonneg body). pose proof (zlen_nonneg P). rewrite E, zlen_doc_bytes in Hl.
  unfold iter_doc. rewrite is_enc, Z.eqb_refl. cbn [mbind outcome_bind]. cbn [it at_elem i_d1]. fold o. rewrite E1. fold it.
  rewrite (word_enc [] (zlen body + 5) (body ++ [0])) by (done || lia || (change (zlen (@nil Z)) with 0; lia)). cbn [mbind outcome_bind].
  by rewrite (ptr_enc 0 [] (doc_bytes body)) by (done || lia).
Qed.

Lemma int64_enc n :
  enc = le_bytes 8 (u64 n) -> d1_of v o = o -> int64_range n -> bson_iter_int64_unsafe it = Ret n.
Proof using HP.
  intros E E1 Hn. unfold bson_iter_int64_unsafe, rd_at, raw_of, int64_range in *.
  cbn [it at_elem i_d1 i_raw mbind outcome_bind]. fold o. rewrite E1.
  unfold data. rewrite E, rd_double by (done || apply u64_range). cbn [mbind outcome_bind].
  by rewrite s64_u64, s64_id.
Qed.

(** A block of raw bytes. *)
Lemma block_enc a d b i n :
  enc = a ++ d ++ b -> i = o + zlen a -> n = zlen d -> (raw ← raw_of it; rdn raw i n) = Ret d.
Proof using HP.
  intros E -> ->. unfold raw_of. cbn [it at_elem i_raw mbind outcome_bind]. unfold data. rewrite E.
  rewrite <- !app_assoc, app_assoc. apply rdn_mid; [rewrite zlen_app; lia | done].
Qed.

Lemma binary_enc st d :
  v = VBinary st d -> is_byte st -> exists r, bson_iter_binary it = Ret (st, zlen d, Some (d ++ r)).
Proof using HP Ht Hl Hm.
  intros Ev Hst. unfold INT_MAX in *. pose proof (zlen_nonneg d). pose proof (zlen_nonneg P).
  assert (E1 : d1_of v o = o /\ d2_of v o = o + 4 /\ d3_of v o = o + 5) by (by rewrite Ev).
  assert (E : enc = binary_bytes st d) by (unfold enc; by rewrite Ev). destruct E1 as (E1 & E2 & E3).
  assert (Es : exists l b, enc = le_bytes 4 l ++ st :: b /\ 0 <= l < 2 ^ 32 /\
    (if st =? BSON_SUBTYPE_BINARY_DEPRECATED then l = zlen d + 4 /\ b = le_bytes 4 (zlen d) ++ d
     else l = zlen d /\ b = d)).
  { rewrite E in *. unfold binary_bytes in *. destruct (st =? _); eexists _, _; (split; [reflexivity|]);
      autorewrite with zlen in Hl; (split; [lia | done]). }
  destruct Es as (l & b & El & Hr & Hb). clear E.
  unfold bson_iter_binary. rewrite is_enc. replace (type_of v =? BSON_TYPE_BINARY) with true by (by rewrite Ev).
  cbn [mbind outcome_bind]. cbn [it at_elem i_d1 i_d2 i_d3]. fold o. rewrite E1, E2, E3. fold it.
  assert (Er : (raw ← raw_of it; rd raw (o + 4)) = Ret st).
  { unfold raw_of. cbn [it at_elem i_raw mbind outcome_bind]. unfold data. rewrite El, <- app_assoc, app_assoc.
    apply rd_mid. rewrite zlen_app, zlen_le_bytes. lia. }
  unfold raw_of in Er |- *. cbn [it at_elem i_raw mbind outcome_bind] in Er |- *. rewrite Er. cbn [mbind outcome_bind]. fold it.
  rewrite (word_enc [] l (st :: b)) by (done || (change (zlen (@nil Z)) with 0; lia)). cbn [mbind outcome_bind].
  destruct (st =? BSON_SUBTYPE_BINARY_DEPRECATED) eqn:Eb; destruct Hb as [-> ->].
  - rewrite (ptr_enc 9 ((le_bytes 4 (zlen d + 4) ++ [st]) ++ le_bytes 4 (zlen d)) d)
      by (rewrite ?zlen_app, ?zlen_le_bytes; try done; try lia; rewrite El; by rewrite <- !app_assoc).
    cbn [mbind outcome_bind]. exists Q. rewrite u32_id by lia. do 4 f_equal. lia.
  - rewrite (ptr_enc 5 (le_bytes 4 (zlen d) ++ [st]) d)
      by (rewrite ?zlen_app, ?zlen_le_bytes; try done; try lia; rewrite El; by rewrite <- !app_assoc).
    cbn [mbind outcome_bind]. by exists Q.
Qed.

Lemma dbpointer_enc c oid :
  v = VDbPointer c oid -> zlen oid = 12 ->
  exists r, bson_iter_dbpointer it = Ret (Some (c ++ 0 :: r), zlen c, Some oid).
Proof using HP Ht Hl Hm.
  intros Ev Ho. unfold INT_MAX in *. pose proof (zlen_nonneg c). pose proof (zlen_nonneg P).
  assert (E1 : d1_of v o = o /\ d2_of v o = o + 4 /\ d3_of v o = o + 4 + (zlen c + 1)) by (by rewrite Ev).
  destruct E1 as (E1 & E2 & E3).
  assert (E : enc = le_bytes 4 (zlen c + 1) ++ c ++ 0 :: oid)
    by (unfold enc; rewrite Ev; cbn [encode_value]; unfold string_bytes; by rewrite <- !app_assoc).
  rewrite E in Hl. autorewrite with zlen in Hl.
  unfold bson_iter_dbpointer. rewrite is_enc. replace (type_of v =? BSON_TYPE_DBPOINTER) with true by (by rewrite Ev).
  cbn [mbind outcome_bind]. cbn [it at_elem i_d1 i_d2 i_d3]. fold o. rewrite E1, E2, E3. fold it.
  rewrite (word_enc [] (zlen c + 1) (c ++ 0 :: oid)) by (done || lia || (change (zlen (@nil Z)) with 0; lia)).
  cbn [mbind outcome_bind]. cbn zeta. replace (zlen c + 1 >? 0) with true by lia.
  rewrite (ptr_enc 4 (le_bytes 4 (zlen c + 1)) (c ++ 0 :: oid)) by done. cbn [mbind outcome_bind].
  assert (Eb : (raw ← raw_of it; rdn raw (o + 4 + (zlen c + 1)) 12) = Ret oid).
  { apply (block_enc (le_bytes 4 (zlen c + 1) ++ c ++ [0]) oid []); [|rewrite !zlen_app, zlen_le_bytes; change (zlen [0]) with 1; lia | done].
    rewrite E, app_nil_r, <- !app_assoc. done. }
  unfold raw_of in Eb |- *. cbn [it at_elem i_raw mbind outcome_bind] in Eb |- *. rewrite Eb. cbn [mbind outcome_bind].
  exists (oid ++ Q). rewrite <- app_assoc. do 4 f_equal. lia.
Qed.

Lemma codewscope_enc js scope :
  v = VCodeWScope js scope ->
  exists r, bson_iter_codewscope it
    = Ret (Some (js ++ 0 :: r), zlen js, Some (encode_doc scope ++ Q), zlen (encode_doc scope)).
Proof using HP Ht Hl Hm.
  intros Ev. unfold INT_MAX in *. pose proof (zlen_nonneg js). pose proof (zlen_nonneg P).
  assert (E1 : d2_of v o = o + 4 /\ d3_of v o = o + 8 /\ d4_of v o = o + 8 + (zlen js + 1)) by (by rewrite Ev).
  destruct E1 as (E2 & E3 & E4).
  set (l := 4 + zlen (string_bytes js) + zlen (encode_doc scope)).
  assert (E : enc = le_bytes 4 l ++ string_bytes js ++ encode_doc scope)
    by (unfold enc; rewrite Ev; apply encode_codewscope).
  rewrite E in Hl. rewrite !zlen_app, zlen_le_bytes, zlen_string_bytes in Hl. unfold encode_doc in Hl. rewrite zlen_doc_bytes in Hl.
  pose proof (zlen_nonneg (encode_body scope)).
  unfold bson_iter_codewscope. rewrite is_enc. replace (type_of v =? BSON_TYPE_CODEWSCOPE) with true by (by rewrite Ev).
  cbn [mbind outcome_bind]. cbn [it at_elem i_d2 i_d3 i_d4]. fold o. rewrite E2, E3, E4. fold it.
  rewrite (word_enc (le_bytes 4 l) (zlen js + 1) ((js ++ [0]) ++ encode_doc scope) (o + 4))
    by (rewrite ?zlen_le_bytes; try lia; rewrite E; unfold string_bytes; by rewrite <- !app_assoc).
  cbn [mbind outcome_bind]. replace (zlen js + 1 >? 0) with true by lia. cbn [BSON_ASSERTo mbind outcome_bind].
  rewrite (word_enc (le_bytes 4 l ++ string_bytes js) (zlen (encode_doc scope)) (encode_body scope ++ [0]));
    [| rewrite E, <- app_assoc; unfold encode_doc; rewrite zlen_doc_bytes; done
     | unfold encode_doc; rewrite zlen_doc_bytes; lia | rewrite zlen_app, zlen_le_bytes, zlen_string_bytes; lia].
  cbn [mbind outcome_bind].
  rewrite (ptr_enc (4 + zlen (string_bytes js)) (le_bytes 4 l ++ string_bytes js) (encode_doc scope) (o + 8 + (zlen js + 1)));
    [| rewrite E; by rewrite <- app_assoc | by rewrite zlen_app, zlen_le_bytes | rewrite zlen_string_bytes; lia].
  cbn [mbind outcome_bind].
  rewrite (ptr_enc 8 (le_bytes 4 l ++ le_bytes 4 (zlen js + 1)) (js ++ [0] ++ encode_doc scope));
    [| rewrite E; unfold string_bytes; by rewrite <- !app_assoc | by rewrite zlen_app, !zlen_le_bytes | lia].
  cbn [mbind outcome_bind]. exists (encode_doc scope ++ Q). rewrite <- !app_assoc. cbn [app]. do 4 f_equal. do 2 f_equal. lia.
Qed.

(** Reading [n] bytes at the start of the value. *)
Lemma first_enc n x b :
  enc = le_bytes n x ++ b -> 0 <= x < 256 ^ Z.of_nat n -> rd_at (Z.of_nat n) it o = Ret x.
Proof using HP.
  intros E Hx. unfold rd_at, raw_of. cbn [it at_elem i_raw mbind outcome_bind]. unfold data. rewrite E, <- app_assoc.
  by apply rd_le_enc.
Qed.

Lemma d1_enc : d1_of v o = o -> i_d1 it = o.
Proof. done. Qed.

Lemma double_enc bits : v = VDouble bits -> uint_range 64 bits -> bson_iter_double it = Ret bits.
Proof using HP Ht.
  intros Ev Hb. unfold bson_iter_double. rewrite is_enc, Ev. cbn [mbind outcome_bind type_of]. rewrite Z.eqb_refl.
  unfold bson_iter_double_unsafe. rewrite d1_enc by (by rewrite Ev).
  apply (first_enc 8 bits []); [unfold enc; rewrite Ev; by rewrite app_nil_r | done].
Qed.

Lemma int32_enc n : v = VInt32 n -> int32_range n -> bson_iter_int32 it = Ret n.
Proof using HP Ht.
  intros Ev Hb. unfold bson_iter_int32. rewrite is_enc, Ev. cbn [mbind outcome_bind type_of]. rewrite Z.eqb_refl.
  unfold bson_iter_int32_unsafe. rewrite d1_enc by (by rewrite Ev).
  change 4 with (Z.of_nat 4). rewrite (first_enc 4 (u32 n) []); [|unfold enc; rewrite Ev; by rewrite app_nil_r | apply u32_range].
  cbn [mbind outcome_bind]. by rewrite s32_u32, s32_id.
Qed.

Lemma bool_enc b : v = VBool b -> bson_iter_bool it = Ret b.
Proof using HP Ht.
  intros Ev. unfold bson_iter_bool. rewrite is_enc, Ev. cbn [mbind outcome_bind type_of]. rewrite Z.eqb_refl.
  unfold bson_iter_bool_unsafe. rewrite d1_enc by (by rewrite Ev).
  change 1 with (Z.of_nat 1). rewrite (first_enc 1 (if b then 1 else 0) []); [|unfold enc; rewrite Ev; by destruct b | by destruct b].
  cbn [mbind outcome_bind]. by destruct b.
Qed.

Lemma oid_enc oid : v = VOid oid -> zlen oid = 12 -> bson_iter_oid it = Ret (Some oid).
Proof using HP Ht.
  intros Ev Ho. unfold bson_iter_oid. rewrite is_enc, Ev. cbn [mbind outcome_bind type_of]. rewrite Z.eqb_refl.
  unfold bson_iter_oid_unsafe. rewrite d1_enc by (by rewrite Ev).
  rewrite (block_enc [] oid []); [done | unfold enc; rewrite Ev; by rewrite app_nil_r | change (zlen (@nil Z)) with 0; lia | done].
Qed.

Lemma regex_enc r opts :
  v = VRegex r opts -> exists q, bson_iter_regex it = Ret (Some (r ++ 0 :: opts ++ 0 :: q), Some (opts ++ 0 :: q)).
Proof using HP Ht.
  intros Ev. unfold bson_iter_regex. rewrite is_enc, Ev. cbn [mbind outcome_bind type_of]. rewrite Z.eqb_refl.
  assert (E2 : i_d2 it = o + zlen r + 1) by (cbn [it at_elem i_d2]; by rewrite Ev).
  rewrite d1_enc, E2 by (by rewrite Ev).
  assert (E : enc = (r ++ [0]) ++ opts ++ [0]) by (unfold enc; by rewrite Ev).
  rewrite (ptr_enc 0 [] enc o) by (done || lia). cbn [mbind outcome_bind].
  rewrite (ptr_enc (zlen r + 1) (r ++ [0]) (opts ++ [0])) by (rewrite ?zlen_app; done || lia).
  cbn [mbind outcome_bind]. exists Q. rewrite E, <- !app_assoc. done.
Qed.

Lemma timestamp_enc t i :
  v = VTimestamp t i -> uint_range 32 t -> uint_range 32 i -> bson_iter_timestamp it = Ret (t, i).
Proof using HP Ht.
  intros Ev Hti Hi. unfold bson_iter_timestamp, uint_range in *. rewrite is_enc, Ev. cbn [mbind outcome_bind type_of].
  rewrite Z.eqb_refl, d1_enc by (by rewrite Ev).
  assert (E : enc = le_bytes 8 (t * 2 ^ 32 + i) ++ []).
  { unfold enc. rewrite Ev, app_nil_r. cbn [encode_value]. change 8%nat with (4 + 4)%nat. rewrite le_bytes_app.
    change (256 ^ Z.of_nat 4) with (2 ^ 32). rewrite Z.add_comm, Z.div_add, (Z.div_small i), Z.add_0_l by lia. f_equal.
    rewrite <- (le_bytes_mod 4 (i + _)). change (256 ^ Z.of_nat 4) with (2 ^ 32). by rewrite Z.mod_add, Z.mod_small. }
  change 8 with (Z.of_nat 8). rewrite (first_enc 8 _ _ E) by (change (256 ^ Z.of_nat 8) with (2 ^ 32 * 2 ^ 32); nia).
  cbn [mbind outcome_bind]. rewrite !(land_mask _ 0xFFFFFFFF 32), Z.shiftr_div_pow2 by done.
  rewrite (Z.add_comm _ i), Z.div_add, Z.mod_add, (Z.div_small i), (Z.mod_small i), Z.add_0_l, Z.mod_small by lia. done.
Qed.

Lemma decimal_enc low high :
  v = VDecimal128 low high -> uint_range 64 low -> uint_range 64 high ->
  bson_iter_decimal128 it = Ret (Some (mk_dec128 low high)).
Proof using HP Ht.
  intros Ev H1 H2. unfold bson_iter_decimal128, uint_range in *. rewrite is_enc, Ev. cbn [mbind outcome_bind type_of].
  rewrite Z.eqb_refl. unfold bson_iter_decimal128_unsafe. rewrite d1_enc by (by rewrite Ev).
  assert (E : enc = le_bytes 8 low ++ le_bytes 8 high) by (unfold enc; by rewrite Ev).
  assert (El : rd_at 8 it o = Ret low) by (by apply (first_enc 8 _ _ E)). rewrite El. cbn [mbind outcome_bind].
  assert (Eh : rd_at 8 it (o + 8) = Ret high).
  { unfold rd_at, raw_of. cbn [it at_elem i_raw mbind outcome_bind]. unfold data. rewrite E, <- app_assoc, app_assoc.
    apply rd_double; [rewrite zlen_app, zlen_le_bytes; lia | done]. }
  rewrite Eh. done.
Qed.

(** Leaves: every constructor but the containers. *)
Lemma read_leaf n w :
  v = w -> match w with VDocument _ | VArray _ | VCodeWScope _ _ => False | _ => True end ->
  leaf_ok w -> read_value (S n) it = Ret (Some w).
Proof using HP Ht Hoff Hl Hm.
  intros Ev Hw Hok. cbn [read_value]. rewrite type_enc. cbn [mbind outcome_bind]. rewrite Ev.
  destruct w; try done; cbn [type_of] in *; tests; try done; cbn [leaf_ok] in Hok.
  - by rewrite (double_enc _ Ev Hok).
  - unfold bson_iter_utf8. rewrite (string_enc s BSON_TYPE_UTF8) by (unfold enc; by rewrite Ev).
    cbn [mbind outcome_bind]. by rewrite take_ptr_app.
  - destruct Hok as [Hst _]. destruct (binary_enc _ _ Ev Hst) as [r ->]. cbn [mbind outcome_bind]. by rewrite take_ptr_app.
  - destruct Hok as [Ho _]. rewrite (oid_enc _ Ev Ho). cbn [mbind outcome_bind]. rewrite <- Ho.
    rewrite <- (app_nil_r oid) at 1. by rewrite take_ptr_app.
  - by rewrite (bool_enc _ Ev).
  - unfold bson_iter_date_time. rewrite is_enc, Ev. cbn [mbind outcome_bind type_of]. rewrite Z.eqb_refl.
    rewrite (int64_enc msec) by (done || (unfold enc; by rewrite Ev) || by rewrite Ev). done.
  - destruct Hok as (Hr & Ho & _). destruct (regex_enc _ _ Ev) as [q ->]. cbn [mbind outcome_bind].
    rewrite take_cstr_app by done. cbn [mbind outcome_bind]. by rewrite take_cstr_app.
  - destruct Hok as (_ & _ & Ho & _). destruct (dbpointer_enc _ _ Ev Ho) as [r ->]. cbn [mbind outcome_bind].
    rewrite take_ptr_app. cbn [mbind outcome_bind]. rewrite <- Ho. rewrite <- (app_nil_r oid) at 1. by rewrite take_ptr_app.
  - unfold bson_iter_code. rewrite (string_enc js BSON_TYPE_CODE) by (unfold enc; by rewrite Ev).
    cbn [mbind outcome_bind]. by rewrite take_ptr_app.
  - unfold bson_iter_symbol. rewrite (string_enc s BSON_TYPE_SYMBOL) by (unfold enc; by rewrite Ev).
    cbn [mbind outcome_bind]. by rewrite take_ptr_app.
  - by rewrite (int32_enc _ Ev Hok).
  - destruct Hok. by rewrite (timestamp_enc _ _ Ev).
  - unfold bson_iter_int64. rewrite is_enc, Ev. cbn [mbind outcome_bind type_of]. rewrite Z.eqb_refl.
    rewrite (int64_enc n0) by (done || (unfold enc; by rewrite Ev) || by rewrite Ev). done.
  - destruct Hok. by rewrite (decimal_enc _ _ Ev).
Qed.

Lemma recurse_enc els :
  v = VDocument els \/ v = VArray els ->
  bson_iter_recurse it = Ret (Some (iter_start (encode_doc els ++ Q) (zlen (encode_doc els)))).
Proof using HP Ht Hl Hm.
  intros Ev. unfold bson_iter_recurse, bson_iter_document, bson_iter_array, ITER_TYPE, raw_of.
  cbn [it at_elem i_raw i_type mbind outcome_bind]. rewrite Ht. cbn [mbind outcome_bind]. fold it.
  assert (E : enc = encode_doc els) by (unfold enc; destruct Ev as [-> | ->]; [apply encode_document | apply encode_array]).
  assert (E1 : d1_of v o = o) by (by destruct Ev as [-> | ->]).
  assert (El : zlen (encode_doc els) = zlen (encode_body els) + 5) by (unfold encode_doc; apply zlen_doc_bytes).
  destruct Ev as [Ev|Ev].
  - replace (type_of v) with BSON_TYPE_DOCUMENT by (by rewrite Ev). rewrite Z.eqb_refl.
    rewrite (doc_enc (encode_body els) BSON_TYPE_DOCUMENT) by (done || by rewrite Ev). cbn [mbind outcome_bind].
    by rewrite El.
  - replace (type_of v) with BSON_TYPE_ARRAY by (by rewrite Ev).
    change (BSON_TYPE_ARRAY =? BSON_TYPE_DOCUMENT) with false. rewrite Z.eqb_refl.
    rewrite (doc_enc (encode_body els) BSON_TYPE_ARRAY) by (done || by rewrite Ev). cbn [mbind outcome_bind].
    by rewrite El.
Qed.

(** Containers, given that the reader inverts the encoding of the elements. *)
Lemma read_container n els :
  v = VDocument els \/ v = VArray els ->
  read_elems n (iter_start (encode_doc els ++ Q) (zlen (encode_doc els))) = Ret (Some els) ->
  read_value (S n) it = Ret (Some v).
Proof using HP Ht Hoff Hl Hm.
  intros Ev Hr. cbn [read_value]. rewrite type_enc, (recurse_enc els Ev). cbn [mbind outcome_bind].
  destruct Ev as [Ev|Ev].
  - replace (type_of v) with BSON_TYPE_DOCUMENT by (by rewrite Ev). tests. rewrite Hr. cbn. by rewrite Ev.
  - replace (type_of v) with BSON_TYPE_ARRAY by (by rewrite Ev). tests. rewrite Hr. cbn. by rewrite Ev.
Qed.

Lemma read_scope n js els :
  v = VCodeWScope js els ->
  read_elems n (iter_start (encode_doc els ++ Q) (zlen (encode_doc els))) = Ret (Some els) ->
  read_value (S n) it = Ret (Some v).
Proof using HP Ht Hoff Hl Hm.
  intros Ev Hr. cbn [read_value]. rewrite type_enc. cbn [mbind outcome_bind].
  replace (type_of v) with BSON_TYPE_CODEWSCOPE by (by rewrite Ev). tests.
  destruct (codewscope_enc js els Ev) as [r ->]. cbn [mbind outcome_bind]. rewrite take_ptr_app. cbn [mbind outcome_bind].
  unfold encode_doc at 1 2. rewrite init_from_data_doc.
  - cbn [mbind outcome_bind]. fold (encode_doc els). rewrite Hr. cbn. by rewrite Ev.
  - fold (encode_doc els). unfold enc in Hl. rewrite Ev, encode_codewscope, !zlen_app, zlen_le_bytes in Hl.
    pose proof (zlen_nonneg (string_bytes js)). pose proof (zlen_nonneg P). lia.
Qed.
End Access.

(** ** Whole documents *)

(** The reader inverts the encoding of [els] wherever it stands. *)
Definition reads (els : list (bytes * value)) : Prop :=
  forall n it p Q,
  i_raw it = Some (p ++ encode_body els ++ 0 :: Q) -> i_next_off it = zlen p -> 4 <= zlen p ->
  i_len it = zlen p + zlen (encode_body els) + 1 -> i_len it <= INT_MAX -> i_err_off it = 0 ->
  zlen (encode_body els) < Z.of_nat n -> read_elems n it = Ret (Some els).

(** The reader started on a whole document. *)
Lemma reads_doc els n Q :
  reads els -> zlen (encode_doc els) <= INT_MAX -> zlen (encode_body els) < Z.of_nat n ->
  read_elems n (iter_start (encode_doc els ++ Q) (zlen (encode_doc els))) = Ret (Some els).
Proof.
  intros H Hm Hn. unfold encode_doc, doc_bytes in *.
  apply (H n _ (le_bytes 4 (zlen (encode_body els) + 5)) Q); cbn [iter_start i_raw i_next_off i_len i_err_off]; try done.
  - by rewrite <- !app_assoc.
  - rewrite !zlen_app, zlen_le_bytes. change (zlen [0]) with 1. lia.
Qed.

Definition readable (v : value) : Prop :=
  match v with VDocument els | VArray els | VCodeWScope _ els => reads els | _ => True end.

Lemma read_value_enc n P Q len off k v :
  let data := P ++ encode_value v ++ Q in
  zlen P = off + 2 + zlen k -> rd data off = Ret (type_of v) -> 0 <= off ->
  zlen P + zlen (encode_value v) < len -> len <= INT_MAX ->
  value_ok v -> readable v -> zlen (encode_value v) < Z.of_nat n ->
  read_value n (at_elem data len off k v) = Ret (Some v).
Proof.
  intros data HP Ht Hoff Hl Hm Hok Hre Hn. subst data. rewrite HP in Hl.
  destruct n as [|n]; [pose proof (zlen_nonneg (encode_value v)); lia|].
  assert (Hc : forall els, reads els -> zlen (encode_doc els) <= zlen (encode_value v) ->
    read_elems n (iter_start (encode_doc els ++ Q) (zlen (encode_doc els))) = Ret (Some els)).
  { intros els Hels Hle. pose proof (zlen_nonneg P). apply reads_doc; [done | lia|].
    unfold encode_doc in Hle. rewrite zlen_doc_bytes in Hle. lia. }
  destruct Hok as [v Hv Hleaf|els He|els He|js els Hleaf He].
  - by eapply read_leaf.
  - eapply read_container; try done; [by left|]. apply Hc; [done|]. rewrite encode_document. lia.
  - eapply read_container; try done; [by right|]. apply Hc; [done|]. rewrite encode_array. lia.
  - eapply read_scope; try done. apply Hc; [done|].
    rewrite encode_codewscope, !zlen_app. pose proof (zlen_nonneg (string_bytes js)). rewrite zlen_le_bytes. lia.
Qed.

Lemma step_ok_value v : value_ok v -> step_ok v.
Proof. intros [w Hw Hl| | | ]; [|done..]. destruct w; try done; cbn in Hl |- *; tauto. Qed.

Lemma reads_nil : reads [].
Proof.
  intros n it p Q Hr Hn Hp Hl Hm He Hf.
  change (encode_body []) with (@nil Z) in *. change (zlen (@nil Z)) with 0 in *. cbn [app] in *.
  destruct n as [|n]; [lia|]. cbn [read_elems].
  destruct (next_eod it p 0 Q Hr Hn ltac:(lia) ltac:(lia)) as (r & E & Eo & Ee).
  unfold bson_iter_next. rewrite E. cbn [mbind outcome_bind]. rewrite Eo, Ee, He. done.
Qed.

Lemma reads_cons k v els :
  key_wf k -> value_ok v -> readable v -> reads els -> reads ((k, v) :: els).
Proof.
  intros [Hk _] Hv Hre Hels n it p Q Hr Hn Hp Hl Hm He Hf.
  rewrite encode_body_cons in *. rewrite zlen_app in *. rewrite <- app_assoc in Hr.
  set (rest := encode_body els ++ 0 :: Q) in *.
  pose proof (zlen_nonneg (encode_body els)). pose proof (zlen_nonneg Q).
  assert (Lel : zlen (encode_elem (k, v)) = zlen k + 2 + zlen (encode_value v))
    by (unfold encode_elem; rewrite zlen_app, zlen_elem_hdr; done).
  pose proof (zlen_nonneg k). pose proof (zlen_nonneg (encode_value v)).
  destruct n as [|n]; [lia|]. cbn [read_elems]. unfold bson_iter_next.
  rewrite (next_enc it p k v rest) by
    (done || lia || (by apply step_ok_value) || (unfold rest; rewrite !zlen_app, zlen_cons; lia)).
  cbn [mbind outcome_bind n_ok n_iter]. set (data := p ++ encode_elem (k, v) ++ rest) in *.
  set (P := p ++ elem_hdr (type_of v) k).
  assert (Ed : data = P ++ encode_value v ++ rest)
    by (unfold data, P, encode_elem; cbn [fst snd]; by rewrite <- !app_assoc).
  pose proof (key_enc p k v rest (i_len it)) as Ek. fold data in Ek. rewrite Ek. cbn [mbind outcome_bind]. rewrite take_cstr_app by done. cbn [mbind outcome_bind].
  rewrite Ed at 1. rewrite (read_value_enc n P rest (i_len it) (zlen p) k v);
    [| unfold P; rewrite zlen_app, zlen_elem_hdr; lia | | lia | unfold P; rewrite zlen_app, zlen_elem_hdr; lia
     | done | done | done | lia].
  - cbn [mbind outcome_bind]. rewrite (Hels n _ (p ++ encode_elem (k, v)) Q); cbn [at_elem i_raw i_next_off i_len i_err_off]; try done.
    + unfold data, rest. by rewrite <- app_assoc.
    + rewrite zlen_app. lia.
    + rewrite zlen_app. lia.
    + rewrite zlen_app. lia.
    + lia.
  - rewrite <- Ed. unfold data, encode_elem, elem_hdr. cbn [fst snd app]. by apply rd_mid.
Qed.

Definition inverted (v : value) : Prop := value_ok v -> readable v.

Lemma reads_list els : Forall (fun kv => inverted kv.2) els -> elems_ok els -> reads els.
Proof.
  induction 1 as [|[k v] els Hv _ IH]; intros Hok; [apply reads_nil|]. inversion_clear Hok.
  apply reads_cons; auto.
Qed.

Lemma all_inverted v : inverted v.
Proof.
  revert v. apply (value_ind' inverted); [intros els IH | intros els IH | intros js els IH | intros v].
  - intros Hok. inversion_clear Hok; [done|]. by apply reads_list.
  - intros Hok. inversion_clear Hok; [done|]. by apply reads_list.
  - intros Hok. inversion_clear Hok; [done|]. by apply reads_list.
  - by destruct v.
Qed.

Lemma reads_elems els : elems_ok els -> reads els.
Proof. intros. apply reads_list; [|done]. apply Forall_forall. intros. apply all_inverted. Qed.

Lemma read_doc_encode els Q :
  elems_ok els -> zlen (encode_doc els) <= INT_MAX ->
  read_doc (encode_doc els ++ Q) (zlen (encode_doc els)) = Ret (Some els).
Proof.
  intros Hok Hm. unfold read_doc. unfold encode_doc at 1 2. rewrite init_from_data_doc by done.
  cbn [mbind outcome_bind]. fold (encode_doc els). apply reads_doc; [by apply reads_elems | done|].
  unfold encode_doc. rewrite zlen_doc_bytes. lia.
Qed.

(** * Properties *)

(** Reading is the inverse of encoding.  For every well-formed tree of
    values (regular expressions included), [bson_iter_init_from_data] accepts
    its encoding, and walking over it with [bson_iter_next],
    [bson_iter_recurse] and the accessors returns exactly the keys and values
    that were encoded, whatever bytes follow the document. *)
Theorem decode_encode els Q :
  elems_ok els -> zlen (encode_doc els) <= INT_MAX ->
  read_doc (encode_doc els ++ Q) (zlen (encode_doc els)) = Ret (Some els).
Proof. apply read_doc_encode. Qed.

Lemma decode_encode_witness :
  read_doc (encode_doc sample ++ [255; -1]) (zlen (encode_doc sample)) = Ret (Some sample).
Proof. apply decode_encode; [apply sample_elems_ok | vm_compute; discriminate]. Defined.

(** C3: Writing a document through the append functions and reading it back
    with the iterator returns the document.  The document is well-formed, has at
    most 2^30 bytes and no regular expressions: [bson_append_regex] can write past
    its buffer ([append_regex_overflow]). *)
Theorem build_read_roundtrip els b m :
  elems_ok els -> no_regexes els -> zlen (encode_doc els) <= 2 ^ 30 ->
  exists m' data, (bson_init b;; build b els) m = Ret (m', true) /\ bson_get_data b m' = Ret (m', data) /\
    read_doc data (zlen (encode_doc els)) = Ret (Some els).
Proof.
  intros Hok Hre Hsz. destruct (init_rep m b) as (m1 & o & s & E1 & R & W & G & Ho & Hd & _ & _).
  destruct (builds_elems els b Hok Hre m1 o [] [] s R W G) as (m2 & o2 & s2 & x & E2 & <- & R2 & _ & _); [lia | |].
  { unfold encode_doc in Hsz. rewrite zlen_doc_bytes in Hsz. change (zlen (@nil Z)) with 0. lia. }
  exists m2, (encode_doc els ++ s2). rewrite (run_bind _ _ _ _ _ E1). split; [done|].
  split; [apply (get_data_spec _ _ _ _ _ _ R2)|]. apply read_doc_encode; [done | unfold INT_MAX; lia].
Qed.

Lemma build_read_roundtrip_witness :
  exists m' data, (bson_init 1;; build 1 sample) (mk_mem ∅ ∅) = Ret (m', true) /\
    bson_get_data 1 m' = Ret (m', data) /\ read_doc data (zlen (encode_doc sample)) = Ret (Some sample).
Proof. apply build_read_roundtrip; [apply sample_elems_ok | apply sample_no_regexes | vm_compute; discriminate]. Defined.
