(* ===== verification/Find.v ===== *)
(** * Searching a document by key (bson-iter.c, bson.c)

    The loops [while (bson_iter_next (iter))] are fuel-bounded; the fuel is
    the length of the document, which is enough because every step advances
    the iterator ([next_wf]). *)
From S2P Require Import Prelude Memory Strings Format Document Append Lifecycle Build Iter IterSafe RoundTrip.

(** ** Operations *)

(** [strncmp (s1, s2, n) == 0] *)
Fixpoint strncmp_eq (s1 s2 : bytes) (n : nat) {struct n} : outcome bool :=
  match n with
  | O => Ret true
  | S n =>
    match s1, s2 with
    | x :: s1, y :: s2 =>
      if negb (x =? y) then Ret false else if x =? 0 then Ret true else strncmp_eq s1 s2 n
    | _, _ => Oob
    end
  end.

(** [while (bson_iter_next (iter)) if (test (bson_iter_key (iter))) return true;] *)
Fixpoint find_loop (test : bytes -> outcome bool) (fuel : nat) (it : bson_iter_t) : outcome (bool * bson_iter_t) :=
  match fuel with
  | O => Fuel
  | S fuel =>
    '(ok, it) ← bson_iter_next it;
    if (ok : bool) then
      ikey ← bson_iter_key it;
      found ← test ikey;
      if (found : bool) then Ret (true, it) else find_loop test fuel it
    else Ret (false, it)
  end.

Definition iter_fuel (it : bson_iter_t) : nat := S (Z.to_nat (i_len it)).

(** [(0 == strncmp (key, ikey, keylen)) && (ikey[keylen] == '\0')] *)
Definition key_matches (key : bytes) (keylen : Z) (ikey : bytes) : outcome bool :=
  same ← strncmp_eq key ikey (Z.to_nat keylen);
  if (same : bool) then c ← rd ikey keylen; Ret (c =? 0) else Ret false.

Definition _bson_iter_find_with_len (it : bson_iter_t) (key : bytes) (keylen : Z) : outcome (bool * bson_iter_t) :=
  if keylen =? 0 then Ret (false, it)
  else
    keylen ← (if keylen <? 0 then n ← strlen key; Ret (s32 n) else Ret keylen);
    find_loop (key_matches key keylen) (iter_fuel it) it.

Definition bson_iter_find (it : bson_iter_t) (key : bytes) : outcome (bool * bson_iter_t) :=
  _bson_iter_find_with_len it key (-1).

(** [tolower] in the C locale. *)
Definition tolower (c : Z) : Z := if (65 <=? c) && (c <=? 90) then c + 32 else c.

(** [strcasecmp (s1, s2) == 0] *)
Fixpoint bson_strcasecmp_eq (s1 s2 : bytes) : outcome bool :=
  match s1, s2 with
  | x :: s1, y :: s2 =>
    if negb (tolower x =? tolower y) then Ret false else if x =? 0 then Ret true else bson_strcasecmp_eq s1 s2
  | _, _ => Oob
  end.

Definition bson_iter_find_case (it : bson_iter_t) (key : bytes) : outcome (bool * bson_iter_t) :=
  find_loop (bson_strcasecmp_eq key) (iter_fuel it) it.

Definition bson_iter_init_find (b : Z) (key : bytes) : M (bool * bson_iter_t) :=
  '(ok, it) ← bson_iter_init b;
  if (ok : bool) then lift (bson_iter_find it key) else mret (false, it).

Definition bson_iter_init_find_case (b : Z) (key : bytes) : M (bool * bson_iter_t) :=
  '(ok, it) ← bson_iter_init b;
  if (ok : bool) then lift (bson_iter_find_case it key) else mret (false, it).

(** [strchr (s, c)] as an offset. *)
Fixpoint strchr_off (s : bytes) (c : Z) : outcome (option Z) :=
  match s with
  | [] => Oob
  | x :: s => if x =? c then Ret (Some 0) else if x =? 0 then Ret None
              else r ← strchr_off s c; Ret (option_map (Z.add 1) r)
  end.

(** The iterator, and the descendant when it is found. *)
Fixpoint find_descendant_loop (fuel : nat) (it : bson_iter_t) (dotkey : bytes) :
    outcome (bson_iter_t * option bson_iter_t) :=
  match fuel with
  | O => Fuel
  | S fuel =>
    dot ← strchr_off dotkey 46;
    sublen ← match dot with Some n => Ret n | None => strlen dotkey end;
    '(found, it) ← _bson_iter_find_with_len it dotkey (s32 sublen);
    if (found : bool) then
      match dot with
      | None => Ret (it, Some it)
      | Some dot =>
        t ← bson_iter_type it;
        if (t =? BSON_TYPE_DOCUMENT) || (t =? BSON_TYPE_ARRAY) then
          child ← bson_iter_recurse it;
          match child with
          | Some tmp =>
            rest ← at_off dotkey (dot + 1);
            '(_, d) ← find_descendant_loop fuel tmp rest;
            Ret (it, d)
          | None => Ret (it, None)
          end
        else Ret (it, None)
      end
    else Ret (it, None)
  end.

Definition bson_iter_find_descendant (it : bson_iter_t) (dotkey : bytes) :
    outcome (bson_iter_t * option bson_iter_t) :=
  find_descendant_loop (S (length dotkey)) it dotkey.

Fixpoint count_loop (fuel : nat) (it : bson_iter_t) (count : Z) : outcome Z :=
  match fuel with
  | O => Fuel
  | S fuel =>
    '(ok, it) ← bson_iter_next it;
    if (ok : bool) then count_loop fuel it (u32 (count + 1)) else Ret count
  end.

Definition bson_count_keys (b : Z) : M Z :=
  '(ok, it) ← bson_iter_init b;
  if (ok : bool) then lift (count_loop (iter_fuel it) it 0) else mret 0.

Definition bson_has_field (b : Z) (key : bytes) : M bool :=
  dot ← lift (strchr_off key 46);
  match dot with
  | Some _ =>
    '(ok, it) ← bson_iter_init b;
    if (ok : bool) then '(_, d) ← lift (bson_iter_find_descendant it key); mret (bool_decide (is_Some d))
    else mret false
  | None => '(found, _) ← bson_iter_init_find b key; mret found
  end.

(** * Proofs *)

(** ** Termination on arbitrary input *)

(** The bytes left to the iterator. *)
Definition measure (it : bson_iter_t) : Z := i_len it - i_next_off it.

Lemma next_measure it data r :
  iter_wf it data -> _bson_iter_next_internal it = Ret r -> n_ok r = true ->
  iter_wf (n_iter r) data /\ 0 < measure (n_iter r) <= measure it - 2.
Proof.
  intros W E Hok. destruct (next_wf it data W) as [(r' & E' & Hs & _)|[E' _]]; rewrite E in E'; [|done].
  injection E' as <-. destruct (Hs Hok) as [o S]. split; [apply (st_wf _ _ _ _ S)|].
  pose proof (st_len _ _ _ _ S). pose proof (st_o _ _ _ _ S). pose proof (st_next _ _ _ _ S). unfold measure. lia.
Qed.

Lemma next_not_fuel it data : iter_wf it data -> _bson_iter_next_internal it <> Fuel.
Proof. intros W. destruct (next_wf it data W) as [(r & -> & _)|[-> _]]; done. Qed.

Lemma find_loop_terminates test : (forall k, test k <> Fuel) -> forall fuel it data,
  iter_wf it data -> measure it < Z.of_nat fuel -> 0 < Z.of_nat fuel -> find_loop test fuel it <> Fuel.
Proof.
  intros Ht. induction fuel as [|fuel IH]; intros it data W Hm H0; [lia|]. cbn [find_loop]. unfold bson_iter_next.
  destruct (_bson_iter_next_internal it) as [r| | |] eqn:E; cbn [mbind outcome_bind]; try done;
    [|by destruct (next_not_fuel it data W)].
  destruct (n_ok r) eqn:Hok; [|done]. destruct (next_measure it data r W E Hok) as [W' Hm'].
  destruct (bson_iter_key (n_iter r)) as [k| | |] eqn:Ek; cbn [mbind outcome_bind]; try done.
  - destruct (test k) as [b| | |] eqn:Et; cbn [mbind outcome_bind]; try done; [|by apply Ht in Et].
    destruct b; [done|]. apply (IH _ data); [done | lia | lia].
  - exfalso. revert Ek. unfold bson_iter_key, bson_iter_key_unsafe, raw_of. rewrite (wf_raw _ _ W').
    cbn [mbind outcome_bind]. unfold at_off, rdn. by case_match.
Qed.

Lemma count_loop_terminates fuel : forall it data c,
  iter_wf it data -> measure it < Z.of_nat fuel -> 0 < Z.of_nat fuel -> count_loop fuel it c <> Fuel.
Proof.
  induction fuel as [|fuel IH]; intros it data c W Hm H0; [lia|]. cbn [count_loop]. unfold bson_iter_next.
  destruct (_bson_iter_next_internal it) as [r| | |] eqn:E; cbn [mbind outcome_bind]; try done;
    [|by destruct (next_not_fuel it data W)].
  destruct (n_ok r) eqn:Hok; [|done]. destruct (next_measure it data r W E Hok) as [W' Hm'].
  apply (IH _ data); [done | lia | lia].
Qed.

Lemma strlen_not_fuel s : strlen s <> Fuel.
Proof. induction s as [|c s IH]; [done|]. cbn. destruct (c =? 0); [done|]. by destruct (strlen s). Qed.

Lemma key_matches_not_fuel key n k : key_matches key n k <> Fuel.
Proof.
  unfold key_matches.
  assert (Hs : forall n a b, strncmp_eq a b n <> Fuel).
  { induction n0 as [|n0 IH]; intros [|x a] [|y b]; cbn; try done. destruct (negb (x =? y)), (x =? 0); done || apply IH. }
  specialize (Hs (Z.to_nat n) key k). destruct (strncmp_eq key k (Z.to_nat n)) as [[]| | |]; cbn; try done.
  unfold rd. destruct (n <? 0); [done|]. by destruct (k !! Z.to_nat n).
Qed.

(** ** Searching an encoded document *)

(** The first element whose key passes the test. *)
Definition first_match (tb : bytes -> bool) (els : list (bytes * value)) : option (bytes * value) :=
  List.find (fun kv => tb kv.1) els.

(** Where a search over the elements [els] ends. *)
Definition found_at (r : outcome (bool * bson_iter_t)) (data : bytes) (len : Z) (m : option (bytes * value)) : Prop :=
  match m with
  | None => exists it', r = Ret (false, it')
  | Some (k, v) => exists p Q, 4 <= zlen p /\ data = p ++ encode_elem (k, v) ++ Q /\
      zlen p + zlen (encode_elem (k, v)) < len /\ r = Ret (true, at_elem data len (zlen p) k v)
  end.

Lemma find_loop_enc test tb els :
  (forall k rest, no_nul k -> test (k ++ 0 :: rest) = Ret (tb k)) -> elems_ok els ->
  forall n it p Q, let data := p ++ encode_body els ++ 0 :: Q in
  i_raw it = Some data -> i_next_off it = zlen p -> 4 <= zlen p ->
  i_len it = zlen p + zlen (encode_body els) + 1 -> i_len it <= INT_MAX ->
  zlen (encode_body els) < Z.of_nat n -> found_at (find_loop test n it) data (i_len it) (first_match tb els).
Proof.
  intros Ht. induction els as [|[k v] els IH]; intros Hok n it p Q data Hr Hn Hp Hl Hm Hf; subst data;
    (destruct n as [|n]; [match type of Hf with zlen ?l < _ => pose proof (zlen_nonneg l) end; lia|]);
    cbn [find_loop]; unfold bson_iter_next.
  { change (encode_body []) with (@nil Z) in *. change (zlen (@nil Z)) with 0 in *. cbn [app] in *.
    destruct (next_eod it p 0 Q Hr Hn ltac:(lia) ltac:(lia)) as (r & -> & Eo & _). cbn [mbind outcome_bind]. rewrite Eo.
    cbn. eauto. }
  inversion_clear Hok as [|? ? ? [Hk _] Hv Hels].
  rewrite encode_body_cons in *. rewrite zlen_app in *. rewrite <- app_assoc in *.
  set (rest := encode_body els ++ 0 :: Q) in *. pose proof (zlen_nonneg (encode_body els)). pose proof (zlen_nonneg Q).
  assert (Lel : 2 <= zlen (encode_elem (k, v))).
  { unfold encode_elem. rewrite zlen_app, zlen_elem_hdr. cbn [fst snd]. pose proof (zlen_nonneg k).
    pose proof (zlen_nonneg (encode_value v)). lia. }
  rewrite (next_enc it p k v rest) by
    (done || lia || (by apply step_ok_value) || (unfold rest; rewrite !zlen_app, zlen_cons; lia)).
  cbn [mbind outcome_bind n_ok n_iter]. set (data := p ++ encode_elem (k, v) ++ rest) in *.
  pose proof (key_enc p k v rest (i_len it)) as Ek. fold data in Ek. rewrite Ek. cbn [mbind outcome_bind]. rewrite Ht by done. cbn [mbind outcome_bind].
  unfold first_match. cbn [List.find fst]. destruct (tb k).
  - exists p, rest. split; [done|]. split; [done|]. split; [lia | done].
  - specialize (IH Hels n (at_elem data (i_len it) (zlen p) k v) (p ++ encode_elem (k, v)) Q).
    cbn zeta in IH. rewrite <- !app_assoc in IH. fold rest in IH. fold data in IH.
    apply IH; cbn [at_elem i_raw i_next_off i_len]; try done; try lia.
    + rewrite zlen_app. unfold encode_elem. rewrite zlen_app, zlen_elem_hdr. cbn [fst snd]. lia.
    + rewrite zlen_app. lia.
    + rewrite zlen_app. lia.
Qed.

Lemma strncmp_eq_prefix key : forall k rest rest',
  no_nul key -> no_nul k ->
  strncmp_eq (key ++ rest) (k ++ 0 :: rest') (length key) = Ret (bool_decide (key `prefix_of` k)).
Proof.
  induction key as [|x key IH]; intros k rest rest' Hk Hk'; cbn [strncmp_eq app length].
  - by rewrite bool_decide_eq_true_2 by apply prefix_nil.
  - inversion_clear Hk. destruct k as [|y k]; cbn [app].
    + replace (x =? 0) with false by lia. by rewrite bool_decide_eq_false_2 by apply prefix_nil_not.
    + inversion_clear Hk'. destruct (x =? y) eqn:E; cbn [negb]; bool_hyps.
      * subst y. replace (x =? 0) with false by lia. rewrite IH by done. f_equal. apply bool_decide_ext.
        split; [apply prefix_cons | apply prefix_cons_inv_2].
      * rewrite bool_decide_eq_false_2; [done|]. intros Hp. by apply prefix_cons_inv_1 in Hp.
Qed.

(** The comparison of [_bson_iter_find_with_len] is equality of keys. *)
Lemma key_matches_spec key k rest rest' :
  no_nul key -> no_nul k ->
  key_matches (key ++ rest) (zlen key) (k ++ 0 :: rest') = Ret (bool_decide (key = k)).
Proof.
  intros Hk Hk'. unfold key_matches. replace (Z.to_nat (zlen key)) with (length key) by (unfold zlen; lia).
  rewrite strncmp_eq_prefix by done. cbn [mbind outcome_bind].
  case_bool_decide as Hp; [|rewrite bool_decide_eq_false_2; [done | by intros ->; destruct Hp]].
  destruct Hp as [s ->]. destruct s as [|c s].
  - rewrite app_nil_r, rd_mid by done. cbn [mbind outcome_bind]. by rewrite bool_decide_eq_true_2 by done.
  - rewrite <- app_assoc. cbn [app]. rewrite rd_mid by done. cbn [mbind outcome_bind].
    apply Forall_app in Hk' as [_ Hc]. inversion_clear Hc. rewrite (proj2 (Z.eqb_neq c 0)) by done.
    rewrite bool_decide_eq_false_2; [done|]. intros E. apply (f_equal length) in E. rewrite length_app in E. simpl in E. lia.
Qed.

Definition named (key : bytes) (els : list (bytes * value)) : option (bytes * value) :=
  first_match (fun k => bool_decide (key = k)) els.

(** Starting on a whole document. *)
Lemma find_with_len_enc els key rest Q :
  elems_ok els -> no_nul key -> key <> [] -> zlen key < 2 ^ 31 -> zlen (encode_doc els) <= INT_MAX ->
  found_at (_bson_iter_find_with_len (iter_start (encode_doc els ++ Q) (zlen (encode_doc els))) (key ++ rest) (zlen key))
    (encode_doc els ++ Q) (zlen (encode_doc els)) (named key els).
Proof.
  intros Hok Hk Hne Hlen Hm. unfold _bson_iter_find_with_len.
  assert (0 < zlen key) by (destruct key; [done | rewrite zlen_cons; pose proof (zlen_nonneg key); lia]).
  replace (zlen key =? 0) with false by lia. replace (zlen key <? 0) with false by lia. cbn [mbind outcome_bind].
  assert (E : encode_doc els ++ Q = le_bytes 4 (zlen (encode_body els) + 5) ++ encode_body els ++ 0 :: Q)
    by (unfold encode_doc, doc_bytes; by rewrite <- !app_assoc).
  assert (El : zlen (encode_doc els) = zlen (encode_body els) + 5) by (unfold encode_doc; apply zlen_doc_bytes).
  rewrite E. unfold named.
  apply (find_loop_enc _ (fun k => bool_decide (key = k)) els); cbn [iter_start i_raw i_next_off i_len]; try done.
  - intros k rest' Hnk. by apply key_matches_spec.
  - rewrite El, zlen_le_bytes. lia.
  - unfold iter_fuel. cbn [iter_start i_len]. rewrite El. pose proof (zlen_nonneg (encode_body els)). lia.
Qed.

Lemma first_match_ok tb els k v :
  elems_ok els -> first_match tb els = Some (k, v) -> key_wf k /\ value_ok v /\ tb k = true.
Proof.
  induction 1 as [|k' v' els Hk Hv Hels IH]; [done|]. unfold first_match. cbn [List.find fst].
  destruct (tb k') eqn:E; [intros; by simplify_eq | apply IH].
Qed.

(** The value under a found iterator can be read. *)
Lemma read_found data len p k v Q n :
  data = p ++ encode_elem (k, v) ++ Q -> 4 <= zlen p -> zlen p + zlen (encode_elem (k, v)) < len -> len <= INT_MAX ->
  value_ok v -> len <= Z.of_nat n ->
  read_value n (at_elem data len (zlen p) k v) = Ret (Some v).
Proof.
  intros -> Hp Hl Hm Hv Hn. set (P := p ++ elem_hdr (type_of v) k).
  assert (Lel : zlen (encode_elem (k, v)) = zlen k + 2 + zlen (encode_value v))
    by (unfold encode_elem; rewrite zlen_app, zlen_elem_hdr; done).
  pose proof (zlen_nonneg k).
  assert (Ed : p ++ encode_elem (k, v) ++ Q = P ++ encode_value v ++ Q)
    by (unfold P, encode_elem; cbn [fst snd]; by rewrite <- !app_assoc).
  assert (LP : zlen P = zlen p + 2 + zlen k) by (unfold P; rewrite zlen_app, zlen_elem_hdr; lia).
  rewrite Ed. apply read_value_enc; [done | | lia | lia | done | done | by apply all_inverted | lia].
  rewrite <- Ed. unfold encode_elem, elem_hdr. cbn [fst snd app]. by apply rd_mid.
Qed.

(** ** Dotted paths *)

(** The value at the end of a path of keys. *)
Fixpoint lookup_path (els : list (bytes * value)) (path : list bytes) : option value :=
  match path with
  | [] => None
  | k :: path =>
    match named k els with
    | None => None
    | Some (_, v) =>
      match path with
      | [] => Some v
      | _ => match v with VDocument els | VArray els => lookup_path els path | _ => None end
      end
    end
  end.

(** "k1.k2...kn" followed by its terminator. *)
Fixpoint dotted (path : list bytes) (rest : bytes) : bytes :=
  match path with
  | [] => 0 :: rest
  | [k] => k ++ 0 :: rest
  | k :: path => k ++ 46 :: dotted path rest
  end.

Definition path_key (k : bytes) : Prop :=
  k <> [] /\ no_nul k /\ Forall (fun c => c <> 46) k /\ zlen k < 2 ^ 31.

Lemma strchr_off_dot k r :
  no_nul k -> Forall (fun c => c <> 46) k ->
  strchr_off (k ++ 46 :: r) 46 = Ret (Some (zlen k)) /\ strchr_off (k ++ 0 :: r) 46 = Ret None.
Proof.
  intros Hn Hd. induction Hn as [|c k Hc Hn IH]; [done|]. inversion_clear Hd. cbn [app strchr_off].
  replace (c =? 46) with false by lia. replace (c =? 0) with false by lia.
  destruct IH as [-> ->]; [done|]. cbn. by rewrite zlen_cons.
Qed.

(** The last iterator that [bson_iter_find_descendant] returns, read. *)
Definition descendant_is (r : outcome (bson_iter_t * option bson_iter_t)) (n : nat) (v : option value) : Prop :=
  exists it d, r = Ret (it, d) /\
    match v, d with
    | Some v, Some d => read_value n d = Ret (Some v)
    | None, None => True
    | _, _ => False
    end.

Lemma type_at_elem data len p k v Q :
  data = p ++ encode_elem (k, v) ++ Q -> len <> 0 -> bson_iter_type (at_elem data len (zlen p) k v) = Ret (type_of v).
Proof.
  intros -> Hl. unfold bson_iter_type. cbn [at_elem i_raw i_len i_type]. replace (len =? 0) with false by lia.
  cbn [negb BSON_ASSERTo mbind outcome_bind]. unfold encode_elem, elem_hdr. cbn [fst snd app]. by apply rd_mid.
Qed.

Lemma recurse_at_elem data len p k v Q els :
  data = p ++ encode_elem (k, v) ++ Q -> 4 <= zlen p -> zlen p + zlen (encode_elem (k, v)) < len -> len <= INT_MAX ->
  v = VDocument els \/ v = VArray els ->
  bson_iter_recurse (at_elem data len (zlen p) k v)
    = Ret (Some (iter_start (encode_doc els ++ Q) (zlen (encode_doc els)))).
Proof.
  intros -> Hp Hl Hm Hv. set (P := p ++ elem_hdr (type_of v) k).
  assert (Lel : zlen (encode_elem (k, v)) = zlen k + 2 + zlen (encode_value v))
    by (unfold encode_elem; rewrite zlen_app, zlen_elem_hdr; done).
  assert (Ed : p ++ encode_elem (k, v) ++ Q = P ++ encode_value v ++ Q)
    by (unfold P, encode_elem; cbn [fst snd]; by rewrite <- !app_assoc).
  rewrite Ed. apply recurse_enc; [unfold P; rewrite zlen_app, zlen_elem_hdr; lia | | lia | done | done].
  rewrite <- Ed. unfold encode_elem, elem_hdr. cbn [fst snd app]. by apply rd_mid.
Qed.

Lemma value_ok_els v els : value_ok v -> v = VDocument els \/ v = VArray els -> elems_ok els.
Proof. intros Hv [-> | ->]; by inversion Hv. Qed.

(** One component of the path, found or not. *)
Lemma find_component els k r Q :
  elems_ok els -> path_key k -> zlen (encode_doc els) <= INT_MAX ->
  found_at (_bson_iter_find_with_len (iter_start (encode_doc els ++ Q) (zlen (encode_doc els))) (k ++ r) (s32 (zlen k)))
    (encode_doc els ++ Q) (zlen (encode_doc els)) (named k els).
Proof.
  intros Hok (Hne & Hnn & Hnd & Hl) Hm. pose proof (zlen_nonneg k). rewrite s32_id by lia.
  by apply find_with_len_enc.
Qed.

Lemma find_descendant_enc path : forall els Q fuel rest n,
  elems_ok els -> Forall path_key path -> path <> [] -> zlen (encode_doc els) <= INT_MAX ->
  (length path <= fuel)%nat -> zlen (encode_doc els) <= Z.of_nat n ->
  descendant_is (find_descendant_loop fuel (iter_start (encode_doc els ++ Q) (zlen (encode_doc els))) (dotted path rest))
    n (lookup_path els path).
Proof.
  induction path as [|k path IH]; intros els Q fuel rest n Hok Hp Hne Hm Hf Hn; [done|].
  inversion_clear Hp as [|? ? Hk Hpath]. pose proof Hk as (Hk1 & Hk2 & Hk3 & Hk4).
  destruct fuel as [|fuel]; [simpl in Hf; lia|].
  cbn [find_descendant_loop lookup_path]. destruct path as [|k' path].
  - cbn [dotted]. destruct (strchr_off_dot k rest Hk2 Hk3) as [_ ->]. cbn [mbind outcome_bind].
    rewrite strlen_cstr by done. cbn [mbind outcome_bind].
    pose proof (find_component els k (0 :: rest) Q Hok Hk Hm) as F. unfold found_at in F.
    destruct (named k els) as [[k0 v]|] eqn:En.
    + destruct F as (p & Q' & H4 & Ed & Hl & ->). cbn [mbind outcome_bind]. eexists _, _. split; [reflexivity|].
      destruct (first_match_ok _ _ _ _ Hok En) as (_ & Hv & _). by eapply read_found.
    + destruct F as [it' ->]. cbn [mbind outcome_bind]. by eexists _, _.
  - change (dotted (k :: k' :: path) rest) with (k ++ 46 :: dotted (k' :: path) rest).
    set (tail := dotted (k' :: path) rest).
    destruct (strchr_off_dot k tail Hk2 Hk3) as [-> _]. cbn [mbind outcome_bind].
    pose proof (find_component els k (46 :: tail) Q Hok Hk Hm) as F. unfold found_at in F.
    destruct (named k els) as [[k0 v]|] eqn:En.
    2: { destruct F as [it' ->]. cbn [mbind outcome_bind]. by eexists _, _. }
    destruct F as (p & Q' & H4 & Ed & Hl & ->). cbn [mbind outcome_bind].
    destruct (first_match_ok _ _ _ _ Hok En) as (_ & Hv & _).
    assert (Lel : zlen (encode_elem (k0, v)) = zlen k0 + 2 + zlen (encode_value v))
      by (unfold encode_elem; rewrite zlen_app, zlen_elem_hdr; done).
    pose proof (zlen_nonneg k0). pose proof (zlen_nonneg (encode_value v)).
    rewrite (type_at_elem _ _ _ _ _ Q') by (done || lia). cbn [mbind outcome_bind].
    assert (Et : at_off (k ++ 46 :: tail) (zlen k + 1) = Ret tail).
    { change (k ++ 46 :: tail) with (k ++ [46] ++ tail). rewrite app_assoc. apply at_off_app. by rewrite zlen_app. }
    assert (Hrec : forall els', v = VDocument els' \/ v = VArray els' ->
      descendant_is (find_descendant_loop fuel (iter_start (encode_doc els' ++ Q') (zlen (encode_doc els'))) tail) n
        (lookup_path els' (k' :: path))).
    { intros els' Ev. assert (zlen (encode_doc els') = zlen (encode_value v))
        by (destruct Ev as [-> | ->]; [by rewrite encode_document | by rewrite encode_array]).
      apply IH; [by eapply value_ok_els | done | done | lia | simpl in Hf |- *; lia | lia]. }
    destruct v as [| |els'|els'| | | | | | | | | | | | | | | | | ];
      cbn [type_of]; try (cbn; by eexists _, _).
    + change ((BSON_TYPE_DOCUMENT =? BSON_TYPE_DOCUMENT) || _) with true. cbn iota.
      rewrite (recurse_at_elem _ _ _ _ _ Q' els') by (done || by left). cbn [mbind outcome_bind]. rewrite Et. cbn [mbind outcome_bind].
      destruct (Hrec els') as (it & d & -> & Hd); [by left|]. cbn [mbind outcome_bind]. by eexists _, d.
    + change ((BSON_TYPE_ARRAY =? BSON_TYPE_DOCUMENT) || _) with true. cbn iota.
      rewrite (recurse_at_elem _ _ _ _ _ Q' els') by (done || by right). cbn [mbind outcome_bind]. rewrite Et. cbn [mbind outcome_bind].
      destruct (Hrec els') as (it & d & -> & Hd); [by right|]. cbn [mbind outcome_bind]. by eexists _, d.
Qed.

(** * Properties *)

(** C39: Every search loop over arbitrary bytes ends.  For any buffer that
    holds the declared length and any key, [bson_iter_find],
    [bson_iter_find_case] and the counting loop of [bson_count_keys] finish
    within the fuel of one iteration per byte of the document. *)
Theorem search_terminates it data key c :
  iter_wf it data ->
  bson_iter_find it key <> Fuel /\ bson_iter_find_case it key <> Fuel /\ count_loop (iter_fuel it) it c <> Fuel.
Proof.
  intros W. pose proof (wf_len _ _ W). pose proof (wf_next _ _ W).
  assert (Hm : measure it < Z.of_nat (iter_fuel it)) by (unfold measure, iter_fuel; lia).
  assert (Hpos : 0 < Z.of_nat (iter_fuel it)) by (unfold iter_fuel; lia).
  split; [|split; [|by eapply count_loop_terminates]].
  - unfold bson_iter_find, _bson_iter_find_with_len. cbn [Z.eqb Z.ltb Z.compare].
    pose proof (strlen_not_fuel key). destruct (strlen key); cbn [mbind outcome_bind]; try done.
    eapply find_loop_terminates; eauto. intros. apply key_matches_not_fuel.
  - unfold bson_iter_find_case. eapply find_loop_terminates; eauto.
    intros k. revert k. induction key as [|x key IH]; intros [|y k]; cbn; try done.
    destruct (negb (tolower x =? tolower y)), (x =? 0); done || apply IH.
Qed.

Lemma search_terminates_witness :
  iter_wf (iter_start small_doc 12) small_doc /\
  bson_iter_find (iter_start small_doc 12) [98; 0] <> Fuel /\
  bson_iter_find_case (iter_start small_doc 12) [98; 0] <> Fuel /\
  count_loop (iter_fuel (iter_start small_doc 12)) (iter_start small_doc 12) 0 <> Fuel.
Proof.
  assert (W : iter_wf (iter_start small_doc 12) small_doc).
  { constructor; cbn; try done; try (unfold INT_MAX; lia).
    repeat first [apply Forall_nil_2 | apply Forall_cons_2; [unfold is_byte; lia|]]. }
  split; [exact W | exact (search_terminates _ _ _ 0 W)].
Defined.

(** C29: [bson_iter_find_descendant] follows a dotted path.  On the encoding of
    a document and a path "k1.k2...kn" of non-empty keys without dots, it
    finds exactly the value that [lookup_path] finds by taking the first
    element of each name and descending through documents and arrays, and the
    iterator it returns reads that value. *)
Theorem find_descendant_correct els path rest Q :
  elems_ok els -> Forall path_key path -> path <> [] -> zlen (encode_doc els) <= INT_MAX ->
  descendant_is
    (bson_iter_find_descendant (iter_start (encode_doc els ++ Q) (zlen (encode_doc els))) (dotted path rest))
    (Z.to_nat (zlen (encode_doc els))) (lookup_path els path).
Proof.
  intros Hok Hp Hne Hm. apply find_descendant_enc; try done.
  - clear. induction path as [|k path IH]; [simpl; lia|]. destruct path as [|k' path].
    + simpl. rewrite length_app. simpl. lia.
    + change (dotted (k :: k' :: path) rest) with (k ++ 46 :: dotted (k' :: path) rest).
      rewrite length_app. simpl in *. lia.
  - pose proof (zlen_nonneg (encode_doc els)). lia.
Qed.

Lemma find_descendant_correct_witness :
  let path := [[99]; [101]; [48]] in
  lookup_path sample path = Some (VDouble 0) /\
  descendant_is
    (bson_iter_find_descendant (iter_start (encode_doc sample ++ []) (zlen (encode_doc sample))) (dotted path []))
    (Z.to_nat (zlen (encode_doc sample))) (lookup_path sample path).
Proof.
  split; [reflexivity|]. apply find_descendant_correct; [apply sample_elems_ok | | discriminate | vm_compute; discriminate].
  repeat first [apply Forall_nil_2 | apply Forall_cons_2]; (split; [discriminate|]; repeat split;
    repeat first [apply Forall_nil_2 | apply Forall_cons_2; [discriminate|]]).
Defined.
