(* ===== verification/Values.v ===== *)
(** * Values and copying between documents (bson-value.c, bson-iter.c, bson.c)

    [bson_value_t] is the tagged union of the library; [bson_iter_value] makes
    one from an iterator, [bson_value_copy] copies it, [bson_append_value] and
    [bson_append_iter] append it to a document.  [tmp] is the address of the
    local [bson_t] of the C function. *)
From S2P Require Import Prelude Memory Strings Format Document Append Lifecycle Build Iter IterSafe RoundTrip Find.

(** ** Data *)

(** Pointers in a value are the bytes behind them; [BV_other] is the tag
    without a payload (null, undefined, min key, max key, and EOD or unknown
    types). *)
Inductive bson_value_t :=
| BV_double (v_double : Z)
| BV_utf8 (str : option bytes) (len : Z)
| BV_doc (value_type : Z) (data : option bytes) (data_len : Z)
| BV_binary (data : option bytes) (data_len subtype : Z)
| BV_oid (v_oid : bytes)
| BV_bool (v_bool : bool)
| BV_datetime (v_datetime : Z)
| BV_regex (regex options : option bytes)
| BV_dbpointer (collection : option bytes) (collection_len : Z) (oid : bytes)
| BV_code (code : option bytes) (code_len : Z)
| BV_symbol (symbol : option bytes) (len : Z)
| BV_codewscope (code : option bytes) (scope_data : option bytes) (code_len scope_len : Z)
| BV_int32 (v_int32 : Z)
| BV_timestamp (timestamp increment : Z)
| BV_int64 (v_int64 : Z)
| BV_decimal128 (v_decimal128 : bson_decimal128_t)
| BV_other (value_type : Z).

(** Dereferencing a pointer. *)
Definition deref (p : option bytes) : outcome bytes := match p with Some p => Ret p | None => Oob end.

(** ** Operations *)

(** [None] is the NULL result for a type without a value. *)
Definition bson_iter_value (it : bson_iter_t) : outcome (option bson_value_t) :=
  t ← ITER_TYPE it;
  if t =? BSON_TYPE_DOUBLE then d ← bson_iter_double it; Ret (Some (BV_double d))
  else if t =? BSON_TYPE_UTF8 then '(s, n) ← bson_iter_utf8 it; Ret (Some (BV_utf8 s n))
  else if t =? BSON_TYPE_DOCUMENT then '(n, d) ← bson_iter_document it; Ret (Some (BV_doc t d n))
  else if t =? BSON_TYPE_ARRAY then '(n, d) ← bson_iter_array it; Ret (Some (BV_doc t d n))
  else if t =? BSON_TYPE_BINARY then '(st, n, d) ← bson_iter_binary it; Ret (Some (BV_binary d n st))
  else if t =? BSON_TYPE_OID then o ← bson_iter_oid it; o ← deref o; Ret (Some (BV_oid o))
  else if t =? BSON_TYPE_BOOL then b ← bson_iter_bool it; Ret (Some (BV_bool b))
  else if t =? BSON_TYPE_DATE_TIME then n ← bson_iter_date_time it; Ret (Some (BV_datetime n))
  else if t =? BSON_TYPE_REGEX then '(r, o) ← bson_iter_regex it; Ret (Some (BV_regex r o))
  else if t =? BSON_TYPE_DBPOINTER then
    '(c, n, o) ← bson_iter_dbpointer it; o ← deref o; Ret (Some (BV_dbpointer c n o))
  else if t =? BSON_TYPE_CODE then '(s, n) ← bson_iter_code it; Ret (Some (BV_code s n))
  else if t =? BSON_TYPE_SYMBOL then '(s, n) ← bson_iter_symbol it; Ret (Some (BV_symbol s n))
  else if t =? BSON_TYPE_CODEWSCOPE then
    '(c, n, d, dn) ← bson_iter_codewscope it; Ret (Some (BV_codewscope c d n dn))
  else if t =? BSON_TYPE_INT32 then n ← bson_iter_int32 it; Ret (Some (BV_int32 n))
  else if t =? BSON_TYPE_TIMESTAMP then '(ts, i) ← bson_iter_timestamp it; Ret (Some (BV_timestamp ts i))
  else if t =? BSON_TYPE_INT64 then n ← bson_iter_int64 it; Ret (Some (BV_int64 n))
  else if t =? BSON_TYPE_DECIMAL128 then
    d ← bson_iter_decimal128 it;
    Ret (Some (BV_decimal128 (default (mk_dec128 undef_byte undef_byte) d)))
  else if (t =? BSON_TYPE_NULL) || (t =? BSON_TYPE_UNDEFINED) || (t =? BSON_TYPE_MAXKEY) || (t =? BSON_TYPE_MINKEY)
  then Ret (Some (BV_other t))
  else Ret None.

(** [bson_malloc (len + extra)] filled with the [len] bytes of [src]. *)
Definition dup_mem (src : option bytes) (len extra : Z) : outcome bytes :=
  s ← deref src; bs ← rdn s 0 len; wrn (bson_malloc (u64 (len + extra))) 0 bs.

(** A copied string: [len] bytes and a terminator ([len + 1] is [uint32_t]). *)
Definition dup_str (src : option bytes) (len : Z) : outcome bytes :=
  s ← deref src; bs ← rdn s 0 len;
  p ← wrn (bson_malloc (u32 (len + 1))) 0 bs;
  wrn p len [0].

Definition bson_value_copy (src : bson_value_t) : outcome bson_value_t :=
  match src with
  | BV_utf8 s n => s ← dup_str s n; Ret (BV_utf8 (Some s) n)
  | BV_doc t d n => d ← dup_mem d n 0; Ret (BV_doc t (Some d) n)
  | BV_binary d n st => d ← dup_mem d n 0; Ret (BV_binary (Some d) n st)
  | BV_regex r o => r ← bson_strdup r; o ← bson_strdup o; Ret (BV_regex r o)
  | BV_dbpointer c n o => c ← dup_str c n; Ret (BV_dbpointer (Some c) n o)
  | BV_code s n => s ← dup_str s n; Ret (BV_code (Some s) n)
  | BV_symbol s n => s ← dup_str s n; Ret (BV_symbol (Some s) n)
  | BV_codewscope c d n dn => c ← dup_str c n; d ← dup_mem d dn 0; Ret (BV_codewscope (Some c) (Some d) n dn)
  | BV_other t =>
    if (t =? BSON_TYPE_UNDEFINED) || (t =? BSON_TYPE_NULL) || (t =? BSON_TYPE_MAXKEY) || (t =? BSON_TYPE_MINKEY)
    then Ret src else Abort
  | _ => Ret src
  end.

(** [strcmp (s1, s2) == 0] *)
Fixpoint strcmp_eq (s1 s2 : bytes) : outcome bool :=
  match s1, s2 with
  | x :: s1, y :: s2 => if negb (x =? y) then Ret false else if x =? 0 then Ret true else strcmp_eq s1 s2
  | _, _ => Oob
  end.

(** [(b)->len == 5 || !bson_get_data (b)[4]] *)
Definition bson_empty (b : Z) : M bool :=
  o ← get_obj b;
  if b_len o =? 5 then mret true
  else d ← bson_get_data b; c ← lift (rd d 4); mret (c =? 0).

(** Looks at the first key of an array; the warning it may print on stderr is
    not modelled. *)
Definition check_array_key (array : Z) : M () :=
  empty ← bson_empty array;
  if (empty : bool) then mret ()
  else
    '(ok, it) ← bson_iter_init array;
    if (ok : bool) then
      '(ok, it) ← lift (bson_iter_next it);
      if (ok : bool) then k ← lift (bson_iter_key it); lift (strcmp_eq [48; 0] k);; mret ()
      else mret ()
    else mret ().

Definition bson_append_array (b : Z) (key : bytes) (key_length array : Z) : M bool :=
  key_length ← key_len key key_length;
  check_array_key array;;
  '(len, d) ← doc_arg array;
  _bson_append b 4 (u32 (1 + key_length + 1 + len)) 1 [BSON_TYPE_ARRAY]
    [(key_length, key); (1, [0]); (len, d)].

(** The common shape [if (bson_init_static (&doc, buf, len)) { ret = append; bson_destroy (&doc); }]. *)
Definition with_static (tmp : Z) (buf : option bytes) (len : Z) (append : Z -> M bool) : M bool :=
  buf ← (match buf with Some buf => mret buf | None => lift Abort end);
  ok ← bson_init_static tmp buf len;
  if (ok : bool) then ret ← append tmp; bson_destroy tmp;; mret ret else mret false.

Definition bson_append_iter (tmp b : Z) (key : option bytes) (key_length : Z) (it : bson_iter_t) : M bool :=
  '(key, key_length) ← (match key with
                        | Some key => mret (key, key_length)
                        | None => k ← lift (bson_iter_key it); mret (k, -1)
                        end);
  t ← lift (ITER_TYPE it);
  if t =? BSON_TYPE_EOD then mret false
  else if t =? BSON_TYPE_DOUBLE then d ← lift (bson_iter_double it); bson_append_double b key key_length d
  else if t =? BSON_TYPE_UTF8 then
    '(str, len) ← lift (bson_iter_utf8 it); bson_append_utf8 b key key_length str (s32 len)
  else if t =? BSON_TYPE_DOCUMENT then
    '(len, buf) ← lift (bson_iter_document it);
    with_static tmp buf len (bson_append_document b key key_length)
  else if t =? BSON_TYPE_ARRAY then
    '(len, buf) ← lift (bson_iter_array it);
    with_static tmp buf len (bson_append_array b key key_length)
  else if t =? BSON_TYPE_BINARY then
    '(st, len, binary) ← lift (bson_iter_binary it);
    binary ← lift (deref binary);
    bson_append_binary b key key_length st binary len
  else if t =? BSON_TYPE_UNDEFINED then bson_append_undefined b key key_length
  else if t =? BSON_TYPE_OID then
    o ← lift (bson_iter_oid it); o ← lift (deref o); bson_append_oid b key key_length o
  else if t =? BSON_TYPE_BOOL then v ← lift (bson_iter_bool it); bson_append_bool b key key_length v
  else if t =? BSON_TYPE_DATE_TIME then n ← lift (bson_iter_date_time it); bson_append_date_time b key key_length n
  else if t =? BSON_TYPE_NULL then bson_append_null b key key_length
  else if t =? BSON_TYPE_REGEX then
    '(r, o) ← lift (bson_iter_regex it); bson_append_regex b key key_length r o
  else if t =? BSON_TYPE_DBPOINTER then
    '(c, _, o) ← lift (bson_iter_dbpointer it);
    c ← lift (deref c); o ← lift (deref o);
    bson_append_dbpointer b key key_length c o
  else if t =? BSON_TYPE_CODE then
    '(c, _) ← lift (bson_iter_code it); c ← lift (deref c); bson_append_code b key key_length c
  else if t =? BSON_TYPE_SYMBOL then
    '(s, len) ← lift (bson_iter_symbol it); bson_append_symbol b key key_length s (s32 len)
  else if t =? BSON_TYPE_CODEWSCOPE then
    '(js, _, scope, scope_len) ← lift (bson_iter_codewscope it);
    js ← lift (deref js);
    with_static tmp scope scope_len (fun doc => bson_append_code_with_scope b key key_length js (Some doc))
  else if t =? BSON_TYPE_INT32 then n ← lift (bson_iter_int32 it); bson_append_int32 b key key_length n
  else if t =? BSON_TYPE_TIMESTAMP then
    '(ts, inc) ← lift (bson_iter_timestamp it); bson_append_timestamp b key key_length ts inc
  else if t =? BSON_TYPE_INT64 then n ← lift (bson_iter_int64 it); bson_append_int64 b key key_length n
  else if t =? BSON_TYPE_DECIMAL128 then
    d ← lift (bson_iter_decimal128 it);
    match d with None => mret false | Some d => bson_append_decimal128 b key key_length d end
  else if t =? BSON_TYPE_MAXKEY then bson_append_maxkey b key key_length
  else if t =? BSON_TYPE_MINKEY then bson_append_minkey b key key_length
  else mret false.

Definition bson_append_value (tmp b : Z) (key : bytes) (key_length : Z) (value : bson_value_t) : M bool :=
  match value with
  | BV_double d => bson_append_double b key key_length d
  | BV_utf8 s n => bson_append_utf8 b key key_length s (s32 n)
  | BV_doc t d n =>
    if t =? BSON_TYPE_DOCUMENT then with_static tmp d n (bson_append_document b key key_length)
    else with_static tmp d n (bson_append_array b key key_length)
  | BV_binary d n st => d ← lift (deref d); bson_append_binary b key key_length st d n
  | BV_oid o => bson_append_oid b key key_length o
  | BV_bool v => bson_append_bool b key key_length v
  | BV_datetime n => bson_append_date_time b key key_length n
  | BV_regex r o => bson_append_regex b key key_length r o
  | BV_dbpointer c _ o => c ← lift (deref c); bson_append_dbpointer b key key_length c o
  | BV_code c _ => c ← lift (deref c); bson_append_code b key key_length c
  | BV_symbol s n => bson_append_symbol b key key_length s (s32 n)
  | BV_codewscope c d _ dn =>
    c ← lift (deref c);
    with_static tmp d dn (fun local => bson_append_code_with_scope b key key_length c (Some local))
  | BV_int32 n => bson_append_int32 b key key_length n
  | BV_timestamp ts inc => bson_append_timestamp b key key_length ts inc
  | BV_int64 n => bson_append_int64 b key key_length n
  | BV_decimal128 d => bson_append_decimal128 b key key_length d
  | BV_other t =>
    if t =? BSON_TYPE_UNDEFINED then bson_append_undefined b key key_length
    else if t =? BSON_TYPE_NULL then bson_append_null b key key_length
    else if t =? BSON_TYPE_MAXKEY then bson_append_maxkey b key key_length
    else if t =? BSON_TYPE_MINKEY then bson_append_minkey b key key_length
    else mret false
  end.

(** ** Copying with exclusions *)

(** The [do ... while] loop over the names to exclude. *)
Fixpoint should_ignore (excludes : list bytes) (name : bytes) : outcome bool :=
  match excludes with
  | [] => Ret false
  | exclude :: excludes =>
    same ← strcmp_eq name exclude;
    if (same : bool) then Ret true else should_ignore excludes name
  end.

Fixpoint copy_loop (fuel : nat) (tmp dst : Z) (excludes : list bytes) (it : bson_iter_t) : M () :=
  match fuel with
  | O => lift Fuel
  | S fuel =>
    '(ok, it) ← lift (bson_iter_next it);
    if (ok : bool) then
      k ← lift (bson_iter_key it);
      skip ← lift (should_ignore excludes k);
      (if (skip : bool) then mret ()
       else ok ← bson_append_iter tmp dst None 0 it; BSON_ASSERT ok);;
      copy_loop fuel tmp dst excludes it
    else mret ()
  end.

Definition _bson_copy_to_excluding_va (tmp src dst : Z) (excludes : list bytes) : M () :=
  '(ok, it) ← bson_iter_init src;
  if (ok : bool) then copy_loop (iter_fuel it) tmp dst excludes it else mret ().

(** [excludes] is [first_exclude] and the variable arguments that follow it. *)
Definition bson_copy_to_excluding (tmp src dst : Z) (excludes : list bytes) : M () :=
  BSON_ASSERT (bool_decide (excludes <> []));;
  bson_init dst;; _bson_copy_to_excluding_va tmp src dst excludes.

Definition bson_copy_to_excluding_noinit (tmp src dst : Z) (excludes : list bytes) : M () :=
  BSON_ASSERT (bool_decide (excludes <> []));;
  _bson_copy_to_excluding_va tmp src dst excludes.

(** * Proofs *)

(** ** Builders that read first *)

Lemma builds_lift {A} (x : outcome A) (a : A) (K : A -> M bool) b d :
  x = Ret a -> builds (K a) b d -> builds (mbind K (lift x)) b d.
Proof. intros -> H m o pre body slack R W G Ho Hsz. rewrite (run_lift m _ a) by done. exact (H m o pre body slack R W G Ho Hsz). Qed.

Lemma builds_mret {A} (a : A) (K : A -> M bool) b d : builds (K a) b d -> builds (mbind K (mret a)) b d.
Proof. exact (fun H => H). Qed.

(** ** A static view of foreign bytes *)

Lemma init_static_spec m tmp body Q :
  zlen body + 5 <= INT_MAX ->
  exists m' o, bson_init_static tmp (doc_bytes body ++ Q) (zlen body + 5) m = Ret (m', true) /\
    rep m' tmp o [] body [] /\ own_cell tmp o = tmp /\ only tmp m m' /\
    b_flags o = set_flag BSON_FLAG_STATIC BSON_FLAG_RDONLY.
Proof.
  intros Hm. unfold INT_MAX in *. pose proof (zlen_nonneg body). unfold bson_init_static, INT_MAX.
  destruct ((zlen body + 5 <? 5) || (zlen body + 5 >? 2147483647)) eqn:?; [lia|].
  assert (E : doc_bytes body ++ Q = [] ++ le_bytes 4 (zlen body + 5) ++ body ++ 0 :: Q)
    by (unfold doc_bytes; by rewrite <- !app_assoc).
  assert (F1 : rd_le 4 (doc_bytes body ++ Q) 0 = Ret (zlen body + 5)) by (rewrite E; apply rd_word; [done | lia]).
  assert (F2 : rd (doc_bytes body ++ Q) (zlen body + 5 - 1) = Ret 0).
  { rewrite E. cbn [app]. rewrite app_assoc. apply rd_mid. rewrite zlen_app, zlen_le_bytes. lia. }
  assert (F3 : rdn (doc_bytes body ++ Q) 0 (zlen body + 5) = Ret (doc_bytes body))
    by (apply (rdn_mid []); [done | by rewrite zlen_doc_bytes]).
  rewrite (run_lift m _ _ _ F1). rewrite Z.eqb_refl. cbn [negb]. rewrite (run_lift m _ _ _ F2). cbn [negb Z.eqb].
  rewrite (run_lift m _ _ _ F3). rewrite u32_id by lia.
  assert (Eim : image [] body [] = doc_bytes body) by (unfold image; by rewrite app_nil_r).
  assert (Lim : zlen (image [] body []) = zlen body + 5) by (rewrite Eim; apply zlen_doc_bytes).
  eexists _, (mk_bson (set_flag BSON_FLAG_STATIC BSON_FLAG_RDONLY) (zlen body + 5) (Alloc (mk_alloc None 0 tmp 0 None))).
  split; [reflexivity|]. split; [|split; [done|]; split; [|done]].
  - constructor; cbn [b_impl a_realloc]; try done.
    + split; [apply lookup_insert_eq|]. split; [done|]. cbn [cells a_buf]. rewrite lookup_insert_eq. by rewrite Lim, Eim.
    + rewrite Lim. unfold INT32_MAX. lia.
  - cbn [objs cells]. apply only_put_obj. intros. by rewrite lookup_insert_ne.
Qed.

Lemma destroy_static m tmp o body :
  rep m tmp o [] body [] -> b_flags o = set_flag BSON_FLAG_STATIC BSON_FLAG_RDONLY -> bson_destroy tmp m = Ret (m, ()).
Proof.
  intros R Hf. unfold bson_destroy. step (get_obj_view _ _ _ _ (rep_view _ _ _ _ _ _ R)). by rewrite Hf.
Qed.

(** [with_static] around an append that takes the document at [tmp]. *)
Lemma builds_with_static b buf body Q (append : Z -> M bool) data :
  buf = Some (doc_bytes body ++ Q) -> zlen body + 5 <= 2 ^ 30 ->
  (forall m o pre bd slack os, rep m b o pre bd slack -> writable o -> rep m (b + 1) os [] body [] ->
     zlen data <= 2 ^ 30 -> appends (append (b + 1)) m b o pre bd slack data) ->
  builds (with_static (b + 1) buf (zlen body + 5) append) b data.
Proof.
  intros -> Hm Happ m o pre bd slack R W G Ho Hsz. unfold with_static.
  destruct (init_static_spec m (b + 1) body Q) as (m1 & os & E1 & R1 & Ho1 & [F1 F1c] & Hf1); [unfold INT_MAX; lia|].
  pose proof (zlen_nonneg pre). pose proof (zlen_nonneg bd). pose proof (rep_depth _ _ _ _ _ _ R).
  assert (Rb : rep m1 b o pre bd slack) by (apply rep_frame with m; [apply F1; lia | apply F1c; lia | done]).
  destruct (Happ m1 o pre bd slack os Rb W R1 ltac:(lia)) as (m2 & ok & E2 & Hok & _ & Ht).
  assert (ok = true) as -> by (rewrite Hok; eapply can_append_small; eauto using zlen_nonneg; lia).
  destruct (Ht eq_refl) as (o2 & s2 & R2 & Ev & [K1 K2]).
  assert (R3 : rep m2 (b + 1) os [] body []).
  { apply rep_frame with m1; [apply K1; lia | rewrite Ho1; apply K2; lia | done]. }
  exists m2, o2, s2, true. rewrite (run_bind (mret (doc_bytes body ++ Q) : M bytes) _ m m _ eq_refl), (run_bind _ _ _ _ _ E1).
  rewrite (run_bind _ _ _ _ _ E2), (run_bind _ _ _ _ _ (destroy_static _ _ _ _ R3 Hf1)).
  split; [done|]. split; [done|]. split; [done|]. split; [done|]. split.
  - intros b' Hb. rewrite K1, F1 by lia. done.
  - intros l Hl Hne. rewrite K2, F1c by lia. done.
Qed.

(** ** The check of [bson_append_array] on an encoded array *)

Lemma iter_init_spec m b o pre body slack :
  rep m b o pre body slack ->
  bson_iter_init b m = Ret (m, (true, iter_start (doc_bytes body ++ slack) (zlen body + 5))).
Proof.
  intros R. unfold bson_iter_init. step (get_obj_view _ _ _ _ (rep_view _ _ _ _ _ _ R)).
  rewrite (rep_len _ _ _ _ _ _ R). pose proof (zlen_nonneg body). replace (zlen body + 5 <? 5) with false by lia.
  step (get_data_spec _ _ _ _ _ _ R). done.
Qed.

Lemma strcmp_eq_spec s1 s2 r1 r2 :
  no_nul s1 -> no_nul s2 -> strcmp_eq (s1 ++ 0 :: r1) (s2 ++ 0 :: r2) = Ret (bool_decide (s1 = s2)).
Proof.
  intros H1. revert s2. induction H1 as [|x s1 Hx H1 IH]; intros [|y s2] H2; cbn [app strcmp_eq].
  - done.
  - inversion_clear H2. replace (0 =? y) with false by lia. done.
  - replace (x =? 0) with false by lia. done.
  - inversion_clear H2. destruct (x =? y) eqn:E; cbn [negb]; bool_hyps.
    + subst. replace (y =? 0) with false by lia. rewrite IH by done. f_equal. apply bool_decide_ext. split; congruence.
    + rewrite bool_decide_eq_false_2 by congruence. done.
Qed.

Lemma type_of_nonzero v : type_of v <> 0.
Proof. by destruct v. Qed.

Lemma bson_empty_spec m b o pre body slack :
  rep m b o pre body slack -> bson_empty b m = Ret (m, match body with [] => true | c :: _ => c =? 0 end).
Proof.
  intros R. unfold bson_empty. step (get_obj_view _ _ _ _ (rep_view _ _ _ _ _ _ R)).
  rewrite (rep_len _ _ _ _ _ _ R). destruct body as [|c body]; [done|].
  rewrite zlen_cons. pose proof (zlen_nonneg body). replace (1 + zlen body + 5 =? 5) with false by lia.
  step (get_data_spec _ _ _ _ _ _ R).
  assert (E : rd (doc_bytes (c :: body) ++ slack) 4 = Ret c) by done.
  by rewrite (run_lift m _ _ _ E).
Qed.

Lemma check_array_ok m b o pre els slack :
  rep m b o pre (encode_body els) slack -> elems_ok els -> check_array_key b m = Ret (m, ()).
Proof.
  intros R Hok. pose proof (rep_bound _ _ _ _ _ _ R) as (Hb & H5 & Hmax). unfold INT32_MAX in Hmax.
  pose proof (zlen_nonneg pre). pose proof (zlen_nonneg slack). rewrite (rep_len _ _ _ _ _ _ R) in *.
  unfold check_array_key. step (bson_empty_spec _ _ _ _ _ _ R).
  destruct els as [|[k v] els]; [done|]. inversion_clear Hok as [|? ? ? [Hk _] Hv _].
  assert (Et : match encode_body ((k, v) :: els) with [] => true | c :: _ => c =? 0 end = false).
  { rewrite encode_body_cons. unfold encode_elem, elem_hdr. cbn [fst snd app]. apply Z.eqb_neq, type_of_nonzero. }
  rewrite Et. step (iter_init_spec _ _ _ _ _ _ R).
  rewrite encode_body_cons in *. rewrite zlen_app in *.
  pose proof (zlen_nonneg (encode_body els)). pose proof (zlen_nonneg k). pose proof (zlen_nonneg (encode_value v)).
  set (l := le_bytes 4 (zlen (encode_elem (k, v) ++ encode_body els) + 5)).
  set (rest := encode_body els ++ 0 :: slack).
  assert (Ed : doc_bytes (encode_elem (k, v) ++ encode_body els) ++ slack = l ++ encode_elem (k, v) ++ rest)
    by (unfold doc_bytes, rest; by rewrite <- !app_assoc).
  assert (Ll : zlen l = 4) by apply zlen_le_bytes. rewrite Ed.
  set (it := iter_start _ _).
  assert (En : bson_iter_next it = Ret (true, at_elem (l ++ encode_elem (k, v) ++ rest) (i_len it) (zlen l) k v)).
  { unfold bson_iter_next. rewrite (next_enc it l k v rest); [done | done | done | lia | done | by apply step_ok_value | | | ];
      cbn [it iter_start i_len]; unfold INT_MAX; try lia.
    unfold rest. rewrite !zlen_app, zlen_cons. lia. }
  rewrite (run_lift m _ _ _ En). pose proof (key_enc l k v rest (i_len it)) as Ek. rewrite (run_lift m _ _ _ Ek).
  assert (Es : strcmp_eq [48; 0] (k ++ 0 :: encode_value v ++ rest) = Ret (bool_decide ([48] = k)))
    by (apply (strcmp_eq_spec [48] k []); [by repeat constructor | done]).
  by rewrite (run_lift m _ _ _ Es).
Qed.

Lemma bson_append_array_spec m b o pre body slack key key_length kb src os pres els slacks :
  rep m b o pre body slack -> writable o -> key_ok key key_length kb ->
  rep m src os pres (encode_body els) slacks -> elems_ok els ->
  zlen kb + zlen (encode_body els) + 7 <= INT32_MAX ->
  appends (bson_append_array b key key_length src) m b o pre body slack
    (elem_hdr BSON_TYPE_ARRAY kb ++ encode_doc els).
Proof.
  intros R W Hk Rs Hok Hsz. unfold bson_append_array, appends.
  rewrite (run_bind _ _ _ _ _ (key_len_spec _ _ _ m Hk)), (run_bind _ _ _ _ _ (check_array_ok _ _ _ _ _ _ Rs Hok)).
  rewrite (run_bind _ _ _ _ _ (doc_arg_rep _ _ _ _ _ _ Rs)). by eapply append_doc_spec.
Qed.

(** ** Appending the element under an iterator *)

Definition is_regex (v : value) : Prop := match v with VRegex _ _ => True | _ => False end.

Section AppendIter.
Context (P Q : bytes) (len off : Z) (k : bytes) (b : Z) (key : bytes) (key_length : Z) (kb : bytes).
Context (HP : zlen P = off + 2 + zlen k) (Hoff : 0 <= off) (Hm : len <= INT_MAX) (Hk : key_ok key key_length kb).

Ltac leaf_case acc := eapply builds_lift; [eapply acc; done | cbn beta iota].
Ltac bound := unfold INT32_MAX; pose proof (zlen_nonneg kb); autorewrite with zlen in *; lia.

Lemma append_iter_leaf v :
  let it := at_elem (P ++ encode_value v ++ Q) len off k v in
  rd (P ++ encode_value v ++ Q) off = Ret (type_of v) -> off + 2 + zlen k + zlen (encode_value v) < len ->
  match v with VDocument _ | VArray _ | VCodeWScope _ _ => False | _ => True end -> leaf_ok v -> ~ is_regex v ->
  builds (bson_append_iter (b + 1) b (Some key) key_length it) b (elem_hdr (type_of v) kb ++ encode_value v).
Proof using HP Hoff Hm Hk.
  intros it Ht Hl Hv Hok Hre. unfold bson_append_iter. apply builds_mret. cbn beta iota.
  apply builds_lift with (type_of v).
  { unfold ITER_TYPE, raw_of. cbn [it at_elem i_raw i_type mbind outcome_bind]. exact Ht. }
  assert (Hz : forall d : bytes, zlen (elem_hdr (type_of v) kb ++ d) <= 2 ^ 30 -> zlen kb + 2 + zlen d <= 2 ^ 30)
    by (intros d; rewrite zlen_app, zlen_elem_hdr; lia).
  subst it. destruct v; try done; cbn [type_of leaf_ok is_regex] in *;
    repeat match goal with |- context [?a =? ?b] =>
      let c := eval vm_compute in (a =? b) in change (a =? b) with c end; cbn iota.
  - leaf_case double_enc. apply builds_appends. intros. by apply bson_append_double_spec.
  - eapply builds_lift; [unfold bson_iter_utf8; eapply string_enc; done | cbn beta iota].
    apply builds_appends. intros m o pre body slack R W Hsz. apply Hz in Hsz. cbn [encode_value] in *.
    rewrite zlen_string_bytes in *. pose proof (zlen_nonneg s). pose proof (zlen_nonneg kb). rewrite s32_id by lia.
    apply append_string_spec; [done | done | done | | unfold INT32_MAX; lia].
    split; [lia|]. left. split; [done|]. by exists (0 :: Q).
  - destruct Hok as [Hst _]. destruct (binary_enc P Q len off k (VBinary subtype data) HP Ht Hl Hm _ _ eq_refl Hst) as [r Er].
    eapply builds_lift; [exact Er | cbn beta iota]. eapply builds_lift; [done|].
    apply builds_appends. intros m o pre body slack R W Hsz. apply Hz in Hsz.
    apply bson_append_binary_spec; [done | done | done | done |]. cbn [encode_value] in Hsz. unfold binary_bytes in Hsz.
    destruct (subtype =? _); bound.
  - apply builds_appends. intros. by apply append_empty_spec.
  - destruct Hok as [Ho _]. leaf_case oid_enc. eapply builds_lift; [done|].
    apply builds_appends. intros. by apply bson_append_oid_spec.
  - leaf_case bool_enc. apply builds_appends. intros. by apply bson_append_bool_spec.
  - eapply builds_lift.
    { unfold bson_iter_date_time. erewrite is_enc by done. cbn [mbind outcome_bind type_of]. rewrite Z.eqb_refl. by eapply int64_enc. }
    apply builds_appends. intros. by apply bson_append_date_time_spec.
  - apply builds_appends. intros. by apply append_empty_spec.
  - destruct Hok as (Hn & _ & Ho & _).
    destruct (dbpointer_enc P Q len off k (VDbPointer collection oid) HP Ht Hl Hm _ _ eq_refl Ho) as [r Er].
    eapply builds_lift; [exact Er | cbn beta iota]. eapply builds_lift; [done|]. eapply builds_lift; [done|].
    apply builds_appends. intros m o pre body slack R W Hsz. apply Hz in Hsz. cbn [encode_value] in Hsz.
    rewrite zlen_app, zlen_string_bytes in Hsz. apply bson_append_dbpointer_spec; try done. bound.
  - destruct Hok as [Hn _].
    eapply builds_lift; [unfold bson_iter_code; eapply string_enc; done | cbn beta iota]. eapply builds_lift; [done|].
    apply builds_appends. intros m o pre body slack R W Hsz. apply Hz in Hsz. cbn [encode_value] in Hsz.
    rewrite zlen_string_bytes in Hsz. apply bson_append_code_spec; try done. bound.
  - eapply builds_lift; [unfold bson_iter_symbol; eapply string_enc; done | cbn beta iota].
    apply builds_appends. intros m o pre body slack R W Hsz. apply Hz in Hsz. cbn [encode_value] in *.
    rewrite zlen_string_bytes in *. pose proof (zlen_nonneg s). pose proof (zlen_nonneg kb). rewrite s32_id by lia.
    apply append_string_spec; [done | done | done | | unfold INT32_MAX; lia].
    split; [lia|]. left. split; [done|]. by exists (0 :: Q).
  - leaf_case int32_enc. apply builds_appends. intros. by apply bson_append_int32_spec.
  - destruct Hok. leaf_case timestamp_enc. apply builds_appends. intros. by apply bson_append_timestamp_spec.
  - eapply builds_lift.
    { unfold bson_iter_int64. erewrite is_enc by done. cbn [mbind outcome_bind type_of]. rewrite Z.eqb_refl. by eapply int64_enc. }
    apply builds_appends. intros. by apply bson_append_int64_spec.
  - destruct Hok. leaf_case decimal_enc. apply builds_appends. intros. by apply bson_append_decimal128_spec.
  - apply builds_appends. intros. by apply append_empty_spec.
  - apply builds_appends. intros. by apply append_empty_spec.
Qed.

Lemma append_iter_container v els :
  let it := at_elem (P ++ encode_value v ++ Q) len off k v in
  rd (P ++ encode_value v ++ Q) off = Ret (type_of v) -> off + 2 + zlen k + zlen (encode_value v) < len ->
  v = VDocument els \/ v = VArray els -> elems_ok els ->
  builds (bson_append_iter (b + 1) b (Some key) key_length it) b (elem_hdr (type_of v) kb ++ encode_value v).
Proof using HP Hoff Hm Hk.
  intros it Ht Hl Hv Hok m o pre body slack R W G Ho Hsz.
  assert (Ev : encode_value v = encode_doc els) by (destruct Hv as [-> | ->]; [apply encode_document | apply encode_array]).
  rewrite zlen_app, zlen_elem_hdr, Ev in Hsz. unfold encode_doc in Hsz. rewrite zlen_doc_bytes in Hsz.
  pose proof (zlen_nonneg pre). pose proof (zlen_nonneg body). pose proof (zlen_nonneg kb). pose proof (rep_depth _ _ _ _ _ _ R).
  assert (B : builds (bson_append_iter (b + 1) b (Some key) key_length it) b (elem_hdr (type_of v) kb ++ doc_bytes (encode_body els))).
  2: { rewrite Ev. apply (B m o pre body slack); try done. rewrite zlen_app, zlen_elem_hdr, zlen_doc_bytes. lia. }
  unfold bson_append_iter. apply builds_mret. cbn beta iota. apply builds_lift with (type_of v).
  { unfold ITER_TYPE, raw_of. cbn [it at_elem i_raw i_type mbind outcome_bind]. exact Ht. }
  destruct Hv as [-> | ->]; cbn [type_of] in *;
    repeat match goal with |- context [?a =? ?b] =>
      let c := eval vm_compute in (a =? b) in change (a =? b) with c end; cbn iota.
  - eapply builds_lift; [unfold bson_iter_document; by eapply doc_enc | cbn beta iota].
    eapply builds_with_static; [reflexivity | lia |]. intros. eapply bson_append_document_spec; try done. unfold INT32_MAX. lia.
  - eapply builds_lift; [unfold bson_iter_array; by eapply doc_enc | cbn beta iota].
    eapply builds_with_static; [reflexivity | lia |]. intros. eapply bson_append_array_spec; try done. unfold INT32_MAX. lia.
Qed.

Lemma append_iter_scope js els :
  let v := VCodeWScope js els in
  let it := at_elem (P ++ encode_value v ++ Q) len off k v in
  rd (P ++ encode_value v ++ Q) off = Ret (type_of v) -> off + 2 + zlen k + zlen (encode_value v) < len -> no_nul js ->
  builds (bson_append_iter (b + 1) b (Some key) key_length it) b (elem_hdr (type_of v) kb ++ encode_value v).
Proof using HP Hoff Hm Hk.
  intros v it Ht Hl Hn m o pre body slack R W G Ho Hsz.
  assert (Ev : encode_value v = le_bytes 4 (4 + zlen (string_bytes js) + zlen (encode_doc els)) ++ string_bytes js ++ encode_doc els)
    by apply encode_codewscope.
  rewrite !zlen_app, zlen_elem_hdr, Ev, !zlen_app, zlen_le_bytes, zlen_string_bytes in Hsz. unfold encode_doc in Hsz.
  rewrite zlen_doc_bytes in Hsz.
  pose proof (zlen_nonneg pre). pose proof (zlen_nonneg body). pose proof (zlen_nonneg kb). pose proof (zlen_nonneg js).
  pose proof (rep_depth _ _ _ _ _ _ R).
  assert (B : builds (bson_append_iter (b + 1) b (Some key) key_length it) b (elem_hdr (type_of v) kb ++ encode_value v)).
  2: { apply (B m o pre body slack); try done. unfold encode_doc in Ev. rewrite Ev.
       rewrite !zlen_app, zlen_elem_hdr, zlen_le_bytes, zlen_string_bytes, zlen_doc_bytes. lia. }
  unfold bson_append_iter. apply builds_mret. cbn beta iota. apply builds_lift with (type_of v).
  { unfold ITER_TYPE, raw_of. cbn [it at_elem i_raw i_type mbind outcome_bind]. exact Ht. }
  cbn [v type_of]. repeat match goal with |- context [?a =? ?b] =>
    let c := eval vm_compute in (a =? b) in change (a =? b) with c end; cbn iota.
  destruct (codewscope_enc P Q len off k v HP Ht Hl Hm js els eq_refl) as [r Er].
  eapply builds_lift; [exact Er | cbn beta iota]. eapply builds_lift; [done|]. fold v. rewrite Ev.
  unfold encode_doc. rewrite zlen_doc_bytes at 1. eapply builds_with_static; [reflexivity | lia |].
  intros m' o' pre' bd slack' os R' W' Rs _. eapply bson_append_code_with_scope_spec; try done. unfold INT32_MAX. lia.
Qed.

(** Every element but a regular expression is copied. *)
Lemma append_iter_builds v :
  let it := at_elem (P ++ encode_value v ++ Q) len off k v in
  rd (P ++ encode_value v ++ Q) off = Ret (type_of v) -> off + 2 + zlen k + zlen (encode_value v) < len ->
  value_ok v -> ~ is_regex v ->
  builds (bson_append_iter (b + 1) b (Some key) key_length it) b (elem_hdr (type_of v) kb ++ encode_value v).
Proof using HP Hoff Hm Hk.
  intros it Ht Hl Hok Hre. destruct Hok as [v Hv Hleaf|els He|els He|js els [Hn _] He].
  - by apply append_iter_leaf.
  - apply append_iter_container with els; auto.
  - apply append_iter_container with els; auto.
  - by apply append_iter_scope.
Qed.
End AppendIter.

(** ** Copying the elements that are not excluded *)

(** The C strings of the argument list and the names they spell. *)
Definition names_of (excludes names : list bytes) : Prop :=
  Forall2 (fun e n => no_nul n /\ exists r, e = n ++ 0 :: r) excludes names.

Lemma should_ignore_spec excludes names k rest :
  names_of excludes names -> no_nul k -> should_ignore excludes (k ++ 0 :: rest) = Ret (bool_decide (k ∈ names)).
Proof.
  intros H Hk. induction H as [|e n excludes names (Hn & r & ->) H IH]; cbn [should_ignore].
  { rewrite bool_decide_eq_false_2; [reflexivity | apply not_elem_of_nil]. }
  rewrite strcmp_eq_spec by done. cbn [mbind outcome_bind]. destruct (decide (k = n)) as [E|E].
  - subst. rewrite (bool_decide_eq_true_2 (n = n)) by done. rewrite bool_decide_eq_true_2; [done | apply elem_of_cons; by left].
  - rewrite (bool_decide_eq_false_2 (k = n)) by done. rewrite IH. f_equal. apply bool_decide_ext. rewrite elem_of_cons. tauto.
Qed.

(** What is left of a document. *)
Definition kept (names : list bytes) (els : list (bytes * value)) : list (bytes * value) :=
  List.filter (fun kv => negb (bool_decide (kv.1 ∈ names))) els.

(** [builds] for a loop that returns nothing. *)
Definition builds_u (c : M ()) (b : Z) (data : bytes) : Prop :=
  builds (c;; mret true) b data.

Lemma builds_u_then (c : M bool) (K : M ()) b d1 d2 :
  builds c b d1 -> builds_u K b d2 -> builds_u ((ok ← c; BSON_ASSERT ok);; K) b (d1 ++ d2).
Proof.
  intros H1 H2 m o pre body slack R W G Ho Hsz.
  destruct (builds_seq c (K;; mret true) b d1 d2 H1 H2 m o pre body slack R W G Ho Hsz) as (m' & o' & s' & x & E & H).
  exists m', o', s', x. split; [|exact H]. revert E. rewrite zlen_app in Hsz. pose proof (zlen_nonneg d2).
  destruct (H1 m o pre body slack R W G Ho ltac:(lia)) as (m1 & o1 & s1 & y & E1 & <- & _).
  rewrite (run_bind _ _ _ _ _ E1). cbn beta iota. intros <-.
  assert (E2 : ((ok ← c; BSON_ASSERT ok) : M ()) m = Ret (m1, ())) by (rewrite (run_bind _ _ _ _ _ E1); done).
  unfold mbind, M_bind in *. by rewrite E2.
Qed.

Definition not_regex (kv : bytes * value) : Prop := ~ is_regex kv.2.

Lemma append_iter_elem p k v Q len dst :
  let data := p ++ encode_elem (k, v) ++ Q in
  key_wf k -> value_ok v -> ~ is_regex v -> zlen k < 2 ^ 31 -> zlen p + zlen (encode_elem (k, v)) < len -> len <= INT_MAX ->
  builds (bson_append_iter (dst + 1) dst None 0 (at_elem data len (zlen p) k v)) dst (encode_elem (k, v)).
Proof.
  intros data [Hk _] Hv Hre Hkl Hl Hm. set (P := p ++ elem_hdr (type_of v) k). set (key := k ++ 0 :: encode_value v ++ Q).
  assert (Ed : data = P ++ encode_value v ++ Q) by (unfold data, P, encode_elem; cbn [fst snd]; by rewrite <- !app_assoc).
  assert (LP : zlen P = zlen p + 2 + zlen k) by (unfold P; rewrite zlen_app, zlen_elem_hdr; lia).
  pose proof (zlen_nonneg p) as Hp. unfold encode_elem in Hl. rewrite zlen_app, zlen_elem_hdr in Hl. cbn [fst snd] in Hl.
  assert (Hko : key_ok key (-1) k) by (split; [done|]; right; split; [lia|]; split; [done | by eexists]).
  assert (Ht : rd data (zlen p) = Ret (type_of v)) by (unfold data, encode_elem, elem_hdr; cbn [fst snd app]; by apply rd_mid).
  pose proof (key_enc p k v Q len) as Ek. fold data key in Ek. revert Ht Ek. rewrite Ed. intros Ht Ek.
  pose proof (append_iter_builds P Q len (zlen p) k dst key (-1) k LP Hp Hm Hko v Ht ltac:(lia) Hv Hre) as B.
  intros m. specialize (B m). unfold bson_append_iter in *. cbn match in *.
  unfold mbind at 1, M_bind at 1. unfold mbind at 1, M_bind at 1. unfold lift at 1. rewrite Ek. exact B.
Qed.

Lemma builds_u_lift {A} (x : outcome A) (a : A) (K : A -> M ()) b d :
  x = Ret a -> builds_u (K a) b d -> builds_u (mbind K (lift x)) b d.
Proof.
  intros E H m. pose proof (H m) as H'. unfold mbind at 1, M_bind at 1. rewrite (run_lift m _ _ _ E). exact H'.
Qed.

Lemma copy_loop_enc excludes names els :
  names_of excludes names -> elems_ok els -> Forall not_regex (kept names els) ->
  forall n dst it p Q, let data := p ++ encode_body els ++ 0 :: Q in
  i_raw it = Some data -> i_next_off it = zlen p -> 4 <= zlen p ->
  i_len it = zlen p + zlen (encode_body els) + 1 -> i_len it <= INT_MAX ->
  zlen (encode_body els) < Z.of_nat n ->
  builds_u (copy_loop n (dst + 1) dst excludes it) dst (encode_body (kept names els)).
Proof.
  intros Hns. induction els as [|[k v] els IH]; intros Hok Hre n dst it p Q data Hr Hn Hp Hl Hm Hf; subst data;
    (destruct n as [|n]; [match type of Hf with zlen ?l < _ => pose proof (zlen_nonneg l) end; lia|]); cbn [copy_loop].
  { change (encode_body []) with (@nil Z) in *. change (zlen (@nil Z)) with 0 in *. cbn [app] in *.
    destruct (next_eod it p 0 Q Hr Hn ltac:(lia) ltac:(lia)) as (r & Er & Eo & _).
    apply builds_u_lift with (n_ok r, n_iter r); [by unfold bson_iter_next; rewrite Er|]. rewrite Eo. apply builds_nil. }
  inversion_clear Hok as [|? ? ? Hkw Hv Hels]. pose proof Hkw as [Hk _].
  rewrite encode_body_cons in *. rewrite zlen_app in *. rewrite <- app_assoc in *.
  set (rest := encode_body els ++ 0 :: Q) in *. pose proof (zlen_nonneg (encode_body els)). pose proof (zlen_nonneg Q).
  assert (Lel : zlen (encode_elem (k, v)) = zlen k + 2 + zlen (encode_value v))
    by (unfold encode_elem; rewrite zlen_app, zlen_elem_hdr; done).
  pose proof (zlen_nonneg k). pose proof (zlen_nonneg (encode_value v)). unfold INT_MAX in Hm.
  set (data := p ++ encode_elem (k, v) ++ rest) in *. set (it1 := at_elem data (i_len it) (zlen p) k v).
  assert (En : bson_iter_next it = Ret (true, it1)).
  { unfold bson_iter_next. rewrite (next_enc it p k v rest) by
      (done || lia || (by apply step_ok_value) || (unfold rest; rewrite !zlen_app, zlen_cons; lia)). done. }
  assert (IH1 : Forall not_regex (kept names els) -> builds_u (copy_loop n (dst + 1) dst excludes it1) dst (encode_body (kept names els))).
  { intros Hre'. specialize (IH Hels Hre' n dst it1 (p ++ encode_elem (k, v)) Q).
    cbn zeta in IH. rewrite <- !app_assoc in IH. fold rest in IH. fold data in IH.
    apply IH; cbn [it1 at_elem i_raw i_next_off i_len]; try done; unfold INT_MAX; rewrite ?zlen_app; lia. }
  apply builds_u_lift with (true, it1); [done|]. cbn iota.
  apply builds_u_lift with (k ++ 0 :: encode_value v ++ rest); [apply key_enc|].
  apply builds_u_lift with (bool_decide (k ∈ names)); [by apply should_ignore_spec|].
  unfold kept in *. cbn [List.filter fst] in *. destruct (bool_decide (k ∈ names)); cbn [negb] in *; [by apply IH1|].
  inversion_clear Hre as [|? ? Hnr Hre']. rewrite encode_body_cons.
  apply builds_u_then; [|by apply IH1]. apply append_iter_elem; try done; unfold INT_MAX; lia.
Qed.

(** * Properties *)

(** [bson_copy_to_excluding] copies a document without the named fields:
    the destination is the encoding of the source's elements, in order, less
    those whose key is one of the names, and the source keeps its bytes.  (A
    kept element that is itself a regular expression is left out of the
    statement, see [bson_append_regex_spec].) *)
Theorem copy_to_excluding_filters m src dst o pre els slack excludes names :
  rep m src o pre (encode_body els) slack -> src < dst -> own_cell src o < dst ->
  elems_ok els -> names_of excludes names -> excludes <> [] -> Forall not_regex (kept names els) ->
  zlen (encode_doc els) <= 2 ^ 30 ->
  exists m' slack', bson_copy_to_excluding (dst + 1) src dst excludes m = Ret (m', ()) /\
    bson_get_data dst m' = Ret (m', encode_doc (kept names els) ++ slack') /\
    bson_get_data src m' = Ret (m', encode_doc els ++ slack).
Proof.
  intros R Hlt Hown Hok Hns Hne Hre Hsz. unfold encode_doc in Hsz. rewrite zlen_doc_bytes in Hsz.
  destruct (init_rep m dst) as (m1 & od & sd & E1 & Rd & Wd & Gd & Hod & Hdd & F1 & F1c).
  assert (Rs : rep m1 src o pre (encode_body els) slack)
    by (apply rep_frame with m; [apply F1; lia | by rewrite F1c | done]).
  set (L := le_bytes 4 (zlen (encode_body els) + 5)).
  assert (Ed : doc_bytes (encode_body els) ++ slack = L ++ encode_body els ++ 0 :: slack)
    by (unfold doc_bytes, L; by rewrite <- !app_assoc).
  set (it := iter_start (doc_bytes (encode_body els) ++ slack) (zlen (encode_body els) + 5)).
  assert (B : builds_u (copy_loop (iter_fuel it) (dst + 1) dst excludes it) dst (encode_body (kept names els))).
  { apply (copy_loop_enc excludes names els Hns Hok Hre _ _ it L slack); unfold iter_fuel, it, INT_MAX; cbn [iter_start i_raw i_next_off i_len];
      rewrite ?Ed; try done; unfold L; rewrite ?zlen_le_bytes; try lia. }
  assert (Hle : zlen (encode_body (kept names els)) <= zlen (encode_body els)).
  { clear. induction els as [|kv els IH]; [done|]. unfold kept in *. cbn [List.filter].
    destruct (negb _); rewrite ?encode_body_cons, ?zlen_app; [lia|]. pose proof (zlen_nonneg (encode_elem kv)). lia. }
  destruct (B m1 od [] [] sd Rd Wd Gd) as (m2 & o2 & s2 & x & E2 & <- & R2 & Ev & F2 & F2c);
    [lia | change (zlen (@nil Z)) with 0; lia |].
  exists m2, s2. split; [|split].
  - unfold bson_copy_to_excluding, _bson_copy_to_excluding_va. rewrite (bool_decide_eq_true_2 (excludes <> [])) by done.
    step (eq_refl (Ret (m, ()))). step E1. step (iter_init_spec _ _ _ _ _ _ Rs). fold it.
    unfold mbind, M_bind in E2. destruct (copy_loop (iter_fuel it) (dst + 1) dst excludes it m1) as [[m3 []]| | |]; try done. cbn in E2. by injection E2 as ->.
  - by rewrite (get_data_spec _ _ _ _ _ _ R2).
  - assert (R3 : rep m2 src o pre (encode_body els) slack)
      by (apply rep_frame with m1; [apply F2; lia | apply F2c; lia | done]).
    by rewrite (get_data_spec _ _ _ _ _ _ R3).
Qed.

(** The sample document, inline at address 1. *)
Definition sample_obj : bson_t :=
  mk_bson (set_flag BSON_FLAG_INLINE BSON_FLAG_STATIC) (zlen (encode_doc sample))
    (Inline (encode_doc sample ++ bson_malloc (120 - zlen (encode_doc sample)))).
Definition sample_mem : mem := mk_mem {[1 := sample_obj]} ∅.

Lemma sample_rep : rep sample_mem 1 sample_obj [] (encode_body sample) (bson_malloc (120 - zlen (encode_doc sample))).
Proof. by constructor. Qed.

Lemma copy_to_excluding_filters_witness :
  exists m' slack', bson_copy_to_excluding 3 1 2 [[98; 0]; [102; 0]] sample_mem = Ret (m', ()) /\
    bson_get_data 2 m' = Ret (m', encode_doc (kept [[98]; [102]] sample) ++ slack') /\
    bson_get_data 1 m' = Ret (m', encode_doc sample ++ bson_malloc (120 - zlen (encode_doc sample))).
Proof.
  apply (copy_to_excluding_filters sample_mem 1 2 sample_obj []).
  - exact sample_rep.
  - reflexivity.
  - reflexivity.
  - apply sample_elems_ok.
  - repeat constructor; try done; by exists [].
  - done.
  - repeat constructor; intros [].
  - vm_compute. discriminate.
Defined.
