(* ===== verification/Contracts.v ===== *)
(** * The contract of the document functions (bson.c)

    The theorems on appending, nesting, creating, copying, comparing and
    moving documents, each with a concrete instance, and the inputs on which
    the code leaves its contract. *)
From S2P Require Import Prelude Memory Strings Format Document Append Lifecycle Build Iter IterSafe RoundTrip Find Values.

(** * Properties *)

(** ** Appending *)

(** C10: Appending is all or nothing.  Every append function for a single value
    but [bson_append_regex], which can write past its buffer (see below), run on any document that may be written (a child inside its parent's
    buffer, a document in a caller's buffer, one that cannot grow), returns;
    it answers [true] exactly when the element fits below [BSON_MAX_SIZE] and
    the buffer can hold it.  On [false] the memory is untouched; on [true] the
    elements are the old ones followed by exactly the bytes of the new one, the
    length prefix and terminator are right again, and no other object or buffer
    changed. *)
Theorem append_all_or_nothing m b o pre body slack k v :
  rep m b o pre body slack -> writable o ->
  match v with VDocument _ | VArray _ | VCodeWScope _ _ => False | _ => True end ->
  leaf_ok v -> no_regex v -> zlen (encode_elem (k, v)) <= 2 ^ 30 ->
  exists m' ok, build_value b k v m = Ret (m', ok) /\
    ok = can_append o (zlen (image pre body slack)) (zlen (encode_elem (k, v))) /\
    (ok = false -> m' = m) /\
    (ok = true -> exists o' slack', rep m' b o' pre (body ++ encode_elem (k, v)) slack' /\
      evolves b o o' /\ frame b o m m').
Proof. intros R W Hv Hl Hr Hsz. exact (append_leaf b k v m o pre body slack Hv Hl Hr R W Hsz). Qed.

Lemma append_all_or_nothing_witness :
  exists m' ok, build_value 1 [122] (VInt32 5) sample_mem = Ret (m', ok) /\
    ok = can_append sample_obj 120 7 /\
    (ok = false -> m' = sample_mem) /\
    (ok = true -> exists o' slack', rep m' 1 o' [] (encode_body sample ++ encode_elem ([122], VInt32 5)) slack' /\
      evolves 1 sample_obj o' /\ frame 1 sample_obj sample_mem m').
Proof.
  apply (append_all_or_nothing sample_mem 1 sample_obj [] (encode_body sample) (bson_malloc (120 - zlen (encode_doc sample))) [122] (VInt32 5)).
  - exact sample_rep.
  - done.
  - exact I.
  - unfold leaf_ok, int32_range. lia.
  - exact I.
  - vm_compute. discriminate.
Defined.

Lemma in_child_locked m b o p ps n_pairs n_bytes :
  objs m !! b = Some o -> has_flag (b_flags o) BSON_FLAG_IN_CHILD = true ->
  n_pairs <> 0 -> p.1 <> 0 -> n_bytes <= u64 (BSON_MAX_SIZE - b_len o) ->
  _bson_append b n_pairs n_bytes p.1 p.2 ps m = Abort.
Proof.
  intros Ho Hf Hn Hp Hsz. unfold _bson_append. replace (n_pairs =? 0) with false by lia. replace (p.1 =? 0) with false by lia.
  step (eq_refl (Ret (m, ()))). step (eq_refl (Ret (m, ()))). step (run_get_obj _ _ _ Ho).
  replace (n_bytes >? u64 (BSON_MAX_SIZE - b_len o)) with false by lia.
  unfold _bson_append_va. step (run_get_obj _ _ _ Ho). unfold mbind, M_bind. by rewrite Hf.
Qed.

(** A parent is locked while its child is open.  After
    [bson_append_document_begin] succeeded, appending to the parent fails its
    assertion instead of writing into the child's bytes, for every element that
    is not refused for its size. *)
Theorem parent_locked_while_child_open m p child o pre body slack k k' n :
  rep m p o pre body slack -> writable o -> growable o -> child <> p -> child <> own_cell p o ->
  zlen pre + zlen body + zlen k + 12 + o_depth o <= 2 ^ 30 -> zlen k' <= 2 ^ 29 ->
  exists m', bson_append_document_begin p k (zlen k) child m = Ret (m', true) /\
    bson_append_int32 p k' (zlen k') n m' = Abort.
Proof.
  intros R W G Hne Hc Hsz Hk'. pose proof (zlen_nonneg pre). pose proof (zlen_nonneg body). pose proof (zlen_nonneg k').
  pose proof (zlen_nonneg k). pose proof (rep_depth _ _ _ _ _ _ R).
  destruct (begin_spec m p child o pre body slack k (zlen k) k BSON_TYPE_DOCUMENT R W) as (m1 & ok & E1 & _ & Ht & Hok);
    [apply key_ok_len; lia | by left | done | done |].
  rewrite (Hok G ltac:(lia)) in *. destruct (Ht eq_refl) as (o1 & oc & L & s1 & _ & Op & _).
  exists m1. split; [done|]. unfold bson_append_int32.
  assert (Hk : key_ok k' (zlen k') k') by (apply key_ok_len; lia).
  step (key_len_spec _ _ _ m1 Hk).
  apply (in_child_locked m1 p o1 (1, [BSON_TYPE_INT32])); try done.
  - apply (op_obj _ _ _ _ _ _ Op).
  - apply (op_in_child _ _ _ _ _ _ Op).
  - rewrite (op_len _ _ _ _ _ _ Op). rewrite zlen_elem_hdr. unfold BSON_MAX_SIZE. rewrite u64_id, u32_id by lia. lia.
Qed.

Lemma parent_locked_while_child_open_witness :
  exists m', bson_append_document_begin 1 [122] (zlen [122]) 2 sample_mem = Ret (m', true) /\
    bson_append_int32 1 [121] (zlen [121]) 3 m' = Abort.
Proof.
  apply (parent_locked_while_child_open sample_mem 1 2 sample_obj [] (encode_body sample) (bson_malloc (120 - zlen (encode_doc sample)))).
  - exact sample_rep.
  - done.
  - done.
  - done.
  - done.
  - vm_compute. discriminate.
  - vm_compute. discriminate.
Defined.

(** ** Creating and copying *)

(** [bson_new_from_data] accepts exactly the documents.  For any readable
    bytes and length it returns; it gives a document exactly when the length is
    in [5, INT_MAX], the four-byte prefix spells it and the last byte is the
    terminator.  Then the new object holds those very bytes in storage of its
    own and nothing else changed; on refusal the memory is untouched. *)
Theorem new_from_data_accepts_documents m b data length :
  0 <= length <= zlen data -> Forall is_byte data ->
  let d := take (Z.to_nat length) data in
  exists m' r, bson_new_from_data b data length m = Ret (m', r) /\
    (is_Some r <-> is_doc d /\ length <= INT_MAX) /\
    (r = None -> m' = m) /\
    (is_Some r -> r = Some b /\ only b m m' /\
       exists slack, bson_get_data b m' = Ret (m', d ++ slack)).
Proof.
  intros Hl Hb d. assert (Hbd : Forall is_byte d) by (by apply Forall_take).
  destruct (new_from_data_spec m b data length Hl Hbd) as (m' & r & E & Hn & Hs). fold d in Hn, Hs.
  exists m', r. split; [done|]. destruct r as [b'|].
  - destruct (Hs b' eq_refl) as (-> & Hm & o & body & slack & Ed & Hf & Ho).
    split; [split; [intros _; split; [|done] | eauto]|].
    + apply is_doc_bytes; [done|]. exists body. split; [done|]. unfold d, INT_MAX in *. rewrite zlen_take. lia.
    + split; [done|]. intros _. split; [done|]. split; [done|]. exists slack. rewrite Ed.
      by rewrite (get_data_spec _ _ _ _ _ _ (fd_rep _ _ _ _ _ Hf)).
  - destruct (Hn eq_refl) as [-> Hd]. split; [split; [intros [? ?]; done | tauto]|]. split; [done|]. intros [? ?]; done.
Qed.

Lemma new_from_data_accepts_documents_witness :
  let d := take (Z.to_nat 5) [5; 0; 0; 0; 0; 9] in
  exists m' r, bson_new_from_data 1 [5; 0; 0; 0; 0; 9] 5 (mk_mem ∅ ∅) = Ret (m', r) /\
    (is_Some r <-> is_doc d /\ 5 <= INT_MAX) /\
    (r = None -> m' = mk_mem ∅ ∅) /\
    (is_Some r -> r = Some 1 /\ only 1 (mk_mem ∅ ∅) m' /\
       exists slack, bson_get_data 1 m' = Ret (m', d ++ slack)).
Proof.
  apply new_from_data_accepts_documents; [vm_compute; split; discriminate|].
  repeat constructor; unfold is_byte; lia.
Defined.

(** A copy is independent of its source.  [bson_copy] gives a document with
    the same elements, and appending to the copy afterwards leaves the source's
    bytes alone, although the source may have kept its bytes in a buffer. *)
Theorem copy_independent m b src o pre body slack k v :
  rep m src o pre body slack -> Forall is_byte body -> src <> b -> own_cell src o <> b ->
  match v with VDocument _ | VArray _ | VCodeWScope _ _ => False | _ => True end ->
  leaf_ok v -> no_regex v -> zlen body + zlen (encode_elem (k, v)) + 5 <= 2 ^ 30 ->
  exists m1 m2 slack1 slack2,
    bson_copy b src m = Ret (m1, Some b) /\ bson_get_data b m1 = Ret (m1, doc_bytes body ++ slack1) /\
    build_value b k v m1 = Ret (m2, true) /\
    bson_get_data b m2 = Ret (m2, doc_bytes (body ++ encode_elem (k, v)) ++ slack2) /\
    bson_get_data src m2 = Ret (m2, doc_bytes body ++ slack).
Proof.
  intros R Hb Hne Hown Hv Hl Hr Hsz. pose proof (zlen_nonneg body).
  destruct (copy_spec m b src o pre body slack R Hb) as (m1 & o1 & s1 & E1 & [R1 W1 G1 O1 D1] & F1 & F1c).
  destruct (append_leaf b k v m1 o1 [] body s1 Hv Hl Hr R1 W1 ltac:(lia)) as (m2 & ok & E2 & Hok & _ & Ht).
  assert (ok = true) as ->.
  { rewrite Hok. eapply can_append_small; eauto using zlen_nonneg. change (zlen (@nil Z)) with 0. lia. }
  destruct (Ht eq_refl) as (o2 & s2 & R2 & _ & F2 & F2c). rewrite O1 in F2c.
  exists m1, m2, s1, s2. split; [done|]. split; [by apply get_data_spec with o1 []|]. split; [done|].
  split; [by apply get_data_spec with o2 []|].
  apply get_data_spec with o pre. apply rep_frame with m; [|rewrite F2c, F1c by done; done | done].
  rewrite F2, F1 by done. done.
Qed.

Lemma copy_independent_witness :
  exists m1 m2 slack1 slack2,
    bson_copy 2 1 sample_mem = Ret (m1, Some 2) /\ bson_get_data 2 m1 = Ret (m1, doc_bytes (encode_body sample) ++ slack1) /\
    build_value 2 [122] VNull m1 = Ret (m2, true) /\
    bson_get_data 2 m2 = Ret (m2, doc_bytes (encode_body sample ++ encode_elem ([122], VNull)) ++ slack2) /\
    bson_get_data 1 m2 = Ret (m2, doc_bytes (encode_body sample) ++ bson_malloc (120 - zlen (encode_doc sample))).
Proof.
  apply (copy_independent sample_mem 2 1 sample_obj []).
  - exact sample_rep.
  - vm_compute. repeat (constructor; [split; [discriminate | reflexivity]|]). constructor.
  - done.
  - done.
  - exact I.
  - exact I.
  - exact I.
  - vm_compute. discriminate.
Defined.

(** [bson_compare] is the lexicographic order of the documents' contents.
    On any two documents it returns -1, 0 or 1 as the bytes after the length
    prefix compare; swapping the arguments negates the result, and
    [bson_equal] holds exactly when the two have the same elements. *)
Theorem compare_lexicographic m b1 o1 pre1 body1 slack1 b2 o2 pre2 body2 slack2 :
  rep m b1 o1 pre1 body1 slack1 -> rep m b2 o2 pre2 body2 slack2 ->
  exists c, bson_compare b1 b2 m = Ret (m, c) /\ c = lex (body1 ++ [0]) (body2 ++ [0]) /\
    bson_compare b2 b1 m = Ret (m, - c) /\
    bson_equal b1 b2 m = Ret (m, bool_decide (body1 = body2)).
Proof.
  intros R1 R2. eexists. rewrite (compare_spec _ _ _ _ _ _ _ _ _ _ _ R1 R2), (compare_spec _ _ _ _ _ _ _ _ _ _ _ R2 R1).
  split; [done|]. split; [done|]. rewrite lex_antisym. split; [done|].
  unfold bson_equal. step (compare_spec _ _ _ _ _ _ _ _ _ _ _ R1 R2). unfold mret, M_ret. do 2 f_equal.
  case_bool_decide as E.
  - apply Z.eqb_eq, lex_eq. by rewrite E.
  - apply Z.eqb_neq. intros H. apply lex_eq in H. by apply app_inj_tail in H as [? _].
Qed.

Lemma compare_lexicographic_witness :
  exists c, bson_compare 1 1 sample_mem = Ret (sample_mem, c) /\
    c = lex (encode_body sample ++ [0]) (encode_body sample ++ [0]) /\
    bson_compare 1 1 sample_mem = Ret (sample_mem, - c) /\
    bson_equal 1 1 sample_mem = Ret (sample_mem, bool_decide (encode_body sample = encode_body sample)).
Proof. exact (compare_lexicographic _ _ _ _ _ _ _ _ _ _ _ sample_rep sample_rep). Defined.

(** [bson_steal] moves a document.  From a document that owns its storage
    the destination gets the same bytes and can be written, and the source is
    left empty (or freed, when it was heap-allocated). *)
Theorem steal_moves m dst src o body slack :
  rep m src o [] body slack -> has_flag (b_flags o) not_owner = false -> own_cell src o = src -> dst <> src ->
  exists m' o', bson_steal dst src m = Ret (m', true) /\
    bson_get_data dst m' = Ret (m', doc_bytes body ++ slack) /\
    objs m' !! dst = Some o' /\ writable o' /\ (growable o -> growable o') /\
    objs m' !! src = if has_flag (b_flags o) BSON_FLAG_STATIC then Some (with_len o 0) else None.
Proof.
  intros R Hf Ho Hne. destruct (steal_spec m dst src o body slack R Hf Ho Hne) as (m' & o' & E & R' & W & _ & G & Hs).
  exists m', o'. split; [done|]. split; [by apply get_data_spec with o' []|].
  split; [apply (rep_view _ _ _ _ _ _ R')|]. split; [done|]. split; [done|]. by destruct (has_flag (b_flags o) BSON_FLAG_STATIC).
Qed.

Lemma steal_moves_witness :
  exists m' o', bson_steal 2 1 sample_mem = Ret (m', true) /\
    bson_get_data 2 m' = Ret (m', doc_bytes (encode_body sample) ++ bson_malloc (120 - zlen (encode_doc sample))) /\
    objs m' !! 2 = Some o' /\ writable o' /\ (growable sample_obj -> growable o') /\
    objs m' !! 1 = if has_flag (b_flags sample_obj) BSON_FLAG_STATIC then Some (with_len sample_obj 0) else None.
Proof. apply (steal_moves sample_mem 2 1 sample_obj); [exact sample_rep | done | done | done]. Defined.

(** [bson_concat] appends all elements of the source: on success the
    destination's elements are followed by the source's, an empty source
    changes nothing, and on failure the memory is untouched. *)
Theorem concat_appends_elements m b o pre body slack src os pres els slacks :
  rep m b o pre body slack -> writable o -> rep m src os pres (encode_body els) slacks ->
  exists m' ok, bson_concat b src m = Ret (m', ok) /\ (ok = false -> m' = m) /\
    (els = [] -> m' = m /\ ok = true) /\
    (ok = true -> exists slack', bson_get_data b m' = Ret (m', doc_bytes (body ++ encode_body els) ++ slack')).
Proof.
  intros R W Rs.
  assert (He : els = [] \/ exists ty t, encode_body els = ty :: t /\ ty <> 0).
  { destruct els as [|[k v] els]; [by left|]. right. rewrite encode_body_cons. unfold encode_elem, elem_hdr.
    cbn [fst snd app]. eexists _, _. split; [done | apply type_of_nonzero]. }
  destruct (bson_concat_spec m b o pre body slack R W src os pres (encode_body els) slacks Rs) as (m' & ok & E & Hn & Hz).
  { destruct He as [->|?]; [by left | by right]. }
  exists m', ok. split; [done|]. destruct He as [->|(ty & t & Et & Hty)].
  - destruct (Hz eq_refl) as [-> ->]. split; [done|]. split; [done|]. intros _. exists slack.
    change (encode_body []) with (@nil Z). rewrite app_nil_r. by apply get_data_spec with o pre.
  - destruct Hn as (_ & Hf & Ht); [by rewrite Et|]. split; [done|]. split; [by intros ->|].
    intros Hok. destruct (Ht Hok) as (o' & s' & R' & _). exists s'. by apply get_data_spec with o' pre.
Qed.

Lemma concat_appends_elements_witness :
  exists m' ok, bson_concat 1 2 (mk_mem {[1 := sample_obj; 2 := sample_obj]} ∅) = Ret (m', ok) /\
    (ok = false -> m' = mk_mem {[1 := sample_obj; 2 := sample_obj]} ∅) /\
    (sample = [] -> m' = mk_mem {[1 := sample_obj; 2 := sample_obj]} ∅ /\ ok = true) /\
    (ok = true -> exists slack', bson_get_data 1 m' = Ret (m', doc_bytes (encode_body sample ++ encode_body sample) ++ slack')).
Proof.
  apply (concat_appends_elements _ 1 sample_obj [] (encode_body sample) (bson_malloc (120 - zlen (encode_doc sample))) 2
           sample_obj [] sample (bson_malloc (120 - zlen (encode_doc sample)))).
  - by constructor.
  - done.
  - by constructor.
Defined.

Lemma destroy_ok m b o :
  objs m !! b = Some o ->
  (has_flag (b_flags o) BSON_FLAG_INLINE = false -> exists a c, b_impl o = Alloc a /\ cells m !! a_buf a = Some c) ->
  exists m', bson_destroy b m = Ret (m', ()) /\ (has_flag (b_flags o) BSON_FLAG_STATIC = false -> objs m' !! b = None).
Proof.
  intros Ho Hc. unfold bson_destroy. step (run_get_obj _ _ _ Ho). rewrite !has_flag_or.
  assert (Hf : forall m1, objs m1 !! b = Some o -> exists m',
    (if negb (has_flag (b_flags o) BSON_FLAG_STATIC) then free_obj b else mret ()) m1 = Ret (m', ()) /\
    (has_flag (b_flags o) BSON_FLAG_STATIC = false -> objs m' !! b = None)).
  { intros m1 _. destruct (has_flag (b_flags o) BSON_FLAG_STATIC); cbn [negb].
    - by exists m1.
    - eexists. split; [reflexivity|]. intros _. apply lookup_delete_eq. }
  destruct (has_flag (b_flags o) BSON_FLAG_INLINE); rewrite ?orb_true_r; cbn [orb negb]; [by apply Hf|].
  destruct (Hc eq_refl) as (a & c & Ei & Ec). rewrite Ei.
  destruct (has_flag (b_flags o) BSON_FLAG_RDONLY || _); cbn [orb negb]; [by apply Hf|].
  assert (Eg : free_buf (a_buf a) m = Ret (mk_mem (objs m) (<[a_buf a := mk_cell None (c_len c)]> (cells m)), ()))
    by (unfold free_buf, get_cell, mbind, M_bind; by rewrite Ec).
  destruct (has_flag (b_flags o) BSON_FLAG_NO_FREE); cbn [negb]; [by apply Hf|]. step Eg. by apply Hf.
Qed.

(** [bson_destroy_with_steal] hands the caller the document.  For a
    document that owns its storage the returned buffer starts with the
    document's bytes and the returned length is the document's length. *)
Theorem destroy_with_steal_returns_bytes m b o body slack :
  rep m b o [] body slack -> has_flag (b_flags o) not_owner = false -> own_cell b o = b ->
  exists m' buf, bson_destroy_with_steal b true m = Ret (m', (Some buf, zlen body + 5)) /\
    take (Z.to_nat (zlen body + 5)) buf = doc_bytes body /\
    (has_flag (b_flags o) BSON_FLAG_STATIC = false -> objs m' !! b = None).
Proof.
  intros R Hf Ho. pose proof R as [V Rl _ _ _ _ _]. destruct V as [V1 V2].
  unfold bson_destroy_with_steal. step (run_get_obj _ _ _ V1). cbn [negb]. rewrite Hf.
  pose proof (zlen_nonneg body).
  assert (Ht : take (Z.to_nat (zlen body + 5)) (doc_bytes body ++ slack) = doc_bytes body)
    by (rewrite <- zlen_doc_bytes; apply take_zlen).
  unfold own_cell in Ho. destruct (b_impl o) as [d|a] eqn:Ei; destruct V2 as [Vf Vc]; rewrite Vf.
  - subst d. rewrite Rl. unfold image. cbn [app].
    assert (F : rdn (doc_bytes body ++ slack) 0 (zlen body + 5) = Ret (doc_bytes body))
      by (apply (rdn_mid []); [done | by rewrite zlen_doc_bytes]).
    pose proof (wrn_malloc (zlen body + 5) (doc_bytes body) ltac:(rewrite zlen_doc_bytes; lia)) as Er.
    destruct (destroy_ok m b o V1) as (m' & Ed & Hs); [by rewrite Vf|].
    eexists m', _. split; [|split; [|exact Hs]].
    + unfold mbind at 1, M_bind at 1. rewrite (run_lift m _ _ _ F), (run_lift m _ _ _ Er).
      unfold mret at 1, M_ret at 1. step Ed. reflexivity.
    + rewrite <- zlen_doc_bytes. apply take_zlen.
  - rewrite <- (app_nil_l (doc_bytes body ++ slack)) in Ht. fold (image [] body slack) in Ht.
    set (m1 := mk_mem (objs m) (<[a_buf a := mk_cell None (zlen (image [] body slack))]> (cells m))).
    destruct (destroy_ok m1 b o V1) as (m' & Ed & Hs).
    { intros _. eexists a, _. split; [done | apply lookup_insert_eq]. }
    exists m', (image [] body slack). split; [|by split]. rewrite Rl.
    assert (Eg : get_cell (a_buf a) m = Ret (m, mk_cell (Some (image [] body slack)) (zlen (image [] body slack))))
      by (unfold get_cell; by rewrite Vc).
    unfold mbind at 1, M_bind at 1. step Eg. step (eq_refl (put_cell (a_buf a) (mk_cell None (zlen (image [] body slack))) m)).
    fold m1. cbn [c_buf]. unfold mret at 1, M_ret at 1. by step Ed.
Qed.

Lemma destroy_with_steal_returns_bytes_witness :
  exists m' buf, bson_destroy_with_steal 1 true sample_mem = Ret (m', (Some buf, zlen (encode_body sample) + 5)) /\
    take (Z.to_nat (zlen (encode_body sample) + 5)) buf = doc_bytes (encode_body sample) /\
    (has_flag (b_flags sample_obj) BSON_FLAG_STATIC = false -> objs m' !! 1 = None).
Proof. exact (destroy_with_steal_returns_bytes _ _ _ _ _ sample_rep eq_refl eq_refl). Defined.

(** ** Inputs outside the contract *)

(** [bson_append_regex] can write one byte past its buffer.  The length it
    announces leaves out the terminator of the options, so when the announced
    length just fits, the last byte of the element goes beyond the storage: on
    a fresh document holding a 103-byte string, appending an empty pattern under
    a one-byte key writes outside the 120 inline bytes. *)
Theorem append_regex_overflow :
  (bson_init 1;;
   bson_append_utf8 1 [115; 0] 1 (Some (replicate 103 97 ++ [0])) 103;;
   bson_append_regex 1 [114; 0] 1 (Some [0]) (Some [0])) (mk_mem ∅ ∅) = Oob.
Proof. vm_compute. reflexivity. Qed.

(** [bson_new_from_buffer] trusts the length inside the buffer.  It checks
    the caller's length against 5 and INT_MAX but not against the length
    prefix, so five bytes whose prefix says 6 make it read past the buffer. *)
Theorem new_from_buffer_overread :
  bson_new_from_buffer 1 10 None (mk_mem ∅ {[10 := mk_cell (Some [6; 0; 0; 0; 0]) 5]}) = Oob.
Proof. vm_compute. reflexivity. Qed.

(** [bson_steal] loses a document made by [bson_new_from_buffer].  Such a
    document keeps its bytes in the caller's buffer; [bson_steal] copies the
    object's own (unused) buffer pointer instead, answers [true], and the
    destination has no bytes to read. *)
Theorem steal_from_buffer_loses_bytes :
  exists m1 m2, bson_new_from_buffer 1 10 None (mk_mem ∅ {[10 := mk_cell (Some [5; 0; 0; 0; 0]) 5]}) = Ret (m1, Some 1) /\
    bson_get_data 1 m1 = Ret (m1, [5; 0; 0; 0; 0]) /\
    bson_steal 2 1 m1 = Ret (m2, true) /\ bson_get_data 2 m2 = Oob.
Proof. eexists _, _. split; [vm_compute; reflexivity|]. by repeat split. Qed.
