(* ===== verification/Numbers.v ===== *)
(** * Numbers as text (bson-keys.c, bson-string.c)

    Decimal output of unsigned and signed integers ([%u], [%d], [%lld] of
    [printf]), the table of array keys, and [bson_ascii_strtoll]. *)
From stdpp Require Import strings.
From S2P Require Import Prelude.

(** ** Decimal output *)

Fixpoint dec_loop (fuel : nat) (n : Z) (acc : bytes) : bytes :=
  match fuel with
  | O => acc
  | S fuel =>
    let acc := 48 + n mod 10 :: acc in
    if n <? 10 then acc else dec_loop fuel (n / 10) acc
  end.

(** [%u]: 64 bits have at most 20 digits. *)
Definition fmt_u (n : Z) : bytes := dec_loop 20 n [].
(** [%d] and [%lld]. *)
Definition fmt_d (n : Z) : bytes := if n <? 0 then 45 :: fmt_u (- n) else fmt_u n.

(** [bson_snprintf (str, size, ...)] into [size] bytes: what is stored, with
    the terminator, and the length of the whole output. *)
Definition bson_snprintf (size : Z) (out : bytes) : outcome (bytes * Z) :=
  if size <=? 0 then Oob else Ret (take (Z.to_nat (size - 1)) out ++ [0], zlen out).

(** The characters of a string literal. *)
Fixpoint chars (s : string) : bytes :=
  match s with
  | EmptyString => []
  | String a s => Z.of_N (Ascii.N_of_ascii a) :: chars s
  end.

Definition gUint32Strs : list string := [
  "0"; "1"; "2"; "3"; "4"; "5"; "6"; "7"; "8"; "9"; "10"; "11"; "12"; "13"; "14"; "15"; "16"; "17"; "18";
  "19"; "20"; "21"; "22"; "23"; "24"; "25"; "26"; "27"; "28"; "29"; "30"; "31"; "32"; "33"; "34"; "35"; "36";
  "37"; "38"; "39"; "40"; "41"; "42"; "43"; "44"; "45"; "46"; "47"; "48"; "49"; "50"; "51"; "52"; "53"; "54";
  "55"; "56"; "57"; "58"; "59"; "60"; "61"; "62"; "63"; "64"; "65"; "66"; "67"; "68"; "69"; "70"; "71"; "72";
  "73"; "74"; "75"; "76"; "77"; "78"; "79"; "80"; "81"; "82"; "83"; "84"; "85"; "86"; "87"; "88"; "89"; "90";
  "91"; "92"; "93"; "94"; "95"; "96"; "97"; "98"; "99"; "100"; "101"; "102"; "103"; "104"; "105"; "106";
  "107"; "108"; "109"; "110"; "111"; "112"; "113"; "114"; "115"; "116"; "117"; "118"; "119"; "120"; "121";
  "122"; "123"; "124"; "125"; "126"; "127"; "128"; "129"; "130"; "131"; "132"; "133"; "134"; "135"; "136";
  "137"; "138"; "139"; "140"; "141"; "142"; "143"; "144"; "145"; "146"; "147"; "148"; "149"; "150"; "151";
  "152"; "153"; "154"; "155"; "156"; "157"; "158"; "159"; "160"; "161"; "162"; "163"; "164"; "165"; "166";
  "167"; "168"; "169"; "170"; "171"; "172"; "173"; "174"; "175"; "176"; "177"; "178"; "179"; "180"; "181";
  "182"; "183"; "184"; "185"; "186"; "187"; "188"; "189"; "190"; "191"; "192"; "193"; "194"; "195"; "196";
  "197"; "198"; "199"; "200"; "201"; "202"; "203"; "204"; "205"; "206"; "207"; "208"; "209"; "210"; "211";
  "212"; "213"; "214"; "215"; "216"; "217"; "218"; "219"; "220"; "221"; "222"; "223"; "224"; "225"; "226";
  "227"; "228"; "229"; "230"; "231"; "232"; "233"; "234"; "235"; "236"; "237"; "238"; "239"; "240"; "241";
  "242"; "243"; "244"; "245"; "246"; "247"; "248"; "249"; "250"; "251"; "252"; "253"; "254"; "255"; "256";
  "257"; "258"; "259"; "260"; "261"; "262"; "263"; "264"; "265"; "266"; "267"; "268"; "269"; "270"; "271";
  "272"; "273"; "274"; "275"; "276"; "277"; "278"; "279"; "280"; "281"; "282"; "283"; "284"; "285"; "286";
  "287"; "288"; "289"; "290"; "291"; "292"; "293"; "294"; "295"; "296"; "297"; "298"; "299"; "300"; "301";
  "302"; "303"; "304"; "305"; "306"; "307"; "308"; "309"; "310"; "311"; "312"; "313"; "314"; "315"; "316";
  "317"; "318"; "319"; "320"; "321"; "322"; "323"; "324"; "325"; "326"; "327"; "328"; "329"; "330"; "331";
  "332"; "333"; "334"; "335"; "336"; "337"; "338"; "339"; "340"; "341"; "342"; "343"; "344"; "345"; "346";
  "347"; "348"; "349"; "350"; "351"; "352"; "353"; "354"; "355"; "356"; "357"; "358"; "359"; "360"; "361";
  "362"; "363"; "364"; "365"; "366"; "367"; "368"; "369"; "370"; "371"; "372"; "373"; "374"; "375"; "376";
  "377"; "378"; "379"; "380"; "381"; "382"; "383"; "384"; "385"; "386"; "387"; "388"; "389"; "390"; "391";
  "392"; "393"; "394"; "395"; "396"; "397"; "398"; "399"; "400"; "401"; "402"; "403"; "404"; "405"; "406";
  "407"; "408"; "409"; "410"; "411"; "412"; "413"; "414"; "415"; "416"; "417"; "418"; "419"; "420"; "421";
  "422"; "423"; "424"; "425"; "426"; "427"; "428"; "429"; "430"; "431"; "432"; "433"; "434"; "435"; "436";
  "437"; "438"; "439"; "440"; "441"; "442"; "443"; "444"; "445"; "446"; "447"; "448"; "449"; "450"; "451";
  "452"; "453"; "454"; "455"; "456"; "457"; "458"; "459"; "460"; "461"; "462"; "463"; "464"; "465"; "466";
  "467"; "468"; "469"; "470"; "471"; "472"; "473"; "474"; "475"; "476"; "477"; "478"; "479"; "480"; "481";
  "482"; "483"; "484"; "485"; "486"; "487"; "488"; "489"; "490"; "491"; "492"; "493"; "494"; "495"; "496";
  "497"; "498"; "499"; "500"; "501"; "502"; "503"; "504"; "505"; "506"; "507"; "508"; "509"; "510"; "511";
  "512"; "513"; "514"; "515"; "516"; "517"; "518"; "519"; "520"; "521"; "522"; "523"; "524"; "525"; "526";
  "527"; "528"; "529"; "530"; "531"; "532"; "533"; "534"; "535"; "536"; "537"; "538"; "539"; "540"; "541";
  "542"; "543"; "544"; "545"; "546"; "547"; "548"; "549"; "550"; "551"; "552"; "553"; "554"; "555"; "556";
  "557"; "558"; "559"; "560"; "561"; "562"; "563"; "564"; "565"; "566"; "567"; "568"; "569"; "570"; "571";
  "572"; "573"; "574"; "575"; "576"; "577"; "578"; "579"; "580"; "581"; "582"; "583"; "584"; "585"; "586";
  "587"; "588"; "589"; "590"; "591"; "592"; "593"; "594"; "595"; "596"; "597"; "598"; "599"; "600"; "601";
  "602"; "603"; "604"; "605"; "606"; "607"; "608"; "609"; "610"; "611"; "612"; "613"; "614"; "615"; "616";
  "617"; "618"; "619"; "620"; "621"; "622"; "623"; "624"; "625"; "626"; "627"; "628"; "629"; "630"; "631";
  "632"; "633"; "634"; "635"; "636"; "637"; "638"; "639"; "640"; "641"; "642"; "643"; "644"; "645"; "646";
  "647"; "648"; "649"; "650"; "651"; "652"; "653"; "654"; "655"; "656"; "657"; "658"; "659"; "660"; "661";
  "662"; "663"; "664"; "665"; "666"; "667"; "668"; "669"; "670"; "671"; "672"; "673"; "674"; "675"; "676";
  "677"; "678"; "679"; "680"; "681"; "682"; "683"; "684"; "685"; "686"; "687"; "688"; "689"; "690"; "691";
  "692"; "693"; "694"; "695"; "696"; "697"; "698"; "699"; "700"; "701"; "702"; "703"; "704"; "705"; "706";
  "707"; "708"; "709"; "710"; "711"; "712"; "713"; "714"; "715"; "716"; "717"; "718"; "719"; "720"; "721";
  "722"; "723"; "724"; "725"; "726"; "727"; "728"; "729"; "730"; "731"; "732"; "733"; "734"; "735"; "736";
  "737"; "738"; "739"; "740"; "741"; "742"; "743"; "744"; "745"; "746"; "747"; "748"; "749"; "750"; "751";
  "752"; "753"; "754"; "755"; "756"; "757"; "758"; "759"; "760"; "761"; "762"; "763"; "764"; "765"; "766";
  "767"; "768"; "769"; "770"; "771"; "772"; "773"; "774"; "775"; "776"; "777"; "778"; "779"; "780"; "781";
  "782"; "783"; "784"; "785"; "786"; "787"; "788"; "789"; "790"; "791"; "792"; "793"; "794"; "795"; "796";
  "797"; "798"; "799"; "800"; "801"; "802"; "803"; "804"; "805"; "806"; "807"; "808"; "809"; "810"; "811";
  "812"; "813"; "814"; "815"; "816"; "817"; "818"; "819"; "820"; "821"; "822"; "823"; "824"; "825"; "826";
  "827"; "828"; "829"; "830"; "831"; "832"; "833"; "834"; "835"; "836"; "837"; "838"; "839"; "840"; "841";
  "842"; "843"; "844"; "845"; "846"; "847"; "848"; "849"; "850"; "851"; "852"; "853"; "854"; "855"; "856";
  "857"; "858"; "859"; "860"; "861"; "862"; "863"; "864"; "865"; "866"; "867"; "868"; "869"; "870"; "871";
  "872"; "873"; "874"; "875"; "876"; "877"; "878"; "879"; "880"; "881"; "882"; "883"; "884"; "885"; "886";
  "887"; "888"; "889"; "890"; "891"; "892"; "893"; "894"; "895"; "896"; "897"; "898"; "899"; "900"; "901";
  "902"; "903"; "904"; "905"; "906"; "907"; "908"; "909"; "910"; "911"; "912"; "913"; "914"; "915"; "916";
  "917"; "918"; "919"; "920"; "921"; "922"; "923"; "924"; "925"; "926"; "927"; "928"; "929"; "930"; "931";
  "932"; "933"; "934"; "935"; "936"; "937"; "938"; "939"; "940"; "941"; "942"; "943"; "944"; "945"; "946";
  "947"; "948"; "949"; "950"; "951"; "952"; "953"; "954"; "955"; "956"; "957"; "958"; "959"; "960"; "961";
  "962"; "963"; "964"; "965"; "966"; "967"; "968"; "969"; "970"; "971"; "972"; "973"; "974"; "975"; "976";
  "977"; "978"; "979"; "980"; "981"; "982"; "983"; "984"; "985"; "986"; "987"; "988"; "989"; "990"; "991";
  "992"; "993"; "994"; "995"; "996"; "997"; "998"; "999"]%string.

(** The string with its terminator and the returned length. *)
Definition bson_uint32_to_string (value size : Z) : outcome (bytes * Z) :=
  if value <? 1000 then
    match gUint32Strs !! Z.to_nat value with
    | None => Oob
    | Some s => Ret (chars s ++ [0], if value <? 10 then 1 else if value <? 100 then 2 else 3)
    end
  else bson_snprintf size (fmt_u value).

(** ** Decimal input *)

Definition INT64_MAX : Z := 9223372036854775807.
Definition INT64_MIN : Z := -9223372036854775808.
Definition EINVAL : Z := 22.
Definition ERANGE : Z := 34.

(** The C locale on [char]: bytes above 127 are negative and in no class. *)
Definition isspace (c : Z) : bool := (c =? 32) || ((9 <=? c) && (c <=? 13)).
Definition isdigit (c : Z) : bool := (48 <=? c) && (c <=? 57).
Definition isupper (c : Z) : bool := (65 <=? c) && (c <=? 90).
Definition isalpha (c : Z) : bool := isupper c || ((97 <=? c) && (c <=? 122)).

(** A signed 64-bit result; overflow is undefined. *)
Definition i64 (z : Z) : outcome Z := if (INT64_MIN <=? z) && (z <=? INT64_MAX) then Ret z else Oob.

(** [while (isspace (c)) c = *++tok;] *)
Fixpoint skip_space (s : bytes) : outcome (Z * bytes) :=
  match s with
  | [] => Oob
  | c :: t => if isspace c then '(n, r) ← skip_space t; Ret (n + 1, r) else Ret (0, s)
  end.

(** The digit loop: the number, the characters consumed and [errno]. *)
Fixpoint strtoll_digits (s : bytes) (sign base cutoff cutlim number : Z) : outcome (Z * Z * Z) :=
  match s with
  | [] => Oob
  | c :: t =>
    if c =? 0 then Ret (number, 0, 0)
    else
      let digit := if isdigit c then Some (c - 48)
                   else if isalpha c then Some (c - (if isupper c then 65 - 10 else 97 - 10))
                   else None in
      match digit with
      | None => Ret (number, 0, 0)
      | Some c =>
        if c >=? base then Ret (number, 0, 0)
        else if sign =? -1 then
          if (number <? cutoff) || ((number =? cutoff) && (c >? cutlim)) then Ret (INT64_MIN, 0, ERANGE)
          else
            n ← i64 (number * base); n ← i64 (n - c);
            '(r, k, e) ← strtoll_digits t sign base cutoff cutlim n; Ret (r, k + 1, e)
        else
          if (number >? cutoff) || ((number =? cutoff) && (c >? cutlim)) then Ret (INT64_MAX, 0, ERANGE)
          else
            n ← i64 (number * base); n ← i64 (n + c);
            '(r, k, e) ← strtoll_digits t sign base cutoff cutlim n; Ret (r, k + 1, e)
      end
  end.

(** [cutoff] and [cutlim]. *)
Definition strtoll_limits (sign base : Z) : Z * Z :=
  let cutoff := if sign =? -1 then INT64_MIN else INT64_MAX in
  let cutlim := Z.rem cutoff base in
  let cutoff := Z.quot cutoff base in
  if sign =? -1 then
    let '(cutlim, cutoff) := if cutlim >? 0 then (cutlim - base, cutoff + 1) else (cutlim, cutoff) in
    (cutoff, - cutlim)
  else (cutoff, cutlim).

(** The number, where [*e] is set to (an offset into [s]; [None] leaves it
    alone), and [errno]. *)
Definition bson_ascii_strtoll (s : option bytes) (base : Z) : outcome (Z * option Z * Z) :=
  match s with
  | None => Ret (0, None, EINVAL)
  | Some s =>
    '(n0, tok) ← skip_space s;
    c ← rd tok 0;
    match (if c =? 45 then Some (-1, 1) else if c =? 43 then Some (1, 1)
           else if isdigit c then Some (1, 0) else None) with
    | None => Ret (0, None, EINVAL)
    | Some (sign, n1) =>
      let tok := drop (Z.to_nat n1) tok in
      c ← rd tok 0;
      hex ← (if ((base =? 0) || (base =? 16)) && (c =? 48)
             then x ← rd tok 1; Ret ((x =? 120) || (x =? 88)) else Ret false);
      let n2 := if (hex : bool) then 2 else 0 in
      let tok := drop (Z.to_nat n2) tok in
      let base := if (hex : bool) then 16 else base in
      c ← rd tok 0;
      let base := if base =? 0 then (if c =? 48 then 8 else 10) else base in
      let '(cutoff, cutlim) := strtoll_limits sign base in
      '(number, k, errno) ← strtoll_digits tok sign base cutoff cutlim 0;
      Ret (number, if 0 <? k then Some (n0 + n1 + n2 + k) else None, errno)
    end
  end.

(** * Proofs *)

(** ** Digits *)

Definition digit (c : Z) : Prop := 48 <= c <= 57.
(** The number that [ds] continues from [a]. *)
Definition dval_from (a : Z) (ds : bytes) : Z := fold_left (fun a c => a * 10 + (c - 48)) ds a.
Definition dval (ds : bytes) : Z := dval_from 0 ds.
(** Decimal without a leading zero. *)
Definition canonical (ds : bytes) : Prop :=
  Forall digit ds /\ ds <> [] /\ (head ds = Some 48 -> ds = [48]).

Lemma isdigit_spec c : isdigit c = true <-> digit c.
Proof. unfold isdigit, digit. lia. Qed.

Lemma dval_from_app a x y : dval_from a (x ++ y) = dval_from (dval_from a x) y.
Proof. apply fold_left_app. Qed.

Lemma dval_from_ge ds : forall a, Forall digit ds -> 0 <= a -> a <= dval_from a ds.
Proof.
  induction ds as [|c ds IH]; intros a H Ha; [done|]. inversion_clear H as [|? ? Hc Hd]. unfold digit in Hc.
  cbn [dval_from fold_left]. fold (dval_from (a * 10 + (c - 48)) ds). specialize (IH (a * 10 + (c - 48)) Hd). lia.
Qed.

Lemma dec_loop_acc fuel : forall n acc, dec_loop fuel n acc = dec_loop fuel n [] ++ acc.
Proof.
  induction fuel as [|fuel IH]; intros n acc; [done|]. cbn [dec_loop]. destruct (n <? 10); [done|].
  rewrite IH, (IH _ [_]), <- app_assoc. done.
Qed.

Lemma dec_loop_spec fuel : forall n, (0 < fuel)%nat -> 0 <= n < 10 ^ Z.of_nat fuel ->
  canonical (dec_loop fuel n []) /\ dval (dec_loop fuel n []) = n /\
  (0 < n -> head (dec_loop fuel n []) <> Some 48).
Proof.
  induction fuel as [|fuel IH]; intros n Hf Hn; [lia|]. cbn [dec_loop].
  pose proof (Z.mod_pos_bound n 10 ltac:(lia)). pose proof (Z.div_mod n 10 ltac:(lia)).
  destruct (n <? 10) eqn:E; bool_hyps.
  - rewrite Z.mod_small by lia. unfold canonical, dval, dval_from, digit. cbn [fold_left head].
    split; [split; [repeat constructor; lia|]; split; [done|]; intros [= ->]; f_equal; lia|].
    split; [lia | intros ? [=]; lia].
  - destruct fuel as [|fuel]; [change (10 ^ Z.of_nat 1) with 10 in Hn; lia|].
    rewrite dec_loop_acc. rewrite (Nat2Z.inj_succ (S fuel)), Z.pow_succ_r in Hn by lia.
    assert (0 < n / 10 < 10 ^ Z.of_nat (S fuel)) by lia.
    destruct (IH (n / 10)) as ((Hd & Hne & _) & Hv & Hh); [lia | lia |]. set (ds := dec_loop _ (n / 10) []) in *.
    clearbody ds. destruct ds as [|d ds']; [done|]. cbn [head app] in *. specialize (Hh ltac:(lia)).
    split; [split; [|split]|split].
    + rewrite app_comm_cons. apply Forall_app. split; [done|]. repeat constructor; lia.
    + done.
    + done.
    + rewrite app_comm_cons. unfold dval. rewrite dval_from_app. fold (dval (d :: ds')). rewrite Hv.
      unfold dval_from. cbn [fold_left]. lia.
    + done.
Qed.

Lemma fmt_u_spec n : 0 <= n < 2 ^ 64 -> canonical (fmt_u n) /\ dval (fmt_u n) = n.
Proof.
  intros Hn. unfold fmt_u. destruct (dec_loop_spec 20 n) as (H1 & H2 & _); [lia | | done].
  change (10 ^ Z.of_nat 20) with 100000000000000000000. lia.
Qed.

Lemma canonical_no_nul ds : Forall digit ds -> Forall (fun b => b <> 0) ds.
Proof. intros H. eapply Forall_impl; [exact H|]. unfold digit. lia. Qed.

(** The digits of a number below [10 ^ k] are at most [k]. *)
Lemma dec_loop_length fuel : forall n k, 0 < k -> 0 <= n < 10 ^ k -> zlen (dec_loop fuel n []) <= k.
Proof.
  induction fuel as [|fuel IH]; intros n k Hk Hn; cbn [dec_loop]; [change (zlen (@nil Z)) with 0; lia|].
  destruct (n <? 10) eqn:E; bool_hyps; [change (zlen [_]) with 1; lia|].
  rewrite dec_loop_acc, zlen_app. change (zlen [_]) with 1.
  assert (k <> 1) by (intros ->; lia). replace k with (Z.succ (k - 1)) in Hn by lia.
  rewrite Z.pow_succ_r in Hn by lia.
  specialize (IH (n / 10) (k - 1) ltac:(lia)). pose proof (Z.div_mod n 10). pose proof (Z.mod_pos_bound n 10). lia.
Qed.

(** The table is decimal output. *)
Definition table_ok (v : Z) : bool :=
  match gUint32Strs !! Z.to_nat v with
  | Some s => bool_decide (chars s = fmt_u v) &&
              ((if v <? 10 then 1 else if v <? 100 then 2 else 3) =? zlen (fmt_u v))
  | None => false
  end.

Lemma table_correct v : 0 <= v < 1000 -> table_ok v = true.
Proof.
  assert (H : forallb table_ok (seqZ 0 1000) = true) by (vm_compute; reflexivity).
  intros Hv. rewrite forallb_forall in H. apply H. apply list_elem_of_In, elem_of_seqZ. lia.
Qed.

Lemma uint32_to_string_spec value size :
  0 <= value < 2 ^ 32 -> 11 <= size ->
  bson_uint32_to_string value size = Ret (fmt_u value ++ [0], zlen (fmt_u value)).
Proof.
  intros Hv Hs. unfold bson_uint32_to_string. destruct (value <? 1000) eqn:E; bool_hyps.
  - pose proof (table_correct value ltac:(lia)) as H. unfold table_ok in H.
    destruct (gUint32Strs !! Z.to_nat value); [|done]. apply andb_true_iff in H as [H1 H2].
    apply bool_decide_eq_true in H1. apply Z.eqb_eq in H2. by rewrite H1, H2.
  - unfold bson_snprintf. replace (size <=? 0) with false by lia.
    rewrite take_ge; [done|]. pose proof (dec_loop_length 20 value 10 ltac:(lia) ltac:(lia)) as H.
    fold (fmt_u value) in H. unfold zlen in H. lia.
Qed.

(** ** Reading digits *)

(** The largest magnitude. *)
Definition magnitude (sign : Z) : Z := if sign =? -1 then 2 ^ 63 else 2 ^ 63 - 1.

Definition ends_number (rest : bytes) : Prop := exists c r, rest = c :: r /\ ~ digit c.

Lemma strtoll_digits_stop rest sign cutoff cutlim number :
  ends_number rest -> strtoll_digits rest sign 10 cutoff cutlim number = Ret (number, 0, 0).
Proof.
  intros (c & r & -> & Hc). cbn [strtoll_digits]. destruct (c =? 0); [done|].
  destruct (isdigit c) eqn:E; [by apply isdigit_spec in E|].
  destruct (isalpha c) eqn:Ea; [|done]. unfold isalpha, isupper in *.
  destruct ((65 <=? c) && (c <=? 90)) eqn:Eu; [replace (c - (65 - 10) >=? 10) with true by lia | replace (c - (97 - 10) >=? 10) with true by lia]; done.
Qed.

Lemma strtoll_digits_spec sign ds rest : sign = 1 \/ sign = -1 -> Forall digit ds -> ends_number rest ->
  let '(cutoff, cutlim) := strtoll_limits sign 10 in
  forall m, 0 <= m <= magnitude sign ->
  if dval_from m ds <=? magnitude sign
  then strtoll_digits (ds ++ rest) sign 10 cutoff cutlim (sign * m) = Ret (sign * dval_from m ds, zlen ds, 0)
  else exists k, 0 <= k /\ strtoll_digits (ds ++ rest) sign 10 cutoff cutlim (sign * m) = Ret (sign * magnitude sign, k, ERANGE).
Proof.
  intros Hs Hd Hr. destruct (strtoll_limits sign 10) as [cutoff cutlim] eqn:El.
  induction Hd as [|c ds Hc Hd IH]; intros m Hm.
  { cbn [dval_from fold_left app]. replace (m <=? magnitude sign) with true by lia. by apply strtoll_digits_stop. }
  unfold digit in Hc. cbn [dval_from fold_left app strtoll_digits]. fold (dval_from (m * 10 + (c - 48)) ds).
  pose proof (dval_from_ge ds (m * 10 + (c - 48)) Hd ltac:(lia)) as Hge. specialize (IH (m * 10 + (c - 48))).
  replace (c =? 0) with false by lia. rewrite (proj2 (isdigit_spec c) Hc). replace (c - 48 >=? 10) with false by lia.
  assert (Hi : forall z, Z.abs z <= 2 ^ 63 - 1 \/ z = - 2 ^ 63 -> i64 z = Ret z)
    by (intros z Hz; unfold i64, INT64_MIN, INT64_MAX; replace (_ && _) with true by lia; done).
  destruct Hs as [-> | ->]; vm_compute in El; injection El as <- <-; unfold magnitude in *.
  - change (1 =? -1) with false in *. cbn iota in *.
    destruct (_ || _) eqn:Eo.
    + replace (dval_from _ _ <=? _) with false by lia. by exists 0.
    + rewrite (Hi (1 * m * 10)) by lia. cbn [mbind outcome_bind]. rewrite (Hi (1 * m * 10 + (c - 48))) by lia.
      cbn [mbind outcome_bind]. replace (1 * m * 10 + (c - 48)) with (1 * (m * 10 + (c - 48))) by lia.
      specialize (IH ltac:(lia)). destruct (dval_from (m * 10 + (c - 48)) ds <=? _).
      * rewrite IH. cbn [mbind outcome_bind]. rewrite zlen_cons. do 3 f_equal. lia.
      * destruct IH as (k & Hk & ->). cbn [mbind outcome_bind]. exists (k + 1). split; [lia | done].
  - change (-1 =? -1) with true in *. cbn iota in *.
    destruct (_ || _) eqn:Eo.
    + replace (dval_from _ _ <=? _) with false by lia. by exists 0.
    + rewrite (Hi (-1 * m * 10)) by lia. cbn [mbind outcome_bind]. rewrite (Hi (-1 * m * 10 - (c - 48))) by lia.
      cbn [mbind outcome_bind]. replace (-1 * m * 10 - (c - 48)) with (-1 * (m * 10 + (c - 48))) by lia.
      specialize (IH ltac:(lia)). destruct (dval_from (m * 10 + (c - 48)) ds <=? _).
      * rewrite IH. cbn [mbind outcome_bind]. rewrite zlen_cons. do 3 f_equal. lia.
      * destruct IH as (k & Hk & ->). cbn [mbind outcome_bind]. exists (k + 1). split; [lia | done].
Qed.

Lemma skip_space_spec ws s c r :
  Forall (fun c => isspace c = true) ws -> s = c :: r -> isspace c = false ->
  skip_space (ws ++ s) = Ret (zlen ws, s).
Proof.
  intros Hw -> Hc. induction Hw as [|w ws Hw _ IH]; cbn [app skip_space]; [by rewrite Hc|].
  rewrite Hw, IH. cbn [mbind outcome_bind]. rewrite zlen_cons. do 2 f_equal. lia.
Qed.

(** An optional sign. *)
Inductive sign_prefix : bytes -> Z -> Prop :=
| sign_none : sign_prefix [] 1
| sign_plus : sign_prefix [43] 1
| sign_minus : sign_prefix [45] (-1).

Lemma rd_head c (t : bytes) : rd (c :: t) 0 = Ret c.
Proof. reflexivity. Qed.

(** From the first digit [d] on, in base 10, there is no prefix to skip. *)
Ltac past_sign d t tok n :=
  change (drop (Z.to_nat n) tok) with (d :: t); rewrite !rd_head; cbn [mbind outcome_bind];
  change ((10 =? 0) || (10 =? 16)) with false; cbn [andb mbind outcome_bind];
  change (drop (Z.to_nat 0) (d :: t)) with (d :: t); rewrite !rd_head; cbn [mbind outcome_bind];
  change (10 =? 0) with false; cbn iota;
  match goal with |- context [strtoll_limits ?s 10] => destruct (strtoll_limits s 10) as [cutoff cutlim] end; cbn [fst snd];
  destruct (strtoll_digits _ _ _ _ _ _) as [[[? ?] ?]| | |]; try done; cbn [mbind outcome_bind].

(** Past the blanks and the sign only the digit loop is left. *)
Lemma strtoll_prefix ws sg sign d t :
  Forall (fun c => isspace c = true) ws -> sign_prefix sg sign -> digit d ->
  bson_ascii_strtoll (Some (ws ++ sg ++ d :: t)) 10 =
    ('(number, k, errno) ← strtoll_digits (d :: t) sign 10 (strtoll_limits sign 10).1 (strtoll_limits sign 10).2 0;
     Ret (number, if 0 <? k then Some (zlen ws + zlen sg + k) else None, errno)).
Proof.
  intros Hw Hsg Hd. unfold digit in Hd. unfold bson_ascii_strtoll.
  assert (Hsp : forall c, c = 43 \/ c = 45 \/ digit c -> isspace c = false) by (unfold digit, isspace; lia).
  assert (Hdd : isdigit d = true) by by apply isdigit_spec.
  destruct Hsg; cbn [app]; erewrite skip_space_spec by (first [done | apply Hsp; unfold digit; lia]);
    cbn [mbind outcome_bind]; rewrite !rd_head; cbn [mbind outcome_bind].
  - replace (d =? 45) with false by lia. replace (d =? 43) with false by lia. rewrite Hdd.
    past_sign d t (d :: t) 0. change (zlen (@nil Z)) with 0. by rewrite !Z.add_0_r.
  - change (43 =? 45) with false. change (43 =? 43) with true. cbn iota.
    past_sign d t (43 :: d :: t) 1. change (zlen [43]) with 1. by rewrite Z.add_0_r.
  - change (45 =? 45) with true. cbn iota.
    past_sign d t (45 :: d :: t) 1. change (zlen [45]) with 1. by rewrite Z.add_0_r.
Qed.

Lemma strtoll_spec ws sg sign ds rest :
  Forall (fun c => isspace c = true) ws -> sign_prefix sg sign -> Forall digit ds -> ds <> [] -> ends_number rest ->
  let s := ws ++ sg ++ ds ++ rest in
  if dval ds <=? magnitude sign
  then bson_ascii_strtoll (Some s) 10 = Ret (sign * dval ds, Some (zlen ws + zlen sg + zlen ds), 0)
  else exists e, bson_ascii_strtoll (Some s) 10 = Ret (sign * magnitude sign, e, ERANGE).
Proof.
  intros Hw Hsg Hd Hne Hr s. destruct ds as [|d ds]; [done|]. assert (Hc : digit d) by (by inversion Hd).
  assert (Hs : sign = 1 \/ sign = -1) by (destruct Hsg; auto).
  pose proof (strtoll_digits_spec sign (d :: ds) rest Hs Hd Hr) as H.
  unfold s. cbn [app]. rewrite (strtoll_prefix ws sg sign) by done.
  destruct (strtoll_limits sign 10) as [cutoff cutlim]. cbn [fst snd].
  assert (Hm : 0 <= 0 <= magnitude sign) by (unfold magnitude; destruct (sign =? -1); lia).
  specialize (H 0 Hm). rewrite Z.mul_0_r in H. fold (dval (d :: ds)) in H. cbn [app] in H.
  destruct (dval (d :: ds) <=? magnitude sign).
  - rewrite H. cbn [mbind outcome_bind]. rewrite zlen_cons. pose proof (zlen_nonneg ds). by replace (0 <? 1 + zlen ds) with true by lia.
  - destruct H as (k & _ & ->). cbn [mbind outcome_bind]. eauto.
Qed.

(** * Properties *)

(** Array keys are canonical decimal numerals.  For every 32-bit index and
    a buffer of at least 11 bytes, [bson_uint32_to_string] gives the decimal
    numeral of the index without leading zeros, terminated, and returns its
    length; the thousand table entries included.  So different indices get
    different keys. *)
Theorem uint32_to_string_canonical value size :
  0 <= value < 2 ^ 32 -> 11 <= size ->
  exists ds, bson_uint32_to_string value size = Ret (ds ++ [0], zlen ds) /\ canonical ds /\ dval ds = value.
Proof.
  intros Hv Hs. exists (fmt_u value). split; [by apply uint32_to_string_spec|]. apply fmt_u_spec. lia.
Qed.

Lemma uint32_to_string_canonical_witness :
  exists ds, bson_uint32_to_string 4294967295 16 = Ret (ds ++ [0], zlen ds) /\ canonical ds /\ dval ds = 4294967295.
Proof. apply uint32_to_string_canonical; lia. Defined.

(** [bson_ascii_strtoll] in base 10 reads blanks, an optional sign and
    digits.  The result is the number written there and the end pointer is put
    after the last digit when it fits 64 bits; otherwise the result saturates at
    [INT64_MIN] or [INT64_MAX] and [errno] is [ERANGE].  No intermediate signed
    operation overflows. *)
Theorem strtoll_decimal ws sg sign ds rest :
  Forall (fun c => isspace c = true) ws -> sign_prefix sg sign -> Forall digit ds -> ds <> [] -> ends_number rest ->
  let s := ws ++ sg ++ ds ++ rest in
  let v := sign * dval ds in
  exists e, bson_ascii_strtoll (Some s) 10 =
    if (INT64_MIN <=? v) && (v <=? INT64_MAX) then Ret (v, Some (zlen ws + zlen sg + zlen ds), 0)
    else Ret (if sign =? -1 then INT64_MIN else INT64_MAX, e, ERANGE).
Proof.
  intros Hw Hsg Hd Hne Hr s v. pose proof (strtoll_spec ws sg sign ds rest Hw Hsg Hd Hne Hr) as H. cbn zeta in H. fold s in H.
  pose proof (dval_from_ge ds 0 Hd ltac:(lia)) as Hp. fold (dval ds) in Hp.
  assert (Ev : (INT64_MIN <=? v) && (v <=? INT64_MAX) = (dval ds <=? magnitude sign)).
  { unfold v, INT64_MIN, INT64_MAX, magnitude. apply eq_true_iff_eq. rewrite andb_true_iff, !Z.leb_le.
    destruct Hsg; [change (1 =? -1) with false..|change (-1 =? -1) with true]; cbn iota; lia. }
  rewrite Ev. destruct (dval ds <=? magnitude sign); [by exists None|]. destruct H as [e He]. exists e. rewrite He. by destruct Hsg.
Qed.

Lemma strtoll_decimal_witness :
  let s := [32] ++ [45] ++ [52; 50] ++ [0] in
  let v := -1 * dval [52; 50] in
  exists e, bson_ascii_strtoll (Some s) 10 =
    if (INT64_MIN <=? v) && (v <=? INT64_MAX) then Ret (v, Some (zlen [32] + zlen [45] + zlen [52; 50]), 0)
    else Ret (if -1 =? -1 then INT64_MIN else INT64_MAX, e, ERANGE).
Proof.
  apply strtoll_decimal.
  - repeat constructor.
  - constructor.
  - repeat constructor; unfold digit; lia.
  - done.
  - exists 0, []. split; [done|]. unfold digit. lia.
Defined.

(** Printing and reading 64-bit numbers are inverse: [bson_ascii_strtoll]
    reads back what [%lld] printed, for every [int64_t]. *)
Theorem strtoll_print_roundtrip n rest :
  INT64_MIN <= n <= INT64_MAX ->
  bson_ascii_strtoll (Some (fmt_d n ++ 0 :: rest)) 10 = Ret (n, Some (zlen (fmt_d n)), 0).
Proof.
  intros Hn. unfold INT64_MIN, INT64_MAX in Hn.
  assert (Hr : ends_number (0 :: rest)) by (eexists _, _; split; [done | unfold digit; lia]).
  unfold fmt_d. destruct (n <? 0) eqn:E; bool_hyps.
  - destruct (fmt_u_spec (- n) ltac:(lia)) as ((Hd & Hne & _) & Hv).
    pose proof (strtoll_spec [] [45] (-1) (fmt_u (- n)) (0 :: rest) ltac:(constructor) ltac:(constructor) Hd Hne Hr) as H.
    cbn zeta in H. rewrite Hv in H. unfold magnitude in H. change (-1 =? -1) with true in H. cbn iota in H.
    replace (- n <=? 2 ^ 63) with true in H by lia. cbn [app] in *. rewrite H.
    change (zlen (@nil Z)) with 0. change (zlen [45]) with 1. replace (-1 * - n) with n by lia. by rewrite zlen_cons.
  - destruct (fmt_u_spec n ltac:(lia)) as ((Hd & Hne & _) & Hv).
    pose proof (strtoll_spec [] [] 1 (fmt_u n) (0 :: rest) ltac:(constructor) ltac:(constructor) Hd Hne Hr) as H.
    cbn zeta in H. rewrite Hv in H. unfold magnitude in H. change (1 =? -1) with false in H. cbn iota in H.
    replace (n <=? 2 ^ 63 - 1) with true in H by lia. cbn [app] in *. rewrite H.
    change (zlen (@nil Z)) with 0. by rewrite Z.mul_1_l.
Qed.

Lemma strtoll_print_roundtrip_witness :
  bson_ascii_strtoll (Some (fmt_d INT64_MIN ++ [0])) 10 = Ret (INT64_MIN, Some (zlen (fmt_d INT64_MIN)), 0).
Proof. apply strtoll_print_roundtrip. split; vm_compute; discriminate. Defined.
