(* ===== verification/Md5.v ===== *)
(** * MD5 (bson-md5.c)

    The block function, the streaming interface and its equivalence with the
    one-shot definition of RFC 1321.  The model is the little-endian branch of
    the source. *)
From S2P Require Import Prelude.

(** ** State *)

(** [count] is the message length in bits, low word first. *)
Record bson_md5_t := mk_md5 {
  m_count : Z * Z;
  m_abcd : Z * Z * Z * Z;
  m_buf : bytes;
}.

Definition T_MASK : Z := 0xffffffff.

(** T1 .. T64 *)
Definition T_consts : list Z := [
  Z.lxor T_MASK 0x28955b87; Z.lxor T_MASK 0x173848a9; 0x242070db; Z.lxor T_MASK 0x3e423111;
  Z.lxor T_MASK 0x0a83f050; 0x4787c62a; Z.lxor T_MASK 0x57cfb9ec; Z.lxor T_MASK 0x02b96afe;
  0x698098d8; Z.lxor T_MASK 0x74bb0850; Z.lxor T_MASK 0x0000a44e; Z.lxor T_MASK 0x76a32841;
  0x6b901122; Z.lxor T_MASK 0x02678e6c; Z.lxor T_MASK 0x5986bc71; 0x49b40821;
  Z.lxor T_MASK 0x09e1da9d; Z.lxor T_MASK 0x3fbf4cbf; 0x265e5a51; Z.lxor T_MASK 0x16493855;
  Z.lxor T_MASK 0x29d0efa2; 0x02441453; Z.lxor T_MASK 0x275e197e; Z.lxor T_MASK 0x182c0437;
  0x21e1cde6; Z.lxor T_MASK 0x3cc8f829; Z.lxor T_MASK 0x0b2af278; 0x455a14ed;
  Z.lxor T_MASK 0x561c16fa; Z.lxor T_MASK 0x03105c07; 0x676f02d9; Z.lxor T_MASK 0x72d5b375;
  Z.lxor T_MASK 0x0005c6bd; Z.lxor T_MASK 0x788e097e; 0x6d9d6122; Z.lxor T_MASK 0x021ac7f3;
  Z.lxor T_MASK 0x5b4115bb; 0x4bdecfa9; Z.lxor T_MASK 0x0944b49f; Z.lxor T_MASK 0x4140438f;
  0x289b7ec6; Z.lxor T_MASK 0x155ed805; Z.lxor T_MASK 0x2b10cf7a; 0x04881d05;
  Z.lxor T_MASK 0x262b2fc6; Z.lxor T_MASK 0x1924661a; 0x1fa27cf8; Z.lxor T_MASK 0x3b53a99a;
  Z.lxor T_MASK 0x0bd6ddbb; 0x432aff97; Z.lxor T_MASK 0x546bdc58; Z.lxor T_MASK 0x036c5fc6;
  0x655b59c3; Z.lxor T_MASK 0x70f3336d; Z.lxor T_MASK 0x00100b82; Z.lxor T_MASK 0x7a7ba22e;
  0x6fa87e4f; Z.lxor T_MASK 0x01d3191f; Z.lxor T_MASK 0x5cfebceb; 0x4e0811a1;
  Z.lxor T_MASK 0x08ac817d; Z.lxor T_MASK 0x42c50dca; 0x2ad7d2bb; Z.lxor T_MASK 0x14792c6e].

(** ** The block function *)

Definition ROTATE_LEFT (x n : Z) : Z := Z.lor (u32 (Z.shiftl x n)) (Z.shiftr x (32 - n)).
(** The macros of the rounds. *)
Module Round.
Definition F (x y z : Z) : Z := Z.lor (Z.land x y) (Z.land (u32 (Z.lnot x)) z).
Definition G (x y z : Z) : Z := Z.lor (Z.land x z) (Z.land y (u32 (Z.lnot z))).
Definition H (x y z : Z) : Z := Z.lxor (Z.lxor x y) z.
Definition I (x y z : Z) : Z := Z.lxor y (Z.lor x (u32 (Z.lnot z))).
End Round.

(** [X[k]]: the little-endian words of the block. *)
Definition word (X : bytes) (k : Z) : Z := le_val (take 4 (drop (4 * Z.to_nat k) X)).

(** One [SET]; the next one names the registers in the order d, a, b, c, so the
    tuple is rotated. *)
Definition SET (f : Z -> Z -> Z -> Z) (X : bytes) (r : Z * Z * Z * Z) (k s Ti : Z) : Z * Z * Z * Z :=
  let '(a, b, c, d) := r in
  let t := u32 (a + f b c d + word X k + Ti) in
  let a := u32 (ROTATE_LEFT t s + b) in
  (d, a, b, c).

(** The arguments k and s of the sixteen operations of each round. *)
Definition round1 : list (Z * Z) := [
  (0, 7); (1, 12); (2, 17); (3, 22); (4, 7); (5, 12); (6, 17); (7, 22); (8, 7); (9, 12); (10, 17); (11, 22); (12, 7); (13, 12); (14, 17); (15, 22)].
Definition round2 : list (Z * Z) := [
  (1, 5); (6, 9); (11, 14); (0, 20); (5, 5); (10, 9); (15, 14); (4, 20); (9, 5); (14, 9); (3, 14); (8, 20); (13, 5); (2, 9); (7, 14); (12, 20)].
Definition round3 : list (Z * Z) := [
  (5, 4); (8, 11); (11, 16); (14, 23); (1, 4); (4, 11); (7, 16); (10, 23); (13, 4); (0, 11); (3, 16); (6, 23); (9, 4); (12, 11); (15, 16); (2, 23)].
Definition round4 : list (Z * Z) := [
  (0, 6); (7, 10); (14, 15); (5, 21); (12, 6); (3, 10); (10, 15); (1, 21); (8, 6); (15, 10); (6, 15); (13, 21); (4, 6); (11, 10); (2, 15); (9, 21)].

Definition run_round (f : Z -> Z -> Z -> Z) (X : bytes) (ops : list (Z * Z)) (ts : list Z)
    (r : Z * Z * Z * Z) : Z * Z * Z * Z :=
  fold_left (fun r '((k, s), t) => SET f X r k s t) (zip ops ts) r.

Definition md5_block (abcd : Z * Z * Z * Z) (X : bytes) : Z * Z * Z * Z :=
  let r := run_round Round.F X round1 (take 16 T_consts) abcd in
  let r := run_round Round.G X round2 (take 16 (drop 16 T_consts)) r in
  let r := run_round Round.H X round3 (take 16 (drop 32 T_consts)) r in
  let r := run_round Round.I X round4 (take 16 (drop 48 T_consts)) r in
  let '(a, b, c, d) := r in
  let '(a0, b0, c0, d0) := abcd in
  (u32 (a0 + a), u32 (b0 + b), u32 (c0 + c), u32 (d0 + d)).

(** Reads the 64 bytes at [data]. *)
Definition bson_md5_process (md5 : bson_md5_t) (data : bytes) : outcome bson_md5_t :=
  X ← rdn data 0 64;
  Ret (mk_md5 (m_count md5) (md5_block (m_abcd md5) X) (m_buf md5)).

(** ** The streaming interface *)

(** [buf] is not initialised. *)
Definition bson_md5_init : bson_md5_t :=
  mk_md5 (0, 0) (0x67452301, Z.lxor T_MASK 0x10325476, Z.lxor T_MASK 0x67452301, 0x10325476)
    (replicate 64 undef_byte).

(** [for (; left >= 64; p += 64, left -= 64)]; [n] bounds the iterations. *)
Fixpoint md5_full_blocks (n : nat) (pms : bson_md5_t) (p : bytes) (left : Z) : outcome (bson_md5_t * bytes * Z) :=
  match n with
  | O => if left >=? 64 then Fuel else Ret (pms, p, left)
  | S n =>
    if left >=? 64 then
      pms ← bson_md5_process pms p;
      md5_full_blocks n pms (drop 64 p) (left - 64)
    else Ret (pms, p, left)
  end.

(** The full blocks, then the final partial block. *)
Definition md5_append_rest (pms : bson_md5_t) (p : bytes) (left : Z) : outcome bson_md5_t :=
  '(pms, p, left) ← md5_full_blocks (Z.to_nat (left / 64)) pms p left;
  if negb (left =? 0) then
    bs ← rdn p 0 left; buf ← wrn (m_buf pms) 0 bs;
    Ret (mk_md5 (m_count pms) (m_abcd pms) buf)
  else Ret pms.

(** [left] is an [int]: the length is read as signed. *)
Definition bson_md5_append (pms : bson_md5_t) (data : bytes) (nbytes : Z) : outcome bson_md5_t :=
  let left := s32 nbytes in
  let '(count0, count1) := m_count pms in
  let offset := Z.land (Z.shiftr count0 3) 63 in
  let nbits := u32 (Z.shiftl nbytes 3) in
  if nbytes <=? 0 then Ret pms
  else
    let count1 := u32 (count1 + Z.shiftr nbytes 29) in
    let count0 := u32 (count0 + nbits) in
    let count1 := if count0 <? nbits then u32 (count1 + 1) else count1 in
    let pms := mk_md5 (count0, count1) (m_abcd pms) (m_buf pms) in
    if negb (offset =? 0) then
      let copy := s32 (if u32 (offset + nbytes) >? 64 then 64 - offset else nbytes) in
      bs ← rdn data 0 copy;
      buf ← wrn (m_buf pms) offset bs;
      let pms := mk_md5 (m_count pms) (m_abcd pms) buf in
      if offset + copy <? 64 then Ret pms
      else
        pms ← bson_md5_process pms (m_buf pms);
        md5_append_rest pms (drop (Z.to_nat copy) data) (left - copy)
    else md5_append_rest pms data left.

Definition pad : bytes := 0x80 :: replicate 63 0.

Definition bson_md5_finish (pms : bson_md5_t) : outcome (bson_md5_t * bytes) :=
  let data := le_bytes 4 (m_count pms).1 ++ le_bytes 4 (m_count pms).2 in
  pms ← bson_md5_append pms pad (Z.land (u32 (55 - Z.shiftr (m_count pms).1 3)) 63 + 1);
  pms ← bson_md5_append pms data 8;
  let '(a, b, c, d) := m_abcd pms in
  Ret (pms, le_bytes 4 a ++ le_bytes 4 b ++ le_bytes 4 c ++ le_bytes 4 d).

(** ** The definition of RFC 1321 *)

(** The shift amounts of a round and its message index. *)
Definition rfc_round (shifts : list Z) (index : Z -> Z) : list (Z * Z) :=
  map (fun i => (index i mod 16, default 0 (shifts !! Z.to_nat (i mod 4)))) (seqZ 0 16).

Definition rfc_T : list Z := [
  0xd76aa478; 0xe8c7b756; 0x242070db; 0xc1bdceee; 0xf57c0faf; 0x4787c62a; 0xa8304613; 0xfd469501;
  0x698098d8; 0x8b44f7af; 0xffff5bb1; 0x895cd7be; 0x6b901122; 0xfd987193; 0xa679438e; 0x49b40821;
  0xf61e2562; 0xc040b340; 0x265e5a51; 0xe9b6c7aa; 0xd62f105d; 0x02441453; 0xd8a1e681; 0xe7d3fbc8;
  0x21e1cde6; 0xc33707d6; 0xf4d50d87; 0x455a14ed; 0xa9e3e905; 0xfcefa3f8; 0x676f02d9; 0x8d2a4c8a;
  0xfffa3942; 0x8771f681; 0x6d9d6122; 0xfde5380c; 0xa4beea44; 0x4bdecfa9; 0xf6bb4b60; 0xbebfbc70;
  0x289b7ec6; 0xeaa127fa; 0xd4ef3085; 0x04881d05; 0xd9d4d039; 0xe6db99e5; 0x1fa27cf8; 0xc4ac5665;
  0xf4292244; 0x432aff97; 0xab9423a7; 0xfc93a039; 0x655b59c3; 0x8f0ccc92; 0xffeff47d; 0x85845dd1;
  0x6fa87e4f; 0xfe2ce6e0; 0xa3014314; 0x4e0811a1; 0xf7537e82; 0xbd3af235; 0x2ad7d2bb; 0xeb86d391].

Definition rfc_block (abcd : Z * Z * Z * Z) (X : bytes) : Z * Z * Z * Z :=
  let r := run_round Round.F X (rfc_round [7; 12; 17; 22] (fun i => i)) (take 16 rfc_T) abcd in
  let r := run_round Round.G X (rfc_round [5; 9; 14; 20] (fun i => 1 + 5 * i)) (take 16 (drop 16 rfc_T)) r in
  let r := run_round Round.H X (rfc_round [4; 11; 16; 23] (fun i => 5 + 3 * i)) (take 16 (drop 32 rfc_T)) r in
  let r := run_round Round.I X (rfc_round [6; 10; 15; 21] (fun i => 7 * i)) (take 16 (drop 48 rfc_T)) r in
  let '(a, b, c, d) := r in
  let '(a0, b0, c0, d0) := abcd in
  (u32 (a0 + a), u32 (b0 + b), u32 (c0 + c), u32 (d0 + d)).

(** [n] blocks from the front of [l]. *)
Fixpoint md5_blocks (n : nat) (abcd : Z * Z * Z * Z) (l : bytes) : Z * Z * Z * Z :=
  match n with
  | O => abcd
  | S n => md5_blocks n (rfc_block abcd (take 64 l)) (drop 64 l)
  end.

(** The message, a one bit, zeros up to 56 modulo 64, the length in bits. *)
Definition md5_padded (msg : bytes) : bytes :=
  msg ++ 0x80 :: replicate (Z.to_nat ((55 - zlen msg) mod 64)) 0 ++ le_bytes 8 (8 * zlen msg).

Definition rfc_init : Z * Z * Z * Z := (0x67452301, 0xefcdab89, 0x98badcfe, 0x10325476).

Definition md5 (msg : bytes) : bytes :=
  let p := md5_padded msg in
  let '(a, b, c, d) := md5_blocks (length p / 64) rfc_init p in
  le_bytes 4 a ++ le_bytes 4 b ++ le_bytes 4 c ++ le_bytes 4 d.

Example md5_empty : md5 [] = [0xd4; 0x1d; 0x8c; 0xd9; 0x8f; 0x00; 0xb2; 0x04; 0xe9; 0x80; 0x09; 0x98; 0xec; 0xf8; 0x42; 0x7e].
Proof. vm_compute. reflexivity. Qed.
Example md5_abc : md5 [97; 98; 99] = [0x90; 0x01; 0x50; 0x98; 0x3c; 0xd2; 0x4f; 0xb0; 0xd6; 0x96; 0x3f; 0x7d; 0x28; 0xe1; 0x7f; 0x72].
Proof. vm_compute. reflexivity. Qed.

(** * Proofs *)

Lemma block_rfc abcd X : md5_block abcd X = rfc_block abcd X.
Proof.
  assert (E1 : round1 = rfc_round [7; 12; 17; 22] (fun i => i)) by (vm_compute; reflexivity).
  assert (E2 : round2 = rfc_round [5; 9; 14; 20] (fun i => 1 + 5 * i)) by (vm_compute; reflexivity).
  assert (E3 : round3 = rfc_round [4; 11; 16; 23] (fun i => 5 + 3 * i)) by (vm_compute; reflexivity).
  assert (E4 : round4 = rfc_round [6; 10; 15; 21] (fun i => 7 * i)) by (vm_compute; reflexivity).
  assert (ET : T_consts = rfc_T) by (vm_compute; reflexivity).
  unfold md5_block, rfc_block. by rewrite E1, E2, E3, E4, ET.
Qed.

(** ** Blocks *)

Lemma md5_blocks_add a b : forall s l, md5_blocks (a + b) s l = md5_blocks b (md5_blocks a s l) (drop (64 * a) l).
Proof.
  induction a as [|a IH]; intros s l.
  - by rewrite Nat.mul_0_r, drop_0.
  - cbn [Nat.add md5_blocks]. rewrite IH, drop_drop. do 2 f_equal. lia.
Qed.

Lemma md5_blocks_prefix n : forall s l r, (64 * n <= length l)%nat -> md5_blocks n s (l ++ r) = md5_blocks n s l.
Proof.
  induction n as [|n IH]; intros s l r Hl; [done|]. cbn [md5_blocks].
  rewrite take_app_le, drop_app_le, IH by (rewrite ?length_drop; lia). done.
Qed.

Lemma full_blocks_spec n : forall cnt A buf p left,
  left / 64 = Z.of_nat n -> 0 <= left <= zlen p ->
  md5_full_blocks n (mk_md5 cnt A buf) p left = Ret (mk_md5 cnt (md5_blocks n A p) buf, drop (64 * n) p, left mod 64).
Proof.
  induction n as [|n IH]; intros cnt A buf p left Hn Hl; cbn [md5_full_blocks];
    pose proof (Z.mod_pos_bound left 64 ltac:(lia)); pose proof (Z.div_mod left 64 ltac:(lia)).
  - replace (left >=? 64) with false by lia. rewrite Nat.mul_0_r, drop_0. rewrite (Z.mod_small left) by lia. done.
  - replace (left >=? 64) with true by lia. unfold bson_md5_process. rewrite rdn_ret by lia. cbn [mbind outcome_bind m_count m_abcd m_buf].
    assert (E : (left - 64) / 64 = left / 64 - 1 /\ (left - 64) mod 64 = left mod 64).
    { replace (left - 64) with (left + (-1) * 64) by lia. rewrite Z.div_add, Z.mod_add by lia. lia. }
    destruct E as [E1 E2]. rewrite IH; [|rewrite E1; lia | rewrite zlen_drop; lia]. rewrite E2, drop_drop, block_rfc. change (Z.to_nat 0) with O. rewrite drop_0.
    change (Z.to_nat 64) with 64%nat. cbn [md5_blocks].
    by replace (64 * S n)%nat with (64 + 64 * n)%nat by lia.
Qed.

Lemma append_rest_spec cnt A buf p left :
  0 <= left <= zlen p -> zlen buf = 64 ->
  exists buf', md5_append_rest (mk_md5 cnt A buf) p left = Ret (mk_md5 cnt (md5_blocks (Z.to_nat (left / 64)) A p) buf') /\
    zlen buf' = 64 /\ take (Z.to_nat (left mod 64)) buf' = take (Z.to_nat (left mod 64)) (drop (Z.to_nat (64 * (left / 64))) p).
Proof.
  intros Hl Hb. pose proof (Z.div_pos left 64 ltac:(lia) ltac:(lia)). unfold md5_append_rest. rewrite full_blocks_spec by lia. cbn [mbind outcome_bind m_count m_abcd m_buf].
  replace (64 * Z.to_nat (left / 64))%nat with (Z.to_nat (64 * (left / 64))) by lia.
  pose proof (Z.mod_pos_bound left 64 ltac:(lia)). pose proof (Z.div_mod left 64 ltac:(lia)).
  destruct (left mod 64 =? 0) eqn:E; bool_hyps; cbn [negb].
  - exists buf. rewrite E. done.
  - rewrite rdn_ret by (rewrite ?zlen_drop; lia). cbn [mbind outcome_bind]. change (Z.to_nat 0) with O. rewrite drop_0.
    set (bs := take _ _). assert (Lb : zlen bs = left mod 64) by (unfold bs; rewrite zlen_take, zlen_drop; lia).
    rewrite wrn_ret by lia. cbn [mbind outcome_bind]. change (Z.to_nat 0) with O. rewrite take_0. cbn [app].
    eexists. split; [done|]. split; [rewrite zlen_app, zlen_drop; unfold zlen in *; lia|].
    rewrite take_app_le by (unfold zlen in Lb; lia). apply take_ge. unfold zlen in Lb. lia.
Qed.

(** ** The state after a message *)

Record md5_inv (s : bson_md5_t) (m : bytes) : Prop := mk_inv {
  inv_count : m_count s = (u32 (8 * zlen m), u32 (8 * zlen m / 2 ^ 32));
  inv_abcd : m_abcd s = md5_blocks (Z.to_nat (zlen m / 64)) rfc_init m;
  inv_len : zlen (m_buf s) = 64;
  inv_tail : take (Z.to_nat (zlen m mod 64)) (m_buf s) = drop (Z.to_nat (64 * (zlen m / 64))) m;
}.

Lemma init_inv : md5_inv bson_md5_init [].
Proof. by constructor. Qed.

(** The two words of the bit count. *)
Lemma count_append L n :
  0 <= L -> 0 <= n < 2 ^ 32 ->
  let nbits := u32 (Z.shiftl n 3) in
  let count0 := u32 (u32 (8 * L) + nbits) in
  let count1 := u32 (u32 (8 * L / 2 ^ 32) + Z.shiftr n 29) in
  count0 = u32 (8 * (L + n)) /\
  (if count0 <? nbits then u32 (count1 + 1) else count1) = u32 (8 * (L + n) / 2 ^ 32).
Proof.
  intros HL Hn. cbn zeta. rewrite Z.shiftl_mul_pow2, Z.shiftr_div_pow2 by lia.
  change (2 ^ 3) with 8. change (2 ^ 29) with 536870912. unfold u32. change (2 ^ 32) with 4294967296.
  set (B := 4294967296). assert (HB : B = 4294967296) by reflexivity.
  assert (E0 : ((8 * L) mod B + (n * 8) mod B) mod B = (8 * (L + n)) mod B)
    by (rewrite <- Z.add_mod by lia; f_equal; lia).
  split; [exact E0|]. rewrite E0.
  pose proof (Z.div_mod (8 * L) B ltac:(lia)). pose proof (Z.mod_pos_bound (8 * L) B ltac:(lia)).
  pose proof (Z.div_mod (n * 8) B ltac:(lia)). pose proof (Z.mod_pos_bound (n * 8) B ltac:(lia)).
  pose proof (Z.div_mod (8 * (L + n)) B ltac:(lia)). pose proof (Z.mod_pos_bound (8 * (L + n)) B ltac:(lia)).
  assert (Eq : n / 536870912 = (n * 8) / B) by (rewrite HB; replace 4294967296 with (536870912 * 8) by lia; by rewrite Z.div_mul_cancel_r by lia).
  rewrite Eq. rewrite (Z.add_mod_idemp_l (8 * L / B) (n * 8 / B)) by lia.
  destruct ((8 * (L + n)) mod B <? (n * 8) mod B) eqn:Ec; bool_hyps.
  - rewrite (Z.add_mod_idemp_l (8 * L / B + n * 8 / B) 1) by lia. f_equal. nia.
  - f_equal. nia.
Qed.

Lemma div_mod_add L n : 0 <= L -> 0 <= n ->
  (L + n) / 64 = L / 64 + (L mod 64 + n) / 64 /\ (L + n) mod 64 = (L mod 64 + n) mod 64.
Proof.
  intros. pose proof (Z.div_mod L 64 ltac:(lia)).
  replace (L + n) with (L mod 64 + n + L / 64 * 64) by lia. rewrite Z.div_add, Z.mod_add by lia. lia.
Qed.

(** Enough to know what happens to the tail of the old message followed by the
    new data. *)
Lemma inv_of_tail s m d n cnt A buf :
  md5_inv s m -> 0 <= n <= zlen d ->
  let t := drop (Z.to_nat (64 * (zlen m / 64))) m in
  let o := zlen m mod 64 in
  cnt = (u32 (8 * (zlen m + n)), u32 (8 * (zlen m + n) / 2 ^ 32)) -> zlen buf = 64 ->
  A = md5_blocks (Z.to_nat ((o + n) / 64)) (m_abcd s) (t ++ d) ->
  take (Z.to_nat ((o + n) mod 64)) buf =
    take (Z.to_nat ((o + n) mod 64)) (drop (Z.to_nat (64 * ((o + n) / 64))) (t ++ d)) ->
  md5_inv (mk_md5 cnt A buf) (m ++ take (Z.to_nat n) d).
Proof.
  intros [_ Ha _ _] Hn t o Hc Hb HA Ht.
  pose proof (zlen_nonneg m). pose proof (Z.mod_pos_bound (zlen m) 64 ltac:(lia)).
  pose proof (Z.div_mod (zlen m) 64 ltac:(lia)). pose proof (Z.div_pos (zlen m) 64 ltac:(lia) ltac:(lia)).
  pose proof (Z.div_pos (o + n) 64 ltac:(lia) ltac:(lia)). pose proof (Z.div_mod (o + n) 64 ltac:(lia)).
  pose proof (Z.mod_pos_bound (o + n) 64 ltac:(lia)).
  destruct (div_mod_add (zlen m) n) as [E1 E2]; [lia | lia |]. fold o in E1, E2.
  assert (Ln : zlen (take (Z.to_nat n) d) = n) by (rewrite zlen_take; lia).
  assert (Lt : zlen t = o) by (unfold t; rewrite zlen_drop; lia).
  assert (Ed : forall j, drop (Z.to_nat (64 * (zlen m / 64)) + j) (m ++ take (Z.to_nat n) d) = drop j (t ++ take (Z.to_nat n) d)).
  { intros j. rewrite <- drop_drop. f_equal. apply drop_app_le. unfold zlen in *. lia. }
  assert (Eu : t ++ d = (t ++ take (Z.to_nat n) d) ++ drop (Z.to_nat n) d) by (rewrite <- app_assoc; by rewrite take_drop).
  constructor; cbn [m_count m_abcd m_buf]; rewrite ?zlen_app, ?Ln.
  - exact Hc.
  - rewrite HA, Ha, E1, Z2Nat.inj_add, md5_blocks_add by lia.
    replace (64 * Z.to_nat (zlen m / 64))%nat with (Z.to_nat (64 * (zlen m / 64)) + 0)%nat by lia.
    rewrite Ed, drop_0, Eu, (md5_blocks_prefix _ _ m), md5_blocks_prefix; [done | |].
    + rewrite length_app. unfold zlen in *. lia.
    + unfold zlen in *. lia.
  - exact Hb.
  - rewrite E2, Ht, E1. replace (64 * (zlen m / 64 + (o + n) / 64)) with (64 * (zlen m / 64) + 64 * ((o + n) / 64)) by lia.
    rewrite Z2Nat.inj_add, Ed, Eu by lia.
    rewrite drop_app_le, take_app_le by (rewrite ?length_drop, ?length_app; unfold zlen in *; lia).
    apply take_ge. rewrite length_drop, length_app. unfold zlen in *. lia.
Qed.

Lemma append_inv s m d n :
  md5_inv s m -> 0 <= n <= zlen d -> n < 2 ^ 31 ->
  exists s', bson_md5_append s d n = Ret s' /\ md5_inv s' (m ++ take (Z.to_nat n) d).
Proof.
  intros Hs Hn Hmax. pose proof Hs as [Hc Ha Hl Ht]. pose proof (zlen_nonneg m).
  unfold bson_md5_append. rewrite Hc. rewrite (s32_id n) by lia.
  assert (Eo : Z.land (Z.shiftr (u32 (8 * zlen m)) 3) 63 = zlen m mod 64).
  { rewrite (land_mask _ 63 6), Z.shiftr_div_pow2 by lia. change (2 ^ 3) with 8. change (2 ^ 6) with 64. unfold u32.
    replace (2 ^ 32) with (8 * 536870912) by lia. rewrite Z.mul_mod_distr_l, Z.mul_comm, Z.div_mul by lia.
    apply Z.mod_mod_divide. by exists 8388608. }
  rewrite Eo. destruct (n <=? 0) eqn:E0; bool_hyps.
  { exists s. split; [done|]. replace n with 0 by lia. by rewrite take_0, app_nil_r. }
  pose proof (count_append (zlen m) n ltac:(lia) ltac:(lia)) as [C0 C1]. cbn zeta in C0, C1.
  rewrite C0 in C1 |- *. rewrite C1. clear C0 C1. set (cnt := (_, _)).
  set (o := zlen m mod 64) in *. set (t := drop (Z.to_nat (64 * (zlen m / 64))) m) in *.
  pose proof (Z.mod_pos_bound (zlen m) 64 ltac:(lia)). pose proof (Z.div_mod (zlen m) 64 ltac:(lia)).
  pose proof (Z.div_pos (zlen m) 64 ltac:(lia) ltac:(lia)).
  assert (Lt : zlen t = o) by (unfold t; rewrite zlen_drop; lia).
  assert (I := fun A buf => inv_of_tail s m d n cnt A buf Hs Hn). cbn zeta in I. fold o t in I.
  destruct (o =? 0) eqn:Eoz; bool_hyps; cbn [negb m_count m_abcd m_buf].
  - assert (t = []) as Et by (apply length_zero_iff_nil; unfold zlen in Lt; lia).
    destruct (append_rest_spec cnt (m_abcd s) (m_buf s) d n ltac:(lia) Hl) as (buf & -> & Lb & Hb).
    eexists. split; [done|]. rewrite Eoz, Et, Z.add_0_l in I. by apply I.
  - rewrite (u32_id (o + n)) by lia.
    assert (Ec : (if o + n >? 64 then 64 - o else n) = Z.min n (64 - o)) by (destruct (o + n >? 64) eqn:?; lia).
    rewrite Ec, s32_id by lia. clear Ec. set (copy := Z.min n (64 - o)).
    rewrite rdn_ret by lia. cbn [mbind outcome_bind]. change (Z.to_nat 0) with O. rewrite drop_0.
    set (bs := take (Z.to_nat copy) d). assert (Lb : zlen bs = copy) by (unfold bs; rewrite zlen_take; lia).
    rewrite wrn_ret by lia. cbn [mbind outcome_bind]. rewrite Ht. set (buf := t ++ bs ++ _).
    assert (Lbuf : zlen buf = 64) by (unfold buf; rewrite !zlen_app, zlen_drop; unfold zlen in *; lia).
    destruct (o + copy <? 64) eqn:Eg; bool_hyps.
    + eexists. split; [done|]. assert (copy = n) as Ecn by lia. rewrite (Z.div_small (o + n)), (Z.mod_small (o + n)) in I by lia.
      apply I; [done | done | done |]. rewrite Z.mul_0_r. change (Z.to_nat 0) with O. rewrite drop_0.
      unfold buf, bs. rewrite Ecn. rewrite <- (take_drop (Z.to_nat n) d) at 3.
      rewrite !app_assoc, !(take_app_le (t ++ take (Z.to_nat n) d)); [done|..]; rewrite length_app, length_take; unfold zlen in *; lia.
    + assert (copy = 64 - o) as Ecn by lia. unfold bson_md5_process. rewrite rdn_ret by lia.
      cbn [mbind outcome_bind m_count m_abcd m_buf]. change (Z.to_nat 0) with O. change (Z.to_nat 64) with 64%nat.
      rewrite drop_0, block_rfc, (take_ge buf) by (unfold zlen in Lbuf; lia).
      destruct (append_rest_spec cnt (rfc_block (m_abcd s) buf) buf (drop (Z.to_nat copy) d) (n - copy))
        as (buf' & -> & Lb' & Hb'); [rewrite zlen_drop; lia | done |].
      eexists. split; [done|].
      assert (E64 : buf = take 64 (t ++ d)).
      { unfold buf. rewrite drop_ge, app_nil_r by (unfold zlen in *; lia).
        rewrite take_app_ge by (unfold zlen in *; lia). unfold bs. do 2 f_equal. unfold zlen in *. lia. }
      assert (D64 : drop (Z.to_nat copy) d = drop 64 (t ++ d)).
      { rewrite drop_app_ge by (unfold zlen in *; lia). f_equal. unfold zlen in *. lia. }
      assert (Ej : (o + n) / 64 = 1 + (n - copy) / 64 /\ (o + n) mod 64 = (n - copy) mod 64).
      { replace (o + n) with (n - copy + 1 * 64) by lia. rewrite Z.div_add, Z.mod_add by lia. lia. }
      destruct Ej as [Ej1 Ej2]. pose proof (Z.div_pos (n - copy) 64 ltac:(lia) ltac:(lia)).
      apply I; [done | done | |].
      * rewrite Ej1, Z2Nat.inj_add by lia. change (Z.to_nat 1) with 1%nat. cbn [Nat.add md5_blocks]. by rewrite <- E64, <- D64.
      * rewrite Ej1, Ej2, Hb', D64, drop_drop. do 2 f_equal. lia.
Qed.

Lemma count_bytes x : le_bytes 4 (u32 x) ++ le_bytes 4 (u32 (x / 2 ^ 32)) = le_bytes 8 x.
Proof.
  unfold u32. change (2 ^ 32) with (256 ^ Z.of_nat 4). rewrite !le_bytes_mod.
  by rewrite <- (le_bytes_app 4 4).
Qed.

Lemma pad_length L : 0 <= L -> Z.land (u32 (55 - Z.shiftr (u32 (8 * L)) 3)) 63 = (55 - L) mod 64.
Proof.
  intros HL. rewrite (land_mask _ 63 6), Z.shiftr_div_pow2 by lia. change (2 ^ 3) with 8. change (2 ^ 6) with 64.
  unfold u32. rewrite Z.mod_mod_divide by (by exists 67108864).
  replace ((8 * L) mod 2 ^ 32) with (L mod 536870912 * 8)
    by (replace (2 ^ 32) with (8 * 536870912) by lia; rewrite Z.mul_mod_distr_l by lia; lia).
  rewrite Z.div_mul by lia. rewrite <- (Zminus_mod_idemp_r 55 (L mod 536870912)).
  rewrite Z.mod_mod_divide by (by exists 8388608). by rewrite Zminus_mod_idemp_r.
Qed.

Lemma finish_digest s m : md5_inv s m -> exists s', bson_md5_finish s = Ret (s', md5 m).
Proof.
  intros Hs. pose proof Hs as [Hc _ _ _]. pose proof (zlen_nonneg m). unfold bson_md5_finish. rewrite Hc. cbn [fst snd].
  rewrite count_bytes, pad_length by lia. pose proof (Z.mod_pos_bound (55 - zlen m) 64 ltac:(lia)) as Hp.
  set (k := (55 - zlen m) mod 64) in *.
  destruct (append_inv s m pad (k + 1) Hs) as (s1 & E1 & H1); [change (zlen pad) with 64; lia | lia |].
  rewrite E1. cbn [mbind outcome_bind].
  assert (Epad : take (Z.to_nat (k + 1)) pad = 0x80 :: replicate (Z.to_nat k) 0).
  { replace (Z.to_nat (k + 1)) with (S (Z.to_nat k)) by lia. unfold pad. cbn [firstn]. f_equal. rewrite take_replicate. f_equal. lia. }
  rewrite Epad in H1. destruct (append_inv s1 _ (le_bytes 8 (8 * zlen m)) 8 H1) as (s2 & E2 & H2); [by rewrite zlen_le_bytes | lia |].
  rewrite E2. cbn [mbind outcome_bind]. rewrite take_ge in H2 by (by rewrite length_le_bytes).
  rewrite <- app_assoc in H2. cbn [app] in H2. unfold k in H2. fold (md5_padded m) in H2.
  destruct H2 as [_ Ha _ _]. unfold md5.
  assert (En : Z.to_nat (zlen (md5_padded m) / 64) = (length (md5_padded m) / 64)%nat)
    by (unfold zlen; rewrite Z2Nat.inj_div, Nat2Z.id by lia; done).
  rewrite En in Ha. rewrite Ha. destruct (md5_blocks _ rfc_init _) as [[[a b] c] d]. by exists s2.
Qed.

(** A client that hashes a message given in pieces. *)
Fixpoint md5_append_all (s : bson_md5_t) (chunks : list bytes) : outcome bson_md5_t :=
  match chunks with
  | [] => Ret s
  | c :: chunks => s ← bson_md5_append s c (zlen c); md5_append_all s chunks
  end.

Definition md5_of_chunks (chunks : list bytes) : outcome bytes :=
  s ← md5_append_all bson_md5_init chunks;
  '(_, digest) ← bson_md5_finish s;
  Ret digest.

Lemma append_all_inv chunks : forall s m, md5_inv s m -> Forall (fun c => zlen c < 2 ^ 31) chunks ->
  exists s', md5_append_all s chunks = Ret s' /\ md5_inv s' (m ++ concat chunks).
Proof.
  induction chunks as [|c chunks IH]; intros s m Hs Hc; cbn [md5_append_all concat].
  - exists s. by rewrite app_nil_r.
  - inversion_clear Hc as [|? ? Hl Hr]. pose proof (zlen_nonneg c).
    destruct (append_inv s m c (zlen c) Hs) as (s1 & -> & H1); [lia | done |]. cbn [mbind outcome_bind].
    rewrite take_ge in H1 by (unfold zlen; lia). destruct (IH s1 _ H1 Hr) as (s2 & -> & H2). exists s2. by rewrite app_assoc.
Qed.

(** * Properties *)

(** C37: The streaming MD5 computes the digest of RFC 1321.  However a message is
    cut into pieces (each shorter than 2^31 bytes), initialising, appending the
    pieces and finishing gives the digest of the whole message as the standard
    defines it (padding, length in bits modulo 2^64, the sixty-four steps with
    the standard's constants); no byte outside the buffers is read, although the
    block buffer starts uninitialised. *)
Theorem md5_streaming_correct chunks :
  Forall (fun c => zlen c < 2 ^ 31) chunks -> md5_of_chunks chunks = Ret (md5 (concat chunks)).
Proof.
  intros Hc. unfold md5_of_chunks. destruct (append_all_inv chunks _ _ init_inv Hc) as (s & -> & Hs).
  cbn [mbind outcome_bind]. destruct (finish_digest s _ Hs) as [s' ->]. done.
Qed.

Lemma md5_streaming_correct_witness :
  md5_of_chunks [[97]; replicate 70 98; []] = Ret (md5 (97 :: replicate 70 98)).
Proof. apply (md5_streaming_correct [[97]; replicate 70 98; []]). repeat constructor. Defined.
