(* ===== verification/Oid.v ===== *)
(** * Object ids and their generator (bson-oid.c, bson-oid.h, bson-context.c)

    An object id is twelve bytes.  The generator reads the operating system:
    the clock, the process id, the host name and [rand_r] are fields of [env].
    The thread-id branch is not compiled (BSON_HAVE_SYSCALL_TID is 0 in
    bson-config.h). *)
From S2P Require Import Prelude Lifecycle Md5.

(** ** Text form *)

(** The little-endian table of two-character pairs. *)
Definition gHexCharPairs : list Z := [
  12336; 12592; 12848; 13104; 13360; 13616; 13872; 14128; 14384; 14640; 24880; 25136; 25392; 25648; 25904;
  26160; 12337; 12593; 12849; 13105; 13361; 13617; 13873; 14129; 14385; 14641; 24881; 25137; 25393; 25649;
  25905; 26161; 12338; 12594; 12850; 13106; 13362; 13618; 13874; 14130; 14386; 14642; 24882; 25138; 25394;
  25650; 25906; 26162; 12339; 12595; 12851; 13107; 13363; 13619; 13875; 14131; 14387; 14643; 24883; 25139;
  25395; 25651; 25907; 26163; 12340; 12596; 12852; 13108; 13364; 13620; 13876; 14132; 14388; 14644; 24884;
  25140; 25396; 25652; 25908; 26164; 12341; 12597; 12853; 13109; 13365; 13621; 13877; 14133; 14389; 14645;
  24885; 25141; 25397; 25653; 25909; 26165; 12342; 12598; 12854; 13110; 13366; 13622; 13878; 14134; 14390;
  14646; 24886; 25142; 25398; 25654; 25910; 26166; 12343; 12599; 12855; 13111; 13367; 13623; 13879; 14135;
  14391; 14647; 24887; 25143; 25399; 25655; 25911; 26167; 12344; 12600; 12856; 13112; 13368; 13624; 13880;
  14136; 14392; 14648; 24888; 25144; 25400; 25656; 25912; 26168; 12345; 12601; 12857; 13113; 13369; 13625;
  13881; 14137; 14393; 14649; 24889; 25145; 25401; 25657; 25913; 26169; 12385; 12641; 12897; 13153; 13409;
  13665; 13921; 14177; 14433; 14689; 24929; 25185; 25441; 25697; 25953; 26209; 12386; 12642; 12898; 13154;
  13410; 13666; 13922; 14178; 14434; 14690; 24930; 25186; 25442; 25698; 25954; 26210; 12387; 12643; 12899;
  13155; 13411; 13667; 13923; 14179; 14435; 14691; 24931; 25187; 25443; 25699; 25955; 26211; 12388; 12644;
  12900; 13156; 13412; 13668; 13924; 14180; 14436; 14692; 24932; 25188; 25444; 25700; 25956; 26212; 12389;
  12645; 12901; 13157; 13413; 13669; 13925; 14181; 14437; 14693; 24933; 25189; 25445; 25701; 25957; 26213;
  12390; 12646; 12902; 13158; 13414; 13670; 13926; 14182; 14438; 14694; 24934; 25190; 25446; 25702; 25958;
  26214].

(** [dst[i] = gHexCharPairs[id[i]]] for the bytes of [id]. *)
Fixpoint hex_pairs (id : bytes) : outcome bytes :=
  match id with
  | [] => Ret []
  | b :: id => p ← rd gHexCharPairs b; r ← hex_pairs id; Ret (le_bytes 2 p ++ r)
  end.

(** The 25 bytes stored at [str]. *)
Definition bson_oid_to_string (oid : bytes) : outcome bytes :=
  id ← rdn oid 0 12; s ← hex_pairs id; Ret (s ++ [0]).

Definition bson_oid_parse_hex_char (hex : Z) : Z :=
  if (48 <=? hex) && (hex <=? 57) then hex - 48
  else if (97 <=? hex) && (hex <=? 102) then hex - 97 + 10
  else if (65 <=? hex) && (hex <=? 70) then hex - 65 + 10
  else 0.

Fixpoint parse_hex_pairs (n : nat) (str : bytes) : outcome bytes :=
  match n with
  | O => Ret []
  | S n =>
    match str with
    | h :: l :: str =>
      r ← parse_hex_pairs n str;
      Ret (u8 (Z.lor (Z.shiftl (bson_oid_parse_hex_char h) 4) (bson_oid_parse_hex_char l)) :: r)
    | _ => Oob
    end
  end.

Definition bson_oid_init_from_string (str : bytes) : outcome bytes := parse_hex_pairs 12 str.
Definition bson_oid_init_from_data (data : bytes) : outcome bytes := rdn data 0 12.
Definition bson_oid_copy (src : bytes) : outcome bytes := rdn src 0 12.

Definition is_hex (c : Z) : bool :=
  ((48 <=? c) && (c <=? 57)) || ((97 <=? c) && (c <=? 102)) || ((65 <=? c) && (c <=? 70)).

(** The loop over [str[0 .. n)]. *)
Fixpoint all_hex (n : nat) (str : bytes) : outcome bool :=
  match n with
  | O => Ret true
  | S n => match str with [] => Oob | c :: str => if is_hex c then all_hex n str else Ret false end
  end.

Definition bson_oid_is_valid (str : bytes) (length : Z) : outcome bool :=
  length ← (if length =? 25 then c ← rd str 24; Ret (if c =? 0 then 24 else 25) else Ret length);
  if length =? 24 then all_hex 24 str else Ret false.

(** ** Parts of an id *)

Definition be_bytes (n : nat) (z : Z) : bytes := rev (le_bytes n z).
Definition be_val (l : bytes) : Z := le_val (rev l).

Definition bson_oid_get_time_t (oid : bytes) : outcome Z := t ← rdn oid 0 4; Ret (be_val t).

Definition bson_oid_hash (oid : bytes) : outcome Z :=
  id ← rdn oid 0 12;
  Ret (fold_left (fun hash b => u32 (u32 (u32 (Z.shiftl hash 5) + hash) + b)) id 5381).

Definition bson_oid_compare (oid1 oid2 : bytes) : outcome Z := memcmp oid1 oid2 12.
Definition bson_oid_equal (oid1 oid2 : bytes) : outcome bool := c ← memcmp oid1 oid2 12; Ret (c =? 0).

(** ** The generator *)

(** What one call reads from the system; [e_hostname] is the buffer that
    [gethostname] filled. *)
Record env := mk_env {
  e_time : Z;
  e_tv_sec : Z;
  e_tv_usec : Z;
  e_pid : Z;
  e_hostname : bytes;
  e_rand_r : Z -> Z;
}.

(** The process id in 16 bits. *)
Definition _bson_getpid (e : env) : Z := e_pid e mod 2 ^ 16.

(** The values of the four function pointers. *)
Inductive host_fn := _bson_context_get_oid_host | _bson_context_get_oid_host_cached.
Inductive pid_fn := _bson_context_get_oid_pid | _bson_context_get_oid_pid_cached.
Inductive seq32_fn := _bson_context_get_oid_seq32 | _bson_context_get_oid_seq32_threadsafe.
Inductive seq64_fn := _bson_context_get_oid_seq64 | _bson_context_get_oid_seq64_threadsafe.

Record bson_context_t := mk_context {
  ctx_flags : Z;
  ctx_pidbe : bytes;
  ctx_md5 : bytes;
  ctx_seq32 : Z;
  ctx_seq64 : Z;
  oid_get_host : host_fn;
  oid_get_pid : pid_fn;
  oid_get_seq32 : seq32_fn;
  oid_get_seq64 : seq64_fn;
}.

Definition BSON_CONTEXT_THREAD_SAFE : Z := 1.
Definition BSON_CONTEXT_DISABLE_HOST_CACHE : Z := 2.
Definition BSON_CONTEXT_DISABLE_PID_CACHE : Z := 4.
Definition ctx_has (flags f : Z) : bool := negb (Z.land flags f =? 0).

(** The first three bytes of the MD5 of the host name. *)
Definition host_digest (e : env) : outcome bytes :=
  hostname ← wrn (e_hostname e) (zlen (e_hostname e) - 1) [0];
  n ← strlen hostname;
  md5 ← bson_md5_append bson_md5_init hostname (u32 n);
  '(_, digest) ← bson_md5_finish md5;
  rdn digest 0 3.

Definition get_oid_host (e : env) (context : bson_context_t) (oid : bytes) : outcome bytes :=
  match oid_get_host context with
  | _bson_context_get_oid_host => d ← host_digest e; wrn oid 4 d
  | _bson_context_get_oid_host_cached => d ← rdn (ctx_md5 context) 0 3; wrn oid 4 d
  end.

Definition get_oid_pid (e : env) (context : bson_context_t) (oid : bytes) : outcome bytes :=
  match oid_get_pid context with
  | _bson_context_get_oid_pid => wrn oid 7 (be_bytes 2 (_bson_getpid e))
  | _bson_context_get_oid_pid_cached => d ← rdn (ctx_pidbe context) 0 2; wrn oid 7 d
  end.

Definition with_seq32 (c : bson_context_t) (n : Z) : bson_context_t :=
  mk_context (ctx_flags c) (ctx_pidbe c) (ctx_md5 c) n (ctx_seq64 c)
    (oid_get_host c) (oid_get_pid c) (oid_get_seq32 c) (oid_get_seq64 c).
Definition with_seq64 (c : bson_context_t) (n : Z) : bson_context_t :=
  mk_context (ctx_flags c) (ctx_pidbe c) (ctx_md5 c) (ctx_seq32 c) n
    (oid_get_host c) (oid_get_pid c) (oid_get_seq32 c) (oid_get_seq64 c).

(** [seq32++] on [int32_t]: undefined at the maximum; the atomic version wraps
    and returns the new value.  Bytes 9 to 11 get the low three bytes of the
    counter, most significant first. *)
Definition get_oid_seq32 (context : bson_context_t) (oid : bytes) : outcome (bson_context_t * bytes) :=
  match oid_get_seq32 context with
  | _bson_context_get_oid_seq32 =>
    if ctx_seq32 context =? 2 ^ 31 - 1 then Oob
    else
      oid ← wrn oid 9 (drop 1 (be_bytes 4 (u32 (ctx_seq32 context))));
      Ret (with_seq32 context (ctx_seq32 context + 1), oid)
  | _bson_context_get_oid_seq32_threadsafe =>
    let seq := s32 (ctx_seq32 context + 1) in
    oid ← wrn oid 9 (drop 1 (be_bytes 4 (u32 seq)));
    Ret (with_seq32 context seq, oid)
  end.

Definition get_oid_seq64 (context : bson_context_t) (oid : bytes) : outcome (bson_context_t * bytes) :=
  match oid_get_seq64 context with
  | _bson_context_get_oid_seq64 =>
    if ctx_seq64 context =? 2 ^ 63 - 1 then Oob
    else
      oid ← wrn oid 4 (be_bytes 8 (u64 (ctx_seq64 context)));
      Ret (with_seq64 context (ctx_seq64 context + 1), oid)
  | _bson_context_get_oid_seq64_threadsafe =>
    let seq := s64 (ctx_seq64 context + 1) in
    oid ← wrn oid 4 (be_bytes 8 (u64 seq));
    Ret (with_seq64 context seq, oid)
  end.

Definition bson_oid_init (e : env) (context : bson_context_t) (oid : bytes) : outcome (bson_context_t * bytes) :=
  oid ← wrn oid 0 (be_bytes 4 (u32 (e_time e)));
  oid ← get_oid_host e context oid;
  oid ← get_oid_pid e context oid;
  get_oid_seq32 context oid.

Definition bson_oid_init_sequence (e : env) (context : bson_context_t) (oid : bytes) : outcome (bson_context_t * bytes) :=
  oid ← wrn oid 0 (be_bytes 4 (u32 (e_time e)));
  get_oid_seq64 context oid.

(** [context] comes from [bson_malloc0] or is the zeroed static default. *)
Definition _bson_context_init (e : env) (flags : Z) : outcome bson_context_t :=
  let real_seed := Z.lxor (Z.lxor (u32 (e_tv_sec e)) (u32 (e_tv_usec e))) (_bson_getpid e) in
  let seq32 := Z.land (e_rand_r e real_seed) 0x007FFFF0 in
  md5 ← (if ctx_has flags BSON_CONTEXT_DISABLE_HOST_CACHE then Ret [0; 0; 0] else host_digest e);
  let host := if ctx_has flags BSON_CONTEXT_DISABLE_HOST_CACHE
              then _bson_context_get_oid_host else _bson_context_get_oid_host_cached in
  let s32 := if ctx_has flags BSON_CONTEXT_THREAD_SAFE
             then _bson_context_get_oid_seq32_threadsafe else _bson_context_get_oid_seq32 in
  let s64 := if ctx_has flags BSON_CONTEXT_THREAD_SAFE
             then _bson_context_get_oid_seq64_threadsafe else _bson_context_get_oid_seq64 in
  let pid := if ctx_has flags BSON_CONTEXT_DISABLE_PID_CACHE
             then _bson_context_get_oid_pid else _bson_context_get_oid_pid_cached in
  let pidbe := if ctx_has flags BSON_CONTEXT_DISABLE_PID_CACHE then [0; 0]
               else be_bytes 2 (_bson_getpid e) in
  Ret (mk_context flags pidbe md5 seq32 0 host pid s32 s64).

Definition bson_context_new (e : env) (flags : Z) : outcome bson_context_t := _bson_context_init e flags.
Definition _bson_context_init_default (e : env) : outcome bson_context_t :=
  _bson_context_init e (Z.lor BSON_CONTEXT_THREAD_SAFE BSON_CONTEXT_DISABLE_PID_CACHE).


(** * Proofs *)

(** ** Hexadecimal text *)

Definition hex_digit (d : Z) : Z := if d <? 10 then 48 + d else 87 + d.

(** The table holds the two hexadecimal digits of its index. *)
Definition hex_entry_ok (b : Z) : bool :=
  match gHexCharPairs !! Z.to_nat b with
  | Some p => bool_decide (le_bytes 2 p = [hex_digit (b / 16); hex_digit (b mod 16)])
  | None => false
  end.

(** A test that succeeds on 0..255 succeeds on every byte. *)
Lemma byte_check (f : Z -> bool) b : forallb f (seqZ 0 256) = true -> is_byte b -> f b = true.
Proof. rewrite forallb_forall. intros H Hb. apply H, list_elem_of_In, elem_of_seqZ. unfold is_byte in Hb. lia. Qed.

Lemma hex_table b : is_byte b -> exists p, rd gHexCharPairs b = Ret p /\ le_bytes 2 p = [hex_digit (b / 16); hex_digit (b mod 16)].
Proof.
  intros Hb. pose proof (byte_check hex_entry_ok b ltac:(vm_compute; reflexivity) Hb) as E. unfold hex_entry_ok in E.
  unfold is_byte in Hb. unfold rd. replace (b <? 0) with false by lia.
  destruct (gHexCharPairs !! Z.to_nat b) as [p|]; [|done]. apply bool_decide_eq_true in E. eauto.
Qed.

Definition hex_of (id : bytes) : bytes := concat (map (fun b => [hex_digit (b / 16); hex_digit (b mod 16)]) id).

Lemma hex_pairs_spec id : Forall is_byte id -> hex_pairs id = Ret (hex_of id).
Proof.
  induction 1 as [|b id Hb H IH]; [done|]. cbn [hex_pairs]. destruct (hex_table b Hb) as (p & -> & E).
  cbn [mbind outcome_bind]. rewrite IH. cbn [mbind outcome_bind]. by rewrite E.
Qed.

Lemma parse_hex_digit d : 0 <= d < 16 -> bson_oid_parse_hex_char (hex_digit d) = d.
Proof.
  intros Hd. pose proof (byte_check (fun d => (16 <=? d) || (bson_oid_parse_hex_char (hex_digit d) =? d)) d
    ltac:(vm_compute; reflexivity) ltac:(unfold is_byte; lia)) as H. cbn beta in H. lia.
Qed.

Lemma is_hex_digit d : 0 <= d < 16 -> is_hex (hex_digit d) = true.
Proof.
  intros Hd. pose proof (byte_check (fun d => (16 <=? d) || is_hex (hex_digit d)) d
    ltac:(vm_compute; reflexivity) ltac:(unfold is_byte; lia)) as H. apply orb_true_iff in H as [H|H]; [lia | done].
Qed.

Lemma nibbles b : is_byte b -> 0 <= b / 16 < 16 /\ 0 <= b mod 16 < 16 /\ u8 (Z.lor (Z.shiftl (b / 16) 4) (b mod 16)) = b.
Proof.
  unfold is_byte. intros Hb. pose proof (Z.mod_pos_bound b 16 ltac:(lia)). pose proof (Z.div_mod b 16 ltac:(lia)).
  split; [lia|]. split; [lia|]. rewrite lor_shift_add by lia. change (2 ^ 4) with 16. rewrite u8_id; lia.
Qed.

Lemma parse_hex_of id rest : Forall is_byte id -> parse_hex_pairs (length id) (hex_of id ++ rest) = Ret id.
Proof.
  induction 1 as [|b id Hb H IH]; [done|]. unfold hex_of. cbn [map concat app length parse_hex_pairs].
  fold (hex_of id). rewrite IH. cbn [mbind outcome_bind]. destruct (nibbles b Hb) as (H1 & H2 & E).
  by rewrite !parse_hex_digit, E by lia.
Qed.

Lemma all_hex_of id rest : Forall is_byte id -> all_hex (2 * length id) (hex_of id ++ rest) = Ret true.
Proof.
  induction 1 as [|b id Hb H IH]; [done|]. unfold hex_of. cbn [map concat app length]. fold (hex_of id).
  replace (2 * S (length id))%nat with (S (S (2 * length id))) by lia. cbn [all_hex].
  destruct (nibbles b Hb) as (H1 & H2 & _). by rewrite !is_hex_digit, IH by lia.
Qed.

Lemma length_hex_of id : length (hex_of id) = (2 * length id)%nat.
Proof. induction id as [|b id IH]; [done|]. unfold hex_of in *. cbn [map concat app length]. rewrite IH. lia. Qed.

(** An id: twelve bytes. *)
Definition oid_ok (oid : bytes) : Prop := length oid = 12%nat /\ Forall is_byte oid.

Lemma rdn_oid oid : oid_ok oid -> rdn oid 0 12 = Ret oid.
Proof. intros [Hl _]. rewrite rdn_ret by (unfold zlen; lia). change (Z.to_nat 0) with O. rewrite drop_0. f_equal. apply take_ge. lia. Qed.

Lemma to_string_spec oid : oid_ok oid -> bson_oid_to_string oid = Ret (hex_of oid ++ [0]).
Proof.
  intros H. unfold bson_oid_to_string. rewrite rdn_oid by done. cbn [mbind outcome_bind].
  rewrite hex_pairs_spec by apply H. done.
Qed.

(** ** Big-endian order *)

Lemma be_bytes_S n z : be_bytes (S n) z = be_bytes n (z / 256) ++ [z mod 256].
Proof. reflexivity. Qed.

Lemma length_be_bytes n z : length (be_bytes n z) = n.
Proof. unfold be_bytes. by rewrite length_rev, length_le_bytes. Qed.

Lemma be_val_bytes n z : be_val (be_bytes n z) = z mod 256 ^ Z.of_nat n.
Proof. unfold be_val, be_bytes. rewrite rev_involutive. apply le_val_bytes. Qed.

Lemma be_bytes_byte n z : Forall is_byte (be_bytes n z).
Proof. unfold be_bytes. apply Forall_rev, le_bytes_byte. Qed.

Lemma lex_snoc a b x y : length a = length b ->
  lex (a ++ [x]) (b ++ [y]) = if lex a b =? 0 then (if x <? y then -1 else if y <? x then 1 else 0) else lex a b.
Proof.
  revert b. induction a as [|u a IH]; intros [|v b] Hl; try done; cbn [app lex].
  destruct (u <? v); [done|]. destruct (v <? u); [done|]. apply IH. simpl in Hl. lia.
Qed.

Lemma lex_be n : forall x y, 0 <= x < 256 ^ Z.of_nat n -> 0 <= y < 256 ^ Z.of_nat n ->
  lex (be_bytes n x) (be_bytes n y) = if x <? y then -1 else if y <? x then 1 else 0.
Proof.
  induction n as [|n IH]; intros x y Hx Hy.
  { change (256 ^ Z.of_nat 0) with 1 in *. replace x with 0 by lia. replace y with 0 by lia. done. }
  rewrite Nat2Z.inj_succ, Z.pow_succ_r in Hx, Hy by lia. rewrite !be_bytes_S.
  pose proof (Z.mod_pos_bound x 256 ltac:(lia)). pose proof (Z.div_mod x 256 ltac:(lia)).
  pose proof (Z.mod_pos_bound y 256 ltac:(lia)). pose proof (Z.div_mod y 256 ltac:(lia)).
  rewrite lex_snoc, IH by (rewrite ?length_be_bytes; lia).
  destruct (x / 256 <? y / 256) eqn:E1; bool_hyps; [replace (x <? y) with true by lia; done|].
  destruct (y / 256 <? x / 256) eqn:E2; bool_hyps.
  - replace (x <? y) with false by lia. replace (y <? x) with true by lia. done.
  - assert (x / 256 = y / 256) by lia. cbn [Z.eqb]. change (0 =? 0) with true. cbn iota.
    replace (x <? y) with (x mod 256 <? y mod 256) by lia. by replace (y <? x) with (y mod 256 <? x mod 256) by lia.
Qed.

Lemma lex_app a b c d : length a = length b -> lex (a ++ c) (b ++ d) = if lex a b =? 0 then lex c d else lex a b.
Proof.
  revert b. induction a as [|u a IH]; intros [|v b] Hl; try done; cbn [app lex].
  destruct (u <? v); [done|]. destruct (v <? u); [done|]. apply IH. simpl in Hl. lia.
Qed.

Lemma compare_oid a b : oid_ok a -> oid_ok b -> bson_oid_compare a b = Ret (lex a b).
Proof.
  intros [La _] [Lb _]. unfold bson_oid_compare.
  assert (H : forall n a b, length a = n -> length b = n -> memcmp a b n = Ret (lex a b)).
  { clear. induction n as [|n IH]; intros [|x a] [|y b] Ha Hb; try done. cbn [memcmp lex].
    destruct (x <? y); [done|]. destruct (y <? x); [done|]. apply IH; simpl in *; lia. }
  by apply H.
Qed.

(** Reading from the front. *)
Lemma rdn_front (m k : bytes) n : n = zlen m -> rdn (m ++ k) 0 n = Ret m.
Proof. intros H. exact (rdn_mid [] m k 0 n eq_refl H). Qed.

(** ** The pieces of a generated id *)

(** Twelve bytes are four pieces. *)
Lemma oid_pieces (oid : bytes) : length oid = 12%nat ->
  exists t h p s, oid = t ++ h ++ p ++ s /\ zlen t = 4 /\ zlen h = 3 /\ zlen p = 2 /\ zlen s = 3.
Proof.
  intros L. exists (take 4 oid), (take 3 (drop 4 oid)), (take 2 (drop 7 oid)), (drop 9 oid).
  rewrite !zlen_take, !zlen_drop. unfold zlen. split; [|lia].
  rewrite <- (take_drop 4 oid) at 1. f_equal. rewrite <- (take_drop 3 (drop 4 oid)) at 1. f_equal.
  rewrite drop_drop. rewrite <- (take_drop 2 (drop (4 + 3) oid)) at 1. f_equal. by rewrite drop_drop.
Qed.

Definition env_ok (e : env) : Prop := 1 <= zlen (e_hostname e) < 2 ^ 31.

Lemma length_md5 m : length (md5 m) = 16%nat /\ Forall is_byte (md5 m).
Proof.
  unfold md5. destruct (md5_blocks _ _ _) as [[[a b] c] d]. rewrite !length_app, !length_le_bytes.
  split; [done|]. by repeat (apply Forall_app; split); apply le_bytes_byte.
Qed.

Lemma strlen_last s : strlen (s ++ [0]) = Ret (zlen (cstr (s ++ [0]))) /\ zlen (cstr (s ++ [0])) <= zlen s.
Proof.
  induction s as [|c s [IH1 IH2]]; [done|]. cbn [app strlen cstr]. destruct (c =? 0).
  - split; [done|]. rewrite zlen_cons. pose proof (zlen_nonneg s). change (zlen (@nil Z)) with 0. lia.
  - rewrite IH1. cbn [mbind outcome_bind]. rewrite !zlen_cons. split; [f_equal; lia | lia].
Qed.

Lemma host_digest_ok e : env_ok e -> exists d, host_digest e = Ret d /\ length d = 3%nat /\ Forall is_byte d.
Proof.
  intros He. unfold env_ok in He. unfold host_digest.
  rewrite wrn_ret by (change (zlen [0]) with 1; lia). cbn [mbind outcome_bind]. rewrite drop_ge by (unfold zlen; simpl; unfold zlen in He; lia).
  set (s := take _ _). destruct (strlen_last s) as [E Hl]. cbn [app]. rewrite E. cbn [mbind outcome_bind]. set (n := zlen (cstr _)) in *.
  assert (Ls : zlen s = zlen (e_hostname e) - 1) by (unfold s; rewrite zlen_take; lia).
  assert (0 <= n) by (unfold n; apply zlen_nonneg). rewrite u32_id by lia.
  destruct (append_inv _ _ (s ++ [0]) n init_inv) as (s1 & -> & H1); [rewrite zlen_app; change (zlen [0]) with 1; lia | lia |].
  cbn [mbind outcome_bind]. destruct (finish_digest _ _ H1) as [s2 ->]. cbn [mbind outcome_bind].
  destruct (length_md5 ([] ++ take (Z.to_nat n) (s ++ [0]))) as [L B].
  rewrite rdn_ret by (unfold zlen; lia). eexists. split; [done|]. change (Z.to_nat 0) with O. rewrite drop_0.
  split; [rewrite length_take; lia | by apply Forall_take].
Qed.

(** A context as the library makes it. *)
Record ctx_ok (c : bson_context_t) : Prop := mk_ctx_ok {
  co_pid : length (ctx_pidbe c) = 2%nat /\ Forall is_byte (ctx_pidbe c);
  co_md5 : length (ctx_md5 c) = 3%nat /\ Forall is_byte (ctx_md5 c);
  co_seq32 : - 2 ^ 31 <= ctx_seq32 c < 2 ^ 31;
  co_seq64 : - 2 ^ 63 <= ctx_seq64 c < 2 ^ 63;
}.

Lemma context_init_ok e flags c : env_ok e -> _bson_context_init e flags = Ret c -> ctx_ok c.
Proof.
  intros He. unfold _bson_context_init. destruct (host_digest_ok e He) as (d & Ed & Ld & Bd). rewrite Ed.
  set (r := e_rand_r e _).
  assert (Hs : 0 <= Z.land r 0x007FFFF0 < 2 ^ 23).
  { change 0x007FFFF0 with (Z.land 0x007FFFF0 (2 ^ 23 - 1)). rewrite Z.land_assoc, (land_mask _ _ 23) by lia.
    apply Z.mod_pos_bound. lia. }
  assert (Hp : length (be_bytes 2 (_bson_getpid e)) = 2%nat /\ Forall is_byte (be_bytes 2 (_bson_getpid e)))
    by (split; [apply length_be_bytes | apply be_bytes_byte]).
  assert (Hz : forall n, Forall is_byte (replicate n 0)) by (intros n; apply Forall_replicate; unfold is_byte; lia).
  destruct (ctx_has flags BSON_CONTEXT_DISABLE_HOST_CACHE); cbn [mbind outcome_bind]; intros [= <-];
    (constructor; cbn [ctx_pidbe ctx_md5 ctx_seq32 ctx_seq64]; [destruct (ctx_has flags BSON_CONTEXT_DISABLE_PID_CACHE); [split; [done | apply (Hz 2%nat)] | done] | | lia | lia]).
  - split; [done | apply (Hz 3%nat)].
  - done.
Qed.

(** What [bson_oid_init] puts in bytes 0 to 8. *)
Lemma get_host_ok e c : env_ok e -> ctx_ok c ->
  exists h, length h = 3%nat /\ Forall is_byte h /\ forall oid, get_oid_host e c oid = wrn oid 4 h.
Proof.
  intros He [_ [Lm Bm] _ _]. unfold get_oid_host. destruct (oid_get_host c).
  - destruct (host_digest_ok e He) as (d & -> & Ld & Bd). by exists d.
  - exists (ctx_md5 c). split; [done|]. split; [done|]. rewrite rdn_ret by (unfold zlen; lia).
    change (Z.to_nat 0) with O. rewrite drop_0. cbn [mbind outcome_bind]. by rewrite take_ge by lia.
Qed.

Lemma get_pid_ok e c : ctx_ok c ->
  exists p, length p = 2%nat /\ Forall is_byte p /\ forall oid, get_oid_pid e c oid = wrn oid 7 p.
Proof.
  intros [[Lp Bp] _ _ _]. unfold get_oid_pid. destruct (oid_get_pid c).
  - exists (be_bytes 2 (_bson_getpid e)). split; [apply length_be_bytes|]. split; [apply be_bytes_byte | done].
  - exists (ctx_pidbe c). split; [done|]. split; [done|]. rewrite rdn_ret by (unfold zlen; lia).
    change (Z.to_nat 0) with O. rewrite drop_0. cbn [mbind outcome_bind]. by rewrite take_ge by lia.
Qed.

(** The counter value that goes into the next id. *)
Definition next_seq32 (c : bson_context_t) : Z :=
  match oid_get_seq32 c with
  | _bson_context_get_oid_seq32 => ctx_seq32 c
  | _bson_context_get_oid_seq32_threadsafe => ctx_seq32 c + 1
  end.
Definition seq32_room (c : bson_context_t) (n : Z) : Prop :=
  match oid_get_seq32 c with
  | _bson_context_get_oid_seq32 => ctx_seq32 c + n <= 2 ^ 31 - 1
  | _bson_context_get_oid_seq32_threadsafe => True
  end.

Lemma low_bytes z : drop 1 (be_bytes 4 (u32 z)) = be_bytes 3 z.
Proof.
  unfold be_bytes, u32. change (2 ^ 32) with (256 ^ Z.of_nat 4). rewrite le_bytes_mod.
  change 4%nat with (3 + 1)%nat. rewrite le_bytes_app, rev_app_distr. reflexivity.
Qed.

Lemma be_bytes_mod n z : be_bytes n (z mod 256 ^ Z.of_nat n) = be_bytes n z.
Proof. unfold be_bytes. by rewrite le_bytes_mod. Qed.

Lemma be_bytes_s32 z : be_bytes 3 (s32 z) = be_bytes 3 z.
Proof.
  rewrite <- (be_bytes_mod 3 (s32 z)), <- (be_bytes_mod 3 z). f_equal. change (256 ^ Z.of_nat 3) with (2 ^ 24). unfold s32.
  rewrite Zminus_mod, Z.mod_mod_divide by (exists 256; lia). rewrite <- Zminus_mod. f_equal. lia.
Qed.

Lemma oid_init_spec e c oid0 : env_ok e -> ctx_ok c -> length oid0 = 12%nat -> seq32_room c 1 ->
  exists h p, length h = 3%nat /\ length p = 2%nat /\ Forall is_byte h /\ Forall is_byte p /\
    bson_oid_init e c oid0 = Ret (with_seq32 c (s32 (ctx_seq32 c + 1)),
      be_bytes 4 (u32 (e_time e)) ++ h ++ p ++ be_bytes 3 (next_seq32 c)).
Proof.
  intros He Hc L0 Hroom. pose proof (co_seq32 _ Hc) as Hs. unfold bson_oid_init. set (t := be_bytes 4 _).
  assert (Lt : zlen t = 4) by (unfold t, zlen; by rewrite length_be_bytes).
  destruct (oid_pieces oid0 L0) as (t0 & h0 & p0 & s0 & -> & Ht0 & Hh0 & Hp0 & Hs0).
  destruct (get_host_ok e c He Hc) as (h & Lh & Bh & Eh). destruct (get_pid_ok e c Hc) as (p & Lp & Bp & Ep).
  exists h, p. do 4 (split; [done|]).
  pose proof (wrn_mid [] t0 (h0 ++ p0 ++ s0) 0 t eq_refl ltac:(lia)) as E1. cbn [app] in E1. rewrite E1.
  cbn [mbind outcome_bind]. rewrite Eh.
  rewrite (wrn_mid t h0 _ 4 h) by (unfold zlen in *; lia). cbn [mbind outcome_bind]. rewrite Ep.
  rewrite (app_assoc t h), (wrn_mid (t ++ h) p0 s0 7 p) by (rewrite ?zlen_app; unfold zlen in *; lia). cbn [mbind outcome_bind].
  assert (Ew : forall z, wrn ((t ++ h) ++ p ++ s0) 9 (drop 1 (be_bytes 4 (u32 z))) = Ret (t ++ h ++ p ++ be_bytes 3 z)).
  { intros z. rewrite low_bytes, (app_assoc (t ++ h)), <- (app_nil_r s0).
    rewrite (wrn_mid ((t ++ h) ++ p) s0 [] 9) by (rewrite ?zlen_app; unfold zlen in *; rewrite ?length_be_bytes; lia).
    by rewrite app_nil_r, <- !app_assoc. }
  unfold get_oid_seq32, next_seq32, seq32_room in *. destruct (oid_get_seq32 c).
  - replace (ctx_seq32 c =? 2 ^ 31 - 1) with false by lia. rewrite Ew. cbn [mbind outcome_bind]. by rewrite s32_id by lia.
  - rewrite Ew. cbn [mbind outcome_bind]. by rewrite be_bytes_s32.
Qed.

(** Ids made one after the other with one context, each in fresh storage. *)
Fixpoint oid_generate (c : bson_context_t) (es : list env) : outcome (list bytes) :=
  match es with
  | [] => Ret []
  | e :: es =>
    '(c, oid) ← bson_oid_init e c (replicate 12 undef_byte);
    r ← oid_generate c es;
    Ret (oid :: r)
  end.

(** The counter in the last three bytes. *)
Definition oid_counter (oid : bytes) : Z := be_val (drop 9 oid).

Lemma ctx_ok_seq32 c : ctx_ok c -> ctx_ok (with_seq32 c (s32 (ctx_seq32 c + 1))).
Proof.
  intros [H1 H2 H3 H4]. constructor; cbn [with_seq32 ctx_pidbe ctx_md5 ctx_seq32 ctx_seq64]; try done.
  unfold s32. pose proof (Z.mod_pos_bound (ctx_seq32 c + 1 + 2 ^ 31) (2 ^ 32)). lia.
Qed.

Lemma counter_pieces (t h p : bytes) z :
  length t = 4%nat -> length h = 3%nat -> length p = 2%nat -> oid_counter (t ++ h ++ p ++ be_bytes 3 z) = z mod 2 ^ 24.
Proof.
  intros Lt Lh Lp. unfold oid_counter. rewrite !app_assoc, drop_app_length' by (rewrite !length_app; lia).
  rewrite be_val_bytes. done.
Qed.

Lemma s32_mod24 z : s32 z mod 2 ^ 24 = z mod 2 ^ 24.
Proof.
  unfold s32. rewrite Zminus_mod, Z.mod_mod_divide by (exists 256; lia). rewrite <- Zminus_mod. f_equal. lia.
Qed.

Lemma generate_counters es : forall c, Forall env_ok es -> ctx_ok c -> seq32_room c (zlen es) ->
  exists oids, oid_generate c es = Ret oids /\ Forall oid_ok oids /\
    map oid_counter oids = map (fun i => (next_seq32 c + i) mod 2 ^ 24) (seqZ 0 (zlen es)).
Proof.
  induction es as [|e es IH]; intros c He Hc Hr; [by exists []|]. inversion_clear He as [|? ? He1 Hes].
  rewrite zlen_cons in *. pose proof (zlen_nonneg es).
  destruct (oid_init_spec e c (replicate 12 undef_byte) He1 Hc eq_refl) as (h & p & Lh & Lp & Bh & Bp & E).
  { unfold seq32_room in *. destruct (oid_get_seq32 c); [lia | done]. }
  cbn [oid_generate]. rewrite E. cbn [mbind outcome_bind]. set (c' := with_seq32 c _) in *.
  pose proof (co_seq32 _ Hc) as Hs.
  destruct (IH c' Hes (ctx_ok_seq32 c Hc)) as (oids & -> & Hok & Hm).
  { unfold seq32_room in *. cbn [c' with_seq32 oid_get_seq32 ctx_seq32]. destruct (oid_get_seq32 c); [|done].
    rewrite s32_id by lia. lia. }
  cbn [mbind outcome_bind]. eexists. split; [done|]. split.
  - constructor; [|done]. split; [rewrite !length_app, !length_be_bytes; lia|].
    rewrite !Forall_app. auto using be_bytes_byte.
  - cbn [map]. rewrite counter_pieces by (done || apply length_be_bytes).
    rewrite seqZ_cons by lia. cbn [map]. f_equal; [f_equal; lia|].
    rewrite Hm. replace (Z.pred (1 + zlen es)) with (zlen es) by lia. change (Z.succ 0) with (1 + 0).
    rewrite <- (fmap_add_seqZ 1 0 (zlen es)), map_map. apply map_ext. intros i.
    unfold next_seq32, c'. cbn [with_seq32 oid_get_seq32 ctx_seq32].
    destruct (oid_get_seq32 c).
    + rewrite Z.add_mod, s32_mod24, <- Z.add_mod by lia. f_equal; lia.
    + replace (s32 (ctx_seq32 c + 1) + 1 + i) with (s32 (ctx_seq32 c + 1) + (1 + i)) by lia.
      rewrite Z.add_mod, s32_mod24, <- Z.add_mod by lia. f_equal; lia.
Qed.

(** Lower case of a hexadecimal digit. *)
Definition hex_lower (c : Z) : Z := if (65 <=? c) && (c <=? 70) then c + 32 else c.

Lemma hex_lower_parse c : is_byte c -> is_hex c = true ->
  0 <= bson_oid_parse_hex_char c < 16 /\ hex_digit (bson_oid_parse_hex_char c) = hex_lower c.
Proof.
  intros Hc Hx. pose proof (byte_check (fun c => negb (is_hex c) ||
    ((0 <=? bson_oid_parse_hex_char c) && (bson_oid_parse_hex_char c <? 16) && (hex_digit (bson_oid_parse_hex_char c) =? hex_lower c))) c
    ltac:(vm_compute; reflexivity) Hc) as H. cbn beta in H. rewrite Hx in H. cbn [negb orb] in H. lia.
Qed.

Lemma parse_then_print n : forall s rest, length s = (2 * n)%nat -> Forall is_byte s -> Forall (fun c => is_hex c = true) s ->
  exists id, parse_hex_pairs n (s ++ rest) = Ret id /\ length id = n /\ Forall is_byte id /\ hex_of id = map hex_lower s.
Proof.
  induction n as [|n IH]; intros s rest Hl Hb Hx.
  { destruct s; [|done]. by exists []. }
  destruct s as [|h [|l s]]; [simpl in Hl; lia..|]. inversion_clear Hb as [|? ? Bh Hb']. inversion_clear Hb' as [|? ? Bl Hb].
  inversion_clear Hx as [|? ? Xh Hx']. inversion_clear Hx' as [|? ? Xl Hx]. cbn [app parse_hex_pairs].
  destruct (IH s rest ltac:(simpl in Hl; lia) Hb Hx) as (id & -> & L & B & E). cbn [mbind outcome_bind].
  destruct (hex_lower_parse h Bh Xh) as [Rh Eh]. destruct (hex_lower_parse l Bl Xl) as [Rl El].
  rewrite lor_shift_add by lia. change (2 ^ 4) with 16. rewrite u8_id by lia.
  eexists. split; [done|]. split; [simpl; lia|]. split; [constructor; [unfold is_byte; lia | done]|].
  unfold hex_of in *. cbn [map concat app]. rewrite E, Z.div_add_l, Z.div_small, Z.add_0_r by lia.
  rewrite (Z.add_comm (_ * 16)), Z.mod_add, Z.mod_small, Eh, El by lia. done.
Qed.

(** ** Hash *)

(** The hash without wrap-around: bytes as digits in base 33. *)
Definition djb (id : bytes) : Z := fold_left (fun h b => 33 * h + b) id 5381.

Lemma hash_fold id : forall h, fold_left (fun hash b => u32 (u32 (u32 (Z.shiftl hash 5) + hash) + b)) id (u32 h) =
  u32 (fold_left (fun h b => 33 * h + b) id h).
Proof.
  induction id as [|b id IH]; intros h; [done|]. cbn [fold_left]. rewrite <- IH. f_equal.
  rewrite Z.shiftl_mul_pow2 by lia. change (2 ^ 5) with 32. unfold u32. set (B := 2 ^ 32). assert (B <> 0) by done.
  rewrite Z.mul_mod_idemp_l, <- Z.add_mod, Z.add_mod_idemp_l by done. f_equal. lia.
Qed.

(** * Properties *)

(** The text form of an id round-trips.  [bson_oid_to_string] writes 24
    hexadecimal characters and a terminator, [bson_oid_is_valid] accepts them
    with length 24 or 25, and [bson_oid_init_from_string] gives the id back. *)
Theorem oid_hex_roundtrip oid :
  oid_ok oid ->
  exists s, bson_oid_to_string oid = Ret s /\ zlen s = 25 /\
    bson_oid_is_valid s 24 = Ret true /\ bson_oid_is_valid s 25 = Ret true /\
    bson_oid_init_from_string s = Ret oid.
Proof.
  intros H. pose proof H as [L B]. exists (hex_of oid ++ [0]). split; [by apply to_string_spec|].
  pose proof (all_hex_of oid [0] B) as Ha. pose proof (parse_hex_of oid [0] B) as Hp. rewrite L in Ha, Hp.
  assert (Lh : zlen (hex_of oid) = 24) by (unfold zlen; rewrite length_hex_of; lia).
  split; [rewrite zlen_app, Lh; done|]. split; [exact Ha|]. split; [|exact Hp].
  unfold bson_oid_is_valid. change (25 =? 25) with true. cbn iota. rewrite rd_app_r by lia. rewrite Lh. exact Ha.
Qed.

Lemma oid_hex_roundtrip_witness :
  exists s, bson_oid_to_string [0; 1; 15; 16; 127; 128; 200; 254; 255; 9; 10; 11] = Ret s /\ zlen s = 25 /\
    bson_oid_is_valid s 24 = Ret true /\ bson_oid_is_valid s 25 = Ret true /\
    bson_oid_init_from_string s = Ret [0; 1; 15; 16; 127; 128; 200; 254; 255; 9; 10; 11].
Proof. apply oid_hex_roundtrip. split; [done|]. repeat constructor; lia. Defined.

(** Parsing then printing normalises the case.  For any 24 characters that
    [bson_oid_is_valid] accepts, converting to an id and back gives the same
    characters in lower case; so two texts name one id exactly when they agree
    up to case. *)
Theorem oid_text_normalises s rest :
  length s = 24%nat -> Forall is_byte s -> bson_oid_is_valid (s ++ rest) 24 = Ret true ->
  exists oid, bson_oid_init_from_string (s ++ rest) = Ret oid /\ oid_ok oid /\
    bson_oid_to_string oid = Ret (map hex_lower s ++ [0]).
Proof.
  intros L B Hv.
  assert (Hx : Forall (fun c => is_hex c = true) s).
  { revert Hv. change (all_hex 24 (s ++ rest) = Ret true -> Forall (fun c => is_hex c = true) s). rewrite <- L. clear.
    induction s as [|c s IH]; intros H; [constructor|]. cbn [length app all_hex] in H.
    destruct (is_hex c) eqn:E; [|done]. constructor; auto. }
  destruct (parse_then_print 12 s rest L B Hx) as (id & E & Li & Bi & Eh).
  exists id. split; [exact E|]. split; [done|]. rewrite to_string_spec by done. by rewrite Eh.
Qed.

Lemma oid_text_normalises_witness :
  exists oid, bson_oid_init_from_string ([65; 97] ++ replicate 22 48 ++ [0]) = Ret oid /\ oid_ok oid /\
    bson_oid_to_string oid = Ret (map hex_lower ([65; 97] ++ replicate 22 48) ++ [0]).
Proof.
  apply (oid_text_normalises ([65; 97] ++ replicate 22 48) [0]).
  - reflexivity.
  - repeat constructor; lia.
  - reflexivity.
Defined.

(** C38: Ids of one context are unique.  Up to 2^24 ids made one after the other
    with one context are pairwise different, whatever the clock, the host and
    the process do meanwhile: their counters differ.  (The counter that is not
    atomic must not reach the maximum of [int32_t].) *)
Theorem oid_generate_unique c es :
  ctx_ok c -> Forall env_ok es -> zlen es <= 2 ^ 24 -> seq32_room c (zlen es) ->
  exists oids, oid_generate c es = Ret oids /\ Forall oid_ok oids /\ length oids = length es /\ NoDup oids.
Proof.
  intros Hc He Hn Hr. destruct (generate_counters es c He Hc Hr) as (oids & E & Hok & Hm).
  exists oids. split; [done|]. split; [done|]. split.
  - apply (f_equal length) in Hm. rewrite !length_map, length_seqZ in Hm. unfold zlen in Hm. lia.
  - apply NoDup_ListNoDup. apply (NoDup_map_inv oid_counter). rewrite Hm. apply NoDup_ListNoDup.
    apply NoDup_fmap_2_strong; [|apply NoDup_seqZ]. intros x y Hx%elem_of_seqZ Hy%elem_of_seqZ Exy.
    assert (Hd : (x - y) mod 2 ^ 24 = 0).
    { replace (x - y) with ((next_seq32 c + x) - (next_seq32 c + y)) by lia. rewrite Zminus_mod, Exy, Z.sub_diag. done. }
    apply Z.mod_divide in Hd as [q Hq]; lia.
Qed.

Definition sample_env : env := mk_env 1500000000 1500000000 123456 4242 ([104; 111; 115; 116; 0] ++ replicate 59 7) (fun s => s).
Definition sample_context : bson_context_t :=
  mk_context 5 [0; 0] [1; 2; 3] 0x7FFFF0 0 _bson_context_get_oid_host_cached _bson_context_get_oid_pid
    _bson_context_get_oid_seq32_threadsafe _bson_context_get_oid_seq64_threadsafe.

Lemma sample_context_ok : ctx_ok sample_context.
Proof. constructor; cbn [sample_context ctx_pidbe ctx_md5 ctx_seq32 ctx_seq64]; try lia; (split; [done | repeat constructor; lia]). Qed.

Lemma sample_env_ok : env_ok sample_env.
Proof. unfold env_ok. change (zlen (e_hostname sample_env)) with 64. lia. Qed.

Lemma oid_generate_unique_witness :
  exists oids, oid_generate sample_context [sample_env; sample_env] = Ret oids /\ Forall oid_ok oids /\
    length oids = 2%nat /\ NoDup oids.
Proof.
  apply oid_generate_unique.
  - exact sample_context_ok.
  - by repeat (apply Forall_cons_2; [exact sample_env_ok|]).
  - vm_compute. discriminate.
  - exact Logic.I.
Defined.

(** [bson_oid_init] records the time.  The id made at time [t] has the low
    32 bits of [t] in its first four bytes, and [bson_oid_get_time_t] reads
    them back; the context only advances its counter. *)
Theorem oid_init_time e c oid0 :
  env_ok e -> ctx_ok c -> length oid0 = 12%nat -> seq32_room c 1 ->
  exists oid, bson_oid_init e c oid0 = Ret (with_seq32 c (s32 (ctx_seq32 c + 1)), oid) /\ oid_ok oid /\
    bson_oid_get_time_t oid = Ret (u32 (e_time e)).
Proof.
  intros He Hc L0 Hr. destruct (oid_init_spec e c oid0 He Hc L0 Hr) as (h & p & Lh & Lp & Bh & Bp & E).
  eexists. split; [exact E|]. split.
  - split; [rewrite !length_app, !length_be_bytes; lia|]. rewrite !Forall_app. auto using be_bytes_byte.
  - unfold bson_oid_get_time_t. rewrite rdn_front by (unfold zlen; by rewrite length_be_bytes).
    cbn [mbind outcome_bind]. rewrite be_val_bytes. change (256 ^ Z.of_nat 4) with (2 ^ 32).
    rewrite Z.mod_small by apply u32_range. done.
Qed.

Lemma oid_init_time_witness :
  exists oid, bson_oid_init sample_env sample_context (replicate 12 undef_byte)
    = Ret (with_seq32 sample_context (s32 (ctx_seq32 sample_context + 1)), oid) /\ oid_ok oid /\
    bson_oid_get_time_t oid = Ret (u32 1500000000).
Proof. apply (oid_init_time sample_env); [exact sample_env_ok | exact sample_context_ok | done | exact Logic.I]. Defined.

(** Sequential ids are ordered.  Two ids that [bson_oid_init_sequence] makes
    one after the other, the clock not going back and the 64-bit counter not
    overflowing, compare as strictly increasing. *)
Theorem oid_sequence_increasing e1 e2 c oid0 oid0' :
  ctx_ok c -> length oid0 = 12%nat -> length oid0' = 12%nat ->
  0 <= e_time e1 <= e_time e2 -> e_time e2 < 2 ^ 32 -> 0 <= ctx_seq64 c < 2 ^ 63 - 2 ->
  exists c1 c2 oid1 oid2, bson_oid_init_sequence e1 c oid0 = Ret (c1, oid1) /\
    bson_oid_init_sequence e2 c1 oid0' = Ret (c2, oid2) /\ bson_oid_compare oid1 oid2 = Ret (-1).
Proof.
  intros Hc L0 L0' Ht Ht2 Hs.
  assert (W : forall (oid0 : bytes) t q, length oid0 = 12%nat ->
    (oid ← wrn oid0 0 (be_bytes 4 t); wrn oid 4 (be_bytes 8 q)) = Ret (be_bytes 4 t ++ be_bytes 8 q)).
  { clear. intros oid0 t q L. rewrite wrn_ret by (unfold zlen; rewrite ?length_be_bytes; lia). cbn [mbind outcome_bind].
    rewrite take_0. cbn [app]. rewrite length_be_bytes. set (x := be_bytes 4 t). rewrite <- (app_nil_r (drop _ oid0)).
    rewrite wrn_mid by (unfold x, zlen; rewrite ?length_be_bytes, ?length_drop; lia). by rewrite app_nil_r. }
  set (q := match oid_get_seq64 c with _bson_context_get_oid_seq64 => ctx_seq64 c | _ => ctx_seq64 c + 1 end).
  assert (Hq : 0 <= q < 2 ^ 63 - 1) by (unfold q; destruct (oid_get_seq64 c); lia).
  assert (G : forall e c (oid0 : bytes) q, length oid0 = 12%nat -> 0 <= ctx_seq64 c < 2 ^ 63 - 1 ->
    q = match oid_get_seq64 c with _bson_context_get_oid_seq64 => ctx_seq64 c | _ => ctx_seq64 c + 1 end ->
    bson_oid_init_sequence e c oid0 = Ret (with_seq64 c (ctx_seq64 c + 1), be_bytes 4 (u32 (e_time e)) ++ be_bytes 8 (u64 q))).
  { clear - W. intros e c oid0 q L Hs ->. unfold bson_oid_init_sequence, get_oid_seq64. specialize (W oid0 (u32 (e_time e))).
    destruct (wrn oid0 0 (be_bytes 4 (u32 (e_time e)))) as [o1| | |]; cbn [mbind outcome_bind] in *; try (by specialize (W 0 L)).
    destruct (oid_get_seq64 c).
    - replace (ctx_seq64 c =? 2 ^ 63 - 1) with false by lia. by rewrite (W (u64 (ctx_seq64 c)) L).
    - rewrite s64_id by lia. by rewrite (W (u64 (ctx_seq64 c + 1)) L). }
  eexists _, _, _, _. split; [apply (G e1 c oid0 q); [done | lia | done]|].
  split; [apply (G e2 _ oid0' (q + 1)); [done | cbn [with_seq64 ctx_seq64]; lia |]|].
  { unfold q. cbn [with_seq64 oid_get_seq64 ctx_seq64]. destruct (oid_get_seq64 c); lia. }
  rewrite !u32_id, !u64_id by lia.
  rewrite compare_oid by (split; [rewrite length_app, !length_be_bytes; done | apply Forall_app; auto using be_bytes_byte]).
  rewrite lex_app, !lex_be by (rewrite ?length_be_bytes; lia). f_equal.
  replace (q <? q + 1) with true by lia. destruct (e_time e1 <? e_time e2) eqn:E1; [done|].
  replace (e_time e2 <? e_time e1) with false by lia. done.
Qed.

Lemma oid_sequence_increasing_witness :
  exists c1 c2 oid1 oid2,
    bson_oid_init_sequence sample_env sample_context (replicate 12 undef_byte) = Ret (c1, oid1) /\
    bson_oid_init_sequence sample_env c1 (replicate 12 undef_byte) = Ret (c2, oid2) /\ bson_oid_compare oid1 oid2 = Ret (-1).
Proof.
  apply oid_sequence_increasing; [exact sample_context_ok | done | done | | |].
  - cbn. lia.
  - cbn. lia.
  - cbn [sample_context ctx_seq64]. lia.
Defined.

(** [bson_oid_hash] is the DJB hash modulo 2^32: the bytes as digits in base
    33 above 5381, reduced once, although the code wraps after every step. *)
Theorem oid_hash_djb oid : oid_ok oid -> bson_oid_hash oid = Ret (djb oid mod 2 ^ 32).
Proof.
  intros H. unfold bson_oid_hash. rewrite rdn_oid by done. cbn [mbind outcome_bind].
  change 5381 with (u32 5381). by rewrite hash_fold.
Qed.

Lemma oid_hash_djb_witness :
  bson_oid_hash (replicate 12 255) = Ret (djb (replicate 12 255) mod 2 ^ 32).
Proof. apply oid_hash_djb. split; [done|]. repeat constructor; lia. Defined.
