(* ===== verification/Dates.v ===== *)
(** * Calendar arithmetic (bson-timegm.c)

    [timesub] breaks a time into its calendar fields, [_bson_timegm] searches the
    time whose fields are given by bisection over the whole of [int64_t].  Signed
    overflow is undefined: [Numbers.i64] is [Oob] outside the range.  [int_fast32_t]
    has 64 bits, as in the GNU C library. *)
From S2P Require Import Prelude Numbers.
#[local] Open Scope Z_scope.

Definition INT_MIN : Z := -2147483648.

(** ** Data *)

Record bson_tm := mk_tm {
  tm_sec : Z; tm_min : Z; tm_hour : Z; tm_mday : Z; tm_mon : Z; tm_year : Z; tm_wday : Z; tm_yday : Z; tm_isdst : Z;
}.

Record ttinfo := mk_ttinfo { tt_gmtoff : Z; tt_isdst : Z }.
Record lsinfo := mk_lsinfo { ls_trans : Z; ls_corr : Z }.

(** [leapcnt], [timecnt] and [typecnt] are the lengths of the lists. *)
Record state := mk_state { lsis : list lsinfo; types : list nat; ttis : list ttinfo }.

(** [gmtload]: one type, all of it zero. *)
Definition gmtload : state := mk_state [] [] [mk_ttinfo 0 0].

Definition SECSPERMIN : Z := 60.
Definition SECSPERHOUR : Z := 3600.
Definition SECSPERDAY : Z := 86400.
Definition DAYSPERNYEAR : Z := 365.
Definition DAYSPERLYEAR : Z := 366.
Definition TM_YEAR_BASE : Z := 1900.
Definition EPOCH_YEAR : Z := 1970.
Definition EPOCH_WDAY : Z := 4.

Definition isleap (y : Z) : bool := (Z.rem y 4 =? 0) && (negb (Z.rem y 100 =? 0) || (Z.rem y 400 =? 0)).
Definition year_length (y : Z) : Z := if isleap y then DAYSPERLYEAR else DAYSPERNYEAR.
Definition mon_lengths (leap : bool) : list Z :=
  [31; if leap then 29 else 28; 31; 30; 31; 30; 31; 31; 30; 31; 30; 31].

(** The recursion on a negative year ends at once. *)
Definition leaps_thru_end_of (y : Z) : Z :=
  let leaps y := Z.quot y 4 - Z.quot y 100 + Z.quot y 400 in
  if 0 <=? y then leaps y else - (leaps (- (y + 1)) + 1).

(** ** Checked increments: [None] is the answer true, overflow *)

Definition increment_overflow (i j : Z) : option Z :=
  if (if 0 <=? i then j >? INT_MAX - i else j <? INT_MIN - i) then None else Some (i + j).

Definition increment_overflow32 (l m : Z) : option Z :=
  if (if 0 <=? l then m >? INT64_MAX - l else m <? INT64_MIN - l) then None else Some (l + m).

Definition tens_delta (units base : Z) : Z := if 0 <=? units then Z.quot units base else -1 - Z.quot (-1 - units) base.

(** The pair is (tens, units). *)
Definition normalize_overflow (tens units base : Z) : option (Z * Z) :=
  let tensdelta := tens_delta units base in
  t ← increment_overflow tens tensdelta; Some (t, units - tensdelta * base).
Definition normalize_overflow32 (tens units base : Z) : option (Z * Z) :=
  let tensdelta := tens_delta units base in
  t ← increment_overflow32 tens tensdelta; Some (t, units - tensdelta * base).

(** ** timesub *)

(** The leap seconds, from the last one: the correction and [hit]. *)
Fixpoint hits (l : list lsinfo) (i : nat) (hit : Z) : Z :=
  match i with
  | O => hit
  | S i' =>
      match l !! i, l !! i' with
      | Some a, Some b =>
          if (ls_trans a =? ls_trans b + 1) && (ls_corr a =? ls_corr b + 1) then hits l i' (hit + 1) else hit
      | _, _ => hit
      end
  end.
Fixpoint leap_seconds (l : list lsinfo) (t : Z) (i : nat) : Z * Z :=
  match i with
  | O => (0, 0)
  | S i =>
      match l !! i with
      | None => (0, 0)
      | Some lp =>
          if t >=? ls_trans lp then
            (ls_corr lp,
             if t =? ls_trans lp then
               let hit := match i with
                          | O => ls_corr lp >? 0
                          | S j => match l !! j with Some q => ls_corr lp >? ls_corr q | None => false end
                          end in
               if hit then hits l i 1 else 0
             else 0)
          else leap_seconds l t i
      end
  end.

(** The year: jumps of about [tdays / 366] years. *)
Fixpoint year_loop (fuel : nat) (y tdays : Z) : outcome (option (Z * Z)) :=
  match fuel with
  | O => Fuel
  | S fuel =>
      if (tdays <? 0) || (tdays >=? year_length y) then
        let tdelta := Z.quot tdays DAYSPERLYEAR in
        let idelta := if tdelta =? 0 then (if tdays <? 0 then -1 else 1) else tdelta in
        match increment_overflow y idelta with
        | None => Ret None
        | Some newy =>
            let leapdays := leaps_thru_end_of (newy - 1) - leaps_thru_end_of (y - 1) in
            years ← i64 ((newy - y) * DAYSPERNYEAR);
            tdays ← i64 (tdays - years);
            tdays ← i64 (tdays - leapdays);
            year_loop fuel newy tdays
        end
      else Ret (Some (y, tdays))
  end.
Definition year_fuel : nat := 12.

(** The two loops over [rem]. *)
Fixpoint rem_up (fuel : nat) (rem idays : Z) : outcome (Z * Z) :=
  match fuel with
  | O => Fuel
  | S fuel => if rem <? 0 then rem_up fuel (rem + SECSPERDAY) (idays - 1) else Ret (rem, idays)
  end.
Fixpoint rem_down (fuel : nat) (rem idays : Z) : outcome (Z * Z) :=
  match fuel with
  | O => Fuel
  | S fuel => if rem >=? SECSPERDAY then rem_down fuel (rem - SECSPERDAY) (idays + 1) else Ret (rem, idays)
  end.
Definition rem_fuel (rem : Z) : nat := Z.to_nat (Z.abs rem / SECSPERDAY + 2).

(** The two loops over [idays]. *)
Fixpoint days_up (fuel : nat) (y idays : Z) : outcome (option (Z * Z)) :=
  match fuel with
  | O => Fuel
  | S fuel =>
      if idays <? 0 then
        match increment_overflow y (-1) with None => Ret None | Some y => days_up fuel y (idays + year_length y) end
      else Ret (Some (y, idays))
  end.
Fixpoint days_down (fuel : nat) (y idays : Z) : outcome (option (Z * Z)) :=
  match fuel with
  | O => Fuel
  | S fuel =>
      if idays >=? year_length y then
        match increment_overflow y 1 with None => Ret None | Some y' => days_down fuel y' (idays - year_length y) end
      else Ret (Some (y, idays))
  end.
Definition days_fuel (idays : Z) : nat := Z.to_nat (Z.abs idays / DAYSPERNYEAR + 2).

(** The month: the array is read at [mon]. *)
Fixpoint month_loop (lengths : list Z) (mon idays : Z) : outcome (Z * Z) :=
  match lengths with
  | [] => Oob
  | l :: lengths => if idays >=? l then month_loop lengths (mon + 1) (idays - l) else Ret (mon, idays)
  end.

(** The fields of day [idays] of the year [y].  A failure is [inl]: NULL, with the
    year that [*tmp] has got before it, if any. *)
Definition timesub_fields (y idays rem hit : Z) : outcome (option Z + bson_tm) :=
  match increment_overflow y (- TM_YEAR_BASE) with
  | None => Ret (inl (Some y))
  | Some year =>
      let wday := EPOCH_WDAY + Z.rem (y - EPOCH_YEAR) 7 * Z.rem DAYSPERNYEAR 7 + leaps_thru_end_of (y - 1)
                  - leaps_thru_end_of (EPOCH_YEAR - 1) + idays in
      let wday := Z.rem wday 7 in
      let wday := if wday <? 0 then wday + 7 else wday in
      let hour := Z.quot rem SECSPERHOUR in
      let rem := Z.rem rem SECSPERHOUR in
      '(mon, mday) ← month_loop (mon_lengths (isleap y)) 0 idays;
      Ret (inr (mk_tm (Z.rem rem SECSPERMIN + hit) (Z.quot rem SECSPERMIN) hour (mday + 1) mon year wday idays 0))
  end.

Definition timesub_days (y idays rem hit : Z) : outcome (option Z + bson_tm) :=
  r ← days_up (days_fuel idays) y idays;
  match r with
  | None => Ret (inl None)
  | Some (y, idays) =>
      r ← days_down (days_fuel idays) y idays;
      match r with None => Ret (inl None) | Some (y, idays) => timesub_fields y idays rem hit end
  end.

Definition timesub (timep offset : Z) (sp : state) : outcome (option Z + bson_tm) :=
  let '(corr, hit) := leap_seconds (lsis sp) timep (length (lsis sp)) in
  let tdays := Z.quot timep SECSPERDAY in
  let rem := timep - tdays * SECSPERDAY in
  r ← year_loop year_fuel EPOCH_YEAR tdays;
  match r with
  | None => Ret (inl None)
  | Some (y, tdays) =>
      seconds ← i64 (tdays * SECSPERDAY);
      let tdays := Z.quot seconds SECSPERDAY in
      rem ← i64 (rem + (seconds - tdays * SECSPERDAY));
      rem ← i64 (rem + (offset - corr));
      '(rem, idays) ← rem_up (rem_fuel rem) rem tdays;
      '(rem, idays) ← rem_down (rem_fuel rem) rem idays;
      timesub_days y idays rem hit
  end.

Definition gmtsub (timep offset : Z) : outcome (option Z + bson_tm) := timesub timep offset gmtload.

(** ** timegm *)

Definition tmcomp (a b : bson_tm) : Z :=
  if negb (tm_year a =? tm_year b) then (if tm_year a <? tm_year b then -1 else 1)
  else if negb (tm_mon a - tm_mon b =? 0) then tm_mon a - tm_mon b
  else if negb (tm_mday a - tm_mday b =? 0) then tm_mday a - tm_mday b
  else if negb (tm_hour a - tm_hour b =? 0) then tm_hour a - tm_hour b
  else if negb (tm_min a - tm_min b =? 0) then tm_min a - tm_min b
  else tm_sec a - tm_sec b.

(** The loops over [tm_mday]; the year [y] is the actual one. *)
Fixpoint mday_up (fuel : nat) (y mon mday : Z) : outcome (option (Z * Z)) :=
  match fuel with
  | O => Fuel
  | S fuel =>
      if mday <=? 0 then
        match increment_overflow32 y (-1) with
        | None => Ret None
        | Some y => li ← i64 (y + (if 1 <? mon then 1 else 0)); mday_up fuel y mon (mday + year_length li)
        end
      else Ret (Some (y, mday))
  end.
Fixpoint mday_down (fuel : nat) (y mon mday : Z) : outcome (option (Z * Z)) :=
  match fuel with
  | O => Fuel
  | S fuel =>
      if mday >? DAYSPERLYEAR then
        li ← i64 (y + (if 1 <? mon then 1 else 0));
        match increment_overflow32 y 1 with
        | None => Ret None
        | Some y => mday_down fuel y mon (mday - year_length li)
        end
      else Ret (Some (y, mday))
  end.
Fixpoint mday_months (fuel : nat) (y mon mday : Z) : outcome (option (Z * Z * Z)) :=
  match fuel with
  | O => Fuel
  | S fuel =>
      match (if 0 <=? mon then mon_lengths (isleap y) !! Z.to_nat mon else None) with
      | None => Oob
      | Some i =>
          if mday <=? i then Ret (Some (y, mon, mday))
          else if mon + 1 >=? 12 then
            match increment_overflow32 y 1 with None => Ret None | Some y => mday_months fuel y 0 (mday - i) end
          else mday_months fuel y (mon + 1) (mday - i)
      end
  end.
Definition month_fuel : nat := 15.

(** What [time2sub] searches for: [None] is WRONG. *)
Definition normalized (tmp : bson_tm) (do_norm_secs : bool) : outcome (option bson_tm) :=
  match (if do_norm_secs then normalize_overflow (tm_min tmp) (tm_sec tmp) 60 else Some (tm_min tmp, tm_sec tmp)) with
  | None => Ret None
  | Some (min, sec) =>
      match normalize_overflow (tm_hour tmp) min 60 with
      | None => Ret None
      | Some (hour, min) =>
          match normalize_overflow (tm_mday tmp) hour 24 with
          | None => Ret None
          | Some (mday, hour) =>
              match normalize_overflow32 (tm_year tmp) (tm_mon tmp) 12 with
              | None => Ret None
              | Some (y, mon) =>
                  match increment_overflow32 y TM_YEAR_BASE with
                  | None => Ret None
                  | Some y =>
                      r ← mday_up (days_fuel mday) y mon mday;
                      match r with
                      | None => Ret None
                      | Some (y, mday) =>
                          r ← mday_down (days_fuel mday) y mon mday;
                          match r with
                          | None => Ret None
                          | Some (y, mday) =>
                              r ← mday_months month_fuel y mon mday;
                              match r with
                              | None => Ret None
                              | Some (y, mon, mday) =>
                                  match increment_overflow32 y (- TM_YEAR_BASE) with
                                  | None => Ret None
                                  | Some y => Ret (Some (mk_tm sec min hour mday mon y (tm_wday tmp) (tm_yday tmp) (tm_isdst tmp)))
                                  end
                              end
                          end
                      end
                  end
              end
          end
      end
  end.

(** The seconds that are put aside, and those that are searched for. *)
Definition save_seconds (tm : bson_tm) : option (Z * bson_tm) :=
  let with_sec s := mk_tm s (tm_min tm) (tm_hour tm) (tm_mday tm) (tm_mon tm) (tm_year tm) (tm_wday tm) (tm_yday tm) (tm_isdst tm) in
  if (tm_sec tm >=? 0) && (tm_sec tm <? SECSPERMIN) then Some (0, tm)
  else if tm_year tm + TM_YEAR_BASE <? EPOCH_YEAR then
    s ← increment_overflow (tm_sec tm) (1 - SECSPERMIN); Some (s, with_sec (SECSPERMIN - 1))
  else Some (tm_sec tm, with_sec 0).

Section Search.
Context (funcp : Z -> Z -> outcome (option Z + bson_tm)) (offset : Z) (sp : state).

(** Right time, wrong type: the same time under another type. *)
Fixpoint hunt (pairs : list (ttinfo * ttinfo)) (t : Z) (your : bson_tm) : outcome (option Z) :=
  match pairs with
  | [] => Ret None
  | (ti, tj) :: pairs =>
      newt ← i64 (t + tt_gmtoff tj - tt_gmtoff ti);
      r ← funcp newt offset;
      match r with
      | inr my =>
          if (tmcomp my your =? 0) && (tm_isdst my =? tm_isdst your) then Ret (Some newt) else hunt pairs t your
      | inl _ => hunt pairs t your
      end
  end.
Definition hunt_pairs (your : bson_tm) : list (ttinfo * ttinfo) :=
  list_prod (filter (fun a => tt_isdst a = tm_isdst your) (rev (ttis sp)))
            (filter (fun a => tt_isdst a <> tm_isdst your) (rev (ttis sp))).

(** The bisection. *)
Fixpoint bisect (fuel : nat) (lo hi : Z) (your : bson_tm) : outcome (option Z) :=
  match fuel with
  | O => Fuel
  | S fuel =>
      let t := Z.quot lo 2 + Z.quot hi 2 in
      let t := if t <? lo then lo else if t >? hi then hi else t in
      r ← funcp t offset;
      let dir := match r with inl _ => if t >? 0 then 1 else -1 | inr my => tmcomp my your end in
      if negb (dir =? 0) then
        match (if t =? lo then (if t =? INT64_MAX then None else Some (t + 1, lo + 1, hi))
               else if t =? hi then (if t =? INT64_MIN then None else Some (t - 1, lo, hi - 1))
               else Some (t, lo, hi)) with
        | None => Ret None
        | Some (t, lo, hi) =>
            if lo >? hi then Ret None else if dir >? 0 then bisect fuel lo t your else bisect fuel t hi your
        end
      else
        match r with
        | inr my =>
            if (tm_isdst your <? 0) || (tm_isdst my =? tm_isdst your) then Ret (Some t) else hunt (hunt_pairs your) t your
        | inl _ => Ret None
        end
  end.
Definition bisect_fuel : nat := 70.

Definition set_year (tm : bson_tm) (y : option Z) : bson_tm :=
  mk_tm (tm_sec tm) (tm_min tm) (tm_hour tm) (tm_mday tm) (tm_mon tm) (default (tm_year tm) y) (tm_wday tm) (tm_yday tm) (tm_isdst tm).

(** The result is the time, the new contents of [tmp] and [okay]. *)
Definition time2sub (tmp : bson_tm) (do_norm_secs : bool) : outcome (Z * bson_tm * bool) :=
  let WRONG := (-1, tmp, false) in
  r ← normalized tmp do_norm_secs;
  match r with
  | None => Ret WRONG
  | Some your =>
      match save_seconds your with
      | None => Ret WRONG
      | Some (saved_seconds, your) =>
          r ← bisect bisect_fuel INT64_MIN INT64_MAX your;
          match r with
          | None => Ret WRONG
          | Some t =>
              newt ← i64 (t + saved_seconds);
              if negb (Bool.eqb (newt <? t) (saved_seconds <? 0)) then Ret WRONG
              else
                r ← funcp newt offset;
                match r with inr tm => Ret (newt, tm, true) | inl stored => Ret (newt, set_year tmp stored, false) end
          end
      end
  end.

Definition time2 (tmp : bson_tm) : outcome (Z * bson_tm * bool) :=
  r ← time2sub tmp false;
  match r with (t, tm, okay) => if (okay : bool) then Ret r else time2sub tm true end.

Definition set_isdst (tm : bson_tm) (d : Z) : bson_tm :=
  mk_tm (tm_sec tm) (tm_min tm) (tm_hour tm) (tm_mday tm) (tm_mon tm) (tm_year tm) (tm_wday tm) (tm_yday tm) d.
Definition add_sec (tm : bson_tm) (d : Z) : bson_tm :=
  mk_tm (tm_sec tm + d) (tm_min tm) (tm_hour tm) (tm_mday tm) (tm_mon tm) (tm_year tm) (tm_wday tm) (tm_yday tm) (tm_isdst tm).

(** The types that occur in the transitions, the last one first. *)
Definition types_seen : list nat := remove_dups (rev (types sp)).

Fixpoint time1_types (pairs : list (ttinfo * ttinfo)) (tmp : bson_tm) : outcome (Z * bson_tm) :=
  match pairs with
  | [] => Ret (-1, tmp)
  | (same, other) :: pairs =>
      if (tt_isdst same =? tm_isdst tmp) && negb (tt_isdst other =? tm_isdst tmp) then
        let d := tt_gmtoff other - tt_gmtoff same in
        r ← time2 (set_isdst (add_sec tmp d) (if tm_isdst tmp =? 0 then 1 else 0));
        match r with
        | (t, tm, okay) =>
            if (okay : bool) then Ret (t, tm)
            else time1_types pairs (set_isdst (add_sec tm (- d)) (if tm_isdst tm =? 0 then 1 else 0))
        end
      else time1_types pairs tmp
  end.

Definition time1 (tmp : bson_tm) : outcome (Z * bson_tm) :=
  let tmp := if tm_isdst tmp >? 1 then set_isdst tmp 1 else tmp in
  r ← time2 tmp;
  match r with
  | (t, tm, okay) =>
      if (okay : bool) then Ret (t, tm)
      else if tm_isdst tm <? 0 then Ret (t, tm)
      else
        let seen := omap (fun i : nat => ttis sp !! i) types_seen in
        time1_types (list_prod seen seen) tm
  end.
End Search.

Definition _bson_timegm (tmp : bson_tm) : outcome (Z * bson_tm) := time1 gmtsub 0 gmtload (set_isdst tmp 0).
