(* ===== verification/Calendar.v ===== *)
(** * The Gregorian calendar, and that bson-timegm.c computes it

    [day_number] counts the days from the epoch and [seconds_of] the seconds; they
    are the reference for [Dates.timesub], which breaks a time into fields, and for
    [Dates._bson_timegm], which goes the other way by bisection. *)
From S2P Require Import Prelude Numbers Dates.
#[local] Open Scope Z_scope.

(** ** Leap years *)

Definition leaps (y : Z) : Z := y / 4 - y / 100 + y / 400.

Ltac euclid := Z.to_euclidean_division_equations; lia.

Lemma leaps_thru_end_of_floor y : leaps_thru_end_of y = leaps y.
Proof. unfold leaps_thru_end_of, leaps. case_match; euclid. Qed.

Lemma rem_eqb_mod y n : 0 < n -> (Z.rem y n =? 0) = (y mod n =? 0).
Proof.
  intros Hn. apply Bool.eq_iff_eq_true. rewrite !Z.eqb_eq, Z.rem_divide, Z.mod_divide by lia. reflexivity.
Qed.

Lemma isleap_mod y : isleap y = (y mod 4 =? 0) && (negb (y mod 100 =? 0) || (y mod 400 =? 0)).
Proof. unfold isleap. rewrite !rem_eqb_mod by lia. reflexivity. Qed.

Lemma leaps_step y : leaps y - leaps (y - 1) = if isleap y then 1 else 0.
Proof.
  rewrite isleap_mod. unfold leaps.
  destruct (y mod 4 =? 0) eqn:E4, (y mod 100 =? 0) eqn:E100, (y mod 400 =? 0) eqn:E400; cbn; euclid.
Qed.

(** ** Years *)

Definition days_before_year (y : Z) : Z := 365 * (y - 1970) + leaps (y - 1) - leaps 1969.

Lemma days_before_year_epoch : days_before_year 1970 = 0.
Proof. reflexivity. Qed.

Lemma year_length_range y : 365 <= year_length y <= 366.
Proof. unfold year_length, DAYSPERLYEAR, DAYSPERNYEAR. case_match; lia. Qed.

Lemma days_before_year_step y : days_before_year (y + 1) = days_before_year y + year_length y.
Proof.
  unfold days_before_year, year_length, DAYSPERLYEAR, DAYSPERNYEAR. pose proof (leaps_step y).
  replace (y + 1 - 1) with y by lia. case_match; lia.
Qed.

Lemma days_before_year_range a b : a <= b -> 365 * (b - a) <= days_before_year b - days_before_year a <= 366 * (b - a).
Proof.
  intros H. replace b with (a + Z.of_nat (Z.to_nat (b - a))) by lia.
  induction (Z.to_nat (b - a)) as [|n IH]; [replace (a + Z.of_nat 0) with a by lia; lia|].
  replace (a + Z.of_nat (S n)) with (a + Z.of_nat n + 1) by lia. rewrite days_before_year_step.
  pose proof (year_length_range (a + Z.of_nat n)). lia.
Qed.

Lemma leap_days a b : leaps_thru_end_of (b - 1) - leaps_thru_end_of (a - 1) = days_before_year b - days_before_year a - 365 * (b - a).
Proof. rewrite !leaps_thru_end_of_floor. unfold days_before_year. lia. Qed.

(** ** Months and days *)

Definition days_before_month (leap : bool) (mon : Z) : Z := foldr Z.add 0 (take (Z.to_nat mon) (mon_lengths leap)).
Definition month_length (y mon : Z) : Z := nth (Z.to_nat mon) (mon_lengths (isleap y)) 0.

(** The first day of a month; the months of other years count on. *)
Definition month_start (y mon : Z) : Z :=
  let y := y + mon / 12 in days_before_year y + days_before_month (isleap y) (mon mod 12).
Definition day_number (y mon mday : Z) : Z := month_start y mon + mday - 1.

Definition seconds_of (tm : bson_tm) : Z :=
  ((day_number (tm_year tm + TM_YEAR_BASE) (tm_mon tm) (tm_mday tm) * 24 + tm_hour tm) * 60 + tm_min tm) * 60 + tm_sec tm.

Definition valid_date (y mon mday : Z) : Prop := 0 <= mon < 12 /\ 1 <= mday <= month_length y mon.
Definition valid_tm (tm : bson_tm) : Prop :=
  valid_date (tm_year tm + TM_YEAR_BASE) (tm_mon tm) (tm_mday tm)
  /\ 0 <= tm_hour tm < 24 /\ 0 <= tm_min tm < 60 /\ 0 <= tm_sec tm < 60.

Ltac month_cases mon :=
  let H := fresh in
  assert (H : mon = 0 \/ mon = 1 \/ mon = 2 \/ mon = 3 \/ mon = 4 \/ mon = 5 \/ mon = 6 \/ mon = 7 \/ mon = 8 \/ mon = 9
              \/ mon = 10 \/ mon = 11) by lia;
  repeat destruct H as [H|H]; subst mon.

(** Computes with the tables. *)
Ltac calendar :=
  repeat match goal with
  | |- context [days_before_month ?b ?m] =>
      let v := eval vm_compute in (days_before_month b m) in change (days_before_month b m) with v
  | |- context [nth ?m (mon_lengths ?b) 0] =>
      let v := eval vm_compute in (nth m (mon_lengths b) 0) in change (nth m (mon_lengths b) 0) with v
  end;
  unfold DAYSPERLYEAR, DAYSPERNYEAR; lia.

Lemma month_start_in y mon : 0 <= mon < 12 -> month_start y mon = days_before_year y + days_before_month (isleap y) mon.
Proof. intros H. unfold month_start. rewrite Z.div_small, Z.mod_small by lia. replace (y + 0) with y by lia. reflexivity. Qed.

Lemma month_start_norm y mon : month_start y mon = month_start (y + mon / 12) (mon mod 12).
Proof. rewrite (month_start_in (y + mon / 12)) by (apply Z.mod_pos_bound; lia). reflexivity. Qed.

Lemma month_start_january y : month_start y 12 = month_start (y + 1) 0.
Proof. rewrite month_start_norm. reflexivity. Qed.

Lemma month_start_next y mon : 0 <= mon < 12 -> month_start y (mon + 1) = month_start y mon + month_length y mon.
Proof.
  intros H. unfold month_length. rewrite (month_start_in y mon) by lia. destruct (decide (mon = 11)) as [->|].
  - change (11 + 1) with 12. rewrite month_start_january, month_start_in, days_before_year_step by lia.
    unfold year_length. destruct (isleap y), (isleap (y + 1)); calendar.
  - rewrite month_start_in by lia. month_cases mon; destruct (isleap y); calendar.
Qed.

(** The whole days of a year before and after a month. *)
Lemma month_start_year_step y mon :
  0 <= mon < 12 -> month_start (y + 1) mon = month_start y mon + year_length (y + if 1 <? mon then 1 else 0).
Proof.
  intros H. rewrite !month_start_in by lia. rewrite days_before_year_step.
  unfold year_length. destruct (1 <? mon) eqn:E; rewrite ?Z.add_0_r;
    month_cases mon; try discriminate E; destruct (isleap y), (isleap (y + 1)); calendar.
Qed.

Lemma month_length_range y mon : 0 <= mon < 12 -> 28 <= month_length y mon <= 31.
Proof. intros H. unfold month_length. month_cases mon; destruct (isleap y); calendar. Qed.

(** The first day of the next month, whatever the month. *)
Lemma month_start_year y mon : 0 <= mon <= 12 -> days_before_year y <= month_start y mon <= days_before_year (y + 1).
Proof.
  intros H. pose proof (days_before_year_step y) as S. destruct (decide (mon = 12)) as [->|].
  - rewrite month_start_january, month_start_in by lia. pose proof (year_length_range y).
    destruct (isleap (y + 1)); calendar.
  - rewrite month_start_in by lia. rewrite S. unfold year_length, DAYSPERLYEAR, DAYSPERNYEAR.
    month_cases mon; destruct (isleap y); calendar.
Qed.

Lemma month_start_mono y m m' : 0 <= m -> m <= m' -> m' <= 12 -> month_start y m <= month_start y m'.
Proof.
  intros H0 H H1. replace m' with (m + Z.of_nat (Z.to_nat (m' - m))) in * by lia.
  induction (Z.to_nat (m' - m)) as [|n IH]; [replace (m + Z.of_nat 0) with m by lia; lia|].
  replace (m + Z.of_nat (S n)) with (m + Z.of_nat n + 1) in * by lia.
  rewrite month_start_next by lia. pose proof (month_length_range y (m + Z.of_nat n)). lia.
Qed.

(** ** The day after *)

Definition next_day (y mon mday : Z) : Z * Z * Z :=
  if mday <? month_length y mon then (y, mon, mday + 1) else if mon <? 11 then (y, mon + 1, 1) else (y + 1, 0, 1).

(** [day_number] is determined by the first of January 1970 and the day after each day. *)
Lemma day_number_next y mon mday :
  valid_date y mon mday ->
  let '(y', mon', mday') := next_day y mon mday in
  valid_date y' mon' mday' /\ day_number y' mon' mday' = day_number y mon mday + 1.
Proof.
  intros [Hm Hd]. unfold next_day, valid_date, day_number. pose proof (month_start_next y mon Hm).
  destruct (mday <? month_length y mon) eqn:E; [split; lia|].
  destruct (mon <? 11) eqn:E'.
  - pose proof (month_length_range y (mon + 1)). split; [lia|]. lia.
  - assert (mon = 11) as -> by lia. pose proof (month_length_range (y + 1) 0).
    change (11 + 1) with 12 in *. rewrite month_start_january in *. split; lia.
Qed.

Lemma day_number_epoch : day_number 1970 0 1 = 0.
Proof. reflexivity. Qed.

(** ** Fields in order *)

Lemma day_in_month y mon mday : valid_date y mon mday -> month_start y mon <= day_number y mon mday < month_start y (mon + 1).
Proof. intros [Hm Hd]. rewrite month_start_next by lia. unfold day_number. lia. Qed.

Lemma day_in_year y mon mday : valid_date y mon mday -> days_before_year y <= day_number y mon mday < days_before_year (y + 1).
Proof.
  intros H. pose proof (day_in_month _ _ _ H). destruct H as [Hm _].
  pose proof (month_start_year y mon). pose proof (month_start_year y (mon + 1)). lia.
Qed.

Lemma day_number_lt y mon mday y' mon' mday' :
  valid_date y mon mday -> valid_date y' mon' mday' ->
  y < y' \/ (y = y' /\ mon < mon') \/ (y = y' /\ mon = mon' /\ mday < mday') ->
  day_number y mon mday < day_number y' mon' mday'.
Proof.
  intros H H' [C|[[-> C]|(-> & -> & C)]].
  - pose proof (day_in_year _ _ _ H). pose proof (day_in_year _ _ _ H'). pose proof (days_before_year_range (y + 1) y'). lia.
  - pose proof (day_in_month _ _ _ H). pose proof (day_in_month _ _ _ H').
    destruct H, H'. pose proof (month_start_mono y' (mon + 1) mon'). lia.
  - unfold day_number. lia.
Qed.

Lemma tmcomp_sgn a b : valid_tm a -> valid_tm b -> Z.sgn (tmcomp a b) = Z.sgn (seconds_of a - seconds_of b).
Proof.
  intros (Da & Ha & Ma & Sa) (Db & Hb & Mb & Sb). unfold tmcomp, seconds_of, TM_YEAR_BASE in *.
  pose proof (day_number_lt _ _ _ _ _ _ Da Db) as L. pose proof (day_number_lt _ _ _ _ _ _ Db Da) as G. clear Da Db.
  destruct (tm_year a =? tm_year b) eqn:Y; cbn [negb];
    [|destruct (tm_year a <? tm_year b) eqn:Y'; [assert (E := L ltac:(lia))|assert (E := G ltac:(lia))]; lia].
  assert (tm_year a = tm_year b) as EY by lia. rewrite EY in *. clear Y.
  destruct (tm_mon a - tm_mon b =? 0) eqn:Mo; cbn [negb];
    [|destruct (tm_mon a <? tm_mon b) eqn:Y'; [assert (E := L ltac:(lia))|assert (E := G ltac:(lia))]; lia].
  assert (tm_mon a = tm_mon b) as EM by lia. rewrite EM in *. clear Mo.
  unfold day_number. repeat (case_match; try lia).
Qed.
