(* ===== verification/Timegm.v ===== *)
(** * bson-timegm.c computes the calendar

    [timesub] breaks every time of [int64_t] whose year fits an [int] into the
    fields of the calendar, and [_bson_timegm] finds the time of any fields, also of
    those out of their ranges, with at most 68 probes of the bisection. *)
From S2P Require Import Prelude Numbers Dates Calendar.
#[local] Open Scope Z_scope.

Lemma i64_ret z : INT64_MIN <= z <= INT64_MAX -> i64 z = Ret z.
Proof. intros H. unfold i64. case_match; [reflexivity|lia]. Qed.

Ltac checked := rewrite !i64_ret by (unfold INT64_MIN, INT64_MAX in *; lia); rewrite ?bind_ret.

(** ** The loop over the years *)

(** The days that [n] rounds of the loop can still use up. *)
Definition year_bound (n : nat) : Z :=
  match n with O => -1 | 1%nat => 0 | 2%nat => 364 | 3%nat => 729 | S (S (S (S k))) => 133590 * 100 ^ Z.of_nat k end.

Lemma year_bound_step n a a' : 366 <= a <= year_bound (S n) -> a' <= a - 365 * (a / 366) -> a' <= year_bound n.
Proof.
  intros [H1 H2] H. destruct n as [|[|[|[|k]]]]; cbn [year_bound] in *; try lia.
  - euclid.
  - change (133590 * 100 ^ Z.of_nat 0) with 133590 in H2. euclid.
  - replace (Z.of_nat (S k)) with (Z.of_nat k + 1) in H2 by lia. rewrite Z.pow_add_r in H2 by lia.
    assert (1 <= 100 ^ Z.of_nat k) by (apply (Z.pow_le_mono_r 100 0); lia).
    set (p := 100 ^ Z.of_nat k) in *. clearbody p. euclid.
Qed.

(** What the loop says of the [D] days since the epoch. *)
Definition year_found (D : Z) (r : option (Z * Z)) : Prop :=
  match r with
  | Some (y, d) => days_before_year y + d = D /\ 0 <= d < year_length y
  | None => D < days_before_year (INT_MIN + 1) \/ days_before_year (INT_MAX + 1) <= D
  end.

Lemma increment_overflow_spec i j :
  match increment_overflow i j with
  | Some k => k = i + j
  | None => (0 <= i /\ INT_MAX < i + j) \/ (i < 0 /\ i + j < INT_MIN)
  end.
Proof. unfold increment_overflow. destruct (0 <=? i) eqn:E; [destruct (j >? _) eqn:F|destruct (j <? _) eqn:F]; lia. Qed.

Lemma year_loop_exit fuel y t : 0 <= t < year_length y -> year_loop (S fuel) y t = Ret (Some (y, t)).
Proof. intros H. cbn [year_loop]. case_match; [lia|reflexivity]. Qed.

(** A step of the loop: the jump, and what remains. *)
Lemma year_step y t :
  t < 0 \/ year_length y <= t -> (0 <= t /\ 1970 <= y) \/ (t <= 0 /\ y <= 1970) ->
  let q := if Z.quot t 366 =? 0 then (if t <? 0 then -1 else 1) else Z.quot t 366 in
  let t' := t - (days_before_year (y + q) - days_before_year y) in
  (t < 0 /\ 0 <= t' < year_length (y + q) /\ q = -1 /\ -366 < t)
  \/ (((0 <= t' /\ 0 < t /\ 1 <= q) \/ (t' <= 0 /\ t < 0 /\ q <= -1)) /\ Z.abs t' <= Z.max 0 (Z.abs t - 365 * (Z.abs t / 366)) 
      /\ 365 * Z.abs q <= Z.abs t /\ (Z.abs t < 366 -> t' = 0)).
Proof.
  intros Hx Hs q t'. pose proof (year_length_range y) as Ly. pose proof (year_length_range (y - 1)) as Ly'.
  pose proof (days_before_year_step y) as S. pose proof (days_before_year_step (y - 1)) as S'.
  replace (y - 1 + 1) with y in S' by lia.
  destruct (decide (Z.abs t < 366)) as [Ha|Ha].
  - assert (Z.quot t 366 = 0) as E by euclid. assert (q = if t <? 0 then -1 else 1) as Eq by (subst q; rewrite E; reflexivity).
    clearbody q. destruct (t <? 0) eqn:N; subst q t'; [left|right].
    + replace (y + -1) with (y - 1) in * by lia. lia.
    + rewrite S. euclid.
  - right. destruct (decide (0 <= t)) as [Hp|Hp].
    + assert (Z.quot t 366 = Z.abs t / 366) as E by euclid. assert (1 <= Z.abs t / 366) by euclid.
      assert (q = Z.abs t / 366) as Eq by (subst q; case_match; lia).
      pose proof (days_before_year_range y (y + q)). clearbody q. subst q t'. euclid.
    + assert (Z.quot t 366 = - (Z.abs t / 366)) as E by euclid. assert (1 <= Z.abs t / 366) by euclid.
      assert (q = - (Z.abs t / 366)) as Eq by (subst q; case_match; lia).
      pose proof (days_before_year_range (y + q) y). clearbody q. subst q t'. euclid.
Qed.

Lemma year_loop_unfold fuel y t :
  t < 0 \/ year_length y <= t -> Z.abs t <= 2 ^ 60 ->
  let q := if Z.quot t 366 =? 0 then (if t <? 0 then -1 else 1) else Z.quot t 366 in
  let t' := t - (days_before_year (y + q) - days_before_year y) in
  year_loop (S fuel) y t = match increment_overflow y q with None => Ret None | Some newy => year_loop fuel newy t' end.
Proof.
  intros Hx Hb q t'. cbn [year_loop]. replace ((t <? 0) || (t >=? year_length y)) with true by lia.
  unfold DAYSPERLYEAR, DAYSPERNYEAR. fold q.
  pose proof (increment_overflow_spec y q) as I. destruct (increment_overflow y q) as [newy|]; [|reflexivity]. subst newy.
  assert (Z.abs q <= 2 ^ 60) by (subst q; repeat case_match; euclid).
  assert (Z.abs (days_before_year (y + q) - days_before_year y) <= 366 * Z.abs q) as L
    by (pose proof (days_before_year_range y (y + q)); pose proof (days_before_year_range (y + q) y); lia).
  assert (365 * Z.abs q <= Z.max 365 (Z.abs t)) by (subst q; repeat case_match; euclid).
  rewrite leap_days. replace (y + q - y) with q by lia. clearbody q.
  rewrite (i64_ret (q * 365)), bind_ret by (unfold INT64_MIN, INT64_MAX; lia).
  rewrite (i64_ret (t - q * 365)), bind_ret by (unfold INT64_MIN, INT64_MAX; lia).
  replace (t - q * 365 - (days_before_year (y + q) - days_before_year y - 365 * q)) with t' by (subst t'; lia).
  rewrite (i64_ret t'), bind_ret by (unfold INT64_MIN, INT64_MAX; subst t'; lia). reflexivity.
Qed.

Lemma year_loop_correct n : forall fuel y t,
  (n <= fuel)%nat -> Z.abs t <= year_bound n -> Z.abs t <= 2 ^ 60 ->
  (0 <= t /\ 1970 <= y) \/ (t <= 0 /\ y <= 1970) ->
  exists r, year_loop fuel y t = Ret r /\ year_found (days_before_year y + t) r.
Proof.
  induction n as [|n IH]; intros fuel y t Hf Hn Hb Hs; [cbn in Hn; lia|].
  destruct fuel as [|fuel]; [lia|]. pose proof (year_length_range y) as Ly.
  destruct (decide (0 <= t < year_length y)) as [Hx|Hx].
  { exists (Some (y, t)). rewrite year_loop_exit by lia. split; [reflexivity|]. cbn. lia. }
  pose proof (year_step y t ltac:(lia) Hs) as St. rewrite year_loop_unfold by lia. cbv zeta in *.
  set (q := if Z.quot t 366 =? 0 then _ else _) in *. clearbody q.
  set (t' := t - (days_before_year (y + q) - days_before_year y)) in *.
  assert (days_before_year y + t = days_before_year (y + q) + t') as ED by lia. 
  pose proof (increment_overflow_spec y q) as I. destruct (increment_overflow y q) as [newy|].
  - subst newy. rewrite ED. destruct n as [|n]; [cbn in Hn; lia|]. destruct fuel as [|fuel]; [lia|].
    destruct St as [(? & ? & ? & ?)|(S & Ht & Hq & H0)].
    + exists (Some (y + q, t')). rewrite year_loop_exit by lia. split; [reflexivity|]. cbn. lia.
    + pose proof (Z.div_pos (Z.abs t) 366 ltac:(lia) ltac:(lia)). apply IH; [lia| |lia|lia]. destruct (decide (Z.abs t < 366)) as [Hsm|Hsm].
      * rewrite H0 by lia. destruct n as [|[|[|k]]]; cbn; lia.
      * apply year_bound_step with (Z.abs t); [lia|]. euclid.
  - exists None. split; [reflexivity|]. cbn [year_found]. rewrite ED.
    pose proof (days_before_year_step (y - 1)) as S1. replace (y - 1 + 1) with y in S1 by lia.
    unfold INT_MAX, INT_MIN in *.
    destruct I as [[I1 I2]|[I1 I2]].
    + right. pose proof (days_before_year_range (2147483647 + 1) (y + q)). lia.
    + left. pose proof (days_before_year_range (y + q) (-2147483648 + 1)). pose proof (days_before_year_range y (-2147483648 + 1)). lia.
Qed.

(** ** timesub *)

Lemma rem_up_day rem idays :
  -86400 < rem < 86400 ->
  rem_up (rem_fuel rem) rem idays = Ret (if rem <? 0 then (rem + 86400, idays - 1) else (rem, idays)).
Proof.
  intros H. unfold rem_fuel. replace (Z.abs rem / SECSPERDAY + 2) with 2 by (unfold SECSPERDAY; euclid).
  change (Z.to_nat 2) with 2%nat. cbn [rem_up]. unfold SECSPERDAY. destruct (rem <? 0); [|reflexivity].
  case_match; [lia|reflexivity].
Qed.

Lemma rem_down_day rem idays : 0 <= rem < 86400 -> rem_down (rem_fuel rem) rem idays = Ret (rem, idays).
Proof.
  intros H. unfold rem_fuel. replace (Z.abs rem / SECSPERDAY + 2) with 2 by (unfold SECSPERDAY; euclid).
  change (Z.to_nat 2) with 2%nat. cbn [rem_down]. unfold SECSPERDAY. case_match; [lia|reflexivity].
Qed.

Lemma days_up_year y idays :
  -1 <= idays < 366 ->
  days_up (days_fuel idays) y idays =
  Ret (if idays <? 0 then match increment_overflow y (-1) with None => None | Some y' => Some (y', idays + year_length y') end
       else Some (y, idays)).
Proof.
  intros H. unfold days_fuel. set (n := Z.to_nat (Z.abs idays / DAYSPERNYEAR + 2)).
  assert (2 <= n)%nat by (subst n; unfold DAYSPERNYEAR; euclid). destruct n as [|[|n]]; [lia..|].
  cbn [days_up]. destruct (idays <? 0) eqn:E; [|reflexivity]. destruct (increment_overflow y (-1)) as [y'|]; [|reflexivity].
  pose proof (year_length_range y'). case_match; [lia|reflexivity].
Qed.

Lemma days_down_year y idays : idays < year_length y -> days_down (days_fuel idays) y idays = Ret (Some (y, idays)).
Proof.
  intros H. unfold days_fuel. set (n := Z.to_nat (Z.abs idays / DAYSPERNYEAR + 2)).
  assert (2 <= n)%nat by (subst n; unfold DAYSPERNYEAR; euclid). destruct n as [|[|n]]; [lia..|].
  cbn [days_down]. case_match; [lia|reflexivity].
Qed.

Lemma month_loop_correct (leap : bool) idays :
  0 <= idays < (if leap then 366 else 365) ->
  exists mon d, month_loop (mon_lengths leap) 0 idays = Ret (mon, d) /\ 0 <= mon < 12
    /\ 0 <= d < nth (Z.to_nat mon) (mon_lengths leap) 0 /\ idays = days_before_month leap mon + d.
Proof.
  intros H. unfold mon_lengths at 1. cbn [month_loop].
  repeat match goal with |- context [if ?a >=? ?b then _ else Ret (?m, ?d)] =>
    destruct (a >=? b) eqn:?; [|exists m, d; split; [reflexivity|]; destruct leap; calendar] end.
  destruct leap; lia.
Qed.

(** Seconds whose year still fits an [int]: 6 * 10^16. *)
Definition FAR : Z := 60000000000000000.

(** The fields of day [D] and second [r] of the day, or the year is out of range. *)
Definition broken_down (t : Z) (r : option Z + bson_tm) : Prop :=
  match r with
  | inr tm =>
      valid_tm tm /\ seconds_of tm = t /\ tm_isdst tm = 0 /\ tm_wday tm = (4 + t / 86400) mod 7
      /\ tm_yday tm = t / 86400 - days_before_year (tm_year tm + 1900)
  | inl _ => t < - FAR \/ FAR < t
  end.

Lemma wday_mod y idays :
  0 <= idays ->
  let w := Z.rem (4 + Z.rem (y - 1970) 7 * Z.rem 365 7 + leaps_thru_end_of (y - 1) - leaps_thru_end_of 1969 + idays) 7 in
  (if w <? 0 then w + 7 else w) = (4 + (days_before_year y + idays)) mod 7.
Proof.
  intros H w. subst w. rewrite !leaps_thru_end_of_floor. unfold days_before_year. change (Z.rem 365 7) with 1.
  set (l := leaps (y - 1)). set (l0 := leaps 1969). clearbody l l0. case_match; euclid.
Qed.

(** Years that do not fit an [int] are beyond [FAR] seconds. *)
Lemma far_past t y : t < 86400 * (days_before_year y + 366) -> y < INT_MIN + 1910 -> t < - FAR.
Proof.
  intros H Hy. unfold INT_MIN, FAR in *. pose proof (days_before_year_range y 1970). rewrite days_before_year_epoch in *. lia.
Qed.
Lemma far_future t y : 86400 * days_before_year y <= t -> INT_MAX < y + 1 -> FAR < t.
Proof.
  intros H Hy. unfold INT_MAX, FAR in *. pose proof (days_before_year_range 1970 y). rewrite days_before_year_epoch in *. lia.
Qed.

Lemma timesub_year t y tdays rem :
  days_before_year y + tdays = Z.quot t 86400 -> 0 <= tdays < year_length y -> rem = t - Z.quot t 86400 * 86400 ->
  let rem' := if rem <? 0 then rem + 86400 else rem in
  let idays := if rem <? 0 then tdays - 1 else tdays in
  t = (days_before_year y + idays) * 86400 + rem' /\ 0 <= rem' < 86400 /\ -1 <= idays < year_length y /\ -86400 < rem < 86400.
Proof. intros E Ht -> rem' idays. subst rem' idays. case_match; euclid. Qed.

Lemma timesub_fields_correct y idays rem :
  0 <= idays < year_length y -> 0 <= rem < 86400 ->
  exists r, timesub_fields y idays rem 0 = Ret r /\ broken_down ((days_before_year y + idays) * 86400 + rem) r.
Proof.
  intros Hi Hr. pose proof (year_length_range y) as Ly. unfold timesub_fields. change (- TM_YEAR_BASE) with (-1900).
  pose proof (increment_overflow_spec y (-1900)) as I. destruct (increment_overflow y (-1900)) as [year|]; cycle 1.
  { eexists. split; [reflexivity|]. destruct I; [right; apply far_future with y|left; apply far_past with y]; lia. }
  unfold year_length in Hi.
  destruct (month_loop_correct (isleap y) idays) as (mon & d & E & Hm & Hd & Ei); [destruct (isleap y); exact Hi|].
  rewrite E. eexists. split; [reflexivity|]. subst year.
  assert (((days_before_year y + idays) * 86400 + rem) / 86400 = days_before_year y + idays) as Ed
    by (rewrite Z.div_add_l, Z.div_small by lia; lia).
  unfold broken_down, valid_tm, seconds_of, valid_date, TM_YEAR_BASE.
  cbn [tm_year tm_mon tm_mday tm_hour tm_min tm_sec tm_isdst tm_wday tm_yday].
  replace (y + -1900 + 1900) with y by lia. rewrite Ed. unfold day_number. rewrite month_start_in by lia.
  fold (month_length y mon) in Hd. unfold SECSPERHOUR, SECSPERMIN. clear E Ed.
  split; [repeat split; try lia; euclid|]. split; [rewrite Ei; clear Ei Hi Hd; euclid|].
  split; [reflexivity|]. split; [apply wday_mod; lia|lia].
Qed.

Lemma timesub_days_correct y idays rem :
  0 <= rem < 86400 -> -1 <= idays < year_length y ->
  exists r, timesub_days y idays rem 0 = Ret r /\ broken_down ((days_before_year y + idays) * 86400 + rem) r.
Proof.
  intros Hr Hi. pose proof (year_length_range y). unfold timesub_days. rewrite days_up_year, bind_ret by lia.
  destruct (idays <? 0) eqn:N; [|rewrite days_down_year, bind_ret by lia; apply timesub_fields_correct; lia].
  pose proof (days_before_year_step (y + -1)) as S. replace (y + -1 + 1) with y in S by lia.
  pose proof (year_length_range (y + -1)).
  pose proof (increment_overflow_spec y (-1)) as I. destruct (increment_overflow y (-1)) as [y'|]; subst.
  - rewrite days_down_year, bind_ret by lia.
    replace (days_before_year y + idays) with (days_before_year (y + -1) + (idays + year_length (y + -1))) by lia.
    apply timesub_fields_correct; lia.
  - eexists. split; [reflexivity|]. destruct I; [right; apply far_future with (y + -1)|left; apply far_past with y]; lia.
Qed.

(** Every [int64_t] is broken into the right fields; only a year out of range gives NULL. *)
Lemma gmtsub_correct t : INT64_MIN <= t <= INT64_MAX -> exists r, gmtsub t 0 = Ret r /\ broken_down t r.
Proof.
  intros Ht. unfold INT64_MIN, INT64_MAX in Ht. unfold gmtsub, timesub. cbn [leap_seconds lsis gmtload length].
  unfold SECSPERDAY, EPOCH_YEAR. set (rem := t - _). set (d := Z.quot t 86400) in *.
  destruct (year_loop_correct 9 year_fuel 1970 d) as (r & -> & Hr);
    [unfold year_fuel; lia|change (year_bound 9) with 1335900000000000; subst d; euclid|subst d; euclid|lia|].
  rewrite days_before_year_epoch in Hr. rewrite bind_ret. destruct r as [[y tdays]|]; cycle 1.
  { eexists. split; [reflexivity|]. cbn [year_found broken_down] in *. unfold INT_MIN, INT_MAX, FAR in *.
    pose proof (days_before_year_range (-2147483648 + 1) 1970). pose proof (days_before_year_range 1970 (2147483647 + 1)).
    rewrite days_before_year_epoch in *. subst d. euclid. }
  cbn [year_found] in Hr. destruct Hr as [Hd Hr]. pose proof (year_length_range y).
  destruct (timesub_year t y tdays rem) as (Et & H1 & H2 & H3); [lia|lia|lia|].
  assert (Z.quot (tdays * 86400) 86400 = tdays) as Q by (apply Z.quot_mul; lia).
  checked. rewrite Q. replace (rem + (tdays * 86400 - tdays * 86400)) with rem by lia. checked.
  replace (rem + (0 - 0)) with rem by lia. checked. rewrite rem_up_day, bind_ret by lia.
  destruct (rem <? 0); rewrite rem_down_day, bind_ret by lia; rewrite Et; apply timesub_days_correct; lia.
Qed.

(** ** The bisection *)

(** The sign with which a probe answers. *)
Lemma probe_sgn t r T your :
  broken_down t r -> valid_tm your -> seconds_of your = T -> Z.abs T <= FAR ->
  Z.sgn (match r with inl _ => if t >? 0 then 1 else -1 | inr my => tmcomp my your end) = Z.sgn (t - T).
Proof.
  unfold FAR. intros B V <- HT. destruct r as [o|my]; cbn [broken_down] in B; [unfold FAR in *; case_match; lia|].
  destruct B as (Vm & E & _). rewrite tmcomp_sgn by assumption. rewrite E. reflexivity.
Qed.

(** The widest interval that [k] more rounds close. *)
Definition width_bound (k : nat) : Z := if (k <? 3)%nat then Z.of_nat k else 2 ^ Z.of_nat (k - 3) + 2.

Lemma width_bound_step k w w' : 0 <= w <= width_bound (S k) -> w' <= w / 2 + 1 -> w' <= w - 1 -> w' <= width_bound k.
Proof.
  intros H H1 H2. destruct k as [|[|[|k]]].
  - change (width_bound 1) with 1 in H. change (width_bound 0) with 0. lia.
  - change (width_bound 2) with 2 in H. change (width_bound 1) with 1. lia.
  - change (width_bound 3) with 3 in H. change (width_bound 2) with 2. lia.
  - unfold width_bound in *. cbn [Nat.ltb Nat.leb Nat.sub] in *.
    replace (Z.of_nat (S k)) with (Z.of_nat k + 1) in * by lia. rewrite Nat.sub_0_r. rewrite Z.pow_add_r in * by lia.
    set (p := 2 ^ Z.of_nat k) in *. clearbody p. euclid.
Qed.

Definition middle (lo hi : Z) : Z :=
  let t := Z.quot lo 2 + Z.quot hi 2 in if t <? lo then lo else if t >? hi then hi else t.

Lemma middle_range lo hi :
  lo <= hi -> lo <= middle lo hi <= hi /\ middle lo hi - lo <= (hi - lo) / 2 + 1 /\ hi - middle lo hi <= (hi - lo) / 2 + 1.
Proof. intros H. unfold middle. repeat case_match; euclid. Qed.

Lemma bisect_correct sp your T k : forall fuel lo hi,
  valid_tm your -> seconds_of your = T -> Z.abs T <= FAR -> tm_isdst your = 0 ->
  INT64_MIN <= lo -> lo <= T <= hi -> hi <= INT64_MAX -> hi - lo <= width_bound k -> (k < fuel)%nat ->
  bisect gmtsub 0 sp fuel lo hi your = Ret (Some T).
Proof.
  induction k as [|k IH]; intros fuel lo hi V ET HT Hd Hlo HTr Hhi Hw Hf; (destruct fuel as [|fuel]; [lia|]);
    pose proof (middle_range lo hi ltac:(lia)) as Hm; cbn [bisect]; cbv zeta; fold (middle lo hi);
    set (t := middle lo hi) in *; clearbody t;
    (destruct (gmtsub_correct t) as (r & -> & B); [lia|]); rewrite bind_ret; pose proof (probe_sgn t r T your B V ET HT) as Sg;
    set (dir := match r with inl _ => _ | inr _ => _ end) in *; destruct (dir =? 0) eqn:E0; cbn [negb];
    (* found: the sign is zero *)
    try (destruct r as [o|my]; [subst dir; revert E0; case_match; discriminate|];
         destruct B as (Vm & Em & Im & _); rewrite Im, Hd; cbn; f_equal; f_equal; lia);
    clearbody dir.
  - change (width_bound 0) with 0 in Hw. lia.
  - unfold INT64_MIN, INT64_MAX in *. unfold FAR in *. destruct (t =? lo) eqn:El; [|destruct (t =? hi) eqn:Eh].
    + destruct (t =? 9223372036854775807) eqn:?; [exfalso; lia|]. destruct (lo + 1 >? hi) eqn:?; [exfalso; lia|]. destruct (dir >? 0) eqn:?; [exfalso; lia|].
      apply IH; try assumption; try lia. apply width_bound_step with (hi - lo); lia.
    + destruct (t =? -9223372036854775808) eqn:?; [exfalso; lia|]. destruct (lo >? hi - 1) eqn:?; [exfalso; lia|]. destruct (dir >? 0) eqn:?; [|exfalso; lia].
      apply IH; try assumption; try lia. apply width_bound_step with (hi - lo); lia.
    + destruct (lo >? hi) eqn:?; [exfalso; lia|].
      destruct (dir >? 0) eqn:?; (apply IH; try assumption; try lia); apply width_bound_step with (hi - lo); lia.
Qed.

(** ** The fields in their ranges *)

Lemma tens_delta_div u b : 0 < b -> tens_delta u b = u / b.
Proof.
  intros H. unfold tens_delta. destruct (0 <=? u) eqn:E; [apply Z.quot_div_nonneg; lia|].
  rewrite Z.quot_div_nonneg by lia. pose proof (Z.mod_pos_bound u b H). pose proof (Z.div_mod u b ltac:(lia)).
  rewrite <- (Z.div_unique_pos (-1 - u) b (-1 - u / b) (b - 1 - u mod b)); lia.
Qed.

Lemma normalize_overflow_ok tens u b :
  0 < b -> Z.abs (tens + u / b) <= 2000000000 -> Z.abs tens <= 2000000000 ->
  normalize_overflow tens u b = Some (tens + u / b, u mod b).
Proof.
  intros Hb H H'. unfold normalize_overflow. rewrite tens_delta_div by lia.
  pose proof (increment_overflow_spec tens (u / b)) as I. destruct (increment_overflow tens (u / b)) as [k|].
  - cbn. subst k. repeat f_equal. rewrite Z.mod_eq by lia. lia.
  - unfold INT_MAX, INT_MIN in I. lia.
Qed.

Lemma increment_overflow32_ok y j : Z.abs y <= 2 ^ 61 -> Z.abs j <= 2 ^ 61 -> increment_overflow32 y j = Some (y + j).
Proof.
  intros Hy Hj. unfold increment_overflow32, INT64_MAX, INT64_MIN.
  destruct (0 <=? y) eqn:E; [destruct (j >? _) eqn:F|destruct (j <? _) eqn:F]; (reflexivity || lia).
Qed.

Lemma normalize_overflow32_ok y u : Z.abs y <= 2 ^ 61 -> Z.abs u <= 2 ^ 61 -> normalize_overflow32 y u 12 = Some (y + u / 12, u mod 12).
Proof.
  intros Hy Hu. unfold normalize_overflow32. rewrite tens_delta_div by lia.
  rewrite increment_overflow32_ok by euclid. cbn. repeat f_equal. rewrite Z.mod_eq by lia. lia.
Qed.

Lemma mday_up_correct mon n : forall y mday,
  0 <= mon < 12 -> Z.abs y + Z.of_nat n <= 2 ^ 60 -> 1 - mday <= 365 * (Z.of_nat n - 1) -> (1 <= n)%nat ->
  exists y' mday', mday_up n y mon mday = Ret (Some (y', mday')) /\ month_start y' mon + mday' = month_start y mon + mday
    /\ 1 <= mday' <= Z.max mday 366 /\ y - Z.of_nat n <= y' <= y.
Proof.
  induction n as [|n IH]; intros y mday Hm Hy Hd Hn; [lia|]. cbn [mday_up].
  destruct (mday <=? 0) eqn:E; [|exists y, mday; split; [reflexivity|]; lia].
  rewrite increment_overflow32_ok by lia. set (b := if 1 <? mon then 1 else 0).
  assert (0 <= b <= 1) by (subst b; case_match; lia). checked.
  pose proof (month_start_year_step (y + -1) mon Hm) as S. fold b in S. replace (y + -1 + 1) with y in S by lia.
  pose proof (year_length_range (y + -1 + b)).
  destruct (IH (y + -1) (mday + year_length (y + -1 + b))) as (y' & d' & -> & ? & ? & ?); [lia..|].
  exists y', d'. split; [reflexivity|]. lia.
Qed.

Lemma mday_down_correct mon n : forall y mday,
  0 <= mon < 12 -> Z.abs y + Z.of_nat n <= 2 ^ 60 -> mday - 366 <= 365 * (Z.of_nat n - 1) -> (1 <= n)%nat -> 1 <= mday ->
  exists y' mday', mday_down n y mon mday = Ret (Some (y', mday')) /\ month_start y' mon + mday' = month_start y mon + mday
    /\ 1 <= mday' <= 366 /\ y <= y' <= y + Z.of_nat n.
Proof.
  induction n as [|n IH]; intros y mday Hm Hy Hd Hn Hp; [lia|]. cbn [mday_down]. unfold DAYSPERLYEAR.
  destruct (mday >? 366) eqn:E; [|exists y, mday; split; [reflexivity|]; lia].
  set (b := if 1 <? mon then 1 else 0). assert (0 <= b <= 1) by (subst b; case_match; lia). checked.
  rewrite increment_overflow32_ok by lia.
  pose proof (month_start_year_step y mon Hm) as S. fold b in S. pose proof (year_length_range (y + b)).
  destruct (IH (y + 1) (mday - year_length (y + b))) as (y' & d' & -> & ? & ? & ?); [lia..|].
  exists y', d'. split; [reflexivity|]. lia.
Qed.

Lemma mon_lengths_lookup y mon :
  0 <= mon < 12 -> (if 0 <=? mon then mon_lengths (isleap y) !! Z.to_nat mon else None) = Some (month_length y mon).
Proof. intros H. unfold month_length. month_cases mon; reflexivity. Qed.

Lemma mday_months_correct n : forall y mon mday,
  0 <= mon < 12 -> Z.abs y + Z.of_nat n <= 2 ^ 60 -> 1 <= mday <= 28 * Z.of_nat n ->
  exists y' mon' mday', mday_months n y mon mday = Ret (Some (y', mon', mday'))
    /\ day_number y' mon' mday' = day_number y mon mday /\ valid_date y' mon' mday' /\ y <= y' <= y + Z.of_nat n.
Proof.
  induction n as [|n IH]; intros y mon mday Hm Hy Hd; [lia|]. cbn [mday_months]. rewrite mon_lengths_lookup by lia.
  pose proof (month_length_range y mon Hm). pose proof (month_start_next y mon Hm) as S. unfold valid_date, day_number in *.
  destruct (mday <=? month_length y mon) eqn:E; [exists y, mon, mday; split; [reflexivity|]; lia|].
  destruct (mon + 1 >=? 12) eqn:E'.
  - rewrite increment_overflow32_ok by lia. replace (mon + 1) with 12 in S by lia. rewrite month_start_january in S.
    destruct (IH (y + 1) 0 (mday - month_length y mon)) as (y' & m' & d' & -> & ? & ? & ?); [lia..|].
    exists y', m', d'. split; [reflexivity|]. lia.
  - destruct (IH y (mon + 1) (mday - month_length y mon)) as (y' & m' & d' & -> & ? & ? & ?); [lia..|].
    exists y', m', d'. split; [reflexivity|]. lia.
Qed.

(** Fields that are far from overflowing anything. *)
Definition small (tm : bson_tm) : Prop :=
  Z.abs (tm_sec tm) <= 10 ^ 9 /\ Z.abs (tm_min tm) <= 10 ^ 9 /\ Z.abs (tm_hour tm) <= 10 ^ 9 /\ Z.abs (tm_mday tm) <= 10 ^ 9
  /\ Z.abs (tm_mon tm) <= 10 ^ 9 /\ Z.abs (tm_year tm) <= 10 ^ 9.

Lemma normalized_correct tm :
  small tm -> exists your, normalized tm false = Ret (Some your) /\ tm_sec your = tm_sec tm /\ tm_isdst your = tm_isdst tm
    /\ valid_date (tm_year your + TM_YEAR_BASE) (tm_mon your) (tm_mday your)
    /\ 0 <= tm_hour your < 24 /\ 0 <= tm_min your < 60 /\ seconds_of your = seconds_of tm.
Proof.
  intros (Hs & Hmi & Hh & Hd & Hmo & Hy). unfold normalized.
  rewrite normalize_overflow_ok by euclid. rewrite normalize_overflow_ok by euclid.
  rewrite normalize_overflow32_ok by lia. unfold TM_YEAR_BASE. rewrite increment_overflow32_ok by euclid.
  set (hour := tm_hour tm + tm_min tm / 60) in *. set (mday := tm_mday tm + hour / 24) in *.
  set (y := tm_year tm + tm_mon tm / 12 + 1900). set (mon := tm_mon tm mod 12).
  assert (0 <= mon < 12) as Hmon by (apply Z.mod_pos_bound; lia).
  assert (Z.abs mday <= 2000000000) as Hmd by (subst mday hour; euclid). assert (Z.abs y <= 2000000000) as Hyy by (subst y; euclid).
  unfold days_fuel, DAYSPERNYEAR.
  destruct (mday_up_correct mon (Z.to_nat (Z.abs mday / 365 + 2)) y mday) as (y1 & d1 & -> & E1 & R1 & Y1); [lia|euclid..|].
  rewrite bind_ret.
  destruct (mday_down_correct mon (Z.to_nat (Z.abs d1 / 365 + 2)) y1 d1) as (y2 & d2 & -> & E2 & R2 & Y2); [lia|euclid..|].
  rewrite bind_ret. destruct (mday_months_correct month_fuel y2 mon d2) as (y3 & m3 & d3 & -> & E3 & V3 & Y3);
    [lia|unfold month_fuel; euclid|unfold month_fuel; lia|].
  rewrite bind_ret, increment_overflow32_ok by (unfold month_fuel in *; euclid). eexists. split; [reflexivity|].
  unfold seconds_of, TM_YEAR_BASE. cbn [tm_sec tm_isdst tm_year tm_mon tm_mday tm_hour tm_min]. 
  replace (y3 + - (1900) + 1900) with y3 by lia. rewrite E3. unfold day_number in *. rewrite (month_start_norm (tm_year tm + 1900)).
  replace (tm_year tm + 1900 + tm_mon tm / 12) with y by lia. fold mon. 
  do 3 (split; [done|]). split; [euclid|]. split; [euclid|].
  replace (month_start y2 mon + d2) with (month_start y mon + mday) by lia. subst mday hour.
  generalize (month_start y mon). clear. intros m. euclid.
Qed.

Lemma month_start_bound y mon : 0 <= month_start y mon - days_before_year (y + mon / 12) <= 366.
Proof.
  rewrite month_start_norm. pose proof (Z.mod_pos_bound mon 12 ltac:(lia)).
  pose proof (month_start_year (y + mon / 12) (mon mod 12) ltac:(lia)). pose proof (days_before_year_step (y + mon / 12)).
  pose proof (year_length_range (y + mon / 12)). lia.
Qed.

Lemma seconds_of_small tm : small tm -> Z.abs (seconds_of tm) <= FAR - 2 * 10 ^ 9.
Proof.
  intros (Hs & Hmi & Hh & Hd & Hmo & Hy). unfold seconds_of, day_number, TM_YEAR_BASE, FAR.
  pose proof (month_start_bound (tm_year tm + 1900) (tm_mon tm)) as B. set (y := tm_year tm + 1900 + tm_mon tm / 12) in *.
  assert (Z.abs y <= 1100000000) by (subst y; euclid).
  pose proof (days_before_year_range y 1970). pose proof (days_before_year_range 1970 y). rewrite days_before_year_epoch in *.
  clearbody y. lia.
Qed.

(** Dates of four-digit years. *)
Lemma seconds_of_near tm :
  Z.abs (tm_year tm) <= 12000 /\ Z.abs (tm_mon tm) <= 12 /\ Z.abs (tm_mday tm) <= 31 /\ Z.abs (tm_hour tm) <= 60
  /\ Z.abs (tm_min tm) <= 60 /\ Z.abs (tm_sec tm) <= 60 -> Z.abs (seconds_of tm) <= 1000000000000.
Proof.
  intros (Hy & Hmo & Hd & Hh & Hmi & Hs). unfold seconds_of, day_number, TM_YEAR_BASE.
  pose proof (month_start_bound (tm_year tm + 1900) (tm_mon tm)) as B. set (y := tm_year tm + 1900 + tm_mon tm / 12) in *.
  assert (Z.abs y <= 15000) by (subst y; euclid).
  pose proof (days_before_year_range y 1970). pose proof (days_before_year_range 1970 y). rewrite days_before_year_epoch in *.
  clearbody y. lia.
Qed.

(** The seconds put aside come back. *)
Lemma save_seconds_correct tm :
  valid_date (tm_year tm + TM_YEAR_BASE) (tm_mon tm) (tm_mday tm) -> 0 <= tm_hour tm < 24 -> 0 <= tm_min tm < 60 ->
  Z.abs (tm_sec tm) <= 10 ^ 9 ->
  exists saved tm', save_seconds tm = Some (saved, tm') /\ valid_tm tm' /\ tm_isdst tm' = tm_isdst tm
    /\ seconds_of tm' + saved = seconds_of tm /\ Z.abs saved <= 2 * 10 ^ 9.
Proof.
  intros V H M S. unfold save_seconds, SECSPERMIN, TM_YEAR_BASE, EPOCH_YEAR in *.
  destruct ((tm_sec tm >=? 0) && (tm_sec tm <? 60)) eqn:E.
  { exists 0, tm. split; [reflexivity|]. unfold valid_tm. repeat split; try assumption; try apply V; lia. }
  destruct (tm_year tm + 1900 <? 1970).
  - pose proof (increment_overflow_spec (tm_sec tm) (1 - 60)) as I.
    destruct (increment_overflow (tm_sec tm) (1 - 60)) as [k|]; [|unfold INT_MIN, INT_MAX in I; lia].
    subst k. cbn [mbind option_bind]. do 2 eexists. split; [reflexivity|]. unfold valid_tm, seconds_of.
    cbn [tm_sec tm_isdst tm_year tm_mon tm_mday tm_hour tm_min]. repeat split; try apply V; lia.
  - do 2 eexists. split; [reflexivity|]. unfold valid_tm, seconds_of.
    cbn [tm_sec tm_isdst tm_year tm_mon tm_mday tm_hour tm_min]. repeat split; try apply V; lia.
Qed.

Lemma time2sub_correct sp tm :
  small tm -> tm_isdst tm = 0 ->
  exists tm', time2sub gmtsub 0 sp tm false = Ret (seconds_of tm, tm', true) /\ valid_tm tm' /\ seconds_of tm' = seconds_of tm.
Proof.
  intros Hs Hd. pose proof (seconds_of_small tm Hs) as HB. unfold time2sub. cbv zeta.
  destruct (normalized_correct tm Hs) as (your & -> & Es & Ed & V & Hh & Hm & E). rewrite bind_ret.
  destruct (save_seconds_correct your V Hh Hm) as (saved & your' & -> & V' & Ed' & E' & Hsv); [rewrite Es; apply Hs|].
  unfold FAR in HB. rewrite (bisect_correct sp your' (seconds_of your') 67); try reflexivity; try assumption; try congruence.
  - rewrite bind_ret. change (2 * 10 ^ 9) with 2000000000 in *. checked.
    replace (negb _) with false by (destruct (saved <? 0) eqn:?, (seconds_of your' + saved <? seconds_of your') eqn:?; cbn; lia).
    destruct (gmtsub_correct (seconds_of your' + saved)) as (r & -> & B); [unfold INT64_MIN, INT64_MAX; lia|]. rewrite bind_ret.
    destruct r as [o|tm']; cbn [broken_down] in B; [unfold FAR in B; lia|]. destruct B as (Vt & Et & _).
    exists tm'. rewrite E', E in *. repeat split; assumption || apply Vt.
  - unfold FAR. lia.
  - unfold INT64_MIN, INT64_MAX. lia.
  - vm_compute. discriminate.
  - unfold bisect_fuel. lia.
Qed.

Lemma timegm_seconds tm :
  small tm -> exists tm', _bson_timegm tm = Ret (seconds_of tm, tm') /\ valid_tm tm' /\ seconds_of tm' = seconds_of tm.
Proof.
  intros H. set (tm0 := set_isdst tm 0). destruct (time2sub_correct gmtload tm0) as (tm' & E & V & Es); [exact H|reflexivity|].
  exists tm'. split; [|split; [exact V|exact Es]]. unfold _bson_timegm, time1, time2. fold tm0.
  change (tm_isdst tm0 >? 1) with false. cbn iota. rewrite E, !bind_ret. reflexivity.
Qed.

(** C11: For any fields within 10^9 of zero, in their ranges or not (second 60 and month 13
    included), [_bson_timegm] ends, without overflow, with the seconds from the epoch to
    that date of the Gregorian calendar, and leaves the normalised fields of the same
    instant in [*tmp]. *)
Theorem timegm_correct tm :
  small tm -> exists tm', _bson_timegm tm = Ret (seconds_of tm, tm') /\ valid_tm tm' /\ seconds_of tm' = seconds_of tm.
Proof. apply timegm_seconds. Qed.

Lemma timegm_correct_witness :
  exists tm', _bson_timegm (mk_tm 60 59 23 29 13 123 0 0 7) = Ret (1709251200, tm') /\ valid_tm tm' /\ seconds_of tm' = 1709251200.
Proof. apply (timegm_correct (mk_tm 60 59 23 29 13 123 0 0 7)). repeat split; vm_compute; discriminate. Defined.
