(* ===== verification/Iso8601.v ===== *)
(** * Dates as text (bson-iso8601.c)

    The parser cuts the text into tokens at its separators and then reads the
    tokens; the formatter prints a date for relaxed JSON.  A [const char *] is an
    offset into the object [str].  [gmtime_r] is the calendar, whose fields
    [Dates.gmtsub] computes ([Timegm.gmtsub_correct] shows that there are no
    others); [strftime] and [printf] print as C specifies.  [isdigit] of a
    negative [char] is false, as in the GNU C library. *)
From S2P Require Import Prelude Strings Format Numbers Dates.
#[local] Open Scope Z_scope.

(** The messages of DATE_PARSE_ERR. *)
Inductive date_error :=
| Use_iso8601 | End_in_seconds | Seconds_required | End_in_milliseconds | Milliseconds_required
| Bad_year | Bad_month | Bad_day | Bad_hour | Bad_minute | Bad_seconds
| Bad_timezone | Bad_timezone_hour | Bad_timezone_minute | Bad_timezone_offset | Timezone_required
| Bad_milliseconds | Milliseconds_range.

(** ** Code that may stop with a message *)

Definition exc (A : Type) : Type := outcome (date_error + A).
#[export] Instance exc_ret : MRet exc := fun A a => Ret (inr a).
#[export] Instance exc_bind : MBind exc := fun A B f m =>
  match m with Ret (inr a) => f a | Ret (inl e) => Ret (inl e) | Abort => Abort | Oob => Oob | Fuel => Fuel end.
Definition raise {A} (e : date_error) : exc A := Ret (inl e).
Definition run {A} (m : outcome A) : exc A := inr <$> m.

(** ** Tokens *)

(** [strchr] over a non-empty list of terminals; with none the character is not read. *)
Definition is_terminal (terminals str : bytes) (ptr : Z) : outcome bool :=
  match terminals with [] => Ret false | _ => c ← rd str ptr; Ret (existsb (Z.eqb c) terminals) end.

Fixpoint tok_loop (fuel : nat) (terminals str : bytes) (ptr remaining out_len : Z) (found_terminal : bool)
    : outcome (bool * Z * Z * Z) :=
  match fuel with
  | O => Fuel
  | S fuel =>
      if negb (remaining =? 0) && negb found_terminal then
        found ← is_terminal terminals str ptr;
        tok_loop fuel terminals str (ptr + 1) (remaining - 1) (out_len + 1) found
      else Ret (found_terminal, ptr, remaining, out_len)
  end.

(** The token begins at [ptr]; the result is whether its terminal was found, the new
    [*ptr] and [*remaining], and [*out_len]. *)
Definition get_tok (terminals str : bytes) (ptr remaining : Z) : outcome (bool * Z * Z * Z) :=
  r ← tok_loop (S (Z.to_nat remaining + length str)) terminals str ptr remaining (-1) false;
  match r with
  | (found_terminal, ptr, remaining, out_len) =>
      Ret (found_terminal, ptr, remaining, if (found_terminal : bool) then out_len else out_len + 1)
  end.

Fixpoint digits_from (n : nat) (str : bytes) (p : Z) : outcome bool :=
  match n with
  | O => Ret true
  | S n => c ← rd str p; if isdigit c then digits_from n str (p + 1) else Ret false
  end.
Definition digits_only (str : bytes) (p len : Z) : outcome bool := digits_from (Z.to_nat len) str p.

Definition i32 (z : Z) : outcome Z := if (INT_MIN <=? z) && (z <=? INT32_MAX) then Ret z else Oob.

(** The digits from the last one, [n] of them left. *)
Fixpoint num_loop (n : nat) (str : bytes) (p magnitude value : Z) : outcome Z :=
  match n with
  | O => Ret value
  | S n =>
      c ← rd str (p + Z.of_nat n);
      d ← i32 ((c - 48) * magnitude);
      value ← i32 (value + d);
      magnitude ← i32 (magnitude * 10);
      num_loop n str p magnitude value
  end.

Definition parse_num (str : bytes) (p len digits min max : Z) : outcome (option Z) :=
  if (digits >=? 0) && negb (len =? digits) then Ret None
  else
    ok ← digits_only str p len;
    if negb ok then Ret None
    else
      value ← num_loop (Z.to_nat len) str p 1 0;
      if (value <? min) || (value >? max) then Ret None else Ret (Some value).

(** ** The parser *)

Record tokens := mk_tokens {
  year_ptr : Z; year_len : Z; month_ptr : Z; month_len : Z; day_ptr : Z; day_len : Z; hour_ptr : Z; hour_len : Z;
  min_ptr : Z; min_len : Z; sec_ptr : Z; sec_len : Z; millis_ptr : Z; millis_len : Z; tz_ptr : Z; tz_len : Z;
}.

(** A token that must be there. *)
Definition need_tok (terminals str : bytes) (ptr remaining : Z) : exc (Z * Z * Z) :=
  r ← run (get_tok terminals str ptr remaining);
  match r with
  | (found, ptr, remaining, out_len) => if (found : bool) then mret (ptr, remaining, out_len) else raise Use_iso8601
  end.

(** A token after a separator: [None] is a missing one. *)
Definition optional_tok (present : bool) (terminals str : bytes) (ptr remaining : Z) (at_end empty : date_error)
    : exc (Z * Z * Z) :=
  if present then
    if remaining <? 2 then raise at_end
    else
      r ← run (get_tok terminals str ptr remaining);
      match r with
      | (_, ptr, remaining, out_len) => if out_len =? 0 then raise empty else mret (ptr, remaining, out_len)
      end
  else mret (ptr, remaining, 0).

Definition DASH : Z := 45.
Definition COLON : Z := 58.
Definition PLUS : Z := 43.
Definition DOT : Z := 46.
Definition LETTER_T : Z := 84.
Definition LETTER_Z : Z := 90.

Definition date_tokens (str : bytes) (len : Z) : exc tokens :=
  y ← need_tok [DASH] str 0 len;
  match y with (ptr1, rem, year_len) =>
  mo ← need_tok [DASH] str ptr1 rem;
  match mo with (ptr2, rem, month_len) =>
  d ← need_tok [LETTER_T] str ptr2 rem;
  match d with (ptr3, rem, day_len) =>
  h ← need_tok [COLON] str ptr3 rem;
  match h with (ptr4, rem, hour_len) =>
  mi ← need_tok [COLON; PLUS; DASH; LETTER_Z] str ptr4 rem;
  match mi with (ptr5, rem, min_len) =>
  after_min ← run (rd str (ptr4 + min_len));
  s ← optional_tok (after_min =? COLON) [DOT; PLUS; DASH; LETTER_Z] str ptr5 rem End_in_seconds Seconds_required;
  match s with (ptr6, rem, sec_len) =>
  after_sec ← run (if sec_len =? 0 then Ret 0 else rd str (ptr5 + sec_len));
  ms ← optional_tok (after_sec =? DOT) [PLUS; DASH; LETTER_Z] str ptr6 rem End_in_milliseconds Milliseconds_required;
  match ms with (ptr7, rem, millis_len) =>
  tz ← run (get_tok [] str (ptr7 - 1) (rem + 1));
  match tz with (_, _, _, tz_len) =>
  mret (mk_tokens 0 year_len ptr1 month_len ptr2 day_len ptr3 hour_len ptr4 min_len ptr5 sec_len ptr6 millis_len
          (ptr7 - 1) tz_len)
  end end end end end end end end.

Definition need_num (str : bytes) (p len digits min max : Z) (e : date_error) : exc Z :=
  r ← run (parse_num str p len digits min max);
  match r with Some v => mret v | None => raise e end.

(** The fields as in [struct tm]. *)
Definition date_fields (str : bytes) (t : tokens) : exc bson_tm :=
  year ← need_num str (year_ptr t) (year_len t) 4 (-9999) 9999 Bad_year;
  month ← need_num str (month_ptr t) (month_len t) 2 1 12 Bad_month;
  day ← need_num str (day_ptr t) (day_len t) 2 1 31 Bad_day;
  hour ← need_num str (hour_ptr t) (hour_len t) 2 0 23 Bad_hour;
  min ← need_num str (min_ptr t) (min_len t) 2 0 59 Bad_minute;
  sec ← (if sec_len t =? 0 then mret 0 else need_num str (sec_ptr t) (sec_len t) 2 0 60 Bad_seconds : exc Z);
  mret (mk_tm sec min hour day (month - 1) (year - 1900) 0 0 0).

(** The offset of the time zone, in seconds to add. *)
Definition date_zone (str : bytes) (t : tokens) : exc Z :=
  if tz_len t >? 0 then
    c ← run (rd str (tz_ptr t));
    if (c =? LETTER_Z) && (tz_len t =? 1) then mret 0
    else if (c =? PLUS) || (c =? DASH) then
      if negb (tz_len t =? 5) then raise Bad_timezone
      else
        ok ← run (digits_only str (tz_ptr t + 1) 4);
        if negb ok then raise Bad_timezone
        else
          tz_hour ← need_num str (tz_ptr t + 1) 2 (-1) (-23) 23 Bad_timezone_hour;
          tz_min ← need_num str (tz_ptr t + 3) 2 (-1) 0 59 Bad_timezone_minute;
          let tz_adjustment := (if c =? DASH then 1 else -1) * (tz_min * 60 + tz_hour * 60 * 60) in
          if negb ((tz_adjustment >? -86400) && (tz_adjustment <? 86400)) then raise Bad_timezone_offset
          else mret tz_adjustment
    else raise Timezone_required
  else mret 0.

Definition date_millis (str : bytes) (t : tokens) : exc Z :=
  if millis_len t >? 0 then
    if millis_len t >? 3 then raise Bad_milliseconds
    else
      ok ← run (digits_only str (millis_ptr t) (millis_len t));
      if negb ok then raise Bad_milliseconds
      else
        millis ← run (num_loop (Z.to_nat (millis_len t)) str (millis_ptr t) 1 0);
        let millis := if millis_len t =? 1 then millis * 100 else if millis_len t =? 2 then millis * 10 else millis in
        if (millis <? 0) || (millis >? 1000) then raise Milliseconds_range else mret millis
  else mret 0.

Definition date_parse (str : bytes) (len : Z) : exc Z :=
  t ← date_tokens str len;
  posix_date ← date_fields str t;
  tz_adjustment ← date_zone str t;
  millis ← date_millis str t;
  r ← run (_bson_timegm posix_date);
  s ← run (i64 (1000 * fst r));
  s ← run (i64 (s + millis));
  s ← run (i64 (s + tz_adjustment * 1000));
  mret s.

(** The message prints [str] with %s, when there is an [error] to hold it. *)
Definition _bson_iso8601_date_parse (str : bytes) (len : Z) (error : bool) : exc Z :=
  r ← (date_parse str len : outcome (date_error + Z));
  match r with
  | inl e => if error then _ ← strlen str; Ret (inl e) else Ret (inl e)
  | inr v => Ret (inr v)
  end.

(** ** The formatter *)

Definition pad_left (c : Z) (width : nat) (s : bytes) : bytes := replicate (width - length s) c ++ s.
Definition two (n : Z) : bytes := pad_left 48 2 (fmt_d n).

(** [strftime] with "%Y-%m-%dT%H:%M:%S". *)
Definition strftime (tm : bson_tm) : bytes :=
  fmt_d (tm_year tm + 1900) ++ [DASH] ++ two (tm_mon tm + 1) ++ [DASH] ++ two (tm_mday tm) ++ [LETTER_T]
  ++ two (tm_hour tm) ++ [COLON] ++ two (tm_min tm) ++ [COLON] ++ two (tm_sec tm).

(** With the buffer of 64 bytes: the undefined contents of one that is too small are [Oob],
    as are those of [posix_date] when [gmtime_r] fails. *)
Definition _bson_iso8601_date_format (msec_since_epoch : Z) (str : bson_string_t) : outcome bson_string_t :=
  let msecs_part := Z.rem msec_since_epoch 1000 in
  let t := Z.quot msec_since_epoch 1000 in
  r ← gmtsub t 0;
  match r with
  | inl _ => Oob
  | inr posix_date =>
      let buf := strftime posix_date in
      if zlen buf >=? 64 then Oob
      else if negb (msecs_part =? 0) then
        bson_string_append_printf str (buf ++ [DOT] ++ pad_left 32 3 (fmt_d msecs_part) ++ [LETTER_Z])
      else str ← bson_string_append str (buf ++ [0]); bson_string_append_c str LETTER_Z
  end.
