(* ===== verification/DateText.v ===== *)
(** * Dates as text: safety and round trip

    [_bson_iso8601_date_parse] stays inside any text that ends in a NUL, and reads
    back what [_bson_iso8601_date_format] prints, except for 1 to 99 milliseconds,
    which are printed with spaces. *)
From S2P Require Import Prelude Strings Format Numbers Dates Calendar Timegm Iso8601.
#[local] Open Scope Z_scope.

(** ** Offsets *)

(** [l] is what the object holds from offset [p] on. *)
Definition off_at (str : bytes) (p : Z) (l : bytes) : Prop := 0 <= p /\ drop (Z.to_nat p) str = l.

Lemma off_at_start str : off_at str 0 str.
Proof. split; [lia|reflexivity]. Qed.

Lemma off_at_app str p a b : off_at str p (a ++ b) -> off_at str (p + zlen a) b.
Proof.
  intros [Hp E]. pose proof (zlen_nonneg a). split; [lia|].
  replace (Z.to_nat (p + zlen a)) with (Z.to_nat p + length a)%nat by zl.
  rewrite <- drop_drop, E, drop_app_length. reflexivity.
Qed.

Lemma off_at_cons str p c b : off_at str p (c :: b) -> off_at str (p + 1) b.
Proof. apply (off_at_app str p [c] b). Qed.

Lemma off_at_rd str p c b : off_at str p (c :: b) -> rd str p = Ret c.
Proof.
  intros [Hp E]. unfold rd. replace (p <? 0) with false by lia.
  assert (str !! Z.to_nat p = Some c) as ->; [|reflexivity].
  rewrite <- (Nat.add_0_r (Z.to_nat p)), <- lookup_drop, E. reflexivity.
Qed.

Lemma off_at_rd_app str p a c b : off_at str p (a ++ c :: b) -> rd str (p + zlen a) = Ret c.
Proof. intros H. eapply off_at_rd, off_at_app, H. Qed.

(** ** Tokens *)

Fixpoint scan (terminals l : bytes) : option nat :=
  match l with [] => None | c :: l => if existsb (Z.eqb c) terminals then Some O else S <$> scan terminals l end.

(** Results of [get_tok] that are equal by arithmetic. *)
Lemma quad_eq (b : bool) (x x' y y' z z' : Z) : x = x' -> y = y' -> z = z' -> Ret (b, x, y, z) = Ret (b, x', y', z').
Proof. intros -> -> ->. reflexivity. Qed.
Ltac quad := apply quad_eq; lia.

Lemma tok_loop_scan terminals str post l : forall fuel p n,
  off_at str p (l ++ post) -> (length l < fuel)%nat ->
  tok_loop fuel terminals str p (zlen l) n false =
  Ret match scan terminals l with
      | Some k => (true, p + Z.of_nat k + 1, zlen l - Z.of_nat k - 1, n + Z.of_nat k + 1)
      | None => (false, p + zlen l, 0, n + zlen l)
      end.
Proof.
  induction l as [|c l IH]; intros fuel p n H Hf; (destruct fuel as [|fuel]; [cbn in Hf; lia|]); cbn [tok_loop scan].
  - rewrite zlen_nil. cbn [Z.eqb negb andb]. quad.
  - assert (is_terminal terminals str p = Ret (existsb (Z.eqb c) terminals)) as ->
      by (unfold is_terminal; destruct terminals; [reflexivity|]; erewrite off_at_rd by exact H; reflexivity).
    pose proof (zlen_nonneg l). rewrite zlen_cons. replace (1 + zlen l =? 0) with false by lia. cbn [negb andb]. rewrite bind_ret.
    destruct (existsb (Z.eqb c) terminals).
    + destruct fuel as [|fuel]; [cbn in Hf; lia|]. cbn [tok_loop]. rewrite andb_false_r. quad.
    + replace (1 + zlen l - 1) with (zlen l) by lia. rewrite IH; [|eapply off_at_cons; exact H|cbn in Hf; lia].
      destruct (scan terminals l); cbn [fmap option_fmap option_map]; quad.
Qed.

Lemma get_tok_scan terminals str post l p :
  off_at str p (l ++ post) ->
  get_tok terminals str p (zlen l) =
  Ret match scan terminals l with
      | Some k => (true, p + Z.of_nat k + 1, zlen l - Z.of_nat k - 1, Z.of_nat k)
      | None => (false, p + zlen l, 0, zlen l)
      end.
Proof.
  intros H. unfold get_tok. rewrite (tok_loop_scan terminals str post l) by (assumption || zl). rewrite bind_ret.
  destruct (scan terminals l); quad.
Qed.

Lemma scan_Some terminals l k :
  scan terminals l = Some k -> exists tok c l', l = tok ++ c :: l' /\ k = length tok /\ existsb (Z.eqb c) terminals = true.
Proof.
  revert k. induction l as [|c l IH]; intros k; cbn [scan]; [discriminate|].
  destruct (existsb (Z.eqb c) terminals) eqn:E; [intros [= <-]; exists [], c, l; auto|].
  destruct (scan terminals l) as [j|]; [|discriminate]. intros [= <-].
  destruct (IH j eq_refl) as (tok & d & l' & -> & -> & Hd). exists (c :: tok), d, l'. auto.
Qed.

Lemma scan_hit terminals tok c l :
  Forall (fun b => existsb (Z.eqb b) terminals = false) tok -> existsb (Z.eqb c) terminals = true ->
  scan terminals (tok ++ c :: l) = Some (length tok).
Proof. intros Ht Hc. induction Ht as [|b tok Hb Ht IH]; cbn; [rewrite Hc; reflexivity|rewrite Hb, IH; reflexivity]. Qed.

Lemma scan_none l : scan [] l = None.
Proof. induction l as [|c l IH]; cbn; [reflexivity|rewrite IH; reflexivity]. Qed.

Lemma digits_not_terminal terminals ds :
  forallb (fun t => negb (isdigit t)) terminals = true -> Forall digit ds -> Forall (fun b => existsb (Z.eqb b) terminals = false) ds.
Proof.
  intros Ht Hd. eapply Forall_impl; [exact Hd|]. intros b Hb. apply isdigit_spec in Hb.
  induction terminals as [|t ts IH]; [reflexivity|]. cbn in *. apply andb_true_iff in Ht as [H1 H2]. rewrite (IH H2).
  destruct (b =? t) eqn:E; [|reflexivity]. apply Z.eqb_eq in E. subst. rewrite Hb in H1. discriminate.
Qed.

(** ** Numbers *)

Lemma digits_from_safe str post l p : off_at str p (l ++ post) -> digits_from (length l) str p = Ret (forallb isdigit l).
Proof.
  revert p. induction l as [|c l IH]; intros p H; cbn [length digits_from forallb]; [reflexivity|].
  erewrite off_at_rd by exact H. rewrite bind_ret. destruct (isdigit c); [|reflexivity].
  apply IH. eapply off_at_cons, H.
Qed.

Lemma i32_ret z : INT_MIN <= z <= INT32_MAX -> i32 z = Ret z.
Proof. intros H. unfold i32. case_match; [reflexivity|lia]. Qed.

Lemma num_loop_dval str p post l : forall m v,
  off_at str p (l ++ post) -> Forall digit l -> 0 < m -> 0 <= v < m -> m * 10 ^ zlen l <= 10 ^ 6 ->
  num_loop (length l) str p m v = Ret (v + m * dval l).
Proof.
  revert post. induction l as [|c l IH] using rev_ind; intros post m v H Hd Hm Hv Hb; [cbn; repeat f_equal; lia|].
  apply Forall_app in Hd as [Hl Hc]. inversion_clear Hc as [|? ? Hc' _]. unfold digit in Hc'.
  rewrite length_app, Nat.add_comm. cbn [length Nat.add num_loop]. rewrite <- app_assoc in H. cbn [app] in H.
  change (Z.of_nat (length l)) with (zlen l). erewrite off_at_rd_app by exact H. rewrite bind_ret.
  pose proof (zlen_nonneg l). rewrite zlen_app in Hb. change (zlen [c]) with 1 in Hb. rewrite Z.pow_add_r in Hb by lia.
  assert (1 <= 10 ^ zlen l) by (apply (Z.pow_le_mono_r 10 0); lia). change (10 ^ 6) with 1000000 in Hb.
  repeat (rewrite i32_ret by (unfold INT_MIN, INT32_MAX; nia); rewrite ?bind_ret).
  rewrite (IH (c :: post)) by (assumption || (change (10 ^ 6) with 1000000; nia)). unfold dval. rewrite dval_from_app. cbn [dval_from fold_left].
  fold (dval_from 0 l). f_equal. lia.
Qed.

(** ** Safety *)

(** [m] ends, with a message or with a result in [P]. *)
Definition safe {A} (m : exc A) (P : A -> Prop) : Prop :=
  match m with Ret (inr a) => P a | Ret (inl _) => True | _ => False end.

Lemma safe_bind {A B} (m : exc A) (f : A -> exc B) P Q : safe m P -> (forall a, P a -> safe (f a) Q) -> safe (m ≫= f) Q.
Proof. destruct m as [[e|a]| | |]; cbn; auto. Qed.

Lemma safe_run {A} (m : outcome A) a (P : A -> Prop) : m = Ret a -> P a -> safe (run m) P.
Proof. intros -> H. exact H. Qed.

Lemma safe_is {A} (m : outcome A) a : m = Ret a -> safe (run m) (fun b => b = a).
Proof. intros ->. reflexivity. Qed.

(** [n] bytes from [p] on are inside the object. *)
Definition inside (str : bytes) (p n : Z) : Prop := 0 <= p /\ 0 <= n /\ p + n <= zlen str.

Lemma inside_split str p n : inside str p n -> exists l post, off_at str p (l ++ post) /\ zlen l = n.
Proof.
  intros (Hp & Hn & H). exists (take (Z.to_nat n) (drop (Z.to_nat p) str)), (drop (Z.to_nat n) (drop (Z.to_nat p) str)).
  split; [split; [lia|rewrite take_drop; reflexivity]|]. rewrite zlen_take, zlen_drop. lia.
Qed.

Lemma inside_rd str p n : inside str p n -> 0 < n -> returns (rd str p).
Proof. intros (Hp & Hn & H) H0. apply rd_ret. lia. Qed.

(** What is left of the token from [p], of [n] bytes: the new position and rest, and its length. *)
Definition token_of (str : bytes) (p n : Z) (r : bool * Z * Z * Z) : Prop :=
  match r with
  | (found, p', n', len) =>
      0 <= n' /\ p' + n' = p + n /\ 0 <= len /\ p' = p + len + (if (found : bool) then 1 else 0) /\ (found = false -> n' = 0)
  end.

Lemma get_tok_safe terminals str p n : inside str p n -> exists r, get_tok terminals str p n = Ret r /\ token_of str p n r.
Proof.
  intros H. destruct (inside_split _ _ _ H) as (l & post & Hl & <-). rewrite (get_tok_scan terminals str post l p Hl).
  eexists. split; [reflexivity|]. destruct (scan terminals l) as [k|] eqn:E; cbn.
  - apply scan_Some in E as (tok & c & l' & -> & -> & _). pose proof (zlen_nonneg l'). autorewrite with zlen. unfold zlen. lia.
  - pose proof (zlen_nonneg l). lia.
Qed.

Lemma need_tok_safe terminals str p n :
  inside str p n -> safe (need_tok terminals str p n) (fun r => match r with (p', n', len) => token_of str p n (true, p', n', len) end).
Proof.
  intros H. destruct (get_tok_safe terminals str p n H) as ([[[f p'] n'] len] & E & T). unfold need_tok.
  eapply safe_bind; [eapply safe_run; [exact E|exact T]|]. intros [[[f1 p1] n1] l1] T1. destruct f1; [exact T1|exact I].
Qed.

Lemma optional_tok_safe present terminals str p n e1 e2 :
  inside str p n ->
  safe (optional_tok present terminals str p n e1 e2)
    (fun r => match r with (p', n', len) => 0 <= len /\ 0 <= n' /\ p' + n' = p + n /\ p + len <= p' /\ (len = 0 -> p' = p) /\ p <= p' end).
Proof.
  intros H. unfold optional_tok. destruct present; [|cbn; destruct H; lia]. destruct (n <? 2); [exact I|].
  destruct (get_tok_safe terminals str p n H) as (r & E & T).
  eapply safe_bind; [eapply safe_run; [exact E|exact T]|]. intros [[[f1 p1] n1] l1] T1. cbn in T1.
  destruct (l1 =? 0) eqn:E0; [exact I|]. cbn. destruct f1; lia.
Qed.

Definition tokens_ok (str : bytes) (t : tokens) : Prop :=
  inside str (year_ptr t) (year_len t) /\ inside str (month_ptr t) (month_len t) /\ inside str (day_ptr t) (day_len t)
  /\ inside str (hour_ptr t) (hour_len t) /\ inside str (min_ptr t) (min_len t) /\ inside str (sec_ptr t) (sec_len t)
  /\ inside str (millis_ptr t) (millis_len t) /\ inside str (tz_ptr t) (tz_len t).

(** One byte after the text can be read: that after seconds without a terminal. *)
Lemma date_tokens_safe str len : 0 <= len < zlen str -> safe (date_tokens str len) (tokens_ok str).
Proof.
  intros H. unfold date_tokens.
  eapply safe_bind; [apply need_tok_safe; unfold inside; lia|]. intros [[p1 r1] yl] T1. cbn in T1.
  eapply safe_bind; [apply need_tok_safe; unfold inside; lia|]. intros [[p2 r2] mol] T2. cbn in T2.
  eapply safe_bind; [apply need_tok_safe; unfold inside; lia|]. intros [[p3 r3] dl] T3. cbn in T3.
  eapply safe_bind; [apply need_tok_safe; unfold inside; lia|]. intros [[p4 r4] hl] T4. cbn in T4.
  eapply safe_bind; [apply need_tok_safe; unfold inside; lia|]. intros [[p5 r5] mil] T5. cbn in T5.
  destruct (rd_ret str (p4 + mil)) as [c Ec]; [lia|]. eapply safe_bind; [eapply (safe_run _ c (fun _ => True)); [exact Ec|exact I]|].
  intros am _. eapply safe_bind; [apply optional_tok_safe; unfold inside; lia|]. intros [[p6 r6] sl] T6. cbn in T6.
  assert (returns (if sl =? 0 then Ret 0 else rd str (p5 + sl))) as [d Ed] by (case_match; [by eexists|apply rd_ret; lia]).
  eapply safe_bind; [eapply (safe_run _ d (fun _ => True)); [exact Ed|exact I]|].
  intros asec _. eapply safe_bind; [apply optional_tok_safe; unfold inside; lia|]. intros [[p7 r7] msl] T7. cbn in T7.
  destruct (get_tok_safe [] str (p7 - 1) (r7 + 1)) as (r & Er & Tr); [unfold inside; lia|].
  eapply safe_bind; [eapply safe_run; [exact Er|exact Tr]|]. intros [[[f q] rr] tl] Tz. cbn in Tz.
  unfold tokens_ok, inside. cbn. destruct f; lia.
Qed.

Lemma forallb_digits l : forallb isdigit l = true -> Forall digit l.
Proof. rewrite forallb_forall, Forall_forall. intros H c Hc. apply isdigit_spec, H, list_elem_of_In, Hc. Qed.

Lemma digits_only_inside str p n : inside str p n -> returns (digits_only str p n).
Proof.
  intros H. destruct (inside_split _ _ _ H) as (l & post & Hl & <-). unfold digits_only.
  replace (Z.to_nat (zlen l)) with (length l) by zl. eexists. eapply digits_from_safe, Hl.
Qed.

(** The value of a token of digits. *)
Lemma parse_num_at str post l p digits min max :
  off_at str p (l ++ post) -> zlen l <= 6 -> (0 <= digits -> zlen l = digits) ->
  parse_num str p (zlen l) digits min max =
  Ret (if forallb isdigit l && negb ((dval l <? min) || (dval l >? max)) then Some (dval l) else None).
Proof.
  intros H Hl Hd. unfold parse_num. replace ((digits >=? 0) && negb (zlen l =? digits)) with false by lia.
  unfold digits_only. replace (Z.to_nat (zlen l)) with (length l) by zl. rewrite (digits_from_safe str post l p H), bind_ret.
  destruct (forallb isdigit l) eqn:E; [|reflexivity]. cbn [negb]. apply forallb_digits in E.
  assert (10 ^ zlen l <= 10 ^ 6) by (apply Z.pow_le_mono_r; lia).
  rewrite (num_loop_dval str p post l 1 0) by (assumption || lia). rewrite bind_ret. replace (0 + 1 * dval l) with (dval l) by lia.
  cbn [andb]. destruct ((dval l <? min) || (dval l >? max)); reflexivity.
Qed.

Lemma need_num_safe str p n digits min max e :
  inside str p n -> (0 <= digits <= 6 \/ n <= 6) -> safe (need_num str p n digits min max e) (fun v => min <= v <= max).
Proof.
  intros H Hd. destruct (inside_split _ _ _ H) as (l & post & Hl & <-). unfold need_num.
  destruct (decide (0 <= digits /\ zlen l <> digits)) as [[H0 H1]|Hn].
  - eapply safe_bind; [eapply (safe_run _ None (fun v => v = None)); [|reflexivity]|intros ? ->; exact I].
    unfold parse_num. replace ((digits >=? 0) && negb (zlen l =? digits)) with true by lia. reflexivity.
  - eapply safe_bind; [apply safe_is, (parse_num_at str post l p); [exact Hl|lia|lia]|].
    intros ? ->. destruct (forallb isdigit l); [|exact I].
    destruct ((dval l <? min) || (dval l >? max)) eqn:E; [exact I|]. cbn. lia.
Qed.

Lemma date_fields_safe str t : tokens_ok str t -> safe (date_fields str t) (fun tm => small tm /\ Z.abs (seconds_of tm) <= 1000000000000).
Proof.
  intros (Hy & Hmo & Hd & Hh & Hmi & Hs & _). unfold date_fields.
  eapply safe_bind; [apply need_num_safe; [exact Hy|lia]|]. intros y Vy.
  eapply safe_bind; [apply need_num_safe; [exact Hmo|lia]|]. intros mo Vmo.
  eapply safe_bind; [apply need_num_safe; [exact Hd|lia]|]. intros d Vd.
  eapply safe_bind; [apply need_num_safe; [exact Hh|lia]|]. intros h Vh.
  eapply safe_bind; [apply need_num_safe; [exact Hmi|lia]|]. intros mi Vmi.
  eapply safe_bind with (P := fun s => 0 <= s <= 60).
  { case_match; [cbn; lia|]. apply need_num_safe; [exact Hs|lia]. }
  intros s Vs. cbn beta in *. cbn [safe mret exc_ret]. split; [|apply seconds_of_near]; unfold small;
    cbn [tm_sec tm_min tm_hour tm_mday tm_mon tm_year]; lia.
Qed.

Lemma date_zone_safe str t : tokens_ok str t -> safe (date_zone str t) (fun z => Z.abs z < 86400).
Proof.
  intros (_ & _ & _ & _ & _ & _ & _ & Hz). unfold date_zone. destruct (tz_len t >? 0) eqn:E0; [|cbn; lia].
  destruct (inside_rd _ _ _ Hz) as [c Ec]; [lia|]. eapply safe_bind; [eapply (safe_run _ c (fun _ => True)); [exact Ec|exact I]|].
  intros c' _. destruct ((c' =? LETTER_Z) && (tz_len t =? 1)); [cbn; lia|].
  destruct ((c' =? PLUS) || (c' =? DASH)); [|exact I]. destruct (negb (tz_len t =? 5)) eqn:E5; [exact I|].
  unfold inside in Hz. destruct (digits_only_inside str (tz_ptr t + 1) 4) as [b Eb]; [unfold inside; lia|].
  eapply safe_bind; [eapply (safe_run _ b (fun _ => True)); [exact Eb|exact I]|]. intros b' _. destruct b'; [|exact I]. cbn [negb].
  eapply safe_bind; [apply need_num_safe; unfold inside; lia|]. intros th Vh.
  eapply safe_bind; [apply need_num_safe; unfold inside; lia|]. intros tmi Vm. cbv zeta. cbn beta in *.
  set (adj := _ * (tmi * 60 + _)). destruct (negb ((adj >? -86400) && (adj <? 86400))) eqn:En; [exact I|].
  cbn [safe mret exc_ret]. lia.
Qed.

Lemma date_millis_safe str t : tokens_ok str t -> safe (date_millis str t) (fun z => 0 <= z <= 1000).
Proof.
  intros (_ & _ & _ & _ & _ & _ & Hm & _). unfold date_millis. destruct (millis_len t >? 0) eqn:E0; [|cbn; lia].
  destruct (millis_len t >? 3) eqn:E3; [exact I|]. destruct (inside_split _ _ _ Hm) as (l & post & Hl & El). rewrite <- El.
  unfold digits_only. replace (Z.to_nat (zlen l)) with (length l) by zl.
  eapply safe_bind; [eapply safe_is, digits_from_safe, Hl|]. intros b Eb.
  destruct b; [|exact I]. cbn [negb]. assert (10 ^ zlen l <= 10 ^ 6) by (apply Z.pow_le_mono_r; lia).
  eapply safe_bind; [eapply (safe_run _ _ (fun _ => True)); [|exact I]|].
  { apply (num_loop_dval str (millis_ptr t) post l 1 0); [exact Hl|apply forallb_digits; congruence|lia..]. }
  intros v _. cbv zeta. case_match; [exact I|]. cbn. lia.
Qed.

Lemma strlen_nul l post : returns (strlen (l ++ 0 :: post)).
Proof.
  induction l as [|b l [n IH]]; cbn; [by eexists|]. destruct (b =? 0); [by eexists|]. rewrite IH. by eexists.
Qed.

(** C32: On any bytes followed by a NUL the date parser ends, with a message or with a time,
    without reading outside the text and its NUL and without overflow. *)
Theorem date_parse_safe text post error :
  exists r, _bson_iso8601_date_parse (text ++ 0 :: post) (zlen text) error = Ret r.
Proof.
  set (str := text ++ 0 :: post). assert (safe (date_parse str (zlen text)) (fun _ => True)) as S.
  { unfold date_parse. eapply safe_bind.
    { apply date_tokens_safe. pose proof (zlen_nonneg text). pose proof (zlen_nonneg post). subst str. autorewrite with zlen. lia. }
    intros t T. eapply safe_bind; [apply date_fields_safe, T|]. intros tm [Htm Ht].
    eapply safe_bind; [apply date_zone_safe, T|]. intros z Hz. eapply safe_bind; [apply date_millis_safe, T|]. intros ms Hms.
    destruct (timegm_seconds tm Htm) as (tm' & Et & _). eapply safe_bind; [eapply safe_is, Et|].
    intros ? ->. cbn beta in *. cbn [fst].
    do 3 (eapply safe_bind; [apply safe_is, i64_ret; unfold INT64_MIN, INT64_MAX; lia|]; intros ? ->).
    exact I. }
  unfold _bson_iso8601_date_parse. destruct (date_parse str (zlen text)) as [[e|v]| | |]; try destruct S; rewrite bind_ret; [|by eexists].
  destruct error; [|by eexists]. destruct (strlen_nul text post) as [n E]. fold str in E. rewrite E. by eexists.
Qed.

(** ** What well-formed text is read as *)

(** The token at [p], of length [n], is [l]. *)
Definition tok_at (str : bytes) (p n : Z) (l : bytes) : Prop := n = zlen l /\ exists post, off_at str p (l ++ post).

Lemma get_tok_hit terminals str post p tok c l :
  off_at str p ((tok ++ c :: l) ++ post) ->
  Forall (fun b => existsb (Z.eqb b) terminals = false) tok -> existsb (Z.eqb c) terminals = true ->
  get_tok terminals str p (zlen (tok ++ c :: l)) = Ret (true, p + zlen tok + 1, zlen l, zlen tok)
  /\ tok_at str p (zlen tok) tok /\ rd str (p + zlen tok) = Ret c /\ off_at str (p + zlen tok + 1) (l ++ post).
Proof.
  intros H Ht Hc. assert (off_at str p (tok ++ c :: l ++ post)) as H' by (rewrite <- app_assoc in H; exact H).
  split; [|split; [|split]].
  - rewrite (get_tok_scan terminals str post) by exact H. rewrite (scan_hit terminals tok c l Ht Hc).
    apply quad_eq; [zl|autorewrite with zlen; unfold zlen; lia|zl].
  - split; [reflexivity|]. eexists. exact H'.
  - eapply off_at_rd_app, H'.
  - eapply off_at_cons, off_at_app, H'.
Qed.

Lemma need_tok_hit terminals str post p tok c l :
  off_at str p ((tok ++ c :: l) ++ post) ->
  Forall (fun b => existsb (Z.eqb b) terminals = false) tok -> existsb (Z.eqb c) terminals = true ->
  need_tok terminals str p (zlen (tok ++ c :: l)) = Ret (inr (p + zlen tok + 1, zlen l, zlen tok)).
Proof. intros H Ht Hc. unfold need_tok. rewrite (proj1 (get_tok_hit terminals str post p tok c l H Ht Hc)). reflexivity. Qed.

Lemma optional_tok_hit terminals str post p tok c l e1 e2 :
  off_at str p ((tok ++ c :: l) ++ post) -> tok <> [] ->
  Forall (fun b => existsb (Z.eqb b) terminals = false) tok -> existsb (Z.eqb c) terminals = true ->
  optional_tok true terminals str p (zlen (tok ++ c :: l)) e1 e2 = Ret (inr (p + zlen tok + 1, zlen l, zlen tok)).
Proof.
  intros H Hn Ht Hc. unfold optional_tok. rewrite (proj1 (get_tok_hit terminals str post p tok c l H Ht Hc)).
  destruct tok as [|b tok]; [done|]. pose proof (zlen_nonneg tok). pose proof (zlen_nonneg l).
  replace (zlen ((b :: tok) ++ c :: l) <? 2) with false by (autorewrite with zlen; lia). rewrite zlen_cons.
  cbn [run fmap outcome_map]. unfold mbind, exc_bind. replace (1 + zlen tok =? 0) with false by lia. reflexivity.
Qed.

Definition fraction (ms : option bytes) : bytes := match ms with None => [LETTER_Z] | Some f => DOT :: f ++ [LETTER_Z] end.
Definition date_text (Y Mo D H Mi S : bytes) (ms : option bytes) : bytes :=
  Y ++ DASH :: Mo ++ DASH :: D ++ LETTER_T :: H ++ COLON :: Mi ++ COLON :: S ++ fraction ms.

Definition cut (str : bytes) (Y Mo D H Mi S : bytes) (ms : option bytes) (t : tokens) : Prop :=
  tok_at str (year_ptr t) (year_len t) Y /\ tok_at str (month_ptr t) (month_len t) Mo /\ tok_at str (day_ptr t) (day_len t) D
  /\ tok_at str (hour_ptr t) (hour_len t) H /\ tok_at str (min_ptr t) (min_len t) Mi /\ tok_at str (sec_ptr t) (sec_len t) S
  /\ match ms with None => millis_len t = 0 | Some f => tok_at str (millis_ptr t) (millis_len t) f end
  /\ tok_at str (tz_ptr t) (tz_len t) [LETTER_Z].

(** The end of [date_tokens], on the time zone. *)
Lemma tz_hit str post p : off_at str p (LETTER_Z :: post) -> get_tok [] str p 1 = Ret (false, p + 1, 0, 1) /\ tok_at str p 1 [LETTER_Z].
Proof.
  intros H. split; [|split; [reflexivity|exists post; exact H]].
  change 1 with (zlen [LETTER_Z]) at 1. rewrite (get_tok_scan [] str post [LETTER_Z] p H), scan_none. apply quad_eq; reflexivity.
Qed.

Lemma need_tok_digits terminals str post p ds c l :
  off_at str p ((ds ++ c :: l) ++ post) -> Forall digit ds ->
  forallb (fun t => negb (isdigit t)) terminals = true -> existsb (Z.eqb c) terminals = true ->
  need_tok terminals str p (zlen (ds ++ c :: l)) = Ret (inr (p + zlen ds + 1, zlen l, zlen ds))
  /\ tok_at str p (zlen ds) ds /\ rd str (p + zlen ds) = Ret c /\ off_at str (p + zlen ds + 1) (l ++ post).
Proof.
  intros H Hd Ht Hc. pose proof (digits_not_terminal terminals ds Ht Hd) as Hn.
  split; [apply need_tok_hit with post; assumption|]. apply (get_tok_hit terminals str post p ds c l H Hn Hc).
Qed.

Lemma exc_bind_mret {A B} (a : A) (f : A -> exc B) : (mret a : exc A) ≫= f = f a.
Proof. reflexivity. Qed.

Ltac exc_step := rewrite ?exc_bind_mret; cbn [mbind exc_bind run fmap outcome_map].

Lemma date_tokens_text post Y Mo D H Mi S ms :
  Forall digit Y -> Forall digit Mo -> Forall digit D -> Forall digit H -> Forall digit Mi -> Forall digit S -> S <> [] ->
  match ms with None => True | Some f => f <> [] /\ Forall (fun b => existsb (Z.eqb b) [PLUS; DASH; LETTER_Z] = false) f end ->
  let text := date_text Y Mo D H Mi S ms in
  exists t, date_tokens (text ++ 0 :: post) (zlen text) = Ret (inr t) /\ cut (text ++ 0 :: post) Y Mo D H Mi S ms t.
Proof.
  intros HY HMo HD HH HMi HS HSn Hms text. set (str := text ++ 0 :: post).
  assert (off_at str 0 (text ++ 0 :: post)) as A0 by apply off_at_start. clearbody str. unfold text, date_text in *.
  destruct (need_tok_digits [DASH] _ _ _ _ _ _ A0) as (E1 & T1 & _ & A1); [done..|].
  destruct (need_tok_digits [DASH] _ _ _ _ _ _ A1) as (E2 & T2 & _ & A2); [done..|].
  destruct (need_tok_digits [LETTER_T] _ _ _ _ _ _ A2) as (E3 & T3 & _ & A3); [done..|].
  destruct (need_tok_digits [COLON] _ _ _ _ _ _ A3) as (E4 & T4 & _ & A4); [done..|].
  destruct (need_tok_digits [COLON; PLUS; DASH; LETTER_Z] _ _ _ _ _ _ A4) as (E5 & T5 & R5 & A5); [done..|].
  unfold date_tokens. rewrite E1. exc_step. rewrite E2. exc_step. rewrite E3. exc_step.
  rewrite E4. exc_step. rewrite E5. exc_step. rewrite R5. exc_step.
  change (COLON =? COLON) with true. clear A0 A1 A2 A3 A4 E1 E2 E3 E4 E5 R5.
  set (p := _ + zlen Mi + 1) in *. set (p1 := 0 + zlen Y + 1) in *. set (p2 := p1 + _ + 1) in *. set (p3 := p2 + _ + 1) in *.
  set (p4 := p3 + _ + 1) in *. clearbody p p1 p2 p3 p4.
  assert (Forall (fun b => existsb (Z.eqb b) [DOT; PLUS; DASH; LETTER_Z] = false) S) as NS by (apply digits_not_terminal; done).
  assert ((zlen S =? 0) = false) as Sz by (destruct S; [done|]; pose proof (zlen_nonneg S); autorewrite with zlen; lia).
  destruct ms as [f|]; cbn [fraction] in *.
  - destruct Hms as [Hf Hff].
    destruct (get_tok_hit [DOT; PLUS; DASH; LETTER_Z] _ _ _ _ _ _ A5 NS) as (_ & T6 & R6 & A6); [done|].
    rewrite (optional_tok_hit [DOT; PLUS; DASH; LETTER_Z] _ _ _ _ _ _ _ _ A5) by done. exc_step. rewrite Sz, R6.
    exc_step. change (DOT =? DOT) with true.
    destruct (get_tok_hit [PLUS; DASH; LETTER_Z] _ _ _ _ _ _ A6 Hff) as (_ & T7 & R7 & A7); [done|].
    rewrite (optional_tok_hit [PLUS; DASH; LETTER_Z] _ _ _ _ _ _ _ _ A6) by done. exc_step.
    set (q := p + zlen S + 1) in *. clearbody q. replace (q + zlen f + 1 - 1) with (q + zlen f) by lia.
    change (zlen [] + 1) with 1. rewrite <- app_assoc in A6. apply off_at_app in A6.
    destruct (tz_hit _ _ _ A6) as [-> T8]. exc_step.
    eexists. split; [reflexivity|]. unfold cut. cbn. repeat (split; [assumption|]). assumption.
  - destruct (get_tok_hit [DOT; PLUS; DASH; LETTER_Z] _ _ _ _ _ _ A5 NS) as (_ & T6 & R6 & A6); [done|].
    rewrite (optional_tok_hit [DOT; PLUS; DASH; LETTER_Z] _ _ _ _ _ _ _ _ A5) by done. exc_step. rewrite Sz, R6.
    exc_step. change (LETTER_Z =? DOT) with false. cbn [optional_tok]. exc_step.
    replace (p + zlen S + 1 - 1) with (p + zlen S) by lia. change (zlen [] + 1) with 1. 
    rewrite <- app_assoc in A5. apply off_at_app in A5. destruct (tz_hit _ _ _ A5) as [-> T8]. exc_step.
    eexists. split; [reflexivity|]. unfold cut. cbn. repeat (split; [assumption|]). split; [reflexivity|assumption].
Qed.

Lemma need_num_tok str p n l digits min max e :
  tok_at str p n l -> Forall digit l -> zlen l <= 6 -> (0 <= digits -> zlen l = digits) -> min <= dval l <= max ->
  need_num str p n digits min max e = Ret (inr (dval l)).
Proof.
  intros [-> [post H]] Hd Hl Hn Hr. unfold need_num. rewrite (parse_num_at str post l p) by assumption.
  assert (forallb isdigit l = true) as ->
    by (apply forallb_forall; intros c Hc; apply isdigit_spec; rewrite Forall_forall in Hd; apply Hd, list_elem_of_In, Hc).
  replace ((dval l <? min) || (dval l >? max)) with false by lia. reflexivity.
Qed.

(** The number [v] in [n] digits. *)
Definition field (l : bytes) (n v : Z) : Prop := Forall digit l /\ zlen l = n /\ dval l = v.

Lemma field_num str p n l k v min max e :
  tok_at str p n l -> field l k v -> 0 <= k <= 6 -> min <= v <= max -> need_num str p n k min max e = Ret (inr v).
Proof. intros T (Hd & Hk & <-) H Hr. apply need_num_tok; (assumption || lia). Qed.

Lemma field_nonempty l n v : field l n v -> 0 < n -> l <> [].
Proof. intros (_ & H & _) Hn E. rewrite E, zlen_nil in H. lia. Qed.

(** What the third part of a second adds, when it is three characters long. *)
Definition read_fraction (ms : option bytes) : date_error + Z :=
  match ms with None => inr 0 | Some f => if forallb isdigit f then inr (dval f) else inl Bad_milliseconds end.

Definition fraction_ok (ms : option bytes) : Prop :=
  match ms with
  | None => True
  | Some f => zlen f = 3 /\ Forall (fun b => existsb (Z.eqb b) [PLUS; DASH; LETTER_Z] = false) f
              /\ (forallb isdigit f = true -> 0 <= dval f <= 1000)
  end.

Lemma date_millis_fraction str t Y Mo D H Mi S ms :
  cut str Y Mo D H Mi S ms t -> fraction_ok ms -> date_millis str t = Ret (read_fraction ms).
Proof.
  intros (_ & _ & _ & _ & _ & _ & Cm & _) Hf. unfold date_millis, read_fraction. destruct ms as [f|]; [|rewrite Cm; reflexivity].
  destruct Cm as [-> [post A]], Hf as (Hl & _ & Hr). rewrite Hl. change (3 >? 0) with true. change (3 >? 3) with false. cbn iota.
  unfold digits_only. replace (Z.to_nat 3) with (length f) by zl. rewrite (digits_from_safe str post f _ A). exc_step.
  destruct (forallb isdigit f) eqn:E; [|reflexivity]. cbn [negb]. specialize (Hr eq_refl). apply forallb_digits in E.
  rewrite (num_loop_dval str _ post f 1 0) by (assumption || (rewrite ?Hl; lia)). exc_step.
  change (3 =? 1) with false. change (3 =? 2) with false. cbn iota. replace (0 + 1 * dval f) with (dval f) by lia.
  replace ((dval f <? 0) || (dval f >? 1000)) with false by lia. reflexivity.
Qed.

Lemma date_fields_text str t Y Mo D H Mi S ms y mo d h mi s :
  cut str Y Mo D H Mi S ms t -> field Y 4 y -> field Mo 2 mo -> field D 2 d -> field H 2 h -> field Mi 2 mi -> field S 2 s ->
  0 <= y <= 9999 -> 1 <= mo <= 12 -> 1 <= d <= 31 -> 0 <= h <= 23 -> 0 <= mi <= 59 -> 0 <= s <= 60 ->
  date_fields str t = Ret (inr (mk_tm s mi h d (mo - 1) (y - 1900) 0 0 0)).
Proof.
  intros (CY & CMo & CD & CH & CMi & CS & _) FY FMo FD FH FMi FS RY RMo RD RH RMi RS. unfold date_fields.
  rewrite (field_num _ _ _ _ _ _ _ _ _ CY FY) by lia. exc_step. rewrite (field_num _ _ _ _ _ _ _ _ _ CMo FMo) by lia. exc_step.
  rewrite (field_num _ _ _ _ _ _ _ _ _ CD FD) by lia. exc_step. rewrite (field_num _ _ _ _ _ _ _ _ _ CH FH) by lia. exc_step.
  rewrite (field_num _ _ _ _ _ _ _ _ _ CMi FMi) by lia. exc_step.
  replace (sec_len t =? 0) with false by (destruct CS as [-> _], FS as (_ & -> & _); reflexivity).
  rewrite (field_num _ _ _ _ _ _ _ _ _ CS FS) by lia. exc_step. reflexivity.
Qed.

Lemma date_zone_utc str t Y Mo D H Mi S ms : cut str Y Mo D H Mi S ms t -> date_zone str t = Ret (inr 0).
Proof.
  intros (_ & _ & _ & _ & _ & _ & _ & [El [post A]]). unfold date_zone. rewrite El. change (zlen [LETTER_Z] >? 0) with true. cbn iota.
  rewrite (off_at_rd _ _ _ _ A). reflexivity.
Qed.

(** The fields of a date are near enough to the epoch. *)
Lemma date_seconds s mi h d mo y : 0 <= y <= 9999 -> 1 <= mo <= 12 -> 1 <= d <= 31 -> 0 <= h <= 23 -> 0 <= mi <= 59 -> 0 <= s <= 60 ->
  exists tm', Z.abs (seconds_of (mk_tm s mi h d (mo - 1) (y - 1900) 0 0 0)) <= 1000000000000 /\
    _bson_timegm (mk_tm s mi h d (mo - 1) (y - 1900) 0 0 0) = Ret (seconds_of (mk_tm s mi h d (mo - 1) (y - 1900) 0 0 0), tm').
Proof.
  intros. destruct (timegm_seconds (mk_tm s mi h d (mo - 1) (y - 1900) 0 0 0)) as (tm' & Et & _); [repeat split; cbn; lia|].
  exists tm'. split; [apply seconds_of_near; cbn; lia | exact Et].
Qed.

Lemma parse_date_text post error Y Mo D H Mi S ms y mo d h mi s :
  field Y 4 y -> field Mo 2 mo -> field D 2 d -> field H 2 h -> field Mi 2 mi -> field S 2 s -> fraction_ok ms ->
  0 <= y <= 9999 -> 1 <= mo <= 12 -> 1 <= d <= 31 -> 0 <= h <= 23 -> 0 <= mi <= 59 -> 0 <= s <= 60 ->
  let text := date_text Y Mo D H Mi S ms in
  _bson_iso8601_date_parse (text ++ 0 :: post) (zlen text) error =
  Ret match read_fraction ms with
      | inr f => inr (1000 * seconds_of (mk_tm s mi h d (mo - 1) (y - 1900) 0 0 0) + f)
      | inl e => inl e
      end.
Proof.
  intros FY FMo FD FH FMi FS Fms RY RMo RD RH RMi RS text.
  destruct (date_tokens_text post Y Mo D H Mi S ms) as (t & E & C);
    [apply FY|apply FMo|apply FD|apply FH|apply FMi|apply FS|eapply field_nonempty; [exact FS|lia]| |].
  { destruct ms as [f|]; [|exact I]. destruct Fms as (Hl & Hf & _). split; [intros ->; discriminate Hl|exact Hf]. }
  fold text in E, C. unfold _bson_iso8601_date_parse, date_parse. rewrite E. exc_step.
  rewrite (date_fields_text _ _ _ _ _ _ _ _ _ _ _ _ _ _ _ C FY FMo FD FH FMi FS) by assumption. exc_step.
  rewrite (date_zone_utc _ _ _ _ _ _ _ _ _ C). exc_step. rewrite (date_millis_fraction _ _ _ _ _ _ _ _ _ C Fms).
  destruct (date_seconds s mi h d mo y) as (tm' & B & Et); [assumption..|]. revert B Et.
  generalize (mk_tm s mi h d (mo - 1) (y - 1900) 0 0 0). intros tm. generalize (seconds_of tm). intros sec B Et.
  destruct (read_fraction ms) as [e|f] eqn:Ef; exc_step.
  - destruct error; [|reflexivity]. destruct (strlen_nul text post) as [n ->]. reflexivity.
  - assert (0 <= f <= 1000) as Rf.
    { destruct ms as [g|]; cbn in Ef; [|injection Ef as <-; lia]. destruct Fms as (_ & _ & Hr).
      destruct (forallb isdigit g); [|discriminate]. injection Ef as <-. apply Hr. reflexivity. }
    rewrite Et. exc_step. cbn [fst].
    rewrite i64_ret by (unfold INT64_MIN, INT64_MAX; lia). exc_step. rewrite i64_ret by (unfold INT64_MIN, INT64_MAX; lia). exc_step.
    rewrite i64_ret by (unfold INT64_MIN, INT64_MAX; lia). exc_step.
    replace (1000 * sec + f + 0 * 1000) with (1000 * sec + f) by lia. reflexivity.
Qed.

(** ** What is printed *)

Definition two_ok (n : Z) : bool := forallb isdigit (two n) && (zlen (two n) =? 2) && (dval (two n) =? n).
Definition year_ok (n : Z) : bool := forallb isdigit (fmt_d n) && (zlen (fmt_d n) =? 4) && (dval (fmt_d n) =? n).
Definition millis_text (ms : Z) : bytes := pad_left 32 3 (fmt_d ms).
Definition millis_ok (ms : Z) : bool :=
  let f := millis_text ms in
  (zlen f =? 3) && forallb (fun b => negb (existsb (Z.eqb b) [PLUS; DASH; LETTER_Z]) && negb (b =? 0)) f
  && (if ms <? 100 then negb (forallb isdigit f) else forallb isdigit f && (dval f =? ms)).

Lemma range_check (ok : Z -> bool) lo n v : forallb ok (seqZ lo n) = true -> lo <= v < lo + n -> ok v = true.
Proof. intros H Hv. rewrite forallb_forall in H. apply H, list_elem_of_In, elem_of_seqZ. lia. Qed.

Lemma two_field n : 0 <= n < 100 -> field (two n) 2 n.
Proof.
  intros H. assert (two_ok n = true) as E by (apply (range_check two_ok 0 100); [vm_compute; reflexivity|lia]).
  unfold two_ok in E. bool_hyps. split; [apply forallb_digits; assumption|lia].
Qed.
Lemma year_field n : 1000 <= n <= 9999 -> field (fmt_d n) 4 n.
Proof.
  intros H. assert (year_ok n = true) as E by (apply (range_check year_ok 1000 9000); [vm_compute; reflexivity|lia]).
  unfold year_ok in E. bool_hyps. split; [apply forallb_digits; assumption|lia].
Qed.

Definition millis_part (ms : Z) : option bytes := if ms =? 0 then None else Some (millis_text ms).

Lemma millis_fraction ms :
  0 <= ms < 1000 -> fraction_ok (millis_part ms)
  /\ read_fraction (millis_part ms) = (if (1 <=? ms) && (ms <=? 99) then inl Bad_milliseconds else inr ms)
  /\ Forall (fun b => b <> 0) (fraction (millis_part ms)) /\ zlen (fraction (millis_part ms)) <= 5.
Proof.
  intros H. unfold millis_part. destruct (ms =? 0) eqn:E0.
  { assert (ms = 0) as -> by lia. repeat split; repeat constructor; done. }
  assert (millis_ok ms = true) as E by (apply (range_check millis_ok 1 999); [vm_compute; reflexivity|lia]).
  unfold millis_ok in E. cbv zeta in E. set (f := millis_text ms) in *. clearbody f.
  apply andb_true_iff in E as [E E3]. apply andb_true_iff in E as [E1 E2]. rewrite forallb_forall in E2.
  assert (forall b, b ∈ f -> existsb (Z.eqb b) [PLUS; DASH; LETTER_Z] = false /\ b <> 0) as F.
  { intros b Hb. specialize (E2 b (proj1 (list_elem_of_In _ _) Hb)). apply andb_true_iff in E2 as [A B].
    split; [apply negb_true_iff; exact A|]. lia. }
  split; [|split; [|split]].
  - split; [lia|]. split; [apply Forall_forall; intros b Hb; apply F, Hb|]. intros D. rewrite D in E3.
    destruct (ms <? 100); cbn in E3; [discriminate|]. lia.
  - cbn [read_fraction]. replace ((1 <=? ms) && (ms <=? 99)) with (ms <? 100) by lia. destruct (ms <? 100).
    + apply negb_true_iff in E3. rewrite E3. reflexivity.
    + apply andb_true_iff in E3 as [-> E3]. f_equal. lia.
  - cbn [fraction]. constructor; [done|]. apply Forall_app. split; [apply Forall_forall; intros b Hb; apply F, Hb|repeat constructor; done].
  - cbn [fraction]. autorewrite with zlen. lia.
Qed.

Lemma digits_nul l n v : field l n v -> Forall (fun b => b <> 0) l.
Proof. intros (H & _). apply canonical_no_nul, H. Qed.

(** The year and the fields of a time before the year 10000. *)
Lemma tm_ranges tm :
  valid_tm tm -> 0 <= seconds_of tm <= 253402300799 ->
  1970 <= tm_year tm + 1900 <= 9999 /\ 0 <= tm_mon tm < 12 /\ 1 <= tm_mday tm <= 31.
Proof.
  intros (V & Hh & Hm & Hs) H. pose proof (day_in_year _ _ _ V) as Y. unfold seconds_of, TM_YEAR_BASE in *.
  destruct V as [Hmo Hmd]. pose proof (month_length_range (tm_year tm + 1900) (tm_mon tm) Hmo).
  set (y := tm_year tm + 1900) in *. set (dn := day_number _ _ _) in *. clearbody dn y.
  pose proof (days_before_year_range 10000 y) as R1. pose proof (days_before_year_range (y + 1) 1970) as R2.
  change (days_before_year 10000) with 2932897 in R1. rewrite days_before_year_epoch in R2. lia.
Qed.

(** [strftime] prints a text that can be read. *)
Lemma strftime_text tm ms :
  1970 <= tm_year tm + 1900 <= 9999 -> 0 <= tm_mon tm < 12 -> 1 <= tm_mday tm <= 31 -> 0 <= tm_hour tm < 24 ->
  0 <= tm_min tm < 60 -> 0 <= tm_sec tm < 60 -> fraction_ok ms ->
  zlen (strftime tm) = 19 /\ Forall (fun b => b <> 0) (strftime tm)
  /\ forall post error,
       _bson_iso8601_date_parse ((strftime tm ++ fraction ms) ++ 0 :: post) (zlen (strftime tm ++ fraction ms)) error =
       Ret match read_fraction ms with inr f => inr (1000 * seconds_of tm + f) | inl e => inl e end.
Proof.
  intros Ry Rmo Rd Rh Rmi Rs Fms.
  pose proof (year_field (tm_year tm + 1900) ltac:(lia)) as FY. pose proof (two_field (tm_mon tm + 1) ltac:(lia)) as FMo.
  pose proof (two_field (tm_mday tm) ltac:(lia)) as FD. pose proof (two_field (tm_hour tm) ltac:(lia)) as FH.
  pose proof (two_field (tm_min tm) ltac:(lia)) as FMi. pose proof (two_field (tm_sec tm) ltac:(lia)) as FS.
  split; [|split].
  - unfold strftime. autorewrite with zlen. destruct FY as (_ & -> & _), FMo as (_ & -> & _), FD as (_ & -> & _),
      FH as (_ & -> & _), FMi as (_ & -> & _), FS as (_ & -> & _). reflexivity.
  - unfold strftime. apply digits_nul in FY, FMo, FD, FH, FMi, FS.
    revert FY FMo FD FH FMi FS. generalize (fmt_d (tm_year tm + 1900)) (two (tm_mon tm + 1)) (two (tm_mday tm)) (two (tm_hour tm))
      (two (tm_min tm)) (two (tm_sec tm)). intros. rewrite !Forall_app. repeat split; (assumption || (repeat constructor; done)).
  - intros post error.
    replace (strftime tm ++ fraction ms) with (date_text (fmt_d (tm_year tm + 1900)) (two (tm_mon tm + 1)) (two (tm_mday tm))
      (two (tm_hour tm)) (two (tm_min tm)) (two (tm_sec tm)) ms) by (unfold strftime, date_text; rewrite <- !app_assoc; reflexivity).
    rewrite (parse_date_text post error _ _ _ _ _ _ ms _ _ _ _ _ _ FY FMo FD FH FMi FS Fms) by lia.
    replace (seconds_of (mk_tm _ _ _ _ _ _ _ _ _)) with (seconds_of tm); [reflexivity|]. unfold seconds_of.
    cbn [tm_sec tm_min tm_hour tm_mday tm_mon tm_year]. unfold TM_YEAR_BASE.
    replace (tm_mon tm + 1 - 1) with (tm_mon tm) by lia. replace (tm_year tm + 1900 - 1900) with (tm_year tm) by lia. reflexivity.
Qed.

(** C25: For the times from 1970 up to the end of the year 9999,
    [_bson_iso8601_date_format] appends the text of the date to the string, and the
    parser reads that text back as the same time, except when the milliseconds are 1 to
    99: "%3" pads them with spaces, and the parser rejects what was printed. *)
Theorem date_format_parse msec s t :
  srep s t -> zlen t < 2 ^ 29 -> 0 <= msec < 253402300800000 ->
  exists s' text, _bson_iso8601_date_format msec s = Ret s' /\ srep s' (t ++ text)
    /\ forall post error, _bson_iso8601_date_parse (text ++ 0 :: post) (zlen text) error =
         Ret (if (1 <=? msec mod 1000) && (msec mod 1000 <=? 99) then inl Bad_milliseconds else inr msec).
Proof.
  intros Hs Ht Hm. unfold _bson_iso8601_date_format. cbv zeta. set (T := Z.quot msec 1000).
  assert (Z.rem msec 1000 = msec mod 1000) as -> by (apply Z.rem_mod_nonneg; lia).
  pose proof (Z.mod_pos_bound msec 1000 ltac:(lia)) as Hms. set (ms := msec mod 1000) in *.
  assert (msec = 1000 * T + ms) as EM by (subst T ms; euclid). assert (0 <= T <= 253402300799) as HT by (subst T ms; euclid).
  clearbody T ms. destruct (gmtsub_correct T) as (r & -> & B); [unfold INT64_MIN, INT64_MAX; lia|]. rewrite bind_ret.
  destruct r as [o|tm]; cbn [broken_down] in B; [unfold FAR in B; lia|]. destruct B as (V & E & _).
  destruct (tm_ranges tm V ltac:(lia)) as (Ry & Rmo & Rd). destruct V as (_ & Rh & Rmi & Rs).
  destruct (millis_fraction ms Hms) as (Fok & Fr & Fn & Fl).
  destruct (strftime_text tm (millis_part ms) Ry Rmo Rd Rh Rmi Rs Fok) as (Lb & Nb & P). rewrite Fr, E in P.
  replace (zlen (strftime tm) >=? 64) with false by lia.
  assert (exists s', (if negb (ms =? 0)
    then bson_string_append_printf s (strftime tm ++ [DOT] ++ pad_left 32 3 (fmt_d ms) ++ [LETTER_Z])
    else str ← bson_string_append s (strftime tm ++ [0]); bson_string_append_c str LETTER_Z) = Ret s'
    /\ srep s' (t ++ strftime tm ++ fraction (millis_part ms))) as (s' & -> & R).
  { unfold millis_part in *. destruct (ms =? 0); cbn [negb fraction] in *.
    - destruct (bson_string_append_spec s t (strftime tm) []) as (s1 & -> & R1); [assumption|assumption|lia|]. rewrite bind_ret.
      destruct (bson_string_append_c_spec s1 (t ++ strftime tm) LETTER_Z) as (s2 & -> & R2); [assumption|done|autorewrite with zlen; lia|].
      exists s2. split; [reflexivity|]. rewrite app_assoc. exact R2.
    - unfold bson_string_append_printf. apply (bson_string_append_spec s t (strftime tm ++ DOT :: millis_text ms ++ [LETTER_Z]) []);
        [assumption|apply Forall_app; split; assumption|rewrite zlen_app; lia]. }
  exists s', (strftime tm ++ fraction (millis_part ms)). split; [reflexivity|]. split; [exact R|].
  intros post error. rewrite P, EM. destruct ((1 <=? ms) && (ms <=? 99)); reflexivity.
Qed.

(** The time 2024-02-29T12:35:00.500Z. *)
Lemma date_format_parse_witness :
  exists s' text, _bson_iso8601_date_format 1709210100500 (mk_string [0] 0 1) = Ret s' /\ srep s' ([] ++ text)
    /\ forall post error, _bson_iso8601_date_parse (text ++ 0 :: post) (zlen text) error = Ret (inr 1709210100500).
Proof.
  apply (date_format_parse 1709210100500 (mk_string [0] 0 1) []); [|reflexivity|lia].
  split; [reflexivity|reflexivity|cbn; lia|exists []; reflexivity].
Defined.

(** Outside these times the two do not fit together: half a second before 1970 is
    printed with a sign in its milliseconds, and a year of five digits is not read. *)
Theorem date_format_outside :
  let reread msec :=
    match _bson_iso8601_date_format msec (mk_string [0] 0 1) with
    | Ret s => _bson_iso8601_date_parse (s_str s) (s_len s) true
    | _ => Oob
    end in
  reread (-500) = Ret (inl Milliseconds_required) /\ reread (-1000) = Ret (inr (-1000)) /\
  reread 253402300799999 = Ret (inr 253402300799999) /\ reread 253402300800000 = Ret (inl Bad_year).
Proof. repeat split; by vm_compute. Qed.
