(* ===== verification/Writer.v ===== *)
(** * Writing documents one after the other (bson-writer.c)

    A writer lends its embedded [bson_t] to the caller: [bson_writer_begin] makes
    it an empty document at the end of the caller's buffer, the append functions
    extend it in place, [bson_writer_end] keeps it, [bson_writer_rollback] drops it.

    [bson_writer_begin] clears one byte more than it has made room for; all other
    memory accesses are inside the buffer. *)
From S2P Require Import Prelude Memory Format Document Append Lifecycle Build.

(** [buf] and [buflen] point to the caller's variable pair, the cell at [w_buf]; [w_b] is the
    address of the embedded [bson_t]. *)
Record bson_writer_t := mk_writer {
  w_ready : bool; w_buf : Z; w_offset : Z; w_realloc : option bson_realloc_func; w_b : Z;
}.

(** A [bson_t] of zeros: no flags, no length, null pointers. *)
Definition zero_bson : bson_t := mk_bson 0 0 (Inline (replicate 120 0)).
Definition clear_b (b : Z) : M () := put_obj b zero_bson;; put_cell b (mk_cell None 0).

Definition bson_writer_new (b buf offset : Z) (realloc_func : option bson_realloc_func) : M bson_writer_t :=
  clear_b b;; mret (mk_writer true buf offset realloc_func b).

(** Only the structure is released: the buffer is the caller's. *)
Definition bson_writer_destroy (writer : bson_writer_t) : M () := free_obj (w_b writer).

Definition bson_writer_get_length (writer : bson_writer_t) : M Z :=
  o ← get_obj (w_b writer); mret (u64 (w_offset writer + b_len o)).

(** The loop over [*buflen]: the new length and [grown]. *)
Fixpoint grow_len (fuel : nat) (need buflen : Z) (grown : bool) : outcome (Z * bool) :=
  match fuel with
  | O => Fuel
  | S fuel =>
      if need >? buflen then grow_len fuel need (if buflen =? 0 then 64 else u64 (buflen * 2)) true else Ret (buflen, grown)
  end.
Definition grow_fuel : nat := 66.

Definition with_ready (w : bson_writer_t) (r : bool) : bson_writer_t :=
  mk_writer r (w_buf w) (w_offset w) (w_realloc w) (w_b w).

Definition bson_writer_begin (writer : bson_writer_t) : M (bson_writer_t * bool) :=
  BSON_ASSERT (w_ready writer);;
  put_cell (w_b writer) (mk_cell None 0);;
  put_obj (w_b writer) (mk_bson (set_flag BSON_FLAG_STATIC BSON_FLAG_NO_FREE) 5
    (Alloc (mk_alloc None 0 (w_buf writer) (w_offset writer) (w_realloc writer))));;
  c ← get_cell (w_buf writer);
  let need := u64 (w_offset writer + 5) in
  room ← (match w_realloc writer with
          | None => mret (if need >? c_len c then None else Some c)
          | Some realloc_func =>
              r ← lift (grow_len grow_fuel need (c_len c) false);
              match r with
              | (buflen, grown) => mret (Some (if (grown : bool) then mk_cell (Some (realloc_func (c_buf c) buflen)) buflen else c))
              end
          end);
  match (room : option cell) with
  | None => clear_b (w_b writer);; mret (with_ready writer true, false)
  | Some c =>
      put_cell (w_buf writer) c;;
      store (PCell (w_buf writer) (w_offset writer + 1)) [0; 0; 0; 0; 0];;
      store (PCell (w_buf writer) (w_offset writer)) [5];;
      mret (with_ready writer false, true)
  end.

Definition bson_writer_end (writer : bson_writer_t) : M bson_writer_t :=
  BSON_ASSERT (negb (w_ready writer));;
  o ← get_obj (w_b writer);
  clear_b (w_b writer);;
  mret (mk_writer true (w_buf writer) (u64 (w_offset writer + b_len o)) (w_realloc writer) (w_b writer)).

Definition bson_writer_rollback (writer : bson_writer_t) : M bson_writer_t :=
  o ← get_obj (w_b writer);
  (if negb (b_len o =? 0) then clear_b (w_b writer) else mret ());;
  mret (with_ready writer true).

(** * Proofs *)

(** [realloc] of a null pointer allocates. *)
Definition realloc_null_ok (f : bson_realloc_func) : Prop := realloc_ok f /\ forall n, f None n = f (Some []) n.

Lemma bson_realloc_ctx_null_ok : realloc_null_ok bson_realloc_ctx.
Proof. split; [apply bson_realloc_ctx_ok|reflexivity]. Qed.

(** The bytes of the caller's buffer; a null pointer has none. *)
Definition content (c : cell) : bytes := default [] (c_buf c).
Definition cell_ok (c : cell) : Prop := c_len c = zlen (content c).

Lemma realloc_content f c n :
  realloc_null_ok f -> zlen (content c) <= n -> exists ext, f (c_buf c) n = content c ++ ext /\ zlen (content c ++ ext) = n.
Proof. intros [H1 H2] Hn. unfold content in *. destruct (c_buf c) as [old|]; cbn in *; [apply H1, Hn|]. rewrite H2. apply H1, Hn. Qed.

Ltac grow_done := split; [reflexivity|]; split; [lia|]; split; [lia|]; split; [lia|].

Lemma grow_len_spec n : forall fuel need buflen grown,
  (n < fuel)%nat -> 1 <= buflen -> need <= buflen * 2 ^ Z.of_nat n -> 0 <= need <= 2 ^ 30 ->
  exists L g, grow_len fuel need buflen grown = Ret (L, g) /\ need <= L /\ buflen <= L
    /\ L <= Z.max buflen (2 * need - 1) /\ ((L = buflen /\ g = grown) \/ (buflen < L /\ g = true)).
Proof.
  induction n as [|n IH]; intros fuel need buflen grown Hf Hb Hn Hm; (destruct fuel as [|fuel]; [lia|]); cbn [grow_len].
  - change (2 ^ Z.of_nat 0) with 1 in Hn. destruct (need >? buflen) eqn:E; [lia|]. exists buflen, grown. grow_done; left; done.
  - destruct (need >? buflen) eqn:E; [|exists buflen, grown; grow_done; left; done].
    replace (buflen =? 0) with false by lia. rewrite u64_id by lia. rewrite Nat2Z.inj_succ, Z.pow_succ_r in Hn by lia.
    destruct (IH fuel need (buflen * 2) true) as (L & g & -> & H1 & H2 & H3 & H4); [lia..|].
    exists L, g. grow_done; destruct H4 as [[-> ->]|[? ->]]; first [right; split; [lia|done]|left; done].
Qed.

Lemma grow_len_0 fuel need : grow_len (S fuel) need 0 false = if need >? 0 then grow_len fuel need 64 true else Ret (0, false).
Proof. reflexivity. Qed.

#[local] Opaque grow_len.
Lemma grow_len_any need buflen :
  0 <= buflen -> 0 <= need <= 2 ^ 30 ->
  exists L g, grow_len grow_fuel need buflen false = Ret (L, g) /\ need <= L /\ buflen <= L
    /\ L <= Z.max buflen (Z.max 64 (2 * need - 1)) /\ ((L = buflen /\ g = false) \/ (buflen < L /\ g = true)).
Proof.
  intros Hb Hn. unfold grow_fuel. destruct (decide (buflen = 0)) as [->|].
  - rewrite (grow_len_0 65 need).
    destruct (need >? 0) eqn:E; [|exists 0, false; grow_done; left; done].
    destruct (grow_len_spec 30 65 need 64 true) as (L & g & E1 & H1 & H2 & H3 & H4); [lia|lia|lia|lia|].
    exists L, g. split; [exact E1|]. split; [lia|]; split; [lia|]; split; [lia|]; destruct H4 as [[-> ->]|[? ->]]; first [right; split; [lia|done]|left; done].
  - destruct (grow_len_spec 30 66 need buflen false) as (L & g & E1 & H1 & H2 & H3 & H4); [lia|lia|lia|lia|].
    exists L, g. split; [exact E1|]. split; [lia|]; split; [lia|]; split; [lia|]; destruct H4 as [[-> ->]|[? ->]]; first [right; split; [lia|done]|left; done].
Qed.

(** The length of the buffer that [bson_writer_begin] works in. *)
Definition begin_len (w : bson_writer_t) (c : cell) : Z :=
  match grow_len grow_fuel (w_offset w + 5) (c_len c) false with Ret (L, _) => L | _ => 0 end.

(** A writer over the cell [c]. *)
Record writer_ok (w : bson_writer_t) (m : mem) (c : cell) (f : bson_realloc_func) : Prop := mk_writer_ok {
  wo_ready : w_ready w = true;
  wo_apart : w_buf w < w_b w;
  wo_realloc : w_realloc w = Some f;
  wo_f : realloc_null_ok f;
  wo_cell : cells m !! w_buf w = Some c;
  wo_c : cell_ok c;
  wo_offset : 0 <= w_offset w <= zlen (content c);
  wo_max : zlen (content c) <= INT32_MAX;
}.

Definition begin_obj (w : bson_writer_t) : bson_t :=
  mk_bson (set_flag BSON_FLAG_STATIC BSON_FLAG_NO_FREE) 5
    (Alloc (mk_alloc None 0 (w_buf w) (w_offset w) (w_realloc w))).

(** [bson_writer_begin] up to the two stores. *)
Lemma begin_room w m c f :
  writer_ok w m c f -> w_offset w + 5 <= 2 ^ 30 ->
  exists ext, zlen (content c ++ ext) = begin_len w c /\ w_offset w + 5 <= begin_len w c <= INT32_MAX
    /\ bson_writer_begin w m =
       (store (PCell (w_buf w) (w_offset w + 1)) [0; 0; 0; 0; 0];;
        store (PCell (w_buf w) (w_offset w)) [5];;
        mret (with_ready w false, true))
         (mk_mem (<[w_b w := begin_obj w]> (objs m))
            (<[w_buf w := mk_cell (Some (content c ++ ext)) (begin_len w c)]> (<[w_b w := mk_cell None 0]> (cells m)))).
Proof.
  intros [Hr Ha Hf Hfo Hc Hco Hof Hmax] Hn. unfold begin_len. unfold cell_ok in Hco. pose proof (zlen_nonneg (content c)).
  destruct (grow_len_any (w_offset w + 5) (c_len c)) as (L & g & E & H1 & H2 & H3 & H4); [lia|lia|]. rewrite E.
  assert (exists ext, (if g then mk_cell (Some (f (c_buf c) L)) L else c) = mk_cell (Some (content c ++ ext)) L
                      /\ zlen (content c ++ ext) = L) as (ext & Ec & El).
  { destruct H4 as [[-> ->]|[Hg ->]].
    - exists []. rewrite app_nil_r. split; [|lia]. unfold content. destruct c as [[buf|] n]; cbn; [f_equal; exact Hco|].
      exfalso. unfold content in *. cbn in *. rewrite zlen_nil in *. lia.
    - destruct (realloc_content f c L Hfo) as (ext & E1 & E2); [lia|]. exists ext. rewrite E1. split; [reflexivity|exact E2]. }
  exists ext. split; [exact El|]. split; [unfold INT32_MAX in *; lia|].
  unfold bson_writer_begin. rewrite Hr, Hf. unfold mbind at 1, M_bind at 1. cbn [BSON_ASSERT]. fold begin_obj.
  unfold mbind at 1, M_bind at 1. cbn [put_cell]. unfold mbind at 1, M_bind at 1. cbn [put_obj objs cells].
  unfold mbind at 1, M_bind at 1. unfold get_cell at 1. cbn [cells]. rewrite lookup_insert_ne by lia. rewrite Hc.
  rewrite u64_id by lia. unfold mbind at 1, M_bind at 1. unfold mbind at 1, M_bind at 1, lift at 1. rewrite E.
  cbn [mbind outcome_bind]. unfold mret, M_ret. rewrite Ec. unfold begin_obj. rewrite Hf. reflexivity.
Qed.

Lemma store_cell m l buf n off bs :
  cells m !! l = Some (mk_cell (Some buf) n) ->
  store (PCell l off) bs m =
  match wrn buf off bs with
  | Ret buf' => Ret (mk_mem (objs m) (<[l := mk_cell (Some buf') n]> (cells m)), ())
  | Abort => Abort | Oob => Oob | Fuel => Fuel
  end.
Proof.
  intros H. unfold store, mbind at 1, M_bind at 1, get_cell. rewrite H. cbn [c_buf c_len].
  unfold mbind at 1, M_bind at 1, lift. destruct (wrn buf off bs); reflexivity.
Qed.

(** The state after [bson_writer_begin]: an empty document after the first [w_offset] bytes. *)
Definition begun_writer (w : bson_writer_t) (m m' : mem) (o : bson_t) (pre slack : bytes) : Prop :=
  rep m' (w_b w) o pre [] slack /\ writable o /\ growable o /\ own_cell (w_b w) o = w_buf w /\ o_depth o = 0
  /\ (forall b, b <> w_b w -> objs m' !! b = objs m !! b)
  /\ (forall l, l <> w_buf w -> l <> w_b w -> cells m' !! l = cells m !! l)
  /\ b_flags o = set_flag BSON_FLAG_STATIC BSON_FLAG_NO_FREE.

Lemma begin_overflow w m c f :
  writer_ok w m c f -> w_offset w + 5 <= 2 ^ 30 -> begin_len w c = w_offset w + 5 -> bson_writer_begin w m = Oob.
Proof.
  intros W Hn El. destruct (begin_room w m c f W Hn) as (ext & Lx & _ & ->). destruct W as [_ Ha _ _ _ _ Hof _].
  unfold mbind at 1, M_bind at 1. rewrite (store_cell _ _ (content c ++ ext) (begin_len w c)) by (cbn; apply lookup_insert_eq).
  unfold wrn. replace (_ && _) with false; [reflexivity|]. symmetry. apply andb_false_iff. right. change (zlen [0; 0; 0; 0; 0]) with 5. lia.
Qed.

Lemma begin_in_room w m c f :
  writer_ok w m c f -> w_offset w + 5 <= 2 ^ 30 -> begin_len w c <> w_offset w + 5 ->
  exists m' o slack, bson_writer_begin w m = Ret (m', (with_ready w false, true))
    /\ begun_writer w m m' o (take (Z.to_nat (w_offset w)) (content c)) slack.
Proof.
  intros W Hn El. destruct (begin_room w m c f W Hn) as (ext & Lx & Hlen & ->). destruct W as [_ Ha Hf Hfo _ _ Hof Hmax].
  set (pre := take (Z.to_nat (w_offset w)) (content c)). set (B := content c ++ ext) in *.
  assert (zlen pre = w_offset w) as Lp by (unfold pre; rewrite zlen_take; lia).
  assert (exists x0 x1 x2 x3 x4 x5 r, B = pre ++ x0 :: x1 :: x2 :: x3 :: x4 :: x5 :: r) as (x0 & x1 & x2 & x3 & x4 & x5 & r & EB).
  { assert (B = pre ++ drop (Z.to_nat (w_offset w)) B) as E
      by (unfold pre; replace (take _ (content c)) with (take (Z.to_nat (w_offset w)) B) by (apply take_app_le; zl); symmetry; apply take_drop).
    assert (6 <= zlen (drop (Z.to_nat (w_offset w)) B)) as L6 by (rewrite zlen_drop; lia).
    destruct (drop (Z.to_nat (w_offset w)) B) as [|x0 [|x1 [|x2 [|x3 [|x4 [|x5 r]]]]]]; rewrite ?zlen_cons, ?zlen_nil in L6; try lia.
    exists x0, x1, x2, x3, x4, x5, r. exact E. }
  unfold mbind at 1, M_bind at 1. rewrite (store_cell _ _ B (begin_len w c)) by (cbn; apply lookup_insert_eq).
  replace B with ((pre ++ [x0]) ++ [x1; x2; x3; x4; x5] ++ r) by (rewrite EB, <- app_assoc; reflexivity).
  rewrite wrn_mid by (rewrite ?zlen_app, ?Lp; reflexivity). cbn [objs cells].
  unfold mbind at 1, M_bind at 1. rewrite (store_cell _ _ ((pre ++ [x0]) ++ [0; 0; 0; 0; 0] ++ r) (begin_len w c)) by (cbn; apply lookup_insert_eq).
  replace ((pre ++ [x0]) ++ [0; 0; 0; 0; 0] ++ r) with (pre ++ [x0] ++ [0; 0; 0; 0; 0] ++ r) by (rewrite <- app_assoc; reflexivity).
  rewrite wrn_mid by (rewrite ?Lp; reflexivity). cbn [objs cells]. rewrite !insert_insert_eq.
  eexists _, (begin_obj w), (0 :: r). split; [reflexivity|].
  assert (zlen (image pre [] (0 :: r)) = begin_len w c) as Li.
  { rewrite <- Lx, EB. unfold image. rewrite !zlen_app, zlen_doc_bytes, !zlen_cons, zlen_nil. lia. }
  split; [constructor|].
  - split; [cbn; apply lookup_insert_eq|]. cbn [begin_obj b_impl b_flags a_buf]. split; [reflexivity|]. cbn [cells].
    rewrite lookup_insert_eq, Li. reflexivity.
  - reflexivity.
  - cbn. lia.
  - pose proof (zlen_nonneg (0 :: r)). cbn. lia.
  - cbn. lia.
  - cbn. intros g Hg. rewrite Hf in Hg. injection Hg as <-. apply Hfo.
  - reflexivity.
  - repeat split; cbn.
    + rewrite Hf. by eexists.
    + intros b Hb. by rewrite lookup_insert_ne.
    + intros l H1 H2. by rewrite !lookup_insert_ne.
Qed.

(** ** A sequence of documents *)

(** The caller's side: begin, append the elements, end. *)
Definition write_doc (w : bson_writer_t) (els : list (bytes * value)) : M (bson_writer_t * bool) :=
  r ← bson_writer_begin w;
  match r with
  | (w, ok) =>
      if (ok : bool) then built ← build (w_b w) els; w ← bson_writer_end w; mret (w, built) else mret (w, false)
  end.

Fixpoint write_docs (w : bson_writer_t) (docs : list (list (bytes * value))) : M (bson_writer_t * bool) :=
  match docs with
  | [] => mret (w, true)
  | els :: docs =>
      r ← write_doc w els;
      match r with (w, ok) => if (ok : bool) then write_docs w docs else mret (w, false) end
  end.

Definition encode_docs (docs : list (list (bytes * value))) : bytes := concat (map encode_doc docs).

(** What has been written: the buffer up to the offset. *)
Definition written (w : bson_writer_t) (c : cell) : bytes := take (Z.to_nat (w_offset w)) (content c).

Definition docs_ok (docs : list (list (bytes * value))) : Prop := Forall (fun els => elems_ok els /\ no_regexes els) docs.

Lemma end_writer w m c f o pre body slack :
  w_ready w = false -> w_buf w < w_b w -> w_realloc w = Some f -> realloc_null_ok f -> w_offset w = zlen pre ->
  rep m (w_b w) o pre body slack -> own_cell (w_b w) o = w_buf w -> w_offset w + zlen body + 5 <= 2 ^ 30 ->
  c = mk_cell (Some (image pre body slack)) (zlen (image pre body slack)) ->
  exists m' w', bson_writer_end w m = Ret (m', w') /\ writer_ok w' m' c f /\ written w' c = pre ++ doc_bytes body
    /\ w_offset w' = w_offset w + zlen (doc_bytes body) /\ w_buf w' = w_buf w /\ w_b w' = w_b w.
Proof.
  intros Hr Ha Hf Hfo Hof R Hown Hsz ->. pose proof (rep_bound _ _ _ _ _ _ R) as (Hb & H5 & Hmx).
  pose proof (rep_len _ _ _ _ _ _ R) as Rl. pose proof (zlen_nonneg pre). pose proof (zlen_nonneg body). pose proof (zlen_nonneg slack).
  destruct R as [[Ro Rv] _ _ _ _ _ _]. unfold bson_writer_end. rewrite Hr.
  unfold mbind at 1, M_bind at 1. cbn [BSON_ASSERT negb]. unfold mbind at 1, M_bind at 1, get_obj. rewrite Ro.
  do 2 eexists. split; [reflexivity|]. cbn [objs cells]. rewrite Rl, u64_id by lia.
  assert (image pre body slack = (pre ++ doc_bytes body) ++ slack) as Ei by (unfold image; apply app_assoc).
  split; [|split; [|split; [|split]]].
  - split; cbn [w_ready w_buf w_b w_realloc w_offset cells]; [reflexivity|lia|exact Hf|exact Hfo| |reflexivity| |exact Hmx].
    + rewrite lookup_insert_ne by lia. unfold own_cell in Hown. destruct (b_impl o) as [d|a]; [lia|]. rewrite <- Hown. apply Rv.
    + change (content _) with (image pre body slack). rewrite Ei, !zlen_app, zlen_doc_bytes. lia.
  - unfold written. change (content _) with (image pre body slack). cbn [w_offset]. rewrite Ei. apply take_app_length'.
    pose proof (zlen_doc_bytes body) as D. unfold zlen in *. rewrite length_app. lia.
  - cbn [w_offset]. rewrite zlen_doc_bytes. lia.
  - reflexivity.
  - reflexivity.
Qed.

Lemma write_doc_spec w m c f els :
  writer_ok w m c f -> elems_ok els -> no_regexes els -> w_offset w + zlen (encode_doc els) <= 2 ^ 30 ->
  if decide (begin_len w c = w_offset w + 5) then write_doc w els m = Oob
  else exists m' w' c', write_doc w els m = Ret (m', (w', true)) /\ writer_ok w' m' c' f
         /\ written w' c' = written w c ++ encode_doc els /\ w_offset w' = w_offset w + zlen (encode_doc els)
         /\ w_buf w' = w_buf w /\ w_b w' = w_b w.
Proof.
  intros W Hok Hre Hsz. unfold encode_doc in *. rewrite zlen_doc_bytes in Hsz. pose proof (zlen_nonneg (encode_body els)).
  unfold write_doc. case_decide as E.
  { unfold mbind at 1, M_bind at 1. rewrite (begin_overflow w m c f) by (assumption || lia). reflexivity. }
  destruct (begin_in_room w m c f W) as (m1 & o & slack & E1 & (R & Wr & G & Ho & Hd & _ & _ & _)); [lia|exact E|].
  rewrite (run_bind _ _ _ _ _ E1). fold (written w c) in R. destruct W as [_ Ha Hf Hfo _ _ Hof _].
  assert (zlen (written w c) = w_offset w) as Lw by (unfold written; rewrite zlen_take; lia).
  destruct (builds_elems els (w_b w) Hok Hre m1 o (written w c) [] slack R Wr G) as (m2 & o2 & s2 & x & E2 & <- & R2 & Ev & _);
    [lia|rewrite zlen_nil; lia|]. cbn [with_ready w_b]. rewrite (run_bind _ _ _ _ _ E2). cbn [app] in R2.
  set (c' := mk_cell (Some (image (written w c) (encode_body els) s2)) (zlen (image (written w c) (encode_body els) s2))).
  destruct (end_writer (with_ready w false) m2 c' f o2 (written w c) (encode_body els) s2) as (m3 & w3 & E3 & W3 & Wt & Wo & Wb & Wbb);
    [reflexivity|exact Ha|exact Hf|exact Hfo|symmetry; exact Lw|exact R2|cbn; rewrite (evolves_own _ _ _ Ev); exact Ho
    |cbn [with_ready w_offset]; lia|reflexivity|].
  rewrite (run_bind _ _ _ _ _ E3). exists m3, w3, c'.
  split; [reflexivity|]. split; [exact W3|]. split; [exact Wt|]. split; [exact Wo|]. split; [exact Wb|exact Wbb].
Qed.

(** A document that is dropped leaves nothing behind: neither the offset nor the bytes
    before it change, and the length the writer reports until then includes it. *)
Lemma rollback_drops w m c f els :
  writer_ok w m c f -> elems_ok els -> no_regexes els -> w_offset w + zlen (encode_doc els) <= 2 ^ 30 ->
  begin_len w c <> w_offset w + 5 ->
  exists m1 m2 c2, (r ← bson_writer_begin w; built ← build (w_b w) els; mret (r.1, built)) m = Ret (m1, (with_ready w false, true))
    /\ bson_writer_get_length (with_ready w false) m1 = Ret (m1, w_offset w + zlen (encode_doc els))
    /\ bson_writer_rollback (with_ready w false) m1 = Ret (m2, w) /\ writer_ok w m2 c2 f /\ written w c2 = written w c.
Proof.
  intros W Hok Hre Hsz E. unfold encode_doc in *. rewrite zlen_doc_bytes in *. pose proof (zlen_nonneg (encode_body els)).
  destruct (begin_in_room w m c f W) as (m1 & o & slack & E1 & (R & Wr & G & Ho & Hd & _ & _ & _)); [lia|exact E|].
  fold (written w c) in R. destruct W as [Hr Ha Hf Hfo _ _ Hof Hmax].
  assert (zlen (written w c) = w_offset w) as Lw by (unfold written; rewrite zlen_take; lia).
  destruct (builds_elems els (w_b w) Hok Hre m1 o (written w c) [] slack R Wr G) as (m2 & o2 & s2 & x & E2 & <- & R2 & Ev & _);
    [lia|rewrite zlen_nil; lia|]. cbn [app] in R2. pose proof (rep_bound _ _ _ _ _ _ R2) as (Hb & H5 & Hmx).
  pose proof (rep_len _ _ _ _ _ _ R2) as Rl. destruct R2 as [[Ro Rv] _ _ _ _ _ _].
  set (B := image (written w c) (encode_body els) s2) in *.
  exists m2. eexists. exists (mk_cell (Some B) (zlen B)).
  split; [rewrite (run_bind _ _ _ _ _ E1), (run_bind _ _ _ _ _ E2); reflexivity|].
  split; [unfold bson_writer_get_length, mbind, M_bind, get_obj; cbn [with_ready w_b w_offset]; rewrite Ro, Rl, u64_id by lia; reflexivity|].
  split; [|split].
  - unfold bson_writer_rollback. unfold mbind at 1, M_bind at 1, get_obj. cbn [with_ready w_b]. rewrite Ro.
    replace (b_len o2 =? 0) with false by lia. cbn [negb]. destruct w as [rdy bf off rl bb]; cbn in Hr. subst rdy. reflexivity.
  - split; try done.
    + cbn [cells]. rewrite lookup_insert_ne by lia. pose proof (evolves_own _ _ _ Ev) as Eo. rewrite Ho in Eo.
      unfold own_cell in Eo. destruct (b_impl o2) as [d|a]; [lia|]. rewrite <- Eo. apply Rv.
    + change (content _) with B. pose proof (zlen_nonneg s2). lia.
  - unfold written at 1. change (content _) with B. unfold B, image. apply take_app_length'. unfold zlen in *. lia.
Qed.

Lemma write_docs_spec docs : forall w m c f,
  writer_ok w m c f -> docs_ok docs -> w_offset w + zlen (encode_docs docs) <= 2 ^ 30 ->
  (exists m' w' c', write_docs w docs m = Ret (m', (w', true)) /\ writer_ok w' m' c' f /\ w_buf w' = w_buf w
     /\ written w' c' = written w c ++ encode_docs docs /\ w_offset w' = w_offset w + zlen (encode_docs docs))
  \/ (exists before after m1 w1 c1, docs = before ++ after /\ after <> [] /\ write_docs w before m = Ret (m1, (w1, true))
        /\ writer_ok w1 m1 c1 f /\ begin_len w1 c1 = w_offset w1 + 5 /\ write_docs w docs m = Oob).
Proof.
  induction docs as [|els docs IH]; intros w m c f W D Hsz.
  { left. exists m, w, c. unfold encode_docs. cbn [map concat]. rewrite app_nil_r, zlen_nil.
    split; [done|]. split; [exact W|]. split; [done|]. split; [done|lia]. }
  apply Forall_cons in D as [[Hok Hre] D]. unfold encode_docs in *. cbn [map concat] in *. rewrite zlen_app in Hsz.
  pose proof (zlen_nonneg (concat (map encode_doc docs))).
  pose proof (write_doc_spec w m c f els W Hok Hre ltac:(lia)) as H1. case_decide as E.
  { right. exists [], (els :: docs), m, w, c. repeat (split; [done|]). cbn [write_docs]. unfold mbind at 1, M_bind at 1.
    rewrite H1. reflexivity. }
  destruct H1 as (m1 & w1 & c1 & E1 & W1 & Wr & Wo & Wb & _). cbn [write_docs].
  destruct (IH w1 m1 c1 f W1 D ltac:(lia)) as [(m2 & w2 & c2 & E2 & W2 & Wb2 & Wr2 & Wo2)|(bf & af & m2 & w2 & c2 & -> & Hne & E2 & W2 & El & E3)].
  - left. exists m2, w2, c2. rewrite (run_bind _ _ _ _ _ E1). cbn beta iota. split; [exact E2|]. split; [exact W2|].
    split; [congruence|]. rewrite Wr2, Wr, <- app_assoc. split; [reflexivity|]. rewrite zlen_app. lia.
  - right. exists (els :: bf), af, m2, w2, c2. split; [reflexivity|]. split; [exact Hne|]. cbn [write_docs].
    rewrite !(run_bind _ _ _ _ _ E1). cbn beta iota. repeat (split; [done|]). exact E3.
Qed.

(** C31: Well-formed documents without regular expressions, written one after the other
    through a writer that has a realloc function, lie in the caller's buffer one after the
    other, encoded as they were built, after what was there before; for them the only way
    to fail is that [bson_writer_begin] is left with a buffer of exactly five bytes
    more than its offset, whose end it then overwrites. *)
Theorem writer_writes_documents docs w m c f :
  writer_ok w m c f -> docs_ok docs -> w_offset w + zlen (encode_docs docs) <= 2 ^ 30 ->
  (exists m' w' c', write_docs w docs m = Ret (m', (w', true)) /\ cells m' !! w_buf w = Some c'
     /\ written w' c' = written w c ++ encode_docs docs)
  \/ (exists before after m1 w1 c1, docs = before ++ after /\ after <> [] /\ write_docs w before m = Ret (m1, (w1, true))
        /\ writer_ok w1 m1 c1 f /\ begin_len w1 c1 = w_offset w1 + 5 /\ write_docs w docs m = Oob).
Proof.
  intros W D Hsz. destruct (write_docs_spec docs w m c f W D Hsz) as [(m' & w' & c' & E & W' & Wb & Wr & _)|H]; [left|right; exact H].
  exists m', w', c'. split; [exact E|]. split; [rewrite <- Wb; apply W'|exact Wr].
Qed.

Definition null_cell : cell := mk_cell None 0.
Definition null_mem : mem := mk_mem ∅ {[1 := null_cell]}.
Definition fresh_writer : bson_writer_t := mk_writer true 1 0 (Some bson_realloc_ctx) 2.

Lemma fresh_writer_ok : writer_ok fresh_writer null_mem null_cell bson_realloc_ctx.
Proof. split; try done; apply bson_realloc_ctx_null_ok. Qed.

Lemma writer_writes_documents_witness :
  (exists m' w' c', write_docs fresh_writer [sample; sample] null_mem = Ret (m', (w', true)) /\ cells m' !! 1 = Some c'
     /\ written w' c' = encode_docs [sample; sample])
  \/ (exists before after m1 w1 c1, [sample; sample] = before ++ after /\ after <> []
        /\ write_docs fresh_writer before null_mem = Ret (m1, (w1, true))
        /\ writer_ok w1 m1 c1 bson_realloc_ctx /\ begin_len w1 c1 = w_offset w1 + 5
        /\ write_docs fresh_writer [sample; sample] null_mem = Oob).
Proof.
  apply (writer_writes_documents [sample; sample] fresh_writer null_mem null_cell bson_realloc_ctx);
    [apply fresh_writer_ok|
     do 2 (apply Forall_cons_2; [split; [apply sample_elems_ok|apply sample_no_regexes]|]); apply Forall_nil_2|vm_compute; discriminate].
Defined.

(** A document of 59 bytes. *)
Definition doc59 : list (bytes * value) := [([97], VUtf8 (repeat 120 46))].

(** [bson_writer_begin] writes outside the buffer it has made room in: after a document
    of 59 bytes in a buffer that has grown to 64, the next one clears byte 64. *)
Theorem writer_begin_overflows :
  zlen (encode_doc doc59) = 59
  /\ (exists m w, write_docs fresh_writer [doc59] null_mem = Ret (m, (w, true)) /\ bson_writer_begin w m = Oob
        /\ (c_len <$> cells m !! 1) = Some 64)
  /\ write_docs fresh_writer [doc59; []] null_mem = Oob.
Proof.
  split; [vm_compute; reflexivity|]. split; [|vm_compute; reflexivity].
  let v := eval vm_compute in (write_docs fresh_writer [doc59] null_mem) in
  match v with Ret (?m, (?w, true)) => exists m, w end.
  split; [vm_compute; reflexivity|]. split; vm_compute; reflexivity.
Qed.
