(* ===== verification/Reader.v ===== *)
(** * Reading a sequence of documents (bson-reader.c)

    [bson_reader_data_t] reads documents that lie one after the other in memory;
    [bson_reader_handle_t] reads them from a byte source in pieces of any size,
    through a buffer that slides and doubles.  The source is the caller's read
    function: a parameter, with its contract as the class [ByteSource]. *)
From S2P Require Import Prelude Memory Format Document Append Lifecycle Build Iter Writer.

(** ** From memory *)

(** [d_inline] is the address of the [bson_t] that is handed out. *)
Record bson_reader_data_t := mk_rdata { d_data : bytes; d_length : Z; d_offset : Z; d_inline : Z }.

Definition bson_reader_new_from_data (inline : Z) (data : bytes) (length : Z) : bson_reader_data_t :=
  mk_rdata data length 0 inline.

(** The reader, the document or NULL, and [*reached_eof]. *)
Definition _bson_reader_data_read (reader : bson_reader_data_t) : M (bson_reader_data_t * option Z * bool) :=
  if u64 (d_offset reader + 4) <? d_length reader then
    data ← lift (at_off (d_data reader) (d_offset reader));
    blen ← lift (rd_le 4 data 0);
    let blen := s32 blen in
    if blen <? 5 then mret (reader, None, false)
    else if blen >? s32 (d_length reader - d_offset reader) then mret (reader, None, false)
    else
      ok ← bson_init_static (d_inline reader) data (u32 blen);
      if negb ok then mret (reader, None, false)
      else mret (mk_rdata (d_data reader) (d_length reader) (u64 (d_offset reader + blen)) (d_inline reader),
                 Some (d_inline reader), false)
  else mret (reader, None, d_offset reader =? d_length reader).

Definition _bson_reader_data_tell (reader : bson_reader_data_t) : Z := d_offset reader.

Definition bson_reader_reset (reader : bson_reader_data_t) : bson_reader_data_t :=
  mk_rdata (d_data reader) (d_length reader) 0 (d_inline reader).

(** ** From a source *)

Section Handle.
(** The read function: the new state of the handle, the result and the bytes it has stored. *)
Context {H : Type} (read_func : H -> Z -> H * Z * bytes).

Record bson_reader_handle_t := mk_rhandle {
  h_handle : H; h_done : bool; h_failed : bool; h_end : Z; h_len : Z; h_offset : Z; h_bytes_read : Z;
  h_data : bytes; h_inline : Z;
}.

Definition _bson_reader_handle_fill_buffer (r : bson_reader_handle_t) : outcome bson_reader_handle_t :=
  if negb (h_done r) && (h_offset r =? 0) && (h_end r =? 0) then
    match read_func (h_handle r) (h_len r) with
    | (handle, ret, bs) =>
        data ← wrn (h_data r) 0 bs;
        if ret <=? 0 then
          Ret (mk_rhandle handle true (h_failed r) (h_end r) (h_len r) (h_offset r) (h_bytes_read r) data (h_inline r))
        else
          Ret (mk_rhandle handle (h_done r) (h_failed r) ret (h_len r) (h_offset r) (u64 (h_bytes_read r + ret)) data (h_inline r))
    end
  else
    valid ← rdn (h_data r) (h_offset r) (u64 (h_end r - h_offset r));
    data ← wrn (h_data r) 0 valid;
    let end_ := u64 (h_end r - h_offset r) in
    match read_func (h_handle r) (u64 (h_len r - end_)) with
    | (handle, ret, bs) =>
        data ← wrn data end_ bs;
        let r' := if ret <=? 0
                  then mk_rhandle handle true (ret <? 0) end_ (h_len r) 0 (h_bytes_read r) data (h_inline r)
                  else mk_rhandle handle (h_done r) (h_failed r) (u64 (end_ + ret)) (h_len r) 0 (u64 (h_bytes_read r + ret))
                         data (h_inline r) in
        if h_end r' <=? h_len r' then Ret r' else Abort
    end.

Definition bson_reader_new_from_handle (handle : H) (inline : Z) : outcome bson_reader_handle_t :=
  _bson_reader_handle_fill_buffer (mk_rhandle handle false false 0 1024 0 0 (replicate 1024 0) inline).

Definition _bson_reader_handle_grow_buffer (r : bson_reader_handle_t) : bson_reader_handle_t :=
  let size := u64 (h_len r * 2) in
  mk_rhandle (h_handle r) (h_done r) (h_failed r) (h_end r) size (h_offset r) (h_bytes_read r)
    (bson_realloc (Some (h_data r)) size) (h_inline r).

Definition _bson_reader_handle_tell (r : bson_reader_handle_t) : Z := h_bytes_read r - h_end r + h_offset r.

Definition set_offset (r : bson_reader_handle_t) (n : Z) : bson_reader_handle_t :=
  mk_rhandle (h_handle r) (h_done r) (h_failed r) (h_end r) (h_len r) n (h_bytes_read r) (h_data r) (h_inline r).

Fixpoint _bson_reader_handle_read (fuel : nat) (r : bson_reader_handle_t) : M (bson_reader_handle_t * option Z * bool) :=
  match fuel with
  | O => lift Fuel
  | S fuel =>
      if h_done r then mret (r, None, h_done r && negb (h_failed r))
      else if u64 (h_end r - h_offset r) <? 4 then
        r ← lift (_bson_reader_handle_fill_buffer r);
        _bson_reader_handle_read fuel r
      else
        blen ← lift (rd_le 4 (h_data r) (h_offset r));
        let blen := s32 blen in
        if blen <? 5 then mret (r, None, false)
        else if blen >? s32 (h_end r - h_offset r) then
          let r := if blen >? s32 (h_len r) then _bson_reader_handle_grow_buffer r else r in
          r ← lift (_bson_reader_handle_fill_buffer r);
          _bson_reader_handle_read fuel r
        else
          data ← lift (at_off (h_data r) (h_offset r));
          ok ← bson_init_static (h_inline r) data (u32 blen);
          if negb ok then mret (r, None, false)
          else mret (set_offset r (u64 (h_offset r + blen)), Some (h_inline r), false)
  end.

End Handle.
Arguments bson_reader_handle_t : clear implicits.

(** Either kind of reader. *)
Inductive bson_reader_t (H : Type) :=
| ReaderHandle (r : bson_reader_handle_t H)
| ReaderData (r : bson_reader_data_t).
Arguments ReaderHandle {H} r.
Arguments ReaderData {H} r.

Definition bson_reader_read {H} (read_func : H -> Z -> H * Z * bytes) (fuel : nat) (reader : bson_reader_t H)
    : M (bson_reader_t H * option Z * bool) :=
  match reader with
  | ReaderHandle r => x ← _bson_reader_handle_read read_func fuel r; match x with (r, b, eof) => mret (ReaderHandle r, b, eof) end
  | ReaderData r => x ← _bson_reader_data_read r; match x with (r, b, eof) => mret (ReaderData r, b, eof) end
  end.

Definition bson_reader_tell {H} (reader : bson_reader_t H) : Z :=
  match reader with ReaderHandle r => _bson_reader_handle_tell r | ReaderData r => _bson_reader_data_tell r end.

(** ** The contract of a source *)

(** [stream h] is what the handle will still deliver: each read of [n > 0] bytes delivers one
    to [n] of them, and 0 at the end. *)
Class ByteSource {H : Type} (read_func : H -> Z -> H * Z * bytes) := {
  stream : H -> bytes;
  read_some h n : 0 < n -> stream h <> [] ->
    exists h' bs, read_func h n = (h', zlen bs, bs) /\ 1 <= zlen bs <= n /\ stream h = bs ++ stream h';
  read_end h n : 0 < n -> stream h = [] -> exists h', read_func h n = (h', 0, []) /\ stream h' = [];
}.

(** Packets: a read delivers at most the rest of the first packet. *)
Fixpoint packet_read (packets : list bytes) (n : Z) : list bytes * Z * bytes :=
  match packets with
  | [] => ([], 0, [])
  | [] :: packets => packet_read packets n
  | p :: packets =>
      if zlen p <=? n then (packets, zlen p, p)
      else (drop (Z.to_nat n) p :: packets, n, take (Z.to_nat n) p)
  end.

#[export] Program Instance packet_source : ByteSource packet_read := {| stream := @concat Z |}.
Next Obligation.
  intros packets n Hn Hs. induction packets as [|[|b p] packets IH]; [done|apply IH, Hs|]. cbn [packet_read].
  destruct (zlen (b :: p) <=? n) eqn:E.
  - exists packets, (b :: p). pose proof (zlen_nonneg p). rewrite zlen_cons in *. repeat split; lia.
  - exists (drop (Z.to_nat n) (b :: p) :: packets), (take (Z.to_nat n) (b :: p)).
    assert (zlen (take (Z.to_nat n) (b :: p)) = n) as L by (rewrite zlen_take; lia). rewrite L. split; [reflexivity|].
    split; [lia|]. cbn [concat]. rewrite app_assoc, take_drop. reflexivity.
Qed.
Next Obligation.
  intros packets n Hn Hs. exists []. split; [|reflexivity]. induction packets as [|[|b p] packets IH]; [done|apply IH, Hs|discriminate].
Qed.

(** ** The document that is handed out *)

Lemma lift_run {A} (o : outcome A) a m : o = Ret a -> lift o m = Ret (m, a).
Proof. intros ->. reflexivity. Qed.

(** [inline] is a read-only view of [doc]. *)
Definition hands_out (m : mem) (inline : Z) (doc : bytes) : Prop := bson_get_data inline m = Ret (m, doc).

Lemma rd_len_doc doc rest : is_doc doc -> rd_le 4 (doc ++ rest) 0 = Ret (zlen doc).
Proof.
  intros (H5 & Hlen & _). unfold rd_le. rewrite rdn_ret by (rewrite ?zlen_app; pose proof (zlen_nonneg rest); lia). rewrite bind_ret.
  change (Z.to_nat 0) with O. rewrite drop_0. rewrite take_app_le by zl. change (Z.to_nat 4) with 4%nat. rewrite Hlen. reflexivity.
Qed.

Lemma init_static_doc m b doc rest :
  is_doc doc -> zlen doc <= INT_MAX -> exists m', bson_init_static b (doc ++ rest) (zlen doc) m = Ret (m', true) /\ hands_out m' b doc.
Proof.
  intros (H5 & Hlen & Hlast) Hmax. unfold bson_init_static.
  replace ((zlen doc <? 5) || (zlen doc >? INT_MAX)) with false by lia.
  pose proof (rd_len_doc doc rest (conj H5 (conj Hlen Hlast))) as E1.
  assert (rd (doc ++ rest) (zlen doc - 1) = Ret 0) as E2.
  { rewrite rd_app_l by lia. unfold rd. replace (zlen doc - 1 <? 0) with false by lia.
    replace (Z.to_nat (zlen doc - 1)) with (pred (length doc)) by zl. rewrite <- last_lookup, Hlast. reflexivity. }
  assert (rdn (doc ++ rest) 0 (zlen doc) = Ret doc) as E3.
  { rewrite rdn_ret by (rewrite ?zlen_app; pose proof (zlen_nonneg rest); lia). change (Z.to_nat 0) with O. rewrite drop_0.
    rewrite take_app_length' by zl. reflexivity. }
  rewrite (run_bind _ _ _ _ _ (lift_run _ _ m E1)), Z.eqb_refl. cbn [negb].
  rewrite (run_bind _ _ _ _ _ (lift_run _ _ m E2)). cbn [Z.eqb negb]. rewrite (run_bind _ _ _ _ _ (lift_run _ _ m E3)).
  eexists. split; [reflexivity|]. unfold hands_out, bson_get_data.
  erewrite run_bind; cycle 1.
  { unfold _bson_data. erewrite run_bind; [|apply run_get_obj; cbn; apply lookup_insert_eq]. reflexivity. }
  unfold load, mbind, M_bind, get_cell. cbn [a_buf a_offset cells]. rewrite lookup_insert_eq. cbn [c_buf].
  unfold lift. rewrite rdn_ret by lia. cbn [mbind outcome_bind]. change (Z.to_nat 0) with O. rewrite drop_0, take_ge by zl. reflexivity.
Qed.

(** ** Reading from memory *)

Lemma at_off_mid (pre l : bytes) p : p = zlen pre -> at_off (pre ++ l) p = Ret l.
Proof.
  intros ->. unfold at_off. pose proof (zlen_nonneg pre). pose proof (zlen_nonneg l).
  rewrite rdn_ret by (rewrite ?zlen_app; lia). rewrite zlen_app.
  rewrite drop_app_length' by zl. rewrite take_ge by zl. reflexivity.
Qed.

Lemma data_read_doc r m pre doc rest slack :
  d_data r = pre ++ doc ++ rest ++ slack -> d_offset r = zlen pre -> d_length r = zlen (pre ++ doc ++ rest) -> d_length r <= INT_MAX ->
  is_doc doc ->
  exists m', _bson_reader_data_read r m =
      Ret (m', (mk_rdata (d_data r) (d_length r) (zlen (pre ++ doc)) (d_inline r), Some (d_inline r), false))
    /\ hands_out m' (d_inline r) doc.
Proof.
  intros Hd Ho Hl Hmax D. pose proof (zlen_nonneg pre). pose proof (zlen_nonneg rest). pose proof D as (H5 & _).
  unfold INT_MAX in *. rewrite !zlen_app in Hl. unfold _bson_reader_data_read. rewrite u64_id by lia.
  replace (d_offset r + 4 <? d_length r) with true by lia.
  assert (at_off (d_data r) (d_offset r) = Ret (doc ++ rest ++ slack)) as E1 by (rewrite Hd; apply at_off_mid, Ho).
  rewrite (run_bind _ _ _ _ _ (lift_run _ _ m E1)), (run_bind _ _ _ _ _ (lift_run _ _ m (rd_len_doc doc (rest ++ slack) D))). cbv zeta.
  rewrite s32_id by lia. replace (zlen doc <? 5) with false by lia. rewrite s32_id by lia.
  replace (zlen doc >? d_length r - d_offset r) with false by lia. rewrite u32_id by lia.
  destruct (init_static_doc m (d_inline r) doc (rest ++ slack) D) as (m' & E2 & Hh); [unfold INT_MAX; lia|].
  exists m'. split; [|exact Hh]. rewrite (run_bind _ _ _ _ _ E2). cbn [negb]. rewrite u64_id by lia. rewrite Ho, <- zlen_app. reflexivity.
Qed.

(** A caller that reads to the end: the documents and the last [*reached_eof]. *)
Fixpoint read_all {H} (read_func : H -> Z -> H * Z * bytes) (n fuel : nat) (reader : bson_reader_t H)
    : M (list bytes * bson_reader_t H * bool) :=
  match n with
  | O => lift Fuel
  | S n =>
      x ← bson_reader_read read_func fuel reader;
      match x with
      | (reader, None, eof) => mret ([], reader, eof)
      | (reader, Some b, _) =>
          d ← bson_get_data b;
          y ← read_all read_func n fuel reader;
          match y with (docs, reader, eof) => mret (d :: docs, reader, eof) end
      end
  end.

Lemma data_read_all {H} (rf : H -> Z -> H * Z * bytes) fuel docs slack : forall r m pre n,
  d_data r = pre ++ concat docs ++ slack -> d_offset r = zlen pre -> d_length r = zlen (pre ++ concat docs) -> d_length r <= INT_MAX ->
  Forall is_doc docs -> (length docs < n)%nat ->
  exists m' r', read_all rf n fuel (ReaderData r) m = Ret (m', (docs, ReaderData r', true)) /\ d_offset r' = d_length r.
Proof.
  induction docs as [|d docs IH]; intros r m pre n Hd Ho Hl Hmax D Hn; (destruct n as [|n]; [cbn in Hn; lia|]); cbn [read_all bson_reader_read].
  - exists m, r. unfold _bson_reader_data_read, INT_MAX in *. cbn [concat] in *. rewrite app_nil_r in *. pose proof (zlen_nonneg pre).
    rewrite u64_id by lia. replace (d_offset r + 4 <? d_length r) with false by lia.
    replace (d_offset r =? d_length r) with true by lia. split; [reflexivity|lia].
  - apply Forall_cons in D as [D1 D]. cbn [concat] in *.
    rewrite <- app_assoc in Hd. destruct (data_read_doc r m pre d (concat docs) slack Hd Ho Hl Hmax D1) as (m1 & E1 & Hh).
    erewrite run_bind; [|rewrite (run_bind _ _ _ _ _ E1); reflexivity]. cbv iota. rewrite (run_bind _ _ _ _ _ Hh).
    destruct (IH (mk_rdata (d_data r) (d_length r) (zlen (pre ++ d)) (d_inline r)) m1 (pre ++ d) n) as (m2 & r2 & E2 & Ho2);
      [cbn; rewrite Hd, app_assoc; reflexivity|reflexivity|cbn; rewrite Hl, app_assoc; reflexivity|exact Hmax|exact D|cbn in Hn; lia|].
    exists m2, r2. rewrite (run_bind _ _ _ _ _ E2). split; [reflexivity|exact Ho2].
Qed.

(** ** Reading from a source *)

Section Stream.
Context {H : Type} (rf : H -> Z -> H * Z * bytes) {BS : ByteSource rf}.
Implicit Types r : bson_reader_handle_t H.

(** The bytes in the buffer that are not handed out yet, and all that is to come. *)
Definition slice r : bytes := take (Z.to_nat (h_end r - h_offset r)) (drop (Z.to_nat (h_offset r)) (h_data r)).
Definition remaining r : bytes := slice r ++ stream (h_handle r).

Record h_ok r : Prop := mk_h_ok {
  ho_range : 0 <= h_offset r <= h_end r;
  ho_end : h_end r <= h_len r;
  ho_len : h_len r = zlen (h_data r);
  ho_size : 1024 <= h_len r < 2 ^ 31;
  ho_failed : h_failed r = false;
  ho_read : 0 <= h_bytes_read r /\ h_bytes_read r + zlen (stream (h_handle r)) < 2 ^ 63;
}.

Lemma zlen_slice r : h_ok r -> zlen (slice r) = h_end r - h_offset r.
Proof. intros [R1 R2 R3 _ _ _]. unfold slice. rewrite zlen_take, zlen_drop. lia. Qed.

Lemma wrn_prefix (valid X bs : bytes) p :
  p = zlen valid -> zlen bs <= zlen X -> wrn (valid ++ X) p bs = Ret (valid ++ bs ++ drop (length bs) X).
Proof.
  intros -> L. rewrite <- (take_drop (length bs) X) at 1. apply wrn_mid; [reflexivity|]. rewrite zlen_take. unfold zlen in *. lia.
Qed.

(** What a read that delivers [bs] does, from either branch. *)
Lemma fill_bytes r h' bs :
  h_ok r -> h_done r = false -> (forall n, 0 < n -> n = h_len r - (h_end r - h_offset r) -> rf (h_handle r) n = (h', zlen bs, bs)) ->
  h_end r - h_offset r < h_len r -> zlen bs <= h_len r - (h_end r - h_offset r) -> 0 <= h_bytes_read r + zlen bs < 2 ^ 63 ->
  exists r', _bson_reader_handle_fill_buffer rf r = Ret r' /\ h_handle r' = h' /\ slice r' = slice r ++ bs /\ h_len r' = h_len r
    /\ zlen (h_data r') = h_len r /\ h_offset r' = 0 /\ h_end r' = h_end r - h_offset r + zlen bs /\ h_failed r' = false
    /\ h_done r' = (zlen bs =? 0) /\ h_inline r' = h_inline r /\ h_bytes_read r' = h_bytes_read r + zlen bs.
Proof.
  intros O Hd Hrf Hroom Hbs Hbr. pose proof (zlen_slice r O) as Ls. destruct O as [R1 R2 R3 R4 R5 R6]. pose proof (zlen_nonneg bs).
  assert (forall r' tail, h_data r' = slice r ++ bs ++ tail -> h_offset r' = 0 -> h_end r' = h_end r - h_offset r + zlen bs ->
            slice r' = slice r ++ bs) as Sl.
  { intros r' tail Ed Eo Ee. unfold slice at 1. rewrite Ed, Eo, Ee. change (Z.to_nat 0) with O.
    rewrite drop_0, app_assoc. apply take_app_length'. unfold zlen in *. rewrite length_app. lia. }
  unfold _bson_reader_handle_fill_buffer. rewrite Hd. cbn [negb andb].
  destruct ((h_offset r =? 0) && (h_end r =? 0)) eqn:E0.
  - assert (h_offset r = 0 /\ h_end r = 0) as [O0 E00] by lia.
    assert (slice r = []) as S0 by (apply nil_length_inv; unfold zlen in Ls; lia).
    rewrite (Hrf (h_len r)) by lia. pose proof (wrn_prefix [] (h_data r) bs 0 eq_refl ltac:(lia)) as W. cbn [app] in W.
    rewrite W, bind_ret. rewrite S0 in *. 
    destruct (zlen bs <=? 0) eqn:El.
    + assert (bs = []) as -> by (apply nil_length_inv; unfold zlen in *; lia). eexists. split; [reflexivity|]. unfold slice.
      cbn [h_handle h_end h_offset h_data h_len h_failed h_done h_inline h_bytes_read].
      change ([] ++ drop (length []) (h_data r)) with (h_data r). rewrite E00, O0. change (zlen (@nil Z)) with 0.
      split; [reflexivity|]. split; [reflexivity|]. repeat split; (assumption || reflexivity || lia).
    + eexists. split; [reflexivity|]. cbn [h_handle h_end h_offset h_data h_len h_failed h_done h_inline h_bytes_read].
      rewrite u64_id by lia. replace (zlen bs =? 0) with false by lia.
      split; [reflexivity|]. split; [apply (Sl _ (drop (length bs) (h_data r))); cbn; (reflexivity || lia)|].
      split; [reflexivity|]. split; [rewrite zlen_app, zlen_drop; unfold zlen in *; lia|]. repeat split; assumption || lia.
  - rewrite (u64_id (h_end r - h_offset r)) by lia.
    assert (rdn (h_data r) (h_offset r) (h_end r - h_offset r) = Ret (slice r)) as -> by (apply rdn_ret; lia). rewrite bind_ret.
    pose proof (wrn_prefix [] (h_data r) (slice r) 0 eq_refl ltac:(lia)) as W. cbn [app] in W. rewrite W, bind_ret. cbv zeta.
    rewrite (u64_id (h_len r - (h_end r - h_offset r))) by lia. rewrite (Hrf (h_len r - (h_end r - h_offset r))) by lia.
    set (X := drop (length (slice r)) (h_data r)) in *.
    assert (zlen X = h_len r - zlen (slice r)) as LX by (unfold X; rewrite zlen_drop; unfold zlen in *; lia).
    rewrite (wrn_prefix (slice r) X bs (h_end r - h_offset r)) by lia. rewrite bind_ret.
    assert (zlen (slice r ++ bs ++ drop (length bs) X) = h_len r) as LD by (rewrite !zlen_app, zlen_drop; unfold zlen in *; lia).
    destruct (zlen bs <=? 0) eqn:El; cbn [h_end h_len].
    + assert (bs = []) as -> by (apply nil_length_inv; unfold zlen in *; lia). replace (h_end r - h_offset r <=? h_len r) with true by lia.
      eexists. split; [reflexivity|]. cbn [h_handle h_end h_offset h_data h_len h_failed h_done h_inline h_bytes_read].
      change (zlen (@nil Z)) with 0 in *. split; [reflexivity|]. split; [apply (Sl _ X); cbn [h_data h_offset h_end]; (reflexivity || lia)|].
      repeat split; (assumption || reflexivity || lia).
    + rewrite u64_id by lia. replace (h_end r - h_offset r + zlen bs <=? h_len r) with true by lia.
      eexists. split; [reflexivity|]. cbn [h_handle h_end h_offset h_data h_len h_failed h_done h_inline h_bytes_read].
      split; [reflexivity|]. split; [apply (Sl _ (drop (length bs) X)); cbn [h_data h_offset h_end]; (reflexivity || lia)|]. rewrite u64_id by lia.
      replace (zlen bs =? 0) with false by lia. repeat split; (assumption || reflexivity || lia).
Qed.

Lemma fill_more r :
  h_ok r -> h_done r = false -> stream (h_handle r) <> [] -> h_end r - h_offset r < h_len r ->
  exists r', _bson_reader_handle_fill_buffer rf r = Ret r' /\ h_ok r' /\ h_done r' = false /\ remaining r' = remaining r
    /\ (length (stream (h_handle r')) < length (stream (h_handle r)))%nat /\ h_inline r' = h_inline r
    /\ _bson_reader_handle_tell r' = _bson_reader_handle_tell r.
Proof.
  intros O Hd Hs Hroom. pose proof (zlen_slice r O) as Ls. pose proof O as [R1 R2 R3 R4 R5 R6].
  destruct (read_some (h_handle r) (h_len r - (h_end r - h_offset r))) as (h' & bs & Erf & Hbs & Est); [lia|exact Hs|].
  assert (zlen (stream (h_handle r)) = zlen bs + zlen (stream h')) as Lst by (rewrite Est; apply zlen_app).
  pose proof (zlen_nonneg (stream h')).
  destruct (fill_bytes r h' bs O Hd) as (r' & E & Eh & Es & El & Ed & Eo & Ee & Ef & Edn & Ei & Ebr);
    [intros n _ ->; exact Erf|lia|lia|lia|].
  exists r'. split; [exact E|].
  split; [split; [lia|lia|lia|lia|exact Ef|rewrite Eh; lia]|].
  split; [rewrite Edn; lia|]. split; [unfold remaining; rewrite Es, Eh, Est, app_assoc; reflexivity|].
  split; [rewrite Eh; unfold zlen in *; lia|]. split; [exact Ei|]. unfold _bson_reader_handle_tell. lia.
Qed.

Lemma fill_end r :
  h_ok r -> h_done r = false -> stream (h_handle r) = [] -> h_end r - h_offset r < h_len r ->
  exists r', _bson_reader_handle_fill_buffer rf r = Ret r' /\ h_done r' = true /\ h_failed r' = false /\ slice r' = slice r
    /\ h_inline r' = h_inline r
    /\ _bson_reader_handle_tell r' = _bson_reader_handle_tell r.
Proof.
  intros O Hd Hs Hroom. pose proof O as [R1 R2 R3 R4 R5 R6].
  destruct (read_end (h_handle r) (h_len r - (h_end r - h_offset r))) as (h' & Erf & _); [lia|exact Hs|].
  pose proof (zlen_nonneg (stream (h_handle r))).
  destruct (fill_bytes r h' [] O Hd) as (r' & E & Eh & Es & El & Ed & Eo & Ee & Ef & Edn & Ei & Ebr);
    [intros n _ ->; exact Erf|lia|change (zlen (@nil Z)) with 0; lia|change (zlen (@nil Z)) with 0; lia|].
  change (zlen (@nil Z)) with 0 in *. exists r'. split; [exact E|]. split; [exact Edn|]. split; [exact Ef|].
  split; [rewrite Es, app_nil_r; reflexivity|]. split; [exact Ei|]. unfold _bson_reader_handle_tell. lia.
Qed.

Lemma buffer_grow_ok r :
  h_ok r -> h_len r < 2 ^ 30 ->
  h_ok (_bson_reader_handle_grow_buffer r) /\ remaining (_bson_reader_handle_grow_buffer r) = remaining r
  /\ slice (_bson_reader_handle_grow_buffer r) = slice r.
Proof.
  intros [R1 R2 R3 R4 R5 R6] Hl. unfold _bson_reader_handle_grow_buffer. rewrite u64_id by lia.
  set (data := bson_realloc _ _). assert (exists ext, data = h_data r ++ ext /\ zlen data = h_len r * 2) as (ext & Ed & Ld).
  { destruct (bson_realloc_ctx_ok (h_data r) (h_len r * 2)) as (ext & E1 & E2); [lia|]. exists ext.
    unfold bson_realloc_ctx in E1. fold data in E1. rewrite E1 in *. split; [reflexivity|exact E2]. }
  assert (slice (mk_rhandle (h_handle r) (h_done r) (h_failed r) (h_end r) (h_len r * 2) (h_offset r) (h_bytes_read r) data (h_inline r))
          = slice r) as Es.
  { unfold slice. cbn [h_end h_offset h_data]. rewrite Ed, drop_app_le by zl. apply take_app_le. rewrite length_drop. zl. }
  split; [split; cbn; (assumption || lia)|]. split; [unfold remaining; rewrite Es; reflexivity|exact Es].
Qed.

(** [r] after the optional growth of a round that needs [blen] bytes. *)
Lemma grow_for r blen :
  h_ok r -> blen <= 2 ^ 30 -> h_end r - h_offset r < blen ->
  let r1 := if blen >? s32 (h_len r) then _bson_reader_handle_grow_buffer r else r in
  h_ok r1 /\ remaining r1 = remaining r /\ slice r1 = slice r /\ h_done r1 = h_done r /\ h_handle r1 = h_handle r
  /\ h_inline r1 = h_inline r /\ h_end r1 - h_offset r1 < h_len r1 /\ _bson_reader_handle_tell r1 = _bson_reader_handle_tell r.
Proof.
  intros O Hb Hs. pose proof O as [R1 R2 R3 R4 R5 R6]. cbv zeta. rewrite s32_id by lia. destruct (blen >? h_len r) eqn:E.
  - destruct (buffer_grow_ok r O) as (O1 & Er & Es); [lia|]. repeat (split; [assumption || reflexivity|]). cbn. rewrite u64_id by lia. split; [lia|reflexivity].
  - repeat (split; [assumption || reflexivity|]). split; [lia|reflexivity].
Qed.

(** The length field, once four bytes are there. *)
Lemma slice_len r l :
  h_ok r -> 4 <= zlen (slice r) -> remaining r = l -> 0 <= le_val (take 4 l) < 2 ^ 31 ->
  rd_le 4 (h_data r) (h_offset r) = Ret (le_val (take 4 l)).
Proof.
  intros O L4 <- Hv. pose proof (zlen_slice r O) as Ls. destruct O as [R1 R2 R3 R4 R5 R6].
  unfold rd_le. rewrite rdn_ret by lia. rewrite bind_ret. f_equal. f_equal. unfold remaining.
  rewrite take_app_le by zl. unfold slice. rewrite take_take. f_equal. lia.
Qed.

(** What the buffer holds from the offset on. *)
Lemma slice_at r : h_ok r -> exists tail, at_off (h_data r) (h_offset r) = Ret (slice r ++ tail).
Proof.
  intros [R1 R2 R3 R4 R5 R6]. exists (drop (Z.to_nat (h_end r - h_offset r)) (drop (Z.to_nat (h_offset r)) (h_data r))).
  unfold slice. rewrite take_drop. unfold at_off. rewrite rdn_ret by lia. f_equal. apply take_ge. rewrite length_drop. zl.
Qed.

(** One more round of the loop when the buffer does not hold enough. *)
Lemma read_round fuel r m l :
  h_ok r -> h_done r = false -> remaining r = l ->
  (zlen (slice r) < 4 \/ (4 <= zlen (slice r) /\ zlen (slice r) < le_val (take 4 l) /\ 5 <= le_val (take 4 l) <= 2 ^ 30)) ->
  exists r1, h_ok r1 /\ h_done r1 = false /\ remaining r1 = l /\ h_handle r1 = h_handle r /\ h_inline r1 = h_inline r
    /\ h_end r1 - h_offset r1 < h_len r1 /\ slice r1 = slice r /\ _bson_reader_handle_tell r1 = _bson_reader_handle_tell r
    /\ _bson_reader_handle_read rf (S fuel) r m =
       (r ← lift (_bson_reader_handle_fill_buffer rf r1); _bson_reader_handle_read rf fuel r) m.
Proof.
  intros O Hd Hl Hc. pose proof (zlen_slice r O) as Ls. pose proof O as [R1 R2 R3 R4 R5 R6]. cbn [_bson_reader_handle_read]. rewrite Hd.
  rewrite u64_id by lia. destruct (h_end r - h_offset r <? 4) eqn:E4.
  - exists r. repeat (split; [assumption || reflexivity|]). split; [lia|]. repeat (split; [reflexivity|]). reflexivity.
  - destruct Hc as [Hc|(H4 & Hlt & H5)]; [lia|].
    destruct (grow_for r (le_val (take 4 l)) O ltac:(lia) ltac:(lia)) as (G1 & G2 & G3 & G4 & G5 & G6 & G7 & G8). cbv zeta in *.
    rewrite (run_bind _ _ _ _ _ (lift_run _ _ m (slice_len r l O ltac:(lia) Hl ltac:(lia)))). cbv zeta.
    rewrite (s32_id (le_val (take 4 l))) by lia. replace (le_val (take 4 l) <? 5) with false by lia.
    rewrite (s32_id (h_end r - h_offset r)) by lia. replace (le_val (take 4 l) >? h_end r - h_offset r) with true by lia.
    eexists. split; [exact G1|]. split; [congruence|]. split; [congruence|]. split; [exact G5|]. split; [exact G6|].
    split; [exact G7|]. split; [exact G3|]. split; [exact G8|]. reflexivity.
Qed.

Lemma doc_len doc rest : is_doc doc -> le_val (take 4 (doc ++ rest)) = zlen doc.
Proof. intros (H5 & Hl & _). rewrite take_app_le by zl. exact Hl. Qed.

(** A document is read, however its bytes arrive. *)
Lemma handle_read_doc n : forall fuel r m doc rest,
  (length (stream (h_handle r)) <= n)%nat -> (n < fuel)%nat -> h_ok r -> h_done r = false -> remaining r = doc ++ rest -> is_doc doc ->
  zlen doc <= 2 ^ 30 ->
  exists m' r', _bson_reader_handle_read rf fuel r m = Ret (m', (r', Some (h_inline r), false)) /\ hands_out m' (h_inline r) doc
    /\ h_ok r' /\ h_done r' = false /\ remaining r' = rest /\ h_inline r' = h_inline r
    /\ (length (stream (h_handle r')) <= length (stream (h_handle r)))%nat
    /\ _bson_reader_handle_tell r' = _bson_reader_handle_tell r + zlen doc.
Proof.
  induction n as [n IH] using lt_wf_ind. intros fuel r m doc rest Hn Hf O Hd Hr D Hsz.
  destruct fuel as [|fuel]; [lia|]. pose proof (zlen_slice r O) as Ls. pose proof O as [R1 R2 R3 R4 R5 R6]. pose proof D as (H5 & _).
  destruct (decide (zlen doc <= zlen (slice r))) as [Hin|Hout].
  - (* the buffer holds the document *)
    assert (exists s, slice r = doc ++ s /\ rest = s ++ stream (h_handle r)) as (s & Es & Er).
    { unfold remaining in Hr. exists (drop (length doc) (slice r)).
      pose proof (f_equal (take (length doc)) Hr) as Ht. rewrite take_app_le, take_app_length in Ht by zl.
      pose proof (f_equal (drop (length doc)) Hr) as Hdr. rewrite drop_app_le, drop_app_length in Hdr by zl.
      split; [rewrite <- Ht at 1; symmetry; apply take_drop|symmetry; exact Hdr]. }
    cbn [_bson_reader_handle_read]. rewrite Hd, u64_id by lia. replace (h_end r - h_offset r <? 4) with false by lia.
    pose proof (doc_len doc rest D) as El.
    rewrite (run_bind _ _ _ _ _ (lift_run _ _ m (slice_len r _ O ltac:(lia) Hr ltac:(lia)))). cbv zeta. rewrite El.
    rewrite s32_id by lia. replace (zlen doc <? 5) with false by lia. rewrite s32_id by lia.
    replace (zlen doc >? h_end r - h_offset r) with false by lia. destruct (slice_at r O) as (tail & Ea).
    rewrite (run_bind _ _ _ _ _ (lift_run _ _ m Ea)), Es, <- app_assoc, u32_id by lia.
    destruct (init_static_doc m (h_inline r) doc (s ++ tail) D) as (m' & E2 & Hh); [unfold INT_MAX; lia|].
    rewrite (run_bind _ _ _ _ _ E2). cbn [negb]. rewrite u64_id by lia. exists m', (set_offset r (h_offset r + zlen doc)).
    split; [reflexivity|]. split; [exact Hh|]. split; [split; cbn; (assumption || lia)|]. split; [exact Hd|].
    split; [|split; [reflexivity|split; [cbn; lia|unfold _bson_reader_handle_tell; cbn; lia]]].
    unfold remaining. rewrite Er. cbn [set_offset h_handle]. f_equal. unfold slice. cbn [set_offset h_end h_offset h_data].
    replace (Z.to_nat (h_offset r + zlen doc)) with (Z.to_nat (h_offset r) + length doc)%nat by zl. rewrite <- drop_drop.
    transitivity (drop (length doc) (slice r)); [|rewrite Es; apply drop_app_length]. unfold slice. rewrite skipn_firstn_comm. f_equal. zl.
  - (* more bytes are needed *)
    destruct (read_round fuel r m (doc ++ rest) O Hd Hr) as (r1 & O1 & D1 & Rr & Hh & Hi & Hroom & Es & Ht & ->).
    { rewrite (doc_len doc rest D). lia. }
    assert (stream (h_handle r1) <> []) as Hs.
    { intros E. unfold remaining in Rr. rewrite E, app_nil_r, Es in Rr. pose proof (f_equal zlen Rr) as L. rewrite zlen_app in L.
      pose proof (zlen_nonneg rest). lia. }
    destruct (fill_more r1 O1 D1 Hs Hroom) as (r2 & E2 & O2 & D2 & Rr2 & Hlt & Hi2 & Ht2).
    rewrite (run_bind _ _ _ _ _ (lift_run _ _ m E2)). rewrite Hh in Hlt.
    destruct (IH (length (stream (h_handle r2))) ltac:(lia) fuel r2 m doc rest) as (m' & r' & E & Hho & O' & D' & Rr' & Hi' & Hl' & Ht');
      [lia|lia|exact O2|exact D2|congruence|exact D|exact Hsz|].
    exists m', r'. rewrite Hi2, Hi in *. repeat (split; [assumption|]). split; [lia|]. lia.
Qed.

(** The beginning of a document that never comes to its end; nothing at all is one, too. *)
Definition incomplete (l : bytes) : Prop := zlen l < 4 \/ (zlen l < le_val (take 4 l) /\ 5 <= le_val (take 4 l) <= 2 ^ 30).

Lemma handle_read_end n : forall fuel r m l,
  (length (stream (h_handle r)) <= n)%nat -> (n + 1 < fuel)%nat -> h_ok r -> h_done r = false -> remaining r = l -> incomplete l ->
  exists r', _bson_reader_handle_read rf fuel r m = Ret (m, (r', None, true)) /\ h_done r' = true
    /\ _bson_reader_handle_tell r' = _bson_reader_handle_tell r.
Proof.
  induction n as [n IH] using lt_wf_ind. intros fuel r m l Hn Hf O Hd Hr Hi.
  destruct fuel as [|fuel]; [lia|].
  assert (zlen (slice r) <= zlen l) as Lsl by (rewrite <- Hr; unfold remaining; rewrite zlen_app; pose proof (zlen_nonneg (stream (h_handle r))); lia).
  destruct (read_round fuel r m l O Hd Hr) as (r1 & O1 & D1 & Rr & Hh & _ & Hroom & Es & Ht & ->); [destruct Hi; lia|].
  destruct (stream (h_handle r1)) as [|b st] eqn:Est.
  - destruct (fill_end r1 O1 D1 Est Hroom) as (r2 & E2 & D2 & F2 & _ & _ & Ht2). rewrite (run_bind _ _ _ _ _ (lift_run _ _ m E2)).
    destruct fuel as [|fuel]; [lia|]. cbn [_bson_reader_handle_read]. rewrite D2, F2. exists r2. split; [reflexivity|]. split; [exact D2|]. lia.
  - destruct (fill_more r1 O1 D1) as (r2 & E2 & O2 & D2 & Rr2 & Hlt & Hi2 & Ht2); [rewrite Est; discriminate|exact Hroom|].
    rewrite (run_bind _ _ _ _ _ (lift_run _ _ m E2)). rewrite Hh in Hlt.
    destruct (IH (length (stream (h_handle r2))) ltac:(lia) fuel r2 m l) as (r' & E & D' & Ht');
      [lia|lia|exact O2|exact D2|congruence|exact Hi|].
    exists r'. split; [exact E|]. split; [exact D'|]. lia.
Qed.

Lemma handle_read_all fuel docs part : forall r m n,
  h_ok r -> h_done r = false -> remaining r = concat docs ++ part -> Forall (fun d => is_doc d /\ zlen d <= 2 ^ 30) docs ->
  incomplete part -> (length docs < n)%nat -> (length (stream (h_handle r)) + 1 < fuel)%nat ->
  exists m' r', read_all rf n fuel (ReaderHandle r) m = Ret (m', (docs, ReaderHandle r', true))
    /\ _bson_reader_handle_tell r' = _bson_reader_handle_tell r + zlen (concat docs).
Proof.
  induction docs as [|d docs IH]; intros r m n O Hd Hr D Hi Hn Hf; (destruct n as [|n]; [cbn in Hn; lia|]); cbn [read_all bson_reader_read].
  - destruct (handle_read_end _ fuel r m part (Nat.le_refl _) ltac:(lia) O Hd Hr Hi) as (r' & E & _ & Ht). exists m, r'.
    erewrite run_bind; [|rewrite (run_bind _ _ _ _ _ E); reflexivity]. cbn [concat]. rewrite zlen_nil. split; [reflexivity|lia].
  - apply Forall_cons in D as [[D1 Hsz] D]. cbn [concat] in *. rewrite <- app_assoc in Hr.
    destruct (handle_read_doc _ fuel r m d _ (Nat.le_refl _) ltac:(lia) O Hd Hr D1 Hsz) as (m1 & r1 & E1 & Hh & O1 & Hd1 & Hr1 & Hi1 & Hl1 & Ht1).
    erewrite run_bind; [|rewrite (run_bind _ _ _ _ _ E1); reflexivity]. cbv iota. rewrite (run_bind _ _ _ _ _ Hh).
    destruct (IH r1 m1 n O1 Hd1 Hr1 D Hi) as (m2 & r2 & E2 & Ht2); [cbn in Hn; lia|lia|].
    exists m2, r2. rewrite (run_bind _ _ _ _ _ E2). split; [reflexivity|]. rewrite zlen_app. lia.
Qed.

(** A new reader has read what it got first, or is at the end of an empty source. *)
Lemma new_from_handle_ok h inline :
  zlen (stream h) < 2 ^ 62 ->
  exists r, bson_reader_new_from_handle rf h inline = Ret r /\ h_inline r = inline /\ _bson_reader_handle_tell r = 0
    /\ ((stream h <> [] /\ h_ok r /\ h_done r = false /\ remaining r = stream h
         /\ (length (stream (h_handle r)) <= length (stream h))%nat)
        \/ (stream h = [] /\ h_done r = true /\ h_failed r = false)).
Proof.
  intros Hs. unfold bson_reader_new_from_handle. set (r0 := mk_rhandle _ _ _ _ _ _ _ _ _). pose proof (zlen_nonneg (stream h)).
  assert (h_ok r0) as O0 by (split; cbn; (reflexivity || lia)).
  assert (remaining r0 = stream h) as Rr0 by reflexivity.
  destruct (stream h) as [|b st] eqn:Es.
  - destruct (fill_end r0 O0 eq_refl Es) as (r & E & D & F & _ & Hi & Ht); [cbn; lia|].
    exists r. split; [exact E|]. split; [exact Hi|]. split; [exact Ht|]. right. auto.
  - destruct (fill_more r0 O0 eq_refl) as (r & E & O & D & Rr & Hl & Hi & Ht); [cbn; rewrite Es; discriminate|cbn; lia|].
    exists r. split; [exact E|]. split; [exact Hi|]. split; [exact Ht|]. left. split; [discriminate|]. split; [exact O|]. split; [exact D|].
    split; [rewrite Rr; exact Rr0|]. cbn [h_handle r0] in Hl. rewrite <- Es. cbn in Hl. lia.
Qed.
End Stream.

Lemma is_doc_doc_bytes body : zlen body + 5 < 2 ^ 32 -> is_doc (doc_bytes body).
Proof.
  intros H. pose proof (zlen_nonneg body). split; [rewrite zlen_doc_bytes; lia|]. split.
  - rewrite zlen_doc_bytes. unfold doc_bytes. rewrite take_app_le by zl. rewrite take_ge by zl. rewrite le_val_bytes.
    change (256 ^ Z.of_nat 4) with (2 ^ 32). apply Z.mod_small. lia.
  - unfold doc_bytes. rewrite app_assoc. apply last_snoc.
Qed.

(** * Properties *)

(** C12: A reader over a byte source hands out the documents of the stream, in order and
    byte for byte, however the source cuts the stream into pieces, and then reports the
    end; it keeps its position at the end of the last document.  The end is also reported
    when the stream breaks off inside a document. *)
Theorem reader_reads_stream {H} (rf : H -> Z -> H * Z * bytes) {BS : ByteSource rf} h inline docs part m n fuel :
  stream h = concat docs ++ part -> Forall (fun d => is_doc d /\ zlen d <= 2 ^ 30) docs -> incomplete part ->
  zlen (stream h) < 2 ^ 62 -> (length docs < n)%nat -> (length (stream h) + 1 < fuel)%nat ->
  exists r m' r', bson_reader_new_from_handle rf h inline = Ret r
    /\ read_all rf n fuel (ReaderHandle r) m = Ret (m', (docs, ReaderHandle r', true))
    /\ bson_reader_tell (ReaderHandle r') = zlen (concat docs).
Proof.
  intros Es D Hi Hsz Hn Hf. destruct (new_from_handle_ok rf h inline Hsz) as (r & E & _ & Ht & [(Hne & O & Hd & Hr & Hl)|(He & Hd & Hfa)]).
  - destruct (handle_read_all rf fuel docs part r m n O Hd ltac:(congruence) D Hi Hn ltac:(lia)) as (m' & r' & Er & Ht').
    exists r, m', r'. split; [exact E|]. split; [exact Er|]. cbn. lia.
  - rewrite He in Es. destruct docs as [|d docs].
    + exists r, m, r. split; [exact E|]. destruct n as [|n]; [cbn in Hn; lia|]. destruct fuel as [|fuel]; [lia|].
      cbn [read_all bson_reader_read _bson_reader_handle_read]. rewrite Hd, Hfa. split; [reflexivity|]. cbn. exact Ht.
    + exfalso. apply Forall_cons in D as [[(H5 & _) _] _]. destruct d; [rewrite zlen_nil in H5; lia|discriminate Es].
Qed.

(** Two documents in five packets, and three bytes of a third. *)
Definition packets : list bytes := [[5; 0]; [0; 0; 0; 12]; []; [0; 0; 0; 16; 97; 0; 7; 0]; [0; 0; 0; 9; 0; 0]].

Lemma reader_reads_stream_witness :
  exists r m' r', bson_reader_new_from_handle packet_read packets 1 = Ret r
    /\ read_all packet_read 3 30 (ReaderHandle r) (mk_mem ∅ ∅)
       = Ret (m', ([[5; 0; 0; 0; 0]; [12; 0; 0; 0; 16; 97; 0; 7; 0; 0; 0; 0]], ReaderHandle r', true))
    /\ bson_reader_tell (ReaderHandle r') = 17.
Proof.
  apply (reader_reads_stream packet_read packets 1 [[5; 0; 0; 0; 0]; [12; 0; 0; 0; 16; 97; 0; 7; 0; 0; 0; 0]] [9; 0; 0]).
  - reflexivity.
  - repeat (apply Forall_cons_2; [repeat split; vm_compute; try discriminate; reflexivity|]). apply Forall_nil_2.
  - left. reflexivity.
  - reflexivity.
  - cbn. lia.
  - cbn. lia.
Defined.

(** C24: What was written through a [bson_writer_t] that started at offset 0 is read back
    by a [bson_reader_t] over the buffer: the same documents in the same order, then the
    end.  The documents are well-formed, without regular expressions, and have together
    at most 2^30 bytes. *)
Theorem written_documents_read_back {H} (rf : H -> Z -> H * Z * bytes) fuel inline docs w m c f m1 w1 :
  writer_ok w m c f -> w_offset w = 0 -> docs_ok docs -> zlen (encode_docs docs) <= 2 ^ 30 ->
  write_docs w docs m = Ret (m1, (w1, true)) ->
  exists c1 m2 r2, cells m1 !! w_buf w = Some c1
    /\ read_all rf (S (length docs)) fuel (ReaderData (bson_reader_new_from_data inline (content c1) (w_offset w1))) m1
       = Ret (m2, (map encode_doc docs, r2, true)).
Proof.
  intros W H0 D Hsz E.
  destruct (write_docs_spec docs w m c f W D ltac:(lia)) as [(m' & w' & c' & E' & W' & Wb & Wr & Wo)|(bf & af & m2 & w2 & c2 & _ & _ & _ & _ & _ & E')];
    [|congruence].
  rewrite E in E'. injection E' as <- <-. exists c'.
  assert (content c' = [] ++ concat (map encode_doc docs) ++ drop (Z.to_nat (w_offset w1)) (content c')) as Ec.
  { cbn [app]. unfold written in Wr. rewrite H0 in Wr. change (take (Z.to_nat 0) (content c)) with (@nil Z) in Wr. cbn [app] in Wr.
    fold (encode_docs docs). rewrite <- Wr. symmetry. apply take_drop. }
  assert (Forall is_doc (map encode_doc docs)) as Fd.
  { unfold encode_docs in Hsz. clear -Hsz. induction docs as [|els docs IH]; cbn [map concat] in *; [constructor|]. rewrite zlen_app in Hsz.
    pose proof (zlen_nonneg (concat (map encode_doc docs))). pose proof (zlen_nonneg (encode_doc els)).
    constructor; [|apply IH; lia]. apply is_doc_doc_bytes.
    assert (zlen (encode_doc els) = zlen (encode_body els) + 5) by apply zlen_doc_bytes. lia. }
  destruct (data_read_all rf fuel (map encode_doc docs) _ (bson_reader_new_from_data inline (content c') (w_offset w1)) m1 [] (S (length docs)) Ec)
    as (m2 & r2 & E2 & _); [reflexivity| | |exact Fd|rewrite length_map; lia|].
  - cbn [bson_reader_new_from_data d_length app]. fold (encode_docs docs). lia.
  - cbn [bson_reader_new_from_data d_length]. unfold INT_MAX. lia.
  - exists m2, (ReaderData r2). split; [rewrite <- Wb; apply W'|exact E2].
Qed.

(** What two documents leave behind. *)
Lemma written_documents_read_back_witness :
  exists m1 w1 c1 m2 r2, write_docs fresh_writer [sample; []] null_mem = Ret (m1, (w1, true)) /\ cells m1 !! 1 = Some c1
    /\ read_all packet_read 3 1 (ReaderData (bson_reader_new_from_data 9 (content c1) (w_offset w1))) m1
       = Ret (m2, ([encode_doc sample; encode_doc []], r2, true)).
Proof.
  let v := eval vm_compute in (write_docs fresh_writer [sample; []] null_mem) in
  match v with Ret (?m, (?w, true)) =>
    assert (write_docs fresh_writer [sample; []] null_mem = Ret (m, (w, true))) as E by (vm_compute; reflexivity);
    destruct (written_documents_read_back packet_read 1 9 [sample; []] fresh_writer null_mem null_cell bson_realloc_ctx m w)
      as (c1 & m2 & r2 & Ec & Er);
    [apply fresh_writer_ok|reflexivity
    |apply Forall_cons_2; [split; [apply sample_elems_ok|apply sample_no_regexes]|]; apply Forall_cons_2; [split; constructor|]; apply Forall_nil_2
    |vm_compute; discriminate|exact E|];
    exists m, w, c1, m2, r2; split; [exact E|split; [exact Ec|exact Er]]
  end.
Defined.

(** A source whose first read fails, and one that fails after two bytes. *)
Definition failing_read (h : list bytes) (n : Z) : list bytes * Z * bytes :=
  match h with [] => ([], -1, []) | p :: h => (h, zlen p, p) end.

(** A read error is reported as such ([*reached_eof] false) unless it is the first read
    that fails: then the reader says that the end of the stream was reached. *)
Theorem first_read_error_is_eof :
  (exists r, bson_reader_new_from_handle failing_read [] 1 = Ret r
     /\ read_all failing_read 1 3 (ReaderHandle r) (mk_mem ∅ ∅) = Ret (mk_mem ∅ ∅, ([], ReaderHandle r, true)))
  /\ (exists r r', bson_reader_new_from_handle failing_read [[5; 0]] 1 = Ret r
     /\ read_all failing_read 1 3 (ReaderHandle r) (mk_mem ∅ ∅) = Ret (mk_mem ∅ ∅, ([], ReaderHandle r', false))).
Proof.
  split.
  - let v := eval vm_compute in (bson_reader_new_from_handle failing_read [] 1) in match v with Ret ?r => exists r end.
    split; vm_compute; reflexivity.
  - let v := eval vm_compute in (bson_reader_new_from_handle failing_read [[5; 0]] 1) in match v with Ret ?r => exists r end.
    eexists. split; vm_compute; reflexivity.
Qed.
