(* ===== verification/Decimal128.v ===== *)
(** * Decimal floating point (bson-decimal128.c)

    A [bson_decimal128_t] is a sign, an exponent and a binary coefficient in 128
    bits.  [bson_decimal128_to_string] prints it into a buffer of 43 bytes,
    [bson_decimal128_from_string] reads it.  Characters written to the buffer are
    a list: [put_char] is [Oob] when the buffer is full. *)
From S2P Require Import Prelude Memory Format Append Iter Numbers.
#[local] Open Scope Z_scope.

Definition BSON_DECIMAL128_STRING : Z := 43.
Definition EXPONENT_BIAS : Z := 6176.
Definition EXPONENT_MAX : Z := 6111.
Definition EXPONENT_MIN : Z := -6176.
Definition MAX_DIGITS : Z := 34.

Definition INF_TEXT : bytes := [73; 110; 102; 105; 110; 105; 116; 121; 0].
Definition NAN_TEXT : bytes := [78; 97; 78; 0].

(** ** To text *)

(** The four words, from the high one. *)
Definition _bson_uint128_t : Type := (Z * Z * Z * Z)%type.

Definition divide_step (rem part : Z) : Z * Z :=
  let rem := u64 (u64 (Z.shiftl rem 32) + part) in (u32 (rem / 1000000000), rem mod 1000000000).

(** The quotient and the remainder. *)
Definition _bson_uint128_divide1B (value : _bson_uint128_t) : _bson_uint128_t * Z :=
  match value with
  | (p0, p1, p2, p3) =>
      if (p0 =? 0) && (p1 =? 0) && (p2 =? 0) && (p3 =? 0) then (value, 0)
      else
        let '(p0, rem) := divide_step 0 p0 in
        let '(p1, rem) := divide_step rem p1 in
        let '(p2, rem) := divide_step rem p2 in
        let '(p3, rem) := divide_step rem p3 in
        ((p0, p1, p2, p3), u32 rem)
  end.

(** Nine digits of [least_digits], written from the last to the first. *)
Fixpoint nine_digits (n : nat) (least_digits : Z) (acc : bytes) : bytes :=
  match n with O => acc | S n => nine_digits n (least_digits / 10) (least_digits mod 10 :: acc) end.

(** The 36 digits of the significand, in four groups from the last one. *)
Fixpoint significand_groups (k : nat) (value : _bson_uint128_t) (acc : bytes) : bytes :=
  match k with
  | O => acc
  | S k =>
      let '(value, least_digits) := _bson_uint128_divide1B value in
      significand_groups k value ((if least_digits =? 0 then replicate 9 0 else nine_digits 9 least_digits []) ++ acc)
  end.

(** [while (!*significand_read)] *)
Fixpoint skip_zeros (ds : bytes) : outcome bytes :=
  match ds with [] => Oob | d :: ds' => if d =? 0 then skip_zeros ds' else Ret ds end.

Definition put_char (out : bytes) (c : Z) : outcome bytes :=
  if zlen out <? BSON_DECIMAL128_STRING then Ret (out ++ [c]) else Oob.
Fixpoint put_all (out cs : bytes) : outcome bytes :=
  match cs with [] => Ret out | c :: cs => out ← put_char out c; put_all out cs end.

(** [for (i = 0; i < n && (str_out - str) < limit; i++)]: the digits that are left, too. *)
Fixpoint put_digits (n : nat) (limit : Z) (out ds : bytes) : outcome (bytes * bytes) :=
  match n with
  | O => Ret (out, ds)
  | S n =>
      if zlen out <? limit then
        match ds with [] => Oob | d :: ds => out ← put_char out (d + 48); put_digits n limit out ds end
      else Ret (out, ds)
  end.

Fixpoint put_zeros (n : nat) (out : bytes) : outcome bytes :=
  match n with O => Ret out | S n => out ← put_char out 48; put_zeros n out end.

(** [%+d] *)
Definition fmt_plus (n : Z) : bytes := (if n <? 0 then 45 else 43) :: fmt_u (Z.abs n).

(** The digits and the exponent are known. *)
Definition print_decimal (out ds : bytes) (exponent : Z) : outcome bytes :=
  let digits := zlen ds in
  let scientific_exponent := digits - 1 + exponent in
  if (scientific_exponent <? -6) || (exponent >? 0) then
    '(out, ds) ← put_digits 1 BSON_DECIMAL128_STRING out ds;
    let digits := digits - 1 in
    out ← (if negb (digits =? 0) then put_char out 46 else Ret out);
    '(out, _) ← put_digits (Z.to_nat digits) 36 out ds;
    out ← put_char out 69;
    '(text, _) ← bson_snprintf 6 (fmt_plus scientific_exponent);
    put_all out text
  else if exponent >=? 0 then
    '(out, _) ← put_digits (Z.to_nat digits) 36 out ds;
    put_char out 0
  else
    let radix_position := digits + exponent in
    '(out, ds) ← (if radix_position >? 0 then put_digits (Z.to_nat radix_position) BSON_DECIMAL128_STRING out ds
                  else out ← put_char out 48; Ret (out, ds));
    out ← put_char out 46;
    out ← put_zeros (Z.to_nat (- radix_position)) out;
    '(out, _) ← put_digits (Z.to_nat (digits - Z.max radix_position 0)) BSON_DECIMAL128_STRING out ds;
    put_char out 0.

(** The contents of the buffer, with its terminator. *)
Definition bson_decimal128_to_string (dec : bson_decimal128_t) : outcome bytes :=
  let sign := if s64 (d_high dec) <? 0 then [45] else [] in
  let low := u32 (d_low dec) in
  let midl := u32 (Z.shiftr (d_low dec) 32) in
  let midh := u32 (d_high dec) in
  let high := u32 (Z.shiftr (d_high dec) 32) in
  let combination := Z.land (Z.shiftr high 26) 0x1f in
  let special := Z.shiftr combination 3 =? 3 in
  if special && (combination =? 30) then put_all sign INF_TEXT
  else if special && (combination =? 31) then put_all [] NAN_TEXT
  else
    let '(biased_exponent, significand_msb) :=
      if special then (Z.land (Z.shiftr high 15) 0x3fff, 8 + Z.land (Z.shiftr high 14) 1)
      else (Z.land (Z.shiftr high 17) 0x3fff, Z.land (Z.shiftr high 14) 7) in
    let exponent := s32 (biased_exponent - EXPONENT_BIAS) in
    let part0 := Z.land high 0x3fff + Z.shiftl (Z.land significand_msb 0xf) 14 in
    let is_zero := ((part0 =? 0) && (midh =? 0) && (midl =? 0) && (low =? 0)) || (part0 >=? 2 ^ 17) in
    ds ← (if is_zero then Ret [0] else skip_zeros (significand_groups 4 (part0, midh, midl, low) []));
    print_decimal sign ds exponent.

(** ** From text *)

(** The product of two 64-bit words, as its high and low words. *)
Definition _mul_64x64 (left right : Z) : Z * Z :=
  if (left =? 0) && (right =? 0) then (0, 0)
  else
    let left_high := Z.shiftr left 32 in
    let left_low := u32 left in
    let right_high := Z.shiftr right 32 in
    let right_low := u32 right in
    let product_high := u64 (left_high * right_high) in
    let product_mid := u64 (left_high * right_low) in
    let product_mid2 := u64 (left_low * right_high) in
    let product_low := u64 (left_low * right_low) in
    let product_high := u64 (product_high + Z.shiftr product_mid 32) in
    let product_mid := u64 (u64 (u32 product_mid + product_mid2) + Z.shiftr product_low 32) in
    let product_high := u64 (product_high + Z.shiftr product_mid 32) in
    let product_low := u64 (u64 (Z.shiftl product_mid 32) + u32 product_low) in
    (product_high, product_low).

Definition _dec128_tolower (c : Z) : Z := if isupper c then c + 32 else c.

(** Both strings run to their terminators. *)
Fixpoint _dec128_istreq (a b : bytes) : outcome bool :=
  match a, b with
  | x :: a, y :: b =>
      if (x =? 0) && (y =? 0) then Ret true
      else if (x =? 0) || (y =? 0) then Ret false
      else if negb (_dec128_tolower x =? _dec128_tolower y) then Ret false
      else _dec128_istreq a b
  | _, _ => Oob
  end.

Definition BSON_DECIMAL128_SET_NAN : bson_decimal128_t := mk_dec128 0 0x7c00000000000000.
Definition BSON_DECIMAL128_SET_INF (isneg : bool) : bson_decimal128_t :=
  mk_dec128 0 (0x7800000000000000 + 0x8000000000000000 * (if isneg then 1 else 0)).

(** What the digit loop keeps; [digits] are the ones that are stored. *)
Record digit_scan : Type := mk_scan {
  saw_radix : bool;
  found_nonzero : bool;
  ndigits_read : Z;
  ndigits : Z;
  radix_position : Z;
  first_nonzero : Z;
  digits : bytes
}.

Definition scan_start : digit_scan := mk_scan false false 0 0 0 0 [].

(** One digit. *)
Definition scan_digit (s : digit_scan) (c : Z) : digit_scan :=
  let store := (zlen (digits s) <? 34) && (negb (c =? 48) || found_nonzero s) in
  let first := if store && negb (found_nonzero s) then ndigits_read s else first_nonzero s in
  let found := store || found_nonzero s in
  mk_scan (saw_radix s) found (ndigits_read s + 1)
    (if found then ndigits s + 1 else ndigits s)
    (if saw_radix s then radix_position s + 1 else radix_position s)
    first
    (if store then digits s ++ [c - 48] else digits s).

(** [while (isdigit ( *str_read) || *str_read == '.')]; [None] at a second point. *)
Fixpoint read_digits (s : digit_scan) (str_read : bytes) : outcome (option (digit_scan * bytes)) :=
  match str_read with
  | [] => Oob
  | c :: t =>
      if c =? 46 then
        if saw_radix s then Ret None
        else read_digits (mk_scan true (found_nonzero s) (ndigits_read s) (ndigits s)
                            (radix_position s) (first_nonzero s) (digits s)) t
      else if isdigit c then read_digits (scan_digit s c) t
      else Ret (Some (s, str_read))
  end.

Fixpoint span_digits (s : bytes) : outcome (bytes * bytes) :=
  match s with
  | [] => Oob
  | c :: t => if isdigit c then '(ds, r) ← span_digits t; Ret (c :: ds, r) else Ret ([], s)
  end.

(** [sscanf (s, "%d%n", ...)]: the number and the text after it, [None] when
    nothing is converted; a number outside [int] is undefined. *)
Definition sscanf_d (s : bytes) : outcome (option (Z * bytes)) :=
  '(_, s) ← skip_space s;
  c ← rd s 0;
  let signed := (c =? 43) || (c =? 45) in
  '(ds, r) ← span_digits (if signed then drop 1 s else s);
  if zlen ds =? 0 then Ret None
  else
    let v := if c =? 45 then - dval ds else dval ds in
    if (- 2 ^ 31 <=? v) && (v <? 2 ^ 31) then Ret (Some (v, r)) else Oob.

(** [while (string[base + significant_digits - 1] == '0') significant_digits--]. *)
Fixpoint mark_trailing (string : bytes) (base : Z) (significant_digits : nat) : outcome Z :=
  match significant_digits with
  | O => Oob
  | S n => c ← rd string (base + Z.of_nat n); if c =? 48 then mark_trailing string base n else Ret (Z.of_nat n + 1)
  end.

(** The result of a loop that may return from the function with NaN. *)
Definition loop_result : Type := outcome (option (Z * Z)).

(** Shift the exponent into the significand: the exponent and [last_digit]. *)
Fixpoint shift_up (fuel : nat) (significant_digits exponent last_digit : Z) : loop_result :=
  match fuel with
  | O => Fuel
  | S fuel =>
      if exponent >? EXPONENT_MAX then
        let last_digit := last_digit + 1 in
        if last_digit >? MAX_DIGITS then
          if significant_digits =? 0 then Ret (Some (EXPONENT_MAX, last_digit)) else Ret None
        else shift_up fuel significant_digits (exponent - 1) last_digit
      else Ret (Some (exponent, last_digit))
  end.

Definition digits_at (ds : bytes) (i : Z) : outcome Z :=
  if (0 <=? i) && (i <? MAX_DIGITS) then Ret (default 0 (ds !! Z.to_nat i)) else Oob.

(** Drop digits: those that are not stored, then stored ones; [off] is
    [includes_sign + saw_radix]. *)
Fixpoint shift_down (fuel : nat) (string ds : bytes) (off ndigits_stored significant_digits : Z)
    (exponent last_digit nd : Z) : loop_result :=
  match fuel with
  | O => Fuel
  | S fuel =>
      if (exponent <? EXPONENT_MIN) || (ndigits_stored <? nd) then
        if last_digit =? 0 then
          if significant_digits =? 0 then Ret (Some (EXPONENT_MIN, last_digit)) else Ret None
        else
          r ← (if ndigits_stored <? nd then
                 c ← rd string (nd - 1 + off);
                 Ret (if negb (c =? 48) && negb (significant_digits =? 0) then None else Some (last_digit, nd - 1))
               else
                 d ← digits_at ds last_digit;
                 Ret (if negb (d =? 0) then None else Some (last_digit - 1, nd)));
          match r with
          | None => Ret None
          | Some (last_digit, nd) =>
              if exponent <? EXPONENT_MAX
              then shift_down fuel string ds off ndigits_stored significant_digits (exponent + 1) last_digit nd
              else Ret None
          end
      else Ret (Some (exponent, last_digit))
  end.

(** [n] digits from [idx], appended to [acc]. *)
Fixpoint accumulate_digits (n : nat) (ds : bytes) (idx acc : Z) : outcome Z :=
  match n with
  | O => Ret acc
  | S n => d ← digits_at ds idx; accumulate_digits n ds (idx + 1) (u64 (u64 (acc * 10) + d))
  end.

(** The high and the low 17 digits. *)
Definition encode_significand (ds : bytes) (significant_digits last_digit : Z) : outcome (Z * Z) :=
  if significant_digits =? 0 then Ret (0, 0)
  else if last_digit <? 17 then
    d ← digits_at ds 0;
    low ← accumulate_digits (Z.to_nat last_digit) ds 1 d;
    Ret (0, low)
  else
    d ← digits_at ds 0;
    high ← accumulate_digits (Z.to_nat (last_digit - 17)) ds 1 d;
    d ← digits_at ds (last_digit - 16);
    low ← accumulate_digits 16 ds (last_digit - 15) d;
    Ret (high, low).

Definition encode_decimal (is_negative : bool) (exponent significand_high significand_low : Z) : bson_decimal128_t :=
  let '(high, low) := _mul_64x64 significand_high 100000000000000000 in
  let low := u64 (low + significand_low) in
  let high := if low <? significand_low then u64 (high + 1) else high in
  let biased_exponent := (exponent + EXPONENT_BIAS) mod 2 ^ 16 in
  let dec_high :=
    if Z.land (Z.shiftr high 49) 1 =? 1 then
      Z.lor (Z.lor (u64 (Z.shiftl 0x3 61)) (u64 (Z.shiftl (Z.land biased_exponent 0x3fff) 47))) (Z.land high 0x7fffffffffff)
    else
      Z.lor (u64 (Z.shiftl (Z.land biased_exponent 0x3fff) 49)) (Z.land high 0x1ffffffffffff) in
  mk_dec128 low (if is_negative then Z.lor dec_high 0x8000000000000000 else dec_high).

(** The text is read: normalise the exponent, refuse rounding and encode. *)
Definition finish_decimal (string : bytes) (is_negative includes_sign : bool) (s : digit_scan) (exponent : Z)
    : outcome (bool * bson_decimal128_t) :=
  let off := (if includes_sign then 1 else 0) + (if saw_radix s then 1 else 0) in
  '(ds, stored, nd, last_digit, significant_digits) ←
    (if zlen (digits s) =? 0 then Ret ([0], 1, 1, 0, 0)
     else
       n ← mark_trailing string (first_nonzero s + off) (Z.to_nat (ndigits s));
       Ret (digits s, zlen (digits s), ndigits s, zlen (digits s) - 1, n));
  let radix := radix_position s in
  let exponent :=
    if (u64 exponent <=? radix) && (u64 (radix - u64 exponent) >? 2 ^ 14) then EXPONENT_MIN
    else s32 (u64 (u64 exponent - radix)) in
  r ← shift_up 36 significant_digits exponent last_digit;
  match r with
  | None => Ret (false, BSON_DECIMAL128_SET_NAN)
  | Some (exponent, last_digit) =>
      r ← shift_down (Z.to_nat nd + 36) string ds off stored significant_digits exponent last_digit nd;
      match r with
      | None => Ret (false, BSON_DECIMAL128_SET_NAN)
      | Some (exponent, last_digit) =>
          inexact ← (if last_digit + 1 <? significant_digits then
                       c ← rd string (first_nonzero s + last_digit + off + 1); Ret (negb (u8 (c - 48) =? 0))
                     else Ret false);
          if (inexact : bool) then Ret (false, BSON_DECIMAL128_SET_NAN)
          else
            '(high, low) ← encode_significand ds significant_digits last_digit;
            Ret (true, encode_decimal is_negative exponent high low)
      end
  end.

(** The number itself, after the sign: digits, exponent, end of the text. *)
Definition read_decimal (string : bytes) (is_negative includes_sign : bool) (str_read : bytes)
    : outcome (bool * bson_decimal128_t) :=
  r ← read_digits scan_start str_read;
  match r with
  | None => Ret (false, BSON_DECIMAL128_SET_NAN)
  | Some (s, str_read) =>
      if saw_radix s && (ndigits_read s =? 0) then Ret (false, BSON_DECIMAL128_SET_NAN)
      else
        c ← rd str_read 0;
        r ← (if (c =? 101) || (c =? 69) then sscanf_d (drop 1 str_read) else Ret (Some (0, str_read)));
        match r with
        | None => Ret (false, BSON_DECIMAL128_SET_NAN)
        | Some (exponent, str_read) =>
            c ← rd str_read 0;
            if negb (c =? 0) then Ret (false, BSON_DECIMAL128_SET_NAN)
            else finish_decimal string is_negative includes_sign s exponent
        end
  end.

Definition bson_decimal128_from_string (string : bytes) : outcome (bool * bson_decimal128_t) :=
  c ← rd string 0;
  let includes_sign := (c =? 43) || (c =? 45) in
  let is_negative := c =? 45 in
  let str_read := if includes_sign then drop 1 string else string in
  c ← rd str_read 0;
  if negb (isdigit c) && negb (c =? 46) then
    inf ← _dec128_istreq str_read [105; 110; 102; 0];
    inf ← (if (inf : bool) then Ret true else _dec128_istreq str_read [105; 110; 102; 105; 110; 105; 116; 121; 0]);
    if (inf : bool) then Ret (true, BSON_DECIMAL128_SET_INF is_negative)
    else nan ← _dec128_istreq str_read [110; 97; 110; 0]; Ret (nan, BSON_DECIMAL128_SET_NAN)
  else read_decimal string is_negative includes_sign str_read.
