(* ===== verification/DecimalText.v ===== *)
(** * Decimals as text: numerals are read exactly, and the round trip

    [decimal neg c e] is the encoding of plus or minus [c * 10 ^ e].  A numeral
    with at most 34 significant digits and an exponent in range is read to it;
    every canonical decimal is printed inside its buffer, and reading the text
    gives the decimal back. *)
From S2P Require Import Prelude Memory Format Append Iter Numbers Calendar Decimal128.
#[local] Open Scope Z_scope.

Definition decimal (neg : bool) (c e : Z) : bson_decimal128_t :=
  mk_dec128 (c mod 2 ^ 64) ((if neg then 2 ^ 63 else 0) + (e + EXPONENT_BIAS) * 2 ^ 49 + c / 2 ^ 64).

(** ** The significand *)

Lemma shiftr32 z : Z.shiftr z 32 = z / 2 ^ 32.
Proof. by rewrite Z.shiftr_div_pow2. Qed.

Lemma mul_word a b : 0 <= a < 2 ^ 32 -> 0 <= b < 2 ^ 32 -> 0 <= a * b <= (2 ^ 32 - 1) * (2 ^ 32 - 1).
Proof. nia. Qed.

(** The schoolbook sum, on the four partial products. *)
Lemma mul_columns hh hl lh ll :
  let top := (2 ^ 32 - 1) * (2 ^ 32 - 1) in
  0 <= hh <= top -> 0 <= hl <= top -> 0 <= lh <= top -> 0 <= ll <= top ->
  let mid := hl mod 2 ^ 32 + lh + ll / 2 ^ 32 in
  0 <= mid < 2 ^ 64 /\
  (hh + hl / 2 ^ 32 + mid / 2 ^ 32) * 2 ^ 64 + ((mid * 2 ^ 32) mod 2 ^ 64 + ll mod 2 ^ 32) =
  hh * 2 ^ 64 + (hl + lh) * 2 ^ 32 + ll.
Proof.
  cbv zeta. intros. split; [euclid|]. rewrite (Z.mul_comm _ (2 ^ 32)). change (2 ^ 64) with (2 ^ 32 * 2 ^ 32).
  rewrite Zmult_mod_distr_l. set (mid := hl mod 2 ^ 32 + lh + ll / 2 ^ 32).
  pose proof (Z.div_mod mid (2 ^ 32)). pose proof (Z.div_mod hl (2 ^ 32)). pose proof (Z.div_mod ll (2 ^ 32)). lia.
Qed.

Lemma mul_64x64_spec a b : 0 <= a < 2 ^ 64 -> 0 <= b < 2 ^ 64 ->
  (_mul_64x64 a b).1 * 2 ^ 64 + (_mul_64x64 a b).2 = a * b /\ 0 <= (_mul_64x64 a b).2 < 2 ^ 64 /\ 0 <= (_mul_64x64 a b).1.
Proof.
  intros Ha Hb. unfold _mul_64x64. destruct ((a =? 0) && (b =? 0)) eqn:E; [bool_hyps; subst; cbn; lia|]. clear E.
  rewrite !shiftr32, !Z.shiftl_mul_pow2 by lia.
  assert (0 <= a / 2 ^ 32 < 2 ^ 32) by euclid. assert (0 <= b / 2 ^ 32 < 2 ^ 32) by euclid.
  pose proof (u32_range a). pose proof (u32_range b).
  pose proof (mul_word (a / 2 ^ 32) (b / 2 ^ 32) ltac:(done) ltac:(done)). pose proof (mul_word (a / 2 ^ 32) (u32 b) ltac:(done) ltac:(done)).
  pose proof (mul_word (u32 a) (b / 2 ^ 32) ltac:(done) ltac:(done)). pose proof (mul_word (u32 a) (u32 b) ltac:(done) ltac:(done)).
  assert (E : a * b = a / 2 ^ 32 * (b / 2 ^ 32) * 2 ^ 64 + (a / 2 ^ 32 * u32 b + u32 a * (b / 2 ^ 32)) * 2 ^ 32 + u32 a * u32 b).
  { rewrite (Z.div_mod a (2 ^ 32)) at 1 by lia. rewrite (Z.div_mod b (2 ^ 32)) at 1 by lia. fold (u32 a) (u32 b).
    change (2 ^ 64) with (2 ^ 32 * 2 ^ 32). ring. }
  assert (0 <= a * b < 2 ^ 128) by (change (2 ^ 128) with (2 ^ 64 * 2 ^ 64); nia).
  set (hh := a / 2 ^ 32 * (b / 2 ^ 32)) in *. set (hl := a / 2 ^ 32 * u32 b) in *. set (lh := u32 a * (b / 2 ^ 32)) in *.
  set (ll := u32 a * u32 b) in *. clearbody hh hl lh ll.
  rewrite (u64_id hh), (u64_id hl), (u64_id lh), (u64_id ll) by lia. fold (u32 hl) (u32 ll).
  pose proof (mul_columns hh hl lh ll ltac:(lia) ltac:(lia) ltac:(lia) ltac:(lia)) as [Hm Hs]. fold (u32 hl) (u32 ll) in Hm, Hs.
  cbv zeta in *. pose proof (u32_range hl). rewrite (u64_id (u32 hl + lh)) by lia.
  set (mid := u32 hl + lh + ll / 2 ^ 32) in *. rewrite (u64_id mid) by done.
  fold (u64 (mid * 2 ^ 32)) in Hs. pose proof (u32_range ll).
  assert (0 <= u64 (mid * 2 ^ 32) + u32 ll < 2 ^ 64).
  { unfold u64. rewrite (Z.mul_comm mid). change (2 ^ 64) with (2 ^ 32 * 2 ^ 32). rewrite Zmult_mod_distr_l.
    pose proof (Z.mod_pos_bound mid (2 ^ 32)). lia. }
  cbn [fst snd]. assert (0 <= hl / 2 ^ 32) by euclid. assert (0 <= mid / 2 ^ 32) by euclid.
  assert (hh + hl / 2 ^ 32 + mid / 2 ^ 32 < 2 ^ 64) by lia.
  rewrite (u64_id (hh + hl / 2 ^ 32)), (u64_id (hh + hl / 2 ^ 32 + _)), (u64_id (u64 (mid * _) + _)) by lia. lia.
Qed.

Lemma encode_decimal_spec neg e hi lo :
  0 <= hi < 10 ^ 17 -> 0 <= lo < 10 ^ 17 -> EXPONENT_MIN <= e <= EXPONENT_MAX ->
  encode_decimal neg e hi lo = decimal neg (hi * 10 ^ 17 + lo) e.
Proof.
  unfold EXPONENT_MIN, EXPONENT_MAX. intros Hhi Hlo He. unfold encode_decimal, decimal. change 100000000000000000 with (10 ^ 17).
  destruct (mul_64x64_spec hi (10 ^ 17)) as (Hm & Hl & Hh); [lia | lia |].
  destruct (_mul_64x64 hi (10 ^ 17)) as [high low]. cbn [fst snd] in *.
  set (c := hi * 10 ^ 17 + lo). assert (Hc : 0 <= c < 10 ^ 34) by (subst c; change (10 ^ 34) with (10 ^ 17 * 10 ^ 17); nia).
  assert (E1 : u64 (low + lo) = c mod 2 ^ 64) by (unfold u64; subst c; rewrite <- Hm; replace (high * 2 ^ 64 + low + lo) with (low + lo + high * 2 ^ 64) by ring; by rewrite Z_mod_plus_full).
  assert (E2 : (if u64 (low + lo) <? lo then u64 (high + 1) else high) = c / 2 ^ 64).
  { assert (high < 2 ^ 60) by lia. unfold u64 at 1. destruct (_ <? lo) eqn:E; bool_hyps; [rewrite u64_id by lia|]; euclid. }
  rewrite E2, E1. set (h := c / 2 ^ 64). assert (0 <= h < 2 ^ 49) by (subst h; euclid).
  rewrite (Z.shiftr_div_pow2 h 49), (Z.div_small h) by lia. change (Z.land 0 1 =? 1) with false. cbv iota.
  unfold EXPONENT_BIAS. rewrite (Z.mod_small (e + 6176)) by lia. rewrite !(land_mask _ 0x3fff 14), !(land_mask _ 0x1ffffffffffff 49) by lia.
  rewrite !(Z.mod_small _ (2 ^ 14)), !(Z.mod_small h) by lia. rewrite u64_id by (rewrite Z.shiftl_mul_pow2; lia).
  rewrite lor_shift_add by lia. f_equal. destruct neg; [|lia]. rewrite Z.lor_comm. change 0x8000000000000000 with (1 * 2 ^ 63).
  rewrite lor_mul_add by lia. lia.
Qed.

(** The number of digit values, without and with what comes before. *)
Definition vfold (a : Z) (ds : bytes) : Z := fold_left (fun a d => a * 10 + d) ds a.
Definition dig (d : Z) : Prop := 0 <= d <= 9.

Lemma pow10_zlen (l : bytes) : 0 < 10 ^ zlen l.
Proof. apply Z.pow_pos_nonneg; [lia | apply zlen_nonneg]. Qed.

Lemma vfold_app a x y : vfold a (x ++ y) = vfold (vfold a x) y.
Proof. apply fold_left_app. Qed.

Lemma vfold_bound ds : forall a, Forall dig ds -> 0 <= a -> a * 10 ^ zlen ds <= vfold a ds < (a + 1) * 10 ^ zlen ds.
Proof.
  induction ds as [|d ds IH]; intros a H Ha; [rewrite zlen_nil, Z.pow_0_r; unfold vfold; cbn [fold_left]; lia|].
  inversion_clear H as [|? ? Hd Hds]. unfold dig in Hd. cbn [vfold fold_left]. fold (vfold (a * 10 + d) ds). specialize (IH (a * 10 + d) Hds ltac:(lia)).
  rewrite zlen_cons, Z.pow_add_r by (pose proof (zlen_nonneg ds); lia). change (10 ^ 1) with 10.
  pose proof (pow10_zlen ds). assert (0 <= d * 10 ^ zlen ds <= 9 * 10 ^ zlen ds) by nia. lia.
Qed.

Lemma vfold_linear ds a : vfold a ds = a * 10 ^ zlen ds + vfold 0 ds.
Proof.
  revert a. induction ds as [|d ds IH]; intros a; [rewrite zlen_nil, Z.pow_0_r; unfold vfold; cbn [fold_left]; lia|]. cbn [vfold fold_left].
  fold (vfold (a * 10 + d) ds) (vfold (0 * 10 + d) ds). rewrite IH, (IH (0 * 10 + d)), zlen_cons, Z.pow_add_r by (pose proof (zlen_nonneg ds); lia).
  change (10 ^ 1) with 10. lia.
Qed.

Lemma digits_at_in pre d post : zlen (pre ++ d :: post) <= 34 -> digits_at (pre ++ d :: post) (zlen pre) = Ret d.
Proof.
  intros H. pose proof (zlen_nonneg pre). pose proof (zlen_nonneg post). rewrite zlen_app, zlen_cons in H. unfold digits_at, MAX_DIGITS.
  replace (0 <=? zlen pre) with true by lia. replace (zlen pre <? 34) with true by lia. cbn [andb].
  rewrite lookup_app_r by zl. by replace (Z.to_nat (zlen pre) - length pre)%nat with 0%nat by zl.
Qed.

Lemma accumulate_digits_spec l : forall pre post acc, zlen (pre ++ l ++ post) <= 34 -> Forall dig l -> 0 <= acc ->
  (acc + 1) * 10 ^ zlen l <= 2 ^ 64 ->
  accumulate_digits (length l) (pre ++ l ++ post) (zlen pre) acc = Ret (vfold acc l).
Proof.
  induction l as [|d l IH]; intros pre post acc Hlen Hd Ha Hb; [done|]. inversion_clear Hd as [|? ? Hd0 Hds].
  cbn [length accumulate_digits]. cbn [app] in *. rewrite digits_at_in by done. cbn [mbind outcome_bind].
  rewrite zlen_cons, Z.pow_add_r in Hb by (pose proof (zlen_nonneg l); lia). change (10 ^ 1) with 10 in Hb.
  pose proof (pow10_zlen l). unfold dig in Hd0.
  rewrite (u64_id (acc * 10)), u64_id by nia.
  replace (pre ++ d :: l ++ post) with ((pre ++ [d]) ++ l ++ post) in * by (by rewrite <- app_assoc).
  replace (zlen pre + 1) with (zlen (pre ++ [d])) by zl. rewrite IH; [done | done | done | lia | nia].
Qed.

Lemma encode_significand_spec ds sig : ds <> [] -> Forall dig ds -> zlen ds <= 34 -> sig <> 0 ->
  exists hi lo, encode_significand ds sig (zlen ds - 1) = Ret (hi, lo) /\
    0 <= hi < 10 ^ 17 /\ 0 <= lo < 10 ^ 17 /\ hi * 10 ^ 17 + lo = vfold 0 ds.
Proof.
  intros Hne Hd Hlen Hs. destruct ds as [|d ds]; [done|]. unfold encode_significand. replace (sig =? 0) with false by lia.
  inversion_clear Hd as [|? ? Hd0 Hds]. unfold dig in Hd0. rewrite zlen_cons in *. pose proof (zlen_nonneg ds).
  assert (Hat : digits_at (d :: ds) 0 = Ret d) by (apply (digits_at_in [] d ds); rewrite app_nil_l, zlen_cons; lia).
  rewrite Hat. clear Hat. cbn [mbind outcome_bind]. destruct (_ <? 17) eqn:E; bool_hyps.
  - exists 0, (vfold d ds). assert (Hp : 10 ^ zlen ds <= 10 ^ 16) by (apply Z.pow_le_mono_r; lia).
    pose proof (vfold_bound ds d Hds ltac:(lia)). change (10 ^ 16) with 10000000000000000 in *.
    pose proof (pow10_zlen ds).
    pose proof (accumulate_digits_spec ds [d] [] d) as Ha. rewrite app_nil_r in Ha. change ([d] ++ ds) with (d :: ds) in Ha.
    replace (Z.to_nat (1 + zlen ds - 1)) with (length ds) by zl. change (zlen [d]) with 1 in Ha.
    rewrite Ha; [|rewrite zlen_cons; lia | done | lia | nia].
    split; [done|]. split; [lia|]. split; [nia|]. cbn [vfold fold_left]. fold (vfold (0 * 10 + d) ds).
    replace (0 * 10 + d) with d by lia. lia.
  - set (n := Z.to_nat (zlen ds - 17)). rewrite <- (take_drop n ds) in Hds |- *.
    assert (Hn : zlen (take n ds) = zlen ds - 17) by (subst n; zl). assert (Hn' : zlen (drop n ds) = 17) by (subst n; zl).
    rewrite zlen_app. set (t := take n ds) in *. set (u := drop n ds) in *. clearbody t u n.
    destruct u as [|x u]; [by rewrite zlen_nil in Hn'|]. rewrite zlen_cons in Hn'.
    apply Forall_app in Hds as [Ht Hu]. inversion_clear Hu as [|? ? Hx Hu']. unfold dig in Hx.
    pose proof (vfold_bound t d Ht ltac:(lia)). pose proof (vfold_bound u x Hu' ltac:(lia)) as Hb.
    replace (zlen u) with 16 in Hb by lia. change (10 ^ 16) with 10000000000000000 in *.
    assert (Hp : 10 ^ zlen t <= 10 ^ 16) by (apply Z.pow_le_mono_r; lia). change (10 ^ 16) with 10000000000000000 in Hp.
    exists (vfold d t), (vfold x u).
    assert (Hl : zlen (d :: t ++ x :: u) <= 34) by (rewrite zlen_cons, zlen_app, zlen_cons; lia).
    replace (Z.to_nat (1 + (zlen t + zlen (x :: u)) - 1 - 17)) with (length t) by (rewrite zlen_cons; zl).
    pose proof (accumulate_digits_spec t [d] (x :: u) d Hl Ht ltac:(lia) ltac:(nia)) as Ha. change (zlen [d]) with 1 in Ha.
    change ([d] ++ t ++ x :: u) with (d :: t ++ x :: u) in Ha. rewrite Ha. cbn [mbind outcome_bind].
    pose proof (digits_at_in (d :: t) x u Hl) as Hat. replace (1 + (zlen t + zlen (x :: u)) - 1 - 16) with (zlen (d :: t)) by (rewrite !zlen_cons; lia).
    change ((d :: t) ++ x :: u) with (d :: t ++ x :: u) in Hat. rewrite Hat. cbn [mbind outcome_bind].
    replace 16%nat with (length u) by zl. replace (1 + (zlen t + zlen (x :: u)) - 1 - 15) with (zlen (d :: t ++ [x])) by (rewrite !zlen_cons, !zlen_app, zlen_cons, zlen_nil; lia).
    pose proof (accumulate_digits_spec u (d :: t ++ [x]) [] x) as Hc. rewrite app_nil_r in Hc. cbn [app] in Hc. rewrite <- app_assoc in Hc. cbn [app] in Hc.
    rewrite Hc; [|done | done | lia | replace (zlen u) with 16 by lia; lia]. cbn [mbind outcome_bind].
    split; [done|]. split; [nia|]. split; [nia|]. rewrite (app_comm_cons t (x :: u) d), vfold_app.
    change (vfold 0 (d :: t)) with (vfold d t). rewrite (vfold_linear (x :: u)), zlen_cons. replace (1 + zlen u) with 17 by lia.
    change (vfold 0 (x :: u)) with (vfold x u). lia.
Qed.

(** ** The digit loop *)

(** The digits without the leading zeros, and how many those are. *)
Fixpoint significant (l : bytes) : bytes :=
  match l with [] => [] | c :: t => if c =? 48 then significant t else l end.
Definition leading (l : bytes) : Z := zlen l - zlen (significant l).
Definition vals (l : bytes) : bytes := map (fun c => c - 48) l.

Lemma zlen_vals l : zlen (vals l) = zlen l.
Proof. unfold zlen, vals. by rewrite length_map. Qed.

Lemma significant_snoc l c :
  significant (l ++ [c]) = match significant l with [] => if c =? 48 then [] else [c] | k => k ++ [c] end.
Proof.
  induction l as [|x l IH]; [done|]. cbn [app significant]. destruct (x =? 48); [exact IH | done].
Qed.

Lemma significant_suffix l : exists n, l = replicate n 48 ++ significant l.
Proof.
  induction l as [|c l [n IH]]; [by exists 0%nat|]. cbn [significant]. destruct (c =? 48) eqn:E; [|by exists 0%nat].
  apply Z.eqb_eq in E as ->. exists (S n). cbn [replicate app]. by rewrite <- IH.
Qed.

Lemma leading_nonneg l : 0 <= leading l.
Proof. destruct (significant_suffix l) as [n E]. unfold leading. rewrite E at 1. rewrite zlen_app. pose proof (zlen_nonneg (replicate n 48)). lia. Qed.

Lemma significant_app_length l k : zlen (significant l) <= zlen (significant (l ++ k)).
Proof.
  induction l as [|c l IH]; cbn [app significant]; [rewrite zlen_nil; apply zlen_nonneg|].
  destruct (c =? 48); [done|]. rewrite !zlen_cons, zlen_app. pose proof (zlen_nonneg k). lia.
Qed.

(** The value is that of the digits without leading zeros. *)
Lemma dval_significant l : dval l = vfold 0 (vals (significant l)).
Proof.
  assert (H : forall l a, dval_from a l = vfold a (vals l)).
  { clear l. induction l as [|c l IH]; intros a; [done|]. cbn [dval_from vfold vals map fold_left].
    fold (dval_from (a * 10 + (c - 48)) l). fold (vals l). fold (vfold (a * 10 + (c - 48)) (vals l)). apply IH. }
  unfold dval. induction l as [|c l IH]; [done|]. cbn [significant]. destruct (c =? 48) eqn:E; [|apply H].
  apply Z.eqb_eq in E as ->. exact IH.
Qed.

Lemma digits_significant l : Forall digit l -> Forall dig (vals (significant l)).
Proof.
  intros H. destruct (significant_suffix l) as [n E]. rewrite E in H. apply Forall_app in H as [_ H].
  apply Forall_map. eapply Forall_impl; [exact H|]. intros c Hc. unfold digit in Hc. unfold dig. lia.
Qed.

(** The state of the loop after the digits [l], [r] of them after the point. *)
Definition scan_of (radix : bool) (r : Z) (l : bytes) : digit_scan :=
  let ds := vals (significant l) in
  mk_scan radix (negb (zlen ds =? 0)) (zlen l) (zlen ds) r (if zlen ds =? 0 then 0 else leading l) ds.

Lemma scan_digit_of radix r l c : digit c -> zlen (significant (l ++ [c])) <= 34 ->
  scan_digit (scan_of radix r l) c = scan_of radix (if radix then r + 1 else r) (l ++ [c]).
Proof.
  intros Hc Hlen. unfold scan_digit, scan_of, leading. cbn [digits found_nonzero ndigits_read ndigits radix_position first_nonzero saw_radix].
  rewrite !zlen_vals, zlen_app, significant_snoc in *. change (zlen [c]) with 1.
  destruct (significant l) as [|x k] eqn:E.
  - rewrite zlen_nil. change (0 =? 0) with true. change (0 <? 34) with true. cbn [negb orb andb].
    rewrite orb_false_r. destruct (c =? 48); [reflexivity|]. change (zlen [c]) with 1. cbn [negb orb andb vals map app].
    change (1 =? 0) with false. cbn [negb]. by replace (zlen l + 1 - 1) with (zlen l) by lia.
  - assert (El : zlen ((x :: k) ++ [c]) = zlen (x :: k) + 1) by (rewrite zlen_app; reflexivity). rewrite El in *.
    rewrite zlen_cons in *. pose proof (zlen_nonneg k). set (n := 1 + zlen k) in *.
    replace (n =? 0) with false by lia. replace (n + 1 =? 0) with false by lia. replace (n <? 34) with true by lia.
    cbn [negb andb]. rewrite !orb_true_r. cbn [negb orb andb]. unfold vals. rewrite map_app. cbn [map].
    by replace (zlen l + 1 - (n + 1)) with (zlen l - n) by lia.
Qed.

Lemma read_digits_run radix rest l : forall r k, Forall digit l -> zlen (significant (k ++ l)) <= 34 ->
  read_digits (scan_of radix r k) (l ++ rest) = read_digits (scan_of radix (if radix then r + zlen l else r) (k ++ l)) rest.
Proof.
  induction l as [|c l IH]; intros r k Hd Hlen.
  { rewrite app_nil_r. cbn [app]. rewrite zlen_nil, Z.add_0_r. by destruct radix. }
  inversion_clear Hd as [|? ? Hc Hl]. cbn [app read_digits]. pose proof Hc as Hc'. unfold digit in Hc'. replace (c =? 46) with false by lia.
  replace (isdigit c) with true by (symmetry; by apply isdigit_spec).
  replace (k ++ c :: l) with ((k ++ [c]) ++ l) in * by (by rewrite <- app_assoc).
  rewrite scan_digit_of by (done || (pose proof (significant_app_length (k ++ [c]) l); lia)).
  rewrite IH by done. rewrite zlen_cons. destruct radix; [|done]. by replace (r + 1 + zlen l) with (r + (1 + zlen l)) by lia.
Qed.

(** ** Numerals *)

(** Digits with an optional point. *)
Definition mantissa (ip : bytes) (fp : option bytes) : bytes := ip ++ match fp with None => [] | Some fp => 46 :: fp end.
(** The digits after the point. *)
Definition frac (fp : option bytes) : bytes := match fp with Some fp => fp | None => [] end.
Definition all_digits (ip : bytes) (fp : option bytes) : bytes := ip ++ frac fp.
Definition has_point (fp : option bytes) : bool := match fp with Some _ => true | None => false end.
Definition places (fp : option bytes) : Z := zlen (frac fp).

(** An optional exponent and its value. *)
Inductive exponent_text : bytes -> Z -> Prop :=
| exponent_none : exponent_text [] 0
| exponent_some c sg sign ds :
    c = 69 \/ c = 101 -> sign_prefix sg sign -> Forall digit ds -> ds <> [] -> exponent_text (c :: sg ++ ds) (sign * dval ds).

Definition stops (rest : bytes) : Prop := exists c t, rest = c :: t /\ isdigit c = false /\ c <> 46.

Lemma read_mantissa ip fp rest : Forall digit (all_digits ip fp) -> zlen (significant (all_digits ip fp)) <= 34 -> stops rest ->
  read_digits scan_start (mantissa ip fp ++ rest) =
    Ret (Some (scan_of (has_point fp) (places fp) (all_digits ip fp), rest)).
Proof.
  intros Hd Hlen (c & t & -> & Hc & Hp). unfold mantissa, all_digits, places in *. apply Forall_app in Hd as [Hi Hf].
  change scan_start with (scan_of false 0 []). rewrite <- app_assoc.
  assert (Hs : forall s, read_digits s (c :: t) = Ret (Some (s, c :: t))).
  { intros s. cbn [read_digits]. replace (c =? 46) with false by lia. by rewrite Hc. }
  rewrite read_digits_run by (done || (rewrite app_nil_l; pose proof (significant_app_length ip (frac fp)); lia)).
  cbv iota. rewrite app_nil_l. destruct fp as [fp|]; cbn [frac app] in *.
  - cbn [read_digits]. change (46 =? 46) with true. cbv iota. cbn [saw_radix scan_of found_nonzero ndigits_read ndigits radix_position first_nonzero digits].
    change (mk_scan true _ _ _ _ _ _) with (scan_of true 0 ip). rewrite read_digits_run by done. apply Hs.
  - rewrite app_nil_r. apply Hs.
Qed.

Lemma span_digits_spec ds c t : Forall digit ds -> isdigit c = false -> span_digits (ds ++ c :: t) = Ret (ds, c :: t).
Proof.
  induction 1 as [|d ds Hd _ IH]; intros Hc; cbn [app span_digits]; [by rewrite Hc|].
  rewrite (proj2 (isdigit_spec d) Hd), IH by done. reflexivity.
Qed.

Lemma sscanf_d_spec sg sign ds post : sign_prefix sg sign -> Forall digit ds -> ds <> [] -> - 2 ^ 31 <= sign * dval ds < 2 ^ 31 ->
  sscanf_d (sg ++ ds ++ (0 :: post)) = Ret (Some (sign * dval ds, (0 :: post))).
Proof.
  intros Hsg Hd Hne Hr. destruct ds as [|d ds]; [done|]. pose proof (Forall_inv Hd) as Hd0. unfold digit in Hd0.
  assert (Hz : (zlen (d :: ds) =? 0) = false) by (rewrite zlen_cons; pose proof (zlen_nonneg ds); lia).
  assert (Hsp : span_digits (d :: ds ++ (0 :: post)) = Ret (d :: ds, (0 :: post))) by by apply (span_digits_spec (d :: ds) 0 post).
  unfold sscanf_d. destruct Hsg; cbn [app skip_space].
  - replace (isspace d) with false by (unfold isspace; lia). cbn [mbind outcome_bind]. rewrite rd_head. cbn [mbind outcome_bind].
    replace (d =? 43) with false by lia. replace (d =? 45) with false by lia. cbn [orb]. cbv iota. rewrite Hsp. cbn [mbind outcome_bind].
    rewrite Hz. replace (1 * dval (d :: ds)) with (dval (d :: ds)) in * by lia.
    replace (- 2 ^ 31 <=? dval (d :: ds)) with true by lia. by replace (dval (d :: ds) <? 2 ^ 31) with true by lia.
  - change (isspace 43) with false. cbn [mbind outcome_bind]. rewrite rd_head. cbn [mbind outcome_bind].
    change (43 =? 43) with true. change (43 =? 45) with false. cbn [orb drop]. cbv iota. rewrite Hsp. cbn [mbind outcome_bind].
    rewrite Hz. replace (1 * dval (d :: ds)) with (dval (d :: ds)) in * by lia.
    replace (- 2 ^ 31 <=? dval (d :: ds)) with true by lia. by replace (dval (d :: ds) <? 2 ^ 31) with true by lia.
  - change (isspace 45) with false. cbn [mbind outcome_bind]. rewrite rd_head. cbn [mbind outcome_bind].
    change (45 =? 43) with false. change (45 =? 45) with true. cbn [orb drop]. cbv iota. rewrite Hsp. cbn [mbind outcome_bind].
    rewrite Hz. replace (-1 * dval (d :: ds)) with (- dval (d :: ds)) in * by lia.
    replace (- 2 ^ 31 <=? - dval (d :: ds)) with true by lia. by replace (- dval (d :: ds) <? 2 ^ 31) with true by lia.
Qed.

(** The loop over trailing zeros stops at a character that is not a zero. *)
Lemma mark_trailing_spec string base n : 0 <= base -> base + Z.of_nat n <= zlen string ->
  (exists j c, (j < n)%nat /\ rd string (base + Z.of_nat j) = Ret c /\ c <> 48) ->
  exists k, mark_trailing string base n = Ret k /\ 1 <= k <= Z.of_nat n.
Proof.
  intros Hb. induction n as [|n IH]; intros Hlen (j & c & Hj & Hc & Hne); [lia|]. cbn [mark_trailing].
  destruct (rd_ret string (base + Z.of_nat n)) as [x Hx]; [lia|]. rewrite Hx. cbn [mbind outcome_bind].
  destruct (x =? 48) eqn:E; bool_hyps; [|exists (Z.of_nat n + 1); split; [done | lia]].
  destruct (decide (j = n)) as [->|Hjn]; [rewrite Hx in Hc; congruence|].
  destruct IH as (k & Hk & ?); [lia | exists j, c; split; [lia | done] |]. exists k. split; [done | lia].
Qed.

(** ** The end of the conversion *)

Lemma shift_up_none fuel sig e last : (0 < fuel)%nat -> e <= EXPONENT_MAX -> shift_up fuel sig e last = Ret (Some (e, last)).
Proof. destruct fuel; [lia|]. intros. cbn [shift_up]. by replace (e >? EXPONENT_MAX) with false by lia. Qed.

Lemma shift_down_none fuel string ds off stored sig e last :
  (0 < fuel)%nat -> EXPONENT_MIN <= e -> shift_down fuel string ds off stored sig e last stored = Ret (Some (e, last)).
Proof. destruct fuel; [lia|]. intros. cbn [shift_down]. replace (e <? EXPONENT_MIN) with false by lia. by rewrite Z.ltb_irrefl. Qed.

(** The exponent less the places after the point, through the unsigned words. *)
Lemma exponent_places x r : - 2 ^ 31 <= x < 2 ^ 31 -> 0 <= r -> EXPONENT_MIN <= x - r <= EXPONENT_MAX ->
  (if (u64 x <=? r) && (u64 (r - u64 x) >? 2 ^ 14) then EXPONENT_MIN else s32 (u64 (u64 x - r))) = x - r.
Proof.
  unfold EXPONENT_MIN, EXPONENT_MAX. intros Hx Hr He.
  assert (E : (u64 x <=? r) && (u64 (r - u64 x) >? 2 ^ 14) = false).
  { destruct (Z.lt_ge_cases x 0).
    - assert (u64 x = x + 2 ^ 64) by (unfold u64; euclid). replace (u64 x <=? r) with false by lia. done.
    - rewrite (u64_id x) by lia. rewrite andb_false_iff. destruct (Z.lt_ge_cases r x); [left; lia|]. right. rewrite u64_id; lia. }
  rewrite E. unfold s32, u64. rewrite Zminus_mod_idemp_l. change (2 ^ 64) with (2 ^ 32 * 2 ^ 32).
  rewrite Z.rem_mul_r by lia. rewrite <- Z.add_mod_idemp_l by lia. euclid.
Qed.

Lemma finish_spec string (neg inc radix : bool) r l x :
  Forall digit l -> zlen (significant l) <= 34 -> - 2 ^ 31 <= x < 2 ^ 31 -> 0 <= r -> EXPONENT_MIN <= x - r <= EXPONENT_MAX ->
  (significant l <> [] ->
   exists k, mark_trailing string (leading l + ((if inc then 1 else 0) + (if radix then 1 else 0))) (length (significant l)) = Ret k /\
     1 <= k <= zlen (significant l)) ->
  finish_decimal string neg inc (scan_of radix r l) x = Ret (true, decimal neg (dval l) (x - r)).
Proof.
  intros Hd Hlen Hx Hr He Hm. unfold finish_decimal. cbn [scan_of saw_radix digits first_nonzero ndigits radix_position].
  rewrite exponent_places by done. rewrite zlen_vals. unfold EXPONENT_MIN, EXPONENT_MAX in He. rewrite dval_significant.
  pose proof (digits_significant l Hd) as Hds. destruct (significant l) as [|c k] eqn:E.
  - cbn [vals map]. change (zlen (@nil Z)) with 0. change (0 =? 0) with true. cbv iota. cbn [mbind outcome_bind].
    rewrite shift_up_none by (unfold EXPONENT_MAX; lia). cbn [mbind outcome_bind].
    rewrite shift_down_none by (unfold EXPONENT_MIN; lia). cbn [mbind outcome_bind].
    change (0 + 1 <? 0) with false. cbv iota. cbn [mbind outcome_bind]. unfold encode_significand. change (0 =? 0) with true. cbv iota. cbn [mbind outcome_bind].
    rewrite encode_decimal_spec by (unfold EXPONENT_MIN, EXPONENT_MAX; lia). reflexivity.
  - destruct (Hm ltac:(done)) as (n & Hn & Hnr). assert (Hpos : 0 < zlen (c :: k)) by (rewrite zlen_cons; pose proof (zlen_nonneg k); lia).
    replace (zlen (c :: k) =? 0) with false by lia. replace (Z.to_nat (zlen (c :: k))) with (length (c :: k)) by zl.
    rewrite Hn. cbn [mbind outcome_bind].
    rewrite shift_up_none by (unfold EXPONENT_MAX; lia). cbn [mbind outcome_bind]. rewrite shift_down_none by (unfold EXPONENT_MIN; lia).
    cbn [mbind outcome_bind]. replace (zlen (c :: k) - 1 + 1 <? n) with false by lia. cbn [mbind outcome_bind].
    destruct (encode_significand_spec (vals (c :: k)) n) as (hi & lo & Hen & Hhi & Hlo & Ev); [done | done | by rewrite zlen_vals | lia |].
    rewrite zlen_vals in Hen. rewrite Hen. cbn [mbind outcome_bind]. rewrite encode_decimal_spec, Ev by (done || (unfold EXPONENT_MIN, EXPONENT_MAX; lia)). reflexivity.
Qed.

(** ** Reading a numeral *)

(** The first significant digit is not a zero. *)
Lemma rd_leading l : significant l <> [] -> exists c, rd l (leading l) = Ret c /\ c <> 48.
Proof.
  intros H. destruct (significant_suffix l) as [n E]. assert (Hl : leading l = zlen (replicate n 48)).
  { unfold leading. rewrite E at 1. rewrite zlen_app. lia. }
  assert (Hh : forall k, match significant k with [] => True | c :: _ => c <> 48 end).
  { induction k as [|c k IH]; [done|]. cbn [significant]. destruct (c =? 48) eqn:Ec; [exact IH|]. lia. }
  specialize (Hh l). destruct (significant l) as [|c k] eqn:Es; [done|]. exists c. split; [|done].
  rewrite Hl, E, rd_app_r, Z.sub_diag by lia. reflexivity.
Qed.

Lemma rd_mantissa sg ip fp tail i : (if has_point fp then zlen ip else 0) <= i < zlen (all_digits ip fp) ->
  rd (sg ++ mantissa ip fp ++ tail) (i + (zlen sg + (if has_point fp then 1 else 0))) = rd (all_digits ip fp) i.
Proof.
  unfold mantissa, all_digits. pose proof (zlen_nonneg ip). pose proof (zlen_nonneg sg). destruct fp as [fp|]; cbn [has_point frac];
    rewrite ?app_nil_r; intros Hi.
  - rewrite zlen_app in Hi. rewrite <- app_assoc, rd_app_r by lia. rewrite rd_app_r by lia. rewrite (rd_app_r ip fp) by lia. cbn [app].
    change (46 :: fp ++ tail) with ([46] ++ fp ++ tail). rewrite rd_app_r by (change (zlen [46]) with 1; lia).
    change (zlen [46]) with 1. rewrite rd_app_l by lia. f_equal. lia.
  - rewrite rd_app_r by lia. rewrite rd_app_l by lia. f_equal. lia.
Qed.

Lemma rd_point sg ip fp tail : rd (sg ++ mantissa ip (Some fp) ++ tail) (zlen sg + zlen ip) = Ret 46.
Proof.
  unfold mantissa. pose proof (zlen_nonneg ip). rewrite <- app_assoc, rd_app_r by lia. rewrite rd_app_r by lia.
  by replace (zlen sg + zlen ip - zlen sg - zlen ip) with 0 by lia.
Qed.

Lemma zlen_mantissa ip fp : zlen (mantissa ip fp) = zlen (all_digits ip fp) + (if has_point fp then 1 else 0).
Proof. unfold mantissa, all_digits. destruct fp; cbn [has_point frac]; zl. Qed.

Lemma mark_trailing_mantissa sg ip fp tail : let l := all_digits ip fp in significant l <> [] ->
  exists k, mark_trailing (sg ++ mantissa ip fp ++ tail) (leading l + (zlen sg + (if has_point fp then 1 else 0)))
    (length (significant l)) = Ret k /\ 1 <= k <= zlen (significant l).
Proof.
  intros l Hne. pose proof (leading_nonneg l). pose proof (zlen_nonneg sg). pose proof (zlen_nonneg tail).
  pose proof (zlen_mantissa ip fp) as Hm. fold l in Hm. assert (Hl : zlen l = leading l + zlen (significant l)) by (unfold leading; lia).
  assert (0 < zlen (significant l)) by (destruct (significant l); [done | rewrite zlen_cons; pose proof (zlen_nonneg l0); lia]).
  apply mark_trailing_spec.
  - destruct (has_point fp); lia.
  - rewrite !zlen_app, Hm. fold (zlen (significant l)). destruct (has_point fp); lia.
  - destruct (Z.le_gt_cases (if has_point fp then zlen ip else 0) (leading l)) as [Hle|Hgt].
    + destruct (rd_leading l Hne) as (c & Hc & Hn). exists 0%nat, c. split; [zl|]. split; [|done].
      rewrite Z.add_0_r. rewrite rd_mantissa; [exact Hc | fold l; lia].
    + destruct fp as [fp|]; cbn [has_point] in *; [|lia]. exists (Z.to_nat (zlen ip - leading l - 1)), 46.
      assert (zlen ip <= zlen l) by (subst l; unfold all_digits; zl). split; [zl|]. split; [|done].
      rewrite <- (rd_point sg ip fp tail). f_equal. lia.
Qed.

Lemma exponent_read ex x post : exponent_text ex x -> - 2 ^ 31 <= x < 2 ^ 31 ->
  stops (ex ++ (0 :: post)) /\ exists c, rd (ex ++ (0 :: post)) 0 = Ret c /\
    (if (c =? 101) || (c =? 69) then sscanf_d (drop 1 (ex ++ (0 :: post))) else Ret (Some (0, ex ++ (0 :: post)))) = Ret (Some (x, (0 :: post))).
Proof.
  intros [|c esg esign ds Hc Hes Hds Hdn] Hx; [split; [by exists 0, post | by exists 0]|].
  split; [exists c; eexists; split; [reflexivity | unfold isdigit; lia]|]. exists c. split; [reflexivity|].
  replace ((c =? 101) || (c =? 69)) with true by (destruct Hc; subst; done). rewrite <- app_comm_cons.
  change (drop 1 (c :: (esg ++ ds) ++ (0 :: post))) with ((esg ++ ds) ++ (0 :: post)). by rewrite <- app_assoc, (sscanf_d_spec esg esign).
Qed.

Lemma read_decimal_spec sg neg (inc : bool) ip fp ex x post : zlen sg = (if inc then 1 else 0) ->
  Forall digit (all_digits ip fp) -> all_digits ip fp <> [] ->
  zlen (significant (all_digits ip fp)) <= 34 -> exponent_text ex x -> - 2 ^ 31 <= x < 2 ^ 31 ->
  EXPONENT_MIN <= x - places fp <= EXPONENT_MAX ->
  read_decimal (sg ++ mantissa ip fp ++ ex ++ (0 :: post)) neg inc (mantissa ip fp ++ ex ++ (0 :: post)) =
    Ret (true, decimal neg (dval (all_digits ip fp)) (x - places fp)).
Proof.
  intros Hsg Hd Hne Hlen Hex Hx He. destruct (exponent_read ex x post Hex Hx) as (Hstop & c & Hc & Hr). unfold read_decimal.
  rewrite read_mantissa by done. cbn [mbind outcome_bind scan_of saw_radix ndigits_read].
  replace (has_point fp && (zlen (all_digits ip fp) =? 0)) with false.
  2:{ destruct (all_digits ip fp) as [|a l]; [done|]. rewrite zlen_cons. pose proof (zlen_nonneg l). symmetry. rewrite andb_false_iff. right. lia. }
  rewrite Hc. cbn [mbind outcome_bind]. rewrite Hr. cbn [mbind outcome_bind]. rewrite rd_head. cbn [mbind outcome_bind].
  change (negb (0 =? 0)) with false. cbv iota. apply finish_spec; [done | done | done | apply zlen_nonneg | done |].
  intros Hs. rewrite <- Hsg. by apply mark_trailing_mantissa.
Qed.

Lemma numeral_read_spec sg sign ip fp ex x post :
  sign_prefix sg sign -> Forall digit (all_digits ip fp) -> all_digits ip fp <> [] ->
  zlen (significant (all_digits ip fp)) <= 34 -> exponent_text ex x -> - 2 ^ 31 <= x < 2 ^ 31 ->
  EXPONENT_MIN <= x - places fp <= EXPONENT_MAX ->
  bson_decimal128_from_string (sg ++ mantissa ip fp ++ ex ++ (0 :: post)) =
    Ret (true, decimal (sign =? -1) (dval (all_digits ip fp)) (x - places fp)).
Proof.
  intros Hsg Hd Hne Hlen Hex Hx He.
  assert (Hhead : exists c t, mantissa ip fp ++ ex ++ (0 :: post) = c :: t /\ (isdigit c = true \/ c = 46)).
  { unfold mantissa. destruct ip as [|c ip]; [|exists c; eexists; split; [reflexivity|]; left; apply isdigit_spec, (Forall_inv Hd)].
    destruct fp as [fp|]; [|done]. exists 46. eexists. split; [reflexivity | by right]. }
  destruct Hhead as (c & t & Hct & Hc).
  assert (Hnum : negb (isdigit c) && negb (c =? 46) = false) by (destruct Hc as [Hc| ->]; [by rewrite Hc | done]).
  assert (Hsign : (c =? 43) = false /\ (c =? 45) = false) by (unfold isdigit in Hc; lia). destruct Hsign as [Hp Hmn].
  unfold bson_decimal128_from_string.
  destruct Hsg; cbn [app]; rewrite ?Hct, !rd_head; cbn [mbind outcome_bind].
  - rewrite Hp, Hmn. cbn [orb]. cbv iota. rewrite rd_head. cbn [mbind outcome_bind]. rewrite Hnum, <- Hct. by apply (read_decimal_spec [] false false).
  - change (43 =? 43) with true. change (43 =? 45) with false. cbn [orb drop]. cbv iota. rewrite rd_head. cbn [mbind outcome_bind].
    rewrite Hnum, <- Hct. by apply (read_decimal_spec [43] false true).
  - change (45 =? 43) with false. change (45 =? 45) with true. cbn [orb drop]. cbv iota. rewrite rd_head. cbn [mbind outcome_bind].
    rewrite Hnum, <- Hct. by apply (read_decimal_spec [45] true true).
Qed.

(** ** Dividing the coefficient *)

Definition is_word (p : Z) : Prop := 0 <= p < 2 ^ 32.
Definition words (v : _bson_uint128_t) : Prop :=
  match v with (p0, p1, p2, p3) => is_word p0 /\ is_word p1 /\ is_word p2 /\ is_word p3 end.
Definition val128 (v : _bson_uint128_t) : Z :=
  match v with (p0, p1, p2, p3) => ((p0 * 2 ^ 32 + p1) * 2 ^ 32 + p2) * 2 ^ 32 + p3 end.

Lemma divide_step_spec rem part : 0 <= rem < 1000000000 -> is_word part ->
  let '(q, r) := divide_step rem part in is_word q /\ 0 <= r < 1000000000 /\ rem * 2 ^ 32 + part = q * 1000000000 + r.
Proof.
  unfold is_word. intros Hr Hp. unfold divide_step. rewrite Z.shiftl_mul_pow2, (u64_id (rem * _)), u64_id by lia.
  rewrite u32_id by euclid. split; [euclid|]. split; [apply Z.mod_pos_bound; lia|].
  rewrite (Z.div_mod (rem * 2 ^ 32 + part) 1000000000) at 1 by lia. lia.
Qed.

Lemma divide1B_spec v : words v ->
  words (_bson_uint128_divide1B v).1 /\ val128 (_bson_uint128_divide1B v).1 = val128 v / 1000000000 /\
  (_bson_uint128_divide1B v).2 = val128 v mod 1000000000.
Proof.
  destruct v as [[[p0 p1] p2] p3]. intros (H0 & H1 & H2 & H3). unfold _bson_uint128_divide1B.
  destruct (_ && _) eqn:E; [bool_hyps; subst; done|]. clear E.
  pose proof (divide_step_spec 0 p0 ltac:(lia) H0) as S0. destruct (divide_step 0 p0) as [q0 r0]. destruct S0 as (W0 & R0 & E0).
  pose proof (divide_step_spec r0 p1 R0 H1) as S1. destruct (divide_step r0 p1) as [q1 r1]. destruct S1 as (W1 & R1 & E1).
  pose proof (divide_step_spec r1 p2 R1 H2) as S2. destruct (divide_step r1 p2) as [q2 r2]. destruct S2 as (W2 & R2 & E2).
  pose proof (divide_step_spec r2 p3 R2 H3) as S3. destruct (divide_step r2 p3) as [q3 r3]. destruct S3 as (W3 & R3 & E3).
  cbn [fst snd]. rewrite u32_id by lia. split; [done|].
  assert (E : val128 (p0, p1, p2, p3) = 1000000000 * val128 (q0, q1, q2, q3) + r3) by (cbn [val128]; lia).
  split; [by apply (Z.div_unique_pos _ _ _ r3) | by apply (Z.mod_unique_pos _ _ (val128 (q0, q1, q2, q3)))].
Qed.

Lemma nine_digits_acc n : forall v acc, nine_digits n v acc = nine_digits n v [] ++ acc.
Proof.
  induction n as [|n IH]; intros v acc; [done|]. cbn [nine_digits]. rewrite IH, (IH _ [_]), <- app_assoc. done.
Qed.

Lemma nine_digits_spec n : forall v, 0 <= v ->
  let ds := nine_digits n v [] in length ds = n /\ Forall dig ds /\ vfold 0 ds = v mod 10 ^ Z.of_nat n.
Proof.
  induction n as [|n IH]; intros v Hv; [cbn; rewrite Z.mod_1_r; done|]. cbn [nine_digits]. rewrite nine_digits_acc.
  destruct (IH (v / 10)) as (Hl & Hd & Ev); [apply Z.div_pos; lia|]. cbv zeta. split; [rewrite length_app, Hl; cbn; lia|].
  pose proof (Z.mod_pos_bound v 10 ltac:(lia)). split; [apply Forall_app; split; [done|]; repeat constructor; lia|].
  rewrite vfold_app, Ev. cbn [vfold fold_left]. rewrite Nat2Z.inj_succ, Z.pow_succ_r by lia.
  rewrite Z.rem_mul_r by (try apply Z.pow_pos_nonneg; lia). lia.
Qed.

Lemma groups_spec k : forall v acc, words v ->
  exists ds, significand_groups k v acc = ds ++ acc /\ length ds = (9 * k)%nat /\ Forall dig ds /\
    vfold 0 ds = val128 v mod 10 ^ (9 * Z.of_nat k).
Proof.
  induction k as [|k IH]; intros v acc Hw; [exists []; rewrite Z.mod_1_r; done|]. cbn [significand_groups].
  destruct (divide1B_spec v Hw) as (Hwq & Hq & Hr). destruct (_bson_uint128_divide1B v) as [q r]. cbn [fst snd] in *.
  assert (Hv : 0 <= val128 v) by (destruct v as [[[p0 p1] p2] p3]; cbn [words val128] in *; unfold is_word in *; lia).
  set (g := if r =? 0 then _ else _).
  assert (Hg : length g = 9%nat /\ Forall dig g /\ vfold 0 g = val128 v mod 10 ^ 9).
  { change (10 ^ 9) with 1000000000. rewrite <- Hr. subst g. pose proof (Z.mod_pos_bound (val128 v) 1000000000 ltac:(lia)).
    destruct (r =? 0) eqn:E; bool_hyps; [subst r; rewrite E; split; [done|]; split; [repeat constructor; lia | done]|].
    destruct (nine_digits_spec 9 r ltac:(lia)) as (? & ? & Ev). split; [done|]. split; [done|]. rewrite Ev. apply Z.mod_small. cbn. lia. }
  destruct Hg as (Hgl & Hgd & Hgv). destruct (IH q (g ++ acc) Hwq) as (ds & Hds & Hl & Hd & Ev).
  exists (ds ++ g). split; [by rewrite Hds, app_assoc|]. split; [rewrite length_app; lia|]. split; [by apply Forall_app|].
  rewrite vfold_app, vfold_linear, Ev, Hgv, Hq. unfold zlen. rewrite Hgl. change (Z.of_nat 9) with 9. change (10 ^ 9) with 1000000000.
  replace (9 * Z.of_nat (S k)) with (9 + 9 * Z.of_nat k) by lia. rewrite Z.pow_add_r by lia. change (10 ^ 9) with 1000000000.
  rewrite Z.rem_mul_r by (try apply Z.pow_pos_nonneg; lia). lia.
Qed.

Lemma skip_zeros_spec ds : vfold 0 ds <> 0 ->
  exists d t, skip_zeros ds = Ret (d :: t) /\ d <> 0 /\ vfold 0 (d :: t) = vfold 0 ds /\ exists z, ds = replicate z 0 ++ d :: t.
Proof.
  induction ds as [|d ds IH]; intros H; [done|]. cbn [skip_zeros]. destruct (d =? 0) eqn:E; bool_hyps.
  - subst d. destruct IH as (d & t & Hs & Hd & Ev & z & Ez); [exact H|]. exists d, t. split; [done|]. split; [done|].
    split; [exact Ev|]. exists (S z). cbn [replicate app]. by rewrite <- Ez.
  - exists d, ds. split; [done|]. split; [done|]. split; [done|]. by exists 0%nat.
Qed.

(** ** Printing *)

Definition chr (ds : bytes) : bytes := map (fun d => d + 48) ds.

Lemma zlen_chr ds : zlen (chr ds) = zlen ds.
Proof. unfold zlen, chr. by rewrite length_map. Qed.
#[local] Hint Rewrite zlen_chr : zlen.

Lemma put_ok out c : zlen out < 43 -> put_char out c = Ret (out ++ [c]).
Proof. intros. unfold put_char, BSON_DECIMAL128_STRING. by replace (zlen out <? 43) with true by lia. Qed.

Lemma put_all_ok cs : forall out, zlen out + zlen cs <= 43 -> put_all out cs = Ret (out ++ cs).
Proof.
  induction cs as [|c cs IH]; intros out H; [by rewrite app_nil_r|]. rewrite zlen_cons in H. pose proof (zlen_nonneg cs).
  cbn [put_all]. rewrite put_ok by lia. cbn [mbind outcome_bind]. rewrite IH by zl. by rewrite <- app_assoc.
Qed.

Lemma put_zeros_ok n : forall out, zlen out + Z.of_nat n <= 43 -> put_zeros n out = Ret (out ++ replicate n 48).
Proof.
  induction n as [|n IH]; intros out H; [by rewrite app_nil_r|]. cbn [put_zeros]. rewrite put_ok by lia.
  cbn [mbind outcome_bind]. rewrite IH by zl. cbn [replicate]. by rewrite <- app_assoc.
Qed.

Lemma put_digits_ok limit a : forall b out, limit <= 43 -> zlen out + zlen a <= limit ->
  put_digits (length a) limit out (a ++ b) = Ret (out ++ chr a, b).
Proof.
  induction a as [|d a IH]; intros b out Hl H; [by rewrite app_nil_r|]. rewrite zlen_cons in H. pose proof (zlen_nonneg a).
  cbn [length put_digits app]. replace (zlen out <? limit) with true by lia. rewrite put_ok by lia. cbn [mbind outcome_bind].
  rewrite IH by zl. cbn [chr map]. by rewrite <- app_assoc.
Qed.

Lemma put_digits_all limit n ds out : n = zlen ds -> limit <= 43 -> zlen out + zlen ds <= limit ->
  put_digits (Z.to_nat n) limit out ds = Ret (out ++ chr ds, []).
Proof.
  intros -> Hl H. pose proof (put_digits_ok limit ds [] out Hl H) as Hp. rewrite app_nil_r in Hp.
  by replace (Z.to_nat (zlen ds)) with (length ds) by zl.
Qed.

Lemma digits_chr ds : Forall dig ds -> Forall digit (chr ds).
Proof. intros H. apply Forall_map. eapply Forall_impl; [exact H|]. unfold dig, digit. lia. Qed.

Lemma dval_zeros n ds : dval (replicate n 48 ++ chr ds) = vfold 0 ds.
Proof.
  assert (H : forall ds a, dval_from a (chr ds) = vfold a ds).
  { clear ds. induction ds as [|d ds IH]; intros a; [done|]. cbn [dval_from vfold chr map fold_left].
    replace (a * 10 + (d + 48 - 48)) with (a * 10 + d) by lia. apply IH. }
  unfold dval. induction n as [|n IH]; [apply H | exact IH].
Qed.

Lemma significant_zeros n ds : zlen (significant (replicate n 48 ++ chr ds)) <= zlen ds.
Proof.
  induction n as [|n IH]; [|exact IH]. cbn [replicate app]. rewrite <- (zlen_chr ds).
  pose proof (leading_nonneg (chr ds)) as H. unfold leading in H. lia.
Qed.

(** What is printed is a numeral, in the terms of the reader. *)
Definition numeral_of (ds : bytes) (e : Z) (text : bytes) : Prop :=
  exists ip fp ex x, text = mantissa ip fp ++ ex ++ [0] /\ all_digits ip fp <> [] /\ exponent_text ex x /\
    - 2 ^ 31 <= x < 2 ^ 31 /\ x - places fp = e /\ exists z, all_digits ip fp = replicate z 48 ++ chr ds.

Lemma fmt_plus_spec x : -10000 < x < 10000 -> exponent_text (69 :: fmt_plus x) x /\ zlen (fmt_plus x) <= 5.
Proof.
  intros Hx. destruct (fmt_u_spec (Z.abs x) ltac:(lia)) as ((Hd & Hne & _) & Hv).
  pose proof (dec_loop_length 20 (Z.abs x) 4 ltac:(lia) ltac:(change (10 ^ 4) with 10000; lia)) as Hl. fold (fmt_u (Z.abs x)) in Hl.
  unfold fmt_plus. rewrite zlen_cons. split; [|lia]. destruct (x <? 0) eqn:E; bool_hyps.
  - pose proof (exponent_some 69 [45] (-1) _ ltac:(by left) sign_minus Hd Hne) as H. rewrite Hv in H.
    by replace (-1 * Z.abs x) with x in H by lia.
  - pose proof (exponent_some 69 [43] 1 _ ltac:(by left) sign_plus Hd Hne) as H. rewrite Hv in H.
    by replace (1 * Z.abs x) with x in H by lia.
Qed.

Definition printed (sg ds : bytes) (e : Z) (o : outcome bytes) : Prop :=
  exists text, o = Ret (sg ++ text) /\ numeral_of ds e text.

Lemma print_scientific sg ds e : zlen sg <= 1 -> 1 <= zlen ds <= 34 -> EXPONENT_MIN <= e <= EXPONENT_MAX ->
  (zlen ds - 1 + e <? -6) || (e >? 0) = true -> printed sg ds e (print_decimal sg ds e).
Proof.
  unfold EXPONENT_MIN, EXPONENT_MAX. intros Hsg Hlen He Hs. unfold print_decimal. rewrite Hs. destruct ds as [|d t]; [rewrite zlen_nil in Hlen; lia|]. clear Hs.
  rewrite zlen_cons in *. pose proof (zlen_nonneg t). pose proof (zlen_nonneg sg).
  pose proof (put_digits_ok BSON_DECIMAL128_STRING [d] t sg) as Hp. change (zlen [d]) with 1 in Hp. unfold BSON_DECIMAL128_STRING in Hp.
  cbn [length app] in Hp. unfold BSON_DECIMAL128_STRING. rewrite Hp by lia. cbn [mbind outcome_bind chr map].
  set (x := 1 + zlen t - 1 + e). assert (Hx : -10000 < x < 10000) by (subst x; lia).
  destruct (fmt_plus_spec x Hx) as [Hex Hl5].
  assert (Hn : bson_snprintf 6 (fmt_plus x) = Ret (fmt_plus x ++ [0], zlen (fmt_plus x))).
  { unfold bson_snprintf. change (6 <=? 0) with false. cbv iota. rewrite take_ge; [done|]. zl. }
  destruct t as [|d' t].
  - change (negb (1 + zlen [] - 1 =? 0)) with false. cbv iota. cbn [mbind outcome_bind]. change (Z.to_nat (1 + zlen [] - 1)) with 0%nat.
    cbn [put_digits mbind outcome_bind]. rewrite put_ok by zl. cbn [mbind outcome_bind]. rewrite Hn. cbn [mbind outcome_bind].
    rewrite put_all_ok by zl. exists (mantissa [d + 48] None ++ (69 :: fmt_plus x) ++ [0]).
    split; [unfold mantissa; rewrite <- !app_assoc; done|]. exists [d + 48], None, (69 :: fmt_plus x), x.
    split; [done|]. split; [done|]. split; [done|]. split; [lia|]. split; [|by exists 0%nat]. unfold places. cbn [frac]. subst x. change (zlen []) with 0. lia.
  - rewrite zlen_cons in *. pose proof (zlen_nonneg t). replace (negb (1 + (1 + zlen t) - 1 =? 0)) with true by lia. cbn [mbind outcome_bind].
    rewrite put_ok by zl. cbn [mbind outcome_bind]. rewrite put_digits_all by zl. cbn [mbind outcome_bind].
    rewrite put_ok by zl. cbn [mbind outcome_bind]. rewrite Hn. cbn [mbind outcome_bind]. rewrite put_all_ok by zl.
    exists (mantissa [d + 48] (Some (chr (d' :: t))) ++ (69 :: fmt_plus x) ++ [0]).
    split; [unfold mantissa; rewrite <- !app_assoc; done|]. exists [d + 48], (Some (chr (d' :: t))), (69 :: fmt_plus x), x.
    split; [done|]. split; [done|]. split; [done|]. split; [lia|]. split; [|by exists 0%nat].
    unfold places. cbn [frac]. subst x. rewrite zlen_chr, !zlen_cons. lia.
Qed.

Lemma print_integer sg ds : zlen sg <= 1 -> 1 <= zlen ds <= 34 -> printed sg ds 0 (print_decimal sg ds 0).
Proof.
  intros Hsg Hlen. unfold print_decimal. replace (zlen ds - 1 + 0 <? -6) with false by lia. change (0 >? 0) with false. cbn [orb].
  change (0 >=? 0) with true. cbv iota. rewrite put_digits_all by zl. cbn [mbind outcome_bind]. rewrite put_ok by zl.
  exists (mantissa (chr ds) None ++ [] ++ [0]). split; [unfold mantissa; by rewrite app_nil_r, app_assoc|].
  exists (chr ds), None, [], 0. unfold all_digits. cbn [frac]. rewrite app_nil_r. split; [done|].
  split; [intros E; apply (f_equal zlen) in E; rewrite zlen_chr in E; change (zlen []) with 0 in E; lia|].
  split; [constructor|]. split; [lia|]. split; [done|]. by exists 0%nat.
Qed.

Lemma split_digits (ds : bytes) n : 0 <= n <= zlen ds -> exists a b, ds = a ++ b /\ zlen a = n /\ zlen b = zlen ds - n.
Proof. intros H. exists (take (Z.to_nat n) ds), (drop (Z.to_nat n) ds). rewrite take_drop. split; [done|]. split; zl. Qed.

Lemma print_point sg ds e : zlen sg <= 1 -> 1 <= zlen ds <= 34 -> e < 0 -> -6 <= zlen ds - 1 + e ->
  printed sg ds e (print_decimal sg ds e).
Proof.
  intros Hsg Hlen He Hs. unfold print_decimal. replace (zlen ds - 1 + e <? -6) with false by lia. replace (e >? 0) with false by lia. cbn [orb].
  replace (e >=? 0) with false by lia. set (rp := zlen ds + e). pose proof (zlen_nonneg sg). destruct (rp >? 0) eqn:E.
  - assert (Hrp : 0 < rp < zlen ds) by (subst rp; lia). assert (Hre : rp = zlen ds + e) by done. clearbody rp.
    destruct (split_digits ds rp ltac:(lia)) as (a & b & -> & Ha & Hr). rewrite zlen_app in *. replace (Z.to_nat rp) with (length a) by zl.
    rewrite put_digits_ok by (unfold BSON_DECIMAL128_STRING; lia). cbn [mbind outcome_bind].
    rewrite put_ok by zl. cbn [mbind outcome_bind]. replace (Z.to_nat (- rp)) with 0%nat by lia. cbn [put_zeros mbind outcome_bind].
    rewrite Z.max_l by lia. rewrite put_digits_all by (unfold BSON_DECIMAL128_STRING; zl). cbn [mbind outcome_bind]. rewrite put_ok by zl.
    exists (mantissa (chr a) (Some (chr b)) ++ [] ++ [0]). split; [unfold mantissa; by rewrite <- !app_assoc|].
    exists (chr a), (Some (chr b)), [], 0. unfold all_digits, places. cbn [frac]. rewrite zlen_chr. split; [done|].
    split; [intros Ec; apply (f_equal zlen) in Ec; rewrite zlen_app, !zlen_chr in Ec; change (zlen []) with 0 in Ec; lia|].
    split; [constructor|]. split; [lia|]. split; [lia|]. exists 0%nat. unfold chr. by rewrite map_app.
  - rewrite put_ok by zl. cbn [mbind outcome_bind]. rewrite put_ok by zl. cbn [mbind outcome_bind].
    set (z := Z.to_nat (- rp)). assert (Hz : Z.of_nat z = - rp) by lia. assert (Hz5 : Z.of_nat z <= 5) by lia. clearbody z.
    rewrite put_zeros_ok by zl. cbn [mbind outcome_bind]. rewrite Z.max_r, Z.sub_0_r by lia.
    rewrite put_digits_all by (unfold BSON_DECIMAL128_STRING; zl). cbn [mbind outcome_bind]. rewrite put_ok by zl.
    exists (mantissa [48] (Some (replicate z 48 ++ chr ds)) ++ [] ++ [0]). split; [unfold mantissa; rewrite <- !app_assoc; cbn [app]; by rewrite <- !app_assoc|].
    exists [48], (Some (replicate z 48 ++ chr ds)), [], 0. unfold all_digits, places. cbn [frac]. rewrite zlen_app, zlen_chr, zlen_replicate.
    split; [done|]. split; [done|]. split; [constructor|]. split; [lia|]. split; [subst rp; lia|]. by exists (S z).
Qed.

Lemma print_spec sg ds e : zlen sg <= 1 -> 1 <= zlen ds <= 34 -> EXPONENT_MIN <= e <= EXPONENT_MAX ->
  printed sg ds e (print_decimal sg ds e).
Proof.
  intros Hsg Hlen He. destruct ((zlen ds - 1 + e <? -6) || (e >? 0)) eqn:E; [by apply print_scientific|].
  bool_hyps. destruct (Z.eq_dec e 0) as [->|]; [by apply print_integer | apply print_point; lia].
Qed.

(** A canonical encoding of a finite number. *)
Definition finite (d : bson_decimal128_t) : Prop :=
  0 <= d_low d < 2 ^ 64 /\ 0 <= d_high d < 2 ^ 64 /\ (d_high d / 2 ^ 49) mod 2 ^ 14 <= EXPONENT_MAX + EXPONENT_BIAS /\
  d_high d mod 2 ^ 49 * 2 ^ 64 + d_low d < 10 ^ 34.
#[global] Instance finite_dec d : Decision (finite d).
Proof. unfold finite. apply _. Defined.

Lemma finite_decimal d : finite d ->
  exists neg c e, d = decimal neg c e /\ 0 <= c < 10 ^ 34 /\ EXPONENT_MIN <= e <= EXPONENT_MAX.
Proof.
  unfold finite, EXPONENT_MAX, EXPONENT_MIN, EXPONENT_BIAS. destruct d as [low high]. cbn [d_low d_high]. intros (Hl & Hh & He & Hc).
  exists (2 ^ 63 <=? high), (high mod 2 ^ 49 * 2 ^ 64 + low), ((high / 2 ^ 49) mod 2 ^ 14 - 6176).
  unfold decimal, EXPONENT_BIAS. split; [|split; [euclid | euclid]]. f_equal.
  - rewrite Z.add_comm, Z_mod_plus_full, Z.mod_small; lia.
  - rewrite Z.div_add_l, (Z.div_small low) by lia. rewrite Z.sub_add, Z.add_0_r. destruct (2 ^ 63 <=? high) eqn:E; bool_hyps; euclid.
Qed.

Lemma significand_digits c : 0 < c < 10 ^ 34 -> forall v, words v -> val128 v = c ->
  exists ds, skip_zeros (significand_groups 4 v []) = Ret ds /\ Forall dig ds /\ 1 <= zlen ds <= 34 /\ vfold 0 ds = c.
Proof.
  intros Hc v Hw Hv. destruct (groups_spec 4 v [] Hw) as (g & Hg & Hgl & Hgd & Ev). rewrite app_nil_r in Hg. rewrite Hg, Hv in *.
  change (9 * Z.of_nat 4) with 36 in Ev. rewrite Z.mod_small in Ev by lia.
  destruct (skip_zeros_spec g) as (d & t & Hs & Hd0 & Hsv & z & Hz); [lia|]. rewrite Hz in Hgd. apply Forall_app in Hgd as [_ Hd].
  exists (d :: t). split; [done|]. split; [done|]. split; [|lia]. rewrite zlen_cons. pose proof (zlen_nonneg t).
  inversion_clear Hd as [|? ? Hd1 Ht]. unfold dig in Hd1. pose proof (vfold_bound t (0 * 10 + d) Ht ltac:(lia)) as Hb.
  change (vfold (0 * 10 + d) t) with (vfold 0 (d :: t)) in Hb. split; [lia|].
  destruct (Z.le_gt_cases (zlen t) 33) as [|Hgt]; [lia|]. pose proof (Z.pow_le_mono_r 10 34 (zlen t) ltac:(lia) ltac:(lia)). nia.
Qed.

(** The fields of a canonical encoding. *)
Lemma decimal_fields neg c e : 0 <= c < 10 ^ 34 -> EXPONENT_MIN <= e <= EXPONENT_MAX ->
  let d := decimal neg c e in let high := u32 (Z.shiftr (d_high d) 32) in let p0 := c / 2 ^ 64 / 2 ^ 32 in
  (s64 (d_high d) <? 0) = neg /\ u32 (d_low d) = c mod 2 ^ 32 /\ u32 (Z.shiftr (d_low d) 32) = c / 2 ^ 32 mod 2 ^ 32 /\
  u32 (d_high d) = c / 2 ^ 64 mod 2 ^ 32 /\ (Z.shiftr (Z.land (Z.shiftr high 26) 0x1f) 3 =? 3) = false /\
  Z.land (Z.shiftr high 17) 0x3fff = e + EXPONENT_BIAS /\ 0 <= p0 < 2 ^ 17 /\
  Z.land high 0x3fff + Z.shiftl (Z.land (Z.land (Z.shiftr high 14) 7) 0xf) 14 = p0.
Proof.
  unfold EXPONENT_MIN, EXPONENT_MAX, EXPONENT_BIAS. intros Hc He. cbv zeta. unfold decimal. cbn [d_low d_high]. unfold EXPONENT_BIAS.
  set (h := c / 2 ^ 64). assert (Hh : 0 <= h < 2 ^ 49) by (subst h; euclid). set (q := h / 2 ^ 32).
  assert (Hq : 0 <= q < 2 ^ 17 /\ h = q * 2 ^ 32 + h mod 2 ^ 32) by (subst q; euclid). destruct Hq as [Hq Eh].
  set (sgn := if neg then 2 ^ 63 else 0). assert (Hsgn : neg = true /\ sgn = 2 ^ 63 \/ neg = false /\ sgn = 0) by (destruct neg; auto).
  set (D := sgn + (e + 6176) * 2 ^ 49 + h). assert (HD : 0 <= D < 2 ^ 64) by (subst D; lia).
  pose proof (Z.mod_pos_bound h (2 ^ 32) ltac:(lia)).
  assert (Ehigh : u32 (Z.shiftr D 32) = sgn / 2 ^ 32 + (e + 6176) * 2 ^ 17 + q).
  { rewrite shiftr32, u32_id by euclid. subst D. destruct Hsgn as [[_ ->]|[_ ->]]; euclid. }
  rewrite Ehigh. set (H32 := sgn / 2 ^ 32 + (e + 6176) * 2 ^ 17 + q).
  assert (Hs' : neg = true /\ sgn / 2 ^ 32 = 2 ^ 31 \/ neg = false /\ sgn / 2 ^ 32 = 0) by (destruct Hsgn as [[? ->]|[? ->]]; auto).
  rewrite !(Z.shiftr_div_pow2 H32) by lia. rewrite (land_mask _ 0x1f 5), !(land_mask _ 0x3fff 14), (land_mask _ 7 3), (land_mask _ 0xf 4), Z.shiftl_mul_pow2, shiftr32 by lia.
  rewrite (Z.shiftr_div_pow2 _ 3) by lia.
  split; [|split; [|split; [|split; [|split; [|split; [|split]]]]]].
  - unfold s64. destruct Hsgn as [[-> Es]|[-> Es]]; subst D; rewrite Es; euclid.
  - unfold u32. euclid.
  - unfold u32. euclid.
  - unfold u32. subst D. euclid.
  - subst H32. euclid.
  - subst H32. euclid.
  - done.
  - subst H32. euclid.
Qed.

Definition sign_text (neg : bool) : bytes := if neg then [45] else [].

Lemma dec_to_string_spec neg c e : 0 <= c < 10 ^ 34 -> EXPONENT_MIN <= e <= EXPONENT_MAX ->
  exists ds, Forall dig ds /\ vfold 0 ds = c /\ zlen ds <= 34 /\
    printed (sign_text neg) ds e (bson_decimal128_to_string (decimal neg c e)).
Proof.
  intros Hc He. destruct (decimal_fields neg c e Hc He) as (Es & El & Eml & Emh & Esp & Eexp & Hp0 & Ep0).
  unfold bson_decimal128_to_string. rewrite Es, El, Eml, Emh, Esp. cbn [andb]. cbv iota. rewrite Eexp, Ep0.
  unfold EXPONENT_MIN, EXPONENT_MAX in He. rewrite Z.add_simpl_r, s32_id by lia.
  set (p0 := c / 2 ^ 64 / 2 ^ 32) in *. set (p1 := c / 2 ^ 64 mod 2 ^ 32). set (p2 := c / 2 ^ 32 mod 2 ^ 32). set (p3 := c mod 2 ^ 32).
  replace (p0 >=? 2 ^ 17) with false by lia. rewrite orb_false_r.
  assert (Hw : words (p0, p1, p2, p3)) by (cbn [words]; unfold is_word; subst p1 p2 p3; split; [lia|]; repeat split; euclid).
  assert (Hv : val128 (p0, p1, p2, p3) = c) by (cbn [val128]; subst p0 p1 p2 p3; clear; euclid).
  assert (Hsg : zlen (sign_text neg) <= 1) by by destruct neg.
  assert (Hprint : forall ds, 1 <= zlen ds <= 34 -> printed (sign_text neg) ds e (print_decimal (sign_text neg) ds e)).
  { intros ds Hds. apply print_spec; [done | done | unfold EXPONENT_MIN, EXPONENT_MAX; lia]. }
  destruct (Z.eq_dec c 0) as [E0|Hn].
  - assert (p0 = 0 /\ p1 = 0 /\ p2 = 0 /\ p3 = 0) as (-> & -> & -> & ->) by (unfold p0, p1, p2, p3; rewrite E0; done).
    exists [0]. split; [repeat constructor; unfold dig; lia|]. split; [by rewrite E0|]. split; [done|]. by apply Hprint.
  - destruct (significand_digits c ltac:(lia) _ Hw Hv) as (ds & Hs & Hd & Hl & Ev). exists ds. split; [done|]. split; [done|]. split; [lia|].
    replace ((p0 =? 0) && (p1 =? 0) && (p2 =? 0) && (p3 =? 0)) with false by (cbn [val128] in Hv; lia).
    rewrite Hs. by apply Hprint.
Qed.

Lemma sign_text_prefix neg : exists sign, sign_prefix (sign_text neg) sign /\ (sign =? -1) = neg.
Proof. destruct neg; [exists (-1) | exists 1]; split; constructor. Qed.

(** Every character goes through [put_char], so the buffer is not left. *)
Lemma put_fits out c r : put_char out c = Ret r -> zlen r <= BSON_DECIMAL128_STRING.
Proof. unfold put_char. destruct (_ <? _) eqn:E; [|done]. intros [= <-]. bool_hyps. zl. Qed.

Lemma put_all_fits cs : forall out r, put_all out cs = Ret r -> zlen out <= BSON_DECIMAL128_STRING -> zlen r <= BSON_DECIMAL128_STRING.
Proof.
  induction cs as [|c cs IH]; intros out r H Ho; [by injection H as <-|]. cbn [put_all] in H.
  apply bind_inv in H as (o & Hp & H). apply (IH o r H). by apply put_fits in Hp.
Qed.

Lemma print_fits out ds e r : print_decimal out ds e = Ret r -> zlen r <= BSON_DECIMAL128_STRING.
Proof.
  unfold print_decimal. intros H. destruct ((_ <? _) || _).
  - apply bind_inv in H as ([o1 d1] & _ & H). apply bind_inv in H as (o2 & _ & H). apply bind_inv in H as ([o3 d3] & _ & H).
    apply bind_inv in H as (o4 & Hp & H). apply bind_inv in H as ([t n] & _ & H). apply put_fits in Hp. by apply put_all_fits in H.
  - destruct (e >=? 0).
    + apply bind_inv in H as ([o1 d1] & _ & H). by apply put_fits in H.
    + apply bind_inv in H as ([o1 d1] & _ & H). apply bind_inv in H as (o2 & _ & H). apply bind_inv in H as (o3 & _ & H).
      apply bind_inv in H as ([o4 d4] & _ & H). by apply put_fits in H.
Qed.

(** Whatever the bits are: a text that is printed at all is inside the buffer. *)
Lemma to_string_fits d r : bson_decimal128_to_string d = Ret r -> zlen r <= BSON_DECIMAL128_STRING.
Proof.
  unfold bson_decimal128_to_string. intros H.
  assert (Hs : zlen (if s64 (d_high d) <? 0 then [45] else []) <= BSON_DECIMAL128_STRING) by by destruct (_ <? _).
  destruct (_ && (_ =? 30)); [by apply put_all_fits in H|]. destruct (_ && (_ =? 31)); [by apply put_all_fits in H|].
  destruct (if Z.shiftr _ 3 =? 3 then _ else _) as [b m]. apply bind_inv in H as (ds & _ & H). by apply print_fits in H.
Qed.

(** C33: A numeral of at most 34 significant digits whose exponent is in range is
    read to the decimal it denotes: an optional sign, digits with an optional
    point anywhere, an optional exponent part. *)
Theorem numeral_read sg sign ip fp ex x post :
  sign_prefix sg sign -> Forall digit (all_digits ip fp) -> all_digits ip fp <> [] ->
  zlen (significant (all_digits ip fp)) <= 34 -> exponent_text ex x -> - 2 ^ 31 <= x < 2 ^ 31 ->
  EXPONENT_MIN <= x - places fp <= EXPONENT_MAX ->
  bson_decimal128_from_string (sg ++ mantissa ip fp ++ ex ++ 0 :: post) =
    Ret (true, decimal (sign =? -1) (dval (all_digits ip fp)) (x - places fp)).
Proof. apply numeral_read_spec. Qed.

(** The encodings that the conversion from text produces. *)
Definition canonical_decimal (d : bson_decimal128_t) : Prop :=
  finite d \/ (exists neg, d = BSON_DECIMAL128_SET_INF neg) \/ d = BSON_DECIMAL128_SET_NAN.

(** The text of a decimal is read back, whatever follows its terminator. *)
Lemma decimal_reads d post : canonical_decimal d ->
  exists text, bson_decimal128_to_string d = Ret (text ++ [0]) /\ zlen text < BSON_DECIMAL128_STRING /\
    bson_decimal128_from_string (text ++ 0 :: post) = Ret (true, d).
Proof.
  intros [Hd|[[neg ->]| ->]].
  - destruct (finite_decimal d Hd) as (neg & c & e & -> & Hc & He).
    destruct (dec_to_string_spec neg c e Hc He) as (ds & Hds & Hv & Hl & text & Htext & ip & fp & ex & x & -> & Hne & Hex & Hx & Hxe & z & Hall).
    exists (sign_text neg ++ mantissa ip fp ++ ex). rewrite <- !app_assoc. split; [done|]. split.
    { pose proof (to_string_fits _ _ Htext) as Hf. rewrite !zlen_app in *. change (zlen [0]) with 1 in Hf. lia. }
    destruct (sign_text_prefix neg) as (sign & Hsg & <-). rewrite <- Hxe, <- Hv, <- (dval_zeros z), <- Hall in *.
    apply (numeral_read_spec _ sign); try done.
    + rewrite Hall. apply Forall_app. split; [apply Forall_replicate; unfold digit; lia | by apply digits_chr].
    + rewrite Hall. pose proof (significant_zeros z ds). lia.
  - exists ((if neg then [45] else []) ++ [73; 110; 102; 105; 110; 105; 116; 121]). by destruct neg.
  - by exists [78; 97; 78].
Qed.

(** C16: Printing a canonical decimal stays inside the buffer of 43 bytes, and
    reading the text gives the decimal back, bit for bit: sign, exponent and
    coefficient, zeros with their exponents, infinities and NaN included. *)
Theorem decimal_round_trip d : canonical_decimal d ->
  exists text, bson_decimal128_to_string d = Ret text /\ zlen text <= BSON_DECIMAL128_STRING /\
    bson_decimal128_from_string text = Ret (true, d).
Proof.
  intros Hd. destruct (decimal_reads d [] Hd) as (text & E & Hl & Er). exists (text ++ [0]).
  rewrite zlen_app. change (zlen [0]) with 1. split; [done|]. split; [lia | done].
Qed.

Lemma decimal_round_trip_witness : exists text,
  bson_decimal128_to_string (mk_dec128 123 3476215962376601600) = Ret text /\ zlen text <= BSON_DECIMAL128_STRING /\
    bson_decimal128_from_string text = Ret (true, mk_dec128 123 3476215962376601600).
Proof. apply (decimal_round_trip (mk_dec128 123 3476215962376601600)). left. vm_compute. repeat split; discriminate. Defined.

Lemma numeral_read_witness :
  bson_decimal128_from_string ([45] ++ mantissa [48; 49; 50] (Some [53; 48]) ++ [69; 45; 51] ++ [0]) =
    Ret (true, decimal true 1250 (-5)).
Proof.
  refine (numeral_read [45] (-1) [48; 49; 50] (Some [53; 48]) [69; 45; 51] (-3) [] sign_minus _ _ _
            (exponent_some 69 [45] (-1) [51] _ sign_minus _ _) _ _);
    first [by left | vm_compute; split; congruence | vm_compute; congruence | repeat constructor; unfold digit; lia | done].
Defined.

(** ** What the conversions get wrong *)

(** The exponent 6145 needs a coefficient of 35 digits; the test admits it and the
    digit after the last one of the array is read. *)
Lemma digits_read_past_end : bson_decimal128_from_string [49; 69; 54; 49; 52; 53; 0] = Oob.
Proof. vm_compute. reflexivity. Qed.

(** With a leading zero the digits that are not stored are looked up one place
    too early: the last digit of 0123...3005 is dropped without an error, and the
    exact number 0123...12340 is refused. *)
Definition leading_zero (tail : bytes) : bytes :=
  48 :: map (fun k => 48 + (Z.of_nat k + 1) mod 10) (seq 0 33) ++ tail ++ [0].

Lemma leading_zero_shifts_digits :
  bson_decimal128_from_string (leading_zero [48; 48; 53]) =
    Ret (true, decimal false 1234567890123456789012345678901230 2) /\
  bson_decimal128_from_string (leading_zero [52; 48]) = Ret (false, BSON_DECIMAL128_SET_NAN).
Proof. vm_compute. split; reflexivity. Qed.

(** Underflow of the exponent wraps: a zero with an exponent below the smallest
    one gets the largest. *)
Lemma zero_exponent_wraps :
  bson_decimal128_from_string ([48; 46; 48; 69; 45] ++ fmt_u (2 ^ 31) ++ [0]) = Ret (true, decimal false 0 6111).
Proof. vm_compute. reflexivity. Qed.

(** A coefficient of 35 digits is not canonical and stands for zero, but it is
    printed when it is below [2 ^ 113], and with a sign and five zeros after the
    point its terminator is past the buffer. *)
Lemma wide_coefficient_printed :
  bson_decimal128_to_string (mk_dec128 0 (6176 * 2 ^ 49 + 2 ^ 48 + 2 ^ 47 + 2 ^ 46 + 2 ^ 45 + 2 ^ 44)) <> Ret [48; 0] /\
  bson_decimal128_to_string (mk_dec128 0 (2 ^ 63 + (6176 - 40) * 2 ^ 49 + 2 ^ 49 - 1)) = Oob.
Proof. vm_compute. split; congruence. Qed.
