(* ===== verification/Base64.v ===== *)
(** * Base 64 (b64_ntop.h, b64_pton.h)

    The encoder of the JSON printer and the decoder of the JSON reader.  A target
    buffer is the bytes of the object; a result of -1 is an error.  The decoder
    looks characters up in a table of 256 entries with a signed [char]: an index
    below zero is [Oob]. *)
From stdpp Require Import strings.
From S2P Require Import Prelude Utf8 Numbers Calendar.
#[local] Open Scope Z_scope.

Definition Base64 : bytes :=
  chars "ABCDEFGHIJKLMNOPQRSTUVWXYZabcdefghijklmnopqrstuvwxyz0123456789+/" ++ [0].
Definition Pad64 : Z := 61.

(** [Assert (output[i] < 64)] and the character of the digit. *)
Definition digit64 (output : Z) : outcome Z := if output <? 64 then rd Base64 output else Abort.

(** ** The encoder *)

(** [while (2 < srclength)]: what is left of the source, the target and
    [datalength]; [None] is the return of -1. *)
Fixpoint ntop_groups (src : bytes) (srclength : Z) (target : bytes) (targsize datalength : Z) :
    outcome (option (bytes * Z * bytes * Z)) :=
  if 2 <? srclength then
    match src with
    | i0 :: i1 :: i2 :: src =>
        o0 ← digit64 (Z.shiftr i0 2);
        o1 ← digit64 (u8 (Z.shiftl (Z.land i0 0x03) 4 + Z.shiftr i1 4));
        o2 ← digit64 (u8 (Z.shiftl (Z.land i1 0x0f) 2 + Z.shiftr i2 6));
        o3 ← digit64 (Z.land i2 0x3f);
        if u64 (datalength + 4) >? targsize then Ret None
        else target ← wrn target datalength [o0; o1; o2; o3]; ntop_groups src (srclength - 3) target targsize (u64 (datalength + 4))
    | _ => Oob
    end
  else Ret (Some (src, srclength, target, datalength)).

Definition b64_ntop (src : bytes) (srclength : Z) (target : bytes) (targsize : Z) : outcome (Z * bytes) :=
  r ← ntop_groups src srclength target targsize 0;
  match r with
  | None => Ret (-1, target)
  | Some (src, srclength, target, datalength) =>
      r ← (if negb (srclength =? 0) then
             input ← rdn src 0 srclength;
             i0 ← rd (input ++ [0; 0; 0]) 0;
             i1 ← rd (input ++ [0; 0; 0]) 1;
             i2 ← rd (input ++ [0; 0; 0]) 2;
             o0 ← digit64 (Z.shiftr i0 2);
             o1 ← digit64 (u8 (Z.shiftl (Z.land i0 0x03) 4 + Z.shiftr i1 4));
             o2 ← digit64 (u8 (Z.shiftl (Z.land i1 0x0f) 2 + Z.shiftr i2 6));
             if u64 (datalength + 4) >? targsize then Ret None
             else
               target ← wrn target datalength [o0; o1; if srclength =? 1 then Pad64 else o2; Pad64];
               Ret (Some (target, u64 (datalength + 4)))
           else Ret (Some (target, datalength)));
      match r with
      | None => Ret (-1, target)
      | Some (target, datalength) =>
          if datalength >=? targsize then Ret (-1, target)
          else target ← wrn target datalength [0]; Ret (datalength, target)
      end
  end.

(** ** The decoder *)

Definition b64rmap_special : Z := 0xf0.
Definition b64rmap_end : Z := 0xfd.
Definition b64rmap_space : Z := 0xfe.
Definition b64rmap_invalid : Z := 0xff.

(** The entry of a character, before the digits are filled in. *)
Definition rmap_class (i : Z) : Z :=
  if i =? 0 then b64rmap_end
  else if isspace i then b64rmap_space
  else if i =? Pad64 then b64rmap_end
  else b64rmap_invalid.

(** [for (i = 0; Base64[i] != '\0'; ++i) b64rmap[Base64[i]] = i] *)
Fixpoint fill_digits (digits : bytes) (i : Z) (map : bytes) : outcome bytes :=
  match digits with
  | [] => Oob
  | c :: digits => if c =? 0 then Ret map else map ← wrn map c [i]; fill_digits digits (i + 1) map
  end.
Definition b64_initialize_rmap : outcome bytes := fill_digits Base64 0 (map rmap_class (seqZ 0 256)).

(** The table, once it is filled. *)
Definition b64rmap : bytes :=
  Eval vm_compute in match b64_initialize_rmap with Ret map => map | _ => [] end.

(** [b64rmap[ch]] for the [char] at a byte. *)
Definition rmap (ch : Z) : outcome Z := rd b64rmap (s8 ch).

(** [tarindex++]: it is an [int], whose overflow is undefined. *)
Definition tarindex_inc (tarindex : Z) : outcome Z := if tarindex <? INT_MAX then Ret (tarindex + 1) else Oob.

(** One digit in a state: the new state, the advance of [tarindex] and what is
    written there. *)
Definition pton_digit (state ofs : Z) (target : bytes) (targsize tarindex : Z) : outcome (option (Z * Z * bytes)) :=
  if state =? 0 then
    if tarindex >=? targsize then Ret None
    else target ← wrn target tarindex [u8 (Z.shiftl ofs 2)]; Ret (Some (1, tarindex, target))
  else if state =? 1 then
    if tarindex + 1 >=? targsize then Ret None
    else
      t ← rd target tarindex;
      target ← wrn target tarindex [Z.lor t (Z.shiftr ofs 4); u8 (Z.shiftl (Z.land ofs 0x0f) 4)];
      tarindex ← tarindex_inc tarindex; Ret (Some (2, tarindex, target))
  else if state =? 2 then
    if tarindex + 1 >=? targsize then Ret None
    else
      t ← rd target tarindex;
      target ← wrn target tarindex [Z.lor t (Z.shiftr ofs 2); u8 (Z.shiftl (Z.land ofs 0x03) 6)];
      tarindex ← tarindex_inc tarindex; Ret (Some (3, tarindex, target))
  else
    if tarindex >=? targsize then Ret None
    else
      t ← rd target tarindex; target ← wrn target tarindex [Z.lor t ofs];
      tarindex ← tarindex_inc tarindex; Ret (Some (0, tarindex, target)).

(** The same without a target. *)
Definition pton_skip (state tarindex : Z) : outcome (Z * Z) :=
  if state =? 0 then Ret (1, tarindex)
  else tarindex ← tarindex_inc tarindex; Ret (if state =? 1 then 2 else if state =? 2 then 3 else 0, tarindex).

(** [while (1)]: the character that ended it, the text behind it, the state,
    [tarindex] and the target. *)
Fixpoint pton_loop (src target : bytes) (targsize tarindex state : Z) : outcome (option (Z * bytes * Z * Z * bytes)) :=
  match src with
  | [] => Oob
  | ch :: src =>
      ofs ← rmap ch;
      if ofs >=? b64rmap_special then
        if ofs =? b64rmap_space then pton_loop src target targsize tarindex state
        else if ofs =? b64rmap_end then Ret (Some (ch, src, state, tarindex, target))
        else Ret None
      else
        r ← pton_digit state ofs target targsize tarindex;
        match r with
        | None => Ret None
        | Some (state, tarindex, target) => pton_loop src target targsize tarindex state
        end
  end.

Fixpoint pton_len_loop (src : bytes) (tarindex state : Z) : outcome (option (Z * bytes * Z * Z)) :=
  match src with
  | [] => Oob
  | ch :: src =>
      ofs ← rmap ch;
      if ofs >=? b64rmap_special then
        if ofs =? b64rmap_space then pton_len_loop src tarindex state
        else if ofs =? b64rmap_end then Ret (Some (ch, src, state, tarindex))
        else Ret None
      else '(state, tarindex) ← pton_skip state tarindex; pton_len_loop src tarindex state
  end.

(** [for (; ch != '\0'; ch = *src++)] over blanks: the first other character. *)
Fixpoint pton_spaces (ch : Z) (src : bytes) : outcome (Z * bytes) :=
  if ch =? 0 then Ret (ch, src)
  else
    ofs ← rmap ch;
    if negb (ofs =? b64rmap_space) then Ret (ch, src)
    else match src with [] => Oob | ch :: src => pton_spaces ch src end.

(** Whether what follows the first pad character is right. *)
Definition pton_padding (state : Z) (src : bytes) : outcome bool :=
  match src with
  | [] => Oob
  | ch :: src =>
      if (state =? 0) || (state =? 1) then Ret false
      else
        r ← (if state =? 2 then
               '(ch, src) ← pton_spaces ch src;
               if negb (ch =? Pad64) then Ret None
               else match src with [] => Oob | ch :: src => Ret (Some (ch, src)) end
             else Ret (Some (ch, src)));
        match r with
        | None => Ret false
        | Some (ch, src) => '(ch, _) ← pton_spaces ch src; Ret (ch =? 0)
        end
  end.

Definition b64_pton_do (src target : bytes) (targsize : Z) : outcome (Z * bytes) :=
  r ← pton_loop src target targsize 0 0;
  match r with
  | None => Ret (-1, target)
  | Some (ch, src, state, tarindex, target) =>
      ok ← (if ch =? Pad64 then
              ok ← pton_padding state src;
              if (ok : bool) then t ← rd target tarindex; Ret (t =? 0) else Ret false
            else Ret (state =? 0));
      Ret (if (ok : bool) then tarindex else -1, target)
  end.

Definition b64_pton_len (src : bytes) : outcome Z :=
  r ← pton_len_loop src 0 0;
  match r with
  | None => Ret (-1)
  | Some (ch, src, state, tarindex) =>
      ok ← (if ch =? Pad64 then pton_padding state src else Ret (state =? 0));
      Ret (if (ok : bool) then tarindex else -1)
  end.

Definition b64_pton (src : bytes) (target : option bytes) (targsize : Z) : outcome (Z * option bytes) :=
  match target with
  | Some target => '(n, target) ← b64_pton_do src target targsize; Ret (n, Some target)
  | None => n ← b64_pton_len src; Ret (n, None)
  end.

(** * Proofs *)

(** ** Digits *)

Definition sym (d : Z) : Z := default 0 (Base64 !! Z.to_nat d).
Definition d0 (a : Z) : Z := a / 4.
Definition d1 (a b : Z) : Z := a mod 4 * 16 + b / 16.
Definition d2 (b c : Z) : Z := b mod 16 * 4 + c / 64.
Definition d3 (c : Z) : Z := c mod 64.

(** The text of RFC 4648. *)
Fixpoint b64_text (data : bytes) : bytes :=
  match data with
  | a :: b :: c :: data => sym (d0 a) :: sym (d1 a b) :: sym (d2 b c) :: sym (d3 c) :: b64_text data
  | [a; b] => [sym (d0 a); sym (d1 a b); sym (d2 b 0); Pad64]
  | [a] => [sym (d0 a); sym (d1 a 0); Pad64; Pad64]
  | [] => []
  end.

(** What a digit is, in the encoder and in the decoder. *)
Definition digit_good (d : Z) : Prop :=
  digit64 d = Ret (sym d) /\ rmap (sym d) = Ret d /\ (d >=? b64rmap_special) = false.

Lemma digit_is_good d : 0 <= d < 64 -> digit_good d.
Proof.
  intros Hd. assert (H : Forall digit_good (seqZ 0 64)) by (repeat (constructor; [by repeat split|]); constructor).
  rewrite Forall_forall in H. apply H, elem_of_seqZ. lia.
Qed.

Lemma digit64_good d : 0 <= d < 64 -> digit64 d = Ret (sym d).
Proof. intros H. apply (digit_is_good d H). Qed.

Lemma d0_range a : is_byte a -> 0 <= d0 a < 64.
Proof. unfold is_byte, d0. divmod. Qed.
Lemma d1_range a b : is_byte b -> 0 <= d1 a b < 64.
Proof. unfold is_byte, d1. divmod. Qed.
Lemma d2_range b c : is_byte c -> 0 <= d2 b c < 64.
Proof. unfold is_byte, d2. divmod. Qed.
Lemma d3_range c : 0 <= d3 c < 64.
Proof. unfold d3. divmod. Qed.

(** The digits as the encoder computes them. *)
Lemma encode_d0 a : is_byte a -> digit64 (Z.shiftr a 2) = Ret (sym (d0 a)).
Proof. intros Ha. rewrite Z.shiftr_div_pow2 by done. by apply digit64_good, d0_range. Qed.

Lemma encode_d1 a b : is_byte a -> is_byte b ->
  digit64 (u8 (Z.shiftl (Z.land a 0x03) 4 + Z.shiftr b 4)) = Ret (sym (d1 a b)).
Proof.
  intros Ha Hb. rewrite (land_mask a _ 2), Z.shiftl_mul_pow2, Z.shiftr_div_pow2 by done.
  pose proof (d1_range a b Hb) as H. unfold d1 in *. change (2 ^ 2) with 4. change (2 ^ 4) with 16. rewrite u8_id by lia. by apply digit64_good.
Qed.

Lemma encode_d2 b c : is_byte b -> is_byte c ->
  digit64 (u8 (Z.shiftl (Z.land b 0x0f) 2 + Z.shiftr c 6)) = Ret (sym (d2 b c)).
Proof.
  intros Hb Hc. rewrite (land_mask b _ 4), Z.shiftl_mul_pow2, Z.shiftr_div_pow2 by done.
  pose proof (d2_range b c Hc) as H. unfold d2 in *. change (2 ^ 2) with 4. change (2 ^ 4) with 16. change (2 ^ 6) with 64.
  rewrite u8_id by lia. by apply digit64_good.
Qed.

Lemma encode_d3 c : digit64 (Z.land c 0x3f) = Ret (sym (d3 c)).
Proof. rewrite (land_mask c _ 6) by done. apply digit64_good, d3_range. Qed.

(** ** Encoding *)

(** Lists by groups of three. *)
Lemma triples_ind (P : bytes -> Prop) :
  P [] -> (forall a, P [a]) -> (forall a b, P [a; b]) -> (forall a b c l, P l -> P (a :: b :: c :: l)) -> forall l, P l.
Proof. intros H0 H1 H2 H3. fix IH 1. intros [|a [|b [|c l]]]; [exact H0 | apply H1 | apply H2 | apply H3, IH]. Qed.

Lemma zlen_b64_text data : zlen (b64_text data) = (zlen data + 2) / 3 * 4.
Proof.
  induction data as [|a|a b|a b c l IH] using triples_ind; [done..|]. cbn [b64_text]. rewrite !zlen_cons, IH.
  replace (1 + (1 + (1 + zlen l)) + 2) with (zlen l + 2 + 1 * 3) by lia. rewrite Z.div_add by lia. lia.
Qed.

(** One group of digits in the target. *)
Ltac group_digits := rewrite ?encode_d0, ?encode_d1, ?encode_d2, ?encode_d3 by done; cbn [mbind outcome_bind].

Lemma ntop_groups_spec more data : forall pre fill post targsize,
  Forall is_byte data -> zlen fill = zlen (b64_text data) -> zlen pre + zlen fill < targsize -> targsize < 2 ^ 63 ->
  exists last text fill', ntop_groups (data ++ more) (zlen data) (pre ++ fill ++ post) targsize (zlen pre) =
      Ret (Some (last ++ more, zlen last, (pre ++ text) ++ fill' ++ post, zlen (pre ++ text))) /\
    (length last <= 2)%nat /\ Forall is_byte last /\ b64_text data = text ++ b64_text last /\ zlen fill' = zlen (b64_text last).
Proof.
  induction data as [|a|a b|a b c l IH] using triples_ind; intros pre fill post targsize Hb Hf Ht Hs;
    [exists [], [], fill | exists [a], [], fill | exists [a; b], [], fill |];
    try (rewrite app_nil_r; split; [by destruct more|]; repeat split; (done || lia || cbn; lia)).
  inversion_clear Hb as [|? ? Ha Hb']. inversion_clear Hb' as [|? ? Hb Hb'']. inversion_clear Hb'' as [|? ? Hc Hl].
  cbn [b64_text] in Hf. rewrite !zlen_cons in Hf. pose proof (zlen_nonneg (b64_text l)). pose proof (zlen_nonneg pre).
  destruct fill as [|f0 [|f1 [|f2 [|f3 fill]]]]; rewrite ?zlen_cons, ?zlen_nil in *; try (pose proof (zlen_nonneg fill)); try lia.
  cbn [app ntop_groups]. replace (2 <? _) with true by (pose proof (zlen_nonneg l); lia). group_digits.
  rewrite !u64_id by lia. replace (zlen pre + 4 >? targsize) with false by lia.
  change (f0 :: f1 :: f2 :: f3 :: fill ++ post) with ([f0; f1; f2; f3] ++ fill ++ post). rewrite wrn_mid by done. cbn [mbind outcome_bind].
  set (g := [sym (d0 a); sym (d1 a b); sym (d2 b c); sym (d3 c)]).
  destruct (IH (pre ++ g) fill post targsize) as (last & text & fill' & E & Hn & Hbl & Et & Ef); [done | lia | rewrite zlen_app; change (zlen g) with 4; lia | done |].
  exists last, (g ++ text), fill'. replace (1 + (1 + (1 + zlen l)) - 3) with (zlen l) by lia.
  rewrite zlen_app in E. change (zlen g) with 4 in E. rewrite <- app_assoc in E. rewrite E. rewrite <- !app_assoc. split; [done|].
  split; [done|]. split; [done|]. split; [|done]. cbn [b64_text]. rewrite Et. done.
Qed.

(** The target receives the text and a terminator, when it has room for both. *)
Lemma b64_ntop_spec more data target targsize :
  Forall is_byte data -> zlen (b64_text data) < targsize -> targsize <= zlen target -> targsize < 2 ^ 63 ->
  exists rest, b64_ntop (data ++ more) (zlen data) target targsize = Ret (zlen (b64_text data), b64_text data ++ 0 :: rest).
Proof.
  intros Hb Ht Hz Hs. set (n := length (b64_text data)). rewrite <- (take_drop n target).
  assert (Hf : zlen (take n target) = zlen (b64_text data)) by (subst n; zl).
  destruct (ntop_groups_spec more data [] (take n target) (drop n target) targsize Hb Hf) as (last & text & fill' & E & Hn & Hbl & Et & Ef);
    [rewrite zlen_nil; lia | done |]. cbn [app] in E. rewrite zlen_nil in E.
  assert (Hp : 0 < zlen (drop n target)) by (subst n; zl). set (tl := drop n target) in *. clearbody tl.
  destruct tl as [|x post]; [unfold zlen in Hp; cbn [length] in Hp; lia|].
  unfold b64_ntop. rewrite E. cbn [mbind outcome_bind]. exists post. rewrite Et in *. rewrite zlen_app in *. pose proof (zlen_nonneg text).
  destruct last as [|a [|b [|c last]]]; cbn [length] in Hn; [| | |lia].
  - cbn [b64_text] in *. change (zlen (@nil Z)) with 0 in *. cbn [negb mbind outcome_bind Z.eqb].
    destruct fill' as [|? ?]; [|rewrite zlen_cons in Ef; pose proof (zlen_nonneg fill'); lia]. cbn [app].
    replace (zlen text >=? targsize) with false by lia. rewrite (wrn_mid text [x] post) by done. cbn [mbind outcome_bind].
    rewrite app_nil_r, Z.add_0_r. done.
  - inversion_clear Hbl as [|? ? Ha _]. change (zlen [a]) with 1. cbn [negb Z.eqb]. rewrite (rdn_mid [] [a] more) by done. cbn [mbind outcome_bind app].
    rewrite !rd_head. change (rd [a; 0; 0; 0] 1) with (Ret 0). change (rd [a; 0; 0; 0] 2) with (Ret 0). cbn [mbind outcome_bind].
    assert (H0 : is_byte 0) by done. group_digits. cbn [b64_text] in *. change (zlen [_; _; _; _]) with 4 in *.
    rewrite u64_id by lia. replace (zlen text + 4 >? targsize) with false by lia.
    rewrite (wrn_mid text fill' (x :: post)) by (done || lia). cbn [mbind outcome_bind]. replace (zlen text + 4 >=? targsize) with false by lia.
    rewrite app_assoc. rewrite (wrn_mid _ [x] post) by (rewrite ?zlen_app; done). done.
  - inversion_clear Hbl as [|? ? Ha Hb']. inversion_clear Hb' as [|? ? Hbb _]. change (zlen [a; b]) with 2. cbn [negb Z.eqb].
    rewrite (rdn_mid [] [a; b] more) by done. cbn [mbind outcome_bind app].
    rewrite !rd_head. change (rd [a; b; 0; 0; 0] 1) with (Ret b). change (rd [a; b; 0; 0; 0] 2) with (Ret 0). cbn [mbind outcome_bind].
    assert (H0 : is_byte 0) by done. group_digits. cbn [b64_text] in *. change (zlen [_; _; _; _]) with 4 in *.
    rewrite u64_id by lia. replace (zlen text + 4 >? targsize) with false by lia.
    rewrite (wrn_mid text fill' (x :: post)) by (done || lia). cbn [mbind outcome_bind]. replace (zlen text + 4 >=? targsize) with false by lia.
    rewrite app_assoc. rewrite (wrn_mid _ [x] post) by (rewrite ?zlen_app; done). done.
Qed.

(** ** Decoding what was encoded *)

Lemma rmap_good d : 0 <= d < 64 -> rmap (sym d) = Ret d /\ (d >=? b64rmap_special) = false.
Proof. intros H. split; apply (digit_is_good d H). Qed.

(** The bits of three bytes, back from the digits. *)
Lemma decode_a a b : is_byte a -> is_byte b -> Z.lor (u8 (Z.shiftl (d0 a) 2)) (Z.shiftr (d1 a b) 4) = a.
Proof.
  unfold is_byte, d0, d1. intros Ha Hb. rewrite Z.shiftl_mul_pow2, Z.shiftr_div_pow2, u8_id by (try done; change (2 ^ 2) with 4; divmod).
  rewrite lor_mul_add by (try done; change (2 ^ 2) with 4; change (2 ^ 4) with 16; divmod). change (2 ^ 2) with 4. change (2 ^ 4) with 16. divmod.
Qed.

Lemma decode_b a b c : is_byte b -> is_byte c -> Z.lor (u8 (Z.shiftl (Z.land (d1 a b) 0x0f) 4)) (Z.shiftr (d2 b c) 2) = b.
Proof.
  unfold is_byte, d1, d2. intros Hb Hc. rewrite (land_mask _ 0x0f 4) by done. change (2 ^ 4) with 16.
  replace ((a mod 4 * 16 + b / 16) mod 16) with (b / 16) by divmod.
  rewrite Z.shiftl_mul_pow2, Z.shiftr_div_pow2, u8_id by (try done; change (2 ^ 4) with 16; divmod).
  rewrite lor_mul_add by (try done; change (2 ^ 2) with 4; change (2 ^ 4) with 16; divmod). change (2 ^ 2) with 4. change (2 ^ 4) with 16. divmod.
Qed.

Lemma decode_c b c : is_byte c -> Z.lor (u8 (Z.shiftl (Z.land (d2 b c) 0x03) 6)) (d3 c) = c.
Proof.
  unfold is_byte, d2, d3. intros Hc. rewrite (land_mask _ 0x03 2) by done. change (2 ^ 2) with 4.
  replace ((b mod 16 * 4 + c / 64) mod 4) with (c / 64) by divmod.
  rewrite Z.shiftl_mul_pow2, u8_id by (try done; change (2 ^ 6) with 64; divmod).
  rewrite lor_mul_add by (try done; change (2 ^ 6) with 64; divmod). change (2 ^ 6) with 64. divmod.
Qed.

(** The bits that are left over after one and after two bytes are zero. *)
Lemma leftover a b : u8 (Z.shiftl (Z.land (d1 a 0) 0x0f) 4) = 0 /\ u8 (Z.shiftl (Z.land (d2 b 0) 0x03) 6) = 0.
Proof.
  unfold d1, d2. rewrite (land_mask _ 0x0f 4), (land_mask _ 0x03 2) by done. change (2 ^ 4) with 16. change (2 ^ 2) with 4. split.
  - replace ((a mod 4 * 16 + 0 / 16) mod 16) with 0 by (change (0 / 16) with 0; by rewrite Z.add_0_r, Z_mod_mult). done.
  - replace ((b mod 16 * 4 + 0 / 64) mod 4) with 0 by (change (0 / 64) with 0; by rewrite Z.add_0_r, Z_mod_mult). done.
Qed.

(** One digit of the text. *)
Lemma pton_loop_digit d src target targsize tarindex state : 0 <= d < 64 ->
  pton_loop (sym d :: src) target targsize tarindex state =
    (r ← pton_digit state d target targsize tarindex;
     match r with None => Ret None | Some (state, tarindex, target) => pton_loop src target targsize tarindex state end).
Proof. intros Hd. destruct (rmap_good d Hd) as [Hr Hsp]. cbn [pton_loop]. rewrite Hr. cbn [mbind outcome_bind]. by rewrite Hsp. Qed.

Lemma pton_len_digit d src tarindex state : 0 <= d < 64 ->
  pton_len_loop (sym d :: src) tarindex state = ('(state, tarindex) ← pton_skip state tarindex; pton_len_loop src tarindex state).
Proof. intros Hd. destruct (rmap_good d Hd) as [Hr Hsp]. cbn [pton_len_loop]. rewrite Hr. cbn [mbind outcome_bind]. by rewrite Hsp. Qed.

Lemma tarindex_moves i : i < INT_MAX -> tarindex_inc i = Ret (i + 1).
Proof. intros H. unfold tarindex_inc. by replace (i <? INT_MAX) with true by lia. Qed.

(** The four states, at the end of [pre]. *)
Lemma step0 pre x post targsize d : zlen pre < targsize ->
  pton_digit 0 d (pre ++ x :: post) targsize (zlen pre) = Ret (Some (1, zlen pre, pre ++ u8 (Z.shiftl d 2) :: post)).
Proof.
  intros Hs. unfold pton_digit. cbn [Z.eqb Pos.eqb]. replace (zlen pre >=? targsize) with false by lia.
  change (x :: post) with ([x] ++ post). rewrite wrn_mid by done. done.
Qed.

Lemma step1 pre t x post targsize d v : zlen pre + 1 < targsize -> zlen pre < INT_MAX -> Z.lor t (Z.shiftr d 4) = v ->
  pton_digit 1 d (pre ++ t :: x :: post) targsize (zlen pre) =
    Ret (Some (2, zlen (pre ++ [v]), (pre ++ [v]) ++ u8 (Z.shiftl (Z.land d 0x0f) 4) :: post)).
Proof.
  intros Hs Hi <-. unfold pton_digit. cbn [Z.eqb Pos.eqb]. replace (zlen pre + 1 >=? targsize) with false by lia.
  rewrite (rd_at pre t _ (zlen pre)) by done. cbn [mbind outcome_bind]. change (t :: x :: post) with ([t; x] ++ post).
  rewrite wrn_mid by done. cbn [mbind outcome_bind]. rewrite tarindex_moves by done. rewrite <- app_assoc, zlen_app. done.
Qed.

Lemma step2 pre t x post targsize d v : zlen pre + 1 < targsize -> zlen pre < INT_MAX -> Z.lor t (Z.shiftr d 2) = v ->
  pton_digit 2 d (pre ++ t :: x :: post) targsize (zlen pre) =
    Ret (Some (3, zlen (pre ++ [v]), (pre ++ [v]) ++ u8 (Z.shiftl (Z.land d 0x03) 6) :: post)).
Proof.
  intros Hs Hi <-. unfold pton_digit. cbn [Z.eqb Pos.eqb]. replace (zlen pre + 1 >=? targsize) with false by lia.
  rewrite (rd_at pre t _ (zlen pre)) by done. cbn [mbind outcome_bind]. change (t :: x :: post) with ([t; x] ++ post).
  rewrite wrn_mid by done. cbn [mbind outcome_bind]. rewrite tarindex_moves by done. rewrite <- app_assoc, zlen_app. done.
Qed.

Lemma step3 pre t post targsize d v : zlen pre < targsize -> zlen pre < INT_MAX -> Z.lor t d = v ->
  pton_digit 3 d (pre ++ t :: post) targsize (zlen pre) = Ret (Some (0, zlen (pre ++ [v]), (pre ++ [v]) ++ post)).
Proof.
  intros Hs Hi <-. unfold pton_digit. cbn [Z.eqb Pos.eqb]. replace (zlen pre >=? targsize) with false by lia.
  rewrite (rd_at pre t _ (zlen pre)) by done. cbn [mbind outcome_bind]. change (t :: post) with ([t] ++ post).
  rewrite wrn_mid by done. cbn [mbind outcome_bind]. rewrite tarindex_moves by done. rewrite <- app_assoc, zlen_app. done.
Qed.

(** What both decoders do at the end of an encoded text: the state, the
    character that ended the loop and the text behind it. *)
Definition text_end (data post : bytes) : Z * Z * bytes :=
  match Z.to_nat (zlen data mod 3) with
  | 1%nat => (2, Pad64, Pad64 :: 0 :: post)
  | 2%nat => (3, Pad64, 0 :: post)
  | _ => (0, 0, post)
  end.

Lemma text_end_triple a b c data post : text_end (a :: b :: c :: data) post = text_end data post.
Proof. unfold text_end. rewrite !zlen_cons. replace (1 + (1 + (1 + zlen data))) with (zlen data + 1 * 3) by lia. by rewrite Z_mod_plus_full. Qed.

Ltac in_range := first [by apply d0_range | by apply d1_range | by apply d2_range | apply d3_range].
Ltac len_digit := rewrite pton_len_digit by in_range; unfold pton_skip; cbn [Z.eqb Pos.eqb];
  rewrite ?tarindex_moves by zl; cbn [mbind outcome_bind].

Lemma pton_len_text data post : Forall is_byte data -> forall n, 0 <= n -> n + zlen data <= INT_MAX ->
  pton_len_loop (b64_text data ++ 0 :: post) n 0 =
    Ret (Some ((text_end data post).1.2, (text_end data post).2, (text_end data post).1.1, n + zlen data)).
Proof.
  induction data as [|a|a b|a b c data IH] using triples_ind; intros Hb n Hn Hi; rewrite ?zlen_cons, ?zlen_nil in Hi.
  - cbn. by rewrite Z.add_0_r.
  - inversion_clear Hb as [|? ? Ha _]. cbn [b64_text app]. len_digit. len_digit. done.
  - inversion_clear Hb as [|? ? Ha Hb']. inversion_clear Hb' as [|? ? Hb _]. cbn [b64_text app].
    len_digit. len_digit. len_digit. change (zlen [a; b]) with 2. rewrite <- (Z.add_assoc n 1 1). done.
  - inversion_clear Hb as [|? ? Ha Hb']. inversion_clear Hb' as [|? ? Hb Hb'']. inversion_clear Hb'' as [|? ? Hc Hl]. cbn [b64_text app].
    len_digit. len_digit. len_digit. len_digit. rewrite IH by (done || lia). rewrite text_end_triple, !zlen_cons. do 3 f_equal. lia.
Qed.

(** The digits of a group, the byte that each one completes given. *)
Ltac do_first := rewrite pton_loop_digit, step0 by (in_range || lia); cbn [mbind outcome_bind].
Ltac do_digit step v := rewrite pton_loop_digit by in_range; rewrite (step _ _ _ _ _ _ v)
  by (first [by apply decode_a | by apply decode_b | zl]); cbn [mbind outcome_bind].

Lemma pton_do_text data post : Forall is_byte data -> forall pre room more targsize,
  length room = S (length data) -> zlen pre + zlen data < targsize -> zlen pre + zlen data <= INT_MAX ->
  exists x, pton_loop (b64_text data ++ 0 :: post) (pre ++ room ++ more) targsize (zlen pre) 0 =
    Ret (Some ((text_end data post).1.2, (text_end data post).2, (text_end data post).1.1, zlen (pre ++ data), (pre ++ data) ++ x :: more)) /\
    ((text_end data post).1.2 = Pad64 -> x = 0).
Proof.
  induction data as [|a|a b|a b c data IH] using triples_ind; intros Hb pre room more targsize Hr Hs Hi; rewrite ?zlen_cons, ?zlen_nil in Hi.
  - destruct room as [|x [|]]; try discriminate Hr. exists x. cbn. rewrite app_nil_r. done.
  - destruct room as [|x0 [|x1 [|]]]; try discriminate Hr. inversion_clear Hb as [|? ? Ha _]. assert (H0 : is_byte 0) by done.
    change (zlen [a]) with 1 in Hs. exists 0. cbn [b64_text app]. do_first. do_digit step1 a. rewrite (proj1 (leftover a 0)). done.
  - destruct room as [|x0 [|x1 [|x2 [|]]]]; try discriminate Hr. inversion_clear Hb as [|? ? Ha Hb']. inversion_clear Hb' as [|? ? Hb _].
    assert (H0 : is_byte 0) by done. change (zlen [a; b]) with 2 in Hs. exists 0. cbn [b64_text app].
    do_first. do_digit step1 a. do_digit step2 b. rewrite (proj2 (leftover a b)), <- (app_assoc pre [a] [b]). done.
  - destruct room as [|x0 [|x1 [|x2 room]]]; try discriminate Hr. inversion_clear Hb as [|? ? Ha Hb'].
    inversion_clear Hb' as [|? ? Hb Hb'']. inversion_clear Hb'' as [|? ? Hc Hl]. rewrite !zlen_cons in Hs. pose proof (zlen_nonneg data).
    cbn [b64_text app]. do_first. do_digit step1 a. do_digit step2 b. rewrite pton_loop_digit by in_range.
    rewrite (step3 _ _ _ _ _ c) by (by apply decode_c || (rewrite !zlen_app; change (zlen [a]) with 1; change (zlen [b]) with 1; lia)).
    cbn [mbind outcome_bind]. rewrite text_end_triple.
    destruct (IH Hl (((pre ++ [a]) ++ [b]) ++ [c]) room more targsize) as (x & E & Hx); [by injection Hr | rewrite !zlen_app; change (zlen [a]) with 1; change (zlen [b]) with 1; change (zlen [c]) with 1; lia.. |].
    exists x. rewrite E, <- !app_assoc. cbn [app]. done.
Qed.

Lemma pton_spaces_end src : pton_spaces 0 src = Ret (0, src).
Proof. by destruct src. Qed.

(** The padding is accepted. *)
Lemma padding_text data post : (text_end data post).1.2 = Pad64 ->
  pton_padding (text_end data post).1.1 (text_end data post).2 = Ret true.
Proof.
  unfold text_end. destruct (Z.to_nat _) as [|[|[|]]]; cbn [fst snd]; intros H; try discriminate H;
  (transitivity ('(ch, _) ← pton_spaces 0 post; Ret (ch =? 0)); [reflexivity | by rewrite pton_spaces_end]).
Qed.

Lemma text_end_state data post : (text_end data post).1.2 <> Pad64 -> (text_end data post).1.1 = 0.
Proof. unfold text_end. destruct (Z.to_nat _) as [|[|[|]]]; cbn [fst snd]; intros H; (reflexivity || by destruct H). Qed.

(** Without a target the bytes are counted; with one they are stored, followed by
    one byte that is written or not. *)
Lemma pton_counts data rest : Forall is_byte data -> zlen data <= INT_MAX -> b64_pton (b64_text data ++ 0 :: rest) None 0 = Ret (zlen data, None).
Proof.
  intros Hb Hi. cbn [b64_pton]. unfold b64_pton_len. rewrite pton_len_text by (done || lia). cbn [mbind outcome_bind].
  destruct (_ =? Pad64) eqn:Ep; bool_hyps; [by rewrite padding_text | by rewrite text_end_state].
Qed.

Lemma pton_stores data rest room more : Forall is_byte data -> zlen data <= INT_MAX -> zlen room = zlen data + 1 ->
  exists x, b64_pton (b64_text data ++ 0 :: rest) (Some (room ++ more)) (zlen data + 1) = Ret (zlen data, Some (data ++ x :: more)).
Proof.
  intros Hb Hi Hr. cbn [b64_pton]. unfold b64_pton_do.
  destruct (pton_do_text data rest Hb [] room more (zlen data + 1)) as (x & Ex & Hx); [unfold zlen in Hr; lia | change (zlen (@nil Z)) with 0; lia.. |].
  cbn [app] in Ex. change (zlen (@nil Z)) with 0 in Ex. exists x. rewrite Ex. cbn [mbind outcome_bind].
  destruct (_ =? Pad64) eqn:Ep; bool_hyps; [|by rewrite text_end_state].
  rewrite padding_text by done. cbn [mbind outcome_bind]. rewrite (rd_at data x more) by done. cbn [mbind outcome_bind]. by rewrite Hx.
Qed.

(** C34: [b64_ntop] writes the text of the bytes and a terminator when the target
    has room, [(n / 3 + 1) * 4 + 1] bytes as the caller allocates; [b64_pton]
    without a target counts the bytes of that text, and with a target of one more
    byte stores exactly them.  The decoder counts in an [int], so there are at most
    [INT_MAX] bytes. *)
Theorem base64_roundtrip data target targsize :
  Forall is_byte data -> zlen data <= INT_MAX -> (zlen data / 3 + 1) * 4 + 1 <= targsize <= zlen target -> targsize < 2 ^ 63 ->
  exists text rest, b64_ntop data (zlen data) target targsize = Ret (zlen text, text ++ 0 :: rest) /\
    b64_pton (text ++ 0 :: rest) None 0 = Ret (zlen data, None) /\
    forall room, zlen room = zlen data + 1 ->
      exists x, b64_pton (text ++ 0 :: rest) (Some room) (zlen data + 1) = Ret (zlen data, Some (data ++ [x])).
Proof.
  intros Hb Hi Ht Hs. pose proof (zlen_b64_text data) as Hl. pose proof (zlen_nonneg data).
  destruct (b64_ntop_spec [] data target targsize) as [rest E]; [done | rewrite Hl; euclid | lia | done |].
  rewrite app_nil_r in E. exists (b64_text data), rest. split; [done|]. split; [by apply pton_counts|].
  intros room Hr. destruct (pton_stores data rest room []) as [x Ex]; [done.. |]. rewrite app_nil_r in Ex. by exists x.
Qed.

Lemma base64_roundtrip_witness :
  exists text rest, b64_ntop [77; 255; 0; 7] 4 (replicate 9 1) 9 = Ret (zlen text, text ++ 0 :: rest) /\
    b64_pton (text ++ 0 :: rest) None 0 = Ret (4, None) /\
    forall room, zlen room = 5 ->
      exists x, b64_pton (text ++ 0 :: rest) (Some room) 5 = Ret (4, Some ([77; 255; 0; 7] ++ [x])).
Proof. apply (base64_roundtrip [77; 255; 0; 7] (replicate 9 1) 9); [repeat constructor; discriminate | done | vm_compute; split; discriminate | done]. Defined.

(** A byte from 128 on is a negative [char]: the table is read before its start. *)
Lemma pton_signed_index : b64_pton [195; 0] None 0 = Oob.
Proof. vm_compute. reflexivity. Qed.
