(* ===== verification/Printf.v ===== *)
(** * %.20g of the C library

    The decimal text of a binary64 number, from its bits: the magnitude as an exact
    fraction, rounded half to even to 20 significant digits, in fixed or scientific
    notation, without trailing zeros. *)
From stdpp Require Import strings.
From S2P Require Import Prelude Numbers.
#[local] Open Scope Z_scope.

(** ** Binary64 *)

Definition dbl_negative (bits : Z) : bool := 2 ^ 63 <=? bits.
Definition dbl_exponent (bits : Z) : Z := bits / 2 ^ 52 mod 2 ^ 11.
Definition dbl_fraction (bits : Z) : Z := bits mod 2 ^ 52.
Definition dbl_special (bits : Z) : bool := dbl_exponent bits =? 2047.

(** [d != d] *)
Definition is_nan (bits : Z) : bool := dbl_special bits && negb (dbl_fraction bits =? 0).
(** [d * 0 != 0]: infinities and NaN. *)
Definition not_finite (bits : Z) : bool := dbl_special bits.
(** [d > 0] *)
Definition dbl_positive (bits : Z) : bool := negb (is_nan bits) && negb (dbl_negative bits) && negb (bits =? 0).

(** The magnitude of a finite number, as a numerator and a denominator. *)
Definition dbl_magnitude (bits : Z) : Z * Z :=
  let e := dbl_exponent bits in
  let m := if e =? 0 then dbl_fraction bits else dbl_fraction bits + 2 ^ 52 in
  let e := if e =? 0 then -1074 else e - 1075 in
  if e >=? 0 then (m * 2 ^ e, 1) else (m, 2 ^ (- e)).

(** ** Decimal digits *)

Fixpoint count_up (fuel : nat) (q x : Z) : Z :=
  match fuel with O => x | S fuel => if q <? 10 then x else count_up fuel (q / 10) (x + 1) end.
Fixpoint count_down (fuel : nat) (num den x : Z) : Z :=
  match fuel with O => x | S fuel => if num <? den then count_down fuel (num * 10) den (x - 1) else x end.

(** The [x] with [10 ^ x <= num / den < 10 ^ (x + 1)]; 309 and 324 steps are enough
    for a binary64. *)
Definition dec_exponent (num den : Z) : Z :=
  if den <=? num then count_up 400 (num / den) 0 else count_down 400 num den 0.

Definition round_half_even (a b : Z) : Z :=
  let q := a / b in
  let r := a mod b in
  if 2 * r <? b then q else if b <? 2 * r then q + 1 else if Z.even q then q else q + 1.

(** The 20 digits as a number, and the exponent of the first one. *)
Definition round20 (num den : Z) : Z * Z :=
  let x := dec_exponent num den in
  let d := if x <=? 19 then round_half_even (num * 10 ^ (19 - x)) den else round_half_even num (den * 10 ^ (x - 19)) in
  if d >=? 10 ^ 20 then (d / 10, x + 1) else (d, x).

(** ** Text *)

(** Without trailing zeros. *)
Fixpoint strip_zeros (ds : bytes) : bytes :=
  match ds with
  | [] => []
  | d :: ds => match strip_zeros ds with [] => if d =? 48 then [] else [d] | ds => d :: ds end
  end.

(** The point and what follows, when anything does. *)
Definition fraction_text (ds : bytes) : bytes := match strip_zeros ds with [] => [] | ds => 46 :: ds end.

(** At least two digits of exponent, with its sign. *)
Definition exponent_digits (x : Z) : bytes :=
  let ds := fmt_u (Z.abs x) in
  101 :: (if x <? 0 then 45 else 43) :: (if Z.abs x <? 10 then 48 :: ds else ds).

Definition finite_text (num den : Z) : bytes :=
  if num =? 0 then [48]
  else
    let '(d, x) := round20 num den in
    let ds := dec_loop 20 d [] in
    if (x <? -4) || (x >=? 20) then take 1 ds ++ fraction_text (drop 1 ds) ++ exponent_digits x
    else if x >=? 0 then take (Z.to_nat (x + 1)) ds ++ fraction_text (drop (Z.to_nat (x + 1)) ds)
    else 48 :: fraction_text (replicate (Z.to_nat (- x - 1)) 48 ++ ds).

(** [%.20g]; the library prints the sign of a NaN, too. *)
Definition fmt_g20 (bits : Z) : bytes :=
  (if dbl_negative bits then [45] else []) ++
  (if is_nan bits then chars "nan" else if dbl_special bits then chars "inf"
   else let '(num, den) := dbl_magnitude bits in finite_text num den).

(** * Proofs *)

(** ** Characters *)

Lemma dec_loop_digits fuel : forall n acc, Forall digit acc -> Forall digit (dec_loop fuel n acc).
Proof.
  induction fuel as [|fuel IH]; intros n acc Ha; cbn [dec_loop]; [done|].
  assert (Hc : Forall digit (48 + n mod 10 :: acc)) by (constructor; [unfold digit; pose proof (Z.mod_pos_bound n 10); lia | done]).
  destruct (n <? 10); [done | by apply IH].
Qed.

Lemma dec_loop_nonempty fuel : forall n acc, (0 < fuel)%nat \/ acc <> [] -> dec_loop fuel n acc <> [].
Proof.
  induction fuel as [|fuel IH]; intros n acc H; cbn [dec_loop]; [destruct H; [lia | done]|].
  destruct (n <? 10); [done|]. apply IH. by right.
Qed.

Lemma strip_zeros_prefix ds : exists n, ds = strip_zeros ds ++ replicate n 48.
Proof.
  induction ds as [|d ds [n IH]]; [by exists 0%nat|]. cbn [strip_zeros]. destruct (strip_zeros ds) as [|e es] eqn:E.
  - destruct (d =? 48) eqn:Ed; bool_hyps; [subst d; exists (S n); cbn [replicate app]; by rewrite IH at 1 | exists n; by rewrite IH at 1].
  - exists n. by rewrite IH at 1.
Qed.

Lemma strip_zeros_digits ds : Forall digit ds -> Forall digit (strip_zeros ds).
Proof. intros H. destruct (strip_zeros_prefix ds) as [n E]. rewrite E in H. by apply Forall_app in H as [H _]. Qed.

(** ** The shape of a number: digits, a point and digits, an exponent *)

Definition fraction_part (t : bytes) : Prop := t = [] \/ exists ds, t = 46 :: ds /\ ds <> [] /\ Forall digit ds.
Definition exponent_part (t : bytes) : Prop :=
  t = [] \/ exists sg ds, t = 101 :: sg :: ds /\ (sg = 43 \/ sg = 45) /\ ds <> [] /\ Forall digit ds.
(** Digits without a leading zero, or the single zero: [canonical]. *)
Definition number_text (t : bytes) : Prop :=
  exists ip fp ex, t = ip ++ fp ++ ex /\ canonical ip /\ fraction_part fp /\ exponent_part ex.

Lemma fraction_text_part ds : Forall digit ds -> fraction_part (fraction_text ds).
Proof.
  intros H. apply strip_zeros_digits in H. unfold fraction_text. destruct (strip_zeros ds) as [|d ds'] eqn:E; [by left|].
  right. exists (d :: ds'). done.
Qed.

Lemma fmt_u_digits n : Forall digit (fmt_u n).
Proof. apply dec_loop_digits. constructor. Qed.

Lemma exponent_digits_part x : exponent_part (exponent_digits x).
Proof.
  right. unfold exponent_digits. eexists _, _. split; [reflexivity|]. split; [destruct (x <? 0); auto|]. pose proof (fmt_u_digits (Z.abs x)) as H.
  assert (Hne : fmt_u (Z.abs x) <> []) by (apply dec_loop_nonempty; left; lia).
  destruct (Z.abs x <? 10); [split; [done|]; constructor; [unfold digit; lia | done] | done].
Qed.

(** ** The decimal exponent *)

Lemma count_up_spec fuel : forall q x, 1 <= q < 10 ^ Z.of_nat fuel ->
  x <= count_up fuel q x /\ 10 ^ (count_up fuel q x - x) <= q < 10 ^ (count_up fuel q x - x + 1).
Proof.
  induction fuel as [|fuel IH]; intros q x Hq; [change (10 ^ Z.of_nat 0) with 1 in Hq; lia|]. cbn [count_up].
  destruct (q <? 10) eqn:E; bool_hyps.
  - split; [lia|]. rewrite Z.sub_diag. change (10 ^ 0) with 1. change (10 ^ (0 + 1)) with 10. lia.
  - rewrite Nat2Z.inj_succ, Z.pow_succ_r in Hq by lia.
    destruct (IH (q / 10) (x + 1)) as [H1 H2]; [split; [apply Z.div_le_lower_bound; lia | apply Z.div_lt_upper_bound; lia]|].
    split; [lia|]. set (r := count_up fuel (q / 10) (x + 1)) in *. clearbody r.
    replace (r - x) with (Z.succ (r - (x + 1))) by lia. rewrite Z.pow_succ_r by lia.
    replace (Z.succ (r - (x + 1)) + 1) with (Z.succ (r - (x + 1) + 1)) by lia. rewrite Z.pow_succ_r by lia.
    pose proof (Z.div_mod q 10 ltac:(lia)). pose proof (Z.mod_pos_bound q 10 ltac:(lia)). lia.
Qed.

Lemma count_down_spec fuel : forall num den x, 0 < num -> num < den * 10 -> den <= num * 10 ^ Z.of_nat fuel ->
  count_down fuel num den x <= x /\ den <= num * 10 ^ (x - count_down fuel num den x) < den * 10.
Proof.
  induction fuel as [|fuel IH]; intros num den x Hn Hl Hd; [cbn [count_down]; rewrite Z.sub_diag; change (10 ^ Z.of_nat 0) with 1 in Hd; change (10 ^ 0) with 1; lia|].
  cbn [count_down]. destruct (num <? den) eqn:E; bool_hyps; [|rewrite Z.sub_diag; change (10 ^ 0) with 1; lia].
  rewrite Nat2Z.inj_succ, Z.pow_succ_r in Hd by lia. destruct (IH (num * 10) den (x - 1)) as [H1 H2]; [lia | lia | lia |].
  split; [lia|]. set (r := count_down fuel (num * 10) den (x - 1)) in *. clearbody r.
  replace (x - r) with (Z.succ (x - 1 - r)) by lia. rewrite Z.pow_succ_r by lia. lia.
Qed.

(** [x] is the exponent of the first digit of [num / den]. *)
Definition leads (num den x : Z) : Prop :=
  0 <= x /\ den * 10 ^ x <= num < den * 10 ^ (x + 1) \/ x < 0 /\ den <= num * 10 ^ (- x) < den * 10.

Lemma dec_exponent_spec num den : 0 < num < den * 10 ^ 400 -> 0 < den <= num * 10 ^ 400 -> leads num den (dec_exponent num den).
Proof.
  intros Hn Hd. unfold dec_exponent, leads. destruct (den <=? num) eqn:E; bool_hyps.
  - pose proof (Z.div_mod num den ltac:(lia)). pose proof (Z.mod_pos_bound num den ltac:(lia)).
    destruct (count_up_spec 400 (num / den) 0) as [H1 H2].
    { split; [apply Z.div_le_lower_bound; lia|]. change (Z.of_nat 400) with 400. apply Z.div_lt_upper_bound; lia. }
    rewrite Z.sub_0_r in H2. set (x := count_up 400 (num / den) 0) in *. clearbody x. left. split; [done|].
    set (q := num / den) in *. set (p1 := 10 ^ x) in *. set (p2 := 10 ^ (x + 1)) in *. clearbody q p1 p2. nia.
  - destruct (count_down_spec 400 num den 0) as [H1 H2]; [lia | lia | exact (proj2 Hd) |]. rewrite Z.sub_0_l in H2.
    set (x := count_down 400 num den 0) in *. clearbody x. right. split; [|done].
    destruct (Z.eq_dec x 0) as [->|]; [change (10 ^ (- 0)) with 1 in H2; lia | lia].
Qed.

Lemma round_half_even_bounds a b lo hi : 0 < b -> lo * b <= a < hi * b -> lo <= round_half_even a b <= hi.
Proof.
  intros Hb H. unfold round_half_even. assert (lo <= a / b) by (apply Z.div_le_lower_bound; lia).
  assert (a / b < hi) by (apply Z.div_lt_upper_bound; lia). repeat case_match; lia.
Qed.

Lemma round20_bounds num den : 0 < num < den * 10 ^ 400 -> 0 < den <= num * 10 ^ 400 ->
  10 ^ 19 <= (round20 num den).1 < 10 ^ 20.
Proof.
  intros Hn Hd. pose proof (dec_exponent_spec num den Hn Hd) as H. unfold round20. set (x := dec_exponent num den) in *. clearbody x.
  assert (Hr : 10 ^ 19 <= (if x <=? 19 then round_half_even (num * 10 ^ (19 - x)) den else round_half_even num (den * 10 ^ (x - 19))) <= 10 ^ 20).
  { destruct (x <=? 19) eqn:E; bool_hyps.
    - apply round_half_even_bounds; [lia|]. destruct H as [[H0 H]|[H0 H]].
      + replace (10 ^ 19) with (10 ^ x * 10 ^ (19 - x)) by (rewrite <- Z.pow_add_r by lia; f_equal; lia).
        replace (10 ^ 20) with (10 ^ (x + 1) * 10 ^ (19 - x)) by (rewrite <- Z.pow_add_r by lia; f_equal; lia).
        assert (0 < 10 ^ (19 - x)) by (apply Z.pow_pos_nonneg; lia). nia.
      + replace (10 ^ (19 - x)) with (10 ^ (- x) * 10 ^ 19) by (rewrite <- Z.pow_add_r by lia; f_equal; lia). lia.
    - destruct H as [[H0 H]|[H0 H]]; [|lia]. apply round_half_even_bounds; [apply Z.mul_pos_pos; [lia | apply Z.pow_pos_nonneg; lia]|].
      replace (10 ^ 19 * (den * 10 ^ (x - 19))) with (den * (10 ^ 19 * 10 ^ (x - 19))) by ring.
      replace (10 ^ 20 * (den * 10 ^ (x - 19))) with (den * (10 ^ 20 * 10 ^ (x - 19))) by ring.
      rewrite <- !Z.pow_add_r by lia. replace (19 + (x - 19)) with x by lia. by replace (20 + (x - 19)) with (x + 1) by lia. }
  set (d := if x <=? 19 then _ else _) in *. clearbody d. destruct (d >=? 10 ^ 20) eqn:E; cbn [fst]; [|lia].
  replace d with (10 ^ 20) by lia. vm_compute. split; [discriminate | done].
Qed.

Lemma canonical_take n ds : canonical ds -> head ds <> Some 48 -> (0 < n)%nat -> canonical (take n ds).
Proof.
  intros (Hd & Hne & _) Hh Hn. destruct ds as [|d ds]; [done|]. destruct n as [|n]; [lia|]. cbn [firstn].
  change (d :: take n ds) with (take (S n) (d :: ds)). split; [by apply Forall_take|]. split; [done|]. done.
Qed.

Lemma finite_number num den : 0 <= num < den * 10 ^ 400 -> 0 < den -> (0 < num -> den <= num * 10 ^ 400) -> number_text (finite_text num den).
Proof.
  intros Hn Hd Hsmall. unfold finite_text. destruct (num =? 0) eqn:E0; bool_hyps.
  { exists [48], [], []. split; [done|]. split; [|split; by left]. split; [repeat constructor; unfold digit; lia | done]. }
  pose proof (round20_bounds num den ltac:(lia) ltac:(lia)) as Hr. destruct (round20 num den) as [d x]. cbn [fst] in Hr.
  destruct (dec_loop_spec 20 d) as (Hc & _ & Hh); [lia | change (Z.of_nat 20) with 20; lia |]. specialize (Hh ltac:(lia)).
  pose proof (dec_loop_digits 20 d [] ltac:(constructor)) as Hdd. set (ds := dec_loop 20 d []) in *. clearbody ds.
  destruct ((x <? -4) || (x >=? 20)).
  - exists (take 1 ds), (fraction_text (drop 1 ds)), (exponent_digits x). split; [done|]. split; [apply canonical_take; done || lia|].
    split; [by apply fraction_text_part, Forall_drop | apply exponent_digits_part].
  - destruct (x >=? 0) eqn:Ex.
    + exists (take (Z.to_nat (x + 1)) ds), (fraction_text (drop (Z.to_nat (x + 1)) ds)), []. rewrite app_nil_r. split; [done|].
      split; [apply canonical_take; done || lia|]. split; [by apply fraction_text_part, Forall_drop | by left].
    + exists [48], (fraction_text (replicate (Z.to_nat (- x - 1)) 48 ++ ds)), []. rewrite app_nil_r. split; [done|].
      split; [split; [repeat constructor; unfold digit; lia | done]|]. split; [|by left]. apply fraction_text_part, Forall_app.
      split; [apply Forall_replicate; unfold digit; lia | done].
Qed.

(** A finite number is printed as a number, with its sign. *)
Lemma fmt_g20_number bits : 0 <= bits < 2 ^ 64 -> not_finite bits = false ->
  exists t, fmt_g20 bits = (if dbl_negative bits then [45] else []) ++ t /\ number_text t.
Proof.
  intros Hb Hf. unfold fmt_g20. unfold not_finite in Hf. unfold is_nan. rewrite Hf. cbn [andb]. eexists. split; [reflexivity|].
  unfold dbl_magnitude. unfold dbl_special in Hf. set (e := dbl_exponent bits) in *.
  assert (He : 0 <= e < 2047) by (subst e; unfold dbl_exponent in *; pose proof (Z.mod_pos_bound (bits / 2 ^ 52) (2 ^ 11)); lia).
  assert (Hfr : 0 <= dbl_fraction bits < 2 ^ 52) by (apply Z.mod_pos_bound; lia).
  set (m := if e =? 0 then dbl_fraction bits else dbl_fraction bits + 2 ^ 52). assert (Hm : 0 <= m < 2 ^ 53) by (subst m; destruct (e =? 0); lia).
  set (k := if e =? 0 then -1074 else e - 1075). assert (Hk : -1074 <= k <= 971) by (subst k; destruct (e =? 0) eqn:Ee; bool_hyps; lia). clearbody m k e.
  destruct (k >=? 0) eqn:Ek.
  - assert (0 < 2 ^ k <= 2 ^ 971) by (split; [apply Z.pow_pos_nonneg; lia | apply Z.pow_le_mono_r; lia]).
    apply finite_number; [|lia|].
    + assert (0 <= m * 2 ^ k <= 2 ^ 53 * 2 ^ 971) by nia. assert (2 ^ 53 * 2 ^ 971 < 1 * 10 ^ 400) by (vm_compute; reflexivity). lia.
    + intros Hp. assert (0 < 10 ^ 400) by (vm_compute; reflexivity). lia.
  - assert (0 < 2 ^ (- k) <= 2 ^ 1074) by (split; [apply Z.pow_pos_nonneg; lia | apply Z.pow_le_mono_r; lia]).
    assert (2 ^ 1074 <= 1 * 10 ^ 400) by (vm_compute; discriminate). assert (2 ^ 53 < 1 * 10 ^ 400) by (vm_compute; reflexivity).
    apply finite_number; [|lia|]; [|intros Hp]; set (p := 2 ^ (- k)) in *; set (q := 10 ^ 400) in *; set (r := 2 ^ 1074) in *; clearbody p q r; nia.
Qed.
