(* ===== verification/Visit.v ===== *)
(** * Visiting the elements of a document (bson-iter.c)

    [bson_iter_visit_all] calls one function of a table per element.  The table
    is a record of optional functions over a client state; a document that is
    handed to a visitor is the bytes at its pointer (to the end of the enclosing
    object) and its length, as [bson_init_static] would set it up. *)
From S2P Require Import Prelude Memory Strings Utf8 Format Document Append Lifecycle Iter IterSafe Find Values.

(** ** Static documents *)

(** The checks of [bson_init_static]; NULL data fails its assertion. *)
Definition init_static (data : option bytes) (length : Z) : outcome bool :=
  match data with
  | None => Abort
  | Some data =>
    if (length <? 5) || (length >? INT_MAX) then Ret false
    else
      len_le ← rd_le 4 data 0;
      if negb (len_le =? length) then Ret false
      else last ← rd data (length - 1); Ret (last =? 0)
  end.

(** The static document and [bson_iter_init] on it. *)
Record static_doc := mk_static { sd_data : bytes; sd_len : Z }.
Definition iter_init_static (d : static_doc) : bool * bson_iter_t :=
  if sd_len d <? 5 then (false, iter_zero) else (true, iter_start (sd_data d) (sd_len d)).

(** ** The table *)

Record bson_visitor_t (S : Type) := mk_visitor {
  visit_before : option (bson_iter_t -> bytes -> S -> outcome (bool * S));
  visit_after : option (bson_iter_t -> bytes -> S -> outcome (bool * S));
  visit_corrupt : option (bson_iter_t -> S -> outcome S);
  visit_double : option (bson_iter_t -> bytes -> Z -> S -> outcome (bool * S));
  visit_utf8 : option (bson_iter_t -> bytes -> Z -> bytes -> S -> outcome (bool * S));
  visit_document : option (bson_iter_t -> bytes -> static_doc -> S -> outcome (bool * S));
  visit_array : option (bson_iter_t -> bytes -> static_doc -> S -> outcome (bool * S));
  visit_binary : option (bson_iter_t -> bytes -> Z -> Z -> option bytes -> S -> outcome (bool * S));
  visit_undefined : option (bson_iter_t -> bytes -> S -> outcome (bool * S));
  visit_oid : option (bson_iter_t -> bytes -> option bytes -> S -> outcome (bool * S));
  visit_bool : option (bson_iter_t -> bytes -> bool -> S -> outcome (bool * S));
  visit_date_time : option (bson_iter_t -> bytes -> Z -> S -> outcome (bool * S));
  visit_null : option (bson_iter_t -> bytes -> S -> outcome (bool * S));
  visit_regex : option (bson_iter_t -> bytes -> bytes -> option bytes -> S -> outcome (bool * S));
  visit_dbpointer : option (bson_iter_t -> bytes -> Z -> bytes -> option bytes -> S -> outcome (bool * S));
  visit_code : option (bson_iter_t -> bytes -> Z -> bytes -> S -> outcome (bool * S));
  visit_symbol : option (bson_iter_t -> bytes -> Z -> bytes -> S -> outcome (bool * S));
  visit_codewscope : option (bson_iter_t -> bytes -> Z -> bytes -> static_doc -> S -> outcome (bool * S));
  visit_int32 : option (bson_iter_t -> bytes -> Z -> S -> outcome (bool * S));
  visit_timestamp : option (bson_iter_t -> bytes -> Z -> Z -> S -> outcome (bool * S));
  visit_int64 : option (bson_iter_t -> bytes -> Z -> S -> outcome (bool * S));
  visit_maxkey : option (bson_iter_t -> bytes -> S -> outcome (bool * S));
  visit_minkey : option (bson_iter_t -> bytes -> S -> outcome (bool * S));
  visit_unsupported_type : option (bson_iter_t -> bytes -> Z -> S -> outcome S);
  visit_decimal128 : option (bson_iter_t -> bytes -> bson_decimal128_t -> S -> outcome (bool * S));
}.
Arguments mk_visitor {S}.
Arguments visit_before {S}. Arguments visit_after {S}. Arguments visit_corrupt {S}. Arguments visit_double {S}.
Arguments visit_utf8 {S}. Arguments visit_document {S}. Arguments visit_array {S}. Arguments visit_binary {S}.
Arguments visit_undefined {S}. Arguments visit_oid {S}. Arguments visit_bool {S}. Arguments visit_date_time {S}.
Arguments visit_null {S}. Arguments visit_regex {S}. Arguments visit_dbpointer {S}. Arguments visit_code {S}.
Arguments visit_symbol {S}. Arguments visit_codewscope {S}. Arguments visit_int32 {S}. Arguments visit_timestamp {S}.
Arguments visit_int64 {S}. Arguments visit_maxkey {S}. Arguments visit_minkey {S}. Arguments visit_unsupported_type {S}.
Arguments visit_decimal128 {S}.

(** ** The loop *)

Section Visit.
Context {S : Type} (visitor : bson_visitor_t S).

(** [visitor->visit_x && visitor->visit_x (...)] *)
Definition VISIT_FIELD {A} (f : option A) (call : A -> outcome (bool * S)) (s : S) : outcome (bool * S) :=
  match f with Some f => call f | None => Ret (false, s) end.

(** The pointer argument of [bson_utf8_validate], which asserts it. *)
Definition assert_ptr (p : option bytes) : outcome bytes := match p with Some p => Ret p | None => Abort end.

(** Invalid UTF-8 in a value ends the loop with [true] after setting
    [err_off]; otherwise the visitor decides. *)
Definition checked_utf8 (it : bson_iter_t) (str : bytes) (len : Z) (next : outcome (bool * S)) (s : S) :
    outcome (bool * bson_iter_t * S) :=
  ok ← bson_utf8_validate str len true;
  if negb ok then Ret (true, set_err it (i_off it), s)
  else '(stop, s) ← next; Ret (stop, it, s).

(** [bson_init_static (&b, docbuf, doclen) && VISIT_DOCUMENT (...)] *)
Definition visit_static (docbuf : option bytes) (doclen : Z) (call : static_doc -> outcome (bool * S)) (s : S) :
    outcome (bool * S) :=
  ok ← init_static docbuf doclen;
  if (ok : bool) then d ← assert_ptr docbuf; call (mk_static d doclen) else Ret (false, s).

(** The [switch]: whether to stop, the iterator and the state. *)
Definition visit_value (it : bson_iter_t) (key : bytes) (bson_type : Z) (s : S) : outcome (bool * bson_iter_t * S) :=
  let plain (r : outcome (bool * S)) := '(stop, s) ← r; Ret (stop, it, s) in
  let ty_is (t : Z) := bson_type =? t in
  if ty_is BSON_TYPE_DOUBLE then
    plain (VISIT_FIELD (visit_double visitor) (fun f => d ← bson_iter_double it; f it key d s) s)
  else if ty_is BSON_TYPE_UTF8 then
    '(utf8, utf8_len) ← bson_iter_utf8 it;
    utf8 ← assert_ptr utf8;
    checked_utf8 it utf8 utf8_len (VISIT_FIELD (visit_utf8 visitor) (fun f => f it key utf8_len utf8 s) s) s
  else if ty_is BSON_TYPE_DOCUMENT then
    '(doclen, docbuf) ← bson_iter_document it;
    plain (visit_static docbuf doclen (fun b => VISIT_FIELD (visit_document visitor) (fun f => f it key b s) s) s)
  else if ty_is BSON_TYPE_ARRAY then
    '(doclen, docbuf) ← bson_iter_array it;
    plain (visit_static docbuf doclen (fun b => VISIT_FIELD (visit_array visitor) (fun f => f it key b s) s) s)
  else if ty_is BSON_TYPE_BINARY then
    '(subtype, binary_len, binary) ← bson_iter_binary it;
    plain (VISIT_FIELD (visit_binary visitor) (fun f => f it key subtype binary_len binary s) s)
  else if ty_is BSON_TYPE_UNDEFINED then plain (VISIT_FIELD (visit_undefined visitor) (fun f => f it key s) s)
  else if ty_is BSON_TYPE_OID then
    plain (VISIT_FIELD (visit_oid visitor) (fun f => o ← bson_iter_oid it; f it key o s) s)
  else if ty_is BSON_TYPE_BOOL then
    plain (VISIT_FIELD (visit_bool visitor) (fun f => b ← bson_iter_bool it; f it key b s) s)
  else if ty_is BSON_TYPE_DATE_TIME then
    plain (VISIT_FIELD (visit_date_time visitor) (fun f => n ← bson_iter_date_time it; f it key n s) s)
  else if ty_is BSON_TYPE_NULL then plain (VISIT_FIELD (visit_null visitor) (fun f => f it key s) s)
  else if ty_is BSON_TYPE_REGEX then
    '(regex, options) ← bson_iter_regex it;
    regex ← assert_ptr regex;
    n ← strlen regex;
    checked_utf8 it regex n (VISIT_FIELD (visit_regex visitor) (fun f => f it key regex options s) s) s
  else if ty_is BSON_TYPE_DBPOINTER then
    '(collection, collection_len, oid) ← bson_iter_dbpointer it;
    collection ← assert_ptr collection;
    checked_utf8 it collection collection_len
      (VISIT_FIELD (visit_dbpointer visitor) (fun f => f it key collection_len collection oid s) s) s
  else if ty_is BSON_TYPE_CODE then
    '(code, code_len) ← bson_iter_code it;
    code ← assert_ptr code;
    checked_utf8 it code code_len (VISIT_FIELD (visit_code visitor) (fun f => f it key code_len code s) s) s
  else if ty_is BSON_TYPE_SYMBOL then
    '(symbol, symbol_len) ← bson_iter_symbol it;
    symbol ← assert_ptr symbol;
    checked_utf8 it symbol symbol_len (VISIT_FIELD (visit_symbol visitor) (fun f => f it key symbol_len symbol s) s) s
  else if ty_is BSON_TYPE_CODEWSCOPE then
    '(code, length, docbuf, doclen) ← bson_iter_codewscope it;
    code ← assert_ptr code;
    checked_utf8 it code length
      (visit_static docbuf doclen (fun b => VISIT_FIELD (visit_codewscope visitor) (fun f => f it key length code b s) s) s) s
  else if ty_is BSON_TYPE_INT32 then
    plain (VISIT_FIELD (visit_int32 visitor) (fun f => n ← bson_iter_int32 it; f it key n s) s)
  else if ty_is BSON_TYPE_TIMESTAMP then
    '(timestamp, increment) ← bson_iter_timestamp it;
    plain (VISIT_FIELD (visit_timestamp visitor) (fun f => f it key timestamp increment s) s)
  else if ty_is BSON_TYPE_INT64 then
    plain (VISIT_FIELD (visit_int64 visitor) (fun f => n ← bson_iter_int64 it; f it key n s) s)
  else if ty_is BSON_TYPE_DECIMAL128 then
    dec ← bson_iter_decimal128 it;
    plain (VISIT_FIELD (visit_decimal128 visitor)
             (fun f => f it key (default (mk_dec128 undef_byte undef_byte) dec) s) s)
  else if ty_is BSON_TYPE_MAXKEY then
    plain (VISIT_FIELD (visit_maxkey visitor) (fun f => k ← bson_iter_key_unsafe it; f it k s) s)
  else if ty_is BSON_TYPE_MINKEY then
    plain (VISIT_FIELD (visit_minkey visitor) (fun f => k ← bson_iter_key_unsafe it; f it k s) s)
  else Ret (false, it, s).

(** After the loop, [it] has [err_off] set when the data is corrupt. *)
Definition visit_end (it : bson_iter_t) (key : option bytes) (bson_type : Z) (unsupported : bool) (s : S) :
    outcome (bool * bson_iter_t * S) :=
  let corrupt := match visit_corrupt visitor with
                 | Some f => s ← f it s; Ret (false, it, s)
                 | None => Ret (false, it, s)
                 end in
  if i_err_off it =? 0 then Ret (false, it, s)
  else
    match unsupported, visit_unsupported_type visitor with
    | true, Some f =>
      key ← assert_ptr key;
      n ← strlen key;
      ok ← bson_utf8_validate key n false;
      if (ok : bool) then s ← f it key bson_type s; Ret (false, it, s) else corrupt
    | _, _ => corrupt
    end.

(** The key of an element is checked before anything else. *)
Definition key_valid (key : bytes) : outcome bool :=
  c ← rd key 0;
  if c =? 0 then Ret true else n ← strlen key; bson_utf8_validate key n false.

Fixpoint visit_loop (fuel : nat) (it : bson_iter_t) (s : S) : outcome (bool * bson_iter_t * S) :=
  match fuel with
  | O => Fuel
  | Datatypes.S fuel =>
    r ← _bson_iter_next_internal it;
    let it := n_iter r in
    if negb (n_ok r) then visit_end it (n_key r) (n_type r) (n_unsupported r) s
    else
      key ← assert_ptr (n_key r);
      valid ← key_valid key;
      if negb valid then visit_end (set_err it (i_off it)) (n_key r) (n_type r) (n_unsupported r) s
      else
        '(stop, s) ← VISIT_FIELD (visit_before visitor) (fun f => f it key s) s;
        if (stop : bool) then Ret (true, it, s)
        else
          '(stop, it, s) ← visit_value it key (n_type r) s;
          if (stop : bool) then Ret (true, it, s)
          else
            '(stop, s) ← VISIT_FIELD (visit_after visitor) (fun f => k ← bson_iter_key_unsafe it; f it k s) s;
            if (stop : bool) then Ret (true, it, s) else visit_loop fuel it s
  end.

(** Every iteration moves forward inside the document. *)
Definition bson_iter_visit_all (it : bson_iter_t) (s : S) : outcome (bool * bson_iter_t * S) :=
  visit_loop (iter_fuel it) it s.
End Visit.

(** * Proofs *)

(** The checks are those of [bson_init_static]. *)
Lemma init_static_agrees tmp data length m :
  match bson_init_static tmp data length m with
  | Ret (_, ok) => init_static (Some data) length = Ret ok
  | Abort => init_static (Some data) length = Abort
  | Oob => init_static (Some data) length = Oob
  | Fuel => False
  end.
Proof.
  unfold bson_init_static, init_static. destruct ((length <? 5) || (length >? INT_MAX)) eqn:E; [done|].
  apply orb_false_iff in E as [E1 E2]. unfold mbind at 1, M_bind at 1, lift at 1.
  unfold rd_le. destruct (rdn data 0 4) as [l4| | |] eqn:E4; cbn [mbind outcome_bind];
    [|exfalso|done|]; [|revert E4; unfold rdn; by destruct (_ && _)..].
  destruct (negb (le_val l4 =? length)); [done|]. unfold mbind at 1, M_bind at 1, lift at 1.
  destruct (rd data (length - 1)) as [last| | |] eqn:El; cbn [mbind outcome_bind];
    [|exfalso|done|]; [|revert El; unfold rd; destruct (_ <? 0); [done|]; by destruct (data !! _)..].
  destruct (last =? 0) eqn:E0; cbn [negb]; [|done]. apply rd_Ret_inv in El as [Hl _].
  unfold mbind at 1, M_bind at 1, lift at 1. rewrite rdn_ret by lia. done.
Qed.

(** ** Safety on arbitrary bytes *)

(** Four readable bytes behind the document exclude the over-read. *)
Lemma no_overread it data : i_len it + 4 <= zlen data -> ~ overread_at it data.
Proof. intros H (o & _ & _ & Ho & _ & Hz). lia. Qed.

Lemma validate_returns s n allow :
  0 <= n <= zlen s -> n < 2 ^ 32 -> Forall is_byte (take (Z.to_nat n) s) -> returns (bson_utf8_validate s n allow).
Proof.
  intros Hn Hm Hb. unfold bson_utf8_validate.
  assert (Ln : zlen (take (Z.to_nat n) s) = n) by (rewrite zlen_take; lia).
  destruct (validate_loop_spec (S (Z.to_nat n)) [] (take (Z.to_nat n) s) (drop (Z.to_nat n) s) allow) as (b & E & _);
    [done | change (zlen (@nil Z)) with 0; lia | rewrite length_take; lia |].
  cbn [app] in E. rewrite take_drop, Ln in E. exists b. exact E.
Qed.

(** A C string of bytes, shorter than 2^31. *)
Definition c_string (s : bytes) : Prop :=
  exists k r, s = k ++ 0 :: r /\ no_nul k /\ Forall is_byte k /\ zlen k < 2 ^ 31.

Lemma c_string_at data i j len :
  0 <= i <= j -> j < len -> len <= zlen data -> len <= INT_MAX -> rd data j = Ret 0 ->
  Forall is_byte (take (Z.to_nat len) data) -> c_string (drop (Z.to_nat i) data).
Proof.
  intros Hij Hj Hl Hm H0 Hb. unfold INT_MAX in Hm.
  assert (Hs : forall n s, rd s n = Ret 0 -> n < 2 ^ 31 -> Forall is_byte (take (Z.to_nat n) s) -> c_string s).
  { clear. intros n s. revert n. induction s as [|c s IH]; intros n Hr Hn Hb; [by unfold rd in Hr; destruct (n <? 0)|].
    apply rd_Ret_inv in Hr as [Hr1 Hr2]. rewrite zlen_cons in Hr1.
    destruct (decide (c = 0)) as [->|Hc]; [exists [], s; split; [done|]; split; [apply Forall_nil_2|]; split; [apply Forall_nil_2 | done]|].
    destruct (Z.to_nat n) as [|m] eqn:En; [simpl in Hr2; congruence|]. cbn [firstn] in Hb. inversion_clear Hb as [|? ? Bc Bs].
    destruct (IH (n - 1)) as (k & r & -> & H1 & H2 & H3); [| lia | by replace (Z.to_nat (n - 1)) with m by lia |].
    { unfold rd. replace (n - 1 <? 0) with false by lia. replace (Z.to_nat (n - 1)) with m by lia. simpl in Hr2. by rewrite Hr2. }
    assert (Hk : zlen k < n).
    { rewrite zlen_app, zlen_cons in Hr1. apply Z.nle_gt. intros Hle.
      simpl in Hr2. rewrite lookup_app_l in Hr2 by (unfold zlen in Hle; lia).
      apply list_elem_of_lookup_2 in Hr2. unfold no_nul in H1. rewrite Forall_forall in H1. by destruct (H1 0 Hr2). }
    exists (c :: k), r. split; [done|]. split; [by constructor|]. split; [by constructor | rewrite zlen_cons; lia]. }
  apply (Hs (j - i)); [|lia|].
  - rewrite <- H0. unfold rd. replace (j - i <? 0) with false by lia. replace (j <? 0) with false by lia.
    rewrite lookup_drop. by replace (Z.to_nat i + Z.to_nat (j - i))%nat with (Z.to_nat j) by lia.
  - rewrite <- (take_take_drop_le _ _ (Z.to_nat len)) by lia. by apply Forall_take, Forall_drop.
Qed.

(** Text of [n] bytes at a pointer. *)
Definition text_ok (s : bytes) (n : Z) : Prop := 0 <= n <= zlen s /\ n < 2 ^ 31 /\ Forall is_byte (take (Z.to_nat n) s).

(** A nested document, shorter than [n], with four readable bytes behind it. *)
Definition doc_ok (n : Z) (d : static_doc) : Prop :=
  5 <= sd_len d < n /\ sd_len d <= INT_MAX /\ sd_len d + 4 <= zlen (sd_data d) /\
  Forall is_byte (take (Z.to_nat (sd_len d)) (sd_data d)).

Lemma text_validate s n allow : text_ok s n -> returns (bson_utf8_validate s n allow).
Proof. intros (H1 & H2 & H3). apply validate_returns; [done | lia | done]. Qed.

Lemma c_string_text s : c_string s -> exists n, strlen s = Ret n /\ text_ok s n.
Proof.
  intros (k & r & -> & H1 & H2 & H3). exists (zlen k). split; [by apply strlen_cstr|]. split; [|split; [done|]].
  - rewrite zlen_app, zlen_cons. pose proof (zlen_nonneg k). pose proof (zlen_nonneg r). lia.
  - by rewrite take_zlen.
Qed.

(** ** Visitors that return *)

Section Total.
Context {S : Type}.
Implicit Types (v : bson_visitor_t S) (it : bson_iter_t).

(** A visitor function that returns on any key and argument of the right kind. *)
Definition total0 (f : option (bson_iter_t -> bytes -> S -> outcome (bool * S))) : Prop :=
  forall g, f = Some g -> forall it k s, c_string k -> returns (g it k s).
Definition total1 {A} (ok : A -> Prop) (f : option (bson_iter_t -> bytes -> A -> S -> outcome (bool * S))) : Prop :=
  forall g, f = Some g -> forall it k a s, c_string k -> ok a -> returns (g it k a s).
Definition total2 {A B} (ok : A -> B -> Prop) (f : option (bson_iter_t -> bytes -> A -> B -> S -> outcome (bool * S))) : Prop :=
  forall g, f = Some g -> forall it k a b s, c_string k -> ok a b -> returns (g it k a b s).
Definition total3 {A B C} (ok : A -> B -> C -> Prop)
    (f : option (bson_iter_t -> bytes -> A -> B -> C -> S -> outcome (bool * S))) : Prop :=
  forall g, f = Some g -> forall it k a b c s, c_string k -> ok a b c -> returns (g it k a b c s).

Record visitor_total (n : Z) (v : bson_visitor_t S) : Prop := mk_visitor_total {
  vt_before : total0 (visit_before v);
  vt_after : total0 (visit_after v);
  vt_corrupt : forall g, visit_corrupt v = Some g -> forall it s, returns (g it s);
  vt_double : total1 (fun _ => True) (visit_double v);
  vt_utf8 : total2 (fun len s => text_ok s len) (visit_utf8 v);
  vt_document : total1 (doc_ok n) (visit_document v);
  vt_array : total1 (doc_ok n) (visit_array v);
  vt_binary : total3 (fun _ _ _ => True) (visit_binary v);
  vt_undefined : total0 (visit_undefined v);
  vt_oid : total1 (fun _ => True) (visit_oid v);
  vt_bool : total1 (fun _ => True) (visit_bool v);
  vt_date_time : total1 (fun _ => True) (visit_date_time v);
  vt_null : total0 (visit_null v);
  vt_regex : total2 (fun r _ => c_string r) (visit_regex v);
  vt_dbpointer : total3 (fun len s _ => text_ok s len) (visit_dbpointer v);
  vt_code : total2 (fun len s => text_ok s len) (visit_code v);
  vt_symbol : total2 (fun len s => text_ok s len) (visit_symbol v);
  vt_codewscope : total3 (fun len s d => text_ok s len /\ doc_ok n d) (visit_codewscope v);
  vt_int32 : total1 (fun _ => True) (visit_int32 v);
  vt_timestamp : total2 (fun _ _ => True) (visit_timestamp v);
  vt_int64 : total1 (fun _ => True) (visit_int64 v);
  vt_maxkey : total0 (visit_maxkey v);
  vt_minkey : total0 (visit_minkey v);
  vt_unsupported : forall g, visit_unsupported_type v = Some g -> forall it k ty s, c_string k -> returns (g it k ty s);
  vt_decimal128 : total1 (fun _ => True) (visit_decimal128 v);
}.

(** The result of a step of the loop that stops or leaves the iterator alone. *)
Definition step_ok_it (it : bson_iter_t) (r : outcome (bool * bson_iter_t * S)) : Prop :=
  exists stop it' s', r = Ret (stop, it', s') /\ (stop = false -> it' = it).

Lemma plain_step it (r : outcome (bool * S)) : returns r -> step_ok_it it ('(stop, s) ← r; Ret (stop, it, s)).
Proof. intros [[stop s] ->]. by exists stop, it, s. Qed.

Lemma field_returns {A} (f : option A) (call : A -> outcome (bool * S)) s :
  (forall g, f = Some g -> returns (call g)) -> returns (VISIT_FIELD f call s).
Proof. intros H. destruct f as [g|]; cbn [VISIT_FIELD]; [by apply H | by eexists]. Qed.

Lemma checked_step it str len next s :
  text_ok str len -> returns next -> step_ok_it it (checked_utf8 it str len next s).
Proof.
  intros Ht Hn. unfold checked_utf8. destruct (text_validate str len true Ht) as [b ->]. cbn [mbind outcome_bind].
  destruct b; cbn [negb]; [by apply plain_step|]. by eexists true, _, _.
Qed.

Lemma static_returns data l n (call : static_doc -> outcome (bool * S)) s :
  0 <= l < n -> n <= INT_MAX -> l + 4 <= zlen data -> Forall is_byte (take (Z.to_nat l) data) ->
  (forall d, doc_ok n d -> returns (call d)) -> returns (visit_static (Some data) l call s).
Proof.
  intros Hl Hn Hz Hb Hc. unfold visit_static, init_static, INT_MAX in *.
  destruct ((l <? 5) || (l >? 2147483647)) eqn:E; [by eexists|]. apply orb_false_iff in E as [E1 E2]. bool_hyps.
  rewrite rd_le_ret by lia. cbn [mbind outcome_bind]. destruct (negb _); [by eexists|].
  destruct (rd_ret data (l - 1)) as [c ->]; [lia|]. cbn [mbind outcome_bind].
  destruct (c =? 0); [|by eexists]. cbn [assert_ptr mbind outcome_bind]. apply Hc.
  unfold doc_ok, INT_MAX. cbn [sd_len sd_data]. repeat split; [lia.. | done].
Qed.
End Total.

(** ** What the accessors hand to the visitors *)

Section Handed.
Context {it : bson_iter_t} {data : bytes} {o len ty : Z}.
Context (E : on_elem it data o len ty) (Hsp : len + 4 <= zlen data) (Hb : Forall is_byte (take (Z.to_nat len) data)).

Lemma text_at i n : 0 <= i -> 0 <= n -> i + n < len -> text_ok (drop (Z.to_nat i) data) n.
Proof using E Hsp Hb.
  intros. pose proof (oe_max _ _ _ _ _ E). unfold INT_MAX in *. split; [rewrite zlen_drop; lia|]. split; [lia|].
  rewrite <- (take_take_drop_le _ _ (Z.to_nat len)) by lia. by apply Forall_take, Forall_drop.
Qed.

Lemma string_handed t :
  is_string t -> ty = t -> exists s n, iter_string t it = Ret (Some s, n) /\ text_ok s n.
Proof using E Hsp Hb.
  intros Ht Et. destruct (iter_string_ret t E Ht Et) as (l & H1 & H2 & _ & _ & ->).
  pose proof (oe_o _ _ _ _ _ E). eexists _, _. split; [done|]. apply text_at; lia.
Qed.

Lemma doc_handed t : is_container t -> ty = t ->
  exists d l, iter_doc t it = Ret (l, Some d) /\ 0 <= l < len /\ l + 4 <= zlen d /\ Forall is_byte (take (Z.to_nat l) d).
Proof using E Hsp Hb.
  intros Ht Et. destruct (iter_doc_ret t E Ht Et) as (l & El & En & ->).
  pose proof (oe_o _ _ _ _ _ E). pose proof (oe_next _ _ _ _ _ E). pose proof (oe_elem _ _ _ _ _ E) as D.
  rewrite Et in D. destruct (doc_case t D Ht) as (l' & _ & _ & El' & Hge). rewrite El in El'. injection El' as <-.
  destruct (text_at o l) as (T1 & T2 & T3); [lia | lia | lia |].
  eexists _, l. split; [done|]. split; [lia|]. split; [rewrite zlen_drop; lia | done].
Qed.

Lemma regex_handed : ty = BSON_TYPE_REGEX -> exists r opts, bson_iter_regex it = Ret (Some r, opts) /\ c_string r.
Proof using E Hsp Hb.
  intros Et. pose proof E as [Er _ D Ho Hn Hl Hm]. unfold describes in D. rewrite Et in D.
  assert (exists p q, i_d1 it = o /\ i_d2 it = p + 1 /\ o <= p < q /\ q < len /\ rd data p = Ret 0) as (p & q & E1 & E2 & Hp & Hq & Hnul)
    by (elem_inv D; eexists _, _; repeat split; eauto; lia).
  unfold bson_iter_regex. rewrite (iter_is_ret _ E), Et, Z.eqb_refl. cbn [mbind outcome_bind].
  rewrite E1, E2, !(ptr_at_ret _ E) by lia. cbn [mbind outcome_bind]. eexists _, _. split; [done|].
  apply (c_string_at data o p len); try done; lia.
Qed.

Lemma dbpointer_handed : ty = BSON_TYPE_DBPOINTER ->
  exists c n oid, bson_iter_dbpointer it = Ret (Some c, n, oid) /\ text_ok c n.
Proof using E Hsp Hb.
  intros Et. pose proof E as [Er _ D Ho Hn Hl Hm]. unfold describes in D. rewrite Et in D.
  assert (exists l, i_d1 it = o /\ i_d2 it = o + 4 /\ i_d3 it = o + 4 + l /\ 1 <= l /\ o + 4 + l + 12 < len /\
    rd_le 4 data o = Ret l) as (l & E1 & E2 & E3 & ? & ? & El)
    by (elem_inv D; eexists; repeat split; eauto; lia).
  unfold bson_iter_dbpointer. rewrite (iter_is_ret _ E), Et, Z.eqb_refl. cbn [mbind outcome_bind].
  rewrite (rd_at_eq _ _ E), E1, El. cbn [mbind outcome_bind]. cbn zeta. replace (l >? 0) with true by lia.
  rewrite E2, (ptr_at_ret _ E) by lia. cbn [mbind outcome_bind]. unfold raw_of. rewrite Er. cbn [mbind outcome_bind].
  rewrite E3, rdn_ret by lia. cbn [mbind outcome_bind]. eexists _, _, _. split; [done|]. apply text_at; lia.
Qed.

Lemma codewscope_handed : ty = BSON_TYPE_CODEWSCOPE ->
  exists c n d l, bson_iter_codewscope it = Ret (Some c, n, Some d, l) /\ text_ok c n /\
    0 <= l < len /\ l + 4 <= zlen d /\ Forall is_byte (take (Z.to_nat l) d).
Proof using E Hsp Hb.
  intros Et. pose proof E as [Er _ D Ho Hn Hl Hm]. unfold describes in D. rewrite Et in D.
  assert (exists ls ld, i_d2 it = o + 4 /\ i_d3 it = o + 8 /\ i_d4 it = o + 8 + ls /\ 1 <= ls /\ 4 < ld /\
    o + 8 + ls + ld < len /\ rd_le 4 data (o + 4) = Ret ls /\ rd_le 4 data (o + 8 + ls) = Ret ld)
    as (ls & ld & E2 & E3 & E4 & ? & ? & ? & Es & Ed)
    by (elem_inv D; eexists _, _; repeat split; eauto; lia).
  unfold bson_iter_codewscope. rewrite (iter_is_ret _ E), Et, Z.eqb_refl. cbn [mbind outcome_bind].
  rewrite !(rd_at_eq _ _ E), E2, Es. cbn [mbind outcome_bind]. replace (ls >? 0) with true by lia.
  cbn [BSON_ASSERTo mbind outcome_bind]. rewrite E4, Ed. cbn [mbind outcome_bind].
  rewrite E3, !(ptr_at_ret _ E) by lia. cbn [mbind outcome_bind].
  destruct (text_at (o + 8 + ls) ld) as (T1 & T2 & T3); [lia | lia | lia |].
  eexists _, _, _, _. split; [done|]. split; [apply text_at; lia|]. split; [lia|]. split; [rewrite zlen_drop; lia | done].
Qed.
End Handed.

Section Loop.
Context {S : Type} (v : bson_visitor_t S) (n : Z) (V : visitor_total n v).

Ltac skip := match goal with |- context [?a =? ?b] => is_var a; destruct (a =? b) eqn:?; bool_hyps end.
Ltac visit vt := apply field_returns; intros g Eg; by apply vt.
(** The accessor is evaluated inside the call. *)
Ltac visit_get acc vt := apply plain_step, field_returns; intros g Eg; destruct acc as [x ->]; cbn; by apply vt.
Ltac visit_string E Hsp Hb t acc vt :=
  destruct (string_handed E Hsp Hb t) as (str & len & Es & Ht); [unfold is_string; auto | done |];
  unfold acc; rewrite Es; cbn [mbind outcome_bind assert_ptr]; apply checked_step; [done|]; visit vt.
Ltac visit_doc E Hsp Hb t side acc vt :=
  destruct (doc_handed E Hsp Hb t) as (d & l & El & H1 & H2 & H3); [side | done |];
  unfold acc; rewrite El; cbn [mbind outcome_bind]; apply plain_step, (static_returns _ _ n); [done.. |];
  intros b Hdoc; visit vt.

Lemma visit_value_returns it data o ty key s :
  on_elem it data o n ty -> n + 4 <= zlen data -> Forall is_byte (take (Z.to_nat n) data) -> c_string key ->
  bson_iter_key_unsafe it = Ret key -> step_ok_it it (visit_value v it key ty s).
Proof using V.
  intros E Hsp Hb Hk Ek. destruct (on_elem_accessors it data o n ty E) as
    ((Ad & A32 & A64 & Adt & _ & _ & Ats) & (Aoid & Adec) & _ & _ & _ & _ & Abool & _ & _ & _ & _ & _ & _ & Abin & _).
  pose proof (oe_max _ _ _ _ _ E) as Hm. unfold visit_value. cbn zeta.
  skip; [visit_get Ad (vt_double _ _ V)|].
  skip; [visit_string E Hsp Hb BSON_TYPE_UTF8 bson_iter_utf8 (vt_utf8 _ _ V)|].
  skip; [visit_doc E Hsp Hb BSON_TYPE_DOCUMENT ltac:(by right) bson_iter_document (vt_document _ _ V)|].
  skip; [visit_doc E Hsp Hb BSON_TYPE_ARRAY ltac:(by left) bson_iter_array (vt_array _ _ V)|].
  skip. { destruct Abin as [[[st len] bin] ->]. cbn [mbind outcome_bind]. apply plain_step. visit (vt_binary _ _ V). }
  skip; [apply plain_step; visit (vt_undefined _ _ V)|].
  skip; [visit_get Aoid (vt_oid _ _ V)|].
  skip; [visit_get Abool (vt_bool _ _ V)|].
  skip; [visit_get Adt (vt_date_time _ _ V)|].
  skip; [apply plain_step; visit (vt_null _ _ V)|].
  skip. { destruct (regex_handed E Hsp Hb) as (r & opts & Er & Hr); [done|]. rewrite Er. cbn [mbind outcome_bind assert_ptr].
          destruct (c_string_text r Hr) as (len & -> & Ht). cbn [mbind outcome_bind]. apply checked_step; [done|]. visit (vt_regex _ _ V). }
  skip. { destruct (dbpointer_handed E Hsp Hb) as (c & len & oid & Ec & Ht); [done|]. rewrite Ec.
          cbn [mbind outcome_bind assert_ptr]. apply checked_step; [done|]. visit (vt_dbpointer _ _ V). }
  skip; [visit_string E Hsp Hb BSON_TYPE_CODE bson_iter_code (vt_code _ _ V)|].
  skip; [visit_string E Hsp Hb BSON_TYPE_SYMBOL bson_iter_symbol (vt_symbol _ _ V)|].
  skip. { destruct (codewscope_handed E Hsp Hb) as (c & len & d & l & Ec & Ht & H1 & H2 & H3); [done|]. rewrite Ec.
          cbn [mbind outcome_bind assert_ptr]. apply checked_step; [done|]. apply (static_returns _ _ n); [done.. |].
          intros b Hdoc. visit (vt_codewscope _ _ V). }
  skip; [visit_get A32 (vt_int32 _ _ V)|].
  skip. { destruct Ats as [[t i] ->]. cbn [mbind outcome_bind]. apply plain_step. visit (vt_timestamp _ _ V). }
  skip; [visit_get A64 (vt_int64 _ _ V)|].
  skip. { destruct Adec as [x ->]. cbn [mbind outcome_bind]. apply plain_step. visit (vt_decimal128 _ _ V). }
  rewrite Ek. cbn [mbind outcome_bind].
  skip; [apply plain_step; visit (vt_maxkey _ _ V)|]. skip; [apply plain_step; visit (vt_minkey _ _ V)|].
  by eexists false, it, s.
Qed.

Lemma next_key_c_string it data r :
  iter_wf it data -> _bson_iter_next_internal it = Ret r ->
  (forall key, n_key r = Some key -> c_string key) /\ (n_unsupported r = true -> is_Some (n_key r)).
Proof using.
  intros [Wr Wl Wm Wn Wb]. unfold _bson_iter_next_internal. rewrite Wr. cbn zeta. set (off := i_next_off it) in *.
  unfold INT_MAX in *. rewrite (u32_id (off + 1)) by lia.
  destruct (find_nul_from data (off + 1) (i_len it)) as [[-> _]|(p & -> & Hp & H0 & Hno)]; [lia.. | |];
    cbn [mbind outcome_bind]; [intros [= <-]; by split|].
  rewrite (u32_id (p + 1)) by lia. set (it1 := set_d1 _ _).
  assert (Ek : bson_iter_key_unsafe it1 = Ret (drop (Z.to_nat (off + 1)) data)).
  { unfold bson_iter_key_unsafe, raw_of, at_off. cbn. rewrite rdn_ret by lia. f_equal. apply take_ge. zl. }
  assert (Hc : c_string (drop (Z.to_nat (off + 1)) data))
    by (apply (c_string_at data (off + 1) p (i_len it)); unfold INT_MAX; done || lia).
  rewrite Ek. cbn [mbind outcome_bind]. intros H. apply bind_inv in H as (ty & _ & H).
  apply bind_inv in H as ([[[ok it2] u] o2] & _ & H).
  destruct (negb ok); [injection H as <- | destruct (_ >=? _); injection H as <-]; (split; [by intros ? [= <-] | by eexists]).
Qed.

Lemma visit_end_returns it key ty u s :
  (forall k, key = Some k -> c_string k) -> (u = true -> is_Some key) -> returns (visit_end v it key ty u s).
Proof using V.
  intros Hk Hu. unfold visit_end.
  assert (Hc : returns (match visit_corrupt v with Some f => s ← f it s; Ret (false, it, s) | None => Ret (false, it, s) end)).
  { destruct (visit_corrupt v) as [f|] eqn:E; [|by eexists]. destruct (vt_corrupt _ _ V f E it s) as [s' ->]. by eexists. }
  destruct (i_err_off it =? 0); [by eexists|]. destruct u; [|done].
  destruct (visit_unsupported_type v) as [f|] eqn:E; [|done].
  destruct (Hu eq_refl) as [k ->]. pose proof (Hk k eq_refl) as Ck. cbn [assert_ptr mbind outcome_bind].
  destruct (c_string_text k Ck) as (len & -> & Ht). cbn [mbind outcome_bind].
  destruct (text_validate k len false Ht) as [b ->]. cbn [mbind outcome_bind]. destruct b; [|done].
  destruct (vt_unsupported _ _ V f E it k ty s Ck) as [s' ->]. by eexists.
Qed.

Lemma key_valid_returns key : c_string key -> returns (key_valid key).
Proof using.
  intros Hk. unfold key_valid. pose proof Hk as (k & r & -> & _).
  destruct (rd_ret (k ++ 0 :: r) 0) as [c ->];
    [rewrite zlen_app, zlen_cons; pose proof (zlen_nonneg k); pose proof (zlen_nonneg r); lia|]. cbn [mbind outcome_bind].
  destruct (c =? 0); [by eexists|]. destruct (c_string_text _ Hk) as (len & -> & Ht). cbn [mbind outcome_bind]. by apply text_validate.
Qed.

Lemma visit_loop_returns data fuel : forall it s,
  iter_wf it data -> i_len it = n -> n + 4 <= zlen data -> measure it < Z.of_nat fuel -> 0 < Z.of_nat fuel ->
  returns (visit_loop v fuel it s).
Proof using V.
  induction fuel as [|fuel IH]; intros it s W Hn Hsp Hm H0; [lia|]. cbn [visit_loop].
  destruct (next_wf it data W) as [(r & E & Hs & Hf)|[_ Hov]]; [|by apply no_overread in Hov; [|lia]].
  destruct (next_key_c_string it data r W E) as [Hk Hu]. rewrite E. cbn [mbind outcome_bind].
  destruct (n_ok r) eqn:Hok; cbn [negb]; [|by apply visit_end_returns].
  destruct (Hs eq_refl) as [o St]. pose proof (stepped_on_elem it data o r W St) as On.
  pose proof (st_n_key _ _ _ _ St) as Ek. pose proof (Hk _ Ek) as Ck. pose proof (st_wf _ _ _ _ St) as W'.
  rewrite Ek. cbn [assert_ptr mbind outcome_bind]. set (key := drop _ data) in *.
  destruct (key_valid_returns key Ck) as [b ->]. cbn [mbind outcome_bind].
  destruct b; cbn [negb]; [|by apply visit_end_returns; [intros ? [= <-]|]].
  assert (Eku : bson_iter_key_unsafe (n_iter r) = Ret key).
  { unfold bson_iter_key_unsafe, raw_of, at_off. rewrite (wf_raw _ _ W'). cbn [mbind outcome_bind].
    rewrite (st_key _ _ _ _ St). pose proof (wf_next _ _ W). pose proof (wf_len _ _ W). pose proof (st_o _ _ _ _ St).
    pose proof (st_next _ _ _ _ St). rewrite rdn_ret by lia. f_equal. unfold key.
    apply take_ge. rewrite length_drop. unfold zlen. lia. }
  destruct (field_returns (visit_before v) (fun f => f (n_iter r) key s) s) as [[stop s1] ->];
    [intros g Eg; by apply (vt_before _ _ V)|]. cbn [mbind outcome_bind].
  destruct stop; [by eexists|]. rewrite Hn in On.
  destruct (visit_value_returns (n_iter r) data o (n_type r) key s1 On) as (stop & it' & s2 & -> & Hit);
    [lia | rewrite <- Hn; apply (wf_bytes _ _ W) | done | done |]. cbn [mbind outcome_bind].
  destruct stop; [by eexists|]. rewrite (Hit eq_refl), Eku. cbn [mbind outcome_bind].
  destruct (field_returns (visit_after v) (fun f => f (n_iter r) key s2) s2) as [[stop s3] ->];
    [intros g Eg; by apply (vt_after _ _ V)|]. cbn [mbind outcome_bind].
  destruct stop; [by eexists|]. destruct (next_measure it data r W E Hok) as [_ Hm'].
  apply IH; [done | by rewrite (st_len _ _ _ _ St) | done | lia | lia].
Qed.

Lemma visit_all_returns it data s :
  iter_wf it data -> i_len it = n -> n + 4 <= zlen data -> returns (bson_iter_visit_all v it s).
Proof using V.
  intros W Hn Hsp. unfold bson_iter_visit_all. eapply visit_loop_returns; try done; unfold iter_fuel, measure;
    pose proof (wf_next _ _ W); pose proof (wf_len _ _ W); lia.
Qed.
End Loop.

(** * Properties *)

(** C36: Visiting arbitrary bytes is safe.  For any buffer, well-formed or
    hostile, with four readable bytes behind the declared length, and any
    visitor whose functions return on the arguments the library promises them
    (terminated keys, text inside the buffer, nested documents that are shorter
    and readable), [bson_iter_visit_all] terminates and returns: no access
    outside the buffer, no failed assertion. *)
Theorem visit_all_safe {S} (v : bson_visitor_t S) it data s :
  iter_wf it data -> i_len it + 4 <= zlen data -> visitor_total (i_len it) v ->
  exists r, bson_iter_visit_all v it s = Ret r.
Proof. intros W Hsp V. exact (visit_all_returns v (i_len it) V it data s W eq_refl Hsp). Qed.

(** A visitor that counts the elements. *)
Definition count_visitor : bson_visitor_t Z :=
  mk_visitor (Some (fun _ _ n => Ret (false, n + 1))) None None None None None None None None None None None None
    None None None None None None None None None None None None.

Lemma count_visitor_total n : visitor_total n count_visitor.
Proof. constructor; intros g Eg; try discriminate Eg. injection Eg as <-. intros. by eexists. Qed.

Lemma visit_all_safe_witness :
  exists r, bson_iter_visit_all count_visitor (iter_start (small_doc ++ [1; 2; 3; 4]) 12) 0 = Ret r.
Proof.
  apply (visit_all_safe count_visitor (iter_start (small_doc ++ [1; 2; 3; 4]) 12) (small_doc ++ [1; 2; 3; 4])).
  - constructor; cbn; try done; try (unfold INT_MAX; lia).
    repeat first [apply Forall_nil_2 | apply Forall_cons_2; [unfold is_byte; lia|]].
  - vm_compute. discriminate.
  - apply count_visitor_total.
Defined.
