(* ===== verification/Validate.v ===== *)
(** * Validation (bson.c, bson-error.c)

    [bson_validate] visits a document with checks on keys and strings.  The
    nesting of documents is bounded by their lengths, which gives the fuel. *)
From stdpp Require Import strings.
From S2P Require Import Prelude Memory Strings Utf8 Format Document Append Lifecycle Build Iter IterSafe RoundTrip Find Values Numbers Visit.

(** ** Data *)

Inductive bson_validate_phase_t :=
| PHASE_START | PHASE_TOP | PHASE_LF_REF_KEY | PHASE_LF_REF_UTF8
| PHASE_LF_ID_KEY | PHASE_LF_DB_KEY | PHASE_LF_DB_UTF8 | PHASE_NOT_DBREF.

#[export] Instance phase_eq_dec : EqDecision bson_validate_phase_t.
Proof. solve_decision. Defined.
Definition is_phase (p q : bson_validate_phase_t) : bool := bool_decide (p = q).

Definition BSON_VALIDATE_NONE : Z := 0.
Definition BSON_VALIDATE_UTF8 : Z := 1.
Definition BSON_VALIDATE_DOLLAR_KEYS : Z := 2.
Definition BSON_VALIDATE_DOT_KEYS : Z := 4.
Definition BSON_VALIDATE_UTF8_ALLOW_NULL : Z := 8.
Definition BSON_VALIDATE_EMPTY_KEYS : Z := 16.
Definition BSON_ERROR_INVALID : Z := 3.
Definition BSON_ERROR_BUFFER_SIZE : Z := 504.

(** [message] holds the terminated text. *)
Record bson_error_t := mk_error { domain : Z; code : Z; message : bytes }.
Definition no_error : bson_error_t := mk_error 0 0 (replicate 504 0).

Record bson_validate_state_t := mk_vstate {
  v_flags : Z;
  v_err_offset : Z;
  v_phase : bson_validate_phase_t;
  v_error : bson_error_t;
}.

Definition set_err_offset (s : bson_validate_state_t) (n : Z) : bson_validate_state_t :=
  mk_vstate (v_flags s) n (v_phase s) (v_error s).
Definition set_phase (s : bson_validate_state_t) (p : bson_validate_phase_t) : bson_validate_state_t :=
  mk_vstate (v_flags s) (v_err_offset s) p (v_error s).

(** [text] is the formatted message. *)
Definition bson_set_error (dom cod : Z) (text : bytes) : outcome bson_error_t :=
  '(msg, _) ← bson_snprintf BSON_ERROR_BUFFER_SIZE text; Ret (mk_error dom cod msg).

Definition VALIDATION_ERR (s : bson_validate_state_t) (flag : Z) (text : bytes) : outcome bson_validate_state_t :=
  e ← bson_set_error BSON_ERROR_INVALID flag text;
  Ret (mk_vstate (v_flags s) (v_err_offset s) (v_phase s) e).

Definition dquote : bytes := [34].

(** ** Visitors *)

Definition _bson_iter_validate_utf8 (it : bson_iter_t) (key : bytes) (v_utf8_len : Z) (v_utf8 : bytes)
    (state : bson_validate_state_t) : outcome (bool * bson_validate_state_t) :=
  bad ← (if has_flag (v_flags state) BSON_VALIDATE_UTF8
         then ok ← bson_utf8_validate v_utf8 v_utf8_len (has_flag (v_flags state) BSON_VALIDATE_UTF8_ALLOW_NULL); Ret (negb ok)
         else Ret false);
  if (bad : bool) then
    s ← VALIDATION_ERR (set_err_offset state (i_off it)) BSON_VALIDATE_UTF8
          (chars "invalid utf8 string for key " ++ dquote ++ cstr key ++ dquote);
    Ret (true, s)
  else if has_flag (v_flags state) BSON_VALIDATE_DOLLAR_KEYS then
    if is_phase (v_phase state) PHASE_LF_REF_UTF8 then Ret (false, set_phase state PHASE_LF_ID_KEY)
    else if is_phase (v_phase state) PHASE_LF_DB_UTF8 then Ret (false, set_phase state PHASE_NOT_DBREF)
    else Ret (false, state)
  else Ret (false, state).

Definition _bson_iter_validate_corrupt (it : bson_iter_t) (state : bson_validate_state_t) : outcome bson_validate_state_t :=
  VALIDATION_ERR (set_err_offset state (i_err_off it)) BSON_VALIDATE_NONE (chars "corrupt BSON").

(** The check of '$' keys: [inr] goes on with the new state. *)
Definition validate_dollar (it : bson_iter_t) (key : bytes) (state : bson_validate_state_t) :
    outcome (bson_validate_state_t + bson_validate_state_t) :=
  c ← rd key 0;
  if c =? 36 then
    is_ref ← (if is_phase (v_phase state) PHASE_LF_REF_KEY then strcmp_eq key (chars "$ref" ++ [0]) else Ret false);
    if (is_ref : bool) then Ret (inr (set_phase state PHASE_LF_REF_UTF8))
    else
      is_id ← (if is_phase (v_phase state) PHASE_LF_ID_KEY then strcmp_eq key (chars "$id" ++ [0]) else Ret false);
      if (is_id : bool) then Ret (inr (set_phase state PHASE_LF_DB_KEY))
      else
        is_db ← (if is_phase (v_phase state) PHASE_LF_DB_KEY then strcmp_eq key (chars "$db" ++ [0]) else Ret false);
        if (is_db : bool) then Ret (inr (set_phase state PHASE_LF_DB_UTF8))
        else
          s ← VALIDATION_ERR (set_err_offset state (i_off it)) BSON_VALIDATE_DOLLAR_KEYS
                (chars "keys cannot begin with " ++ dquote ++ [36] ++ dquote ++ chars ": " ++ dquote ++ cstr key ++ dquote);
          Ret (inl s)
  else if is_phase (v_phase state) PHASE_LF_ID_KEY || is_phase (v_phase state) PHASE_LF_REF_UTF8
          || is_phase (v_phase state) PHASE_LF_DB_UTF8 then
    s ← VALIDATION_ERR (set_err_offset state (i_off it)) BSON_VALIDATE_DOLLAR_KEYS
          (chars "invalid key within DBRef subdocument: " ++ dquote ++ cstr key ++ dquote);
    Ret (inl s)
  else Ret (inr (set_phase state PHASE_NOT_DBREF)).

(** [strstr (key, ".")] *)
Fixpoint has_dot (key : bytes) : outcome bool :=
  match key with
  | [] => Oob
  | c :: key => if c =? 0 then Ret false else if c =? 46 then Ret true else has_dot key
  end.

Definition _bson_iter_validate_before (it : bson_iter_t) (key : bytes) (state : bson_validate_state_t) :
    outcome (bool * bson_validate_state_t) :=
  empty ← (if has_flag (v_flags state) BSON_VALIDATE_EMPTY_KEYS then c ← rd key 0; Ret (c =? 0) else Ret false);
  if (empty : bool) then
    s ← VALIDATION_ERR (set_err_offset state (i_off it)) BSON_VALIDATE_EMPTY_KEYS (chars "empty key"); Ret (true, s)
  else
    r ← (if has_flag (v_flags state) BSON_VALIDATE_DOLLAR_KEYS then validate_dollar it key state else Ret (inr state));
    match r with
    | inl s => Ret (true, s)
    | inr state =>
      dot ← (if has_flag (v_flags state) BSON_VALIDATE_DOT_KEYS then has_dot key else Ret false);
      if (dot : bool) then
        s ← VALIDATION_ERR (set_err_offset state (i_off it)) BSON_VALIDATE_DOT_KEYS
              (chars "keys cannot contain " ++ dquote ++ chars "." ++ dquote ++ chars ": " ++ dquote ++ cstr key ++ dquote);
        Ret (true, s)
      else Ret (false, state)
    end.

(** [bson_validate] on the scope, given the validator of documents. *)
Definition validate_with (validate_document : Z -> static_doc -> bson_validate_state_t -> outcome (bool * bson_validate_state_t))
    (doc : static_doc) (flags : Z) : outcome bson_validate_state_t :=
  let state := mk_vstate flags (-1) PHASE_START no_error in
  if negb (iter_init_static doc).1
  then VALIDATION_ERR (set_err_offset state 0) BSON_VALIDATE_NONE (chars "corrupt BSON")
  else '(_, state) ← validate_document 0 doc state; Ret state.

(** [*offset] is left at [offset] unless there is an error after offset 0. *)
Definition validate_result (state : bson_validate_state_t) (offset : Z) : bool * Z :=
  (v_err_offset state <? 0, if v_err_offset state >? 0 then v_err_offset state else offset).

Definition bson_validate_funcs
    (validate_document : Z -> static_doc -> bson_validate_state_t -> outcome (bool * bson_validate_state_t)) :
    bson_visitor_t bson_validate_state_t :=
  let document (it : bson_iter_t) (key : bytes) := validate_document (i_off it) in
  let codewscope (it : bson_iter_t) (key : bytes) (v_code_len : Z) (v_code : bytes) (v_scope : static_doc)
                 (state : bson_validate_state_t) :=
    st ← validate_with validate_document v_scope (v_flags state);
    let '(ok, offset) := validate_result st 0 in
    if negb ok then
      s ← VALIDATION_ERR (set_err_offset state (i_off it + offset)) BSON_VALIDATE_NONE (chars "corrupt code-with-scope");
      Ret (false, s)
    else Ret (true, state) in
  mk_visitor (Some _bson_iter_validate_before) None (Some _bson_iter_validate_corrupt) None
    (Some _bson_iter_validate_utf8) (Some document) (Some document) None None None None None None None None None None
    (Some codewscope) None None None None None None None.

(** [off] is [iter->off]; the key is not used. *)
Fixpoint _bson_iter_validate_document (fuel : nat) (off : Z) (v_document : static_doc) (state : bson_validate_state_t) :
    outcome (bool * bson_validate_state_t) :=
  match fuel with
  | O => Fuel
  | S fuel =>
    let phase := v_phase state in
    let '(ok, child) := iter_init_static v_document in
    if negb ok then Ret (true, set_err_offset state off)
    else
      let state := set_phase state (if is_phase phase PHASE_START then PHASE_TOP else PHASE_LF_REF_KEY) in
      '(_, _, state) ← bson_iter_visit_all (bson_validate_funcs (_bson_iter_validate_document fuel)) child state;
      if is_phase (v_phase state) PHASE_LF_ID_KEY || is_phase (v_phase state) PHASE_LF_REF_UTF8
         || is_phase (v_phase state) PHASE_LF_DB_UTF8 then
        Ret (true, if v_err_offset state <=? 0 then set_err_offset state off else state)
      else Ret (false, set_phase state phase)
  end.

(** Nested documents are shorter than the one they are in. *)
Definition _bson_validate_internal (doc : static_doc) (flags : Z) : outcome bson_validate_state_t :=
  validate_with (_bson_iter_validate_document (S (Z.to_nat (sd_len doc)))) doc flags.

Definition bson_validate (doc : static_doc) (flags offset : Z) : outcome (bool * Z) :=
  st ← _bson_validate_internal doc flags; Ret (validate_result st offset).

(** The error is copied only when its offset is positive. *)
Definition bson_validate_with_error (doc : static_doc) (flags : Z) (error : bson_error_t) : outcome (bool * bson_error_t) :=
  st ← _bson_validate_internal doc flags;
  Ret (v_err_offset st <? 0, if v_err_offset st >? 0 then v_error st else error).

Definition whole (d : bytes) : static_doc := mk_static d (zlen d).

(** A dotted key is found. *)
Example validate_dot : bson_validate (whole [14; 0; 0; 0; 16; 97; 46; 98; 0; 1; 0; 0; 0; 0]) 4 0 = Ret (false, 4).
Proof. vm_compute. reflexivity. Qed.

(** * Proofs *)

(** ** Validation returns on arbitrary bytes *)

Lemma validation_err s flag text :
  exists e, VALIDATION_ERR s flag text = Ret (mk_vstate (v_flags s) (v_err_offset s) (v_phase s) e).
Proof. by eexists. Qed.

Lemma utf8_returns it key n str s : text_ok str n -> returns (_bson_iter_validate_utf8 it key n str s).
Proof.
  intros Ht. unfold _bson_iter_validate_utf8. destruct (has_flag (v_flags s) BSON_VALIDATE_UTF8).
  - destruct (text_validate str n (has_flag (v_flags s) BSON_VALIDATE_UTF8_ALLOW_NULL) Ht) as [ok ->].
    cbn [mbind outcome_bind]. destruct ok; cbn [negb]; [|by eexists].
    repeat case_match; by eexists.
  - cbn [mbind outcome_bind]. repeat case_match; by eexists.
Qed.

Lemma strcmp_returns k r lit : no_nul k -> no_nul lit -> returns (strcmp_eq (k ++ 0 :: r) (lit ++ [0])).
Proof. intros. rewrite strcmp_eq_spec by done. by eexists. Qed.

Lemma has_dot_spec k r : no_nul k -> has_dot (k ++ 0 :: r) = Ret (bool_decide (46 ∈ k)).
Proof.
  induction 1 as [|c k Hc _ IH]; cbn [app has_dot]; [done|]. replace (c =? 0) with false by lia.
  destruct (c =? 46) eqn:E; bool_hyps; [by rewrite bool_decide_true by (subst; left)|].
  rewrite IH. f_equal. apply bool_decide_ext. rewrite elem_of_cons. split; [by right | intros [?|?]; [congruence | done]].
Qed.

(** ** The rules

    [key_step] is the automaton of the '$' rules, [pending] its states in the
    middle of a DBRef. *)
Definition is_dollar (k : bytes) : bool := match k with c :: _ => c =? 36 | [] => false end.

Definition pending (p : bson_validate_phase_t) : bool :=
  is_phase p PHASE_LF_ID_KEY || is_phase p PHASE_LF_REF_UTF8 || is_phase p PHASE_LF_DB_UTF8.

Definition key_step (flags : Z) (p : bson_validate_phase_t) (k : bytes) : option bson_validate_phase_t :=
  if has_flag flags BSON_VALIDATE_DOLLAR_KEYS then
    if is_dollar k then
      if is_phase p PHASE_LF_REF_KEY && bool_decide (k = chars "$ref") then Some PHASE_LF_REF_UTF8
      else if is_phase p PHASE_LF_ID_KEY && bool_decide (k = chars "$id") then Some PHASE_LF_DB_KEY
      else if is_phase p PHASE_LF_DB_KEY && bool_decide (k = chars "$db") then Some PHASE_LF_DB_UTF8
      else None
    else if pending p then None else Some PHASE_NOT_DBREF
  else Some p.

Definition utf8_step (flags : Z) (p : bson_validate_phase_t) : bson_validate_phase_t :=
  if has_flag flags BSON_VALIDATE_DOLLAR_KEYS then
    if is_phase p PHASE_LF_REF_UTF8 then PHASE_LF_ID_KEY
    else if is_phase p PHASE_LF_DB_UTF8 then PHASE_NOT_DBREF else p
  else p.

Definition key_plain (flags : Z) (k : bytes) : Prop :=
  (has_flag flags BSON_VALIDATE_EMPTY_KEYS = true -> k <> []) /\
  (has_flag flags BSON_VALIDATE_DOT_KEYS = true -> 46 ∉ k).

Definition bad (s : bson_validate_state_t) : Prop := 0 < v_err_offset s.

Lemma rd_first k r : rd (k ++ 0 :: r) 0 = Ret (match k with c :: _ => c | [] => 0 end).
Proof. by destruct k. Qed.

Lemma first_dollar k : ((match k with c :: _ => c | [] => 0 end) =? 36) = is_dollar k.
Proof. by destruct k. Qed.

Lemma lits_no_nul : no_nul (chars "$ref") /\ no_nul (chars "$id") /\ no_nul (chars "$db").
Proof. by repeat split; repeat constructor. Qed.

Lemma phase_strcmp (b : bool) k r lit :
  no_nul k -> no_nul lit ->
  (if b then strcmp_eq (k ++ 0 :: r) (lit ++ [0]) else Ret false) = Ret (b && bool_decide (k = lit)).
Proof. intros. destruct b; [by rewrite strcmp_eq_spec | done]. Qed.

Lemma dollar_spec it k r s :
  no_nul k -> has_flag (v_flags s) BSON_VALIDATE_DOLLAR_KEYS = true ->
  match key_step (v_flags s) (v_phase s) k with
  | Some q => validate_dollar it (k ++ 0 :: r) s = Ret (inr (set_phase s q))
  | None => exists e, validate_dollar it (k ++ 0 :: r) s = Ret (inl (mk_vstate (v_flags s) (i_off it) (v_phase s) e))
  end.
Proof.
  intros Hk Hf. destruct lits_no_nul as (N1 & N2 & N3). unfold key_step, validate_dollar, pending. rewrite Hf, rd_first.
  cbn [mbind outcome_bind]. rewrite first_dollar. destruct (is_dollar k).
  - rewrite !phase_strcmp by done. cbn [mbind outcome_bind].
    destruct (is_phase _ _ && _); [done|]. destruct (is_phase _ _ && _); [done|]. destruct (is_phase _ _ && _); [done|]. by eexists.
  - destruct (_ || _ || _); [by eexists | done].
Qed.

(** A key passes when it is plain and the automaton moves. *)
Definition key_passes (flags : Z) (p : bson_validate_phase_t) (k : bytes) (q : bson_validate_phase_t) : Prop :=
  key_plain flags k /\ key_step flags p k = Some q.

Lemma before_spec it k r s :
  no_nul k ->
  (exists q, key_passes (v_flags s) (v_phase s) k q /\
     _bson_iter_validate_before it (k ++ 0 :: r) s = Ret (false, set_phase s q)) \/
  (exists s', (forall q, ~ key_passes (v_flags s) (v_phase s) k q) /\ v_err_offset s' = i_off it /\ v_flags s' = v_flags s /\
     _bson_iter_validate_before it (k ++ 0 :: r) s = Ret (true, s')).
Proof.
  intros Hk. unfold _bson_iter_validate_before, key_passes, key_plain.
  assert (He : (if has_flag (v_flags s) BSON_VALIDATE_EMPTY_KEYS then c ← rd (k ++ 0 :: r) 0; Ret (c =? 0) else Ret false)
    = Ret (has_flag (v_flags s) BSON_VALIDATE_EMPTY_KEYS && bool_decide (k = []))).
  { destruct (has_flag _ _); [|done]. rewrite rd_first. cbn [mbind outcome_bind]. f_equal.
    destruct k as [|c k]; [done|]. inversion_clear Hk. rewrite bool_decide_false by done. apply Z.eqb_neq. done. }
  rewrite He. cbn [mbind outcome_bind]. destruct (has_flag (v_flags s) BSON_VALIDATE_EMPTY_KEYS && _) eqn:Ee.
  { apply andb_true_iff in Ee as [E1 E2]. apply bool_decide_eq_true in E2. right.
    destruct (validation_err (set_err_offset s (i_off it)) BSON_VALIDATE_EMPTY_KEYS (chars "empty key")) as [e ->].
    eexists. split; [|split; [|split; [|done]]]; [|done|done]. intros q [[H _] _]. by apply H. }
  assert (Hempty : has_flag (v_flags s) BSON_VALIDATE_EMPTY_KEYS = true -> k <> []).
  { intros E1 E2. rewrite E1, bool_decide_true in Ee by done. done. }
  clear He Ee. set (dot := (r0 ← _; _)).
  assert (Hdot : forall q, key_step (v_flags s) (v_phase s) k = Some q ->
    (if has_flag (v_flags s) BSON_VALIDATE_DOLLAR_KEYS then validate_dollar it (k ++ 0 :: r) s else Ret (inr s)) = Ret (inr (set_phase s q))).
  { intros q Hq. destruct (has_flag (v_flags s) BSON_VALIDATE_DOLLAR_KEYS) eqn:Ed.
    - pose proof (dollar_spec it k r s Hk Ed) as H. by rewrite Hq in H.
    - unfold key_step in Hq. rewrite Ed in Hq. injection Hq as <-. by destruct s. }
  subst dot. destruct (key_step (v_flags s) (v_phase s) k) as [q|] eqn:Eq.
  - rewrite (Hdot q eq_refl). cbn [mbind outcome_bind]. cbn [set_phase v_flags].
    assert (Hd : (if has_flag (v_flags s) BSON_VALIDATE_DOT_KEYS then has_dot (k ++ 0 :: r) else Ret false)
      = Ret (has_flag (v_flags s) BSON_VALIDATE_DOT_KEYS && bool_decide (46 ∈ k)))
      by (destruct (has_flag (v_flags s) BSON_VALIDATE_DOT_KEYS); [by apply has_dot_spec | done]).
    rewrite Hd. cbn [mbind outcome_bind]. destruct (has_flag (v_flags s) BSON_VALIDATE_DOT_KEYS && _) eqn:Edot.
    + apply andb_true_iff in Edot as [E1 E2]. apply bool_decide_eq_true in E2. right. eexists.
      split; [|split; [|split; [|reflexivity]]]; [|done|done]. intros q' [[_ H] _]. by apply H.
    + left. exists q. split; [|done]. split; [|done]. split; [done|]. intros E1 E2. by rewrite E1, bool_decide_true in Edot.
  - right. destruct (has_flag (v_flags s) BSON_VALIDATE_DOLLAR_KEYS) eqn:Ed.
    + pose proof (dollar_spec it k r s Hk Ed) as H. rewrite Eq in H. destruct H as [e ->]. cbn [mbind outcome_bind].
      eexists. split; [|split; [|split; [|reflexivity]]]; [|done|done]. by intros q [_ ?].
    + unfold key_step in Eq. rewrite Ed in Eq. done.
Qed.

Lemma before_returns it k s : c_string k -> returns (_bson_iter_validate_before it k s).
Proof.
  intros (k0 & r & -> & Hk & _). destruct (before_spec it k0 r s Hk) as [(q & _ & ->)|(s' & _ & _ & _ & ->)]; by eexists.
Qed.

Lemma corrupt_returns it s : returns (_bson_iter_validate_corrupt it s).
Proof. by eexists. Qed.

Lemma funcs_total n vd :
  (forall off d s, doc_ok n d -> returns (vd off d s)) -> visitor_total n (bson_validate_funcs vd).
Proof.
  intros Hvd. constructor; cbn [bson_validate_funcs visit_before visit_after visit_corrupt visit_double visit_utf8
    visit_document visit_array visit_binary visit_undefined visit_oid visit_bool visit_date_time visit_null visit_regex
    visit_dbpointer visit_code visit_symbol visit_codewscope visit_int32 visit_timestamp visit_int64 visit_maxkey
    visit_minkey visit_unsupported_type visit_decimal128]; intros g Eg; try discriminate Eg; injection Eg as <-; intros.
  - by apply before_returns.
  - apply corrupt_returns.
  - by apply utf8_returns.
  - by apply Hvd.
  - by apply Hvd.
  - destruct H0 as [_ Hd]. unfold validate_with. destruct (iter_init_static c) as [[] ?]; cbn [fst negb].
    + destruct (Hvd 0 c (mk_vstate (v_flags s) (-1) PHASE_START no_error) Hd) as [[x st] ->]. cbn [mbind outcome_bind].
      destruct (v_err_offset st <? 0); by eexists.
    + by eexists.
Qed.

(** The document is readable with four more bytes. *)
Definition spare (d : static_doc) : Prop :=
  sd_len d <= INT_MAX /\ sd_len d + 4 <= zlen (sd_data d) /\ Forall is_byte (take (Z.to_nat (sd_len d)) (sd_data d)).

Lemma validate_document_returns fuel : forall off d s,
  spare d -> sd_len d < Z.of_nat fuel -> 0 < Z.of_nat fuel -> returns (_bson_iter_validate_document fuel off d s).
Proof.
  induction fuel as [|fuel IH]; intros off d s (H1 & H2 & H3) Hf H0; [lia|]. cbn [_bson_iter_validate_document].
  unfold iter_init_static. destruct (sd_len d <? 5) eqn:E5; cbn [negb]; [by eexists|]. bool_hyps.
  edestruct (visit_all_returns (bson_validate_funcs (_bson_iter_validate_document fuel)) (sd_len d)) as [[[x y] z] ->];
    [| | done | done |].
  - apply funcs_total. intros off' d' s' (D1 & D2 & D3 & D4). apply IH; [done | lia | lia].
  - constructor; cbn [iter_start i_raw i_len i_next_off]; done || lia.
  - cbn [mbind outcome_bind]. repeat case_match; by eexists.
Qed.

Lemma validate_internal_returns d flags : spare d -> returns (_bson_validate_internal d flags).
Proof.
  intros Hd. unfold _bson_validate_internal, validate_with. unfold iter_init_static at 1.
  destruct (sd_len d <? 5) eqn:E; cbn [fst negb]; [by eexists|]. bool_hyps.
  edestruct (validate_document_returns (S (Z.to_nat (sd_len d))) 0 d) as [[x st] ->]; [done | lia | lia |]. by eexists.
Qed.

(** ** Validation of an encoded tree *)

Definition not_dollar (kv : bytes * value) : Prop := is_dollar kv.1 = false.

(** A nested document may start with $ref (a string), $id and $db (a string). *)
Definition is_utf8_value (v : value) : bool := match v with VUtf8 _ => true | _ => false end.
Inductive dbref_shape : list (bytes * value) -> Prop :=
| dbref_id s v els : Forall not_dollar els -> dbref_shape ((chars "$ref", VUtf8 s) :: (chars "$id", v) :: els)
| dbref_db s v t els :
    Forall not_dollar els -> dbref_shape ((chars "$ref", VUtf8 s) :: (chars "$id", v) :: (chars "$db", VUtf8 t) :: els).

Definition dollar_shape (nested : bool) (els : list (bytes * value)) : Prop :=
  Forall not_dollar els \/ (nested = true /\ dbref_shape els).

(** What validation promises about the elements of a document. *)
Definition key_acceptable (flags : Z) (k : bytes) : Prop := utf8_string false k /\ key_plain flags k.

Inductive value_acceptable (flags : Z) : value -> Prop :=
| acc_utf8 s :
    (has_flag flags BSON_VALIDATE_UTF8 = true -> utf8_string (has_flag flags BSON_VALIDATE_UTF8_ALLOW_NULL) s) ->
    value_acceptable flags (VUtf8 s)
| acc_document els : elems_acceptable flags true els -> value_acceptable flags (VDocument els)
| acc_array els : elems_acceptable flags true els -> value_acceptable flags (VArray els)
| acc_other v :
    match v with VUtf8 _ | VDocument _ | VArray _ => False | _ => True end -> value_acceptable flags v
with elems_acceptable (flags : Z) : bool -> list (bytes * value) -> Prop :=
| acc_elems nested els :
    (has_flag flags BSON_VALIDATE_DOLLAR_KEYS = true -> dollar_shape nested els) ->
    Forall (fun kv => key_acceptable flags kv.1 /\ value_acceptable flags kv.2) els ->
    elems_acceptable flags nested els.

(** The trees on which validation keeps the promise: text is UTF-8 (with NUL
    allowed) and there is no code with scope. *)
Inductive vetted : value -> Prop :=
| vetted_document els : Forall (fun kv => vetted kv.2) els -> vetted (VDocument els)
| vetted_array els : Forall (fun kv => vetted kv.2) els -> vetted (VArray els)
| vetted_leaf v :
    match v with
    | VUtf8 s | VCode s | VSymbol s | VRegex s _ | VDbPointer s _ => utf8_string true s
    | VDocument _ | VArray _ | VCodeWScope _ _ => False
    | _ => True
    end -> vetted v.

(** The run of the automaton over the elements. *)
Definition value_step (flags : Z) (p : bson_validate_phase_t) (v : value) : bson_validate_phase_t :=
  if is_utf8_value v then utf8_step flags p else p.

Inductive runs (flags : Z) : bson_validate_phase_t -> list (bytes * value) -> bson_validate_phase_t -> Prop :=
| runs_nil p : runs flags p [] p
| runs_cons p q p' k v els :
    utf8_string false k -> key_passes flags p k q -> value_acceptable flags v ->
    runs flags (value_step flags q v) els p' -> runs flags p ((k, v) :: els) p'.

Definition start_phase (nested : bool) : bson_validate_phase_t := if nested then PHASE_LF_REF_KEY else PHASE_TOP.
Definition doc_runs (flags : Z) (nested : bool) (els : list (bytes * value)) : Prop :=
  exists p, runs flags (start_phase nested) els p /\ pending p = false.

Lemma value_step_not_dbref flags v : value_step flags PHASE_NOT_DBREF v = PHASE_NOT_DBREF.
Proof. unfold value_step, utf8_step. by destruct (is_utf8_value v), (has_flag flags BSON_VALIDATE_DOLLAR_KEYS). Qed.

(** Without the '$' rules the phase does not move. *)
Lemma runs_plain flags p els :
  has_flag flags BSON_VALIDATE_DOLLAR_KEYS = false ->
  Forall (fun kv => key_acceptable flags kv.1 /\ value_acceptable flags kv.2) els -> runs flags p els p.
Proof.
  intros Hf. induction 1 as [|[k v] els [[H1 H2] H3] _ IH]; [constructor|].
  econstructor; [done | split; [done | unfold key_step; by rewrite Hf] | done|].
  unfold value_step, utf8_step. rewrite Hf. by destruct (is_utf8_value v).
Qed.

Lemma runs_elems flags p els p' :
  runs flags p els p' -> Forall (fun kv => key_acceptable flags kv.1 /\ value_acceptable flags kv.2) els.
Proof. induction 1 as [|? ? ? ? ? ? H1 [H2 _] H3]; constructor; [|done]. done. Qed.

Lemma runs_phase_fixed flags p els p' :
  has_flag flags BSON_VALIDATE_DOLLAR_KEYS = false -> runs flags p els p' -> p' = p.
Proof.
  intros Hf. induction 1 as [|p q p' k v els H1 [H2 Hs] H3 _ IH]; [done|]. unfold key_step in Hs. rewrite Hf in Hs.
  injection Hs as <-. rewrite IH. unfold value_step, utf8_step. rewrite Hf. by destruct (is_utf8_value v).
Qed.

(** Evaluate the tests of known phases. *)
Ltac phases H :=
  cbn [start_phase] in H;
  repeat match type of H with context [is_phase ?a ?b] =>
    let r := eval vm_compute in (is_phase a b) in change (is_phase a b) with r in H end;
  cbn [andb orb] in H.

Section Dollar.
Context (flags : Z) (Hf : has_flag flags BSON_VALIDATE_DOLLAR_KEYS = true).

(** The states in which a '$' key is an error and others are fine. *)
Lemma step_not_dollar p k q :
  is_dollar k = false -> key_step flags p k = Some q -> pending p = false /\ q = PHASE_NOT_DBREF.
Proof using Hf. intros Hk. unfold key_step. rewrite Hf, Hk. destruct (pending p); [done|]. by intros [= <-]. Qed.

Lemma run_not_dbref els p' : runs flags PHASE_NOT_DBREF els p' -> Forall not_dollar els /\ p' = PHASE_NOT_DBREF.
Proof using Hf.
  intros H. remember PHASE_NOT_DBREF as p eqn:E. revert E.
  induction H as [|p q p' k v els H1 [H2 Hs] H3 _ IH]; intros ->; [done|].
  destruct (is_dollar k) eqn:Ek; [unfold key_step in Hs; by rewrite Hf, Ek in Hs|].
  apply step_not_dollar in Hs as [_ ->]; [|done].
  pose proof (value_step_not_dbref flags v) as Ev. destruct (IH Ev) as [? ?]. split; [|congruence]. by constructor.
Qed.

Lemma not_dollar_run p els :
  pending p = false -> Forall not_dollar els ->
  Forall (fun kv => key_acceptable flags kv.1 /\ value_acceptable flags kv.2) els ->
  exists p', runs flags p els p' /\ pending p' = false.
Proof using Hf.
  intros Hp Hd Ha. revert p Hp. induction els as [|[k v] els IH]; intros p Hp; [exists p; by split; [constructor|]|].
  inversion_clear Hd as [|? ? Hk Hels]. inversion_clear Ha as [|? ? [[A1 A2] A3] Aels].
  destruct (IH Hels Aels PHASE_NOT_DBREF eq_refl) as (p' & Hr & Hp'). exists p'. split; [|done].
  apply (runs_cons _ p PHASE_NOT_DBREF); [done | | done|].
  - split; [done|]. unfold key_step. unfold not_dollar in Hk. cbn [fst] in Hk. by rewrite Hf, Hk, Hp.
  - unfold value_step, utf8_step. rewrite Hf. by destruct (is_utf8_value v).
Qed.

(** A DBRef whose string is missing goes nowhere. *)
Lemma run_stuck p els p' :
  p = PHASE_LF_REF_UTF8 \/ p = PHASE_LF_DB_UTF8 -> runs flags p els p' -> pending p' = true.
Proof using Hf.
  intros Hp H. destruct H as [|p q p' k v els _ [_ Hs] _ _]; [by destruct Hp; subst|]. exfalso. revert Hs.
  unfold key_step. rewrite Hf. by destruct Hp; subst; destruct (is_dollar k).
Qed.

(** The phase after $db and its value, after $id, and after $ref. *)
Lemma run_after_id els p' :
  runs flags PHASE_LF_DB_KEY els p' -> pending p' = false ->
  Forall not_dollar els \/ exists t els', els = (chars "$db", VUtf8 t) :: els' /\ Forall not_dollar els'.
Proof using Hf.
  intros H Hp. inversion H as [|? q ? k v els' _ [_ Hs] _ Hr]; subst; [by left|]. unfold key_step in Hs. rewrite Hf in Hs.
  destruct (is_dollar k) eqn:Ek.
  - phases Hs. case_bool_decide as Ed; [|done]. injection Hs as <-. unfold value_step in Hr.
    destruct v; cbn in Hr; try (apply run_stuck in Hr; [congruence | by right]).
    unfold utf8_step in Hr. rewrite Hf in Hr. apply run_not_dbref in Hr as [Hr _]. right. eexists _, _. by subst k.
  - injection Hs as <-. left.
    rewrite value_step_not_dbref in Hr. apply run_not_dbref in Hr as [Hr _]. by constructor.
Qed.

Lemma run_after_ref els p' :
  runs flags PHASE_LF_ID_KEY els p' -> pending p' = false ->
  exists v els', els = (chars "$id", v) :: els' /\ runs flags PHASE_LF_DB_KEY els' p'.
Proof using Hf.
  intros H Hp. inversion H as [|? q ? k v els' _ [_ Hs] _ Hr]; subst; [done|]. unfold key_step in Hs. rewrite Hf in Hs.
  destruct (is_dollar k) eqn:Ek; [|done]. phases Hs. case_bool_decide as Ed; [|done]. injection Hs as <-.
  exists v, els'. split; [by subst k|]. unfold value_step, utf8_step in Hr. rewrite Hf in Hr. by destruct (is_utf8_value v).
Qed.

Lemma doc_runs_shape nested els : doc_runs flags nested els -> dollar_shape nested els.
Proof using Hf.
  intros (p & H & Hp). inversion H as [|? q ? k v els' _ [_ Hs] _ Hr]; subst; [by left|]. unfold key_step in Hs. rewrite Hf in Hs.
  destruct (is_dollar k) eqn:Ek.
  - destruct nested; [|done]. phases Hs. case_bool_decide as Ed; [|done]. injection Hs as <-. unfold value_step in Hr.
    destruct v; cbn in Hr; try (apply run_stuck in Hr; [congruence | by left]).
    unfold utf8_step in Hr. rewrite Hf in Hr. apply run_after_ref in Hr as (v & els2 & -> & Hr); [|done].
    right. split; [done|]. apply run_after_id in Hr; [|done]. subst k.
    destruct Hr as [Hr|(t & els3 & -> & Hr)]; by constructor.
  - assert (Eq : q = PHASE_NOT_DBREF) by (destruct (pending (start_phase nested)); [done | congruence]). subst q.
    rewrite value_step_not_dbref in Hr. apply run_not_dbref in Hr as [Hr _]. left. by constructor.
Qed.

Lemma step_runs p q r k v els p' :
  key_acceptable flags k /\ value_acceptable flags v -> key_step flags p k = Some q -> value_step flags q v = r ->
  runs flags r els p' -> runs flags p ((k, v) :: els) p'.
Proof. intros [[H1 H2] H3] Hs <- Hr. by econstructor. Qed.

Lemma dbref_runs els :
  dbref_shape els -> Forall (fun kv => key_acceptable flags kv.1 /\ value_acceptable flags kv.2) els -> doc_runs flags true els.
Proof using Hf.
  intros [s v els' Hd|s v t els' Hd] Ha; inversion_clear Ha as [|? ? A1 Ha']; inversion_clear Ha' as [|? ? A2 Ha''].
  - destruct (not_dollar_run PHASE_LF_DB_KEY els' eq_refl Hd Ha'') as (p' & Hr & Hp). exists p'. split; [|done].
    eapply step_runs; [done | unfold key_step; rewrite Hf; reflexivity | unfold value_step, utf8_step; rewrite Hf; reflexivity|].
    eapply step_runs; [done | unfold key_step; rewrite Hf; reflexivity | unfold value_step, utf8_step; rewrite Hf; by destruct (is_utf8_value v) | done].
  - inversion_clear Ha'' as [|? ? A3 Ha].
    destruct (not_dollar_run PHASE_NOT_DBREF els' eq_refl Hd Ha) as (p' & Hr & Hp). exists p'. split; [|done].
    eapply step_runs; [done | unfold key_step; rewrite Hf; reflexivity | unfold value_step, utf8_step; rewrite Hf; reflexivity|].
    eapply step_runs; [done | unfold key_step; rewrite Hf; reflexivity | unfold value_step, utf8_step; rewrite Hf; by destruct (is_utf8_value v) |].
    eapply step_runs; [done | unfold key_step; rewrite Hf; reflexivity | unfold value_step, utf8_step; rewrite Hf; reflexivity | done].
Qed.
End Dollar.

(** The automaton decides the rules. *)
Lemma doc_runs_acceptable flags nested els : doc_runs flags nested els <-> elems_acceptable flags nested els.
Proof.
  split.
  - intros H. constructor; [intros Hf; by apply (doc_runs_shape flags Hf)|]. destruct H as (p & Hr & _). by eapply runs_elems.
  - intros H. inversion_clear H as [? ? Hd Ha]. destruct (has_flag flags BSON_VALIDATE_DOLLAR_KEYS) eqn:Hf.
    + destruct (Hd eq_refl) as [Hn|[-> Hs]]; [|by apply dbref_runs].
      destruct (not_dollar_run flags Hf (start_phase nested) els) as (p & Hr & Hp); [by destruct nested | done | done|]. by exists p.
    + exists (start_phase nested). split; [by apply runs_plain | by destruct nested].
Qed.

(** ** The visitor on encoded values *)

Lemma utf8_decides s post allow :
  Forall is_byte s -> zlen s < 2 ^ 32 ->
  exists b, bson_utf8_validate (s ++ post) (zlen s) allow = Ret b /\ (b = true <-> utf8_string allow s).
Proof.
  intros Hs Hl. unfold bson_utf8_validate.
  destruct (validate_loop_spec (S (Z.to_nat (zlen s))) [] s post allow) as (b & Hb & Hiff);
    [done | change (zlen (@nil Z)) with 0; lia | unfold zlen; lia |]. by exists b.
Qed.

Lemma checked_valid {S} it s post (next : outcome (bool * S)) st :
  Forall is_byte s -> zlen s < 2 ^ 32 -> utf8_string true s ->
  checked_utf8 it (s ++ post) (zlen s) next st = ('(stop, st) ← next; Ret (stop, it, st)).
Proof.
  intros Hb Hl Hs. unfold checked_utf8. destruct (utf8_decides s post true Hb Hl) as (b & -> & Hi).
  cbn [mbind outcome_bind]. by rewrite (proj2 Hi Hs).
Qed.

Lemma init_static_enc els R :
  zlen (encode_doc els) <= INT_MAX -> init_static (Some (encode_doc els ++ R)) (zlen (encode_doc els)) = Ret true.
Proof.
  intros H. pose proof (init_from_data_doc (encode_body els) R H) as E. fold (encode_doc els) in E.
  revert E. unfold bson_iter_init_from_data, init_static. destruct (_ || _); [done|].
  destruct (rd_le 4 _ 0) as [l| | |]; cbn [mbind outcome_bind]; try done. destruct (negb _); [done|].
  destruct (rd _ _) as [c| | |]; cbn [mbind outcome_bind]; try done.
  destruct (c =? 0); cbn [negb]; [done | discriminate].
Qed.

Section Elem.
Context (vd : Z -> static_doc -> bson_validate_state_t -> outcome (bool * bson_validate_state_t)).
Context (P Q : bytes) (len off : Z) (k : bytes) (v : value).
Let data := P ++ encode_value v ++ Q.
Let it := at_elem data len off k v.
Context (HP : zlen P = off + 2 + zlen k) (Ht : rd data off = Ret (type_of v)) (Hoff : 0 < off).
Context (Hl : off + 2 + zlen k + zlen (encode_value v) < len) (Hm : len <= INT_MAX).

(** Text is shorter than its encoding. *)
Lemma text_short (s : bytes) : zlen s <= zlen (encode_value v) -> zlen s < 2 ^ 32.
Proof using Hl Hm Hoff. intros. unfold INT_MAX in Hm. pose proof (zlen_nonneg k). lia. Qed.

Lemma visit_leaf w key s :
  v = w -> match w with VUtf8 _ | VDocument _ | VArray _ | VCodeWScope _ _ => False | _ => True end ->
  leaf_ok w -> vetted w ->
  visit_value (bson_validate_funcs vd) it key (type_of w) s = Ret (false, it, s).
Proof using HP Ht Hoff Hl Hm.
  intros Ev Hw Hok Hve. destruct Hve as [els Hx|els Hx|w Hte]; [by destruct Hw.. |]. unfold visit_value. cbn zeta.
  pose proof (zlen_nonneg k) as Hk0. assert (Hoff' : 0 <= off) by lia.
  assert (Hlen : forall s, zlen s <= zlen (encode_value w) -> zlen s < 2 ^ 32) by (rewrite <- Ev; exact text_short).
  destruct w; try done; cbn [type_of leaf_ok] in *; tests; try done.
  - destruct Hok as [Hst _]. destruct (binary_enc P Q len off k v HP Ht Hl Hm _ _ Ev Hst) as [r E]. fold data it in E. by rewrite E.
  - destruct Hok as (Hr & Ho & B1 & B2). destruct (regex_enc P Q len off k v HP Ht _ _ Ev) as [q E]. fold data it in E. rewrite E.
    cbn [mbind outcome_bind assert_ptr]. rewrite strlen_cstr by done. cbn [mbind outcome_bind].
    rewrite checked_valid; [done | done | | done]. apply Hlen. cbn [encode_value]. rewrite !zlen_app. zl.
  - destruct Hok as (Hc & B1 & Ho & _). destruct (dbpointer_enc P Q len off k v HP Ht Hl Hm _ _ Ev Ho) as [q E]. fold data it in E. rewrite E.
    cbn [mbind outcome_bind assert_ptr]. rewrite checked_valid; [done | done | | done]. apply Hlen. cbn [encode_value].
    rewrite zlen_app, zlen_string_bytes. zl.
  - destruct Hok as [_ B]. unfold bson_iter_code. unfold it, data.
    rewrite (string_enc P Q len off k v HP Ht Hl Hm js BSON_TYPE_CODE) by (by rewrite Ev).
    cbn [mbind outcome_bind assert_ptr]. rewrite checked_valid; [done | done | | done]. apply Hlen. cbn [encode_value].
    rewrite zlen_string_bytes. lia.
  - unfold bson_iter_symbol. unfold it, data.
    rewrite (string_enc P Q len off k v HP Ht Hl Hm s0 BSON_TYPE_SYMBOL) by (by rewrite Ev).
    cbn [mbind outcome_bind assert_ptr]. rewrite checked_valid; [done | done | | done]. apply Hlen. cbn [encode_value].
    rewrite zlen_string_bytes. lia.
  - destruct Hok as [H1 H2]. unfold it, data. by rewrite (timestamp_enc P Q len off k v HP Ht _ _ Ev H1 H2).
  - destruct Hok as [H1 H2]. unfold it, data. by rewrite (decimal_enc P Q len off k v HP Ht _ _ Ev H1 H2).
Qed.

Lemma visit_utf8_elem str key s :
  v = VUtf8 str -> Forall is_byte str -> utf8_string true str ->
  (value_acceptable (v_flags s) v /\
     visit_value (bson_validate_funcs vd) it key BSON_TYPE_UTF8 s = Ret (false, it, set_phase s (utf8_step (v_flags s) (v_phase s)))) \/
  (exists s', ~ value_acceptable (v_flags s) v /\ bad s' /\ v_flags s' = v_flags s /\
     visit_value (bson_validate_funcs vd) it key BSON_TYPE_UTF8 s = Ret (true, it, s')).
Proof using HP Ht Hoff Hl Hm.
  intros Ev Hb Hu. assert (Hlen : zlen str < 2 ^ 32) by (apply text_short; rewrite Ev; cbn [encode_value]; rewrite zlen_string_bytes; lia).
  unfold visit_value. cbn zeta. tests. unfold bson_iter_utf8.
  assert (Es : iter_string BSON_TYPE_UTF8 it = Ret (Some (str ++ 0 :: Q), zlen str))
    by (apply (string_enc P Q len off k v HP Ht Hl Hm); by rewrite Ev).
  rewrite Es. cbn [mbind outcome_bind assert_ptr]. rewrite checked_valid by done.
  cbn [VISIT_FIELD bson_validate_funcs visit_utf8]. unfold _bson_iter_validate_utf8, utf8_step.
  destruct (has_flag (v_flags s) BSON_VALIDATE_UTF8) eqn:Ef.
  - destruct (utf8_decides str (0 :: Q) (has_flag (v_flags s) BSON_VALIDATE_UTF8_ALLOW_NULL) Hb Hlen) as (b & Eb & Hi).
    rewrite Eb. cbn [mbind outcome_bind]. destruct b; cbn [negb].
    + left. split; [rewrite Ev; constructor; intros _; by apply Hi|]. repeat case_match; by destruct s.
    + right. eexists. split; [|split; [|split; [|reflexivity]]]; [|unfold bad; cbn; lia | done].
      intros Ha. rewrite Ev in Ha. inversion Ha as [? Hx| | |? Hx]; subst; [|done]. apply Hi in Hx; [done | exact Ef].
  - left. split; [rewrite Ev; constructor; congruence|]. cbn [mbind outcome_bind]. repeat case_match; by destruct s.
Qed.

(** [validate_document] is right about the elements [els]. *)
Definition decides_doc (els : list (bytes * value)) : Prop := forall o R s,
  zlen (encode_doc els) <= INT_MAX -> (0 < o \/ v_phase s = PHASE_START) ->
  let nested := negb (is_phase (v_phase s) PHASE_START) in
  let r := vd o (mk_static (encode_doc els ++ R) (zlen (encode_doc els))) s in
  (elems_acceptable (v_flags s) nested els /\ r = Ret (false, s)) \/
  (exists stop s', ~ elems_acceptable (v_flags s) nested els /\ bad s' /\ v_flags s' = v_flags s /\
     (stop = false -> v_phase s' = v_phase s) /\ r = Ret (stop, s')).

Lemma visit_doc_elem els key s :
  v = VDocument els \/ v = VArray els -> decides_doc els -> v_phase s <> PHASE_START ->
  (value_acceptable (v_flags s) v /\ visit_value (bson_validate_funcs vd) it key (type_of v) s = Ret (false, it, s)) \/
  (exists stop s', ~ value_acceptable (v_flags s) v /\ bad s' /\ v_flags s' = v_flags s /\
     (stop = false -> v_phase s' = v_phase s) /\
     visit_value (bson_validate_funcs vd) it key (type_of v) s = Ret (stop, it, s')).
Proof using HP Ht Hoff Hl Hm.
  intros Ev Hd Hs. pose proof (zlen_nonneg k).
  assert (Ee : encode_value v = encode_doc els) by (destruct Ev as [Ev|Ev]; rewrite Ev; [apply encode_document | apply encode_array]).
  assert (Hz : zlen (encode_doc els) <= INT_MAX) by (rewrite <- Ee; lia).
  assert (Hva : value_acceptable (v_flags s) v <-> elems_acceptable (v_flags s) true els).
  { split; [|by destruct Ev as [Ev|Ev]; rewrite Ev; constructor].
    destruct Ev as [Ev|Ev]; rewrite Ev; intros Ha; inversion Ha; done. }
  assert (E1 : d1_of v (off + 2 + zlen k) = off + 2 + zlen k) by (destruct Ev as [Ev|Ev]; by rewrite Ev).
  assert (Ed : iter_doc (type_of v) it = Ret (zlen (encode_doc els), Some (encode_doc els ++ Q))).
  { unfold it, data. rewrite (doc_enc P Q len off k v HP Ht Hl Hm (encode_body els) (type_of v)) by done.
    unfold encode_doc at 1. by rewrite zlen_doc_bytes. }
  assert (Hcall : forall call, visit_static (Some (encode_doc els ++ Q)) (zlen (encode_doc els)) call s =
    call (mk_static (encode_doc els ++ Q) (zlen (encode_doc els)))).
  { intros call. unfold visit_static. by rewrite init_static_enc. }
  specialize (Hd (i_off it) Q s Hz (or_introl Hoff)). cbn zeta in Hd. unfold is_phase in Hd.
  rewrite bool_decide_false in Hd by done. cbn [negb] in Hd.
  assert (Hvis : visit_value (bson_validate_funcs vd) it key (type_of v) s =
    ('(stop, s') ← vd (i_off it) (mk_static (encode_doc els ++ Q) (zlen (encode_doc els))) s; Ret (stop, it, s'))).
  { unfold visit_value, bson_iter_document, bson_iter_array. cbn zeta.
    destruct Ev as [Ev|Ev]; rewrite Ev in Ed |- *; cbn [type_of] in *; tests; rewrite Ed; cbn [mbind outcome_bind];
      by rewrite Hcall. }
  rewrite Hvis. destruct Hd as [[Ha ->]|(stop & s' & Ha & Hb & Hf & Hp & ->)]; cbn [mbind outcome_bind].
  - left. by rewrite Hva.
  - right. exists stop, s'. by rewrite Hva.
Qed.

Lemma visit_elem key s :
  value_ok v -> vetted v -> match v with VDocument els | VArray els => decides_doc els | _ => True end ->
  v_phase s <> PHASE_START ->
  (value_acceptable (v_flags s) v /\
     visit_value (bson_validate_funcs vd) it key (type_of v) s = Ret (false, it, set_phase s (value_step (v_flags s) (v_phase s) v))) \/
  (exists stop s', ~ value_acceptable (v_flags s) v /\ bad s' /\ v_flags s' = v_flags s /\
     (stop = false -> v_phase s' = v_phase s) /\
     visit_value (bson_validate_funcs vd) it key (type_of v) s = Ret (stop, it, s')).
Proof using HP Ht Hoff Hl Hm.
  intros Hok Hve Hd Hs. assert (Es : set_phase s (v_phase s) = s) by (by destruct s).
  remember v as w eqn:Ew in Hok, Hve, Hd |- *. symmetry in Ew.
  destruct (match w with VUtf8 _ | VDocument _ | VArray _ | VCodeWScope _ _ => true | _ => false end) eqn:Hw.
  - destruct w; try done; unfold value_step; cbn [is_utf8_value type_of].
    + inversion_clear Hok as [? ? Hleaf| | |]. inversion_clear Hve as [| |? Hu]. rewrite <- Ew.
      destruct (visit_utf8_elem s0 key s Ew Hleaf Hu) as [?|(s' & ? & ? & ? & ?)]; [by left|]. right. by exists true, s'.
    + rewrite Es, <- Ew. change BSON_TYPE_DOCUMENT with (type_of (VDocument els)). rewrite <- Ew. apply (visit_doc_elem els); auto.
    + rewrite Es, <- Ew. change BSON_TYPE_ARRAY with (type_of (VArray els)). rewrite <- Ew. apply (visit_doc_elem els); auto.
    + inversion_clear Hve; done.
  - left. assert (Hw' : match w with VUtf8 _ | VDocument _ | VArray _ | VCodeWScope _ _ => False | _ => True end) by (by destruct w).
    assert (Hleaf : leaf_ok w) by (inversion Hok; subst; done).
    split; [constructor; by destruct w|]. rewrite (visit_leaf w) by done. unfold value_step.
    replace (is_utf8_value w) with false by (by destruct w). by rewrite Es.
Qed.
End Elem.

(** ** The loop on encoded elements *)

Definition elem_decided (vd : Z -> static_doc -> bson_validate_state_t -> outcome (bool * bson_validate_state_t)) (v : value) : Prop :=
  match v with VDocument els | VArray els => decides_doc vd els | _ => True end.

(** What the loop leaves behind after the elements [els]. *)
Definition loop_result (s : bson_validate_state_t) (els : list (bytes * value))
    (r : outcome (bool * bson_iter_t * bson_validate_state_t)) : Prop :=
  exists stop it' s', r = Ret (stop, it', s') /\ v_flags s' = v_flags s /\
    ((exists p, runs (v_flags s) (v_phase s) els p /\ s' = set_phase s p) \/
     (bad s' /\ forall p, ~ runs (v_flags s) (v_phase s) els p)).

Lemma key_step_running flags p k q : p <> PHASE_START -> key_step flags p k = Some q -> q <> PHASE_START.
Proof. intros Hp. unfold key_step. repeat case_match; congruence. Qed.

Lemma value_step_running flags p v : p <> PHASE_START -> value_step flags p v <> PHASE_START.
Proof. intros Hp. unfold value_step, utf8_step. repeat case_match; congruence. Qed.

Lemma key_valid_spec k r :
  key_wf k -> zlen k < 2 ^ 32 -> exists b, key_valid (k ++ 0 :: r) = Ret b /\ (b = true <-> utf8_string false k).
Proof.
  intros [Hn Hb] Hl. unfold key_valid. rewrite rd_first. cbn [mbind outcome_bind]. destruct k as [|c k].
  - exists true. split; [done|]. split; [constructor | done].
  - replace (c =? 0) with false by (inversion_clear Hn; lia). rewrite strlen_cstr by done. cbn [mbind outcome_bind].
    by apply utf8_decides.
Qed.

(** An error that stops the loop. *)
Lemma loop_stops s els stop it' s' r :
  r = Ret (stop, it', s') -> bad s' -> v_flags s' = v_flags s -> (forall p, ~ runs (v_flags s) (v_phase s) els p) -> loop_result s els r.
Proof. intros -> Hb Hf Hn. exists stop, it', s'. split; [done|]. split; [done|]. by right. Qed.

(** An error in an element that does not stop the loop is kept. *)
Lemma loop_keeps_bad s s1 els els' r :
  loop_result s1 els r -> bad s1 -> v_flags s1 = v_flags s ->
  (forall p, ~ runs (v_flags s) (v_phase s) els' p) -> loop_result s els' r.
Proof.
  intros (stop & it' & s' & -> & Hf & H) Hb Hf1 Hn. exists stop, it', s'. split; [done|]. split; [congruence|]. right.
  split; [|done]. destruct H as [(p & _ & ->)|[? _]]; done.
Qed.

(** After an acceptable element the rest decides. *)
Lemma loop_goes_on s k v q els r :
  utf8_string false k -> key_passes (v_flags s) (v_phase s) k q -> value_acceptable (v_flags s) v ->
  loop_result (set_phase s (value_step (v_flags s) q v)) els r -> loop_result s ((k, v) :: els) r.
Proof.
  intros Hk Hq Hv (stop & it' & s' & -> & Hf & H). exists stop, it', s'. split; [done|]. split; [done|].
  cbn [set_phase v_flags v_phase] in H. destruct H as [(p & Hr & ->)|[Hb Hn]].
  - left. exists p. split; [by econstructor | done].
  - right. split; [done|]. intros p Hr. inversion Hr as [|? q' ? ? ? ? _ Hq' _ Hr']; subst. apply (Hn p).
    destruct Hq as [_ E1], Hq' as [_ E2]. congruence.
Qed.

Section LoopEnc.
Context (vd : Z -> static_doc -> bson_validate_state_t -> outcome (bool * bson_validate_state_t)).

Lemma loop_nil n it p Q s :
  i_raw it = Some (p ++ 0 :: Q) -> i_next_off it = zlen p -> i_len it = zlen p + 1 -> i_len it <= INT_MAX ->
  i_err_off it = 0 -> loop_result s [] (visit_loop (bson_validate_funcs vd) (S n) it s).
Proof.
  intros Hr Hn Hl Hm He. cbn [visit_loop].
  destruct (next_eod it p 0 Q Hr Hn Hl ltac:(lia)) as (r & -> & Eo & Ee). cbn [mbind outcome_bind]. rewrite Eo. cbn [negb].
  unfold visit_end. rewrite Ee, He. cbn. eexists _, _, s. split; [done|]. split; [done|]. left. exists (v_phase s).
  split; [constructor | by destruct s].
Qed.

Lemma loop_enc els :
  elems_ok els -> Forall (fun kv => vetted kv.2 /\ elem_decided vd kv.2) els -> forall n it p Q s,
  i_raw it = Some (p ++ encode_body els ++ 0 :: Q) -> i_next_off it = zlen p -> 4 <= zlen p ->
  i_len it = zlen p + zlen (encode_body els) + 1 -> i_len it <= INT_MAX -> i_err_off it = 0 ->
  zlen (encode_body els) < Z.of_nat n -> v_phase s <> PHASE_START ->
  loop_result s els (visit_loop (bson_validate_funcs vd) n it s).
Proof.
  induction els as [|[k v] els IH]; intros Hok Hel n it p Q s Hr Hn Hp Hl Hm He Hf Hs;
    (destruct n as [|n]; [match type of Hf with zlen ?l < _ => pose proof (zlen_nonneg l) end; lia|]).
  { change (encode_body []) with (@nil Z) in *. change (zlen (@nil Z)) with 0 in *. apply (loop_nil n it p Q); done || lia. }
  inversion_clear Hok as [|? ? ? Hk Hv Hels]. inversion_clear Hel as [|? ? [Hve Hd] Hel'].
  rewrite encode_body_cons in *. rewrite zlen_app in *. rewrite <- app_assoc in *.
  set (rest := encode_body els ++ 0 :: Q) in *. pose proof (zlen_nonneg (encode_body els)). pose proof (zlen_nonneg Q).
  pose proof (zlen_nonneg k). pose proof (zlen_nonneg (encode_value v)).
  assert (Lel : zlen (encode_elem (k, v)) = zlen k + 2 + zlen (encode_value v))
    by (unfold encode_elem; rewrite zlen_app, zlen_elem_hdr; done).
  cbn [visit_loop]. rewrite (next_enc it p k v rest) by
    (done || lia || (apply Hk) || (by apply step_ok_value) || (unfold rest; rewrite !zlen_app, zlen_cons; lia)).
  cbn [mbind outcome_bind n_ok n_iter n_key n_type n_unsupported negb assert_ptr].
  set (data := p ++ encode_elem (k, v) ++ rest) in *. set (it1 := at_elem data (i_len it) (zlen p) k v).
  assert (Hz : zlen k < 2 ^ 32) by (unfold INT_MAX in Hm; lia).
  destruct (key_valid_spec k (encode_value v ++ rest) Hk Hz) as (b & -> & Hb). cbn [mbind outcome_bind].
  destruct b; cbn [negb].
  2: { unfold visit_end. cbn [set_err it1 at_elem i_err_off i_off]. replace (zlen p =? 0) with false by lia. cbn.
       eapply loop_stops; [reflexivity | unfold bad; cbn; lia | done |]. intros q Hq. inversion Hq as [|? ? ? ? ? ? Hu _ _ _]; subst.
       by apply Hb in Hu. }
  cbn [VISIT_FIELD bson_validate_funcs visit_before].
  destruct (before_spec it1 k (encode_value v ++ rest) s (proj1 Hk)) as [(q & Hq & ->)|(s' & Hq & Ho & Hfl & ->)];
    cbn [mbind outcome_bind].
  2: { eapply loop_stops; [reflexivity | unfold bad; rewrite Ho; cbn; lia | done |]. intros p' Hp'.
       inversion Hp' as [|? q ? ? ? ? _ Hq' _ _]; subst. by apply (Hq q). }
  assert (Hq0 : v_phase (set_phase s q) <> PHASE_START) by (destruct Hq as [_ Hq]; by eapply key_step_running).
  assert (Hit1 : forall s1, v_phase s1 <> PHASE_START -> loop_result s1 els (visit_loop (bson_validate_funcs vd) n it1 s1)).
  { intros s1 Hs1. apply (IH Hels Hel' n it1 (p ++ encode_elem (k, v)) Q s1); cbn [it1 at_elem i_raw i_next_off i_len i_err_off]; try done.
    - unfold data, rest. by rewrite <- app_assoc.
    - rewrite zlen_app. lia.
    - rewrite zlen_app. lia.
    - rewrite zlen_app. lia.
    - lia. }
  set (P := p ++ elem_hdr (type_of v) k).
  assert (Ed : data = P ++ encode_value v ++ rest)
    by (unfold data, P, encode_elem; cbn [fst snd]; by rewrite <- !app_assoc).
  assert (Hty : rd data (zlen p) = Ret (type_of v)) by (unfold data, encode_elem, elem_hdr; cbn [fst snd app]; by apply rd_mid).
  assert (HP : zlen P = zlen p + 2 + zlen k) by (unfold P; rewrite zlen_app, zlen_elem_hdr; lia).
  rewrite Ed in Hty. pose proof (visit_elem vd P rest (i_len it) (zlen p) k v HP Hty ltac:(lia) ltac:(lia) Hm
    (k ++ 0 :: encode_value v ++ rest) (set_phase s q) Hv Hve Hd Hq0) as Hvis. rewrite <- Ed in Hvis. fold it1 in Hvis.
  cbn [set_phase v_flags v_phase] in Hvis.
  destruct Hvis as [[Ha ->]|(stop & s' & Ha & Hbad & Hfl & Hph & ->)]; cbn [mbind outcome_bind].
  - cbn [VISIT_FIELD bson_validate_funcs visit_after mbind outcome_bind].
    eapply (loop_goes_on _ k v q); [by apply Hb | done | done|]. apply Hit1. by apply value_step_running.
  - assert (Hno : forall p', ~ runs (v_flags s) (v_phase s) ((k, v) :: els) p').
    { intros p' Hp'. by inversion Hp'; subst. }
    destruct stop; [by eapply loop_stops|]. cbn [VISIT_FIELD bson_validate_funcs visit_after mbind outcome_bind].
    eapply loop_keeps_bad; [apply Hit1 | done | done | done]. by rewrite Hph.
Qed.
End LoopEnc.

Lemma runs_det flags p els p1 p2 : runs flags p els p1 -> runs flags p els p2 -> p1 = p2.
Proof.
  induction 1 as [|p q p1 k v els _ [_ E1] _ _ IH]; intros H2; inversion H2 as [|? q' ? ? ? ? _ [_ E2] _ Hr]; subst; [done|].
  apply IH. congruence.
Qed.

(** At the top level there is no DBRef to complete. *)
Lemma top_not_pending flags els p : runs flags PHASE_TOP els p -> pending p = true -> False.
Proof.
  intros Hr Hp. destruct (has_flag flags BSON_VALIDATE_DOLLAR_KEYS) eqn:Hf.
  - inversion Hr as [|? q ? k v els' _ [_ Hs] _ Hr']; subst; [done|]. unfold key_step in Hs. rewrite Hf in Hs.
    destruct (is_dollar k); [done|]. injection Hs as <-.
    rewrite value_step_not_dbref in Hr'. apply (run_not_dbref flags Hf) in Hr' as [_ ->]. done.
  - by rewrite (runs_phase_fixed _ _ _ _ Hf Hr) in Hp.
Qed.

(** Nested documents are shorter. *)
Lemma elem_shorter els k v : (k, v) ∈ els -> zlen (encode_value v) < zlen (encode_body els).
Proof.
  induction els as [|kv els IH]; [by intros ?%not_elem_of_nil|]. rewrite encode_body_cons, zlen_app, elem_of_cons.
  pose proof (zlen_nonneg (encode_body els)). pose proof (zlen_nonneg (encode_elem kv)). intros [<-|H']; [|specialize (IH H'); lia].
  unfold encode_elem. rewrite zlen_app, zlen_elem_hdr. cbn [fst snd]. pose proof (zlen_nonneg k). lia.
Qed.

Lemma elems_ok_elem els k v : elems_ok els -> (k, v) ∈ els -> value_ok v.
Proof.
  induction els as [|kv els IH]; intros Hok; [by intros ?%not_elem_of_nil|]. inversion_clear Hok. rewrite elem_of_cons.
  intros [[= -> ->]|?]; auto.
Qed.

Lemma document_decided fuel : forall els,
  zlen (encode_doc els) < Z.of_nat fuel -> elems_ok els -> Forall (fun kv => vetted kv.2) els ->
  decides_doc (_bson_iter_validate_document fuel) els.
Proof.
  induction fuel as [|fuel IH]; intros els Hf Hok Hve o R s Hm Ho; [pose proof (zlen_nonneg (encode_doc els)); lia|].
  cbn zeta. cbn [_bson_iter_validate_document].
  assert (El : zlen (encode_doc els) = zlen (encode_body els) + 5) by (unfold encode_doc; apply zlen_doc_bytes).
  pose proof (zlen_nonneg (encode_body els)). unfold iter_init_static. cbn [sd_len sd_data].
  replace (zlen (encode_doc els) <? 5) with false by lia. cbn [negb].
  set (nested := negb (is_phase (v_phase s) PHASE_START)).
  set (s1 := set_phase s _). assert (E1 : s1 = set_phase s (start_phase nested))
    by (unfold s1, nested; by destruct (is_phase (v_phase s) PHASE_START)).
  assert (Hdec : Forall (fun kv => vetted kv.2 /\ elem_decided (_bson_iter_validate_document fuel) kv.2) els).
  { rewrite Forall_forall in Hve |- *. intros [k v] Hin. cbn [snd]. pose proof (Hve _ Hin) as Hv. cbn [snd] in Hv.
    split; [done|]. pose proof (elem_shorter els k v Hin) as Hsh. pose proof (elems_ok_elem els k v Hok Hin) as Hv'.
    destruct v; try done; cbn [elem_decided]; rewrite ?encode_document, ?encode_array in Hsh;
      (apply IH; [lia | inversion Hv'; subst; done | inversion Hv; subst; done]). }
  destruct (loop_enc _ els Hok Hdec (iter_fuel (iter_start (encode_doc els ++ R) (zlen (encode_doc els))))
    (iter_start (encode_doc els ++ R) (zlen (encode_doc els))) (le_bytes 4 (zlen (encode_body els) + 5)) R s1)
    as (stop & it' & s' & E & Hfl & Hres); cbn [iter_start i_raw i_next_off i_len i_err_off]; try done; try lia.
  { unfold encode_doc, doc_bytes. by rewrite <- !app_assoc. }
  { rewrite zlen_le_bytes. lia. }
  { unfold iter_fuel. cbn [iter_start i_len]. lia. }
  { rewrite E1. by destruct nested. }
  unfold bson_iter_visit_all. rewrite E. cbn [mbind outcome_bind]. fold (pending (v_phase s')).
  rewrite E1 in Hres, Hfl. cbn [set_phase v_flags v_phase] in Hres, Hfl. 
  pose proof (doc_runs_acceptable (v_flags s) nested els) as Hiff. unfold doc_runs in Hiff.
  destruct Hres as [(p & Hr & ->)|[Hb Hn]].
  - cbn [set_phase v_phase]. destruct (pending p) eqn:Ep.
    + right. assert (Hnest : 0 < o).
      { destruct Ho as [?|Hst]; [done|]. exfalso. subst nested. rewrite Hst in Hr. cbn in Hr. revert Hr Ep. apply top_not_pending. }
      eexists true, _. split; [rewrite <- Hiff; intros (p' & Hr' & Hp'); pose proof (runs_det _ _ _ _ _ Hr Hr'); congruence|].
      split; [|split; [|split; [|reflexivity]]]; [|by case_match|done].
      destruct (_ <=? 0) eqn:Ele; unfold bad; cbn [set_err_offset v_err_offset] in *; lia.
    + left. split; [apply Hiff; by exists p|]. by destruct s.
  - right. destruct (pending (v_phase s')).
    + eexists true, _. split; [rewrite <- Hiff; intros (p' & Hr' & _); by apply (Hn p')|]. split; [|split; [|split; [|reflexivity]]]; [|by case_match|done].
      unfold bad in *. replace (v_err_offset s' <=? 0) with false by lia. done.
    + eexists false, _. split; [rewrite <- Hiff; intros (p' & Hr' & _); by apply (Hn p')|]. split; [|split; [|split; [|reflexivity]]]; done.
Qed.

Lemma utf8_compute s allow b :
  Forall is_byte s -> zlen s < 2 ^ 32 -> bson_utf8_validate (s ++ []) (zlen s) allow = Ret b ->
  (if b then utf8_string allow s else ~ utf8_string allow s).
Proof.
  intros Hb Hl E. destruct (utf8_decides s [] allow Hb Hl) as (b' & E' & Hi). rewrite E in E'. injection E' as <-.
  destruct b; [by apply Hi|]. intros H. by apply Hi in H.
Qed.

Ltac utf8_tac b := refine (utf8_compute _ _ b _ _ _);
  [repeat first [apply Forall_nil_2 | apply Forall_cons_2; [unfold is_byte; lia|]] | done | vm_compute; reflexivity].

(** A reference into another collection. *)
Definition dbref_els : list (bytes * value) :=
  [([114], VDocument [(chars "$ref", VUtf8 [99]); (chars "$id", VInt32 1); (chars "note", VNull)]); ([110], VInt32 7)].

Lemma dbref_ok : elems_ok dbref_els /\ Forall (fun kv => vetted kv.2) dbref_els.
Proof.
  unfold dbref_els. split.
  - repeat first [apply elems_ok_nil | apply elems_ok_cons | apply value_ok_document | apply value_ok_leaf | done
      | split | apply Forall_nil_2 | apply Forall_cons_2 | unfold is_byte; lia].
  - apply Forall_cons_2; [|apply Forall_cons_2; [by apply vetted_leaf | apply Forall_nil_2]]. apply vetted_document.
    apply Forall_cons_2; [apply vetted_leaf; utf8_tac true|].
    repeat (apply Forall_cons_2; [by apply vetted_leaf|]). apply Forall_nil_2.
Qed.

(** * Properties *)

(** C23: Validation is safe on arbitrary bytes.  For any buffer with four
    readable bytes behind its length, any flags and any nesting of documents,
    arrays and scopes that the bytes claim, [bson_validate] and
    [bson_validate_with_error] terminate and return, without an access outside
    the buffer and without a failed assertion. *)
Theorem validate_total d flags offset error :
  spare d ->
  (exists r, bson_validate d flags offset = Ret r) /\ (exists r, bson_validate_with_error d flags error = Ret r).
Proof.
  intros Hd. destruct (validate_internal_returns d flags Hd) as [st E].
  unfold bson_validate, bson_validate_with_error. rewrite E. split; by eexists.
Qed.

Lemma validate_total_witness :
  (exists r, bson_validate (mk_static [13; 0; 0; 0; 3; 97; 0; 5; 0; 0; 0; 0; 0; 9; 9; 9; 9] 13) 31 0 = Ret r) /\
  (exists r, bson_validate_with_error (mk_static [13; 0; 0; 0; 3; 97; 0; 5; 0; 0; 0; 0; 0; 9; 9; 9; 9] 13) 31 no_error = Ret r).
Proof.
  apply validate_total. split; [vm_compute; discriminate|]. split; [vm_compute; discriminate|]. vm_compute.
  repeat first [apply Forall_nil_2 | apply Forall_cons_2; [split; [discriminate | reflexivity]|]].
Defined.

(** C22: Validation is right.  On the encoding of a tree whose text is UTF-8
    and which has no code with scope, [bson_validate] answers [true] exactly
    when the document obeys the rules the flags select: every key is UTF-8
    without NUL, not empty (EMPTY_KEYS) and without a dot (DOT_KEYS); strings
    have no NUL unless UTF8_ALLOW_NULL (UTF8); no key starts with '$' except
    the keys $ref, $id and $db of a DBRef, in this order, with strings under
    $ref and $db, in a nested document (DOLLAR_KEYS); and all that at every
    depth.  A refusal comes with a positive offset, an acceptance leaves
    [*offset] alone. *)
Theorem validate_correct els R flags offset :
  elems_ok els -> Forall (fun kv => vetted kv.2) els -> zlen (encode_doc els) <= INT_MAX ->
  exists b off, bson_validate (mk_static (encode_doc els ++ R) (zlen (encode_doc els))) flags offset = Ret (b, off) /\
    (b = true <-> elems_acceptable flags false els) /\ (if b then off = offset else 0 < off).
Proof.
  intros Hok Hve Hm. unfold bson_validate, _bson_validate_internal, validate_with, iter_init_static. cbn [sd_len sd_data].
  assert (El : 5 <= zlen (encode_doc els)) by (unfold encode_doc; rewrite zlen_doc_bytes; pose proof (zlen_nonneg (encode_body els)); lia).
  replace (zlen (encode_doc els) <? 5) with false by lia. cbn [fst negb].
  destruct (document_decided (S (Z.to_nat (zlen (encode_doc els)))) els ltac:(lia) Hok Hve 0 R
    (mk_vstate flags (-1) PHASE_START no_error) Hm (or_intror eq_refl)) as [[Ha ->]|(stop & s' & Ha & Hb & _ & _ & ->)];
    cbn [mbind outcome_bind]; cbn [v_flags v_phase] in Ha; change (negb (is_phase PHASE_START PHASE_START)) with false in Ha.
  - exists true, offset. by split.
  - exists false, (v_err_offset s'). unfold validate_result, bad in *. replace (v_err_offset s' <? 0) with false by lia.
    replace (v_err_offset s' >? 0) with true by lia. split; [done|]. split; [|done]. by split.
Qed.

Lemma validate_correct_witness :
  exists b off, bson_validate (mk_static (encode_doc dbref_els ++ [9]) (zlen (encode_doc dbref_els))) 31 0 = Ret (b, off) /\
    (b = true <-> elems_acceptable 31 false dbref_els) /\ (if b then off = 0 else 0 < off).
Proof. apply (validate_correct dbref_els [9] 31 0); [apply dbref_ok | apply dbref_ok | vm_compute; discriminate]. Defined.

(** Text that is not UTF-8 passes.  [bson_iter_visit_all] stops at a
    string that is not UTF-8 before the validator sees it, and the validator
    takes the stop for success: with BSON_VALIDATE_UTF8 set, a document whose
    only string is the byte FF is reported valid. *)
Theorem validate_accepts_invalid_utf8 :
  let els := [([97], VUtf8 [255])] in
  bson_validate (whole (encode_doc els)) BSON_VALIDATE_UTF8 0 = Ret (true, 0) /\
  ~ elems_acceptable BSON_VALIDATE_UTF8 false els.
Proof.
  split; [vm_compute; reflexivity|]. intros H. inversion_clear H as [? ? _ Ha]. inversion_clear Ha as [|? ? [_ Hv] _].
  inversion Hv as [? Hu| | |? Hx]; subst; [|done]. revert Hu. cbn [snd].
  assert (Hn : ~ utf8_string (has_flag BSON_VALIDATE_UTF8 BSON_VALIDATE_UTF8_ALLOW_NULL) [255]) by utf8_tac false.
  intros Hu. by apply Hn, Hu.
Qed.

(** Validation stops at code with scope.  The visitor of code with scope
    returns [true], which ends the visit, when the scope is valid: a dotted key
    behind such an element is accepted with BSON_VALIDATE_DOT_KEYS, the same
    key without the element in front is refused. *)
Theorem validate_stops_at_scope :
  let dotted := ([97; 46; 98], VInt32 1) in
  bson_validate (whole (encode_doc [([99], VCodeWScope [120] []); dotted])) BSON_VALIDATE_DOT_KEYS 0 = Ret (true, 0) /\
  bson_validate (whole (encode_doc [([99], VCode [120]); dotted])) BSON_VALIDATE_DOT_KEYS 0 = Ret (false, 13).
Proof. split; vm_compute; reflexivity. Qed.
