(* ===== verification/Json.v ===== *)
(** * Printing documents as JSON (bson.c, bson-utf8.c)

    The visitors behind [bson_as_json], [bson_as_canonical_extended_json] and
    [bson_as_relaxed_extended_json], over the table of [Visit] and the growing
    string of [Strings].  Literals are written with an apostrophe for every
    quotation mark ([lit]). *)
From stdpp Require Import strings.
From S2P Require Import Prelude Memory Utf8 Strings Format Document Append Lifecycle Iter IterSafe Find Values Numbers Oid Iso8601 Decimal128 Visit Base64 Printf.
#[local] Open Scope Z_scope.

Definition lit (s : string) : bytes := map (fun c => if c =? 39 then 34 else c) (chars s).

(** ** Escaping *)

Definition hex_char (n : Z) : Z := if n <? 10 then 48 + n else 87 + n.
(** [%02x] of a byte, [%04x] of a character below 32. *)
Definition hex2 (n : Z) : bytes := [hex_char (n / 16); hex_char (n mod 16)].
Definition unicode_escape (c : Z) : bytes := [92; 117; 48; 48] ++ hex2 c.

Definition escape_char (str : bson_string_t) (c : Z) : outcome bson_string_t :=
  if (c =? 92) || (c =? 34) then str ← bson_string_append_c str 92; bson_string_append_unichar str c
  else if c =? 8 then bson_string_append str [92; 98; 0]
  else if c =? 12 then bson_string_append str [92; 102; 0]
  else if c =? 10 then bson_string_append str [92; 110; 0]
  else if c =? 13 then bson_string_append str [92; 114; 0]
  else if c =? 9 then bson_string_append str [92; 116; 0]
  else if c <? 32 then bson_string_append_printf str (unicode_escape c)
  else bson_string_append_unichar str c.

(** [while (utf8 < end)], at offset [p]; [None] for invalid UTF-8. *)
Fixpoint escape_loop (fuel : nat) (utf8 : bytes) (p end_ : Z) (length_provided : bool) (str : bson_string_t) :
    outcome (option bson_string_t) :=
  match fuel with
  | O => Fuel
  | S fuel =>
      if p <? end_ then
        c ← bson_utf8_get_char (drop (Z.to_nat p) utf8);
        str ← escape_char str c;
        if negb (c =? 0) then
          n ← bson_utf8_next_char (drop (Z.to_nat p) utf8);
          escape_loop fuel utf8 (p + n) end_ length_provided str
        else
          b ← rd utf8 p;
          if length_provided && (b =? 0) then escape_loop fuel utf8 (p + 1) end_ length_provided str else Ret None
      else Ret (Some str)
  end.

(** The characters of the new string; every iteration moves forward. *)
Definition bson_utf8_escape_for_json (utf8 : bytes) (utf8_len : Z) : outcome (option bytes) :=
  str ← bson_string_new None;
  let length_provided := 0 <=? utf8_len in
  utf8_len ← (if length_provided then Ret utf8_len else strlen utf8);
  r ← escape_loop (S (Z.to_nat utf8_len)) utf8 0 utf8_len length_provided str;
  Ret (match r with Some str => bson_string_free str false | None => None end).

(** ** The state *)

Inductive bson_json_mode_t := BSON_JSON_MODE_LEGACY | BSON_JSON_MODE_CANONICAL | BSON_JSON_MODE_RELAXED.
Definition is_mode (m n : bson_json_mode_t) : bool :=
  match m, n with
  | BSON_JSON_MODE_LEGACY, BSON_JSON_MODE_LEGACY | BSON_JSON_MODE_CANONICAL, BSON_JSON_MODE_CANONICAL
  | BSON_JSON_MODE_RELAXED, BSON_JSON_MODE_RELAXED => true
  | _, _ => false
  end.
Definition extended (m : bson_json_mode_t) : bool := is_mode m BSON_JSON_MODE_CANONICAL || is_mode m BSON_JSON_MODE_RELAXED.

Definition BSON_MAX_RECURSION : Z := 200.

(** [err_offset] is what the pointer of the state points to: children share it. *)
Record bson_json_state_t := mk_json {
  j_count : Z; j_keys : bool; j_err_offset : Z; j_depth : Z; j_str : bson_string_t; j_mode : bson_json_mode_t
}.
Definition set_str (s : bson_json_state_t) (str : bson_string_t) : bson_json_state_t :=
  mk_json (j_count s) (j_keys s) (j_err_offset s) (j_depth s) str (j_mode s).
Definition set_json_err (s : bson_json_state_t) (e : Z) : bson_json_state_t :=
  mk_json (j_count s) (j_keys s) e (j_depth s) (j_str s) (j_mode s).

(** [bson_string_append (state->str, text)] of a text with its terminator. *)
Definition emit (state : bson_json_state_t) (text : bytes) : outcome bson_json_state_t :=
  str ← bson_string_append (j_str state) text; Ret (set_str state str).
Definition emit_lit (state : bson_json_state_t) (s : string) : outcome bson_json_state_t := emit state (lit s ++ [0]).
(** [bson_string_append_printf (state->str, ...)] *)
Definition emit_printf (state : bson_json_state_t) (printed : bytes) : outcome bson_json_state_t :=
  str ← bson_string_append_printf (j_str state) printed; Ret (set_str state str).

Definition visit_result : Type := outcome (bool * bson_json_state_t).
Definition done_visit (s : outcome bson_json_state_t) : visit_result := s ← s; Ret (false, s).

(** ** Visitors of the leaves *)

Section Leaves.
Context (it : bson_iter_t) (key : bytes).
Implicit Types state : bson_json_state_t.

Definition _bson_as_json_visit_utf8 (v_utf8_len : Z) (v_utf8 : bytes) state : visit_result :=
  escaped ← bson_utf8_escape_for_json v_utf8 v_utf8_len;
  match escaped with
  | None => Ret (true, state)
  | Some escaped => done_visit (state ← emit_lit state "'"; state ← emit state escaped; emit_lit state "'")
  end.

Definition _bson_as_json_visit_int32 (v_int32 : Z) state : visit_result :=
  done_visit (if is_mode (j_mode state) BSON_JSON_MODE_CANONICAL
              then emit_printf state (lit "{ '$numberInt' : '" ++ fmt_d v_int32 ++ lit "' }")
              else emit_printf state (fmt_d v_int32)).

Definition _bson_as_json_visit_int64 (v_int64 : Z) state : visit_result :=
  done_visit (if is_mode (j_mode state) BSON_JSON_MODE_CANONICAL
              then emit_printf state (lit "{ '$numberLong' : '" ++ fmt_d v_int64 ++ lit "'}")
              else emit_printf state (fmt_d v_int64)).

Definition _bson_as_json_visit_decimal128 (value : bson_decimal128_t) state : visit_result :=
  decimal128_string ← bson_decimal128_to_string value;
  done_visit (state ← emit_lit state "{ '$numberDecimal' : '"; state ← emit state decimal128_string; emit_lit state "' }").

(** [strspn (text, "0123456789-") == length] *)
Definition digits_only_text (text : bytes) : bool := forallb (fun c => isdigit c || (c =? 45)) text.

Definition _bson_as_json_visit_double (v_double : Z) state : visit_result :=
  let legacy := is_mode (j_mode state) BSON_JSON_MODE_LEGACY
                || (is_mode (j_mode state) BSON_JSON_MODE_RELAXED && negb (is_nan v_double || not_finite v_double)) in
  done_visit (
    state ← (if negb legacy then emit_lit state "{ '$numberDouble' : '" else Ret state);
    state ← (if negb legacy && is_nan v_double then emit_lit state "NaN"
             else if negb legacy && not_finite v_double then
               if dbl_positive v_double then emit_lit state "Infinity" else emit_lit state "-Infinity"
             else
               state ← emit_printf state (fmt_g20 v_double);
               if digits_only_text (fmt_g20 v_double) then emit_lit state ".0" else Ret state);
    if negb legacy then emit_lit state "' }" else Ret state).

Definition _bson_as_json_visit_undefined state : visit_result := done_visit (emit_lit state "{ '$undefined' : true }").
Definition _bson_as_json_visit_null state : visit_result := done_visit (emit_lit state "null").

Definition _bson_as_json_visit_oid (oid : option bytes) state : visit_result :=
  oid ← assert_ptr oid;
  str ← bson_oid_to_string oid;
  done_visit (state ← emit_lit state "{ '$oid' : '"; state ← emit state str; emit_lit state "' }").

(** The allocated buffer of [b64_len] bytes is filled with zeros. *)
Definition _bson_as_json_visit_binary (v_subtype v_binary_len : Z) (v_binary : option bytes) state : visit_result :=
  let b64_len := (v_binary_len / 3 + 1) * 4 + 1 in
  v_binary ← assert_ptr v_binary;
  '(_, b64) ← b64_ntop v_binary v_binary_len (replicate (Z.to_nat b64_len) 0) b64_len;
  done_visit (if extended (j_mode state) then
    state ← emit_lit state "{ '$binary' : { 'base64': '";
    state ← emit state b64;
    state ← emit_lit state "', 'subType' : '";
    state ← emit_printf state (hex2 v_subtype);
    emit_lit state "' } }"
  else
    state ← emit_lit state "{ '$binary' : '";
    state ← emit state b64;
    state ← emit_lit state "', '$type' : '";
    state ← emit_printf state (hex2 v_subtype);
    emit_lit state "' }").

Definition _bson_as_json_visit_bool (v_bool : bool) state : visit_result :=
  done_visit (emit_lit state (if v_bool then "true" else "false")).

Definition _bson_as_json_visit_date_time (msec_since_epoch : Z) state : visit_result :=
  done_visit (if is_mode (j_mode state) BSON_JSON_MODE_CANONICAL
                 || (is_mode (j_mode state) BSON_JSON_MODE_RELAXED && (msec_since_epoch <? 0)) then
    state ← emit_lit state "{ '$date' : { '$numberLong' : '";
    state ← emit_printf state (fmt_d msec_since_epoch);
    emit_lit state "' } }"
  else if is_mode (j_mode state) BSON_JSON_MODE_RELAXED then
    state ← emit_lit state "{ '$date' : '";
    str ← _bson_iso8601_date_format msec_since_epoch (j_str state);
    emit_lit (set_str state str) "' }"
  else
    state ← emit_lit state "{ '$date' : ";
    state ← emit_printf state (fmt_d msec_since_epoch);
    emit_lit state " }").

Definition _bson_as_json_visit_regex (v_regex : bytes) (v_options : option bytes) state : visit_result :=
  escaped ← bson_utf8_escape_for_json v_regex (-1);
  match escaped with
  | None => Ret (true, state)
  | Some escaped =>
      v_options ← assert_ptr v_options;
      let ext := extended (j_mode state) in
      done_visit (
        state ← emit_lit state (if ext then "{ '$regularExpression' : { 'pattern' : '" else "{ '$regex' : '");
        state ← emit state escaped;
        state ← emit_lit state (if ext then "', 'options' : '" else "', '$options' : '");
        str ← _bson_append_regex_options_sorted (j_str state) v_options;
        emit_lit (set_str state str) (if ext then "' } }" else "' }"))
  end.

Definition _bson_as_json_visit_timestamp (v_timestamp v_increment : Z) state : visit_result :=
  done_visit (
    state ← emit_lit state "{ '$timestamp' : { 't' : ";
    state ← emit_printf state (fmt_u v_timestamp);
    state ← emit_lit state ", 'i' : ";
    state ← emit_printf state (fmt_u v_increment);
    emit_lit state " } }").

Definition _bson_as_json_visit_dbpointer (v_collection_len : Z) (v_collection : bytes) (v_oid : option bytes) state : visit_result :=
  escaped ← bson_utf8_escape_for_json v_collection (-1);
  match escaped with
  | None => Ret (true, state)
  | Some escaped =>
      let ext := extended (j_mode state) in
      done_visit (
        state ← emit_lit state (if ext then "{ '$dbPointer' : { '$ref' : '" else "{ '$ref' : '");
        state ← emit state escaped;
        state ← emit_lit state "'";
        state ← (match v_oid with
                 | Some v_oid =>
                     str ← bson_oid_to_string v_oid;
                     state ← emit_lit state (if ext then ", '$id' : { '$oid' : '" else ", '$id' : '");
                     state ← emit state str;
                     emit_lit state (if ext then "' }" else "'")
                 | None => Ret state
                 end);
        emit_lit state (if ext then " } }" else " }"))
  end.

Definition _bson_as_json_visit_minkey state : visit_result := done_visit (emit_lit state "{ '$minKey' : 1 }").
Definition _bson_as_json_visit_maxkey state : visit_result := done_visit (emit_lit state "{ '$maxKey' : 1 }").

Definition count_one state : bson_json_state_t :=
  mk_json (u32 (j_count state + 1)) (j_keys state) (j_err_offset state) (j_depth state) (j_str state) (j_mode state).

Definition _bson_as_json_visit_before state : visit_result :=
  state ← (if negb (j_count state =? 0) then emit_lit state ", " else Ret state);
  if j_keys state then
    escaped ← bson_utf8_escape_for_json key (-1);
    match escaped with
    | Some escaped =>
        state ← emit_lit state "'"; state ← emit state escaped; state ← emit_lit state "' : "; Ret (false, count_one state)
    | None => Ret (true, state)
    end
  else Ret (false, count_one state).

Definition _bson_as_json_visit_corrupt state : outcome bson_json_state_t := Ret (set_json_err state (i_off it)).

Definition _bson_as_json_visit_code (v_code_len : Z) (v_code : bytes) state : visit_result :=
  escaped ← bson_utf8_escape_for_json v_code v_code_len;
  match escaped with
  | None => Ret (true, state)
  | Some escaped => done_visit (state ← emit_lit state "{ '$code' : '"; state ← emit state escaped; emit_lit state "' }")
  end.

Definition _bson_as_json_visit_symbol (v_symbol_len : Z) (v_symbol : bytes) state : visit_result :=
  escaped ← bson_utf8_escape_for_json v_symbol v_symbol_len;
  match escaped with
  | None => Ret (true, state)
  | Some escaped =>
      let ext := extended (j_mode state) in
      done_visit (
        state ← emit_lit state (if ext then "{ '$symbol' : '" else "'");
        state ← emit state escaped;
        emit_lit state (if ext then "' }" else "'"))
  end.

(** [scope_json] is [_bson_as_json_visit_all] on the scope, in the same mode. *)
Definition _bson_as_json_visit_codewscope (scope_json : static_doc -> bson_json_mode_t -> outcome (option bytes * Z))
    (v_code_len : Z) (v_code : bytes) (v_scope : static_doc) state : visit_result :=
  code_escaped ← bson_utf8_escape_for_json v_code v_code_len;
  match code_escaped with
  | None => Ret (true, state)
  | Some code_escaped =>
      '(scope, _) ← scope_json v_scope (j_mode state);
      match scope with
      | None => Ret (true, state)
      | Some scope =>
          done_visit (
            state ← emit_lit state "{ '$code' : '";
            state ← emit state code_escaped;
            state ← emit_lit state "', '$scope' : ";
            state ← emit state scope;
            emit_lit state " }")
      end
  end.
End Leaves.

(** ** The table, nested documents and the entry points *)

Definition nested_visitor : Type := static_doc -> bson_json_state_t -> visit_result.

Definition bson_as_json_visitors (document array : nested_visitor)
    (scope_json : static_doc -> bson_json_mode_t -> outcome (option bytes * Z)) : bson_visitor_t bson_json_state_t :=
  mk_visitor
    (Some (fun _ key => _bson_as_json_visit_before key)) None (Some _bson_as_json_visit_corrupt)
    (Some (fun _ _ => _bson_as_json_visit_double)) (Some (fun _ _ => _bson_as_json_visit_utf8))
    (Some (fun _ _ => document)) (Some (fun _ _ => array))
    (Some (fun _ _ => _bson_as_json_visit_binary)) (Some (fun _ _ => _bson_as_json_visit_undefined))
    (Some (fun _ _ => _bson_as_json_visit_oid)) (Some (fun _ _ => _bson_as_json_visit_bool))
    (Some (fun _ _ => _bson_as_json_visit_date_time)) (Some (fun _ _ => _bson_as_json_visit_null))
    (Some (fun _ _ => _bson_as_json_visit_regex)) (Some (fun _ _ => _bson_as_json_visit_dbpointer))
    (Some (fun _ _ => _bson_as_json_visit_code)) (Some (fun _ _ => _bson_as_json_visit_symbol))
    (Some (fun _ _ => _bson_as_json_visit_codewscope scope_json)) (Some (fun _ _ => _bson_as_json_visit_int32))
    (Some (fun _ _ => _bson_as_json_visit_timestamp)) (Some (fun _ _ => _bson_as_json_visit_int64))
    (Some (fun _ _ => _bson_as_json_visit_maxkey)) (Some (fun _ _ => _bson_as_json_visit_minkey))
    None (Some (fun _ _ => _bson_as_json_visit_decimal128)).

(** What [_bson_as_json_visit_document] and [_bson_as_json_visit_array] share:
    [open] and [close] are the brackets, [keys] whether keys are printed. *)
Definition visit_nested (visitors : bson_visitor_t bson_json_state_t) (opening closing : string) (keys : bool) : nested_visitor :=
  fun v_document state =>
  if j_depth state >=? BSON_MAX_RECURSION then done_visit (emit_lit state "{ ... }")
  else
    let '(ok, child) := iter_init_static v_document in
    if negb ok then Ret (false, state)
    else
      str ← bson_string_new (Some (lit opening ++ [0]));
      '(stop, _, child_state) ← bson_iter_visit_all visitors child
        (mk_json 0 keys (j_err_offset state) (j_depth state + 1) str (j_mode state));
      let state := set_json_err state (j_err_offset child_state) in
      if (stop : bool) then Ret (true, state)
      else
        child_state ← emit_lit child_state closing;
        done_visit (emit state (s_str (j_str child_state))).

Definition _bson_as_json_visit_document (visitors : bson_visitor_t bson_json_state_t) : nested_visitor :=
  visit_nested visitors "{ " " }" true.
Definition _bson_as_json_visit_array (visitors : bson_visitor_t bson_json_state_t) : nested_visitor :=
  visit_nested visitors "[ " " ]" false.

(** The text with its length; [None] when the document is corrupt or a visitor failed. *)
Definition json_of_document (visitors : bson_visitor_t bson_json_state_t) (bson : static_doc) (mode : bson_json_mode_t) :
    outcome (option bytes * Z) :=
  c ← (if sd_len bson =? 5 then Ret 0 else rd (sd_data bson) 4);
  if c =? 0 then s ← bson_strdup (Some (lit "{ }" ++ [0])); Ret (s, 3)
  else
    let '(ok, iter) := iter_init_static bson in
    if negb ok then Ret (None, 0)
    else
      str ← bson_string_new (Some (lit "{ " ++ [0]));
      '(stop, _, state) ← bson_iter_visit_all visitors iter (mk_json 0 true (-1) 0 str mode);
      if (stop : bool) || negb (j_err_offset state =? -1) then Ret (None, 0)
      else
        state ← emit_lit state " }";
        Ret (bson_string_free (j_str state) false, s_len (j_str state)).

(** The visitors call themselves on nested documents and on scopes, which are
    shorter than the document they are in. *)
Fixpoint json_visitors (fuel : nat) : bson_visitor_t bson_json_state_t :=
  match fuel with
  | O => bson_as_json_visitors (fun _ _ => Fuel) (fun _ _ => Fuel) (fun _ _ => Fuel)
  | S fuel =>
      let visitors := json_visitors fuel in
      bson_as_json_visitors (_bson_as_json_visit_document visitors) (_bson_as_json_visit_array visitors) (json_of_document visitors)
  end.

Definition _bson_as_json_visit_all (bson : static_doc) (mode : bson_json_mode_t) : outcome (option bytes * Z) :=
  json_of_document (json_visitors (Z.to_nat (sd_len bson))) bson mode.

Definition bson_as_canonical_extended_json (bson : static_doc) := _bson_as_json_visit_all bson BSON_JSON_MODE_CANONICAL.
Definition bson_as_json (bson : static_doc) := _bson_as_json_visit_all bson BSON_JSON_MODE_LEGACY.
Definition bson_as_relaxed_extended_json (bson : static_doc) := _bson_as_json_visit_all bson BSON_JSON_MODE_RELAXED.

(** The visit is made twice: the second one starts from the iterator the first one left. *)
Definition array_of_document (visitors : bson_visitor_t bson_json_state_t) (bson : static_doc) : outcome (option bytes * Z) :=
  c ← (if sd_len bson =? 5 then Ret 0 else rd (sd_data bson) 4);
  if c =? 0 then s ← bson_strdup (Some (lit "[ ]" ++ [0])); Ret (s, 3)
  else
    let '(ok, iter) := iter_init_static bson in
    if negb ok then Ret (None, 0)
    else
      str ← bson_string_new (Some (lit "[ " ++ [0]));
      '(_, iter, state) ← bson_iter_visit_all visitors iter (mk_json 0 false (-1) 0 str BSON_JSON_MODE_LEGACY);
      '(stop, _, state) ← bson_iter_visit_all visitors iter state;
      if (stop : bool) || negb (j_err_offset state =? -1) then Ret (None, 0)
      else
        state ← emit_lit state " ]";
        Ret (bson_string_free (j_str state) false, s_len (j_str state)).

Definition bson_array_as_json (bson : static_doc) : outcome (option bytes * Z) :=
  array_of_document (json_visitors (Z.to_nat (sd_len bson))) bson.
