(* ===== verification/JsonText.v ===== *)
(** * The JSON text of a document

    [json_value] is the reference printer, by recursion on the value.  On the
    encoding of a document whose texts are UTF-8, the visitors of [Json] print
    exactly that text. *)
From stdpp Require Import strings.
From S2P Require Import Prelude Memory Utf8 Strings Format Document Append Lifecycle Iter IterSafe Find Values Numbers Oid Dates Calendar Timegm Iso8601 DateText Decimal128 DecimalText RoundTrip Visit Validate Base64 Printf Json.
#[local] Open Scope Z_scope.

(** ** Escaping *)

(** What a byte of a string becomes; bytes from 128 on are parts of characters. *)
Definition escape_byte (b : Z) : bytes :=
  if (b =? 92) || (b =? 34) then [92; b]
  else if b =? 8 then [92; 98] else if b =? 12 then [92; 102] else if b =? 10 then [92; 110]
  else if b =? 13 then [92; 114] else if b =? 9 then [92; 116]
  else if b <? 32 then unicode_escape b
  else [b].
Definition json_escape (s : bytes) : bytes := concat (map escape_byte s).

Lemma json_escape_app s t : json_escape (s ++ t) = json_escape s ++ json_escape t.
Proof. unfold json_escape. by rewrite map_app, concat_app. Qed.

(** UTF-8 text without the two-byte form of NUL. *)
Inductive scalar_text (nul : bool) : bytes -> Prop :=
| scalar_nil : scalar_text nul []
| scalar_cons c s : scalar_value c -> c <> 0 \/ nul = true -> scalar_text nul s -> scalar_text nul (utf8_encode c ++ s).

Lemma scalar_utf8 nul s : scalar_text nul s -> utf8_string nul s.
Proof. induction 1 as [|c s Hc Hn _ IH]; [constructor|]. constructor; [by constructor | done]. Qed.

Lemma encode_bytes c : scalar_value c -> Forall is_byte (utf8_encode c) /\ (c <> 0 -> no_nul (utf8_encode c)) /\ 0 < zlen (utf8_encode c) <= 4.
Proof.
  intros Hc. unfold scalar_value in Hc. unfold utf8_encode.
  repeat match goal with |- context [if ?b then _ else _] => destruct b eqn:? end; bool_hyps;
    (split; [repeat constructor; divmod|]); (split; [intros; repeat constructor; divmod|]); rewrite ?zlen_cons; change (zlen (@nil Z)) with 0; lia.
Qed.

Lemma scalar_bytes nul s : scalar_text nul s -> Forall is_byte s.
Proof. induction 1 as [|c s Hc _ _ IH]; [constructor|]. apply Forall_app. split; [by apply encode_bytes | done]. Qed.

Lemma scalar_no_nul s : scalar_text false s -> no_nul s.
Proof. induction 1 as [|c s Hc [Hn|] _ IH]; [constructor | | done]. apply Forall_app. split; [by apply encode_bytes | done]. Qed.

(** Escaping a character is escaping its bytes. *)
Definition escape_scalar (c : Z) : bytes :=
  if c <? 128 then escape_byte c else utf8_encode c.

Lemma escape_encode c : scalar_value c -> json_escape (utf8_encode c) = escape_scalar c.
Proof.
  intros Hc. unfold scalar_value in Hc. unfold escape_scalar, utf8_encode. destruct (c <? 0x80) eqn:E0; bool_hyps.
  { replace (c <? 128) with true by lia. unfold json_escape. cbn [map concat]. by rewrite app_nil_r. }
  replace (c <? 128) with false by lia.
  assert (Hid : forall l, Forall (fun b => 128 <= b) l -> json_escape l = l).
  { induction 1 as [|b l Hb _ IH]; [done|]. change (json_escape (b :: l)) with (escape_byte b ++ json_escape l). rewrite IH.
    unfold escape_byte. repeat match goal with |- context [b =? ?k] => replace (b =? k) with false by lia end.
    by replace (b <? 32) with false by lia. }
  repeat match goal with |- context [if ?b then _ else _] => destruct b eqn:? end; bool_hyps; apply Hid; repeat constructor; divmod.
Qed.

Lemma hex_char_nz n : 0 <= n < 16 -> hex_char n <> 0.
Proof. unfold hex_char. destruct (n <? 10) eqn:E; bool_hyps; lia. Qed.

(** The bytes of a short list are not NUL. *)
Ltac not_nul := unfold no_nul; repeat (apply Forall_cons_2; [first [lia | discriminate | apply hex_char_nz; divmod]|]); apply Forall_nil_2.

Lemma escape_byte_no_nul b : 0 <= b -> no_nul (escape_byte b) /\ 1 <= zlen (escape_byte b) <= 6.
Proof.
  intros Hb. unfold escape_byte, unicode_escape, hex2.
  repeat match goal with |- context [if ?b then _ else _] => destruct b eqn:? end; bool_hyps;
    (split; [not_nul | rewrite ?zlen_app, ?zlen_cons; change (zlen (@nil Z)) with 0; lia]).
Qed.

Lemma escape_char_spec str t c : srep str t -> scalar_value c -> zlen t <= 2 ^ 28 ->
  exists str', escape_char str c = Ret str' /\ srep str' (t ++ escape_scalar c).
Proof.
  intros Hs Hc Ht. assert (H0 : 0 <= c) by (unfold scalar_value in Hc; lia). pose proof (escape_byte_no_nul c H0) as [Hnn Hl].
  assert (Happ : forall x post, no_nul x -> zlen x <= 6 -> exists str', bson_string_append str (x ++ 0 :: post) = Ret str' /\ srep str' (t ++ x)).
  { intros x post Hx Hxl. apply bson_string_append_spec; [done | done | lia]. }
  assert (Huni : forall str t, srep str t -> c <> 0 -> zlen t <= 2 ^ 28 + 1 -> exists str', bson_string_append_unichar str c = Ret str' /\ srep str' (t ++ utf8_encode c)).
  { intros str1 t1 Hs1 Hn Ht1. rewrite <- from_unichar_encode by done. apply bson_string_append_unichar_spec; [done | unfold scalar_value in Hc; lia | lia]. }
  unfold escape_char, escape_scalar. unfold escape_byte in *.
  destruct ((c =? 92) || (c =? 34)) eqn:E1.
  { assert (c = 92 \/ c = 34) by lia. replace (c <? 128) with true by lia.
    destruct (bson_string_append_c_spec str t 92 Hs) as (s1 & -> & S1); [lia | lia |]. cbn [mbind outcome_bind].
    destruct (Huni s1 _ S1) as (s2 & -> & S2); [lia | rewrite zlen_app; change (zlen [92]) with 1; lia |]. exists s2. split; [done|].
    rewrite <- app_assoc in S2. unfold utf8_encode in S2. by replace (c <? 128) with true in S2 by lia. }
  repeat match goal with
  | |- context [if ?b then bson_string_append _ ?x else _] =>
      let E := fresh "E" in destruct b eqn:E; [bool_hyps; subst c; apply (Happ (removelast x) []); [not_nul | cbn; lia]|]
  end.
  destruct (c <? 32) eqn:E7; bool_hyps.
  - replace (c <? 128) with true by lia. apply (Happ (unicode_escape c) []); [done | lia].
  - destruct (c <? 128) eqn:E8; bool_hyps; [|apply Huni; [done | lia | lia]].
    destruct (Huni str t Hs) as (s1 & -> & S1); [lia | lia |]. exists s1. split; [done|]. unfold utf8_encode in S1. by replace (c <? 128) with true in S1 by lia.
Qed.

Lemma zlen_json_escape s : Forall is_byte s -> zlen s <= zlen (json_escape s) <= 6 * zlen s.
Proof.
  induction 1 as [|b s Hb _ IH]; [done|]. change (json_escape (b :: s)) with (escape_byte b ++ json_escape s).
  pose proof (escape_byte_no_nul b ltac:(unfold is_byte in Hb; lia)) as [_ H]. rewrite zlen_app, zlen_cons. lia.
Qed.

Lemma json_escape_no_nul s : Forall is_byte s -> no_nul (json_escape s).
Proof.
  induction 1 as [|b s Hb _ IH]; [constructor|]. change (json_escape (b :: s)) with (escape_byte b ++ json_escape s).
  apply Forall_app. split; [apply escape_byte_no_nul; unfold is_byte in Hb; lia | done].
Qed.

Lemma escape_loop_spec nul s : scalar_text nul s -> forall fuel pre post str t, srep str t ->
  zlen t + zlen (json_escape s) <= 2 ^ 28 -> (length s < fuel)%nat ->
  exists str', escape_loop fuel (pre ++ s ++ post) (zlen pre) (zlen pre + zlen s) nul str = Ret (Some str') /\
    srep str' (t ++ json_escape s).
Proof.
  induction 1 as [|c s Hc Hn Hs IH]; intros fuel pre post str t Hr Hl Hf; (destruct fuel as [|fuel]; [lia|]); cbn [escape_loop].
  { exists str. change (zlen (@nil Z)) with 0. replace (zlen pre <? zlen pre + 0) with false by lia. by rewrite app_nil_r. }
  pose proof (encode_bytes c Hc) as (Hb & Hnn & Hel). pose proof (zlen_nonneg s). rewrite json_escape_app in *. rewrite escape_encode in * by done. rewrite !zlen_app in *.
  pose proof (zlen_nonneg (json_escape s)). replace (zlen pre <? zlen pre + (zlen (utf8_encode c) + zlen s)) with true by lia.
  replace (drop (Z.to_nat (zlen pre)) (pre ++ (utf8_encode c ++ s) ++ post)) with (bson_utf8_from_unichar c ++ s ++ post).
  2:{ rewrite from_unichar_encode by done. unfold zlen at 1. by rewrite Nat2Z.id, drop_app_length, <- app_assoc. }
  destruct (bson_utf8_unichar_roundtrip c (s ++ post)) as [-> ->]; [unfold scalar_value in Hc; lia|]. cbn [mbind outcome_bind].
  assert (Hes : 0 <= zlen (escape_scalar c)) by apply zlen_nonneg.
  destruct (escape_char_spec str t c Hr Hc) as (str1 & -> & Hr1); [lia|]. cbn [mbind outcome_bind].
  assert (Hgo : exists str', escape_loop fuel (pre ++ (utf8_encode c ++ s) ++ post) (zlen pre + zlen (utf8_encode c))
      (zlen pre + (zlen (utf8_encode c) + zlen s)) nul str1 = Ret (Some str') /\ srep str' (t ++ escape_scalar c ++ json_escape s)).
  { destruct (IH fuel (pre ++ utf8_encode c) post str1 _ Hr1) as (str' & E & Hr'); [rewrite zlen_app; lia | rewrite length_app in Hf; unfold zlen in Hel; lia |].
    exists str'. rewrite zlen_app, <- !app_assoc in E. rewrite <- Z.add_assoc in E. rewrite <- app_assoc in Hr' |- *. done. }
  rewrite from_unichar_encode by done. destruct (c =? 0) eqn:E0; bool_hyps; cbn [negb]; [|exact Hgo].
  subst c. destruct Hn as [Hn| ->]; [done|]. change (utf8_encode 0) with [0] in *. rewrite (Utf8.rd_at pre 0 (s ++ post)) by done.
  cbn [mbind outcome_bind andb]. change (0 =? 0) with true. cbv iota. exact Hgo.
Qed.

(** The characters of a text, with its length or up to its terminator. *)
Lemma escape_spec nul s post len : scalar_text nul s -> zlen (json_escape s) <= 2 ^ 28 ->
  (if nul then len = zlen s else len = -1 /\ no_nul s) ->
  exists slack, bson_utf8_escape_for_json (s ++ 0 :: post) len = Ret (Some (json_escape s ++ 0 :: slack)).
Proof.
  intros Hs Hl Hlen. unfold bson_utf8_escape_for_json. destruct bson_string_new_empty as (str & -> & Hr). cbn [mbind outcome_bind].
  pose proof (zlen_nonneg s). assert (El : (if 0 <=? len then Ret len else strlen (s ++ 0 :: post)) = Ret (zlen s) /\ (0 <=? len) = nul).
  { destruct nul; [subst len; by replace (0 <=? zlen s) with true by lia|]. destruct Hlen as [-> Hn]. split; [by apply strlen_cstr | done]. }
  destruct El as [-> ->]. cbn [mbind outcome_bind].
  destruct (escape_loop_spec nul s Hs (S (Z.to_nat (zlen s))) [] (0 :: post) str [] Hr) as (str' & E & Hr'); [change (zlen (@nil Z)) with 0; lia | zl |].
  cbn [app] in E. change (zlen (@nil Z)) with 0 in E. rewrite Z.add_0_l in E. rewrite E. cbn [mbind outcome_bind bson_string_free negb].
  destruct Hr' as [_ _ _ [slack ->]]. by exists slack.
Qed.

(** Reading the escapes of a JSON string that the printer uses. *)
Definition hex_val (c : Z) : Z := if c <? 58 then c - 48 else c - 87.
Definition escaped_char (c : Z) : Z :=
  if c =? 98 then 8 else if c =? 102 then 12 else if c =? 110 then 10 else if c =? 114 then 13 else if c =? 116 then 9 else c.
Fixpoint json_unescape (s : bytes) : bytes :=
  match s with
  | [] => []
  | b :: s =>
      if b =? 92 then
        match s with
        | [] => []
        | c :: s =>
            if c =? 117 then
              match s with _ :: _ :: x :: y :: s => hex_val x * 16 + hex_val y :: json_unescape s | _ => [] end
            else escaped_char c :: json_unescape s
        end
      else b :: json_unescape s
  end.

Lemma hex_val_char n : 0 <= n < 16 -> hex_val (hex_char n) = n.
Proof. unfold hex_val, hex_char. intros. destruct (n <? 10) eqn:E; bool_hyps; [replace (48 + n <? 58) with true by lia | replace (87 + n <? 58) with false by lia]; lia. Qed.

Lemma unescape_byte b s : is_byte b -> json_unescape (escape_byte b ++ s) = b :: json_unescape s.
Proof.
  intros Hb. unfold is_byte in Hb. unfold escape_byte. destruct ((b =? 92) || (b =? 34)) eqn:E.
  { assert (b = 92 \/ b = 34) as [-> | ->] by lia; done. }
  repeat match goal with |- context [if b =? ?k then _ else _] => destruct (b =? k) eqn:?; [bool_hyps; subst b; done|] end.
  destruct (b <? 32) eqn:E32; bool_hyps.
  - cbn [unicode_escape hex2 app json_unescape]. change (92 =? 92) with true. change (117 =? 117) with true. cbv iota.
    rewrite !hex_val_char by divmod. f_equal. divmod.
  - cbn [app json_unescape]. by replace (b =? 92) with false by lia.
Qed.

Lemma json_unescape_escape s : Forall is_byte s -> json_unescape (json_escape s) = s.
Proof.
  induction 1 as [|b s Hb _ IH]; [done|]. change (json_escape (b :: s)) with (escape_byte b ++ json_escape s).
  by rewrite unescape_byte, IH.
Qed.

Lemma hex_char_range n : 0 <= n < 16 -> 48 <= hex_char n <= 102.
Proof. unfold hex_char. destruct (n <? 10) eqn:E; bool_hyps; lia. Qed.

Lemma escape_byte_printable b : 0 <= b < 256 -> Forall (fun b => 32 <= b < 256) (escape_byte b).
Proof.
  intros Hb. pose proof (hex_char_range (b mod 16) ltac:(divmod)).
  pose proof (hex_char_range (b / 16) ltac:(divmod)). unfold escape_byte, unicode_escape, hex2.
  destruct ((b =? 92) || (b =? 34)) eqn:E0; [repeat constructor; lia|].
  repeat match goal with |- context [if ?b then _ else _] => destruct b eqn:?; [bool_hyps; cbn [app]; repeat constructor; lia|] end.
  bool_hyps. repeat constructor; lia.
Qed.

(** [bson_utf8_escape_for_json] on a UTF-8 text returns a text without
    control characters from which the text is read back by undoing the escapes; a
    text with its length may contain NUL. *)
Theorem escape_roundtrip nul s post len : scalar_text nul s -> zlen s <= 2 ^ 25 ->
  (if nul then len = zlen s else len = -1 /\ no_nul s) ->
  exists escaped slack, bson_utf8_escape_for_json (s ++ 0 :: post) len = Ret (Some (escaped ++ 0 :: slack)) /\
    Forall (fun b => 32 <= b < 256) escaped /\ json_unescape escaped = s.
Proof.
  intros Hs Hl Hlen. pose proof (scalar_bytes nul s Hs) as Hb. pose proof (zlen_json_escape s Hb).
  destruct (escape_spec nul s post len Hs ltac:(lia) Hlen) as [slack E]. exists (json_escape s), slack. split; [done|].
  split; [|by apply json_unescape_escape]. clear - Hb. induction Hb as [|b s Hb _ IH]; [constructor|].
  change (json_escape (b :: s)) with (escape_byte b ++ json_escape s). apply Forall_app. split; [|done].
  apply escape_byte_printable; unfold is_byte in Hb; lia.
Qed.

Lemma escape_roundtrip_witness :
  exists escaped slack, bson_utf8_escape_for_json ([34; 10; 0; 195; 169] ++ [0]) 5 = Ret (Some (escaped ++ 0 :: slack)) /\
    Forall (fun b => 32 <= b < 256) escaped /\ json_unescape escaped = [34; 10; 0; 195; 169].
Proof.
  apply (escape_roundtrip true [34; 10; 0; 195; 169] [] 5); [|done..].
  repeat first [apply (scalar_cons true 34) | apply (scalar_cons true 10) | apply (scalar_cons true 0) | apply (scalar_cons true 233) | apply scalar_nil];
    first [by left | by right | left; vm_compute; split; congruence].
Defined.

(** ** The reference printer *)

Definition canonical_mode (m : bson_json_mode_t) : bool := is_mode m BSON_JSON_MODE_CANONICAL.
Definition relaxed_mode (m : bson_json_mode_t) : bool := is_mode m BSON_JSON_MODE_RELAXED.

Definition quoted (s : bytes) : bytes := lit "'" ++ json_escape s ++ lit "'".

Definition double_text (m : bson_json_mode_t) (d : Z) : bytes :=
  let number := fmt_g20 d ++ (if digits_only_text (fmt_g20 d) then lit ".0" else []) in
  let wrapped := if is_nan d then lit "NaN"
                 else if not_finite d then (if dbl_positive d then lit "Infinity" else lit "-Infinity")
                 else number in
  if is_mode m BSON_JSON_MODE_LEGACY || (relaxed_mode m && negb (is_nan d || not_finite d)) then number
  else lit "{ '$numberDouble' : '" ++ wrapped ++ lit "' }".

(** What [_bson_iso8601_date_format] prints. *)
Definition date_string (msec : Z) : bytes :=
  match gmtsub (Z.quot msec 1000) 0 with
  | Ret (inr tm) => strftime tm ++ (if Z.rem msec 1000 =? 0 then [] else [DOT] ++ pad_left 32 3 (fmt_d (Z.rem msec 1000))) ++ [LETTER_Z]
  | _ => []
  end.

(** The characters of a decimal. *)
Definition decimal_text (d : bson_decimal128_t) : bytes :=
  match bson_decimal128_to_string d with Ret text => cstr text | _ => [] end.

Definition leaf_text (m : bson_json_mode_t) (v : value) : bytes :=
  let ext := extended m in
  match v with
  | VDouble d => double_text m d
  | VUtf8 s => quoted s
  | VBinary st data =>
      if ext then lit "{ '$binary' : { 'base64': '" ++ b64_text data ++ lit "', 'subType' : '" ++ hex2 st ++ lit "' } }"
      else lit "{ '$binary' : '" ++ b64_text data ++ lit "', '$type' : '" ++ hex2 st ++ lit "' }"
  | VUndefined => lit "{ '$undefined' : true }"
  | VOid oid => lit "{ '$oid' : '" ++ hex_of oid ++ lit "' }"
  | VBool b => lit (if b then "true" else "false")
  | VDateTime n =>
      if canonical_mode m || (relaxed_mode m && (n <? 0)) then lit "{ '$date' : { '$numberLong' : '" ++ fmt_d n ++ lit "' } }"
      else if relaxed_mode m then lit "{ '$date' : '" ++ date_string n ++ lit "' }"
      else lit "{ '$date' : " ++ fmt_d n ++ lit " }"
  | VNull => lit "null"
  | VRegex r opts =>
      if ext then lit "{ '$regularExpression' : { 'pattern' : '" ++ json_escape r ++ lit "', 'options' : '" ++ regex_options opts ++ lit "' } }"
      else lit "{ '$regex' : '" ++ json_escape r ++ lit "', '$options' : '" ++ regex_options opts ++ lit "' }"
  | VDbPointer c oid =>
      if ext then lit "{ '$dbPointer' : { '$ref' : '" ++ json_escape c ++ lit "'" ++ (lit ", '$id' : { '$oid' : '" ++ hex_of oid ++ lit "' }") ++ lit " } }"
      else lit "{ '$ref' : '" ++ json_escape c ++ lit "'" ++ (lit ", '$id' : '" ++ hex_of oid ++ lit "'") ++ lit " }"
  | VCode js => lit "{ '$code' : '" ++ json_escape js ++ lit "' }"
  | VSymbol s => if ext then lit "{ '$symbol' : '" ++ json_escape s ++ lit "' }" else quoted s
  | VInt32 n => if canonical_mode m then lit "{ '$numberInt' : '" ++ fmt_d n ++ lit "' }" else fmt_d n
  | VTimestamp t i => lit "{ '$timestamp' : { 't' : " ++ fmt_u t ++ lit ", 'i' : " ++ fmt_u i ++ lit " } }"
  | VInt64 n => if canonical_mode m then lit "{ '$numberLong' : '" ++ fmt_d n ++ lit "'}" else fmt_d n
  | VDecimal128 low high => lit "{ '$numberDecimal' : '" ++ decimal_text (mk_dec128 low high) ++ lit "' }"
  | VMaxKey => lit "{ '$maxKey' : 1 }"
  | VMinKey => lit "{ '$minKey' : 1 }"
  | VDocument _ | VArray _ | VCodeWScope _ _ => []
  end.

(** Members with a comma between them. *)
Fixpoint separated (texts : list bytes) : bytes :=
  match texts with [] => [] | [t] => t | t :: texts => t ++ lit ", " ++ separated texts end.
Definition key_text (keys : bool) (k : bytes) : bytes := if keys then quoted k ++ lit " : " else [].

(** A value inside a document at nesting depth [depth]. *)
Fixpoint json_value (m : bson_json_mode_t) (depth : Z) (v : value) : bytes :=
  match v with
  | VDocument els =>
      if depth >=? BSON_MAX_RECURSION then lit "{ ... }"
      else lit "{ " ++ separated (map (fun '(k, v) => key_text true k ++ json_value m (depth + 1) v) els) ++ lit " }"
  | VArray els =>
      if depth >=? BSON_MAX_RECURSION then lit "{ ... }"
      else lit "[ " ++ separated (map (fun '(k, v) => key_text false k ++ json_value m (depth + 1) v) els) ++ lit " ]"
  | VCodeWScope js scope =>
      lit "{ '$code' : '" ++ json_escape js ++ lit "', '$scope' : " ++
      (match scope with [] => lit "{ }" | _ => lit "{ " ++ separated (map (fun '(k, v) => key_text true k ++ json_value m 0 v) scope) ++ lit " }" end) ++ lit " }"
  | v => leaf_text m v
  end.

Definition members (m : bson_json_mode_t) (depth : Z) (keys : bool) (els : list (bytes * value)) : bytes :=
  separated (map (fun '(k, v) => key_text keys k ++ json_value m depth v) els).
Definition json_text (m : bson_json_mode_t) (els : list (bytes * value)) : bytes :=
  match els with [] => lit "{ }" | _ => lit "{ " ++ members m 0 true els ++ lit " }" end.

(** ** Pieces of text *)

Definition room : Z := 2 ^ 28.

(** [f] appends [x] to the string of the state and changes nothing else. *)
Definition prints (f : bson_json_state_t -> outcome bson_json_state_t) (x : bytes) : Prop :=
  forall s t, srep (j_str s) t -> zlen t + zlen x <= room ->
  exists str, f s = Ret (set_str s str) /\ srep str (t ++ x).

Lemma set_str_same s : set_str s (j_str s) = s.
Proof. by destruct s. Qed.

Lemma prints_text x post : no_nul x -> prints (fun s => emit s (x ++ 0 :: post)) x.
Proof.
  intros Hx s t Hs Hr. unfold room in Hr. unfold emit.
  destruct (bson_string_append_spec (j_str s) t x post Hs Hx) as (str & -> & Hstr); [lia|]. by exists str.
Qed.

Lemma prints_printf x : no_nul x -> prints (fun s => emit_printf s x) x.
Proof. intros Hx. apply (prints_text x []). done. Qed.

(** A literal has no NUL: by computation. *)
Definition clean (s : string) : bool := forallb (fun b => negb (b =? 0)) (lit s).
Lemma lit_no_nul s : clean s = true -> no_nul (lit s).
Proof.
  unfold clean. intros H. apply Forall_forall. intros b Hb. rewrite forallb_forall in H. apply list_elem_of_In in Hb.
  specialize (H b Hb). bool_hyps. done.
Qed.

Lemma prints_lit s : clean s = true -> prints (fun st => emit_lit st s) (lit s).
Proof. intros H. apply prints_text. by apply lit_no_nul. Qed.

Lemma prints_nothing : prints (fun s => Ret s) [].
Proof. intros s t Hs _. exists (j_str s). rewrite set_str_same, app_nil_r. done. Qed.

Lemma prints_seq f g x y : prints f x -> prints g y -> prints (fun s => s ← f s; g s) (x ++ y).
Proof.
  intros Hf Hg s t Hs Hr. rewrite zlen_app in Hr. pose proof (zlen_nonneg y).
  destruct (Hf s t Hs) as (str & -> & S1); [lia|]. cbn [mbind outcome_bind].
  destruct (Hg (set_str s str) (t ++ x) S1) as (str' & -> & S2); [rewrite zlen_app; lia|].
  exists str'. rewrite app_assoc. by destruct s.
Qed.

(** A step on the string itself. *)
Lemma prints_str (F : bson_string_t -> outcome bson_string_t) g x y :
  (forall str t, srep str t -> zlen t + zlen x <= room -> exists str', F str = Ret str' /\ srep str' (t ++ x)) ->
  prints g y -> prints (fun s => str ← F (j_str s); g (set_str s str)) (x ++ y).
Proof.
  intros HF Hg s t Hs Hr. rewrite zlen_app in Hr. pose proof (zlen_nonneg y).
  destruct (HF (j_str s) t Hs) as (str & -> & S1); [lia|]. cbn [mbind outcome_bind].
  destruct (Hg (set_str s str) (t ++ x) S1) as (str' & -> & S2); [rewrite zlen_app; lia|].
  exists str'. rewrite app_assoc. by destruct s.
Qed.

(** A visitor that prints [x] in mode [m] and goes on. *)
Definition visits (m : bson_json_mode_t) (f : bson_json_state_t -> visit_result) (x : bytes) : Prop :=
  forall s t, j_mode s = m -> srep (j_str s) t -> zlen t + zlen x <= room ->
  exists str, f s = Ret (false, set_str s str) /\ srep str (t ++ x).

Lemma visits_prints m f g x : (forall s, j_mode s = m -> f s = done_visit (g s)) -> prints g x -> visits m f x.
Proof.
  intros Hf Hg s t Hm Hs Hr. destruct (Hg s t Hs Hr) as (str & E & S1). exists str. split; [|done].
  rewrite Hf by done. unfold done_visit. by rewrite E.
Qed.

(** ** Plain texts: nothing to escape *)

Definition plain_char (b : Z) : Prop := 32 <= b < 128 /\ b <> 34 /\ b <> 92.
Definition plain_text (s : bytes) : Prop := Forall plain_char s.

Lemma plain_no_nul s : plain_text s -> no_nul s.
Proof. intros H. eapply Forall_impl; [exact H|]. unfold plain_char. lia. Qed.

Lemma digits_plain ds : Forall digit ds -> plain_text ds.
Proof. intros H. eapply Forall_impl; [exact H|]. unfold digit, plain_char. lia. Qed.

Lemma fmt_u_plain n : 0 <= n < 2 ^ 64 -> plain_text (fmt_u n).
Proof. intros Hn. apply digits_plain, (fmt_u_spec n Hn). Qed.

Lemma fmt_d_plain n : - 2 ^ 63 <= n < 2 ^ 63 -> plain_text (fmt_d n).
Proof.
  intros Hn. unfold fmt_d. destruct (n <? 0) eqn:E; bool_hyps; [apply Forall_cons_2; [unfold plain_char; lia|]|]; apply fmt_u_plain; lia.
Qed.

Lemma hex2_plain n : is_byte n -> plain_text (hex2 n).
Proof.
  unfold is_byte. intros Hn. unfold hex2. assert (H : forall d, 0 <= d < 16 -> plain_char (hex_char d)).
  { intros d Hd. unfold hex_char, plain_char. destruct (d <? 10) eqn:E; bool_hyps; lia. }
  apply Forall_cons_2; [apply H; divmod|]. apply Forall_cons_2; [apply H; divmod | apply Forall_nil_2].
Qed.

Lemma hex_of_plain oid : Forall is_byte oid -> plain_text (hex_of oid).
Proof.
  induction 1 as [|b oid Hb _ IH]; [constructor|]. unfold hex_of. cbn [map concat]. apply Forall_app. split; [|exact IH].
  unfold is_byte in Hb. repeat constructor; unfold hex_digit; repeat case_match; bool_hyps; lia || divmod.
Qed.

Lemma sym_plain d : 0 <= d < 64 -> plain_char (sym d).
Proof.
  intros Hd. assert (H : Forall (fun d => plain_char (sym d)) (seqZ 0 64)) by (repeat (constructor; [vm_compute; repeat split; discriminate|]); constructor).
  rewrite Forall_forall in H. apply H, elem_of_seqZ. lia.
Qed.

Lemma b64_text_plain data : Forall is_byte data -> plain_text (b64_text data).
Proof.
  assert (H0 : is_byte 0) by done. assert (Hp : plain_char Pad64) by (vm_compute; repeat split; discriminate).
  induction data as [|a|a b|a b c data IH] using triples_ind; intros Hb; cbn [b64_text]; [constructor|..];
    repeat match goal with H : Forall is_byte (_ :: _) |- _ => inversion_clear H end;
    unfold plain_text; repeat (apply Forall_cons_2; [first [exact Hp | apply sym_plain; in_range]|]); [constructor | constructor | by apply IH].
Qed.

Lemma options_plain opts : plain_text (regex_options opts).
Proof.
  unfold regex_options. apply Forall_forall. intros b Hb. apply list_elem_of_filter in Hb as [_ Hb]. revert b Hb.
  apply Forall_forall. vm_compute. repeat constructor; discriminate.
Qed.

(** ** Text made by the other components *)

Lemma date_printed msec str t : srep str t -> zlen t <= room -> 0 <= msec < 253402300800000 ->
  exists str', _bson_iso8601_date_format msec str = Ret str' /\ srep str' (t ++ date_string msec).
Proof.
  intros Hs Ht Hm. unfold room in Ht. unfold _bson_iso8601_date_format, date_string. cbv zeta.
  assert (Z.rem msec 1000 = msec mod 1000) as -> by (apply Z.rem_mod_nonneg; lia).
  pose proof (Z.mod_pos_bound msec 1000 ltac:(lia)) as Hms. set (ms := msec mod 1000) in *.
  destruct (gmtsub_correct (Z.quot msec 1000)) as (r & -> & B); [unfold INT64_MIN, INT64_MAX; euclid|]. rewrite bind_ret.
  destruct r as [o|tm]; cbn [broken_down] in B; [unfold FAR in B; euclid|]. destruct B as (V & E & _).
  destruct (tm_ranges tm V ltac:(rewrite E; euclid)) as (Ry & Rmo & Rd). destruct V as (_ & Rh & Rmi & Rs).
  destruct (millis_fraction ms Hms) as (Fok & _ & Fn & Fl).
  destruct (strftime_text tm (millis_part ms) Ry Rmo Rd Rh Rmi Rs Fok) as (Lb & Nb & _).
  replace (zlen (strftime tm) >=? 64) with false by lia. unfold millis_part in *. destruct (ms =? 0); cbn [negb fraction] in *.
  - destruct (bson_string_append_spec str t (strftime tm) []) as (s1 & -> & R1); [done | done | lia |]. rewrite bind_ret.
    destruct (bson_string_append_c_spec s1 (t ++ strftime tm) LETTER_Z) as (s2 & -> & R2); [done | done | autorewrite with zlen; lia |].
    exists s2. split; [done|]. by rewrite app_assoc.
  - unfold bson_string_append_printf. apply (bson_string_append_spec str t (strftime tm ++ DOT :: millis_text ms ++ [LETTER_Z]) []);
      [done | apply Forall_app; by split | rewrite zlen_app; lia].
Qed.

Lemma options_printed opts post str t : srep str t -> no_nul opts -> zlen t <= room ->
  exists str', _bson_append_regex_options_sorted str (opts ++ 0 :: post) = Ret str' /\ srep str' (t ++ regex_options opts).
Proof.
  intros Hs Ho Ht. unfold room in Ht. apply (regex_options_loop_spec BSON_REGEX_OPTIONS_SORTED); [done | done | |].
  - repeat constructor; discriminate.
  - change (zlen BSON_REGEX_OPTIONS_SORTED) with 6. lia.
Qed.

(** The text of a canonical decimal. *)
Lemma numeral_chars ds e text : Forall dig ds -> numeral_of ds e text -> exists chars, text = chars ++ [0] /\ plain_text chars.
Proof.
  intros Hds (ip & fp & ex & x & -> & _ & Hex & _ & _ & z & Hall).
  assert (Hd : plain_text (all_digits ip fp)).
  { rewrite Hall. apply Forall_app. split; [apply Forall_replicate; unfold plain_char; lia|]. apply Forall_map.
    eapply Forall_impl; [exact Hds|]. unfold dig, plain_char. lia. }
  exists (mantissa ip fp ++ ex). split; [by rewrite <- app_assoc|]. unfold mantissa, all_digits in *. apply Forall_app in Hd as [Hi Hf].
  apply Forall_app. split.
  - apply Forall_app. split; [done|]. destruct fp as [fp|]; [|constructor]. constructor; [unfold plain_char; lia | done].
  - destruct Hex as [|c sg sign fs Hc Hsg Hfs _]; [constructor|]. constructor; [unfold plain_char; lia|]. apply Forall_app. split.
    + destruct Hsg; repeat constructor; unfold plain_char; lia.
    + eapply Forall_impl; [exact Hfs|]. unfold digit, plain_char. lia.
Qed.

Lemma decimal_printed d : canonical_decimal d ->
  bson_decimal128_to_string d = Ret (decimal_text d ++ [0]) /\ plain_text (decimal_text d).
Proof.
  intros Hd. assert (H : exists chars, bson_decimal128_to_string d = Ret (chars ++ [0]) /\ plain_text chars).
  { destruct Hd as [Hd|[[neg ->]| ->]].
    - destruct (finite_decimal d Hd) as (neg & c & e & -> & Hc & He).
      destruct (dec_to_string_spec neg c e Hc He) as (ds & Hds & _ & _ & text & E & Hn).
      destruct (numeral_chars ds e text Hds Hn) as (chars & -> & Hch). exists (sign_text neg ++ chars).
      rewrite E, app_assoc. split; [done|]. apply Forall_app. split; [|done]. destruct neg; repeat constructor; unfold plain_char; lia.
    - exists ((if neg then [45] else []) ++ [73; 110; 102; 105; 110; 105; 116; 121]).
      split; [by destruct neg|]. destruct neg; repeat constructor; unfold plain_char; lia.
    - exists [78; 97; 78]. split; [done|]. repeat constructor; unfold plain_char; lia. }
  destruct H as (chars & E & Hch). unfold decimal_text. rewrite E.
  assert (Hc : cstr (chars ++ [0]) = chars).
  { clear E. induction Hch as [|c chars Hc _ IH]; [done|]. cbn [app cstr]. unfold plain_char in Hc. replace (c =? 0) with false by lia. by rewrite IH. }
  by rewrite Hc.
Qed.

(** The characters of a printed double. *)
Lemma number_chars t : number_text t -> plain_text t.
Proof.
  assert (Hd : forall ds, Forall digit ds -> plain_text ds) by (intros ds H; eapply Forall_impl; [exact H|]; unfold digit, plain_char; lia).
  intros (ip & fp & ex & -> & (Hi & _) & Hf & He). apply Forall_app. split; [by apply Hd|]. apply Forall_app. split.
  - destruct Hf as [->|(ds & -> & _ & H)]; constructor; [unfold plain_char; lia | by apply Hd].
  - destruct He as [->|(sg & ds & -> & Hs & _ & H)]; constructor; [unfold plain_char; lia|]. constructor; [unfold plain_char; lia | by apply Hd].
Qed.

Lemma sign_chars (b : bool) : plain_text (if b then [45] else []).
Proof. destruct b; [apply Forall_cons_2; [unfold plain_char; lia|]|]; apply Forall_nil_2. Qed.

Lemma double_chars d : uint_range 64 d -> plain_text (fmt_g20 d).
Proof.
  intros Hd. destruct (not_finite d) eqn:Hf.
  - unfold fmt_g20, is_nan. unfold not_finite in Hf. rewrite Hf. apply Forall_app.
    split; [apply sign_chars|]. cbn [andb]. destruct (negb _); cbn [chars]; repeat (apply Forall_cons_2; [vm_compute; repeat split; discriminate|]); apply Forall_nil_2.
  - destruct (fmt_g20_number d Hd Hf) as (t & -> & Ht). apply Forall_app. split; [apply sign_chars | by apply number_chars].
Qed.

(** ** What can be printed *)

(** Values whose texts are UTF-8 and whose decimals and dates have a text. *)
Inductive printable (m : bson_json_mode_t) : value -> Prop :=
| printable_document els : printable_els m els -> printable m (VDocument els)
| printable_array els : printable_els m els -> printable m (VArray els)
| printable_codewscope js els : scalar_text false js -> printable_els m els -> printable m (VCodeWScope js els)
| printable_leaf v :
    match v with
    | VDocument _ | VArray _ | VCodeWScope _ _ => False
    | VUtf8 s | VSymbol s => scalar_text true s
    | VRegex s _ | VDbPointer s _ | VCode s => scalar_text false s
    | VDateTime n => relaxed_mode m = true -> 0 <= n -> n < 253402300800000
    | VDecimal128 low high => canonical_decimal (mk_dec128 low high)
    | _ => True
    end -> printable m v
with printable_els (m : bson_json_mode_t) : list (bytes * value) -> Prop :=
| printable_nil : printable_els m []
| printable_cons k v els : scalar_text false k -> printable m v -> printable_els m els -> printable_els m ((k, v) :: els).

Lemma scalar_weaken s : scalar_text false s -> scalar_text true s.
Proof. induction 1 as [|c s Hc _ _ IH]; [constructor|]. constructor; [done | by right | done]. Qed.

(** ** The visitors of the leaves *)

(** Print piece by piece. *)
Ltac pieces := repeat match goal with
  | |- prints (fun s => emit_lit s _) _ => apply prints_lit; reflexivity
  | |- prints (fun s => emit s _) _ => apply prints_text
  | |- prints (fun s => emit_printf s _) _ => apply prints_printf
  | |- prints (fun s => Ret s) _ => apply prints_nothing
  | |- prints (fun s => _ ← _; _) _ => apply prints_seq
  end.

(** The mode is known: the body of the visitor is a sequence of pieces. *)
Ltac by_pieces := eapply visits_prints; [intros s' Hm'; rewrite ?Hm'; cbn [extended is_mode orb andb negb]; cbv iota; reflexivity|].

Section Leaf.
Context (m : bson_json_mode_t).

Lemma visits_escaped nul s post len (g : bytes -> bson_json_state_t -> visit_result) x :
  scalar_text nul s -> (if nul then len = zlen s else len = -1 /\ no_nul s) -> zlen (json_escape s) <= zlen x ->
  (forall slack, visits m (g (json_escape s ++ 0 :: slack)) x) ->
  visits m (fun state => escaped ← bson_utf8_escape_for_json (s ++ 0 :: post) len;
     match escaped with None => Ret (true, state) | Some escaped => g escaped state end) x.
Proof.
  intros Hs Hlen Hx Hg st t Hm Hst Hr. pose proof (zlen_nonneg t). unfold room in Hr.
  destruct (escape_spec nul s post len Hs ltac:(lia) Hlen) as [slack ->]. cbn [mbind outcome_bind]. by apply Hg.
Qed.

Lemma escaped_no_nul nul s : scalar_text nul s -> no_nul (json_escape s).
Proof. intros H. apply json_escape_no_nul. by eapply scalar_bytes. Qed.

Lemma visits_utf8 s post : scalar_text true s -> visits m (_bson_as_json_visit_utf8 (zlen s) (s ++ 0 :: post)) (quoted s).
Proof.
  intros Hs. apply (visits_escaped true); [done | done | unfold quoted; zl |]. intros slack. by_pieces.
  unfold quoted. pieces. by eapply escaped_no_nul.
Qed.

Lemma visits_code s post : scalar_text true s -> visits m (_bson_as_json_visit_code (zlen s) (s ++ 0 :: post)) (leaf_text m (VCode s)).
Proof.
  intros Hs. cbn [leaf_text]. apply (visits_escaped true); [done | done | zl |]. intros slack. by_pieces. pieces. by eapply escaped_no_nul.
Qed.

Lemma visits_symbol s post : scalar_text true s -> visits m (_bson_as_json_visit_symbol (zlen s) (s ++ 0 :: post)) (leaf_text m (VSymbol s)).
Proof.
  intros Hs. cbn [leaf_text]. apply (visits_escaped true); [done | done | destruct (extended m); unfold quoted; zl |]. intros slack.
  destruct m; by_pieces; unfold quoted; pieces; by eapply escaped_no_nul.
Qed.

Lemma visits_int32 n : int32_range n -> visits m (_bson_as_json_visit_int32 n) (leaf_text m (VInt32 n)).
Proof.
  unfold int32_range. intros Hn. unfold _bson_as_json_visit_int32. pose proof (plain_no_nul _ (fmt_d_plain n ltac:(lia))).
  destruct m; by_pieces; pieces; try done. repeat (apply Forall_app; split); try done; by apply lit_no_nul.
Qed.

Lemma visits_int64 n : int64_range n -> visits m (_bson_as_json_visit_int64 n) (leaf_text m (VInt64 n)).
Proof.
  unfold int64_range. intros Hn. unfold _bson_as_json_visit_int64. pose proof (plain_no_nul _ (fmt_d_plain n ltac:(lia))).
  destruct m; by_pieces; pieces; try done. repeat (apply Forall_app; split); try done; by apply lit_no_nul.
Qed.

Lemma visits_decimal d low high : d = mk_dec128 low high -> canonical_decimal d ->
  visits m (_bson_as_json_visit_decimal128 d) (leaf_text m (VDecimal128 low high)).
Proof.
  intros -> Hd. destruct (decimal_printed _ Hd) as (E & Hc). unfold _bson_as_json_visit_decimal128. rewrite E. cbn [mbind outcome_bind leaf_text].
  by_pieces. pieces. by apply plain_no_nul.
Qed.

Lemma visits_double d : uint_range 64 d -> visits m (_bson_as_json_visit_double d) (leaf_text m (VDouble d)).
Proof.
  intros Hd. pose proof (plain_no_nul _ (double_chars d Hd)) as Hn. unfold _bson_as_json_visit_double. cbn [leaf_text]. unfold double_text, relaxed_mode.
  set (number := fmt_g20 d ++ _).
  assert (Hnum : prints (fun s => state ← emit_printf s (fmt_g20 d); if digits_only_text (fmt_g20 d) then emit_lit state ".0" else Ret state) number).
  { unfold number. apply prints_seq; [by apply prints_printf|]. destruct (digits_only_text _); [by apply prints_lit | apply prints_nothing]. }
  clearbody number.
  destruct m; eapply visits_prints; try (intros s' Hm'; rewrite Hm'; cbn [is_mode orb andb negb]; cbv iota); try reflexivity; cbn [is_mode orb andb negb]; cbv iota.
  - rewrite <- (app_nil_r number), <- (app_nil_l (number ++ [])). apply prints_seq; [apply prints_nothing|]. apply prints_seq; [exact Hnum | apply prints_nothing].
  - apply prints_seq; [by apply prints_lit|]. apply prints_seq; [|by apply prints_lit].
    destruct (is_nan d); [by apply prints_lit|]. destruct (not_finite d); [destruct (dbl_positive d); by apply prints_lit | exact Hnum].
  - destruct (is_nan d || not_finite d) eqn:E; cbn [negb andb]; cbv iota.
    + apply prints_seq; [by apply prints_lit|]. apply prints_seq; [|by apply prints_lit].
      destruct (is_nan d); [by apply prints_lit|]. cbn [orb] in E. rewrite E. destruct (dbl_positive d); by apply prints_lit.
    + rewrite <- (app_nil_r number), <- (app_nil_l (number ++ [])). apply prints_seq; [apply prints_nothing|]. apply prints_seq; [exact Hnum | apply prints_nothing].
Qed.

Lemma visits_oid oid : zlen oid = 12 -> Forall is_byte oid -> visits m (_bson_as_json_visit_oid (Some oid)) (leaf_text m (VOid oid)).
Proof.
  intros Hl Hb. unfold _bson_as_json_visit_oid. cbn [assert_ptr mbind outcome_bind]. rewrite to_string_spec by (split; [unfold zlen in Hl; lia | done]).
  cbn [mbind outcome_bind]. by_pieces. cbn [leaf_text]. pieces. by apply plain_no_nul, hex_of_plain.
Qed.

Lemma visits_binary st data post : is_byte st -> Forall is_byte data -> zlen data < 2 ^ 31 ->
  visits m (_bson_as_json_visit_binary st (zlen data) (Some (data ++ post))) (leaf_text m (VBinary st data)).
Proof.
  intros Hst Hb Hl. unfold _bson_as_json_visit_binary. cbn [assert_ptr mbind outcome_bind].
  pose proof (zlen_b64_text data) as Ht. pose proof (zlen_nonneg data). set (n := (zlen data / 3 + 1) * 4 + 1).
  assert (Hn : zlen (b64_text data) < n /\ n < 2 ^ 63) by (rewrite Ht; subst n; euclid).
  destruct (b64_ntop_spec post data (replicate (Z.to_nat n) 0) n) as [rest E]; [done | lia | rewrite zlen_replicate; lia | lia |].
  rewrite E. cbn [mbind outcome_bind leaf_text]. pose proof (plain_no_nul _ (b64_text_plain data Hb)). pose proof (plain_no_nul _ (hex2_plain st Hst)).
  destruct m; by_pieces; pieces; done.
Qed.

Lemma visits_date n : int64_range n -> (relaxed_mode m = true -> 0 <= n -> n < 253402300800000) ->
  visits m (_bson_as_json_visit_date_time n) (leaf_text m (VDateTime n)).
Proof.
  unfold int64_range. intros Hn Hr. unfold _bson_as_json_visit_date_time. cbn [leaf_text]. unfold canonical_mode, relaxed_mode in *.
  pose proof (plain_no_nul _ (fmt_d_plain n ltac:(lia))). destruct m; cbn [is_mode orb andb] in *; cbv iota.
  - by_pieces. by pieces.
  - by_pieces. by pieces.
  - destruct (n <? 0) eqn:E; bool_hyps; [by_pieces; by pieces|]. by_pieces. apply prints_seq; [by apply prints_lit|].
    apply (prints_str (fun str => _bson_iso8601_date_format n str) (fun st => emit_lit st _)); [|by apply prints_lit].
    intros str t Hs Ht. apply date_printed; [done | pose proof (zlen_nonneg (date_string n)); lia | lia].
Qed.

Lemma visits_regex r opts post post' : scalar_text false r -> no_nul opts ->
  visits m (_bson_as_json_visit_regex (r ++ 0 :: post) (Some (opts ++ 0 :: post'))) (leaf_text m (VRegex r opts)).
Proof.
  intros Hs Ho. cbn [leaf_text]. apply (visits_escaped false); [done | split; [done | by apply scalar_no_nul] | destruct (extended m); zl |].
  intros slack. cbn [assert_ptr mbind outcome_bind]. pose proof (escaped_no_nul false r Hs).
  assert (Hopt : forall g y, prints g y -> prints (fun s => str ← _bson_append_regex_options_sorted (j_str s) (opts ++ 0 :: post'); g (set_str s str)) (regex_options opts ++ y)).
  { intros g y Hg. apply (prints_str (fun str => _bson_append_regex_options_sorted str (opts ++ 0 :: post'))); [|done].
    intros str t Hstr Ht. apply options_printed; [done | done | pose proof (zlen_nonneg (regex_options opts)); lia]. }
  destruct m; by_pieces; (apply prints_seq; [by apply prints_lit|]); (apply prints_seq; [by apply prints_text|]);
    (apply prints_seq; [by apply prints_lit|]); apply (Hopt (fun st => emit_lit st _)); by apply prints_lit.
Qed.

Lemma visits_timestamp t i : uint_range 32 t -> uint_range 32 i -> visits m (_bson_as_json_visit_timestamp t i) (leaf_text m (VTimestamp t i)).
Proof.
  unfold uint_range. intros Ht Hi. by_pieces. cbn [leaf_text]. pieces; apply plain_no_nul, fmt_u_plain; lia.
Qed.

Lemma visits_dbpointer c oid len post : scalar_text false c -> zlen oid = 12 -> Forall is_byte oid ->
  visits m (_bson_as_json_visit_dbpointer len (c ++ 0 :: post) (Some oid)) (leaf_text m (VDbPointer c oid)).
Proof.
  intros Hs Hl Hb. cbn [leaf_text]. apply (visits_escaped false); [done | split; [done | by apply scalar_no_nul] | destruct (extended m); zl |].
  intros slack. pose proof (escaped_no_nul false c Hs). pose proof (plain_no_nul _ (hex_of_plain oid Hb)).
  rewrite to_string_spec by (split; [unfold zlen in Hl; lia | done]). cbn [mbind outcome_bind].
  destruct m; by_pieces; pieces; done.
Qed.
End Leaf.

(** ** The text has no NUL *)

Create HintDb text.
#[local] Hint Resolve fmt_d_plain fmt_u_plain hex2_plain hex_of_plain b64_text_plain options_plain escaped_no_nul plain_no_nul : text.

Lemma no_nul_both s t : no_nul s -> no_nul t -> no_nul (s ++ t).
Proof. intros. by apply Forall_app. Qed.

Ltac all_text := repeat apply no_nul_both; first [apply lit_no_nul; reflexivity | done | solve [eauto with text]].

Lemma plain_both s t : plain_text s -> plain_text t -> plain_text (s ++ t).
Proof. intros. by apply Forall_app. Qed.

Lemma strftime_plain tm :
  1970 <= tm_year tm + 1900 <= 9999 -> 0 <= tm_mon tm < 12 -> 1 <= tm_mday tm <= 31 -> 0 <= tm_hour tm < 24 ->
  0 <= tm_min tm < 60 -> 0 <= tm_sec tm < 60 -> plain_text (strftime tm).
Proof.
  intros. unfold strftime. assert (Hf : forall l n v, field l n v -> plain_text l) by (intros l n v [Hd _]; by apply digits_plain).
  repeat match goal with |- plain_text (_ ++ _) => apply plain_both end; try (apply Forall_cons_2; [vm_compute; repeat split; discriminate | apply Forall_nil_2]);
    first [eapply Hf, two_field; lia | eapply Hf, year_field; lia].
Qed.

Lemma date_string_plain n : 0 <= n < 253402300800000 -> plain_text (date_string n).
Proof.
  intros Hn. unfold date_string.
  assert (Z.rem n 1000 = n mod 1000) as -> by (apply Z.rem_mod_nonneg; lia). pose proof (Z.mod_pos_bound n 1000 ltac:(lia)) as Hms.
  destruct (gmtsub_correct (Z.quot n 1000)) as (r & -> & B); [unfold INT64_MIN, INT64_MAX; euclid|].
  destruct r as [o|tm]; cbn [broken_down] in B; [constructor|]. destruct B as (V & E & _).
  destruct (tm_ranges tm V ltac:(rewrite E; euclid)) as (Ry & Rmo & Rd). destruct V as (_ & Rh & Rmi & Rs).
  apply plain_both; [by apply strftime_plain|]. apply plain_both; [|repeat constructor; discriminate].
  destruct (n mod 1000 =? 0); [constructor|]. apply plain_both; [repeat constructor; discriminate|].
  apply plain_both; [apply Forall_replicate; unfold plain_char; lia | apply fmt_d_plain; lia].
Qed.

Lemma double_text_no_nul m d : uint_range 64 d -> no_nul (double_text m d).
Proof.
  intros Hd. pose proof (plain_no_nul _ (double_chars d Hd)). unfold double_text.
  assert (Hn : no_nul (fmt_g20 d ++ (if digits_only_text (fmt_g20 d) then lit ".0" else []))).
  { apply Forall_app. split; [done|]. destruct (digits_only_text _); [by apply lit_no_nul | apply Forall_nil_2]. }
  destruct (_ || _); [done|]. apply Forall_app. split; [by apply lit_no_nul|]. apply Forall_app. split; [|by apply lit_no_nul].
  destruct (is_nan d); [by apply lit_no_nul|]. destruct (not_finite d); [destruct (dbl_positive d); by apply lit_no_nul | done].
Qed.

Lemma leaf_text_no_nul m v : leaf_ok v -> printable m v -> no_nul (leaf_text m v).
Proof.
  intros Hok Hp. destruct Hp as [| | |v Hp]; [apply Forall_nil_2..|]. destruct v; try done; cbn [leaf_text leaf_ok] in *; unfold quoted.
  - by apply double_text_no_nul.
  - all_text.
  - destruct Hok. destruct (extended m); all_text.
  - all_text.
  - destruct Hok. all_text.
  - destruct b; by apply lit_no_nul.
  - unfold int64_range in Hok. destruct (canonical_mode m || _) eqn:E; [all_text|]. destruct (relaxed_mode m) eqn:Er; [|all_text].
    apply orb_false_iff in E as [_ E]. cbn [andb] in E. bool_hyps. repeat (apply Forall_app; split); try (by apply lit_no_nul).
    apply plain_no_nul, date_string_plain. auto.
  - by apply lit_no_nul.
  - destruct (extended m); all_text.
  - destruct Hok as (_ & _ & _ & Hb). destruct (extended m); all_text.
  - all_text.
  - destruct (extended m); all_text.
  - unfold int32_range in Hok. assert (no_nul (fmt_d n)) by (apply plain_no_nul, fmt_d_plain; lia). destruct (canonical_mode m); all_text.
  - unfold uint_range in Hok. assert (no_nul (fmt_u timestamp) /\ no_nul (fmt_u increment)) as [? ?] by (split; apply plain_no_nul, fmt_u_plain; lia). all_text.
  - unfold int64_range in Hok. assert (no_nul (fmt_d n)) by (apply plain_no_nul, fmt_d_plain; lia). destruct (canonical_mode m); all_text.
  - destruct (decimal_printed _ Hp) as [_ Hc]. all_text.
  - by apply lit_no_nul.
  - by apply lit_no_nul.
Qed.

Lemma separated_no_nul texts : Forall no_nul texts -> no_nul (separated texts).
Proof.
  induction 1 as [|t texts Ht H IH]; [apply Forall_nil_2|]. cbn [separated]. destruct texts; [done|].
  apply Forall_app. split; [done|]. apply Forall_app. split; [by apply lit_no_nul | done].
Qed.

Lemma key_text_no_nul keys k : scalar_text false k -> no_nul (key_text keys k).
Proof. intros Hk. unfold key_text, quoted. destruct keys; [all_text | apply Forall_nil_2]. Qed.

(** What is to be shown of the members holds of the list. *)
Lemma members_no_nul m depth keys els :
  Forall (fun kv => forall depth, value_ok kv.2 -> printable m kv.2 -> no_nul (json_value m depth kv.2)) els ->
  elems_ok els -> printable_els m els -> no_nul (members m depth keys els).
Proof.
  intros H Hok Hp. apply separated_no_nul. induction H as [|[k v] els Hv _ IH]; [apply Forall_nil_2|].
  inversion_clear Hok as [|? ? ? _ Hvo Hels]. inversion_clear Hp as [|? ? ? Hk Hvp Helsp]. cbn [map snd] in *.
  apply Forall_cons_2; [|by apply IH]. apply Forall_app. split; [by apply key_text_no_nul | by apply Hv].
Qed.

Lemma bracketed_no_nul opening closing x : clean opening = true -> clean closing = true -> no_nul x -> no_nul (lit opening ++ x ++ lit closing).
Proof. intros. repeat apply no_nul_both; first [done | by apply lit_no_nul]. Qed.

Lemma json_value_no_nul m v : forall depth, value_ok v -> printable m v -> no_nul (json_value m depth v).
Proof.
  revert v. apply (value_ind' (fun v => forall depth, value_ok v -> printable m v -> no_nul (json_value m depth v)));
    [intros els IH depth Hok Hp | intros els IH depth Hok Hp | intros js els IH depth Hok Hp | ].
  - inversion Hok; subst; [done|]. inversion Hp; subst; [|done]. cbn [json_value].
    destruct (depth >=? BSON_MAX_RECURSION); [by apply lit_no_nul|]. apply bracketed_no_nul; [done..|]. by apply members_no_nul.
  - inversion Hok; subst; [done|]. inversion Hp; subst; [|done]. cbn [json_value].
    destruct (depth >=? BSON_MAX_RECURSION); [by apply lit_no_nul|]. apply bracketed_no_nul; [done..|]. by apply members_no_nul.
  - inversion Hok; subst; [done|]. inversion Hp; subst; [|done]. cbn [json_value].
    repeat apply no_nul_both; try (by apply lit_no_nul); [by eapply escaped_no_nul|].
    destruct els as [|kv els]; [by apply lit_no_nul|]. apply bracketed_no_nul; [done..|]. by apply (members_no_nul m 0 true (kv :: els)).
  - intros v. destruct v; try done; intros depth Hok Hp; inversion Hok; subst; by apply leaf_text_no_nul.
Qed.

Lemma json_text_no_nul m els : elems_ok els -> printable_els m els -> no_nul (json_text m els).
Proof.
  intros Hok Hp. unfold json_text. destruct els as [|kv els]; [by apply lit_no_nul|]. apply bracketed_no_nul; [done..|].
  apply members_no_nul; [|done..]. apply Forall_true. intros kv' depth. apply json_value_no_nul.
Qed.
