(* ===== verification/JsonPrint.v ===== *)
(** * Documents are printed as their JSON text

    The visitors of [Json] on the encoding of a document: element by element,
    the loop over the elements, and the nesting of documents and scopes. *)
From stdpp Require Import strings.
From S2P Require Import Prelude Memory Utf8 Strings Format Document Append Lifecycle Iter IterSafe Find Values Numbers Oid Dates Calendar Timegm Iso8601 DateText Decimal128 DecimalText RoundTrip Visit Validate Base64 Printf Json JsonText.
#[local] Open Scope Z_scope.

(** A visitor that prints [x] at depth [depth]. *)
Definition visits_at (m : bson_json_mode_t) (depth : Z) (f : bson_json_state_t -> visit_result) (x : bytes) : Prop :=
  forall s t, j_mode s = m -> j_depth s = depth -> srep (j_str s) t -> zlen t + zlen x <= room ->
  exists str, f s = Ret (false, set_str s str) /\ srep str (t ++ x).

Lemma visits_any m depth f x : visits m f x -> visits_at m depth f x.
Proof. intros H s t Hm _. by apply H. Qed.

(** The static document of the elements [els] in a buffer that goes on with [R]. *)
Definition doc_in (els : list (bytes * value)) (R : bytes) : static_doc := mk_static (encode_doc els ++ R) (zlen (encode_doc els)).

(** What the loop needs of the visitors of nested documents and scopes. *)
Definition nested_prints (m : bson_json_mode_t) (nested : nested_visitor) (els : list (bytes * value)) (text : Z -> bytes) : Prop :=
  forall R depth, zlen (encode_doc els) <= INT_MAX -> visits_at m depth (nested (doc_in els R)) (text depth).

Definition scope_prints (m : bson_json_mode_t) (scope_json : static_doc -> bson_json_mode_t -> outcome (option bytes * Z))
    (els : list (bytes * value)) : Prop :=
  forall R, zlen (encode_doc els) <= INT_MAX -> zlen (json_text m els) <= room ->
  exists slack, scope_json (doc_in els R) m = Ret (Some (json_text m els ++ 0 :: slack), zlen (json_text m els)).

(** ** One element *)

Section Elem.
Context (m : bson_json_mode_t) (document array : nested_visitor) (scope_json : static_doc -> bson_json_mode_t -> outcome (option bytes * Z)).
Let V := bson_as_json_visitors document array scope_json.
Context (P Q : bytes) (len off : Z) (k : bytes) (v : value).
Let data := P ++ encode_value v ++ Q.
Let it := at_elem data len off k v.
Context (HP : zlen P = off + 2 + zlen k) (Ht : rd data off = Ret (type_of v)) (Hoff : 0 < off).
Context (Hl : off + 2 + zlen k + zlen (encode_value v) < len) (Hm : len <= INT_MAX).

(** [visit_value] on the element prints [x]. *)
Definition elem_prints (depth : Z) (w : value) (key x : bytes) : Prop :=
  forall s t, j_mode s = m -> j_depth s = depth -> srep (j_str s) t -> zlen t + zlen x <= room ->
  exists str, visit_value V it key (type_of w) s = Ret (false, it, set_str s str) /\ srep str (t ++ x).

Lemma elem_plain depth w key f x :
  (forall s, visit_value V it key (type_of w) s = ('(stop, s) ← f s; Ret (stop, it, s))) -> visits_at m depth f x -> elem_prints depth w key x.
Proof.
  intros E Hf s t Hms Hd Hs Hr. destruct (Hf s t Hms Hd Hs Hr) as (str & E' & Hs'). exists str. by rewrite E, E'.
Qed.

Lemma text_small (s : bytes) : zlen s <= zlen (encode_value v) -> zlen s < 2 ^ 32.
Proof using Hl Hm Hoff. intros. unfold INT_MAX in Hm. pose proof (zlen_nonneg k). lia. Qed.

Lemma key_ptr : exists r, bson_iter_key_unsafe it = Ret r.
Proof using HP Hoff.
  unfold bson_iter_key_unsafe, raw_of. cbn [it at_elem i_raw i_key mbind outcome_bind]. unfold at_off.
  pose proof (zlen_nonneg k). pose proof (zlen_nonneg (encode_value v ++ Q)).
  assert (Hz : zlen data = zlen P + zlen (encode_value v ++ Q)) by apply zlen_app. rewrite rdn_ret by lia. by eexists.
Qed.

Lemma int64_read n : (v = VInt64 n -> int64_range n -> bson_iter_int64 it = Ret n) /\
  (v = VDateTime n -> int64_range n -> bson_iter_date_time it = Ret n).
Proof using HP Ht.
  split; intros Ev Hn; [unfold bson_iter_int64 | unfold bson_iter_date_time]; unfold it, data;
    rewrite (is_enc P Q len off k v Ht), Ev at 1; cbn [mbind outcome_bind type_of]; rewrite Z.eqb_refl;
    rewrite (int64_enc P Q len off k v HP n) by (done || by rewrite Ev); done.
Qed.

(** An element with text: the visitor is called after the check. *)
Lemma elem_checked depth w key s post n f x :
  zlen s <= zlen (encode_value v) -> Forall is_byte s -> utf8_string true s -> n = zlen s ->
  (forall st, visit_value V it key (type_of w) st = checked_utf8 it (s ++ 0 :: post) n (f st) st) ->
  visits_at m depth f x -> elem_prints depth w key x.
Proof using Hl Hm Hoff.
  intros Hz Hb Hu -> E Hf. apply (elem_plain depth w key f); [|done]. intros st. rewrite E. apply checked_valid; [done | by apply text_small | done].
Qed.

(** Reduce the table to the visitor of the type. *)
Ltac of_type := intros; unfold visit_value; cbn zeta; cbn [type_of]; tests;
  cbn [V bson_as_json_visitors VISIT_FIELD visit_double visit_utf8 visit_binary visit_undefined visit_oid visit_bool visit_date_time
    visit_null visit_regex visit_dbpointer visit_code visit_symbol visit_codewscope visit_int32 visit_timestamp visit_int64
    visit_maxkey visit_minkey visit_decimal128 visit_document visit_array].

(** The types with text. *)
Definition has_text (w : value) : bool :=
  match w with VUtf8 _ | VRegex _ _ | VDbPointer _ _ | VCode _ | VSymbol _ => true | _ => false end.

Lemma elem_text depth w key :
  v = w -> has_text w = true -> leaf_ok w -> printable m w -> elem_prints depth w key (leaf_text m w).
Proof using HP Ht Hoff Hl Hm.
  intros Ev Hw Hok Hp. destruct Hp as [| | |w Hte]; [done..|]. destruct w; try done; cbn [leaf_ok] in Hok.
  - apply (elem_checked depth _ _ s Q (zlen s) (_bson_as_json_visit_utf8 (zlen s) (s ++ 0 :: Q))); [| done | by apply scalar_utf8 | done | | by apply visits_any, visits_utf8].
    + rewrite Ev. cbn [encode_value]. rewrite zlen_string_bytes. lia.
    + of_type. unfold bson_iter_utf8, it, data. rewrite (string_enc P Q len off k v HP Ht Hl Hm s BSON_TYPE_UTF8) by (by rewrite Ev). done.
  - destruct Hok as (Hr & Ho & B1 & B2). destruct (regex_enc P Q len off k v HP Ht _ _ Ev) as [q E]. fold data it in E.
    apply (elem_checked depth _ _ regex (options ++ 0 :: q) (zlen regex) (_bson_as_json_visit_regex (regex ++ 0 :: options ++ 0 :: q) (Some (options ++ 0 :: q))));
      [| done | by apply scalar_utf8, scalar_weaken | done | | by apply visits_any, visits_regex].
    + rewrite Ev. cbn [encode_value]. rewrite !zlen_app. zl.
    + of_type. rewrite E. cbn [mbind outcome_bind assert_ptr]. by rewrite strlen_cstr by done.
  - destruct Hok as (Hc & B1 & Ho & B2). destruct (dbpointer_enc P Q len off k v HP Ht Hl Hm _ _ Ev Ho) as [q E]. fold data it in E.
    apply (elem_checked depth _ _ collection q (zlen collection) (_bson_as_json_visit_dbpointer (zlen collection) (collection ++ 0 :: q) (Some oid)));
      [| done | by apply scalar_utf8, scalar_weaken | done | | by apply visits_any, visits_dbpointer].
    + rewrite Ev. cbn [encode_value]. rewrite zlen_app, zlen_string_bytes. zl.
    + of_type. by rewrite E.
  - destruct Hok as [_ B]. apply (elem_checked depth _ _ js Q (zlen js) (_bson_as_json_visit_code (zlen js) (js ++ 0 :: Q)));
      [| done | by apply scalar_utf8, scalar_weaken | done | | by apply visits_any, visits_code, scalar_weaken].
    + rewrite Ev. cbn [encode_value]. rewrite zlen_string_bytes. lia.
    + of_type. unfold bson_iter_code, it, data. by rewrite (string_enc P Q len off k v HP Ht Hl Hm js BSON_TYPE_CODE) by (by rewrite Ev).
  - apply (elem_checked depth _ _ s Q (zlen s) (_bson_as_json_visit_symbol (zlen s) (s ++ 0 :: Q)));
      [| done | by apply scalar_utf8 | done | | by apply visits_any, visits_symbol].
    + rewrite Ev. cbn [encode_value]. rewrite zlen_string_bytes. lia.
    + of_type. unfold bson_iter_symbol, it, data. by rewrite (string_enc P Q len off k v HP Ht Hl Hm s BSON_TYPE_SYMBOL) by (by rewrite Ev).
Qed.

Lemma elem_leaf depth w key :
  v = w -> match w with VDocument _ | VArray _ | VCodeWScope _ _ => False | _ => has_text w = false end ->
  leaf_ok w -> printable m w -> elem_prints depth w key (leaf_text m w).
Proof using HP Ht Hoff Hl Hm.
  intros Ev Hw Hok Hp. destruct Hp as [| | |w Hte]; [done..|]. pose proof key_ptr as [kp Hkp].
  destruct w; try done; cbn [leaf_ok] in Hok.
  - apply (elem_plain depth _ _ (_bson_as_json_visit_double bits)); [|by apply visits_any, visits_double].
    of_type. unfold it, data. by rewrite (double_enc P Q len off k v HP Ht _ Ev Hok).
  - destruct Hok as [Hst Hb]. destruct (binary_enc P Q len off k v HP Ht Hl Hm _ _ Ev Hst) as [r E]. fold data it in E.
    apply (elem_plain depth _ _ (_bson_as_json_visit_binary subtype (zlen data0) (Some (data0 ++ r)))); [of_type; by rewrite E|].
    apply visits_any, visits_binary; [done..|]. apply (Z.le_lt_trans _ INT_MAX); [|done].
    rewrite Ev in Hl. cbn [encode_value] in Hl. pose proof (zlen_nonneg k). unfold binary_bytes in Hl. destruct (subtype =? _); autorewrite with zlen in Hl; lia.
  - apply (elem_plain depth _ _ _bson_as_json_visit_undefined); [by of_type|]. apply visits_any. by_pieces. by apply prints_lit.
  - destruct Hok as [Ho Hb]. apply (elem_plain depth _ _ (_bson_as_json_visit_oid (Some oid))); [|by apply visits_any, visits_oid].
    of_type. unfold it, data. by rewrite (oid_enc P Q len off k v HP Ht _ Ev Ho).
  - apply (elem_plain depth _ _ (_bson_as_json_visit_bool b)); [of_type; unfold it, data; by rewrite (bool_enc P Q len off k v HP Ht _ Ev)|].
    apply visits_any. by_pieces. by destruct b; apply prints_lit.
  - apply (elem_plain depth _ _ (_bson_as_json_visit_date_time msec)); [|by apply visits_any, visits_date].
    of_type. by rewrite (proj2 (int64_read msec) Ev Hok).
  - apply (elem_plain depth _ _ _bson_as_json_visit_null); [by of_type|]. apply visits_any. by_pieces. by apply prints_lit.
  - apply (elem_plain depth _ _ (_bson_as_json_visit_int32 n)); [|by apply visits_any, visits_int32].
    of_type. unfold it, data. by rewrite (int32_enc P Q len off k v HP Ht _ Ev Hok).
  - destruct Hok as [H1 H2]. apply (elem_plain depth _ _ (_bson_as_json_visit_timestamp timestamp increment)); [|by apply visits_any, visits_timestamp].
    of_type. unfold it, data. by rewrite (timestamp_enc P Q len off k v HP Ht _ _ Ev H1 H2).
  - apply (elem_plain depth _ _ (_bson_as_json_visit_int64 n)); [|by apply visits_any, visits_int64].
    of_type. by rewrite (proj1 (int64_read n) Ev Hok).
  - destruct Hok as [H1 H2]. apply (elem_plain depth _ _ (_bson_as_json_visit_decimal128 (mk_dec128 low high))); [|by apply visits_any, visits_decimal].
    of_type. unfold it, data. by rewrite (decimal_enc P Q len off k v HP Ht _ _ Ev H1 H2).
  - apply (elem_plain depth _ _ _bson_as_json_visit_maxkey); [of_type; by rewrite Hkp|]. apply visits_any. by_pieces. by apply prints_lit.
  - apply (elem_plain depth _ _ _bson_as_json_visit_minkey); [of_type; by rewrite Hkp|]. apply visits_any. by_pieces. by apply prints_lit.
Qed.
Lemma elem_nested depth key els :
  (v = VDocument els -> nested_prints m document els (fun d => json_value m d (VDocument els))) ->
  (v = VArray els -> nested_prints m array els (fun d => json_value m d (VArray els))) ->
  v = VDocument els \/ v = VArray els -> elem_prints depth v key (json_value m depth v).
Proof using HP Ht Hoff Hl Hm.
  intros Hdoc Harr Ev. pose proof (zlen_nonneg k).
  assert (Ee : encode_value v = encode_doc els) by (destruct Ev as [Ev|Ev]; rewrite Ev; [apply encode_document | apply encode_array]).
  assert (Hz : zlen (encode_doc els) <= INT_MAX) by (rewrite <- Ee; lia).
  assert (E1 : d1_of v (off + 2 + zlen k) = off + 2 + zlen k) by (destruct Ev as [Ev|Ev]; by rewrite Ev).
  assert (Ed : iter_doc (type_of v) it = Ret (zlen (encode_doc els), Some (encode_doc els ++ Q))).
  { unfold it, data. rewrite (doc_enc P Q len off k v HP Ht Hl Hm (encode_body els) (type_of v)) by done.
    unfold encode_doc at 1. by rewrite zlen_doc_bytes. }
  destruct Ev as [Ev|Ev].
  - apply (elem_plain depth _ _ (document (doc_in els Q))); [|rewrite Ev; by apply Hdoc].
    intros st. rewrite Ev in Ed |- *. unfold visit_value, bson_iter_document. cbn zeta. cbn [type_of] in *. tests. rewrite Ed. cbn [mbind outcome_bind].
    unfold visit_static. by rewrite init_static_enc.
  - apply (elem_plain depth _ _ (array (doc_in els Q))); [|rewrite Ev; by apply Harr].
    intros st. rewrite Ev in Ed |- *. unfold visit_value, bson_iter_array. cbn zeta. cbn [type_of] in *. tests. rewrite Ed. cbn [mbind outcome_bind].
    unfold visit_static. by rewrite init_static_enc.
Qed.

Lemma visits_codewscope js els post R :
  scalar_text true js -> no_nul (json_text m els) -> zlen (encode_doc els) <= INT_MAX -> scope_prints m scope_json els ->
  visits m (_bson_as_json_visit_codewscope scope_json (zlen js) (js ++ 0 :: post) (doc_in els R)) (json_value m 0 (VCodeWScope js els)).
Proof.
  intros Hs Hn Hz Hsc. change (json_value m 0 (VCodeWScope js els))
    with (lit "{ '$code' : '" ++ json_escape js ++ lit "', '$scope' : " ++ json_text m els ++ lit " }").
  apply (visits_escaped m true); [done | done | zl |]. intros slack st t Hms Hst Hr. rewrite Hms.
  destruct (Hsc R Hz) as [slack' ->]; [pose proof (zlen_nonneg t); zl|].
  cbn [mbind outcome_bind]. revert st t Hms Hst Hr.
  change (visits m (fun state => done_visit (
            state ← emit_lit state "{ '$code' : '"; state ← emit state (json_escape js ++ 0 :: slack);
            state ← emit_lit state "', '$scope' : "; state ← emit state (json_text m els ++ 0 :: slack'); emit_lit state " }"))
    (lit "{ '$code' : '" ++ json_escape js ++ lit "', '$scope' : " ++ json_text m els ++ lit " }")).
  by_pieces. pieces; [by eapply escaped_no_nul | done].
Qed.

Lemma elem_scope depth key js els :
  v = VCodeWScope js els -> value_ok v -> printable m v -> scope_prints m scope_json els -> elem_prints depth v key (json_value m depth v).
Proof using HP Ht Hoff Hl Hm.
  intros Ev Hok Hp Hsc. rewrite Ev in Hok, Hp |- *. inversion Hok as [| | |? ? [Hn Hb] Hels]; subst; [done|]. inversion Hp as [| |? ? Hs Hpe|]; subst; [|done].
  destruct (codewscope_enc P Q len off k v HP Ht Hl Hm js els Ev) as [r E]. fold data it in E.
  assert (Hz : zlen js <= zlen (encode_value v) /\ zlen (encode_doc els) <= zlen (encode_value v)).
  { rewrite Ev, encode_codewscope, !zlen_app, zlen_string_bytes. pose proof (zlen_nonneg js). pose proof (zlen_nonneg (encode_doc els)).
    rewrite zlen_le_bytes. lia. }
  assert (Hd : zlen (encode_doc els) <= INT_MAX) by (pose proof (zlen_nonneg k); lia).
  apply (elem_checked depth _ key js r (zlen js) (_bson_as_json_visit_codewscope scope_json (zlen js) (js ++ 0 :: r) (doc_in els Q)));
    [apply Hz | done | by apply scalar_utf8, scalar_weaken | done | |].
  - of_type. rewrite E. cbn [mbind outcome_bind assert_ptr]. unfold visit_static. by rewrite init_static_enc.
  - apply visits_any, visits_codewscope; [by apply scalar_weaken | by apply json_text_no_nul | done | done].
Qed.

(** What the nested documents of a value ask for. *)
Definition nested_ok (w : value) : Prop :=
  match w with
  | VDocument els => nested_prints m document els (fun d => json_value m d (VDocument els))
  | VArray els => nested_prints m array els (fun d => json_value m d (VArray els))
  | VCodeWScope _ els => scope_prints m scope_json els
  | _ => True
  end.

Lemma elem_printed depth key : value_ok v -> printable m v -> nested_ok v -> elem_prints depth v key (json_value m depth v).
Proof using HP Ht Hoff Hl Hm.
  intros Hok Hp Hn.
  assert (H : forall w, v = w -> value_ok w -> printable m w -> nested_ok w -> elem_prints depth w key (json_value m depth w)); [|by apply H].
  clear Hok Hp Hn. intros w Ev Hok Hp Hn. destruct w as [| |els|els| | | | | | | | | | |js els| | | | | |].
  3: rewrite <- Ev; apply (elem_nested depth key els); intros; [done | congruence | by left].
  3: rewrite <- Ev; apply (elem_nested depth key els); intros; [congruence | done | by right].
  13: rewrite <- Ev in Hok, Hp |- *; by apply (elem_scope depth key js els).
  all: inversion Hok; subst; first [by apply elem_leaf | by apply elem_text].
Qed.
End Elem.

(** ** The elements of a document *)

(** The members as the loop prints them: a comma in front of all but the first. *)
Fixpoint printed (m : bson_json_mode_t) (depth : Z) (keys first : bool) (els : list (bytes * value)) : bytes :=
  match els with
  | [] => []
  | (k, v) :: els => ((if first then [] else lit ", ") ++ key_text keys k) ++ json_value m depth v ++ printed m depth keys false els
  end.

Lemma printed_members m depth keys els : printed m depth keys true els = members m depth keys els.
Proof.
  unfold members. assert (H : forall els, printed m depth keys false els =
    match els with [] => [] | _ => lit ", " ++ separated (map (fun '(k, v) => key_text keys k ++ json_value m depth v) els) end).
  { clear els. induction els as [|[k v] els IH]; [done|]. cbn [printed map separated]. rewrite IH. destruct els; cbn [map].
    - by rewrite app_nil_r, <- app_assoc.
    - by rewrite <- !app_assoc. }
  destruct els as [|[k v] els]; [done|]. cbn [printed map separated app]. rewrite H. destruct els; cbn [map].
  - by rewrite app_nil_r.
  - by rewrite <- app_assoc.
Qed.

Lemma key_printed k slack s t : no_nul (json_escape k) -> srep (j_str s) t -> zlen t + zlen (key_text true k) <= room ->
  exists str, (state ← emit_lit s "'"; state ← emit state (json_escape k ++ 0 :: slack); state ← emit_lit state "' : "; Ret (false, count_one state))
    = Ret (false, count_one (set_str s str)) /\ srep str (t ++ key_text true k).
Proof.
  intros Hn Hs Hr. assert (E : key_text true k = lit "'" ++ json_escape k ++ lit "' : ") by (unfold key_text, quoted; by rewrite <- !app_assoc).
  rewrite E in *. assert (Hp : prints (fun s => state ← emit_lit s "'"; state ← emit state (json_escape k ++ 0 :: slack); emit_lit state "' : ")
    (lit "'" ++ json_escape k ++ lit "' : ")) by (by pieces).
  destruct (Hp s t Hs Hr) as (str & Ep & Hs'). exists str. split; [|done]. revert Ep.
  destruct (emit_lit s "'") as [s1| | |]; cbn [mbind outcome_bind]; try done. destruct (emit s1 _) as [s2| | |]; cbn [mbind outcome_bind]; try done.
  by intros ->.
Qed.

Lemma before_printed k post s t : scalar_text false k -> srep (j_str s) t ->
  let x := (if j_count s =? 0 then [] else lit ", ") ++ key_text (j_keys s) k in zlen t + zlen x <= room ->
  exists str, _bson_as_json_visit_before (k ++ 0 :: post) s = Ret (false, count_one (set_str s str)) /\ srep str (t ++ x).
Proof.
  intros Hk Hs x Hr. unfold x in *. rewrite zlen_app in Hr. pose proof (zlen_nonneg (key_text (j_keys s) k)). unfold _bson_as_json_visit_before.
  assert (Hc : exists str, (if negb (j_count s =? 0) then emit_lit s ", " else Ret s) = Ret (set_str s str) /\
    srep str (t ++ (if j_count s =? 0 then [] else lit ", "))).
  { destruct (j_count s =? 0); cbn [negb]; [apply prints_nothing; done || lia | apply prints_lit; done || lia]. }
  destruct Hc as (str & -> & Hs1). cbn [mbind outcome_bind]. rewrite app_assoc. destruct s as [n keys e d str0 m]. cbn [set_str j_keys] in *.
  destruct keys.
  - destruct (escape_spec false k post (-1) Hk) as [slack ->].
    { unfold key_text, quoted, room in *. autorewrite with zlen in *. pose proof (zlen_nonneg t). zl. }
    { split; [done | by apply scalar_no_nul]. }
    cbn [mbind outcome_bind]. destruct (key_printed k slack (mk_json n true e d str m) _ (escaped_no_nul _ _ Hk) Hs1) as (str' & E & Hs2).
    + rewrite zlen_app. cbn [j_count] in *. lia.
    + exists str'. split; [exact E | exact Hs2].
  - exists str. split; [done|]. by rewrite app_nil_r.
Qed.

(** At the end of the document the iterator is closed. *)
Lemma next_closes it p c Q :
  i_raw it = Some (p ++ c :: Q) -> i_next_off it = zlen p -> i_len it = zlen p + 1 -> zlen p < INT_MAX ->
  exists r, _bson_iter_next_internal it = Ret r /\ n_ok r = false /\ i_err_off (n_iter r) = i_err_off it /\ i_raw (n_iter r) = None.
Proof.
  intros Hr Hn Hl Hm. unfold INT_MAX in *. pose proof (zlen_nonneg p).
  unfold _bson_iter_next_internal. rewrite Hr, Hn, Hl. cbn zeta. rewrite u32_id by lia.
  rewrite Z.sub_diag. cbn. eauto.
Qed.

Section Loop.
Context (m : bson_json_mode_t) (document array : nested_visitor) (scope_json : static_doc -> bson_json_mode_t -> outcome (option bytes * Z)).
Let V := bson_as_json_visitors document array scope_json.

(** The loop goes on to the end and appends [x]. *)
Definition loop_prints (s : bson_json_state_t) (t x : bytes) (r : outcome (bool * bson_iter_t * bson_json_state_t)) : Prop :=
  exists it' n str, r = Ret (false, it', mk_json n (j_keys s) (j_err_offset s) (j_depth s) str (j_mode s)) /\ srep str (t ++ x) /\
    i_raw it' = None /\ i_err_off it' = 0.

Lemma loop_end n it p Q s t :
  i_raw it = Some (p ++ 0 :: Q) -> i_next_off it = zlen p -> i_len it = zlen p + 1 -> i_len it <= INT_MAX ->
  i_err_off it = 0 -> srep (j_str s) t -> loop_prints s t [] (visit_loop V (S n) it s).
Proof.
  intros Hr Hn Hl Hm He Hs. cbn [visit_loop].
  destruct (next_closes it p 0 Q Hr Hn Hl ltac:(lia)) as (r & -> & Eo & Ee & Er). cbn [mbind outcome_bind]. rewrite Eo. cbn [negb].
  unfold visit_end. rewrite Ee, He. cbn [Z.eqb]. eexists _, (j_count s), (j_str s). split; [destruct s; reflexivity|]. rewrite app_nil_r, Ee. done.
Qed.

Lemma loop_printed els :
  elems_ok els -> printable_els m els -> Forall (fun kv => nested_ok m document array scope_json kv.2) els -> forall n it p Q s t,
  i_raw it = Some (p ++ encode_body els ++ 0 :: Q) -> i_next_off it = zlen p -> 4 <= zlen p ->
  i_len it = zlen p + zlen (encode_body els) + 1 -> i_len it <= INT_MAX -> i_err_off it = 0 ->
  zlen (encode_body els) < Z.of_nat n -> 0 <= j_count s <= zlen p -> j_mode s = m -> srep (j_str s) t ->
  zlen t + zlen (printed m (j_depth s) (j_keys s) (j_count s =? 0) els) <= room ->
  loop_prints s t (printed m (j_depth s) (j_keys s) (j_count s =? 0) els) (visit_loop V n it s).
Proof.
  induction els as [|[k v] els IH]; intros Hok Hpr Hel n it p Q s t Hr Hn Hp Hl Hm He Hf Hc Hms Hs Hroom;
    (destruct n as [|n]; [match type of Hf with zlen ?l < _ => pose proof (zlen_nonneg l) end; lia|]).
  { change (encode_body []) with (@nil Z) in *. change (zlen (@nil Z)) with 0 in *. apply (loop_end n it p Q); done || lia. }
  inversion_clear Hok as [|? ? ? Hk Hv Hels]. inversion_clear Hpr as [|? ? ? Hpk Hpv Hpe]. inversion_clear Hel as [|? ? Hnest Hel'].
  rewrite encode_body_cons in *. rewrite zlen_app in *. rewrite <- app_assoc in *.
  set (rest := encode_body els ++ 0 :: Q) in *. pose proof (zlen_nonneg (encode_body els)). pose proof (zlen_nonneg Q).
  pose proof (zlen_nonneg k). pose proof (zlen_nonneg (encode_value v)).
  assert (Lel : zlen (encode_elem (k, v)) = zlen k + 2 + zlen (encode_value v))
    by (unfold encode_elem; rewrite zlen_app, zlen_elem_hdr; done).
  cbn [visit_loop]. rewrite (next_enc it p k v rest) by
    (done || lia || (apply Hk) || (by apply step_ok_value) || (unfold rest; rewrite !zlen_app, zlen_cons; lia)).
  cbn [mbind outcome_bind n_ok n_iter n_key n_type n_unsupported negb assert_ptr].
  set (data := p ++ encode_elem (k, v) ++ rest) in *. set (it1 := at_elem data (i_len it) (zlen p) k v).
  assert (Hz : zlen k < 2 ^ 32) by (unfold INT_MAX in Hm; lia).
  destruct (key_valid_spec k (encode_value v ++ rest) Hk Hz) as (b & -> & Hb). cbn [mbind outcome_bind].
  replace b with true by (symmetry; by apply Hb, scalar_utf8). clear b Hb. cbn [negb].
  cbn [printed] in *. rewrite !zlen_app in Hroom.
  pose proof (zlen_nonneg (json_value m (j_depth s) v)). pose proof (zlen_nonneg (printed m (j_depth s) (j_keys s) false els)).
  cbn [VISIT_FIELD V bson_as_json_visitors visit_before].
  destruct (before_printed k (encode_value v ++ rest) s t Hpk Hs) as (str1 & -> & Hs1); [rewrite zlen_app; lia|]. cbn [mbind outcome_bind].
  set (x1 := (if j_count s =? 0 then [] else lit ", ") ++ key_text (j_keys s) k) in *.
  set (P := p ++ elem_hdr (type_of v) k).
  assert (Ed : data = P ++ encode_value v ++ rest) by (unfold data, P, encode_elem; cbn [fst snd]; by rewrite <- !app_assoc).
  assert (Hty : rd data (zlen p) = Ret (type_of v)) by (unfold data, encode_elem, elem_hdr; cbn [fst snd app]; by apply rd_mid).
  assert (HP : zlen P = zlen p + 2 + zlen k) by (unfold P; rewrite zlen_app, zlen_elem_hdr; lia).
  rewrite Ed in Hty. destruct (elem_printed m document array scope_json P rest (i_len it) (zlen p) k v HP Hty ltac:(lia) ltac:(lia) Hm
    (j_depth s) (k ++ 0 :: encode_value v ++ rest) Hv Hpv Hnest (count_one (set_str s str1)) (t ++ x1)) as (str2 & E2 & Hs2); [done | done | done | rewrite zlen_app; unfold x1; rewrite zlen_app; lia |].
  rewrite <- Ed in E2. fold it1 V in E2. rewrite E2. cbn [mbind outcome_bind VISIT_FIELD V bson_as_json_visitors visit_after].
  destruct (IH Hels Hpe Hel' n it1 (p ++ encode_elem (k, v)) Q (set_str (count_one (set_str s str1)) str2) ((t ++ x1) ++ json_value m (j_depth s) v))
    as (it' & cnt & str & E & Hs3 & Hcl); cbn [it1 at_elem i_raw i_next_off i_len i_err_off set_str count_one j_mode j_keys j_depth j_str j_count]; try done; try (rewrite ?zlen_app; lia).
  - unfold data, rest. by rewrite <- app_assoc.
  - rewrite zlen_app. unfold INT_MAX in Hm. rewrite u32_id by lia. lia.
  - unfold INT_MAX in Hm. rewrite u32_id by lia. replace (j_count s + 1 =? 0) with false by lia. unfold x1. rewrite !zlen_app. lia.
  - cbn [set_str count_one j_mode j_keys j_depth j_str j_count j_err_offset] in E, Hs3. unfold INT_MAX in Hm.
    rewrite u32_id in Hs3 by lia. replace (j_count s + 1 =? 0) with false in Hs3 by lia.
    exists it', cnt, str. split; [exact E|]. split; [|exact Hcl]. by rewrite <- !app_assoc in *.
Qed.
End Loop.

(** ** Nested documents *)

(** The text of [bson_array_as_json]. *)
Definition array_text (els : list (bytes * value)) : bytes :=
  match els with [] => lit "[ ]" | _ => lit "[ " ++ members BSON_JSON_MODE_LEGACY 0 false els ++ lit " ]" end.

(** The parts of the table with fuel. *)
Definition json_document (fuel : nat) : nested_visitor :=
  match fuel with O => fun _ _ => Fuel | S fuel => _bson_as_json_visit_document (json_visitors fuel) end.
Definition json_array (fuel : nat) : nested_visitor :=
  match fuel with O => fun _ _ => Fuel | S fuel => _bson_as_json_visit_array (json_visitors fuel) end.
Definition json_scope (fuel : nat) : static_doc -> bson_json_mode_t -> outcome (option bytes * Z) :=
  match fuel with O => fun _ _ => Fuel | S fuel => json_of_document (json_visitors fuel) end.

Lemma json_visitors_parts fuel : json_visitors fuel = bson_as_json_visitors (json_document fuel) (json_array fuel) (json_scope fuel).
Proof. by destruct fuel. Qed.

Section Nested.
Context (m : bson_json_mode_t) (fuel : nat) (els : list (bytes * value)) (R : bytes).
Context (Hok : elems_ok els) (Hp : printable_els m els) (Hz : zlen (encode_doc els) <= INT_MAX).
Context (Hn : Forall (fun kv => nested_ok m (json_document fuel) (json_array fuel) (json_scope fuel) kv.2) els).

(** The visit of a whole document, from its first element. *)
Lemma doc_visited keys e depth str t :
  srep str t -> zlen t + zlen (members m depth keys els) <= room ->
  exists it' n str', bson_iter_visit_all (json_visitors fuel) (iter_start (encode_doc els ++ R) (zlen (encode_doc els))) (mk_json 0 keys e depth str m) =
    Ret (false, it', mk_json n keys e depth str' m) /\ srep str' (t ++ members m depth keys els) /\ i_raw it' = None /\ i_err_off it' = 0.
Proof using Hok Hp Hz Hn.
  intros Hs Hr. unfold bson_iter_visit_all. rewrite json_visitors_parts.
  assert (El : zlen (encode_doc els) = zlen (encode_body els) + 5) by (unfold encode_doc; apply zlen_doc_bytes).
  pose proof (zlen_nonneg (encode_body els)). rewrite <- printed_members in *.
  apply (loop_printed m _ _ _ els Hok Hp Hn (iter_fuel (iter_start (encode_doc els ++ R) (zlen (encode_doc els))))
    (iter_start (encode_doc els ++ R) (zlen (encode_doc els))) (le_bytes 4 (zlen (encode_body els) + 5)) R (mk_json 0 keys e depth str m) t);
    cbn [iter_start i_raw i_next_off i_len i_err_off j_mode j_keys j_depth j_str j_count]; try done; try (rewrite ?zlen_le_bytes; lia).
  - unfold encode_doc, doc_bytes. by rewrite <- !app_assoc.
  - unfold iter_fuel. cbn [iter_start i_len]. lia.
Qed.

Lemma started : iter_init_static (doc_in els R) = (true, iter_start (encode_doc els ++ R) (zlen (encode_doc els))).
Proof.
  unfold iter_init_static, doc_in. cbn [sd_len sd_data]. pose proof (zlen_nonneg (encode_body els)).
  replace (zlen (encode_doc els) <? 5) with false; [done|]. unfold encode_doc. rewrite zlen_doc_bytes. lia.
Qed.

Lemma opened s : clean s = true -> zlen (lit s) < 2 ^ 31 -> exists str, bson_string_new (Some (lit s ++ [0])) = Ret str /\ srep str (lit s).
Proof. intros. apply bson_string_new_spec; [by apply lit_no_nul | done]. Qed.

Lemma nested_printed opening closing keys depth :
  clean opening = true -> clean closing = true -> zlen (lit opening) < 2 ^ 31 -> no_nul (members m (depth + 1) keys els) ->
  visits_at m depth (visit_nested (json_visitors fuel) opening closing keys (doc_in els R))
    (if depth >=? BSON_MAX_RECURSION then lit "{ ... }" else lit opening ++ members m (depth + 1) keys els ++ lit closing).
Proof using Hok Hp Hz Hn.
  intros Ho Hc Hlo Hnn s t Hms Hd Hs Hr. unfold visit_nested. rewrite Hd.
  destruct (depth >=? BSON_MAX_RECURSION). { unfold done_visit. destruct (prints_lit "{ ... }" eq_refl s t Hs Hr) as (str & -> & Hs'). by exists str. }
  rewrite started. cbn [negb]. destruct (opened opening Ho Hlo) as (str0 & -> & Hs0). cbn [mbind outcome_bind]. rewrite !zlen_app in Hr.
  pose proof (zlen_nonneg t). pose proof (zlen_nonneg (lit closing)).
  destruct (doc_visited keys (j_err_offset s) (depth + 1) str0 (lit opening) Hs0) as (it' & n & str1 & E & Hs1 & _); [lia|].
  rewrite Hms, E. cbn [mbind outcome_bind]. 
  destruct (prints_lit closing Hc (mk_json n keys (j_err_offset s) (depth + 1) str1 m) _ Hs1) as (str2 & E2 & Hs2); [rewrite zlen_app; lia|].
  rewrite E2. cbn [mbind outcome_bind set_str j_str]. rewrite <- app_assoc in Hs2. destruct Hs2 as [_ _ _ [slack Es]]. rewrite Es.
  assert (Hx : no_nul (lit opening ++ members m (depth + 1) keys els ++ lit closing)) by (by apply bracketed_no_nul).
  destruct (prints_text _ slack Hx (set_json_err s (j_err_offset s)) t Hs) as (str3 & E3 & Hs3); [rewrite !zlen_app; lia|].
  unfold done_visit. cbn [j_err_offset]. rewrite E3. exists str3. split; [by destruct s | done].
Qed.

(** [bson_empty]: the byte behind the length is the type of the first element. *)
Lemma empty_test : (if sd_len (doc_in els R) =? 5 then Ret 0 else rd (sd_data (doc_in els R)) 4) =
  Ret (match els with [] => 0 | (_, v) :: _ => type_of v end).
Proof.
  destruct els as [|[k v] els']; [done|]. unfold doc_in. cbn [sd_len sd_data]. unfold encode_doc. rewrite zlen_doc_bytes, encode_body_cons, zlen_app.
  unfold encode_elem at 1. rewrite zlen_app, zlen_elem_hdr. cbn [fst snd]. pose proof (zlen_nonneg k).
  pose proof (zlen_nonneg (encode_value v)). pose proof (zlen_nonneg (encode_body els')).
  replace (_ =? 5) with false by lia. unfold doc_bytes, encode_elem, elem_hdr. cbn [fst snd]. rewrite <- !app_assoc. cbn [app].
  apply rd_mid. by rewrite zlen_le_bytes.
Qed.

Lemma empty_or_not : els = [] \/ (match els with [] => 0 | (_, v) :: _ => type_of v end =? 0) = false /\ els <> [].
Proof. destruct els as [|[k v] els']; [by left|]. right. split; [by destruct v | done]. Qed.

Lemma document_printed : zlen (json_text m els) <= room ->
  exists slack, json_of_document (json_visitors fuel) (doc_in els R) m = Ret (Some (json_text m els ++ 0 :: slack), zlen (json_text m els)).
Proof using Hok Hp Hz Hn.
  intros Hr. unfold json_of_document. rewrite started, empty_test. cbn [mbind outcome_bind].
  destruct empty_or_not as [E0|[-> Hne]]; [rewrite E0; exists []; by vm_compute|].
  assert (Et : json_text m els = lit "{ " ++ members m 0 true els ++ lit " }") by (by destruct els). rewrite Et in *. rewrite !zlen_app in Hr.
  cbn [negb]. destruct (opened "{ " eq_refl ltac:(done)) as (str0 & -> & Hs0). cbn [mbind outcome_bind].
  pose proof (zlen_nonneg (lit " }")). destruct (doc_visited true (-1) 0 str0 (lit "{ ") Hs0) as (it' & n & str1 & E & Hs1 & _); [lia|].
  rewrite E. cbn [mbind outcome_bind]. cbn [j_err_offset orb]. change (negb (-1 =? -1)) with false. cbv iota.
  destruct (prints_lit " }" eq_refl (mk_json n true (-1) 0 str1 m) _ Hs1) as (str2 & E2 & Hs2); [rewrite zlen_app; lia|].
  rewrite E2. cbn [mbind outcome_bind set_str j_str bson_string_free]. rewrite <- app_assoc in Hs2. destruct Hs2 as [Hlen _ _ [slack Es]].
  exists slack. by rewrite <- Es, <- Hlen.
Qed.

(** A closed iterator visits nothing. *)
Lemma closed_visit it' s : i_raw it' = None -> i_err_off it' = 0 -> bson_iter_visit_all (json_visitors fuel) it' s = Ret (false, it', s).
Proof.
  intros Hr He. unfold bson_iter_visit_all, iter_fuel. cbn [visit_loop]. unfold _bson_iter_next_internal. rewrite Hr. cbn [mbind outcome_bind n_ok n_iter negb].
  unfold visit_end. by rewrite He.
Qed.

Lemma array_printed : m = BSON_JSON_MODE_LEGACY -> zlen (array_text els) <= room ->
  exists slack, array_of_document (json_visitors fuel) (doc_in els R) = Ret (Some (array_text els ++ 0 :: slack), zlen (array_text els)).
Proof using Hok Hp Hz Hn.
  intros Em Hr. unfold array_of_document. rewrite started, empty_test. cbn [mbind outcome_bind]. rewrite <- Em.
  destruct empty_or_not as [E0|[-> Hne]]; [rewrite E0; exists []; by vm_compute|].
  assert (Et : array_text els = lit "[ " ++ members m 0 false els ++ lit " ]") by (rewrite Em; by destruct els). rewrite Et in *. rewrite !zlen_app in Hr.
  cbn [negb]. destruct (opened "[ " eq_refl ltac:(done)) as (str0 & -> & Hs0). cbn [mbind outcome_bind].
  pose proof (zlen_nonneg (lit " ]")). destruct (doc_visited false (-1) 0 str0 (lit "[ ") Hs0) as (it' & n & str1 & E & Hs1 & Hraw & Herr); [lia|].
  rewrite E. cbn [mbind outcome_bind]. rewrite closed_visit by done. cbn [mbind outcome_bind j_err_offset orb]. change (negb (-1 =? -1)) with false. cbv iota.
  destruct (prints_lit " ]" eq_refl (mk_json n false (-1) 0 str1 m) _ Hs1) as (str2 & E2 & Hs2); [rewrite zlen_app; lia|].
  rewrite E2. cbn [mbind outcome_bind set_str j_str bson_string_free]. rewrite <- app_assoc in Hs2. destruct Hs2 as [Hlen _ _ [slack Es]].
  exists slack. by rewrite <- Es, <- Hlen.
Qed.
End Nested.

(** With fuel for its length, every nested document of a document is printed. *)
Lemma nested_all m fuel : forall els, zlen (encode_doc els) <= Z.of_nat fuel -> zlen (encode_doc els) <= INT_MAX ->
  elems_ok els -> printable_els m els ->
  Forall (fun kv => nested_ok m (json_document fuel) (json_array fuel) (json_scope fuel) kv.2) els.
Proof.
  induction fuel as [|fuel IH]; intros els Hf Hz Hok Hp;
    (assert (El : zlen (encode_doc els) = zlen (encode_body els) + 5) by (unfold encode_doc; apply zlen_doc_bytes);
     pose proof (zlen_nonneg (encode_body els))); [lia|].
  assert (Hin : forall k v, (k, v) ∈ els -> value_ok v /\ printable m v /\ zlen (encode_value v) < zlen (encode_body els)).
  { intros k v Hin. split; [by eapply elems_ok_elem|]. split; [|by eapply elem_shorter].
    clear - Hp Hin. induction Hp as [|k' v' els Hk Hv Hels IHp]; [by apply not_elem_of_nil in Hin|].
    apply elem_of_cons in Hin as [[= -> ->]|Hin]; auto. }
  apply Forall_forall. intros [k v] Hkv. destruct (Hin k v Hkv) as (Hv & Hpv & Hl). cbn [snd].
  assert (Hclean : forall d keys els', elems_ok els' -> printable_els m els' -> no_nul (members m d keys els')).
  { intros d keys els' Ho' Hp'. apply members_no_nul; [|done..]. apply Forall_true. intros kv' depth. apply json_value_no_nul. }
  destruct v; try done; cbn [nested_ok json_document json_array json_scope].
  - rewrite encode_document in Hl. inversion Hv; subst; [done|]. inversion Hpv; subst; [|done].
    intros R depth Hz'. apply (nested_printed m fuel els0 R); auto; [apply IH; done || lia | done].
  - rewrite encode_array in Hl. inversion Hv; subst; [done|]. inversion Hpv; subst; [|done].
    intros R depth Hz'. apply (nested_printed m fuel els0 R); auto; [apply IH; done || lia | done].
  - inversion Hv; subst; [done|]. inversion Hpv; subst; [|done]. rewrite encode_codewscope, !zlen_app in Hl.
    pose proof (zlen_nonneg (string_bytes js)). rewrite zlen_le_bytes in Hl.
    intros R Hz' Hr. apply document_printed; [done | done | done | | done]. apply IH; done || lia.
Qed.

Lemma visit_all_printed m els R : elems_ok els -> printable_els m els -> zlen (encode_doc els) <= INT_MAX -> zlen (json_text m els) <= room ->
  exists slack, _bson_as_json_visit_all (doc_in els R) m = Ret (Some (json_text m els ++ 0 :: slack), zlen (json_text m els)).
Proof.
  intros Hok Hp Hz Hr. unfold _bson_as_json_visit_all. apply document_printed; [done | done | done | | done].
  pose proof (zlen_nonneg (encode_doc els)). apply nested_all; [cbn [doc_in sd_len]; lia | done | done | done].
Qed.

(** [bson_array_as_json] prints the values without their keys; the second visit adds nothing. *)
Lemma array_as_json_text els R :
  elems_ok els -> printable_els BSON_JSON_MODE_LEGACY els -> zlen (encode_doc els) <= INT_MAX -> zlen (array_text els) <= room ->
  exists slack, bson_array_as_json (doc_in els R) = Ret (Some (array_text els ++ 0 :: slack), zlen (array_text els)).
Proof.
  intros Hok Hp Hz Hr. unfold bson_array_as_json. apply (array_printed BSON_JSON_MODE_LEGACY); [done | done | done | | done | done].
  pose proof (zlen_nonneg (encode_doc els)). apply nested_all; [cbn [doc_in sd_len]; lia | done | done | done].
Qed.

(** The entry point of a mode. *)
Definition entry_point (m : bson_json_mode_t) : static_doc -> outcome (option bytes * Z) :=
  match m with
  | BSON_JSON_MODE_LEGACY => bson_as_json
  | BSON_JSON_MODE_CANONICAL => bson_as_canonical_extended_json
  | BSON_JSON_MODE_RELAXED => bson_as_relaxed_extended_json
  end.

Lemma entry_point_spec m els R : elems_ok els -> printable_els m els -> zlen (encode_doc els) <= INT_MAX -> zlen (json_text m els) <= room ->
  exists slack, entry_point m (doc_in els R) = Ret (Some (json_text m els ++ 0 :: slack), zlen (json_text m els)).
Proof. destruct m; apply visit_all_printed. Qed.

(** A document with a nested array and a scope. *)
Definition nested_els : list (bytes * value) :=
  [([97], VArray [([48], VInt32 7); ([49], VDocument [([34], VBool true)])]); ([98], VUtf8 [195; 169; 10]); ([99], VCodeWScope [120] [([100], VInt64 (-1))])].

Lemma nested_els_ok m : elems_ok nested_els /\ printable_els m nested_els.
Proof.
  assert (Hc : forall nul b, 0 < b < 128 -> scalar_text nul [b]).
  { intros nul b Hb. change [b] with ([b] ++ []). replace [b] with (utf8_encode b) by (unfold utf8_encode; by replace (b <? 0x80) with true by lia).
    constructor; [unfold scalar_value; lia | left; lia | constructor]. }
  unfold nested_els. split.
  - repeat first [apply elems_ok_nil | apply elems_ok_cons | apply value_ok_document | apply value_ok_array | apply value_ok_codewscope | apply value_ok_leaf | done
      | split | apply Forall_nil_2 | apply Forall_cons_2 | unfold is_byte; lia].
  - repeat first [apply printable_nil | apply printable_cons; [apply Hc; lia| |] | apply printable_document | apply printable_array | apply printable_codewscope; [apply Hc; lia|] | by apply printable_leaf].
    apply printable_leaf. change [195; 169; 10] with (utf8_encode 233 ++ [10]). constructor; [unfold scalar_value; lia | by right | apply Hc; lia].
Qed.

(** * Properties *)

(** C14: Documents are printed as JSON text.  On the encoding of a document
    whose keys and strings are UTF-8, whose decimals are canonical and whose
    dates are before the year 10000 in relaxed mode, [bson_as_json],
    [bson_as_canonical_extended_json] and [bson_as_relaxed_extended_json] return
    the text of the reference printer with its length: the members of documents
    and the elements of arrays in their order, separated by commas, at every
    depth, and the form of the mode for every type; bytes behind the document are
    not looked at.  The document has at most INT_MAX bytes and the text at most
    [room]. *)
Theorem as_json_text m els R : elems_ok els -> printable_els m els -> zlen (encode_doc els) <= INT_MAX -> zlen (json_text m els) <= room ->
  exists slack, entry_point m (doc_in els R) = Ret (Some (json_text m els ++ 0 :: slack), zlen (json_text m els)).
Proof. apply entry_point_spec. Qed.

Definition nested_text : bytes :=
  lit "{ 'a' : [ 7, { '\'' : true } ], 'b' : '" ++ [195; 169] ++ lit "\n', 'c' : { '$code' : 'x', '$scope' : { 'd' : -1 } } }".

Lemma as_json_text_witness : exists slack, entry_point BSON_JSON_MODE_LEGACY (doc_in nested_els [9]) = Ret (Some (nested_text ++ 0 :: slack), zlen nested_text).
Proof.
  destruct (nested_els_ok BSON_JSON_MODE_LEGACY) as [H1 H2].
  assert (E : json_text BSON_JSON_MODE_LEGACY nested_els = nested_text) by (vm_compute; reflexivity).
  rewrite <- E.
  apply (as_json_text BSON_JSON_MODE_LEGACY nested_els [9] H1 H2); [vm_compute | rewrite E; vm_compute]; discriminate.
Defined.
