(* ===== verification/JsonGrammar.v ===== *)
(** * The printed text is JSON

    The grammar of RFC 8259 over bytes (of the exponents of numbers only the form
    that printf writes), and the proof that the reference printer
    of [JsonText] stays inside it: in the extended modes always, in legacy mode
    for finite doubles, as long as nothing is deeper than the limit. *)
From stdpp Require Import strings.
From S2P Require Import Prelude Memory Utf8 Strings Format Document Append Lifecycle Iter IterSafe Find Values Numbers Oid Dates Calendar Timegm Iso8601 DateText Decimal128 DecimalText RoundTrip Visit Validate Base64 Printf Json JsonText JsonPrint.
#[local] Open Scope Z_scope.

(** ** The grammar *)

Definition ws (s : bytes) : Prop := Forall (fun b => b = 32 \/ b = 9 \/ b = 10 \/ b = 13) s.
Definition hex_letter (b : Z) : Prop := digit b \/ 65 <= b <= 70 \/ 97 <= b <= 102.

Inductive char_text : bytes -> Prop :=
| char_plain b : 32 <= b < 256 -> b <> 34 -> b <> 92 -> char_text [b]
| char_escape b : b ∈ [34; 92; 47; 98; 102; 110; 114; 116] -> char_text [92; b]
| char_unicode a b c d : hex_letter a -> hex_letter b -> hex_letter c -> hex_letter d -> char_text [92; 117; a; b; c; d].

Inductive chars_text : bytes -> Prop :=
| chars_nil : chars_text []
| chars_cons c s : char_text c -> chars_text s -> chars_text (c ++ s).

Inductive string_lit : bytes -> Prop :=
| string_lit_intro s : chars_text s -> string_lit ([34] ++ s ++ [34]).

Inductive number_lit : bytes -> Prop :=
| number_lit_intro (neg : bool) t : number_text t -> number_lit ((if neg then [45] else []) ++ t).

Inductive json : bytes -> Prop :=
| json_true : json (lit "true")
| json_false : json (lit "false")
| json_null : json (lit "null")
| json_string s : string_lit s -> json s
| json_number s : number_lit s -> json s
| json_empty_object w : ws w -> json ([123] ++ w ++ [125])
| json_object ms : json_members ms -> json ([123] ++ ms ++ [125])
| json_empty_array w : ws w -> json ([91] ++ w ++ [93])
| json_array es : json_elements es -> json ([91] ++ es ++ [93])
with json_members : bytes -> Prop :=
| members_one m : json_member m -> json_members m
| members_more m ms : json_member m -> json_members ms -> json_members (m ++ [44] ++ ms)
with json_member : bytes -> Prop :=
| member_intro w1 k w2 e : ws w1 -> string_lit k -> ws w2 -> json_element e -> json_member (w1 ++ k ++ w2 ++ [58] ++ e)
with json_elements : bytes -> Prop :=
| elements_one e : json_element e -> json_elements e
| elements_more e es : json_element e -> json_elements es -> json_elements (e ++ [44] ++ es)
with json_element : bytes -> Prop :=
| element_intro w1 v w2 : ws w1 -> json v -> ws w2 -> json_element (w1 ++ v ++ w2).

(** ** Strings *)

Lemma escape_byte_char b : is_byte b -> char_text (escape_byte b).
Proof.
  unfold is_byte. intros Hb. unfold escape_byte. destruct ((b =? 92) || (b =? 34)) eqn:E0; [apply char_escape; assert (b = 92 \/ b = 34) as [-> | ->] by lia; set_solver|].
  repeat match goal with |- context [if b =? ?k then _ else _] => destruct (b =? k) eqn:?; [apply char_escape; set_solver|] end.
  destruct (b <? 32) eqn:E; bool_hyps; [|apply char_plain; lia].
  unfold unicode_escape, hex2. assert (Hh : forall d, 0 <= d < 16 -> hex_letter (hex_char d)).
  { intros d Hd. unfold hex_letter, hex_char, digit. destruct (d <? 10) eqn:Ed; bool_hyps; lia. }
  apply char_unicode; [left; unfold digit; lia.. | apply Hh; divmod | apply Hh; divmod].
Qed.

Lemma escaped_chars s : Forall is_byte s -> chars_text (json_escape s).
Proof.
  induction 1 as [|b s Hb _ IH]; [constructor|]. change (json_escape (b :: s)) with (escape_byte b ++ json_escape s).
  constructor; [by apply escape_byte_char | done].
Qed.

Lemma plain_chars s : plain_text s -> chars_text s.
Proof.
  induction 1 as [|b s Hb _ IH]; [constructor|]. unfold plain_char in Hb. change (b :: s) with ([b] ++ s). constructor; [constructor; lia | done].
Qed.

Definition in_quotes (s : bytes) : bytes := lit "'" ++ s ++ lit "'".

Lemma in_quotes_string s : chars_text s -> string_lit (in_quotes s).
Proof. apply string_lit_intro. Qed.

(** A name of the printer's own. *)
Definition name (s : string) : bytes := in_quotes (lit s).
Definition plain_name (s : string) : bool := forallb (fun b => (32 <=? b) && (b <? 128) && negb (b =? 34) && negb (b =? 92)) (lit s).

Lemma name_string s : plain_name s = true -> string_lit (name s).
Proof.
  unfold plain_name. intros H. apply in_quotes_string, plain_chars. apply Forall_forall. intros b Hb. rewrite forallb_forall in H.
  apply list_elem_of_In in Hb. specialize (H b Hb). unfold plain_char. lia.
Qed.

(** ** Objects and arrays *)

Definition colon (k v : bytes) : bytes := k ++ lit " : " ++ v.
Definition object_text (ms : list (bytes * bytes)) : bytes := lit "{ " ++ separated (map (fun '(k, v) => colon k v) ms) ++ lit " }".

Lemma ws_space : ws [32].
Proof. apply Forall_cons_2; [by left | apply Forall_nil_2]. Qed.
Lemma ws_nil : ws [].
Proof. apply Forall_nil_2. Qed.
#[local] Hint Resolve ws_space ws_nil : core.

(** Members with a space around them. *)
Lemma members_json ms : ms <> [] -> Forall (fun kv => string_lit kv.1 /\ json kv.2) ms ->
  json_members ([32] ++ separated (map (fun '(k, v) => colon k v) ms) ++ [32]).
Proof.
  intros Hn H. induction H as [|[k v] ms [Hk Hv] _ IH]; [done|]. cbn [map separated fst snd] in *. destruct ms as [|kv ms]; cbn [map].
  - apply members_one. unfold colon. change (lit " : ") with ([32] ++ [58] ++ [32]). rewrite <- !app_assoc.
    apply (member_intro [32] k [32]); auto. apply (element_intro [32] v [32]); auto.
  - destruct kv as [k' v']. specialize (IH ltac:(done)). cbn [map] in IH. set (rest := separated (_ :: _)) in *.
    replace ([32] ++ (colon k v ++ lit ", " ++ rest) ++ [32]) with (([32] ++ k ++ [32] ++ [58] ++ [32] ++ v ++ []) ++ [44] ++ [32] ++ rest ++ [32])
      by (unfold colon; rewrite app_nil_r, <- !app_assoc; reflexivity).
    apply members_more; [|done]. apply (member_intro [32] k [32]); auto. apply (element_intro [32] v []); auto.
Qed.

Lemma elements_json es : es <> [] -> Forall json es -> json_elements ([32] ++ separated es ++ [32]).
Proof.
  intros Hn H. induction H as [|v es Hv _ IH]; [done|]. cbn [separated] in *. destruct es as [|e es].
  - apply elements_one, (element_intro [32] v [32]); auto.
  - replace ([32] ++ (v ++ lit ", " ++ separated (e :: es)) ++ [32]) with (([32] ++ v ++ []) ++ [44] ++ [32] ++ separated (e :: es) ++ [32])
      by (rewrite app_nil_r, <- !app_assoc; reflexivity).
    apply elements_more; [|by apply IH]. apply (element_intro [32] v []); auto.
Qed.

Lemma object_json ms : Forall (fun kv => string_lit kv.1 /\ json kv.2) ms -> json (object_text ms).
Proof.
  intros H. unfold object_text. destruct ms as [|kv ms]; [apply (json_empty_object [32; 32]); repeat (apply Forall_cons_2; [by left|]); apply Forall_nil_2|].
  change (lit "{ ") with ([123] ++ [32]). change (lit " }") with ([32] ++ [125]).
  pose proof (json_object _ (members_json (kv :: ms) ltac:(done) H)) as Hj. by rewrite <- !app_assoc in *.
Qed.

Lemma array_json es : Forall json es -> json (lit "[ " ++ separated es ++ lit " ]").
Proof.
  intros H. destruct es as [|e es]; [apply (json_empty_array [32; 32]); repeat (apply Forall_cons_2; [by left|]); apply Forall_nil_2|].
  change (lit "[ ") with ([91] ++ [32]). change (lit " ]") with ([32] ++ [93]).
  pose proof (json_array _ (elements_json (e :: es) ltac:(done) H)) as Hj. by rewrite <- !app_assoc in *.
Qed.

(** ** Numbers *)

Lemma fmt_u_json n : 0 <= n < 2 ^ 64 -> number_text (fmt_u n).
Proof.
  intros Hn. exists (fmt_u n), [], []. rewrite !app_nil_r. split; [done|]. split; [apply (fmt_u_spec n Hn)|]. split; by left.
Qed.

Lemma fmt_d_json n : - 2 ^ 63 <= n < 2 ^ 63 -> json (fmt_d n).
Proof.
  intros Hn. apply json_number. unfold fmt_d. destruct (n <? 0) eqn:E; bool_hyps.
  - apply (number_lit_intro true), fmt_u_json. lia.
  - apply (number_lit_intro false), fmt_u_json. lia.
Qed.

(** A finite double in the form with a point. *)
Lemma double_json d : uint_range 64 d -> not_finite d = false ->
  json (fmt_g20 d ++ (if digits_only_text (fmt_g20 d) then lit ".0" else [])).
Proof.
  intros Hd Hf. destruct (fmt_g20_number d Hd Hf) as (t & -> & Ht). apply json_number.
  destruct (digits_only_text _) eqn:E; [|rewrite app_nil_r; by constructor].
  rewrite <- app_assoc. apply (number_lit_intro (dbl_negative d)). unfold digits_only_text in E. rewrite forallb_app in E. apply andb_true_iff in E as [_ E].
  destruct Ht as (ip & fp & ex & -> & Hip & Hfp & Hex). rewrite !forallb_app in E. apply andb_true_iff in E as [_ E]. apply andb_true_iff in E as [E1 E2].
  destruct Hfp as [->|(ds & -> & _)]; [|done]. destruct Hex as [->|(sg & ds & -> & _)]; [|done].
  exists ip, (lit ".0"), []. rewrite !app_nil_r. split; [done|]. split; [done|]. split; [|by left]. right. exists [48]. split; [done|].
  split; [done|]. apply Forall_cons_2; [unfold digit; lia | apply Forall_nil_2].
Qed.

(** ** Leaves *)

(** Bring the text into the form of an object of its members. *)
Ltac as_object ms := match goal with |- json ?x =>
  replace x with (object_text ms) by (unfold object_text, colon, name, in_quotes, quoted; cbn [map separated]; rewrite <- ?app_assoc; reflexivity);
  apply object_json; repeat (apply Forall_cons_2; [split; [by apply name_string|]|]); [.. | apply Forall_nil_2]; cbn [fst snd] end.

Lemma plain_json s : plain_text s -> json (in_quotes s).
Proof. intros H. by apply json_string, in_quotes_string, plain_chars. Qed.

Lemma escaped_json s : Forall is_byte s -> json (in_quotes (json_escape s)).
Proof. intros H. by apply json_string, in_quotes_string, escaped_chars. Qed.

Lemma double_text_json m d : uint_range 64 d -> (m = BSON_JSON_MODE_LEGACY -> not_finite d = false) -> json (double_text m d).
Proof.
  intros Hd Hl. unfold double_text. pose proof (double_json d Hd) as Hn. pose proof (double_chars d Hd) as Hc.
  destruct (_ || _) eqn:E.
  - apply Hn. destruct (not_finite d) eqn:Ef; [|done]. destruct m; [by apply Hl | done |]. cbn in E. by destruct (is_nan d).
  - as_object [(name "$numberDouble", in_quotes (if is_nan d then lit "NaN" else if not_finite d then (if dbl_positive d then lit "Infinity" else lit "-Infinity")
      else fmt_g20 d ++ (if digits_only_text (fmt_g20 d) then lit ".0" else [])))].
    apply plain_json. destruct (is_nan d); [by vm_compute; repeat constructor; discriminate|].
    destruct (not_finite d); [destruct (dbl_positive d); by vm_compute; repeat constructor; discriminate|].
    apply plain_both; [done|]. destruct (digits_only_text _); [by vm_compute; repeat constructor; discriminate | constructor].
Qed.

(** The members of an object with the spacing as printed: no space in front of
    a colon, none behind a value. *)
Lemma member_tight w1 k e : ws w1 -> string_lit k -> json_element e -> json_member (w1 ++ k ++ [] ++ [58] ++ e).
Proof. intros. by constructor. Qed.

Lemma binary_json b st : plain_text b -> plain_text st ->
  json (lit "{ '$binary' : { 'base64': '" ++ b ++ lit "', 'subType' : '" ++ st ++ lit "' } }").
Proof.
  intros Hb Hs. replace (lit _ ++ _) with (object_text [(name "$binary",
    [123] ++ ([32] ++ name "base64" ++ [] ++ [58] ++ [32] ++ in_quotes b ++ []) ++ [44] ++ ([32] ++ name "subType" ++ [32] ++ [58] ++ [32] ++ in_quotes st ++ [32]) ++ [125])])
    by (unfold object_text, colon, name, in_quotes; cbn [map separated]; rewrite <- ?app_assoc; reflexivity).
  apply object_json. apply Forall_cons_2; [|apply Forall_nil_2]. cbn [fst snd]. split; [by apply name_string|].
  replace ([123] ++ _) with ([123] ++ (([32] ++ name "base64" ++ [] ++ [58] ++ [32] ++ in_quotes b ++ []) ++ [44] ++
    ([32] ++ name "subType" ++ [32] ++ [58] ++ [32] ++ in_quotes st ++ [32])) ++ [125]) by (by rewrite <- !app_assoc).
  apply json_object, members_more; [|apply members_one].
  - apply member_tight; [done | by apply name_string |]. apply (element_intro [32] _ []); [done | by apply plain_json | done].
  - apply member_intro; [done | by apply name_string | done |]. apply (element_intro [32] _ [32]); [done | by apply plain_json | done].
Qed.

Lemma number_long_json s : plain_text s -> json (lit "{ '$numberLong' : '" ++ s ++ lit "'}").
Proof.
  intros Hs. replace (lit _ ++ _) with ([123] ++ ([32] ++ name "$numberLong" ++ [32] ++ [58] ++ [32] ++ in_quotes s ++ []) ++ [125])
    by (unfold name, in_quotes; rewrite <- ?app_assoc; reflexivity).
  apply json_object, members_one, member_intro; [done | by apply name_string | done |].
  apply (element_intro [32] _ []); [done | by apply plain_json | done].
Qed.

Definition finite_leaf (m : bson_json_mode_t) (v : value) : bool :=
  match v with VDouble d => negb (is_mode m BSON_JSON_MODE_LEGACY && not_finite d) | _ => true end.

(** The texts the printer puts between quotation marks. *)
Create HintDb plain.
#[local] Hint Resolve fmt_d_plain fmt_u_plain hex2_plain hex_of_plain b64_text_plain options_plain date_string_plain plain_json escaped_json scalar_bytes : plain.

Lemma date_json m n : int64_range n -> (relaxed_mode m = true -> 0 <= n -> n < 253402300800000) -> json (leaf_text m (VDateTime n)).
Proof.
  unfold int64_range. intros Hn Hr. cbn [leaf_text]. destruct (canonical_mode m || _) eqn:E.
  - as_object [(name "$date", object_text [(name "$numberLong", in_quotes (fmt_d n))])]. as_object [(name "$numberLong", in_quotes (fmt_d n))].
    apply plain_json, fmt_d_plain. lia.
  - destruct (relaxed_mode m).
    + as_object [(name "$date", in_quotes (date_string n))]. apply plain_json, date_string_plain.
      apply orb_false_iff in E as [_ E]. cbn [andb] in E. bool_hyps. auto.
    + as_object [(name "$date", fmt_d n)]. apply fmt_d_json. lia.
Qed.

Lemma leaf_json m v : leaf_ok v -> printable m v -> match v with VDocument _ | VArray _ | VCodeWScope _ _ => False | _ => True end ->
  finite_leaf m v = true -> json (leaf_text m v).
Proof.
  intros Hok Hp Hv Hf. destruct Hp as [| | |v Hp]; [done..|]. destruct v; try done; cbn [leaf_ok] in Hok; try (cbn [leaf_text]).
  - apply double_text_json; [done|]. intros ->. cbn in Hf. by destruct (not_finite bits).
  - apply escaped_json. by eapply scalar_bytes.
  - destruct Hok as [Hs Hb]. destruct (extended m); [apply binary_json; auto with plain|].
    as_object [(name "$binary", in_quotes (b64_text data)); (name "$type", in_quotes (hex2 subtype))]; auto with plain.
  - as_object [(name "$undefined", lit "true")]. constructor.
  - destruct Hok as [_ Hb]. as_object [(name "$oid", in_quotes (hex_of oid))]. auto with plain.
  - destruct b; constructor.
  - by apply date_json.
  - constructor.
  - destruct Hok as (_ & _ & Hb & _). destruct (extended m).
    + as_object [(name "$regularExpression", object_text [(name "pattern", in_quotes (json_escape regex)); (name "options", in_quotes (regex_options options))])].
      as_object [(name "pattern", in_quotes (json_escape regex)); (name "options", in_quotes (regex_options options))]; auto with plain.
    + as_object [(name "$regex", in_quotes (json_escape regex)); (name "$options", in_quotes (regex_options options))]; auto with plain.
  - destruct Hok as (_ & Hb & _ & Ho). destruct (extended m).
    + as_object [(name "$dbPointer", object_text [(name "$ref", in_quotes (json_escape collection)); (name "$id", object_text [(name "$oid", in_quotes (hex_of oid))])])].
      as_object [(name "$ref", in_quotes (json_escape collection)); (name "$id", object_text [(name "$oid", in_quotes (hex_of oid))])]; [auto with plain|].
      as_object [(name "$oid", in_quotes (hex_of oid))]. auto with plain.
    + as_object [(name "$ref", in_quotes (json_escape collection)); (name "$id", in_quotes (hex_of oid))]; auto with plain.
  - destruct Hok as [_ Hb]. as_object [(name "$code", in_quotes (json_escape js))]. auto with plain.
  - destruct (extended m); [as_object [(name "$symbol", in_quotes (json_escape s))]|]; by apply escaped_json.
  - unfold int32_range in Hok. destruct (canonical_mode m); [|apply fmt_d_json; lia].
    as_object [(name "$numberInt", in_quotes (fmt_d n))]. apply plain_json, fmt_d_plain. lia.
  - unfold uint_range in Hok. as_object [(name "$timestamp", object_text [(name "t", fmt_u timestamp); (name "i", fmt_u increment)])].
    as_object [(name "t", fmt_u timestamp); (name "i", fmt_u increment)]; apply json_number, (number_lit_intro false), fmt_u_json; lia.
  - unfold int64_range in Hok. destruct (canonical_mode m); [|by apply fmt_d_json]. by apply number_long_json, fmt_d_plain.
  - destruct (decimal_printed _ Hp) as [_ Hc]. as_object [(name "$numberDecimal", in_quotes (decimal_text (mk_dec128 low high)))]. by apply plain_json.
  - as_object [(name "$maxKey", fmt_d 1)]. by apply fmt_d_json.
  - as_object [(name "$minKey", fmt_d 1)]. by apply fmt_d_json.
Qed.

(** ** Documents *)

(** No document or array at the limit of the nesting, and finite doubles in
    legacy mode; the depth starts again in a scope. *)
Fixpoint representable (m : bson_json_mode_t) (depth : Z) (v : value) : bool :=
  match v with
  | VDocument els | VArray els => (depth <? BSON_MAX_RECURSION) && forallb (fun '(_, v) => representable m (depth + 1) v) els
  | VCodeWScope _ els => forallb (fun '(_, v) => representable m 0 v) els
  | v => finite_leaf m v
  end.
Definition representable_els (m : bson_json_mode_t) (depth : Z) (els : list (bytes * value)) : bool :=
  forallb (fun '(_, v) => representable m depth v) els.

(** The values of a document, each in the grammar. *)
Definition all_json (m : bson_json_mode_t) (els : list (bytes * value)) : Prop :=
  Forall (fun kv => forall depth, value_ok kv.2 -> printable m kv.2 -> representable m depth kv.2 = true -> json (json_value m depth kv.2)) els.

Lemma members_in_grammar m depth keys els : all_json m els -> elems_ok els -> printable_els m els -> representable_els m depth els = true ->
  json (if keys : bool then lit "{ " ++ members m depth true els ++ lit " }" else lit "[ " ++ members m depth false els ++ lit " ]").
Proof.
  intros Hall Hok Hp Hr.
  assert (H : Forall (fun kv => string_lit (quoted kv.1) /\ json (json_value m depth kv.2)) els).
  { induction Hall as [|[k v] els Hv _ IH]; [constructor|]. inversion_clear Hok as [|? ? ? [_ Hk] Hvo Hels]. inversion_clear Hp as [|? ? ? Hks Hvp Hpe].
    cbn in Hr. apply andb_true_iff in Hr as [Hr1 Hr2]. constructor; [|by apply IH]. cbn [fst snd] in *.
    split; [apply in_quotes_string, escaped_chars, Hk | by apply Hv]. }
  unfold members. destruct keys.
  - replace (lit "{ " ++ _) with (object_text (map (fun kv => (quoted kv.1, json_value m depth kv.2)) els)).
    + apply object_json, Forall_map. exact H.
    + unfold object_text. f_equal. f_equal. f_equal. rewrite map_map. apply map_ext. intros [k v]. cbn [fst snd]. unfold colon, key_text. by rewrite <- app_assoc.
  - apply array_json, Forall_map. eapply Forall_impl; [exact H|]. intros [k v] [_ Hj]. done.
Qed.

Lemma value_in_grammar m v : forall depth, value_ok v -> printable m v -> representable m depth v = true -> json (json_value m depth v).
Proof.
  revert v. apply (value_ind' (fun v => forall depth, value_ok v -> printable m v -> representable m depth v = true -> json (json_value m depth v)));
    [intros els IH depth Hok Hp Hr | intros els IH depth Hok Hp Hr | intros js els IH depth Hok Hp Hr |].
  1-2: inversion Hok; subst; [done|]; inversion Hp; subst; [|done]; cbn [representable] in Hr; apply andb_true_iff in Hr as [Hd Hr];
    cbn [json_value]; replace (depth >=? BSON_MAX_RECURSION) with false by lia.
  - by apply (members_in_grammar m (depth + 1) true).
  - by apply (members_in_grammar m (depth + 1) false).
  - inversion Hok as [| | |? ? [_ Hb] Hels]; subst; [done|]. inversion Hp; subst; [|done]. cbn [representable json_value] in *.
    set (scope := match els with [] => _ | _ => _ end). as_object [(name "$code", in_quotes (json_escape js)); (name "$scope", scope)]; [by apply escaped_json|].
    unfold scope. destruct els as [|kv els]; [apply (json_empty_object [32]), ws_space|]. by apply (members_in_grammar m 0 true (kv :: els)).
  - intros v. destruct v; try done; intros depth Hok Hp Hr; inversion Hok; subst; by apply leaf_json.
Qed.

Lemma text_in_grammar m els : elems_ok els -> printable_els m els -> representable_els m 0 els = true -> json (json_text m els).
Proof.
  intros Hok Hp Hr. destruct els as [|kv els]; [apply (json_empty_object [32]), ws_space|].
  apply (members_in_grammar m 0 true (kv :: els)); [|done..]. apply Forall_true. intros x depth. apply value_in_grammar.
Qed.

(** * Properties *)

(** C13: What [bson_as_json], [bson_as_canonical_extended_json] and
    [bson_as_relaxed_extended_json] return is JSON: for a document with UTF-8
    texts, canonical decimals and, in relaxed mode, dates before the year 10000,
    whose nesting stays under BSON_MAX_RECURSION and, in legacy mode, whose
    doubles are finite, the text is in the grammar of RFC 8259; the document has
    at most INT_MAX bytes and the text at most [room]. *)
Theorem as_json_well_formed m els R :
  elems_ok els -> printable_els m els -> representable_els m 0 els = true -> zlen (encode_doc els) <= INT_MAX -> zlen (json_text m els) <= room ->
  exists text slack, entry_point m (doc_in els R) = Ret (Some (text ++ 0 :: slack), zlen text) /\ json text.
Proof.
  intros Hok Hp Hr Hz Ht. destruct (entry_point_spec m els R Hok Hp Hz Ht) as [slack E]. exists (json_text m els), slack.
  split; [done | by apply text_in_grammar].
Qed.

Lemma as_json_well_formed_witness :
  exists text slack, entry_point BSON_JSON_MODE_CANONICAL (doc_in nested_els []) = Ret (Some (text ++ 0 :: slack), zlen text) /\ json text.
Proof.
  destruct (nested_els_ok BSON_JSON_MODE_CANONICAL) as [H1 H2].
  apply (as_json_well_formed BSON_JSON_MODE_CANONICAL nested_els [] H1 H2); vm_compute; done || discriminate.
Defined.

(** ** What is not JSON *)

(** A bare name is not in the grammar: a value starts with a bracket, a
    quotation mark, a minus, a digit or one of the three names. *)
Definition starts_value (s : bytes) : bool :=
  match s with
  | b :: _ => (b =? 123) || (b =? 91) || (b =? 34) || (b =? 45) || ((48 <=? b) && (b <=? 57))
  | [] => false
  end || bool_decide (s = lit "true") || bool_decide (s = lit "false") || bool_decide (s = lit "null").

Lemma json_start s : json s -> starts_value s = true.
Proof.
  intros H. inversion H as [| | |? Hs|? Hn| | | |]; subst; try reflexivity.
  - inversion Hs; subst. done.
  - inversion Hn as [neg t (ip & fp & ex & -> & (Hd & Hne & _) & _)]; subst. destruct neg; [done|].
    destruct ip as [|b ip]; [done|]. inversion_clear Hd as [|? ? Hb _]. unfold digit in Hb. unfold starts_value. cbn [app].
    do 3 (apply orb_true_iff; left). lia.
Qed.

(** Legacy mode prints the doubles that are not finite as nan and inf, which
    are not JSON. *)
Theorem legacy_nan_is_not_json :
  (exists slack, bson_as_json (doc_in [([97], VDouble 0x7FF8000000000000)] []) = Ret (Some (lit "{ 'a' : nan }" ++ 0 :: slack), 13)) /\
  ~ json (lit "nan") /\ ~ json (lit "inf").
Proof.
  split; [eexists; vm_compute; reflexivity|]. split; intros H%json_start; by vm_compute in H.
Qed.

(** A string that holds the two-byte form of NUL passes validation with
    BSON_VALIDATE_UTF8_ALLOW_NULL, but is not printed: the escaping takes the
    character 0 without a zero byte for invalid UTF-8. *)
Theorem overlong_nul_not_printed :
  let d := doc_in [([97], VUtf8 [192; 128])] [] in
  bson_validate d (BSON_VALIDATE_UTF8 + BSON_VALIDATE_UTF8_ALLOW_NULL) 0 = Ret (true, 0) /\ bson_as_json d = Ret (None, 0).
Proof. split; vm_compute; reflexivity. Qed.

(** The limit of the nesting stops documents in documents, not documents in
    scopes: an array at depth 200 is cut, the same array in the scope of code at
    that depth is printed. *)
Fixpoint nested_docs (n : nat) (v : value) : value := match n with O => v | S n => VDocument [([97], nested_docs n v)] end.

Theorem scope_restarts_depth :
  json_value BSON_JSON_MODE_LEGACY 0 (nested_docs 200 (VArray [])) = json_value BSON_JSON_MODE_LEGACY 0 (nested_docs 200 (VDocument [([98], VNull)])) /\
  json_value BSON_JSON_MODE_LEGACY 200 (VArray []) = lit "{ ... }" /\
  json_value BSON_JSON_MODE_LEGACY 200 (VCodeWScope [120] [([98], VArray [])]) = lit "{ '$code' : 'x', '$scope' : { 'b' : [  ] } }".
Proof. split; [vm_compute; reflexivity|]. split; reflexivity. Qed.
