(* ===== verification/JsonRead.v ===== *)
(** * Reading JSON: the handlers of the events (bson-json.c)

    [bson_json_reader_read] feeds the text to the lexer (jsonsl), which calls back
    at the start and the end of objects and lists and at keys and simple values.
    This file models what the callbacks do with these [json_event]s: the state machine
    that recognises extended JSON and appends to the documents on its stack.

    A frame of the stack is the [bson_t] at the address of the result plus its
    index.  The union [bson_type_data] is its 16 bytes with the layout of the
    64-bit ABI.  A key is a static text or the content of [key_buf].  Of an error
    the code is kept, not the message. *)
From stdpp Require Import strings.
From S2P Require Import Prelude Memory Utf8 Strings Format Document Append Lifecycle Iter Find Values Numbers Oid Iso8601 Decimal128 Visit Base64.
#[local] Open Scope Z_scope.

(** ** Data *)

Definition STACK_MAX : Z := 100.

Inductive bson_json_read_state_t :=
| BSON_JSON_REGULAR | BSON_JSON_DONE | BSON_JSON_ERROR | BSON_JSON_IN_START_MAP | BSON_JSON_IN_BSON_TYPE
| BSON_JSON_IN_BSON_TYPE_DATE_NUMBERLONG | BSON_JSON_IN_BSON_TYPE_DATE_ENDMAP
| BSON_JSON_IN_BSON_TYPE_TIMESTAMP_STARTMAP | BSON_JSON_IN_BSON_TYPE_TIMESTAMP_VALUES | BSON_JSON_IN_BSON_TYPE_TIMESTAMP_ENDMAP
| BSON_JSON_IN_BSON_TYPE_REGEX_STARTMAP | BSON_JSON_IN_BSON_TYPE_REGEX_VALUES | BSON_JSON_IN_BSON_TYPE_REGEX_ENDMAP
| BSON_JSON_IN_BSON_TYPE_BINARY_VALUES | BSON_JSON_IN_BSON_TYPE_BINARY_ENDMAP
| BSON_JSON_IN_BSON_TYPE_SCOPE_STARTMAP | BSON_JSON_IN_BSON_TYPE_DBPOINTER_STARTMAP | BSON_JSON_IN_SCOPE | BSON_JSON_IN_DBPOINTER.

Inductive bson_json_read_bson_state_t :=
| BSON_JSON_LF_REGEX | BSON_JSON_LF_OPTIONS | BSON_JSON_LF_REGULAR_EXPRESSION_PATTERN | BSON_JSON_LF_REGULAR_EXPRESSION_OPTIONS | BSON_JSON_LF_CODE | BSON_JSON_LF_SCOPE | BSON_JSON_LF_OID
| BSON_JSON_LF_BINARY | BSON_JSON_LF_TYPE | BSON_JSON_LF_DATE | BSON_JSON_LF_TIMESTAMP_T | BSON_JSON_LF_TIMESTAMP_I | BSON_JSON_LF_UNDEFINED | BSON_JSON_LF_MINKEY | BSON_JSON_LF_MAXKEY | BSON_JSON_LF_INT32
| BSON_JSON_LF_INT64 | BSON_JSON_LF_DOUBLE | BSON_JSON_LF_DECIMAL128 | BSON_JSON_LF_DBPOINTER | BSON_JSON_LF_SYMBOL | BSON_JSON_LF_DBREF.

#[export] Instance read_state_eq_dec : EqDecision bson_json_read_state_t.
Proof. solve_decision. Defined.
#[export] Instance bson_state_eq_dec : EqDecision bson_json_read_bson_state_t.
Proof. solve_decision. Defined.

(** [n_bytes] is the size of the block. *)
Record bson_json_buf_t := mk_buf { jb_buf : option bytes; jb_len : Z }.
Definition n_bytes (b : bson_json_buf_t) : Z := match jb_buf b with Some l => zlen l | None => 0 end.
Definition no_buf : bson_json_buf_t := mk_buf None 0.

Inductive bson_json_frame_type_t := BSON_JSON_FRAME_ARRAY | BSON_JSON_FRAME_DOC | BSON_JSON_FRAME_SCOPE | BSON_JSON_FRAME_DBPOINTER.

Record bson_json_stack_frame_t := mk_frame { f_i : Z; f_type : bson_json_frame_type_t; f_has_ref : bool; f_has_id : bool }.

Record bson_json_code_t := mk_code {
  has_code : bool; has_scope : bool; in_scope : bool; code_key_buf : bson_json_buf_t; code_buf : bson_json_buf_t
}.

(** [key]: a string of the table of numbers, or [key_buf.buf]. *)
Inductive key_ptr := KStatic (s : bytes) | KBuf.

Record bson_json_reader_t := mk_reader {
  jr_bson : Z;
  jr_stack : list bson_json_stack_frame_t;
  jr_n : Z;
  jr_key : option key_ptr;
  jr_key_buf : bson_json_buf_t;
  jr_read_state : bson_json_read_state_t;
  jr_bson_state : bson_json_read_bson_state_t;
  jr_bson_type : Z;
  jr_type_buf0 : bson_json_buf_t;
  jr_type_buf1 : bson_json_buf_t;
  jr_type_buf2 : bson_json_buf_t;
  jr_data : bytes;
  jr_code : bson_json_code_t;
  jr_dbpointer_key : bson_json_buf_t;
  jr_error : option Z;
  jr_stopped : bool
}.
Definition set_stack (r : bson_json_reader_t) (x : list bson_json_stack_frame_t) : bson_json_reader_t :=
  mk_reader (jr_bson r) x (jr_n r) (jr_key r) (jr_key_buf r) (jr_read_state r) (jr_bson_state r) (jr_bson_type r) (jr_type_buf0 r) (jr_type_buf1 r) (jr_type_buf2 r) (jr_data r) (jr_code r) (jr_dbpointer_key r) (jr_error r) (jr_stopped r).
Definition set_n (r : bson_json_reader_t) (x : Z) : bson_json_reader_t :=
  mk_reader (jr_bson r) (jr_stack r) x (jr_key r) (jr_key_buf r) (jr_read_state r) (jr_bson_state r) (jr_bson_type r) (jr_type_buf0 r) (jr_type_buf1 r) (jr_type_buf2 r) (jr_data r) (jr_code r) (jr_dbpointer_key r) (jr_error r) (jr_stopped r).
Definition set_key (r : bson_json_reader_t) (x : option key_ptr) : bson_json_reader_t :=
  mk_reader (jr_bson r) (jr_stack r) (jr_n r) x (jr_key_buf r) (jr_read_state r) (jr_bson_state r) (jr_bson_type r) (jr_type_buf0 r) (jr_type_buf1 r) (jr_type_buf2 r) (jr_data r) (jr_code r) (jr_dbpointer_key r) (jr_error r) (jr_stopped r).
Definition set_key_buf (r : bson_json_reader_t) (x : bson_json_buf_t) : bson_json_reader_t :=
  mk_reader (jr_bson r) (jr_stack r) (jr_n r) (jr_key r) x (jr_read_state r) (jr_bson_state r) (jr_bson_type r) (jr_type_buf0 r) (jr_type_buf1 r) (jr_type_buf2 r) (jr_data r) (jr_code r) (jr_dbpointer_key r) (jr_error r) (jr_stopped r).
Definition set_read_state (r : bson_json_reader_t) (x : bson_json_read_state_t) : bson_json_reader_t :=
  mk_reader (jr_bson r) (jr_stack r) (jr_n r) (jr_key r) (jr_key_buf r) x (jr_bson_state r) (jr_bson_type r) (jr_type_buf0 r) (jr_type_buf1 r) (jr_type_buf2 r) (jr_data r) (jr_code r) (jr_dbpointer_key r) (jr_error r) (jr_stopped r).
Definition set_bson_state (r : bson_json_reader_t) (x : bson_json_read_bson_state_t) : bson_json_reader_t :=
  mk_reader (jr_bson r) (jr_stack r) (jr_n r) (jr_key r) (jr_key_buf r) (jr_read_state r) x (jr_bson_type r) (jr_type_buf0 r) (jr_type_buf1 r) (jr_type_buf2 r) (jr_data r) (jr_code r) (jr_dbpointer_key r) (jr_error r) (jr_stopped r).
Definition set_bson_type (r : bson_json_reader_t) (x : Z) : bson_json_reader_t :=
  mk_reader (jr_bson r) (jr_stack r) (jr_n r) (jr_key r) (jr_key_buf r) (jr_read_state r) (jr_bson_state r) x (jr_type_buf0 r) (jr_type_buf1 r) (jr_type_buf2 r) (jr_data r) (jr_code r) (jr_dbpointer_key r) (jr_error r) (jr_stopped r).
Definition set_type_buf0 (r : bson_json_reader_t) (x : bson_json_buf_t) : bson_json_reader_t :=
  mk_reader (jr_bson r) (jr_stack r) (jr_n r) (jr_key r) (jr_key_buf r) (jr_read_state r) (jr_bson_state r) (jr_bson_type r) x (jr_type_buf1 r) (jr_type_buf2 r) (jr_data r) (jr_code r) (jr_dbpointer_key r) (jr_error r) (jr_stopped r).
Definition set_type_buf1 (r : bson_json_reader_t) (x : bson_json_buf_t) : bson_json_reader_t :=
  mk_reader (jr_bson r) (jr_stack r) (jr_n r) (jr_key r) (jr_key_buf r) (jr_read_state r) (jr_bson_state r) (jr_bson_type r) (jr_type_buf0 r) x (jr_type_buf2 r) (jr_data r) (jr_code r) (jr_dbpointer_key r) (jr_error r) (jr_stopped r).
Definition set_type_buf2 (r : bson_json_reader_t) (x : bson_json_buf_t) : bson_json_reader_t :=
  mk_reader (jr_bson r) (jr_stack r) (jr_n r) (jr_key r) (jr_key_buf r) (jr_read_state r) (jr_bson_state r) (jr_bson_type r) (jr_type_buf0 r) (jr_type_buf1 r) x (jr_data r) (jr_code r) (jr_dbpointer_key r) (jr_error r) (jr_stopped r).
Definition set_data (r : bson_json_reader_t) (x : bytes) : bson_json_reader_t :=
  mk_reader (jr_bson r) (jr_stack r) (jr_n r) (jr_key r) (jr_key_buf r) (jr_read_state r) (jr_bson_state r) (jr_bson_type r) (jr_type_buf0 r) (jr_type_buf1 r) (jr_type_buf2 r) x (jr_code r) (jr_dbpointer_key r) (jr_error r) (jr_stopped r).
Definition set_code (r : bson_json_reader_t) (x : bson_json_code_t) : bson_json_reader_t :=
  mk_reader (jr_bson r) (jr_stack r) (jr_n r) (jr_key r) (jr_key_buf r) (jr_read_state r) (jr_bson_state r) (jr_bson_type r) (jr_type_buf0 r) (jr_type_buf1 r) (jr_type_buf2 r) (jr_data r) x (jr_dbpointer_key r) (jr_error r) (jr_stopped r).
Definition set_dbpointer_key (r : bson_json_reader_t) (x : bson_json_buf_t) : bson_json_reader_t :=
  mk_reader (jr_bson r) (jr_stack r) (jr_n r) (jr_key r) (jr_key_buf r) (jr_read_state r) (jr_bson_state r) (jr_bson_type r) (jr_type_buf0 r) (jr_type_buf1 r) (jr_type_buf2 r) (jr_data r) (jr_code r) x (jr_error r) (jr_stopped r).
Definition set_error (r : bson_json_reader_t) (x : option Z) : bson_json_reader_t :=
  mk_reader (jr_bson r) (jr_stack r) (jr_n r) (jr_key r) (jr_key_buf r) (jr_read_state r) (jr_bson_state r) (jr_bson_type r) (jr_type_buf0 r) (jr_type_buf1 r) (jr_type_buf2 r) (jr_data r) (jr_code r) (jr_dbpointer_key r) x (jr_stopped r).
Definition set_stopped (r : bson_json_reader_t) (x : bool) : bson_json_reader_t :=
  mk_reader (jr_bson r) (jr_stack r) (jr_n r) (jr_key r) (jr_key_buf r) (jr_read_state r) (jr_bson_state r) (jr_bson_type r) (jr_type_buf0 r) (jr_type_buf1 r) (jr_type_buf2 r) (jr_data r) (jr_code r) (jr_dbpointer_key r) (jr_error r) x.


(** [bson_malloc0]; the stack has room for 100 frames. *)
Definition bson_json_reader_new (bson : Z) : bson_json_reader_t :=
  mk_reader bson (replicate 100 (mk_frame 0 BSON_JSON_FRAME_ARRAY false false)) 0 None no_buf BSON_JSON_REGULAR BSON_JSON_LF_REGEX 0 no_buf no_buf no_buf
    (replicate 16 0) (mk_code false false false no_buf no_buf) no_buf None false.

(** ** Errors and buffers *)

Definition BSON_JSON_ERROR_READ_CORRUPT_JS : Z := 1.
Definition BSON_JSON_ERROR_READ_INVALID_PARAM : Z := 2.
Definition BSON_JSON_ERROR_READ_CB_FAILURE : Z := 3.

Definition jsonsl_stop (r : bson_json_reader_t) : bson_json_reader_t := set_stopped r true.
Definition _bson_json_read_set_error (r : bson_json_reader_t) : bson_json_reader_t :=
  jsonsl_stop (set_read_state (set_error r (Some BSON_JSON_ERROR_READ_INVALID_PARAM)) BSON_JSON_ERROR).
Definition _bson_json_read_corrupt (r : bson_json_reader_t) : bson_json_reader_t :=
  jsonsl_stop (set_read_state (set_error r (Some BSON_JSON_ERROR_READ_CORRUPT_JS)) BSON_JSON_ERROR).

Definition _bson_json_buf_ensure (buf : bson_json_buf_t) (len : Z) : bson_json_buf_t :=
  if n_bytes buf <? len then mk_buf (Some (bson_malloc (bson_next_power_of_two len))) (jb_len buf) else buf.

(** The block, which is not NULL when [n_bytes] is positive. *)
Definition the_block (buf : bson_json_buf_t) : outcome bytes := match jb_buf buf with Some l => Ret l | None => Oob end.

Definition _bson_json_buf_set (buf : bson_json_buf_t) (from : bytes) (len : Z) : outcome bson_json_buf_t :=
  let buf := _bson_json_buf_ensure buf (u64 (len + 1)) in
  l ← the_block buf;
  bs ← rdn from 0 len;
  l ← wrn l 0 bs;
  l ← wrn l len [0];
  Ret (mk_buf (Some l) len).

Definition _bson_json_buf_append (buf : bson_json_buf_t) (from : bytes) (len : Z) : outcome bson_json_buf_t :=
  let len_with_null := u64 (len + 1) in
  let buf := if jb_len buf =? 0 then _bson_json_buf_ensure buf len_with_null
             else if n_bytes buf <? u64 (jb_len buf + len_with_null)
             then mk_buf (Some (bson_realloc (jb_buf buf) (bson_next_power_of_two (u64 (jb_len buf + len_with_null))))) (jb_len buf)
             else buf in
  l ← the_block buf;
  bs ← rdn from 0 len;
  l ← wrn l (jb_len buf) bs;
  let n := u64 (jb_len buf + len) in
  l ← wrn l n [0];
  Ret (mk_buf (Some l) n).

(** ** The stack *)

Definition STACK_ELE (r : bson_json_reader_t) (delta : Z) : outcome bson_json_stack_frame_t :=
  let i := delta + jr_n r in
  if i <? 0 then Oob else match jr_stack r !! Z.to_nat i with Some f => Ret f | None => Oob end.
Definition put_frame (r : bson_json_reader_t) (f : bson_json_stack_frame_t) : outcome bson_json_reader_t :=
  if (jr_n r <? 0) || (zlen (jr_stack r) <=? jr_n r) then Oob else Ret (set_stack r (<[Z.to_nat (jr_n r) := f]> (jr_stack r))).
Definition STACK_BSON (r : bson_json_reader_t) (delta : Z) : Z := jr_bson r + (delta + jr_n r).
Definition STACK_BSON_PARENT (r : bson_json_reader_t) : Z := STACK_BSON r (-1).
Definition STACK_BSON_CHILD (r : bson_json_reader_t) : Z := STACK_BSON r 0.

Definition is_frame (t u : bson_json_frame_type_t) : bool :=
  match t, u with
  | BSON_JSON_FRAME_ARRAY, BSON_JSON_FRAME_ARRAY | BSON_JSON_FRAME_DOC, BSON_JSON_FRAME_DOC | BSON_JSON_FRAME_SCOPE, BSON_JSON_FRAME_SCOPE | BSON_JSON_FRAME_DBPOINTER, BSON_JSON_FRAME_DBPOINTER => true
  | _, _ => false
  end.
Definition STACK_IS (r : bson_json_reader_t) (t : bson_json_frame_type_t) : outcome bool := f ← STACK_ELE r 0; Ret (is_frame (f_type f) t).

(** The macros return from the handler when the stack is full; otherwise the
    handler goes on with [next]. *)
Definition STACK_PUSH (r : bson_json_reader_t) (enter : bson_json_stack_frame_t -> bson_json_stack_frame_t)
    (statement : bson_json_reader_t -> M ()) (next : bson_json_reader_t -> M bson_json_reader_t) : M bson_json_reader_t :=
  if jr_n r >=? STACK_MAX - 1 then mret r
  else
    let r := set_n r (jr_n r + 1) in
    f ← lift (STACK_ELE r 0);
    r ← lift (put_frame r (enter f));
    (if negb (jr_n r =? 0) then statement r else mret ());;
    next r.
Definition STACK_PUSH_ARRAY r := STACK_PUSH r (fun f => mk_frame 0 BSON_JSON_FRAME_ARRAY (f_has_ref f) (f_has_id f)).
Definition STACK_PUSH_DOC r := STACK_PUSH r (fun f => mk_frame (f_i f) BSON_JSON_FRAME_DOC false false).
Definition set_in_scope (r : bson_json_reader_t) (x : bool) : bson_json_reader_t :=
  let c := jr_code r in set_code r (mk_code (has_code c) (has_scope c) x (code_key_buf c) (code_buf c)).
Definition STACK_PUSH_SCOPE r statement next :=
  STACK_PUSH r (fun f => mk_frame (f_i f) BSON_JSON_FRAME_SCOPE (f_has_ref f) (f_has_id f)) statement
    (fun r => next (set_in_scope r true)).
Definition STACK_PUSH_DBPOINTER r := STACK_PUSH r (fun f => mk_frame (f_i f) BSON_JSON_FRAME_DBPOINTER (f_has_ref f) (f_has_id f)).

(** [array] is whether the frame has to be an array or must not be one. *)
Definition STACK_POP (r : bson_json_reader_t) (array : bool) (statement : M ()) (next : bson_json_reader_t -> M bson_json_reader_t) :
    M bson_json_reader_t :=
  a ← lift (STACK_IS r BSON_JSON_FRAME_ARRAY);
  if negb (eqb a array) then mret r
  else if jr_n r <? 0 then mret r
  else
    (if jr_n r >? 0 then statement else mret ());;
    next (set_n r (jr_n r - 1)).
Definition STACK_POP_ARRAY r := STACK_POP r true.
Definition STACK_POP_DOC r := STACK_POP r false.

(** ** Keys *)

(** [bson->key] where it must not be NULL. *)
Definition key_arg (r : bson_json_reader_t) : outcome bytes :=
  match jr_key r with
  | None => Abort
  | Some (KStatic s) => Ret s
  | Some KBuf => the_block (jr_key_buf r)
  end.
Definition key_length (r : bson_json_reader_t) : Z := s32 (jb_len (jr_key_buf r)).
(** An append with the key of the reader; the result is not looked at. *)
Definition append_with (r : bson_json_reader_t) (f : Z -> bytes -> Z -> M bool) : M () :=
  key ← lift (key_arg r);
  _ ← f (STACK_BSON_CHILD r) key (key_length r);
  mret ().

(** Numbers from 1000 on are written into the buffer. *)
Definition _bson_json_read_fixup_key (r : bson_json_reader_t) : outcome bson_json_reader_t :=
  is_array ← (if 0 <=? jr_n r then STACK_IS r BSON_JSON_FRAME_ARRAY else Ret false);
  if is_array && bool_decide (jr_read_state r = BSON_JSON_REGULAR) then
    let buf := _bson_json_buf_ensure (jr_key_buf r) 12 in
    f ← STACK_ELE r 0;
    '(s, len) ← bson_uint32_to_string (u32 (f_i f)) 12;
    l ← the_block buf;
    r ← (if u32 (f_i f) <? 1000 then Ret (set_key (set_key_buf r (mk_buf (Some l) len)) (Some (KStatic s)))
         else l ← wrn l 0 s; Ret (set_key (set_key_buf r (mk_buf (Some l) len)) (Some KBuf)));
    put_frame r (mk_frame (f_i f + 1) (f_type f) (f_has_ref f) (f_has_id f))
  else Ret r.

Definition _bson_json_save_map_key (r : bson_json_reader_t) (val : bytes) (len : Z) : outcome bson_json_reader_t :=
  b ← _bson_json_buf_set (jr_key_buf r) val len; Ret (set_key (set_key_buf r b) (Some KBuf)).

(** BASIC_CB_BAIL_IF_NOT_NORMAL: whether the handler goes on. *)
Definition bail (r : bson_json_reader_t) : bool :=
  negb (bool_decide (jr_read_state r = BSON_JSON_REGULAR)) || match jr_key r with None => true | Some _ => false end.

(** [len == strlen (k) && strncmp (val, k, len) == 0] *)
Definition IS_KEY (val : bytes) (len : Z) (k : string) : bool :=
  (len =? zlen (chars k)) && bool_decide (take (Z.to_nat len) val = chars k).
Definition strcmp_lit (k : string) (val : bytes) : outcome bool := strcmp_eq (chars k ++ [0]) val.

Definition _is_known_key (key : bytes) (len : Z) : bool :=
  existsb (IS_KEY key len)
    ["$regularExpression"; "$regex"; "$options"; "$code"; "$scope"; "$oid"; "$binary"; "$type"; "$date"; "$undefined"; "$maxKey";
     "$minKey"; "$timestamp"; "$numberInt"; "$numberLong"; "$numberDouble"; "$numberDecimal"; "$dbPointer"; "$symbol"]%string.

(** ** The union *)

Definition get_bool (r : bson_json_reader_t) (off : Z) : outcome bool := b ← rd (jr_data r) off; Ret (negb (b =? 0)).
Definition put_data (r : bson_json_reader_t) (off : Z) (bs : bytes) : outcome bson_json_reader_t :=
  d ← wrn (jr_data r) off bs; Ret (set_data r d).
Definition put_true (r : bson_json_reader_t) (off : Z) : outcome bson_json_reader_t := put_data r off [1].
(** regex: has_pattern 0, has_options 1, is_legacy 2; oid: has_oid 0, oid 1;
    binary: has_binary 0, has_subtype 1, type 4, is_legacy 8; date: has_date 0, date 8;
    timestamp: has_t 0, has_i 1, t 4, i 8; the others at 0. *)
Definition get_int (r : bson_json_reader_t) (off n : Z) : outcome Z := rd_le n (jr_data r) off.

(** ** Simple values *)

Definition _bson_json_read_null (r : bson_json_reader_t) : M bson_json_reader_t :=
  r ← lift (_bson_json_read_fixup_key r);
  if bail r then mret (_bson_json_read_set_error r)
  else append_with r bson_append_null;; mret r.

Definition _bson_json_read_boolean (r : bson_json_reader_t) (val : bool) : M bson_json_reader_t :=
  r ← lift (_bson_json_read_fixup_key r);
  if bool_decide (jr_read_state r = BSON_JSON_IN_BSON_TYPE) && bool_decide (jr_bson_state r = BSON_JSON_LF_UNDEFINED) then lift (put_true r 0)
  else if bail r then mret (_bson_json_read_set_error r)
  else append_with r (fun b key n => bson_append_bool b key n val);; mret r.

(** [sign] is -1 or 1 and [val] the unsigned number. *)
Definition _bson_json_read_integer (r : bson_json_reader_t) (val sign : Z) : M bson_json_reader_t :=
  r ← lift (_bson_json_read_fixup_key r);
  let err := _bson_json_read_set_error r in
  if (sign =? 1) && (val >? INT64_MAX) then mret err
  else if (sign =? -1) && (val >? INT64_MAX + 1) then mret err
  else
    match jr_read_state r with
    | BSON_JSON_REGULAR =>
        if bail r then mret err
        else
          append_with r (fun b key n =>
            if (val <=? INT32_MAX) || ((sign =? -1) && (val <=? INT32_MAX + 1)) then bson_append_int32 b key n (s32 (val * sign))
            else if sign =? -1 then bson_append_int64 b key n (s64 (- val))
            else bson_append_int64 b key n (s64 val));;
          mret r
    | BSON_JSON_IN_BSON_TYPE | BSON_JSON_IN_BSON_TYPE_TIMESTAMP_VALUES =>
        match jr_bson_state r with
        | BSON_JSON_LF_DATE => lift (r ← put_true r 0; put_data r 8 (le_bytes 8 (u64 (sign * val))))
        | BSON_JSON_LF_TIMESTAMP_T => if sign =? -1 then mret err else lift (r ← put_true r 0; put_data r 4 (le_bytes 4 (u32 val)))
        | BSON_JSON_LF_TIMESTAMP_I => if sign =? -1 then mret err else lift (r ← put_true r 1; put_data r 8 (le_bytes 4 (u32 val)))
        | BSON_JSON_LF_MINKEY | BSON_JSON_LF_MAXKEY => if sign =? -1 then mret err else lift (put_true (if val =? 1 then r else err) 0)
        | _ => mret err
        end
    | _ => mret err
    end.

(** [strncasecmp (s1, s2, n) == 0] *)
Fixpoint strncasecmp_eq (s1 s2 : bytes) (n : nat) : outcome bool :=
  match n with
  | O => Ret true
  | S n =>
      match s1, s2 with
      | c1 :: s1, c2 :: s2 =>
          if negb (tolower c1 =? tolower c2) then Ret false
          else if c1 =? 0 then Ret true else strncasecmp_eq s1 s2 n
      | _, _ => Oob
      end
  end.

(** [sscanf (s, "%02x", ...)]: blanks, then at most two characters, a sign included; a
    prefix 0x leaves no digit. *)
Definition hex_digit_val (c : Z) : option Z :=
  if isdigit c then Some (c - 48) else if (97 <=? c) && (c <=? 102) then Some (c - 87) else if (65 <=? c) && (c <=? 70) then Some (c - 55) else None.
Fixpoint scan_hex (s : bytes) : outcome (option Z) :=
  c ← rd s 0;
  if isspace c then match s with [] => Oob | _ :: s => scan_hex s end
  else if (c =? 43) || (c =? 45) then
    d ← rd s 1;
    Ret (match hex_digit_val d with Some d => Some (if c =? 45 then u32 (- d) else d) | None => None end)
  else match hex_digit_val c with
       | None => Ret None
       | Some x =>
           d ← rd s 1;
           Ret (if (c =? 48) && ((d =? 120) || (d =? 88)) then None
                else match hex_digit_val d with Some y => Some (x * 16 + y) | None => Some x end)
       end.

Section Reader.
(** [strtod]: the bits of the number and whether [errno] is ERANGE. *)
Context (strtod : bytes -> Z * bool).

Definition HUGE_VAL : Z := 0x7FF0000000000000.
Definition MINUS_HUGE_VAL : Z := 0xFFF0000000000000.

(** The result and the number in [*d]. *)
Definition _bson_json_parse_double (r : bson_json_reader_t) (val : bytes) (vlen : Z) : outcome (bool * Z * bson_json_reader_t) :=
  let '(d, erange) := strtod val in
  named ← (if ((d =? HUGE_VAL) || (d =? MINUS_HUGE_VAL)) && erange then
             i ← strncasecmp_eq val (chars "infinity" ++ [0]) (Z.to_nat vlen);
             if (i : bool) then Ret true else strncasecmp_eq val (chars "-infinity" ++ [0]) (Z.to_nat vlen)
           else Ret true);
  if negb named then Ret (false, d, _bson_json_read_set_error r) else Ret (true, d, r).

Definition _bson_json_read_double (r : bson_json_reader_t) (val : Z) : M bson_json_reader_t :=
  r ← lift (_bson_json_read_fixup_key r);
  if bail r then mret (_bson_json_read_set_error r)
  else append_with r (fun b key n => bson_append_double b key n val);; mret r.

(** [None] when the error is set. *)
Definition _bson_json_read_int64_or_set_error (r : bson_json_reader_t) (val : bytes) (vlen : Z) : outcome (option Z * bson_json_reader_t) :=
  r ← _bson_json_read_fixup_key r;
  '(v64, endptr, errno) ← bson_ascii_strtoll (Some val) 10;
  if ((v64 =? INT64_MIN) || (v64 =? INT64_MAX)) && (errno =? ERANGE) then Ret (None, _bson_json_read_set_error r)
  else if negb (bool_decide (endptr = Some vlen)) then Ret (None, _bson_json_read_set_error r)
  else Ret (Some v64, r).

(** [bson_append_document_begin (STACK_BSON_PARENT, key, len, STACK_BSON_CHILD)] *)
Definition begin_child (begin : Z -> bytes -> Z -> Z -> M bool) (r : bson_json_reader_t) : M () :=
  key ← lift (key_arg r);
  _ ← begin (STACK_BSON_PARENT r) key (key_length r) (STACK_BSON_CHILD r);
  mret ().

Definition _bson_json_parse_binary_elem (r : bson_json_reader_t) (val_w_null : bytes) (vlen : Z) : M bson_json_reader_t :=
  r ← lift (_bson_json_read_fixup_key r);
  match jr_bson_state r with
  | BSON_JSON_LF_BINARY =>
      r ← lift (put_true r 0);
      '(binary_len, _) ← lift (b64_pton val_w_null None 0);
      let r := if binary_len <? 0 then _bson_json_read_set_error r else r in
      let buf := _bson_json_buf_ensure (jr_type_buf0 r) (u64 (u64 binary_len + 1)) in
      '(_, target) ← lift (b64_pton val_w_null (jb_buf buf) (u64 (u64 binary_len + 1)));
      mret (set_type_buf0 r (mk_buf target (u64 binary_len)))
  | BSON_JSON_LF_TYPE =>
      r ← lift (put_true r 1);
      t ← lift (scan_hex val_w_null);
      match t with
      | Some t => lift (put_data r 4 (le_bytes 4 t))
      | None =>
          is_legacy ← lift (get_bool r 8);
          has_binary ← lift (get_bool r 0);
          if negb is_legacy || has_binary then mret (_bson_json_read_set_error r)
          else
            STACK_PUSH_DOC (set_read_state r BSON_JSON_REGULAR) (begin_child bson_append_document_begin) (fun r =>
              _ ← bson_append_utf8 (STACK_BSON_CHILD r) (chars "$type" ++ [0]) 5 (Some val_w_null) (s32 vlen);
              mret r)
      end
  | _ => mret r
  end.

(** The [switch] of [_bson_json_read_string]; [val_w_null] is the copy of [val]. *)
Definition typed_value (r : bson_json_reader_t) (val val_w_null : bytes) (vlen : Z) : M bson_json_reader_t :=
  let BAD_PARSE r := mret (_bson_json_read_set_error r) in
  let in_type r := bool_decide (jr_read_state r = BSON_JSON_IN_BSON_TYPE) in
  let pattern r := r ← lift (put_true r 0); b ← lift (_bson_json_buf_set (jr_type_buf0 r) val vlen); mret (set_type_buf0 r b) in
  let options r := r ← lift (put_true r 1); b ← lift (_bson_json_buf_set (jr_type_buf1 r) val vlen); mret (set_type_buf1 r b) in
  match jr_bson_state r with
  | BSON_JSON_LF_REGEX => r ← lift (put_true r 2); pattern r
  | BSON_JSON_LF_REGULAR_EXPRESSION_PATTERN => pattern r
  | BSON_JSON_LF_OPTIONS => r ← lift (put_true r 2); options r
  | BSON_JSON_LF_REGULAR_EXPRESSION_OPTIONS => options r
  | BSON_JSON_LF_OID =>
      if negb (vlen =? 24) then BAD_PARSE r
      else r ← lift (put_true r 0); oid ← lift (bson_oid_init_from_string val_w_null); lift (put_data r 1 oid)
  | BSON_JSON_LF_BINARY | BSON_JSON_LF_TYPE => r ← lift (put_true r 8); _bson_json_parse_binary_elem r val_w_null vlen
  | BSON_JSON_LF_INT32 =>
      '(v64, r) ← lift (_bson_json_read_int64_or_set_error r val vlen);
      match v64 with
      | None => mret r
      | Some v64 =>
          if (v64 <? - 2 ^ 31) || (v64 >? INT32_MAX) then BAD_PARSE r
          else if in_type r then lift (put_data r 0 (le_bytes 4 (u32 v64))) else BAD_PARSE r
      end
  | BSON_JSON_LF_INT64 =>
      '(v64, r) ← lift (_bson_json_read_int64_or_set_error r val vlen);
      match v64 with
      | None => mret r
      | Some v64 =>
          if in_type r then lift (put_data r 0 (le_bytes 8 (u64 v64)))
          else if bool_decide (jr_read_state r = BSON_JSON_IN_BSON_TYPE_DATE_NUMBERLONG)
          then lift (r ← put_true r 0; put_data r 8 (le_bytes 8 (u64 v64)))
          else BAD_PARSE r
      end
  | BSON_JSON_LF_DOUBLE => '(_, d, r) ← lift (_bson_json_parse_double r val vlen); lift (put_data r 0 (le_bytes 8 d))
  | BSON_JSON_LF_DATE =>
      v64 ← lift (_bson_iso8601_date_parse val (s32 vlen) true : outcome (date_error + Z));
      match v64 with
      | inl _ => mret (jsonsl_stop (set_error r (Some BSON_JSON_ERROR_READ_CORRUPT_JS)))
      | inr v64 => lift (r ← put_true r 0; put_data r 8 (le_bytes 8 (u64 v64)))
      end
  | BSON_JSON_LF_DECIMAL128 =>
      '(_, dec) ← lift (bson_decimal128_from_string val_w_null);
      if in_type r then lift (put_data r 0 (le_bytes 8 (d_low dec) ++ le_bytes 8 (d_high dec))) else BAD_PARSE r
  | BSON_JSON_LF_CODE =>
      let c := jr_code r in
      b ← lift (_bson_json_buf_set (code_buf c) val vlen);
      mret (set_code r (mk_code (has_code c) (has_scope c) (in_scope c) (code_key_buf c) b))
  | BSON_JSON_LF_SYMBOL => append_with r (fun b key n => bson_append_symbol b key n (Some val) (s32 vlen));; mret r
  | BSON_JSON_LF_DBREF => append_with r (fun b key n => bson_append_utf8 b key n (Some val) (s32 vlen));; mret (set_read_state r BSON_JSON_REGULAR)
  | BSON_JSON_LF_SCOPE | BSON_JSON_LF_TIMESTAMP_T | BSON_JSON_LF_TIMESTAMP_I | BSON_JSON_LF_UNDEFINED | BSON_JSON_LF_MINKEY | BSON_JSON_LF_MAXKEY | BSON_JSON_LF_DBPOINTER => BAD_PARSE r
  end.

Definition read_typed_string (r : bson_json_reader_t) (val : bytes) (vlen : Z) : M bson_json_reader_t :=
  type_buf2 ← lift (_bson_json_buf_set (jr_type_buf2 r) val vlen);
  val_w_null ← lift (the_block type_buf2);
  typed_value (set_type_buf2 r type_buf2) val val_w_null vlen.

(** [val] is terminated. *)
Definition _bson_json_read_string (r : bson_json_reader_t) (val : bytes) (vlen : Z) : M bson_json_reader_t :=
  r ← lift (_bson_json_read_fixup_key r);
  valid ← lift (bson_utf8_validate val vlen true);
  if negb valid then mret (_bson_json_read_corrupt r)
  else
    match jr_read_state r with
    | BSON_JSON_REGULAR =>
        if bail r then mret (_bson_json_read_set_error r)
        else append_with r (fun b key n => bson_append_utf8 b key n (Some val) (s32 vlen));; mret r
    | BSON_JSON_IN_BSON_TYPE_BINARY_VALUES =>
        type_buf2 ← lift (_bson_json_buf_set (jr_type_buf2 r) val vlen);
        val_w_null ← lift (the_block type_buf2);
        _bson_json_parse_binary_elem (set_type_buf2 r type_buf2) val_w_null vlen
    | BSON_JSON_IN_BSON_TYPE | BSON_JSON_IN_BSON_TYPE_TIMESTAMP_VALUES | BSON_JSON_IN_BSON_TYPE_REGEX_VALUES | BSON_JSON_IN_BSON_TYPE_DATE_NUMBERLONG =>
        read_typed_string r val vlen
    | _ => mret (_bson_json_read_set_error r)
    end.

(** ** Objects *)

Definition _bson_json_read_start_map (r : bson_json_reader_t) : M bson_json_reader_t :=
  r ← lift (_bson_json_read_fixup_key r);
  match jr_read_state r with
  | BSON_JSON_IN_BSON_TYPE =>
      match jr_bson_state r with
      | BSON_JSON_LF_DATE => mret (set_read_state r BSON_JSON_IN_BSON_TYPE_DATE_NUMBERLONG)
      | BSON_JSON_LF_BINARY => mret (set_read_state r BSON_JSON_IN_BSON_TYPE_BINARY_VALUES)
      | BSON_JSON_LF_TYPE =>
          STACK_PUSH_DOC (set_read_state r BSON_JSON_IN_START_MAP) (begin_child bson_append_document_begin) (fun r =>
            lift (_bson_json_save_map_key r (chars "$type" ++ [0]) 5))
      | _ => mret r
      end
  | BSON_JSON_IN_BSON_TYPE_TIMESTAMP_STARTMAP => mret (set_read_state r BSON_JSON_IN_BSON_TYPE_TIMESTAMP_VALUES)
  | BSON_JSON_IN_BSON_TYPE_SCOPE_STARTMAP => mret (set_read_state r BSON_JSON_IN_SCOPE)
  | BSON_JSON_IN_BSON_TYPE_DBPOINTER_STARTMAP => mret (set_read_state r BSON_JSON_IN_DBPOINTER)
  | BSON_JSON_IN_BSON_TYPE_REGEX_STARTMAP => mret (set_read_state r BSON_JSON_IN_BSON_TYPE_REGEX_VALUES)
  | _ => mret (set_read_state r BSON_JSON_IN_START_MAP)
  end.

Definition _bson_json_read_code_or_scope_key (r : bson_json_reader_t) (is_scope : bool) (val : bytes) (len : Z) : M bson_json_reader_t :=
  if in_scope (jr_code r) then
    STACK_PUSH_DOC (set_read_state r BSON_JSON_REGULAR) (begin_child bson_append_document_begin) (fun r =>
      lift (_bson_json_save_map_key r val len))
  else
    let c := jr_code r in
    key_buf ← (if jb_len (code_key_buf c) =? 0 then
                 from ← lift (the_block (jr_key_buf r));
                 lift (_bson_json_buf_set (code_key_buf c) from (jb_len (jr_key_buf r)))
               else mret (code_key_buf c));
    if is_scope then
      let r := set_code r (mk_code (has_code c) true (in_scope c) key_buf (code_buf c)) in
      mret (set_bson_state (set_read_state (set_bson_type r BSON_TYPE_CODEWSCOPE) BSON_JSON_IN_BSON_TYPE_SCOPE_STARTMAP) BSON_JSON_LF_SCOPE)
    else
      let r := set_code r (mk_code true (has_scope c) (in_scope c) key_buf (code_buf c)) in
      mret (set_bson_state (set_bson_type r BSON_TYPE_CODE) BSON_JSON_LF_CODE).

Definition _bson_json_bad_key_in_type (r : bson_json_reader_t) : bson_json_reader_t := _bson_json_read_set_error r.

(** HANDLE_OPTION for each entry in turn; [None] when no key matches. *)
Fixpoint HANDLE_OPTION (options : list (string * Z * bson_json_read_bson_state_t)) (val : bytes) (len : Z) (r : bson_json_reader_t) :
    option bson_json_reader_t :=
  match options with
  | [] => None
  | (k, ty, state) :: options =>
      if IS_KEY val len k then
        Some (if negb (jr_bson_type r =? 0) && negb (jr_bson_type r =? ty) then _bson_json_read_set_error r
              else set_bson_state (set_bson_type r ty) state)
      else HANDLE_OPTION options val len r
  end.

Definition type_options : list (string * Z * bson_json_read_bson_state_t) :=
  [("$regex", BSON_TYPE_REGEX, BSON_JSON_LF_REGEX); ("$options", BSON_TYPE_REGEX, BSON_JSON_LF_OPTIONS); ("$oid", BSON_TYPE_OID, BSON_JSON_LF_OID);
   ("$binary", BSON_TYPE_BINARY, BSON_JSON_LF_BINARY); ("$type", BSON_TYPE_BINARY, BSON_JSON_LF_TYPE); ("$date", BSON_TYPE_DATE_TIME, BSON_JSON_LF_DATE);
   ("$undefined", BSON_TYPE_UNDEFINED, BSON_JSON_LF_UNDEFINED); ("$minKey", BSON_TYPE_MINKEY, BSON_JSON_LF_MINKEY); ("$maxKey", BSON_TYPE_MAXKEY, BSON_JSON_LF_MAXKEY);
   ("$numberInt", BSON_TYPE_INT32, BSON_JSON_LF_INT32); ("$numberLong", BSON_TYPE_INT64, BSON_JSON_LF_INT64); ("$numberDouble", BSON_TYPE_DOUBLE, BSON_JSON_LF_DOUBLE);
   ("$symbol", BSON_TYPE_SYMBOL, BSON_JSON_LF_SYMBOL); ("$numberDecimal", BSON_TYPE_DECIMAL128, BSON_JSON_LF_DECIMAL128)]%string.

(** A key inside an object that is a wrapped type. *)
Definition read_type_key (r : bson_json_reader_t) (val : bytes) (len : Z) : M bson_json_reader_t :=
  match HANDLE_OPTION type_options val len r with
  | Some r => mret r
  | None =>
      is_timestamp ← lift (strcmp_lit "$timestamp" val);
      if (is_timestamp : bool) then mret (set_read_state (set_bson_type r BSON_TYPE_TIMESTAMP) BSON_JSON_IN_BSON_TYPE_TIMESTAMP_STARTMAP)
      else
        is_regex ← lift (strcmp_lit "$regularExpression" val);
        if (is_regex : bool) then mret (set_read_state (set_bson_type r BSON_TYPE_REGEX) BSON_JSON_IN_BSON_TYPE_REGEX_STARTMAP)
        else
          is_dbpointer ← lift (strcmp_lit "$dbPointer" val);
          if (is_dbpointer : bool) then
            from ← lift (the_block (jr_key_buf r));
            b ← lift (_bson_json_buf_set (jr_dbpointer_key r) from (jb_len (jr_key_buf r)));
            mret (set_read_state (set_bson_type (set_dbpointer_key r b) BSON_TYPE_DBPOINTER) BSON_JSON_IN_BSON_TYPE_DBPOINTER_STARTMAP)
          else
            is_code ← lift (strcmp_lit "$code" val);
            if (is_code : bool) then _bson_json_read_code_or_scope_key r false val len
            else
              is_scope ← lift (strcmp_lit "$scope" val);
              if (is_scope : bool) then _bson_json_read_code_or_scope_key r true val len
              else mret (_bson_json_bad_key_in_type r)
  end.

(** A key of a plain document: $ref and $db announce a string that is appended as it is. *)
Definition read_plain_key (r : bson_json_reader_t) (val : bytes) (len : Z) : M bson_json_reader_t :=
  r ← lift (_bson_json_save_map_key r val len);
  if jr_n r >? 0 then
    f ← lift (STACK_ELE r 0);
    is_ref ← lift (strcmp_lit "$ref" val);
    if (is_ref : bool) then
      r ← lift (put_frame r (mk_frame (f_i f) (f_type f) true (f_has_id f)));
      mret (set_bson_state (set_read_state r BSON_JSON_IN_BSON_TYPE) BSON_JSON_LF_DBREF)
    else
      is_id ← lift (strcmp_lit "$id" val);
      if (is_id : bool) then lift (put_frame r (mk_frame (f_i f) (f_type f) (f_has_ref f) true))
      else
        is_db ← lift (strcmp_lit "$db" val);
        if (is_db : bool) then mret (set_bson_state (set_read_state r BSON_JSON_IN_BSON_TYPE) BSON_JSON_LF_DBREF) else mret r
  else mret r.

Definition options_or_bad (options : list (string * Z * bson_json_read_bson_state_t)) (r : bson_json_reader_t) (val : bytes) (len : Z) :
    bson_json_reader_t :=
  match HANDLE_OPTION options val len r with Some r => r | None => _bson_json_bad_key_in_type r end.

(** What is done with the key once the state is known. *)
Definition read_key_in_state (r : bson_json_reader_t) (val : bytes) (len : Z) : M bson_json_reader_t :=
  match jr_read_state r with
  | BSON_JSON_IN_BSON_TYPE => read_type_key r val len
  | BSON_JSON_IN_BSON_TYPE_DATE_NUMBERLONG => mret (options_or_bad [("$numberLong"%string, BSON_TYPE_DATE_TIME, BSON_JSON_LF_INT64)] r val len)
  | BSON_JSON_IN_BSON_TYPE_TIMESTAMP_VALUES =>
      mret (options_or_bad [("t"%string, BSON_TYPE_TIMESTAMP, BSON_JSON_LF_TIMESTAMP_T); ("i"%string, BSON_TYPE_TIMESTAMP, BSON_JSON_LF_TIMESTAMP_I)] r val len)
  | BSON_JSON_IN_BSON_TYPE_REGEX_VALUES =>
      mret (options_or_bad [("pattern"%string, BSON_TYPE_REGEX, BSON_JSON_LF_REGULAR_EXPRESSION_PATTERN);
                            ("options"%string, BSON_TYPE_REGEX, BSON_JSON_LF_REGULAR_EXPRESSION_OPTIONS)] r val len)
  | BSON_JSON_IN_BSON_TYPE_BINARY_VALUES =>
      mret (options_or_bad [("base64"%string, BSON_TYPE_BINARY, BSON_JSON_LF_BINARY); ("subType"%string, BSON_TYPE_BINARY, BSON_JSON_LF_TYPE)] r val len)
  | _ => read_plain_key r val len
  end.

Definition _bson_json_read_map_key (r : bson_json_reader_t) (val : bytes) (len : Z) : M bson_json_reader_t :=
  valid ← lift (bson_utf8_validate val len true);
  if negb valid then mret (_bson_json_read_corrupt r)
  else
    match jr_read_state r with
    | BSON_JSON_IN_START_MAP =>
        c ← (if len >? 0 then lift (rd val 0) else mret 0);
        if (len >? 0) && (c =? 36) && _is_known_key val len && (jr_n r >=? 0) then
          read_key_in_state (set_data (set_bson_type (set_read_state r BSON_JSON_IN_BSON_TYPE) 0) (replicate 16 0)) val len
        else
          STACK_PUSH_DOC (set_read_state r BSON_JSON_REGULAR) (begin_child bson_append_document_begin) (fun r => read_key_in_state r val len)
    | BSON_JSON_IN_SCOPE =>
        STACK_PUSH_SCOPE (set_read_state r BSON_JSON_REGULAR) (fun r => bson_init (STACK_BSON_CHILD r)) (fun r =>
          r ← lift (_bson_json_save_map_key r val len); read_key_in_state r val len)
    | BSON_JSON_IN_DBPOINTER =>
        STACK_PUSH_DBPOINTER (set_read_state r BSON_JSON_REGULAR) (fun r => bson_init (STACK_BSON_CHILD r)) (fun r =>
          r ← lift (_bson_json_save_map_key r val len); read_key_in_state r val len)
    | _ => read_key_in_state r val len
    end.

(** ** The ends of objects *)

(** What an append answers: an error when it failed. *)
Definition stored (r : bson_json_reader_t) (ok : bool) : bson_json_reader_t := if negb ok then _bson_json_read_set_error r else r.

Definition _bson_json_read_append_binary (r : bson_json_reader_t) : M bson_json_reader_t :=
  has_binary ← lift (get_bool r 0);
  has_subtype ← lift (get_bool r 1);
  if negb has_binary || negb has_subtype then mret (_bson_json_read_set_error r)
  else
    key ← lift (key_arg r);
    type ← lift (get_int r 4 4);
    buf ← lift (the_block (jr_type_buf0 r));
    ok ← bson_append_binary (STACK_BSON_CHILD r) key (key_length r) type buf (u32 (jb_len (jr_type_buf0 r)));
    mret (stored r ok).

Definition _bson_json_read_append_regex (r : bson_json_reader_t) : M bson_json_reader_t :=
  has_pattern ← lift (get_bool r 0);
  has_options ← lift (get_bool r 1);
  if negb has_pattern || negb has_options then mret (_bson_json_read_set_error r)
  else
    key ← lift (key_arg r);
    ok ← bson_append_regex (STACK_BSON_CHILD r) key (key_length r) (jb_buf (jr_type_buf0 r)) (jb_buf (jr_type_buf1 r));
    mret (stored r ok).

Definition _bson_json_read_append_code (r : bson_json_reader_t) : M bson_json_reader_t :=
  let c := jr_code r in
  BSON_ASSERT (negb (in_scope c));;
  if negb (has_code c) then mret (_bson_json_read_set_error r)
  else
    code ← lift (match jb_buf (code_buf c) with Some code => Ret code | None => Abort end);
    key ← lift (match jb_buf (code_key_buf c) with Some key => Ret key | None => Abort end);
    let scope := if has_scope c then Some (STACK_BSON r 1) else None in
    ok ← bson_append_code_with_scope (STACK_BSON_CHILD r) key (s32 (jb_len (code_key_buf c))) code scope;
    let r := stored r ok in
    (match scope with Some scope => bson_destroy scope | None => mret () end);;
    mret (set_code r (mk_code false false (in_scope c) (mk_buf (jb_buf (code_key_buf c)) 0) (code_buf c))).

(** [while (bson_iter_next (&iter))]: the two values, or [None] after an error. *)
Fixpoint dbpointer_loop (fuel : nat) (iter : bson_iter_t) (ns oid : option bytes) : outcome (option (option bytes * option bytes)) :=
  match fuel with
  | O => Fuel
  | S fuel =>
      '(more, iter) ← bson_iter_next iter;
      if negb more then Ret (Some (ns, oid))
      else
        key ← bson_iter_key iter;
        is_id ← strcmp_eq key (chars "$id" ++ [0]);
        if (is_id : bool) then
          is_oid ← ITER_IS iter BSON_TYPE_OID;
          if negb is_oid then Ret None else oid ← bson_iter_oid iter; dbpointer_loop fuel iter ns oid
        else
          is_ref ← strcmp_eq key (chars "$ref" ++ [0]);
          if (is_ref : bool) then
            is_utf8 ← ITER_IS iter BSON_TYPE_UTF8;
            if negb is_utf8 then Ret None else '(ns, _) ← bson_iter_utf8 iter; dbpointer_loop fuel iter ns oid
          else Ret None
  end.

Definition _bson_json_read_append_dbpointer (r : bson_json_reader_t) : M bson_json_reader_t :=
  key ← lift (match jb_buf (jr_dbpointer_key r) with Some key => Ret key | None => Abort end);
  '(ok, iter) ← bson_iter_init (STACK_BSON r 1);
  if negb ok then mret (_bson_json_read_set_error r)
  else
    found ← lift (dbpointer_loop (iter_fuel iter) iter None None);
    match found with
    | Some (Some ns, Some oid) =>
        ok ← bson_append_dbpointer (STACK_BSON_CHILD r) key (s32 (jb_len (jr_dbpointer_key r))) ns oid;
        mret (stored r ok)
    | _ => mret (_bson_json_read_set_error r)
    end.

Definition _bson_json_read_append_oid (r : bson_json_reader_t) : M bson_json_reader_t :=
  key ← lift (key_arg r);
  oid ← lift (rdn (jr_data r) 1 12);
  ok ← bson_append_oid (STACK_BSON_CHILD r) key (key_length r) oid;
  mret (stored r ok).

Definition _bson_json_read_append_date_time (r : bson_json_reader_t) : M bson_json_reader_t :=
  key ← lift (key_arg r);
  date ← lift (get_int r 8 8);
  ok ← bson_append_date_time (STACK_BSON_CHILD r) key (key_length r) (s64 date);
  mret (stored r ok).

Definition _bson_json_read_append_timestamp (r : bson_json_reader_t) : M bson_json_reader_t :=
  has_t ← lift (get_bool r 0);
  has_i ← lift (get_bool r 1);
  if negb has_t || negb has_i then mret (_bson_json_read_set_error r)
  else
    t ← lift (get_int r 4 4);
    i ← lift (get_int r 8 4);
    append_with r (fun b key n => bson_append_timestamp b key n t i);;
    mret r.

Definition _bad_extended_json (r : bson_json_reader_t) : bson_json_reader_t := _bson_json_read_corrupt r.

(** The [switch] on the type at the end of a wrapped value. *)
Definition append_typed (r : bson_json_reader_t) : M bson_json_reader_t :=
  let ty := jr_bson_type r in
  if ty =? BSON_TYPE_REGEX then _bson_json_read_append_regex r
  else if (ty =? BSON_TYPE_CODE) || (ty =? BSON_TYPE_CODEWSCOPE) then _bson_json_read_append_code r
  else if ty =? BSON_TYPE_OID then _bson_json_read_append_oid r
  else if ty =? BSON_TYPE_BINARY then _bson_json_read_append_binary r
  else if ty =? BSON_TYPE_DATE_TIME then _bson_json_read_append_date_time r
  else if ty =? BSON_TYPE_UNDEFINED then append_with r bson_append_undefined;; mret r
  else if ty =? BSON_TYPE_MINKEY then append_with r bson_append_minkey;; mret r
  else if ty =? BSON_TYPE_MAXKEY then append_with r bson_append_maxkey;; mret r
  else if ty =? BSON_TYPE_INT32 then
    n ← lift (get_int r 0 4); append_with r (fun b key len => bson_append_int32 b key len (s32 n));; mret r
  else if ty =? BSON_TYPE_INT64 then
    n ← lift (get_int r 0 8); append_with r (fun b key len => bson_append_int64 b key len (s64 n));; mret r
  else if ty =? BSON_TYPE_DOUBLE then
    d ← lift (get_int r 0 8); append_with r (fun b key len => bson_append_double b key len d);; mret r
  else if ty =? BSON_TYPE_DECIMAL128 then
    low ← lift (get_int r 0 8);
    high ← lift (get_int r 8 8);
    append_with r (fun b key len => bson_append_decimal128 b key len (mk_dec128 low high));; mret r
  else if ty =? BSON_TYPE_SYMBOL then mret r
  else mret (_bson_json_read_set_error r).

(** The end of an inner object of a wrapped value: append, unless there is no key. *)
Definition end_values (r : bson_json_reader_t) (state : bson_json_read_state_t) (append : bson_json_reader_t -> M bson_json_reader_t) :
    M bson_json_reader_t :=
  match jr_key r with None => mret (_bad_extended_json r) | Some _ => append (set_read_state r state) end.

(** The end of a document of the stack. *)
Definition end_document (r : bson_json_reader_t) : M bson_json_reader_t :=
  let finish r := mret (if jr_n r =? -1 then set_read_state r BSON_JSON_DONE else r) in
  f ← lift (STACK_ELE r 0);
  match f_type f with
  | BSON_JSON_FRAME_SCOPE =>
      STACK_POP_DOC (set_bson_type (set_read_state r BSON_JSON_IN_BSON_TYPE) BSON_TYPE_CODE) (mret ()) (fun r => finish (set_in_scope r false))
  | BSON_JSON_FRAME_DBPOINTER => STACK_POP_DOC (set_read_state r BSON_JSON_IN_BSON_TYPE_DBPOINTER_STARTMAP) (mret ()) finish
  | _ =>
      let r := if negb (eqb (f_has_id f) (f_has_ref f)) then _bson_json_read_set_error r else r in
      STACK_POP_DOC r (_ ← bson_append_document_end (STACK_BSON_PARENT r) (STACK_BSON_CHILD r); mret ()) finish
  end.

(** The second [if] of the handler. *)
Definition end_in_state (r : bson_json_reader_t) : M bson_json_reader_t :=
  match jr_read_state r with
  | BSON_JSON_IN_BSON_TYPE => end_values r BSON_JSON_REGULAR append_typed
  | BSON_JSON_IN_BSON_TYPE_TIMESTAMP_VALUES => end_values r BSON_JSON_IN_BSON_TYPE_TIMESTAMP_ENDMAP _bson_json_read_append_timestamp
  | BSON_JSON_IN_BSON_TYPE_REGEX_VALUES => end_values r BSON_JSON_IN_BSON_TYPE_REGEX_ENDMAP _bson_json_read_append_regex
  | BSON_JSON_IN_BSON_TYPE_BINARY_VALUES => end_values r BSON_JSON_IN_BSON_TYPE_BINARY_ENDMAP _bson_json_read_append_binary
  | BSON_JSON_IN_BSON_TYPE_DATE_NUMBERLONG => end_values r BSON_JSON_IN_BSON_TYPE_DATE_ENDMAP _bson_json_read_append_date_time
  | BSON_JSON_IN_BSON_TYPE_TIMESTAMP_ENDMAP | BSON_JSON_IN_BSON_TYPE_REGEX_ENDMAP | BSON_JSON_IN_BSON_TYPE_BINARY_ENDMAP | BSON_JSON_IN_BSON_TYPE_DATE_ENDMAP =>
      mret (set_read_state r BSON_JSON_REGULAR)
  | BSON_JSON_REGULAR => end_document r
  | BSON_JSON_IN_SCOPE =>
      BSON_ASSERT (has_scope (jr_code r));;
      STACK_PUSH_SCOPE r (fun r => bson_init (STACK_BSON_CHILD r)) (fun r =>
        STACK_POP_DOC r (mret ()) (fun r =>
          mret (set_bson_type (set_read_state (set_in_scope r false) BSON_JSON_IN_BSON_TYPE) BSON_TYPE_CODE)))
  | _ => mret (_bson_json_read_set_error r)
  end.

Definition _bson_json_read_end_map (r : bson_json_reader_t) : M bson_json_reader_t :=
  match jr_read_state r with
  | BSON_JSON_IN_START_MAP => STACK_PUSH_DOC (set_read_state r BSON_JSON_REGULAR) (begin_child bson_append_document_begin) end_in_state
  | BSON_JSON_IN_BSON_TYPE_SCOPE_STARTMAP =>
      STACK_PUSH_SCOPE (set_read_state r BSON_JSON_REGULAR) (fun r => bson_init (STACK_BSON_CHILD r)) end_in_state
  | BSON_JSON_IN_BSON_TYPE_DBPOINTER_STARTMAP => r ← _bson_json_read_append_dbpointer r; mret (set_read_state r BSON_JSON_REGULAR)
  | _ => end_in_state r
  end.

(** ** Lists *)

Definition _bson_json_read_start_array (r : bson_json_reader_t) : M bson_json_reader_t :=
  if negb (bool_decide (jr_read_state r = BSON_JSON_REGULAR)) then mret (_bson_json_read_set_error r)
  else if jr_n r <? 0 then STACK_PUSH_ARRAY r (fun _ => mret ()) mret
  else
    r ← lift (_bson_json_read_fixup_key r);
    STACK_PUSH_ARRAY r (begin_child bson_append_array_begin) mret.

Definition _bson_json_read_end_array (r : bson_json_reader_t) : M bson_json_reader_t :=
  if negb (bool_decide (jr_read_state r = BSON_JSON_REGULAR)) then mret (_bson_json_read_set_error r)
  else
    STACK_POP_ARRAY r (_ ← bson_append_array_end (STACK_BSON_PARENT r) (STACK_BSON_CHILD r); mret ())
      (fun r => mret (if jr_n r =? -1 then set_read_state r BSON_JSON_DONE else r)).

(** ** The callbacks *)

(** What the lexer reports: keys and strings without their escapes, numbers
    with a point or an exponent as their text, the others as sign and magnitude. *)
Inductive json_event :=
| EStartMap | EEndMap | EStartArray | EEndArray
| EKey (s : bytes) | EString (s : bytes) | EDouble (text : bytes) | EInteger (val : Z) (negative : bool) | EBoolean (b : bool) | ENull.

Definition callback (e : json_event) (r : bson_json_reader_t) : M bson_json_reader_t :=
  match e with
  | EStartMap => _bson_json_read_start_map r
  | EEndMap => _bson_json_read_end_map r
  | EStartArray => _bson_json_read_start_array r
  | EEndArray => _bson_json_read_end_array r
  | EKey s => _bson_json_read_map_key r (s ++ [0]) (zlen s)
  | EString s => _bson_json_read_string r (s ++ [0]) (zlen s)
  | EDouble text =>
      '(ok, d, r) ← lift (_bson_json_parse_double r (text ++ [0]) (zlen text));
      if (ok : bool) then _bson_json_read_double r d else mret r
  | EInteger val negative => _bson_json_read_integer r val (if negative then -1 else 1)
  | EBoolean b => _bson_json_read_boolean r b
  | ENull => _bson_json_read_null r
  end.

(** The lexer stops when it is told to. *)
Fixpoint run_events (es : list json_event) (r : bson_json_reader_t) : M bson_json_reader_t :=
  match es with
  | [] => mret r
  | e :: es => if jr_stopped r then mret r else r ← callback e r; run_events es r
  end.

(** [bson_json_reader_read] on a text with the events [es]: 1, or -1 with an error. *)
Definition bson_json_reader_read (r : bson_json_reader_t) (es : list json_event) : M (Z * bson_json_reader_t) :=
  let r := set_error (set_read_state (set_n r (-1)) BSON_JSON_REGULAR) None in
  r ← run_events es r;
  mret (match jr_error r with
        | Some _ => (-1, r)
        | None => if bool_decide (jr_read_state r = BSON_JSON_DONE) then (1, r) else (-1, _bson_json_read_corrupt r)
        end).
End Reader.
