(* ===== verification/JsonEvents.v ===== *)
(** * Extended JSON is read back

    [value_events] are the events of the canonical extended JSON of a value.  The
    handlers of [JsonRead] turn them into the calls of the append functions that
    build the value, so that the document comes back. *)
From stdpp Require Import strings.
From S2P Require Import Prelude Memory Utf8 Strings Format Document Append Lifecycle Build Iter IterSafe RoundTrip Find Values Numbers Oid Dates Calendar Timegm Iso8601 DateText Decimal128 DecimalText Visit Validate Base64 Printf Json JsonText JsonRead.
#[local] Open Scope Z_scope.

(** ** The events of a value *)

Definition wrapped (k : string) (e : list json_event) : list json_event := [EStartMap; EKey (chars k)] ++ e ++ [EEndMap].

(** The text of a double, wrapped. *)
Definition double_string (d : Z) : bytes :=
  if is_nan d then chars "NaN" else if not_finite d then (if dbl_positive d then chars "Infinity" else chars "-Infinity")
  else fmt_g20 d ++ (if digits_only_text (fmt_g20 d) then chars ".0" else []).

Definition leaf_events (v : value) : list json_event :=
  match v with
  | VDouble d => wrapped "$numberDouble" [EString (double_string d)]
  | VUtf8 s => [EString s]
  | VBinary st data =>
      wrapped "$binary" ([EStartMap; EKey (chars "base64"); EString (b64_text data); EKey (chars "subType"); EString (hex2 st); EEndMap])
  | VUndefined => wrapped "$undefined" [EBoolean true]
  | VOid oid => wrapped "$oid" [EString (hex_of oid)]
  | VBool b => [EBoolean b]
  | VDateTime n => wrapped "$date" (wrapped "$numberLong" [EString (fmt_d n)])
  | VNull => [ENull]
  | VRegex r opts => wrapped "$regularExpression" [EStartMap; EKey (chars "pattern"); EString r; EKey (chars "options"); EString (regex_options opts); EEndMap]
  | VDbPointer c oid => wrapped "$dbPointer" ([EStartMap; EKey (chars "$ref"); EString c; EKey (chars "$id")] ++ wrapped "$oid" [EString (hex_of oid)] ++ [EEndMap])
  | VCode js => wrapped "$code" [EString js]
  | VSymbol s => wrapped "$symbol" [EString s]
  | VInt32 n => wrapped "$numberInt" [EString (fmt_d n)]
  | VTimestamp t i => wrapped "$timestamp" [EStartMap; EKey (chars "t"); EInteger t false; EKey (chars "i"); EInteger i false; EEndMap]
  | VInt64 n => wrapped "$numberLong" [EString (fmt_d n)]
  | VDecimal128 low high => wrapped "$numberDecimal" [EString (decimal_text (mk_dec128 low high))]
  | VMaxKey => wrapped "$maxKey" [EInteger 1 false]
  | VMinKey => wrapped "$minKey" [EInteger 1 false]
  | VDocument _ | VArray _ | VCodeWScope _ _ => []
  end.

Fixpoint value_events (v : value) : list json_event :=
  match v with
  | VDocument els => [EStartMap] ++ concat (map (fun '(k, v) => EKey k :: value_events v) els) ++ [EEndMap]
  | VArray els => [EStartArray] ++ concat (map (fun '(_, v) => value_events v) els) ++ [EEndArray]
  | VCodeWScope js scope =>
      [EStartMap; EKey (chars "$code"); EString js; EKey (chars "$scope"); EStartMap]
      ++ concat (map (fun '(k, v) => EKey k :: value_events v) scope) ++ [EEndMap; EEndMap]
  | v => leaf_events v
  end.

Definition member_events (els : list (bytes * value)) : list json_event := concat (map (fun '(k, v) => EKey k :: value_events v) els).
Definition document_events (els : list (bytes * value)) : list json_event := [EStartMap] ++ member_events els ++ [EEndMap].

(** ** What the handlers make of texts that are not printed *)

(** The result, the error and the document that is read. *)
Definition json_read (strtod : bytes -> Z * bool) (es : list json_event) : outcome (Z * option Z * bytes) :=
  match (bson_init 1;; x ← bson_json_reader_read strtod (bson_json_reader_new 1) es; data ← bson_get_data 1; mret (x.1, jr_error x.2, data)) (mk_mem ∅ ∅) with
  | Ret (_, (ret, err, data)) => n ← rd_le 4 data 0; Ret (ret, err, take (Z.to_nat n) data)
  | Abort => Abort
  | Oob => Oob
  | Fuel => Fuel
  end.
Definition no_numbers (s : bytes) : Z * bool := (0, false).

(** The key of code in an array is what is in [key_buf], not the index: here,
    memory that was never written ([undef_byte]), after {"a": [null, {"$code": "f"}]}. *)
Theorem array_code_wrong_key :
  json_read no_numbers (document_events [(chars "a", VArray [(chars "0", VNull); (chars "1", VCode (chars "f"))])]) =
  Ret (1, None, [25; 0; 0; 0; 4; 97; 0; 17; 0; 0; 0; 10; 48; 0; 13; -1; 0; 2; 0; 0; 0; 102; 0; 0; 0]).
Proof. vm_compute. reflexivity. Qed.

(** The result of [bson_decimal128_from_string] is not looked at: a text that is
    not a number is stored as NaN and the reader reports success. *)
Theorem bad_decimal_stored :
  json_read no_numbers ([EStartMap; EKey (chars "k")] ++ wrapped "$numberDecimal" [EString (chars "zzz")] ++ [EEndMap]) =
  Ret (1, None, encode_doc [(chars "k", VDecimal128 0 0x7c00000000000000)]).
Proof. vm_compute. reflexivity. Qed.

(** The characters of an object id are not checked. *)
Theorem bad_oid_stored :
  json_read no_numbers ([EStartMap; EKey (chars "k")] ++ wrapped "$oid" [EString (chars "xyz!        ............")] ++ [EEndMap]) =
  Ret (1, None, encode_doc [(chars "k", VOid (replicate 12 0))]).
Proof. vm_compute. reflexivity. Qed.

(** The seconds of a time stamp are cut to 32 bits without an error. *)
Theorem timestamp_truncated :
  json_read no_numbers ([EStartMap; EKey (chars "k")]
    ++ wrapped "$timestamp" [EStartMap; EKey (chars "t"); EInteger (2 ^ 32 + 1) false; EKey (chars "i"); EInteger 2 false; EEndMap] ++ [EEndMap]) =
  Ret (1, None, encode_doc [(chars "k", VTimestamp 1 2)]).
Proof. vm_compute. reflexivity. Qed.

(** The flags of a wrapped type share their bytes with the value of another: an
    object id followed by a time stamp without t is a time stamp with the bytes
    of the object id. *)
Theorem union_of_two_types :
  json_read no_numbers ([EStartMap; EKey (chars "k"); EStartMap; EKey (chars "$oid"); EString (chars "506070809010203040506070");
    EKey (chars "$timestamp"); EStartMap; EKey (chars "i"); EInteger 2 false; EEndMap; EEndMap; EEndMap]) =
  Ret (1, None, encode_doc [(chars "k", VTimestamp 0x20109080 2)]).
Proof. vm_compute. reflexivity. Qed.

(** An empty key is taken for no key: code whose scope comes first is stored under
    the last key of the scope. *)
Theorem scope_key_for_empty_key :
  json_read no_numbers ([EStartMap; EKey []; EStartMap; EKey (chars "$scope"); EStartMap; EKey (chars "x"); ENull; EEndMap;
    EKey (chars "$code"); EString (chars "f"); EEndMap; EEndMap]) =
  Ret (1, None, encode_doc [(chars "x", VCodeWScope (chars "f") [(chars "x", VNull)])]).
Proof. vm_compute. reflexivity. Qed.

(** Code in a scope is not read: {"$code": ...} becomes a document there. *)
Theorem code_in_scope_is_document :
  json_read no_numbers (document_events [(chars "k", VCodeWScope (chars "f") [(chars "x", VCode (chars "g"))])]) =
  Ret (1, None, encode_doc [(chars "k", VCodeWScope (chars "f") [(chars "x", VDocument [(chars "$code", VUtf8 (chars "g"))])])]).
Proof. vm_compute. reflexivity. Qed.

(** The documents whose buffers are still allocated after the document that was
    read is destroyed. *)
Definition left_over (es : list json_event) : outcome (Z * list Z) :=
  match (bson_init 1;; x ← bson_json_reader_read no_numbers (bson_json_reader_new 1) es; bson_destroy 1;; mret x.1) (mk_mem ∅ ∅) with
  | Ret (m, ret) => Ret (ret, (filter (fun x => is_Some (c_buf x.2)) (map_to_list (cells m))).*1)
  | Abort => Abort
  | Oob => Oob
  | Fuel => Fuel
  end.

(** The document that collects $ref and $id is not destroyed, unlike a scope: when
    the name does not fit into its inline buffer, the buffer is leaked. *)
Theorem dbpointer_leaks :
  left_over (document_events [(chars "k", VDbPointer (replicate 120 97) (replicate 12 0))]) = Ret (1, [2]) /\
  left_over (document_events [(chars "k", VDbPointer (replicate 10 97) (replicate 12 0))]) = Ret (1, []) /\
  left_over (document_events [(chars "k", VCodeWScope [102] [(chars "x", VUtf8 (replicate 120 97))])]) = Ret (1, []).
Proof. vm_compute. done. Qed.
