(* ===== verification/JsonSteps.v ===== *)
(** * The steps of the JSON reader

    What a handler of [JsonRead] does in the states that reading the canonical
    extended JSON goes through: the buffers, the stack, the current key, and the
    entry into a wrapped type. *)
From stdpp Require Import strings.
From S2P Require Import Prelude Memory Utf8 Strings Format Document Append Lifecycle Build Iter IterSafe RoundTrip Find Values Numbers Oid Dates Calendar Timegm Iso8601 DateText Decimal128 DecimalText Visit Validate Base64 Printf Json JsonText JsonRead JsonEvents.
#[local] Open Scope Z_scope.

(** ** Texts *)

Lemma valid_text s post : scalar_text true s -> zlen s < 2 ^ 32 -> bson_utf8_validate (s ++ post) (zlen s) true = Ret true.
Proof.
  intros Hs Hl. destruct (utf8_decides s post true) as (b & -> & Hb); [by eapply scalar_bytes | done |].
  f_equal. by apply Hb, scalar_utf8.
Qed.

Lemma plain_scalar s : plain_text s -> scalar_text true s.
Proof.
  induction 1 as [|c s Hc _ IH]; [constructor|]. unfold plain_char in Hc.
  assert (E : utf8_encode c = [c]) by (unfold utf8_encode; by replace (c <? 128) with true by lia).
  change (c :: s) with ([c] ++ s). rewrite <- E. apply scalar_cons; [unfold scalar_value; lia | by right | done].
Qed.

(** ** Buffers *)

Lemma next_power_ge v : 1 <= v < 2 ^ 32 -> v <= bson_next_power_of_two v.
Proof.
  intros Hv. destruct (decide (v = 1)) as [->|]; [by vm_compute|].
  rewrite next_power_of_two_spec by lia. apply Z.log2_up_spec. lia.
Qed.

Lemma buf_ensure_room buf len : 1 <= len < 2 ^ 32 ->
  exists l, the_block (_bson_json_buf_ensure buf len) = Ret l /\ len <= zlen l /\ n_bytes (_bson_json_buf_ensure buf len) = zlen l.
Proof.
  intros Hl. pose proof (next_power_ge len Hl). unfold _bson_json_buf_ensure, the_block, n_bytes.
  destruct (jb_buf buf) as [l|] eqn:E.
  - destruct (_ <? _) eqn:El; bool_hyps; cbn [jb_buf]; rewrite ?E; eexists; (split; [done|]); split; try done; rewrite ?zlen_bson_malloc; lia.
  - replace (0 <? len) with true by lia. cbn [jb_buf]. eexists. split; [done|]. split; [|done]. rewrite zlen_bson_malloc; lia.
Qed.

Lemma buf_set_spec buf s rest : zlen s < 2 ^ 31 ->
  exists post, _bson_json_buf_set buf (s ++ rest) (zlen s) = Ret (mk_buf (Some (s ++ 0 :: post)) (zlen s)).
Proof.
  intros Hs. pose proof (zlen_nonneg s). unfold _bson_json_buf_set. rewrite (u64_id (zlen s + 1)) by lia.
  destruct (buf_ensure_room buf (zlen s + 1) ltac:(lia)) as (l & -> & Hl & _). cbn [mbind outcome_bind].
  rewrite rdn_front by done. cbn [mbind outcome_bind].
  assert (exists a x post, l = a ++ x :: post /\ zlen a = zlen s) as (a & x & post & -> & Ha).
  { exists (take (length s) l). destruct (drop (length s) l) as [|x post] eqn:E.
    - apply (f_equal length) in E. rewrite length_drop in E. unfold zlen in *. cbn in E. lia.
    - exists x, post. rewrite <- E, take_drop. split; [done|]. unfold zlen in *. rewrite length_take. lia. }
  change (a ++ x :: post) with ([] ++ a ++ x :: post). rewrite wrn_mid by done. cbn [app mbind outcome_bind].
  change (x :: post) with ([x] ++ post). rewrite wrn_mid by done. cbn [mbind outcome_bind]. by exists post.
Qed.

(** Saving the same text again changes nothing. *)
Lemma buf_set_again s rest post : zlen s < 2 ^ 31 ->
  _bson_json_buf_set (mk_buf (Some (s ++ 0 :: post)) (zlen s)) (s ++ rest) (zlen s) = Ret (mk_buf (Some (s ++ 0 :: post)) (zlen s)).
Proof.
  intros Hs. pose proof (zlen_nonneg s). pose proof (zlen_nonneg post). unfold _bson_json_buf_set. rewrite (u64_id (zlen s + 1)) by lia.
  unfold _bson_json_buf_ensure, n_bytes. cbn [jb_buf]. rewrite zlen_app, zlen_cons. replace (_ <? _) with false by lia.
  cbn [the_block jb_buf mbind outcome_bind]. rewrite rdn_front by done. cbn [mbind outcome_bind].
  change (s ++ 0 :: post) with ([] ++ s ++ 0 :: post) at 1. rewrite wrn_mid by done. cbn [app mbind outcome_bind].
  change (0 :: post) with ([0] ++ post). rewrite wrn_mid by done. done.
Qed.

(** ** The stack *)

Lemma eval_lift {A B} (x : outcome A) (a : A) (K : A -> M B) m : x = Ret a -> mbind K (lift x) m = K a m.
Proof. by intros ->. Qed.
Lemma eval_mret {A B} (a : A) (K : A -> M B) m : mbind K (mret a) m = K a m.
Proof. done. Qed.

(** The frames of the stack are [fs]; their documents start at the address [b],
    and [c] holds of what is remembered of code. *)
Record stands (b : Z) (fs : list bson_json_stack_frame_t) (c : bson_json_code_t -> Prop) (r : bson_json_reader_t) : Prop := mk_stands {
  stands_bson : jr_bson r = b;
  stands_n : jr_n r = zlen fs - 1;
  stands_size : length (jr_stack r) = 100%nat;
  stands_place : take (length fs) (jr_stack r) = fs;
  stands_code : c (jr_code r);
  stands_key : 1 < zlen fs -> jr_key r <> None;
  stands_runs : jr_stopped r = false;
  stands_fine : jr_error r = None;
}.

(** Only some of the fields matter. *)
Lemma stands_same b fs c r r' : stands b fs c r -> jr_bson r' = jr_bson r -> jr_n r' = jr_n r -> jr_stack r' = jr_stack r ->
  jr_code r' = jr_code r -> (jr_key r <> None -> jr_key r' <> None) -> jr_stopped r' = jr_stopped r -> jr_error r' = jr_error r -> stands b fs c r'.
Proof. intros [] H1 H2 H3 H4 H5 H6 H7. constructor; rewrite ?H1, ?H2, ?H3, ?H4, ?H6, ?H7; auto. Qed.
Ltac same_by H := eapply stands_same; [exact H | try reflexivity; auto ..].

(** The updates that keep the place of the reader. *)
Lemma stands_read_state b fs c r x : stands b fs c r -> stands b fs c (set_read_state r x).
Proof. intros H. same_by H. Qed.
Lemma stands_bson_state b fs c r x : stands b fs c r -> stands b fs c (set_bson_state r x).
Proof. intros H. same_by H. Qed.
Lemma stands_bson_type b fs c r x : stands b fs c r -> stands b fs c (set_bson_type r x).
Proof. intros H. same_by H. Qed.
Lemma stands_type_buf0 b fs c r x : stands b fs c r -> stands b fs c (set_type_buf0 r x).
Proof. intros H. same_by H. Qed.
Lemma stands_type_buf2 b fs c r x : stands b fs c r -> stands b fs c (set_type_buf2 r x).
Proof. intros H. same_by H. Qed.
Lemma stands_data b fs c r x : stands b fs c r -> stands b fs c (set_data r x).
Proof. intros H. same_by H. Qed.
Lemma stands_key_buf b fs c r x : stands b fs c r -> stands b fs c (set_key_buf r x).
Proof. intros H. same_by H. Qed.
Lemma stands_new_key b fs c r x : stands b fs c r -> stands b fs c (set_key r (Some x)).
Proof. intros H. by same_by H. Qed.
Lemma stands_other_code b fs c c' r x : stands b fs c r -> c' x -> stands b fs c' (set_code r x).
Proof. intros [] Hx. by constructor. Qed.
Ltac same := lazymatch goal with
  | |- stands _ _ _ (set_read_state _ _) => apply stands_read_state; same
  | |- stands _ _ _ (set_bson_state _ _) => apply stands_bson_state; same
  | |- stands _ _ _ (set_bson_type _ _) => apply stands_bson_type; same
  | |- stands _ _ _ (set_type_buf0 _ _) => apply stands_type_buf0; same
  | |- stands _ _ _ (set_type_buf2 _ _) => apply stands_type_buf2; same
  | |- stands _ _ _ (set_data _ _) => apply stands_data; same
  | |- stands _ _ _ (set_key_buf _ _) => apply stands_key_buf; same
  | |- stands _ _ _ (set_key _ (Some _)) => apply stands_new_key; same
  | |- stands ?b ?fs ?c ?r =>
      first [ match goal with H : stands _ _ _ ?x |- _ => constr_eq x r; exact H end
            | is_var r; let v := eval cbv delta [r] in r in change (stands b fs c v); same
            | let v := eval red in r in change (stands b fs c v); same ]
  end.

Lemma stands_depth b fs c r : stands b fs c r -> zlen fs <= 100.
Proof.
  intros H. pose proof (f_equal length (stands_place _ _ _ _ H)) as E. rewrite length_take, (stands_size _ _ _ _ H) in E. unfold zlen. lia.
Qed.

Lemma snoc_place {A} (l : list A) fs f : take (length (fs ++ [f])) l = fs ++ [f] -> l !! length fs = Some f /\ take (length fs) l = fs.
Proof.
  intros E. rewrite <- (take_drop (length (fs ++ [f])) l), E. split.
  - rewrite lookup_app_l by (rewrite length_app; cbn; lia). by rewrite lookup_app_r, Nat.sub_diag by lia.
  - by rewrite <- app_assoc, take_app_length.
Qed.

Section Top.
Context (b : Z) (fs : list bson_json_stack_frame_t) (f : bson_json_stack_frame_t) (c : bson_json_code_t -> Prop) (r : bson_json_reader_t).
Context (H : stands b (fs ++ [f]) c r).

Lemma top_n : jr_n r = zlen fs.
Proof using H. rewrite (stands_n _ _ _ _ H), zlen_app. change (zlen [f]) with 1. lia. Qed.

Lemma top_depth : 0 <= zlen fs < 100.
Proof using H. pose proof (stands_depth _ _ _ _ H) as Hd. rewrite zlen_app in Hd. change (zlen [f]) with 1 in Hd. pose proof (zlen_nonneg fs). lia. Qed.

Lemma stack_ele : STACK_ELE r 0 = Ret f.
Proof using H.
  unfold STACK_ELE. rewrite top_n. pose proof top_depth. replace (_ <? 0) with false by lia.
  unfold zlen. rewrite Z.add_0_l, Nat2Z.id. by rewrite (proj1 (snoc_place _ _ _ (stands_place _ _ _ _ H))).
Qed.

Lemma stack_is t : STACK_IS r t = Ret (is_frame (f_type f) t).
Proof using H. unfold STACK_IS. by rewrite stack_ele. Qed.

Lemma child_address : STACK_BSON_CHILD r = b + zlen fs.
Proof using H. unfold STACK_BSON_CHILD, STACK_BSON. rewrite top_n, (stands_bson _ _ _ _ H). lia. Qed.

(** Replacing the top. *)
Lemma put_top g : let st := <[length fs := g]> (jr_stack r) in put_frame r g = Ret (set_stack r st) /\ stands b (fs ++ [g]) c (set_stack r st).
Proof using H.
  pose proof top_depth as Hd. pose proof top_n as Hn. pose proof (stands_place _ _ _ _ H) as Hp. pose proof (stands_size _ _ _ _ H) as Hs.
  cbn zeta. unfold put_frame. rewrite Hn. split.
  - unfold zlen in *. rewrite Hs, Nat2Z.id. replace (_ <? 0) with false by lia. change (Z.of_nat 100) with 100. by replace (100 <=? _) with false by lia.
  - destruct H. constructor; try done; cbn [jr_stack jr_n jr_key set_stack]; [rewrite zlen_app; change (zlen [g]) with 1; lia | by rewrite length_insert | | by rewrite zlen_app in *].
    rewrite take_insert_lt by (rewrite length_app; cbn; lia). rewrite length_app in *. cbn [length] in *.
    rewrite Hp. by rewrite insert_app_r_alt, Nat.sub_diag by lia.
Qed.

(** Leaving the top. *)
Lemma pop_top : stands b fs c (set_n r (jr_n r - 1)).
Proof using H.
  pose proof top_n. pose proof (snoc_place _ _ _ (stands_place _ _ _ _ H)) as [_ Hp]. destruct H. constructor; try done; cbn [jr_n jr_key set_n]; [lia|]. rewrite zlen_app in *. change (zlen [f]) with 1 in *. intros. apply stands_key0. lia.
Qed.
End Top.

(** A frame more: the statement runs when it is not the first. *)
Lemma push_spec b fs c r enter : stands b fs c r -> zlen fs < 100 -> (fs <> [] -> jr_key r <> None) ->
  exists f, jr_stack r !! length fs = Some f /\ let r' := set_stack (set_n r (zlen fs)) (<[length fs := enter f]> (jr_stack r)) in
    stands b (fs ++ [enter f]) c r' /\
    forall statement next m, STACK_PUSH r enter statement next m = ((if negb (zlen fs =? 0) then statement r' else mret ());; next r') m.
Proof.
  intros H Hd Hkey. pose proof (zlen_nonneg fs). set (r1 := set_n r (zlen fs)).
  destruct (lookup_lt_is_Some_2 (jr_stack r) (length fs)) as [f Hf]; [rewrite (stands_size _ _ _ _ H); unfold zlen in Hd; lia|].
  assert (H1 : stands b (fs ++ [f]) c r1).
  { destruct H. constructor; try done; cbn [jr_n jr_stack r1 set_n].
    - rewrite zlen_app. change (zlen [f]) with 1. lia.
    - rewrite length_app. cbn [length]. rewrite Nat.add_1_r. erewrite take_S_r by exact Hf. by f_equal.
    - intros Hlt. apply Hkey. intros ->. change (zlen ([] ++ [f])) with 1 in Hlt. lia. }
  destruct (put_top _ _ _ _ _ H1 (enter f)) as [Ep H2]. exists f. cbn zeta. split; [done|]. split; [exact H2|].
  intros statement next m. unfold STACK_PUSH, STACK_MAX. rewrite (stands_n _ _ _ _ H). replace (_ >=? _) with false by lia.
  replace (zlen fs - 1 + 1) with (zlen fs) by lia. fold r1. rewrite (eval_lift _ _ _ _ (stack_ele _ _ _ _ _ H1)), (eval_lift _ _ _ _ Ep). done.
Qed.

(** ** Keys *)

Definition idle (b : Z) (fs : list bson_json_stack_frame_t) (c : bson_json_code_t -> Prop) (r : bson_json_reader_t) : Prop :=
  stands b fs c r /\ jr_read_state r = BSON_JSON_REGULAR.

(** The current key is [k]. *)
Definition keyed (k : bytes) (r : bson_json_reader_t) : Prop :=
  (exists post, key_arg r = Ret (k ++ 0 :: post)) /\ jb_len (jr_key_buf r) = zlen k.

Lemma keyed_some k r : keyed k r -> jr_key r <> None.
Proof. intros [[post E] _]. unfold key_arg in E. by destruct (jr_key r). Qed.

(** Only the key and its buffer matter. *)
Lemma keyed_same k r r' : keyed k r -> jr_key r' = jr_key r -> jr_key_buf r' = jr_key_buf r -> keyed k r'.
Proof. unfold keyed, key_arg. by intros ? -> ->. Qed.

Lemma fixup_none b fs f c r :
  stands b (fs ++ [f]) c r -> f_type f <> BSON_JSON_FRAME_ARRAY \/ jr_read_state r <> BSON_JSON_REGULAR -> _bson_json_read_fixup_key r = Ret r.
Proof.
  intros H Hn. pose proof (top_depth _ _ _ _ _ H). unfold _bson_json_read_fixup_key. rewrite (top_n _ _ _ _ _ H). replace (0 <=? _) with true by lia.
  rewrite (stack_is _ _ _ _ _ H). cbn [mbind outcome_bind]. destruct Hn as [Hn|Hn].
  - by destruct (f_type f).
  - rewrite bool_decide_eq_false_2 by done. by rewrite andb_false_r.
Qed.

Lemma zlen_fmt_u n : 0 <= n < 2 ^ 32 -> zlen (fmt_u n) <= 10.
Proof. intros Hn. apply dec_loop_length; lia. Qed.

Lemma fixup_array b fs i x y c r : idle b (fs ++ [mk_frame i BSON_JSON_FRAME_ARRAY x y]) c r -> 0 <= i < 2 ^ 31 ->
  exists r1, _bson_json_read_fixup_key r = Ret r1 /\ idle b (fs ++ [mk_frame (i + 1) BSON_JSON_FRAME_ARRAY x y]) c r1 /\ keyed (fmt_u i) r1.
Proof.
  intros [H Hs] Hi. pose proof (top_depth _ _ _ _ _ H). unfold _bson_json_read_fixup_key. rewrite (top_n _ _ _ _ _ H). replace (0 <=? _) with true by lia.
  rewrite (stack_is _ _ _ _ _ H), (stack_ele _ _ _ _ _ H), Hs. cbn [mbind outcome_bind f_type f_i is_frame andb bool_decide]. rewrite bool_decide_eq_true_2 by done.
  rewrite (u32_id i) by lia. rewrite uint32_to_string_spec by lia. cbn [mbind outcome_bind].
  destruct (buf_ensure_room (jr_key_buf r) 12 ltac:(lia)) as (l & -> & Hl & _). cbn [mbind outcome_bind].
  assert (exists r0, (if i <? 1000 then Ret (set_key (set_key_buf r (mk_buf (Some l) (zlen (fmt_u i)))) (Some (KStatic (fmt_u i ++ [0]))))
      else l ← wrn l 0 (fmt_u i ++ [0]); Ret (set_key (set_key_buf r (mk_buf (Some l) (zlen (fmt_u i)))) (Some KBuf))) = Ret r0 /\
      stands b (fs ++ [mk_frame i BSON_JSON_FRAME_ARRAY x y]) c r0 /\ jr_read_state r0 = BSON_JSON_REGULAR /\ keyed (fmt_u i) r0) as (r0 & -> & T0 & S0 & K0).
  { destruct (i <? 1000).
    - eexists. split; [done|]. split; [same|]. split; [done|]. split; [by exists [] | done].
    - pose proof (zlen_fmt_u i ltac:(lia)). rewrite wrn_ret by (rewrite ?zlen_app; change (zlen [0]) with 1; lia). cbn [mbind outcome_bind].
      eexists. split; [done|]. split; [same|]. split; [done|]. split; [|done]. eexists. cbn. rewrite take_0, <- app_assoc. done. }
  cbn [mbind outcome_bind f_has_ref f_has_id]. destruct (put_top _ _ _ _ _ T0 (mk_frame (i + 1) BSON_JSON_FRAME_ARRAY x y)) as [-> H1].
  eexists. split; [done|]. split; [by split|]. by eapply keyed_same.
Qed.

(** A value can follow: its key is [k], in the buffer itself when [own]. *)
Definition ready (b : Z) (fs : list bson_json_stack_frame_t) (c : bson_json_code_t -> Prop) (k : bytes) (own : bool) (r : bson_json_reader_t) : Prop :=
  (jr_read_state r = BSON_JSON_REGULAR /\ 0 <= jr_n r /\ jr_stopped r = false) /\
  exists r1, _bson_json_read_fixup_key r = Ret r1 /\ idle b fs c r1 /\ keyed k r1 /\ (own = true -> jr_key r1 = Some KBuf).

Lemma ready_runs b fs c k own r : ready b fs c k own r -> jr_stopped r = false.
Proof. by intros [(_ & _ & H) _]. Qed.

Lemma idle_ready b fs f c r r1 k own : idle b (fs ++ [f]) c r -> _bson_json_read_fixup_key r = Ret r1 -> forall fs', idle b fs' c r1 -> keyed k r1 ->
  (own = true -> jr_key r1 = Some KBuf) -> ready b fs' c k own r.
Proof.
  intros [H S] E fs' I1 K1 O1. split; [|by exists r1]. split; [done|]. split; [|exact (stands_runs _ _ _ _ H)].
  rewrite (top_n _ _ _ _ _ H). apply zlen_nonneg.
Qed.

Lemma save_key_spec b fs c r k : stands b fs c r -> zlen k < 2 ^ 31 ->
  exists r1, _bson_json_save_map_key r (k ++ [0]) (zlen k) = Ret r1 /\ stands b fs c r1 /\ keyed k r1 /\ jr_key r1 = Some KBuf /\
    jr_read_state r1 = jr_read_state r /\ _bson_json_save_map_key r1 (k ++ [0]) (zlen k) = Ret r1.
Proof.
  intros H Hk. destruct (buf_set_spec (jr_key_buf r) k [0] Hk) as [post E]. unfold _bson_json_save_map_key. rewrite E. cbn [mbind outcome_bind].
  eexists. split; [done|]. split; [same|]. split; [split; [by exists post | done]|]. split; [done|]. split; [done|].
  cbn [jr_key_buf set_key set_key_buf]. rewrite buf_set_again by done. done.
Qed.

(** ** Events *)

Ltac calc t := let v := eval vm_compute in t in change t with v.
Ltac calc_tests := repeat match goal with |- context [?x =? ?y] => calc (x =? y) end; cbn [orb andb negb]; cbv iota.

(** Evaluation of tests on keys that are given. *)
Ltac calc_key := repeat match goal with
  | |- context [bson_utf8_validate ?a ?b ?c] => calc (bson_utf8_validate a b c); rewrite (eval_lift (Ret true) true) by reflexivity; cbn [negb]; cbv iota
  | |- context [IS_KEY ?a ?b ?c] => calc (IS_KEY a b c); cbv iota
  | |- context [_is_known_key ?a ?b] => calc (_is_known_key a b)
  | |- context [strcmp_lit ?a ?b] => calc (strcmp_lit a b); rewrite (eval_lift (Ret _) _) by reflexivity; cbv iota
  end.

Section Events.
Context (strtod : bytes -> Z * bool).
#[local] Abbreviation callback := (callback strtod).
#[local] Abbreviation run_events := (run_events strtod).

Lemma run_cons e es r m m' r' : jr_stopped r = false -> callback e r m = Ret (m', r') -> run_events (e :: es) r m = run_events es r' m'.
Proof. intros Hs E. cbn [JsonRead.run_events]. rewrite Hs. by rewrite (run_bind _ _ _ _ _ E). Qed.

Lemma run_app es1 : forall es2 r m, run_events (es1 ++ es2) r m = (r' ← run_events es1 r; run_events es2 r') m.
Proof.
  induction es1 as [|e es1 IH]; intros es2 r m; [done|]. cbn [app JsonRead.run_events]. destruct (jr_stopped r) eqn:Hs.
  - rewrite eval_mret. destruct es2; cbn [JsonRead.run_events]; by rewrite ?Hs.
  - unfold mbind, M_bind. destruct (callback e r m) as [[m' r']| | |]; done.
Qed.

(** The start of an object. *)
Lemma start_map_spec b fs c k own r : ready b fs c k own r ->
  exists r1, stands b fs c r1 /\ jr_read_state r1 = BSON_JSON_IN_START_MAP /\ keyed k r1 /\ (own = true -> jr_key r1 = Some KBuf) /\
    forall m, callback EStartMap r m = Ret (m, r1).
Proof.
  intros (_ & r1 & E & [H Hs] & K & O). exists (set_read_state r1 BSON_JSON_IN_START_MAP).
  split; [same|]. split; [done|]. split; [by eapply keyed_same|]. split; [done|].
  intros m. cbn [JsonRead.callback]. unfold _bson_json_read_start_map. rewrite (eval_lift _ _ _ _ E). by rewrite Hs.
Qed.

(** The first key of an object that is a wrapped type. *)
Definition entered (r : bson_json_reader_t) : bson_json_reader_t :=
  set_data (set_bson_type (set_read_state r BSON_JSON_IN_BSON_TYPE) 0) (replicate 16 0).
Definition typed (r : bson_json_reader_t) (ty : Z) (st : bson_json_read_bson_state_t) : bson_json_reader_t :=
  set_bson_state (set_bson_type (entered r) ty) st.

Lemma known_key_spec b fs f c r (k : string) m : stands b (fs ++ [f]) c r -> jr_read_state r = BSON_JSON_IN_START_MAP ->
  bson_utf8_validate (chars k ++ [0]) (zlen (chars k)) true = Ret true -> (zlen (chars k) >? 0) = true -> rd (chars k ++ [0]) 0 = Ret 36 ->
  _is_known_key (chars k ++ [0]) (zlen (chars k)) = true ->
  callback (EKey (chars k)) r m = read_type_key (entered r) (chars k ++ [0]) (zlen (chars k)) m.
Proof.
  intros H Hs Hv Hl Hc Hk. pose proof (top_depth _ _ _ _ _ H). cbn [JsonRead.callback]. unfold _bson_json_read_map_key.
  rewrite (eval_lift _ _ _ _ Hv). cbn [negb]. rewrite Hs, Hl, (eval_lift _ _ _ _ Hc), Hk, (top_n _ _ _ _ _ H).
  by replace (zlen fs >=? 0) with true by lia.
Qed.

Lemma type_key_spec b fs f c r k ty st m : stands b (fs ++ [f]) c r -> jr_read_state r = BSON_JSON_IN_START_MAP -> In (k, ty, st) type_options ->
  callback (EKey (chars k)) r m = Ret (m, typed r ty st).
Proof.
  intros H Hs Hin.
  repeat (destruct Hin as [[= <- <- <-]|Hin];
    [erewrite known_key_spec by (eassumption || reflexivity); unfold read_type_key, type_options; cbn [HANDLE_OPTION]; calc_key; reflexivity|]).
  destruct Hin.
Qed.

(** A string as the content of a wrapped type. *)
Lemma typed_string_spec b fs f c r s : stands b (fs ++ [f]) c r ->
  jr_read_state r = BSON_JSON_IN_BSON_TYPE \/ jr_read_state r = BSON_JSON_IN_BSON_TYPE_DATE_NUMBERLONG ->
  scalar_text true s -> zlen s < 2 ^ 31 ->
  exists post, forall m, callback (EString s) r m =
    typed_value strtod (set_type_buf2 r (mk_buf (Some (s ++ 0 :: post)) (zlen s))) (s ++ [0]) (s ++ 0 :: post) (zlen s) m.
Proof.
  intros H Hs Ht Hl. destruct (buf_set_spec (jr_type_buf2 r) s [0] Hl) as [post E]. exists post. intros m. cbn [JsonRead.callback].
  unfold _bson_json_read_string. erewrite eval_lift by (eapply fixup_none; [exact H | right; by destruct Hs as [-> | ->]]).
  rewrite (eval_lift _ true) by (apply valid_text; [done | lia]). cbn [negb].
  assert (Hr : read_typed_string strtod r (s ++ [0]) (zlen s) m =
    typed_value strtod (set_type_buf2 r (mk_buf (Some (s ++ 0 :: post)) (zlen s))) (s ++ [0]) (s ++ 0 :: post) (zlen s) m).
  { unfold read_typed_string. by rewrite (eval_lift _ _ _ _ E), (eval_lift _ _ _ _ (eq_refl (Ret (s ++ 0 :: post)))). }
  by destruct Hs as [-> | ->].
Qed.

Lemma end_typed r m : jr_read_state r = BSON_JSON_IN_BSON_TYPE -> jr_key r <> None ->
  callback EEndMap r m = append_typed (set_read_state r BSON_JSON_REGULAR) m.
Proof.
  intros Hs K. cbn [JsonRead.callback]. unfold _bson_json_read_end_map, end_in_state, end_values. rewrite Hs. by destruct (jr_key r).
Qed.

Lemma end_typed_spec r k m : jr_read_state r = BSON_JSON_IN_BSON_TYPE -> keyed k r ->
  callback EEndMap r m = append_typed (set_read_state r BSON_JSON_REGULAR) m.
Proof. intros Hs K. apply end_typed; [done | by eapply keyed_some]. Qed.

(** ** The calls of the append functions *)

Section Calls.
Context (b : Z) (fs : list bson_json_stack_frame_t) (f : bson_json_stack_frame_t) (c : bson_json_code_t -> Prop) (k : bytes) (r : bson_json_reader_t).
Context (H : stands b (fs ++ [f]) c r) (K : keyed k r) (Hk : zlen k < 2 ^ 31).

Lemma key_length_spec : key_length r = zlen k.
Proof using K Hk. unfold key_length. rewrite (proj2 K). apply s32_id. pose proof (zlen_nonneg k). lia. Qed.

Lemma append_with_spec g m m' key : key_arg r = Ret key -> g (b + zlen fs) key (zlen k) m = Ret (m', true) -> append_with r g m = Ret (m', ()).
Proof using H K Hk.
  intros E Eg. unfold append_with. rewrite (eval_lift _ _ _ _ E), key_length_spec, (child_address _ _ _ _ _ H).
  by rewrite (run_bind _ _ _ _ _ Eg).
Qed.
End Calls.

Lemma key_ok_here k post : zlen k < 2 ^ 31 -> key_ok (k ++ 0 :: post) (zlen k) k.
Proof. intros Hk. split; [done|]. left. split; [done|]. by exists (0 :: post). Qed.

(** The size of what is appended bounds everything in it. *)
Lemma yields_small {A} (x : M A) b data Q : (zlen data <= 2 ^ 30 -> yields x b data Q) -> yields x b data Q.
Proof.
  intros H m o pre body slack R W G Ho Hsz.
  pose proof (zlen_nonneg pre). pose proof (zlen_nonneg body). pose proof (rep_depth _ _ _ _ _ _ R). by apply (H ltac:(lia) m o pre body slack).
Qed.

(** A wrapped type whose value is in the union when the object ends. *)
Lemma wrapped_spec b fs f c k own r name ty st es (g : Z -> bytes -> Z -> M bool) data :
  ready b (fs ++ [f]) c k own r -> In (name, ty, st) type_options -> zlen k < 2 ^ 31 ->
  (forall key, key_ok key (zlen k) k -> builds (g (b + zlen fs) key (zlen k)) (b + zlen fs) data) ->
  (forall r1, stands b (fs ++ [f]) c r1 -> jr_read_state r1 = BSON_JSON_IN_BSON_TYPE -> jr_bson_state r1 = st -> jr_bson_type r1 = ty ->
     jr_data r1 = replicate 16 0 -> keyed k r1 ->
     exists r2, (forall m, run_events es r1 m = Ret (m, r2)) /\ stands b (fs ++ [f]) c r2 /\ jr_read_state r2 = BSON_JSON_IN_BSON_TYPE /\ keyed k r2 /\
       forall m m' key, key_arg r2 = Ret key -> g (b + zlen fs) key (zlen k) m = Ret (m', true) ->
         append_typed (set_read_state r2 BSON_JSON_REGULAR) m = Ret (m', set_read_state r2 BSON_JSON_REGULAR)) ->
  yields (run_events (wrapped name es) r) (b + zlen fs) data (idle b (fs ++ [f]) c).
Proof.
  intros Hr Hin Hk Hg Hes. destruct (start_map_spec _ _ _ _ _ _ Hr) as (r1 & H1 & S1 & K1 & _ & E1).
  destruct (Hes (typed r1 ty st)) as (r2 & E2 & H2 & S2 & K2 & Ha); [same | done | done | done | done | by eapply keyed_same |].
  destruct (proj1 K2) as [post Ek]. eapply yields_call; [apply (Hg _ (key_ok_here k post Hk))|].
  intros m m' Eg. exists (set_read_state r2 BSON_JSON_REGULAR). split; [|split; [same | done]].
  unfold wrapped. cbn [app]. rewrite (run_cons _ _ _ _ _ _ (ready_runs _ _ _ _ _ _ Hr) (E1 m)).
  rewrite (run_cons _ _ _ _ _ _ (stands_runs _ _ _ _ H1) (type_key_spec _ _ _ _ _ _ _ _ m H1 S1 Hin)).
  rewrite run_app, (run_bind _ _ _ _ _ (E2 m)). rewrite (run_cons _ _ _ _ m' (set_read_state r2 BSON_JSON_REGULAR)); [done | by apply stands_runs in H2 |].
  rewrite (end_typed_spec _ k) by done. by apply (Ha _ _ (k ++ 0 :: post)).
Qed.
End Events.
