(* ===== verification/JsonLeaves.v ===== *)
(** * Simple values of extended JSON

    For every simple value: the events of its canonical extended JSON make the
    reader append its encoding. *)
From stdpp Require Import strings.
From S2P Require Import Prelude Memory Utf8 Strings Format Document Append Lifecycle Build Iter IterSafe RoundTrip Find Values Numbers Oid Dates Calendar Timegm Iso8601 DateText Decimal128 DecimalText Visit Validate Base64 Printf Json JsonText JsonRead JsonEvents JsonSteps.
#[local] Open Scope Z_scope.

(** The fields of a reader after an update. *)
Ltac fields := cbn [jr_bson jr_stack jr_n jr_key jr_key_buf jr_read_state jr_bson_state jr_bson_type jr_type_buf0 jr_type_buf1 jr_type_buf2 jr_data jr_code jr_dbpointer_key jr_error jr_stopped
  set_stack set_n set_key set_key_buf set_read_state set_bson_state set_bson_type set_type_buf0 set_type_buf1 set_type_buf2 set_data set_code set_dbpointer_key set_error set_stopped].
Ltac by_fields := fields; repeat match goal with E : _ = _ |- _ => progress rewrite E end; reflexivity.

(** ** The union *)

Lemma put_data_spec r pre mid rest bs off : jr_data r = pre ++ mid ++ rest -> off = zlen pre -> zlen bs = zlen mid ->
  put_data r off bs = Ret (set_data r (pre ++ bs ++ rest)).
Proof. intros E -> Hb. unfold put_data. rewrite E. by rewrite wrn_mid. Qed.

Lemma get_int_spec r pre mid rest off n : jr_data r = pre ++ mid ++ rest -> off = zlen pre -> n = zlen mid -> get_int r off n = Ret (le_val mid).
Proof. intros E -> ->. unfold get_int. rewrite E. by rewrite rd_le_mid. Qed.

Lemma le_val_u32 n : le_val (le_bytes 4 (u32 n)) = u32 n.
Proof. rewrite le_val_bytes. unfold u32. by rewrite Z.mod_mod by lia. Qed.
Lemma le_val_u64 n : le_val (le_bytes 8 (u64 n)) = u64 n.
Proof. rewrite le_val_bytes. unfold u64. by rewrite Z.mod_mod by lia. Qed.

(** ** Texts of numbers *)

Lemma fmt_d_text n : int64_range n -> scalar_text true (fmt_d n) /\ zlen (fmt_d n) < 2 ^ 31.
Proof.
  intros Hn. unfold int64_range in Hn. split; [by apply plain_scalar, fmt_d_plain|].
  assert (H : forall m, 0 <= m < 10 ^ 20 -> zlen (fmt_u m) <= 20) by (intros; apply dec_loop_length; lia).
  unfold fmt_d. destruct (n <? 0) eqn:E; bool_hyps; rewrite ?zlen_cons; [pose proof (H (- n)) | pose proof (H n)]; lia.
Qed.

(** A number read from its text. *)
Lemma read_int64 r n : _bson_json_read_fixup_key r = Ret r -> int64_range n ->
  _bson_json_read_int64_or_set_error r (fmt_d n ++ [0]) (zlen (fmt_d n)) = Ret (Some n, r).
Proof.
  intros E Hn. unfold _bson_json_read_int64_or_set_error, int64_range in *. rewrite E. cbn [mbind outcome_bind].
  rewrite strtoll_print_roundtrip by (unfold INT64_MIN, INT64_MAX; lia). cbn [mbind outcome_bind].
  change (0 =? ERANGE) with false. rewrite andb_false_r. by rewrite bool_decide_eq_true_2.
Qed.

Lemma length_dec_loop fuel : forall n acc, (length (dec_loop fuel n acc) <= fuel + length acc)%nat.
Proof.
  induction fuel as [|fuel IH]; intros n acc; cbn [dec_loop]; [lia|]. case_match; [cbn; lia|]. etransitivity; [apply IH|]. cbn. lia.
Qed.

Lemma length_strip_zeros ds : (length (strip_zeros ds) <= length ds)%nat.
Proof. induction ds as [|d ds IH]; [done|]. cbn [strip_zeros]. destruct (strip_zeros ds); [destruct (d =? 48)|]; cbn in *; lia. Qed.

Lemma length_fraction ds : (length (fraction_text ds) <= S (length ds))%nat.
Proof. pose proof (length_strip_zeros ds). unfold fraction_text. destruct (strip_zeros ds); cbn in *; lia. Qed.

Lemma length_finite_text num den : (length (finite_text num den) <= 70)%nat.
Proof.
  unfold finite_text. destruct (num =? 0); [cbn; lia|]. destruct (round20 num den) as [d x].
  pose proof (length_dec_loop 20 d []) as Hd. cbn [length] in Hd. set (ds := dec_loop 20 d []) in *. clearbody ds.
  destruct ((x <? -4) || (x >=? 20)) eqn:Ex; [|destruct (x >=? 0) eqn:Ex0]; rewrite ?length_app, ?length_cons, ?length_app, ?length_take.
  - pose proof (length_fraction (drop 1 ds)) as H. rewrite length_drop in H. unfold exponent_digits, fmt_u.
    pose proof (length_dec_loop 20 (Z.abs x) []) as He. cbn [length] in He. rewrite !length_cons. destruct (_ <? 10); rewrite ?length_cons; lia.
  - pose proof (length_fraction (drop (Z.to_nat (x + 1)) ds)) as H. rewrite length_drop in H. lia.
  - pose proof (length_fraction (replicate (Z.to_nat (- x - 1)) 48 ++ ds)) as H. rewrite length_app, length_replicate in H. bool_hyps. lia.
Qed.

Lemma plain_check s : forallb (fun b => (32 <=? b) && (b <? 128) && negb (b =? 34) && negb (b =? 92)) s = true -> plain_text s.
Proof. intros H. apply Forall_forall. intros b Hb. rewrite forallb_forall in H. apply list_elem_of_In, H in Hb. unfold plain_char. bool_hyps. lia. Qed.

Lemma double_text_fits d : uint_range 64 d -> scalar_text true (double_string d) /\ zlen (double_string d) < 100.
Proof.
  intros Hd. assert (H : plain_text (double_string d) /\ (length (double_string d) <= 80)%nat); [|destruct H; split; [by apply plain_scalar | unfold zlen; lia]].
  unfold double_string. destruct (is_nan d) eqn:En; [split; [by apply plain_check | cbn; lia]|].
  destruct (not_finite d) eqn:Ef; [destruct (dbl_positive d); (split; [by apply plain_check | cbn; lia])|].
  assert (Hl : (length (fmt_g20 d) <= 71)%nat).
  { unfold fmt_g20. unfold not_finite in Ef. rewrite En, Ef. destruct (dbl_magnitude d) as [num den]. pose proof (length_finite_text num den).
    rewrite length_app. destruct (dbl_negative d); cbn [length]; lia. }
  pose proof (double_chars d Hd). destruct (digits_only_text _); rewrite length_app; (split; [|cbn; lia]).
  - apply Forall_app. split; [done | by apply plain_check].
  - by rewrite app_nil_r.
Qed.

Lemma decimal_read d : canonical_decimal d ->
  scalar_text true (decimal_text d) /\ zlen (decimal_text d) < 100 /\
  forall post, bson_decimal128_from_string (decimal_text d ++ 0 :: post) = Ret (true, d).
Proof.
  intros Hd. destruct (decimal_printed d Hd) as [E Hp]. set (text := decimal_text d) in *. clearbody text. split; [by apply plain_scalar|].
  destruct (decimal_reads d [] Hd) as (t & Et & Hl & _). rewrite E in Et. injection Et as Et. apply app_inj_tail in Et as [Et _].
  split; [rewrite Et; unfold BSON_DECIMAL128_STRING in Hl; lia|]. intros post.
  destruct (decimal_reads d post Hd) as (t' & Et' & _ & Er). rewrite E in Et'. injection Et' as Et'. apply app_inj_tail in Et' as [-> _]. exact Er.
Qed.

Section Leaves.
Context (strtod : bytes -> Z * bool).
#[local] Abbreviation callback := (callback strtod).
#[local] Abbreviation run_events := (run_events strtod).
Context (b : Z) (fs : list bson_json_stack_frame_t) (f : bson_json_stack_frame_t) (c : bson_json_code_t -> Prop) (k : bytes) (own : bool) (r : bson_json_reader_t).
Context (Hr : ready b (fs ++ [f]) c k own r) (Hk : zlen k < 2 ^ 31).

Lemma run_one e r0 r1 m : jr_stopped r0 = false -> callback e r0 m = Ret (m, r1) -> run_events [e] r0 m = Ret (m, r1).
Proof using. intros. by erewrite run_cons by eassumption. Qed.

(** The value [v] is read. *)
Definition reads_leaf (es : list json_event) (v : value) : Prop :=
  yields (run_events es r) (b + zlen fs) (encode_elem (k, v)) (idle b (fs ++ [f]) c).

Lemma fixup_typed r0 : stands b (fs ++ [f]) c r0 -> jr_read_state r0 <> BSON_JSON_REGULAR -> _bson_json_read_fixup_key r0 = Ret r0.
Proof using. intros. eapply fixup_none; eauto. Qed.

(** The value is appended when the object ends. *)
Lemma just_appended r2 (g : Z -> bytes -> Z -> M bool) m m' key : stands b (fs ++ [f]) c r2 -> keyed k r2 -> key_arg r2 = Ret key ->
  g (b + zlen fs) key (zlen k) m = Ret (m', true) -> (append_with r2 g;; mret r2) m = Ret (m', r2).
Proof using Hk. intros H2 K2 E Eg. by rewrite (run_bind _ _ _ _ _ (append_with_spec b fs f c k r2 H2 K2 Hk g m m' key E Eg)). Qed.

Lemma union_appended r2 pre mid rest off n (g : Z -> Z -> bytes -> Z -> M bool) m m' key :
  stands b (fs ++ [f]) c r2 -> keyed k r2 -> jr_data r2 = pre ++ mid ++ rest -> off = zlen pre -> n = zlen mid -> key_arg r2 = Ret key ->
  g (le_val mid) (b + zlen fs) key (zlen k) m = Ret (m', true) ->
  (x ← lift (get_int r2 off n); append_with r2 (g x);; mret r2) m = Ret (m', r2).
Proof using Hk. intros H2 K2 D Ho Hn E Eg. rewrite (eval_lift _ _ _ _ (get_int_spec _ _ _ _ _ _ D Ho Hn)). by eapply just_appended. Qed.

Ltac in_options := solve [repeat first [left; reflexivity | right]].

Lemma wrapped_string name ty st s (d : bytes) (g : Z -> bytes -> Z -> M bool) data :
  In (name, ty, st) type_options -> scalar_text true s -> zlen s < 2 ^ 31 ->
  (forall key, key_ok key (zlen k) k -> builds (g (b + zlen fs) key (zlen k)) (b + zlen fs) data) ->
  (forall r1 post m, stands b (fs ++ [f]) c r1 -> jr_read_state r1 = BSON_JSON_IN_BSON_TYPE -> jr_bson_state r1 = st -> jr_data r1 = replicate 16 0 ->
     typed_value strtod r1 (s ++ [0]) (s ++ 0 :: post) (zlen s) m = Ret (m, set_data r1 d)) ->
  (forall r2 m m' key, stands b (fs ++ [f]) c r2 -> keyed k r2 -> jr_bson_type r2 = ty -> jr_data r2 = d -> key_arg r2 = Ret key ->
     g (b + zlen fs) key (zlen k) m = Ret (m', true) -> append_typed r2 m = Ret (m', r2)) ->
  yields (run_events (wrapped name [EString s]) r) (b + zlen fs) data (idle b (fs ++ [f]) c).
Proof using Hr Hk.
  intros Hin Ht Hl Hg Hv Ha. eapply (wrapped_spec strtod) with (g := g); [exact Hr | exact Hin | done | exact Hg |].
  intros r1 H1 S1 B1 T1 D1 K1. destruct (typed_string_spec strtod _ _ _ _ _ _ H1 (or_introl S1) Ht Hl) as [post E].
  set (r0 := set_type_buf2 r1 _) in *. exists (set_data r0 d).
  split; [|split; [same|split; [done|split; [by eapply keyed_same|]]]].
  - intros m. apply run_one; [by apply stands_runs in H1|]. rewrite E. apply Hv; [same | done..].
  - intros m m' key Ek Eg. eapply Ha; [same | by eapply keyed_same | done | done | exact Ek | exact Eg].
Qed.

Lemma reads_int32 n : int32_range n -> reads_leaf (leaf_events (VInt32 n)) (VInt32 n).
Proof using Hr Hk.
  intros Hn. assert (Hn' : int64_range n) by (unfold int32_range, int64_range in *; lia). destruct (fmt_d_text n Hn') as [Ht Hl].
  eapply wrapped_string with (g := fun b key len => bson_append_int32 b key len n) (d := le_bytes 4 (u32 n) ++ replicate 12 0);
    [in_options | done | done | | |].
  - intros key Ho. apply builds_appends. intros. by apply bson_append_int32_spec.
  - intros r1 post m H1 S1 B1 D1. unfold typed_value. rewrite B1.
    erewrite eval_lift by (apply read_int64; [apply fixup_typed; [done | by rewrite S1] | done]). cbv iota beta.
    replace ((n <? - 2 ^ 31) || (n >? INT32_MAX)) with false by (unfold int32_range, INT32_MAX in *; lia). rewrite S1, bool_decide_eq_true_2 by done.
    unfold lift. by rewrite (put_data_spec _ [] (replicate 4 0) (replicate 12 0)) by by_fields.
  - intros r2 m m' key H2 K2 T2 D2 Ek Eg. unfold append_typed. rewrite T2. calc_tests.
    eapply (union_appended _ [] (le_bytes 4 (u32 n)) (replicate 12 0)); [done | done | by_fields | done | done | done |].
    by rewrite le_val_u32, s32_u32, s32_id.
Qed.

Lemma reads_int64 n : int64_range n -> reads_leaf (leaf_events (VInt64 n)) (VInt64 n).
Proof using Hr Hk.
  intros Hn. destruct (fmt_d_text n Hn) as [Ht Hl].
  eapply wrapped_string with (g := fun b key len => bson_append_int64 b key len n) (d := le_bytes 8 (u64 n) ++ replicate 8 0);
    [in_options | done | done | | |].
  - intros key Ho. apply builds_appends. intros. by apply bson_append_int64_spec.
  - intros r1 post m H1 S1 B1 D1. unfold typed_value. rewrite B1.
    erewrite eval_lift by (apply read_int64; [apply fixup_typed; [done | by rewrite S1] | done]). cbv iota beta.
    rewrite S1, bool_decide_eq_true_2 by done.
    unfold lift. by rewrite (put_data_spec _ [] (replicate 8 0) (replicate 8 0)) by by_fields.
  - intros r2 m m' key H2 K2 T2 D2 Ek Eg. unfold append_typed. rewrite T2. calc_tests.
    eapply (union_appended _ [] (le_bytes 8 (u64 n)) (replicate 8 0)); [done | done | by_fields | done | done | done |].
    by rewrite le_val_u64, s64_u64, s64_id.
Qed.

Lemma reads_double d : uint_range 64 d -> strtod (double_string d ++ [0]) = (d, false) -> reads_leaf (leaf_events (VDouble d)) (VDouble d).
Proof using Hr Hk.
  intros Hd Hs. destruct (double_text_fits d Hd) as [Ht Hl].
  eapply wrapped_string with (g := fun b key len => bson_append_double b key len d) (d := le_bytes 8 d ++ replicate 8 0);
    [in_options | done | lia | | |].
  - intros key Ho. apply builds_appends. intros. by apply bson_append_double_spec.
  - intros r1 post m H1 S1 B1 D1. unfold typed_value. rewrite B1.
    erewrite eval_lift by (unfold _bson_json_parse_double; rewrite Hs, andb_false_r; reflexivity). cbv iota beta.
    unfold lift. by rewrite (put_data_spec _ [] (replicate 8 0) (replicate 8 0)) by by_fields.
  - intros r2 m m' key H2 K2 T2 D2 Ek Eg. unfold append_typed. rewrite T2. calc_tests.
    eapply (union_appended _ [] (le_bytes 8 d) (replicate 8 0)); [done | done | by_fields | done | done | done |].
    rewrite le_val_bytes. unfold uint_range in Hd. by rewrite Z.mod_small.
Qed.

Lemma reads_decimal low high : uint_range 64 low -> uint_range 64 high -> canonical_decimal (mk_dec128 low high) ->
  reads_leaf (leaf_events (VDecimal128 low high)) (VDecimal128 low high).
Proof using Hr Hk.
  intros Hlo Hhi Hd. pose proof (decimal_read _ Hd) as (Ht & Hl & E).
  eapply wrapped_string with (g := fun b key len => bson_append_decimal128 b key len (mk_dec128 low high)) (d := le_bytes 8 low ++ le_bytes 8 high);
    [in_options | done | lia | | |].
  - intros key Ho. apply builds_appends. intros. by apply bson_append_decimal128_spec.
  - intros r1 post m H1 S1 B1 D1. unfold typed_value. rewrite B1, (eval_lift _ _ _ _ (E post)). cbv iota beta.
    rewrite S1, bool_decide_eq_true_2 by done. unfold lift.
    rewrite (put_data_spec _ [] (replicate 16 0) []) by by_fields. cbn [app d_low d_high]. by rewrite app_nil_r.
  - intros r2 m m' key H2 K2 T2 D2 Ek Eg. unfold append_typed. rewrite T2. calc_tests.
    erewrite eval_lift by (apply (get_int_spec _ [] (le_bytes 8 low) (le_bytes 8 high)); [by_fields | done | done]).
    eapply (union_appended _ (le_bytes 8 low) (le_bytes 8 high) []); [done | done | rewrite app_nil_r; by_fields | by rewrite zlen_le_bytes | by rewrite zlen_le_bytes | done |].
    unfold uint_range in *. by rewrite !le_val_bytes, !Z.mod_small.
Qed.

Lemma reads_oid oid : zlen oid = 12 -> Forall is_byte oid -> reads_leaf (leaf_events (VOid oid)) (VOid oid).
Proof using Hr Hk.
  intros Hz Hb. assert (Hl : zlen (hex_of oid) = 24) by (unfold zlen in *; rewrite length_hex_of; lia).
  eapply wrapped_string with (g := fun b key len => bson_append_oid b key len oid) (d := [1] ++ oid ++ replicate 3 0);
    [in_options | by apply plain_scalar, hex_of_plain | lia | | |].
  - intros key Ho. apply builds_appends. intros. by apply bson_append_oid_spec.
  - intros r1 post m H1 S1 B1 D1. unfold typed_value. rewrite B1, Hl. change (negb (24 =? 24)) with false. cbv iota. unfold lift at 1, put_true.
    rewrite (put_data_spec _ [] [0] (replicate 15 0)) by by_fields. cbn [mbind outcome_bind].
    erewrite run_bind by reflexivity. rewrite (eval_lift _ oid) by (unfold bson_oid_init_from_string; replace 12%nat with (length oid) by (unfold zlen in Hz; lia); by apply parse_hex_of).
    unfold lift. rewrite (put_data_spec _ [1] (replicate 12 0) (replicate 3 0)) by (fields; done). done.
  - intros r2 m m' key H2 K2 T2 D2 Ek Eg. unfold append_typed. rewrite T2. calc_tests. unfold _bson_json_read_append_oid.
    rewrite (eval_lift _ _ _ _ Ek), (eval_lift _ oid) by (rewrite D2; by apply rdn_mid).
    rewrite (key_length_spec _ _ K2 Hk), (child_address _ _ _ _ _ H2). by rewrite (run_bind _ _ _ _ _ Eg).
Qed.

(** ** Values that are not wrapped *)

(** A handler that appends in the regular state. *)
Lemma plain_value e (g : Z -> bytes -> Z -> M bool) data :
  (forall key, key_ok key (zlen k) k -> builds (g (b + zlen fs) key (zlen k)) (b + zlen fs) data) ->
  (forall r1 m, _bson_json_read_fixup_key r = Ret r1 -> jr_read_state r1 = BSON_JSON_REGULAR -> bail r1 = false ->
     callback e r m = (append_with r1 g;; mret r1) m) ->
  yields (run_events [e] r) (b + zlen fs) data (idle b (fs ++ [f]) c).
Proof using Hr Hk.
  intros Hg He. pose proof (ready_runs _ _ _ _ _ _ Hr) as Hrun. destruct Hr as (_ & r1 & E & [H1 S1] & K1 & _). destruct (proj1 K1) as [post Ek].
  eapply yields_call; [apply (Hg _ (key_ok_here k post Hk))|]. intros m m' Eg. exists r1. split; [|done].
  erewrite run_cons; [reflexivity | exact Hrun |]. rewrite (He r1) by (done || unfold bail; rewrite S1, bool_decide_eq_true_2 by done; pose proof (keyed_some _ _ K1); by destruct (jr_key r1)).
  by eapply just_appended.
Qed.

Lemma reads_null : reads_leaf [ENull] VNull.
Proof using Hr Hk.
  eapply plain_value with (g := bson_append_null).
  - intros key Ho. apply builds_appends. intros. by apply append_empty_spec.
  - intros r1 m E S1 Hb. cbn [JsonRead.callback]. unfold _bson_json_read_null. by rewrite (eval_lift _ _ _ _ E), Hb.
Qed.

Lemma reads_bool v : reads_leaf [EBoolean v] (VBool v).
Proof using Hr Hk.
  eapply plain_value with (g := fun b key n => bson_append_bool b key n v).
  - intros key Ho. apply builds_appends. intros. by apply bson_append_bool_spec.
  - intros r1 m E S1 Hb. cbn [JsonRead.callback]. unfold _bson_json_read_boolean. rewrite (eval_lift _ _ _ _ E), Hb, S1. done.
Qed.

(** A string of the document as the argument of an append. *)
Lemma string_builds ty s key : key_ok key (zlen k) k ->
  builds (append_string ty (b + zlen fs) key (zlen k) (Some (s ++ [0])) (zlen s)) (b + zlen fs) (elem_hdr ty k ++ string_bytes s).
Proof using Hk.
  intros Ho. apply builds_appends. intros m o pre body slack R W Hsz. rewrite zlen_app, zlen_elem_hdr, zlen_string_bytes in Hsz.
  pose proof (zlen_nonneg k). apply append_string_spec; [done | done | done | apply key_ok_here; lia | unfold INT32_MAX; lia].
Qed.

Lemma reads_utf8 s : scalar_text true s -> zlen s < 2 ^ 31 -> reads_leaf [EString s] (VUtf8 s).
Proof using Hr Hk.
  intros Ht Hl. pose proof (zlen_nonneg s). eapply plain_value with (g := fun b key n => bson_append_utf8 b key n (Some (s ++ [0])) (zlen s)).
  - intros key Ho. by apply string_builds.
  - intros r1 m E S1 Hb. cbn [JsonRead.callback]. unfold _bson_json_read_string.
    rewrite (eval_lift _ _ _ _ E), (eval_lift _ true) by (apply valid_text; [done | lia]). rewrite S1, Hb, (s32_id (zlen s)) by lia. done.
Qed.

(** ** Types without a value in the union *)

Lemma reads_symbol s : scalar_text true s -> zlen s < 2 ^ 31 -> reads_leaf (leaf_events (VSymbol s)) (VSymbol s).
Proof using Hr Hk.
  intros Ht Hl. pose proof (zlen_nonneg s). destruct (start_map_spec strtod _ _ _ _ _ _ Hr) as (r1 & H1 & S1 & K1 & _ & E1).
  destruct (proj1 K1) as [post Ek]. eapply yields_call; [apply (string_builds BSON_TYPE_SYMBOL s), (key_ok_here k post Hk)|]. intros m m' Eg.
  set (r2 := typed r1 BSON_TYPE_SYMBOL BSON_JSON_LF_SYMBOL). assert (H2 : stands b (fs ++ [f]) c r2) by same.
  destruct (typed_string_spec strtod _ _ _ _ _ _ H2 (or_introl eq_refl) Ht Hl) as [post' E]. set (r3 := set_type_buf2 r2 _) in *.
  assert (H3 : stands b (fs ++ [f]) c r3) by same. assert (K3 : keyed k r3) by by eapply keyed_same.
  exists (set_read_state r3 BSON_JSON_REGULAR). split; [|split; [same | done]]. cbn [leaf_events]. unfold wrapped. cbn [app].
  rewrite (run_cons _ _ _ _ _ _ _ (ready_runs _ _ _ _ _ _ Hr) (E1 m)).
  erewrite run_cons; [|exact (stands_runs _ _ _ _ H1) | eapply type_key_spec; [exact H1 | done | in_options]]. fold r2.
  erewrite (run_cons _ _ _ _ _ m' r3); [|exact (stands_runs _ _ _ _ H2)|].
  - erewrite (run_cons _ _ _ _ _ m'); [reflexivity | exact (stands_runs _ _ _ _ H3) |]. by rewrite (end_typed_spec _ _ k).
  - rewrite E. unfold typed_value. change (jr_bson_state r3) with BSON_JSON_LF_SYMBOL. cbv iota. rewrite (s32_id (zlen s)) by lia.
    eapply just_appended; [exact H3 | done | exact Ek | exact Eg].
Qed.

(** One callback that changes the union only, then the end. *)
Lemma reads_flag name ty st e v (g : Z -> bytes -> Z -> M bool) : In (name, ty, st) type_options -> type_of v = ty -> encode_value v = [] -> g = append_empty ty ->
  (forall r1 m, stands b (fs ++ [f]) c r1 -> jr_read_state r1 = BSON_JSON_IN_BSON_TYPE -> jr_bson_state r1 = st -> jr_data r1 = replicate 16 0 ->
     callback e r1 m = Ret (m, set_data r1 (1 :: replicate 15 0))) ->
  (forall r2 m, jr_bson_type r2 = ty -> append_typed r2 m = (append_with r2 g;; mret r2) m) ->
  reads_leaf (wrapped name [e]) v.
Proof using Hr Hk.
  intros Hin Hty Hv -> He Ha. unfold reads_leaf, encode_elem. cbn [fst snd]. rewrite Hty, Hv.
  eapply (wrapped_spec strtod) with (g := append_empty ty); [exact Hr | exact Hin | done | |].
  { intros key Ho. apply builds_appends. intros. by apply append_empty_spec. }
  intros r1 H1 S1 B1 T1 D1 K1. exists (set_data r1 (1 :: replicate 15 0)). split; [|split; [same|split; [done|split; [by eapply keyed_same|]]]].
  - intros m. apply run_one; [by apply stands_runs in H1 | by apply He].
  - intros m m' key Ek Eg. rewrite Ha by done. eapply just_appended; [same | by eapply keyed_same | exact Ek | exact Eg].
Qed.

Lemma put_true_0 r1 m : jr_data r1 = replicate 16 0 -> lift (put_true r1 0) m = Ret (m, set_data r1 (1 :: replicate 15 0)).
Proof using. intros D1. unfold lift, put_true. by rewrite (put_data_spec _ [] [0] (replicate 15 0)) by by_fields. Qed.

Lemma reads_undefined : reads_leaf (leaf_events VUndefined) VUndefined.
Proof using Hr Hk.
  eapply reads_flag with (g := bson_append_undefined); [in_options | done | done | done | |].
  - intros r1 m H1 S1 B1 D1. cbn [JsonRead.callback]. unfold _bson_json_read_boolean. erewrite eval_lift by (apply fixup_typed; [done | by rewrite S1]).
    rewrite S1, B1, !bool_decide_eq_true_2 by done. by apply put_true_0.
  - intros r2 m T2. unfold append_typed. rewrite T2. by calc_tests.
Qed.

Lemma one_spec st r1 m : stands b (fs ++ [f]) c r1 -> jr_read_state r1 = BSON_JSON_IN_BSON_TYPE -> jr_bson_state r1 = st -> jr_data r1 = replicate 16 0 ->
  st = BSON_JSON_LF_MINKEY \/ st = BSON_JSON_LF_MAXKEY -> callback (EInteger 1 false) r1 m = Ret (m, set_data r1 (1 :: replicate 15 0)).
Proof using.
  intros H1 S1 B1 D1 Hst. cbn [JsonRead.callback]. unfold _bson_json_read_integer. erewrite eval_lift by (apply fixup_typed; [done | by rewrite S1]).
  calc_tests. change (1 >? INT64_MAX) with false. cbn [andb]. cbv iota. rewrite S1, B1. destruct Hst as [-> | ->]; by apply put_true_0.
Qed.

Lemma reads_minkey : reads_leaf (leaf_events VMinKey) VMinKey.
Proof using Hr Hk.
  eapply reads_flag with (g := bson_append_minkey); [in_options | done | done | done | |].
  - intros. eapply one_spec; eauto.
  - intros r2 m T2. unfold append_typed. rewrite T2. by calc_tests.
Qed.

Lemma reads_maxkey : reads_leaf (leaf_events VMaxKey) VMaxKey.
Proof using Hr Hk.
  eapply reads_flag with (g := bson_append_maxkey); [in_options | done | done | done | |].
  - intros. eapply one_spec; eauto.
  - intros r2 m T2. unfold append_typed. rewrite T2. by calc_tests.
Qed.
End Leaves.
