(* ===== verification/JsonTypes.v ===== *)
(** * Types of extended JSON with an object inside

    Dates, binary data, time stamps and code: the wrapped types whose reading takes
    more than one state. *)
From stdpp Require Import strings.
From S2P Require Import Prelude Memory Utf8 Strings Format Document Append Lifecycle Build Iter IterSafe RoundTrip Find Values Numbers Oid Dates Calendar Timegm Iso8601 DateText Decimal128 DecimalText Visit Validate Base64 Printf Json JsonText JsonRead JsonEvents JsonSteps JsonLeaves.
#[local] Open Scope Z_scope.

Section Types.
Context (strtod : bytes -> Z * bool).
#[local] Abbreviation callback := (callback strtod).
#[local] Abbreviation run_events := (run_events strtod).
Context (b : Z) (fs : list bson_json_stack_frame_t) (f : bson_json_stack_frame_t) (c : bson_json_code_t -> Prop) (k : bytes) (own : bool) (r : bson_json_reader_t).
Context (Hr : ready b (fs ++ [f]) c k own r) (Hk : zlen k < 2 ^ 31).
#[local] Abbreviation reads_leaf := (reads_leaf strtod b fs f c k r).

(** The first two events of a wrapped type. *)
Lemma type_entry : exists r1, stands b (fs ++ [f]) c r1 /\ keyed k r1 /\ (own = true -> jr_key r1 = Some KBuf) /\
  forall (name : string) es m m' r', 
    bson_utf8_validate (chars name ++ [0]) (zlen (chars name)) true = Ret true -> (zlen (chars name) >? 0) = true -> rd (chars name ++ [0]) 0 = Ret 36 ->
    _is_known_key (chars name ++ [0]) (zlen (chars name)) = true -> read_type_key (entered r1) (chars name ++ [0]) (zlen (chars name)) m = Ret (m', r') ->
    run_events (EStartMap :: EKey (chars name) :: es) r m = run_events es r' m'.
Proof using Hr.
  destruct (start_map_spec strtod _ _ _ _ _ _ Hr) as (r1 & H1 & S1 & K1 & O1 & E1). exists r1. split; [done|]. split; [done|]. split; [done|].
  intros name es m m' r' A1 A2 A3 A4 A5. rewrite (run_cons _ _ _ _ _ _ _ (ready_runs _ _ _ _ _ _ Hr) (E1 m)).
  erewrite run_cons; [reflexivity | exact (stands_runs _ _ _ _ H1) |]. by rewrite (known_key_spec _ _ _ _ _ _ _ m H1 S1).
Qed.

(** The start of the inner object. *)
Lemma start_inner r0 r1 m : stands b (fs ++ [f]) c r0 -> jr_read_state r0 <> BSON_JSON_REGULAR ->
  (match jr_read_state r0 with
   | BSON_JSON_IN_BSON_TYPE =>
       match jr_bson_state r0 with
       | BSON_JSON_LF_DATE => r1 = set_read_state r0 BSON_JSON_IN_BSON_TYPE_DATE_NUMBERLONG
       | BSON_JSON_LF_BINARY => r1 = set_read_state r0 BSON_JSON_IN_BSON_TYPE_BINARY_VALUES
       | _ => False
       end
   | BSON_JSON_IN_BSON_TYPE_TIMESTAMP_STARTMAP => r1 = set_read_state r0 BSON_JSON_IN_BSON_TYPE_TIMESTAMP_VALUES
   | BSON_JSON_IN_BSON_TYPE_SCOPE_STARTMAP => r1 = set_read_state r0 BSON_JSON_IN_SCOPE
   | _ => False
   end) -> callback EStartMap r0 m = Ret (m, r1).
Proof using.
  intros H0 S0 H. cbn [JsonRead.callback]. unfold _bson_json_read_start_map. erewrite eval_lift by (by eapply fixup_typed).
  destruct (jr_read_state r0); try done; [destruct (jr_bson_state r0); try done|..]; by rewrite H.
Qed.

(** The end of the inner object. *)
Lemma end_inner r0 m m' r1 (append : bson_json_reader_t -> M bson_json_reader_t) s : keyed k r0 ->
  end_in_state r0 = end_values r0 s append -> (jr_read_state r0 = BSON_JSON_IN_BSON_TYPE_TIMESTAMP_VALUES \/ jr_read_state r0 = BSON_JSON_IN_BSON_TYPE_DATE_NUMBERLONG \/ jr_read_state r0 = BSON_JSON_IN_BSON_TYPE_BINARY_VALUES) ->
  append (set_read_state r0 s) m = Ret (m', r1) -> callback EEndMap r0 m = Ret (m', r1).
Proof using.
  intros K0 He Hs Ha. cbn [JsonRead.callback]. unfold _bson_json_read_end_map.
  assert (E : end_in_state r0 m = Ret (m', r1)).
  { rewrite He. unfold end_values. pose proof (keyed_some _ _ K0). by destruct (jr_key r0). }
  by destruct Hs as [-> | [-> | ->]].
Qed.

Ltac known := (reflexivity || (vm_compute; reflexivity)).
Ltac runs := match goal with H : stands _ _ _ _ |- jr_stopped _ = false => exact (stands_runs _ _ _ _ H) end.

Lemma reads_date n : int64_range n -> reads_leaf (leaf_events (VDateTime n)) (VDateTime n).
Proof using Hr Hk.
  intros Hn. destruct (fmt_d_text n Hn) as [Ht Hl]. destruct type_entry as (r1 & H1 & K1 & _ & E1). destruct (proj1 K1) as [post Ek].
  eapply yields_call with (call := bson_append_date_time (b + zlen fs) (k ++ 0 :: post) (zlen k) n).
  { apply builds_appends. intros. apply bson_append_date_time_spec; [done..|]. by apply key_ok_here. }
  intros m m' Eg. set (r2 := typed r1 BSON_TYPE_DATE_TIME BSON_JSON_LF_DATE). assert (H2 : stands b (fs ++ [f]) c r2) by same.
  set (r4 := set_bson_state (set_bson_type (set_read_state r2 BSON_JSON_IN_BSON_TYPE_DATE_NUMBERLONG) BSON_TYPE_DATE_TIME) BSON_JSON_LF_INT64).
  assert (H4 : stands b (fs ++ [f]) c r4) by same.
  destruct (typed_string_spec strtod _ _ _ _ _ _ H4 (or_intror eq_refl) Ht Hl) as [post' E]. set (r5 := set_type_buf2 r4 _) in *.
  assert (H5 : stands b (fs ++ [f]) c r5) by same.
  set (r6 := set_data r5 (1 :: replicate 7 0 ++ le_bytes 8 (u64 n))). assert (H6 : stands b (fs ++ [f]) c r6) by same.
  set (r7 := set_read_state r6 BSON_JSON_IN_BSON_TYPE_DATE_ENDMAP). assert (H7 : stands b (fs ++ [f]) c r7) by same.
  exists (set_read_state r7 BSON_JSON_REGULAR). split; [|split; [same | done]].
  cbn [leaf_events]. unfold wrapped. cbn [app].
  erewrite E1; [| known | known | known | known | reflexivity]. fold r2.
  erewrite run_cons; [|runs | apply start_inner; [exact H2 | discriminate | reflexivity]].
  erewrite run_cons; [|runs | instantiate (1 := r4); reflexivity].
  erewrite (run_cons _ _ _ _ _ m r6); [|runs|].
  2:{ rewrite E. unfold typed_value. change (jr_bson_state r5) with BSON_JSON_LF_INT64. cbv iota.
      erewrite eval_lift by (apply read_int64; [eapply fixup_typed; [exact H5 | discriminate] | done]). cbv iota beta.
      change (jr_read_state r5) with BSON_JSON_IN_BSON_TYPE_DATE_NUMBERLONG. rewrite bool_decide_eq_false_2, bool_decide_eq_true_2 by done.
      unfold lift, put_true. rewrite (put_data_spec _ [] [0] (replicate 15 0)) by reflexivity. cbn [mbind outcome_bind].
      by rewrite (put_data_spec _ (1 :: replicate 7 0) (replicate 8 0) []) by reflexivity. }
  erewrite (run_cons _ _ _ _ _ m' r7); [|runs|].
  2:{ eapply (end_inner r6); [by eapply keyed_same | reflexivity | by right; left |]. fold r7. unfold _bson_json_read_append_date_time.
      rewrite (eval_lift _ _ _ _ Ek), (eval_lift _ (u64 n)) by (rewrite (get_int_spec _ (1 :: replicate 7 0) (le_bytes 8 (u64 n)) []) by reflexivity; by rewrite le_val_u64).
      rewrite (key_length_spec k r7), (child_address _ _ _ _ _ H7), s64_u64, s64_id by (done || by eapply keyed_same). by rewrite (run_bind _ _ _ _ _ Eg). }
  erewrite run_cons; [|runs | reflexivity]. reflexivity.
Qed.

(** ** Time stamps *)

Lemma reads_timestamp t i : uint_range 32 t -> uint_range 32 i -> reads_leaf (leaf_events (VTimestamp t i)) (VTimestamp t i).
Proof using Hr Hk.
  intros Ht Hi. pose proof Ht as Ht'. pose proof Hi as Hi'. unfold uint_range in Ht', Hi'.
  destruct type_entry as (r1 & H1 & K1 & _ & E1). destruct (proj1 K1) as [post Ek].
  eapply yields_call with (call := bson_append_timestamp (b + zlen fs) (k ++ 0 :: post) (zlen k) t i).
  { apply builds_appends. intros. apply bson_append_timestamp_spec; [done | done | by apply key_ok_here | done | done]. }
  intros m m' Eg. set (r2 := set_read_state (set_bson_type (entered r1) BSON_TYPE_TIMESTAMP) BSON_JSON_IN_BSON_TYPE_TIMESTAMP_STARTMAP).
  assert (H2 : stands b (fs ++ [f]) c r2) by same.
  set (values := fun st data => set_data (set_bson_state (set_bson_type (set_read_state r2 BSON_JSON_IN_BSON_TYPE_TIMESTAMP_VALUES) BSON_TYPE_TIMESTAMP) st) data).
  assert (Hv : forall st data, stands b (fs ++ [f]) c (values st data)) by (intros; same).
  set (d1 := [1; 0; 0; 0] ++ le_bytes 4 (u32 t) ++ replicate 8 0). set (d2 := [1; 1; 0; 0] ++ le_bytes 4 (u32 t) ++ le_bytes 4 (u32 i) ++ replicate 4 0).
  set (r7 := set_read_state (values BSON_JSON_LF_TIMESTAMP_I d2) BSON_JSON_IN_BSON_TYPE_TIMESTAMP_ENDMAP). assert (H7 : stands b (fs ++ [f]) c r7) by same.
  assert (Hint : forall n, 0 <= n < 2 ^ 32 -> (n >? INT64_MAX) = false) by (intros; unfold INT64_MAX; lia).
  exists (set_read_state r7 BSON_JSON_REGULAR). split; [|split; [same | done]].
  cbn [leaf_events]. unfold wrapped. cbn [app].
  erewrite E1; [| known | known | known | known | reflexivity]. fold r2.
  erewrite run_cons; [|runs | apply start_inner; [exact H2 | discriminate | reflexivity]].
  erewrite (run_cons _ _ _ _ _ m (values BSON_JSON_LF_TIMESTAMP_T (replicate 16 0))); [|runs | reflexivity].
  erewrite (run_cons _ _ _ _ _ m (values BSON_JSON_LF_TIMESTAMP_T d1)); [|exact (stands_runs _ _ _ _ (Hv _ _)) |].
  2:{ cbn [JsonRead.callback]. unfold _bson_json_read_integer. erewrite eval_lift by (eapply fixup_typed; [apply Hv | discriminate]).
      calc_tests. rewrite Hint by done. cbn [andb]. cbv iota. unfold lift, put_true.
      change (jr_read_state (values _ _)) with BSON_JSON_IN_BSON_TYPE_TIMESTAMP_VALUES. change (jr_bson_state (values _ _)) with BSON_JSON_LF_TIMESTAMP_T. cbv iota.
      rewrite (put_data_spec _ [] [0] (replicate 15 0)) by reflexivity. cbn [mbind outcome_bind].
      by rewrite (put_data_spec _ [1; 0; 0; 0] (replicate 4 0) (replicate 8 0)) by reflexivity. }
  erewrite (run_cons _ _ _ _ _ m (values BSON_JSON_LF_TIMESTAMP_I d1)); [|exact (stands_runs _ _ _ _ (Hv _ _)) | reflexivity].
  erewrite (run_cons _ _ _ _ _ m (values BSON_JSON_LF_TIMESTAMP_I d2)); [|exact (stands_runs _ _ _ _ (Hv _ _)) |].
  2:{ cbn [JsonRead.callback]. unfold _bson_json_read_integer. erewrite eval_lift by (eapply fixup_typed; [apply Hv | discriminate]).
      calc_tests. rewrite Hint by done. cbn [andb]. cbv iota. unfold lift, put_true.
      change (jr_read_state (values _ _)) with BSON_JSON_IN_BSON_TYPE_TIMESTAMP_VALUES. change (jr_bson_state (values _ _)) with BSON_JSON_LF_TIMESTAMP_I. cbv iota.
      rewrite (put_data_spec _ [1] [0] ([0; 0] ++ le_bytes 4 (u32 t) ++ replicate 8 0)) by reflexivity. cbn [mbind outcome_bind].
      by rewrite (put_data_spec _ ([1; 1; 0; 0] ++ le_bytes 4 (u32 t)) (replicate 4 0) (replicate 4 0)) by reflexivity. }
  erewrite (run_cons _ _ _ _ _ m' r7); [|exact (stands_runs _ _ _ _ (Hv _ _)) |].
  2:{ eapply (end_inner (values BSON_JSON_LF_TIMESTAMP_I d2)); [by eapply keyed_same | reflexivity | by left |]. fold r7. unfold _bson_json_read_append_timestamp, get_bool.
      rewrite !(eval_lift _ _ _ _ (eq_refl (Ret true))). cbn [negb orb].
      rewrite (eval_lift _ (u32 t)) by (rewrite (get_int_spec _ [1; 1; 0; 0] (le_bytes 4 (u32 t)) (le_bytes 4 (u32 i) ++ replicate 4 0)) by reflexivity; by rewrite le_val_u32).
      rewrite (eval_lift _ (u32 i)) by (rewrite (get_int_spec _ ([1; 1; 0; 0] ++ le_bytes 4 (u32 t)) (le_bytes 4 (u32 i)) (replicate 4 0)) by reflexivity; by rewrite le_val_u32).
      rewrite !u32_id by done. eapply (just_appended b fs f c k Hk r7 (fun b key n => bson_append_timestamp b key n t i)); [exact H7 | by eapply keyed_same | exact Ek | exact Eg]. }
  erewrite run_cons; [|runs | reflexivity]. reflexivity.
Qed.

(** ** Binary data *)

Definition hex2_reads (st : Z) : bool :=
  match hex2 st with
  | [x; y] => negb (isspace x) && negb (x =? 43) && negb (x =? 45) && negb ((x =? 48) && ((y =? 120) || (y =? 88)))
      && match hex_digit_val x, hex_digit_val y with Some p, Some q => p * 16 + q =? st | _, _ => false end
  | _ => false
  end.

Lemma scan_hex2 st post : is_byte st -> scan_hex (hex2 st ++ 0 :: post) = Ret (Some st) /\ zlen (hex2 st) = 2.
Proof using.
  intros Hb. assert (H : hex2_reads st = true) by (apply (byte_check hex2_reads); [by vm_compute | done]). unfold hex2_reads in H.
  destruct (hex2 st) as [|x [|y [|]]]; try done. split; [|done]. destruct (hex_digit_val x) as [p|] eqn:Ex; [|by bool_hyps].
  destruct (hex_digit_val y) as [q|] eqn:Ey; [|by bool_hyps]. destruct (isspace x) eqn:Es; [discriminate H|].
  destruct ((x =? 48) && ((y =? 120) || (y =? 88))) eqn:E48; [by rewrite andb_false_r in H|]. bool_hyps. cbn [app scan_hex].
  rewrite (rd_head x (y :: 0 :: post)), bind_ret, Es. change (rd (x :: y :: 0 :: post) 1) with (Ret y).
  replace (x =? 43) with false by lia. replace (x =? 45) with false by lia. cbn [orb]. cbv iota. rewrite Ex, bind_ret, E48, Ey.
  do 2 f_equal. lia.
Qed.

(** A string of a binary value. *)
Lemma binary_string s r0 : stands b (fs ++ [f]) c r0 -> jr_read_state r0 = BSON_JSON_IN_BSON_TYPE_BINARY_VALUES -> scalar_text true s -> zlen s < 2 ^ 31 ->
  exists post, forall m, callback (EString s) r0 m =
    _bson_json_parse_binary_elem (set_type_buf2 r0 (mk_buf (Some (s ++ 0 :: post)) (zlen s))) (s ++ 0 :: post) (zlen s) m.
Proof using.
  intros H0 S0 Ht Hl. destruct (buf_set_spec (jr_type_buf2 r0) s [0] Hl) as [post E]. exists post. intros m. cbn [JsonRead.callback].
  unfold _bson_json_read_string. erewrite eval_lift by (eapply fixup_typed; [exact H0 | by rewrite S0]).
  rewrite (eval_lift _ true) by (apply valid_text; [done | lia]). cbn [negb]. rewrite S0.
  by rewrite (eval_lift _ _ _ _ E), (eval_lift _ _ _ _ (eq_refl (Ret (s ++ 0 :: post)))).
Qed.

Lemma binary_content data r0 : stands b (fs ++ [f]) c r0 -> jr_read_state r0 = BSON_JSON_IN_BSON_TYPE_BINARY_VALUES -> jr_bson_state r0 = BSON_JSON_LF_BINARY ->
  jr_data r0 = replicate 16 0 -> Forall is_byte data -> zlen data < 2 ^ 30 ->
  exists x rest, forall m, callback (EString (b64_text data)) r0 m =
    Ret (m, set_type_buf0 (set_data (set_type_buf2 r0 x) (1 :: replicate 15 0)) (mk_buf (Some (data ++ rest)) (zlen data))).
Proof using k.
  intros H0 S0 B0 D0 Hd Hl. pose proof (zlen_nonneg data). pose proof (zlen_b64_text data) as Hb64.
  destruct (binary_string (b64_text data) r0) as [post E]; [done | done | by apply plain_scalar, b64_text_plain | rewrite Hb64; euclid |].
  destruct (buf_ensure_room (jr_type_buf0 r0) (zlen data + 1) ltac:(lia)) as (l & Hbl & Hll & _).
  assert (El : l = take (S (length data)) l ++ drop (S (length data)) l) by by rewrite take_drop.
  destruct (pton_stores data post (take (S (length data)) l) (drop (S (length data)) l)) as [x Ex]; [done | unfold INT_MAX; lia | unfold zlen in *; rewrite length_take; lia |].
  rewrite <- El in Ex. eexists _, (x :: drop (S (length data)) l). intros m. rewrite E. unfold _bson_json_parse_binary_elem.
  erewrite eval_lift by (eapply fixup_typed; [same | fields; by rewrite S0]). fields. rewrite B0.
  rewrite (eval_lift _ (set_data (set_type_buf2 r0 (mk_buf (Some (b64_text data ++ 0 :: post)) (zlen (b64_text data)))) (1 :: replicate 15 0)))
    by (unfold put_true; by rewrite (put_data_spec _ [] [0] (replicate 15 0)) by (fields; rewrite ?D0; reflexivity)).
  rewrite (eval_lift _ _ _ _ (pton_counts data post Hd ltac:(unfold INT_MAX; lia))). cbv iota beta. replace (zlen data <? 0) with false by lia. fields.
  rewrite !(u64_id (zlen data)), !(u64_id (zlen data + 1)) by lia.
  assert (Hj : jb_buf (_bson_json_buf_ensure (jr_type_buf0 r0) (zlen data + 1)) = Some l).
  { unfold the_block in Hbl. destruct (jb_buf (_bson_json_buf_ensure _ _)); [by injection Hbl as -> | done]. }
  rewrite Hj, (eval_lift _ _ _ _ Ex). reflexivity.
Qed.

Lemma binary_subtype st r0 : stands b (fs ++ [f]) c r0 -> jr_read_state r0 = BSON_JSON_IN_BSON_TYPE_BINARY_VALUES -> jr_bson_state r0 = BSON_JSON_LF_TYPE ->
  jr_data r0 = 1 :: replicate 15 0 -> is_byte st ->
  exists x, forall m, callback (EString (hex2 st)) r0 m = Ret (m, set_data (set_type_buf2 r0 x) ([1; 1; 0; 0] ++ le_bytes 4 st ++ replicate 8 0)).
Proof using.
  intros H0 S0 B0 D0 Hst. destruct (scan_hex2 st [] Hst) as [_ Hh2].
  destruct (binary_string (hex2 st) r0) as [post E]; [done | done | by apply plain_scalar, hex2_plain | rewrite Hh2; lia |].
  eexists. intros m. rewrite E. unfold _bson_json_parse_binary_elem.
  erewrite eval_lift by (eapply fixup_typed; [same | fields; by rewrite S0]). fields. rewrite B0.
  rewrite (eval_lift _ (set_data (set_type_buf2 r0 (mk_buf (Some (hex2 st ++ 0 :: post)) (zlen (hex2 st)))) (1 :: 1 :: replicate 14 0)))
    by (unfold put_true; by rewrite (put_data_spec _ [1] [0] (replicate 14 0)) by (fields; rewrite ?D0; reflexivity)).
  rewrite (eval_lift _ _ _ _ (proj1 (scan_hex2 st post Hst))). unfold lift.
  by rewrite (put_data_spec _ [1; 1; 0; 0] (replicate 4 0) (replicate 8 0)) by reflexivity.
Qed.

Lemma reads_binary st data : is_byte st -> Forall is_byte data -> zlen data < 2 ^ 30 -> reads_leaf (leaf_events (VBinary st data)) (VBinary st data).
Proof using Hr Hk.
  intros Hst Hd Hl. pose proof (zlen_nonneg data).
  destruct type_entry as (r1 & H1 & K1 & _ & E1). destruct (proj1 K1) as [post Ek].
  set (r3 := set_bson_state (set_bson_type (set_read_state (typed r1 BSON_TYPE_BINARY BSON_JSON_LF_BINARY) BSON_JSON_IN_BSON_TYPE_BINARY_VALUES) BSON_TYPE_BINARY) BSON_JSON_LF_BINARY).
  assert (H3 : stands b (fs ++ [f]) c r3) by same.
  destruct (binary_content data r3 H3 eq_refl eq_refl eq_refl Hd Hl) as (x & rest & E4). set (r4 := set_type_buf0 _ _) in E4.
  set (r5 := set_bson_state (set_bson_type r4 BSON_TYPE_BINARY) BSON_JSON_LF_TYPE). assert (H4 : stands b (fs ++ [f]) c r4) by same. assert (H5 : stands b (fs ++ [f]) c r5) by same.
  destruct (binary_subtype st r5 H5 eq_refl eq_refl eq_refl Hst) as (y & E6). set (r6 := set_data _ _) in E6. assert (H6 : stands b (fs ++ [f]) c r6) by same.
  set (r7 := set_read_state r6 BSON_JSON_IN_BSON_TYPE_BINARY_ENDMAP). assert (H7 : stands b (fs ++ [f]) c r7) by same.
  eapply yields_call with (call := bson_append_binary (b + zlen fs) (k ++ 0 :: post) (zlen k) st (data ++ rest) (zlen data)).
  { apply builds_appends. intros m o pre body slack R W Hsz. apply bson_append_binary_spec; [done | done | by apply key_ok_here | done |].
    revert Hsz. unfold encode_elem. cbn [fst snd]. rewrite zlen_app, zlen_elem_hdr. pose proof (zlen_nonneg k). unfold INT32_MAX. cbn [encode_value]. unfold binary_bytes.
    destruct (_ =? _); autorewrite with zlen; lia. }
  intros m m' Eg. exists (set_read_state r7 BSON_JSON_REGULAR). split; [|split; [same | done]].
  cbn [leaf_events]. unfold wrapped. cbn [app].
  erewrite E1; [| known | known | known | known | reflexivity].
  erewrite run_cons; [|exact (stands_runs _ _ _ _ H1) | apply start_inner; [same | discriminate | reflexivity]].
  erewrite (run_cons _ _ _ _ _ m r3); [|exact (stands_runs _ _ _ _ H1) | reflexivity].
  rewrite (run_cons _ _ _ _ _ _ _ (stands_runs _ _ _ _ H3) (E4 m)).
  erewrite (run_cons _ _ _ _ _ m r5); [|runs | reflexivity].
  rewrite (run_cons _ _ _ _ _ _ _ (stands_runs _ _ _ _ H5) (E6 m)).
  erewrite (run_cons _ _ _ _ _ m' r7); [|runs|].
  2:{ eapply (end_inner r6); [by eapply keyed_same | reflexivity | by right; right |]. fold r7. unfold _bson_json_read_append_binary, get_bool.
      rewrite !(eval_lift _ _ _ _ (eq_refl (Ret true))). cbn [negb orb]. rewrite (eval_lift _ _ _ _ Ek).
      rewrite (eval_lift _ st) by (rewrite (get_int_spec _ [1; 1; 0; 0] (le_bytes 4 st) (replicate 8 0)) by reflexivity; rewrite le_val_bytes, Z.mod_small by (unfold is_byte in Hst; lia); done).
      rewrite (eval_lift _ _ _ _ (eq_refl (Ret (data ++ rest)))). change (jb_len (jr_type_buf0 r7)) with (zlen data).
      rewrite (key_length_spec k r7), (child_address _ _ _ _ _ H7), (u32_id (zlen data)) by (lia || done || by eapply keyed_same). by rewrite (run_bind _ _ _ _ _ Eg). }
  erewrite run_cons; [|runs | reflexivity]. reflexivity.
Qed.

(** ** Code *)

(** The reader after one of the keys of code, with [kept] as the key of the value. *)
Definition code_keyed (r0 : bson_json_reader_t) (is_scope : bool) (kept : bson_json_buf_t) : bson_json_reader_t :=
  let c0 := jr_code r0 in
  if is_scope
  then set_bson_state (set_read_state (set_bson_type (set_code r0 (mk_code (has_code c0) true (in_scope c0) kept (code_buf c0))) BSON_TYPE_CODEWSCOPE) BSON_JSON_IN_BSON_TYPE_SCOPE_STARTMAP) BSON_JSON_LF_SCOPE
  else set_bson_state (set_bson_type (set_code r0 (mk_code true (has_scope c0) (in_scope c0) kept (code_buf c0))) BSON_TYPE_CODE) BSON_JSON_LF_CODE.

Definition key_copy (kept : bson_json_buf_t) : Prop := exists post, kept = mk_buf (Some (k ++ 0 :: post)) (zlen k).

Lemma code_key_spec r0 : keyed k r0 -> jr_key r0 = Some KBuf -> in_scope (jr_code r0) = false ->
  jb_len (code_key_buf (jr_code r0)) = 0 \/ key_copy (code_key_buf (jr_code r0)) ->
  exists kept, key_copy kept /\ forall is_scope val len m, _bson_json_read_code_or_scope_key r0 is_scope val len m = Ret (m, code_keyed r0 is_scope kept).
Proof using Hk.
  intros [[post Ek] Hl] Hkb Hin Hkey. unfold key_arg in Ek. rewrite Hkb in Ek.
  destruct (buf_set_spec (code_key_buf (jr_code r0)) k (0 :: post) Hk) as [post' E].
  destruct (jb_len (code_key_buf (jr_code r0)) =? 0) eqn:E0.
  - exists (mk_buf (Some (k ++ 0 :: post')) (zlen k)). split; [by exists post'|]. intros is_scope val len m. unfold _bson_json_read_code_or_scope_key, code_keyed.
    rewrite Hin, E0. erewrite run_bind by (rewrite (eval_lift _ _ _ _ Ek), Hl; unfold lift; rewrite E; reflexivity). by destruct is_scope.
  - exists (code_key_buf (jr_code r0)). split; [destruct Hkey; [lia | done]|]. intros is_scope val len m. unfold _bson_json_read_code_or_scope_key, code_keyed.
    rewrite Hin, E0. by destruct is_scope.
Qed.

Lemma read_code_key r0 m : read_type_key r0 (chars "$code" ++ [0]) (zlen (chars "$code")) m =
  _bson_json_read_code_or_scope_key r0 false (chars "$code" ++ [0]) (zlen (chars "$code")) m.
Proof using. unfold read_type_key, type_options. cbn [HANDLE_OPTION]. calc_key. reflexivity. Qed.

Lemma read_scope_key r0 m : read_type_key r0 (chars "$scope" ++ [0]) (zlen (chars "$scope")) m =
  _bson_json_read_code_or_scope_key r0 true (chars "$scope" ++ [0]) (zlen (chars "$scope")) m.
Proof using. unfold read_type_key, type_options. cbn [HANDLE_OPTION]. calc_key. reflexivity. Qed.

(** Nothing of code is remembered. *)
Definition code_idle (c : bson_json_code_t) : Prop :=
  in_scope c = false /\ has_code c = false /\ has_scope c = false /\ jb_len (code_key_buf c) = 0.

(** The events up to the text of the code: text and key are kept. *)
Lemma code_entry js : (forall x, c x <-> code_idle x) -> own = true -> scalar_text true js -> zlen js < 2 ^ 31 ->
  exists r3 kept post, key_copy kept /\ let c3 := mk_code true false false kept (mk_buf (Some (js ++ 0 :: post)) (zlen js)) in
    stands b (fs ++ [f]) (eq c3) r3 /\ keyed k r3 /\ jr_key r3 = Some KBuf /\ jr_read_state r3 = BSON_JSON_IN_BSON_TYPE /\ jr_bson_type r3 = BSON_TYPE_CODE /\
    forall es m, run_events (EStartMap :: EKey (chars "$code") :: EString js :: es) r m = run_events es r3 m.
Proof using Hr Hk.
  intros Hc Ho Ht Hl. destruct type_entry as (r1 & H1 & K1 & O1 & E1). specialize (O1 Ho).
  destruct (proj1 (Hc _) (stands_code _ _ _ _ H1)) as (Ci & Cc & Cs & Cl).
  destruct (code_key_spec (entered r1)) as (kept & Hkc & E2); [by eapply keyed_same | done | done | by left |].
  set (r2 := code_keyed (entered r1) false kept) in E2.
  assert (H2 : stands b (fs ++ [f]) (eq (jr_code r2)) r2) by (apply stands_bson_state, stands_bson_type; eapply stands_other_code; [apply stands_data, stands_bson_type, stands_read_state, H1 | done]).
  destruct (typed_string_spec strtod _ _ _ _ _ _ H2 (or_introl eq_refl) Ht Hl) as [post' E3].
  destruct (buf_set_spec (code_buf (jr_code r1)) js [0] Hl) as [post E].
  set (c3 := mk_code true false false kept (mk_buf (Some (js ++ 0 :: post)) (zlen js))).
  exists (set_code (set_type_buf2 r2 (mk_buf (Some (js ++ 0 :: post')) (zlen js))) c3), kept, post. split; [done|]. cbn zeta.
  split; [by eapply stands_other_code; [apply stands_type_buf2; exact H2|]|]. split; [by eapply keyed_same|]. split; [done|]. split; [done|]. split; [done|].
  intros es m. erewrite E1; [| known | known | known | known | by rewrite read_code_key, E2]. fold r2.
  erewrite run_cons; [reflexivity | exact (stands_runs _ _ _ _ H2) |]. rewrite E3. unfold typed_value.
  change (jr_bson_state (set_type_buf2 r2 _)) with BSON_JSON_LF_CODE. cbv iota. change (code_buf (jr_code (set_type_buf2 r2 _))) with (code_buf (jr_code r1)).
  rewrite (eval_lift _ _ _ _ E). change (has_scope (jr_code (set_type_buf2 r2 _))) with (has_scope (jr_code r1)).
  change (in_scope (jr_code (set_type_buf2 r2 _))) with (in_scope (jr_code r1)). rewrite Cs, Ci. reflexivity.
Qed.

Lemma reads_code js : (forall x, c x <-> code_idle x) -> own = true -> scalar_text true js -> no_nul js -> zlen js < 2 ^ 31 -> reads_leaf (leaf_events (VCode js)) (VCode js).
Proof using Hr Hk.
  intros Hc Ho Ht Hn Hl. destruct (code_entry js Hc Ho Ht Hl) as (r3 & kept & post & [postk ->] & H3 & K3 & O3 & S3 & T3 & E3). cbn zeta in *.
  eapply yields_call with (call := bson_append_code_with_scope (b + zlen fs) (k ++ 0 :: postk) (zlen k) (js ++ 0 :: post) None).
  { apply builds_appends. intros m o pre body slack R W Hsz. revert Hsz. unfold encode_elem. cbn [fst snd encode_value]. rewrite zlen_app, zlen_elem_hdr, zlen_string_bytes.
    intros Hsz. apply bson_append_code_spec; [done | done | by apply key_ok_here | done | unfold INT32_MAX; lia]. }
  intros m m' Eg. pose proof (stands_code _ _ _ _ H3) as C3. set (r4 := set_read_state r3 BSON_JSON_REGULAR).
  exists (set_code r4 (mk_code false false false (mk_buf (Some (k ++ 0 :: postk)) 0) (mk_buf (Some (js ++ 0 :: post)) (zlen js)))). split; [|split; [|done]].
  2:{ eapply stands_other_code; [apply stands_read_state; exact H3|]. by apply Hc. }
  cbn [leaf_events]. unfold wrapped. cbn [app]. rewrite E3. erewrite run_cons; [reflexivity | exact (stands_runs _ _ _ _ H3) |].
  rewrite (end_typed_spec _ _ k) by done. fold r4. unfold append_typed. change (jr_bson_type r4) with (jr_bson_type r3). rewrite T3. calc_tests.
  unfold _bson_json_read_append_code. change (jr_code r4) with (jr_code r3). rewrite <- C3. cbn [in_scope has_code has_scope code_buf code_key_buf jb_buf jb_len negb].
  erewrite run_bind by reflexivity. rewrite !(eval_lift _ _ _ _ (eq_refl (Ret _))).
  rewrite (child_address b fs f (eq _) r4) by (apply stands_read_state; exact H3). rewrite (s32_id (zlen k)) by (pose proof (zlen_nonneg k); lia).
  rewrite (run_bind _ _ _ _ _ Eg). reflexivity.
Qed.
End Types.
