(* ===== verification/JsonNested.v ===== *)
(** * Documents, arrays and scopes of extended JSON

    The main theorem about the reader: the events of the canonical extended JSON of
    a document make it build that document. *)
From stdpp Require Import strings.
From S2P Require Import Prelude Memory Utf8 Strings Format Document Append Lifecycle Build Iter IterSafe RoundTrip Find Values Numbers Oid Dates Calendar Timegm Iso8601 DateText Decimal128 DecimalText Visit Validate Base64 Printf Json JsonText JsonRead JsonEvents JsonSteps JsonLeaves JsonTypes.
#[local] Open Scope Z_scope.

(** ** What is read back *)

Section Readable.
Context (strtod : bytes -> Z * bool).

(** A key that is not reserved. *)
Definition key_readable (k : bytes) : Prop := scalar_text false k /\ head k <> Some 36.

Definition leaf_readable (v : value) : Prop :=
  match v with
  | VDouble d => strtod (double_string d ++ [0]) = (d, false)
  | VUtf8 s | VSymbol s => scalar_text true s
  | VDecimal128 low high => canonical_decimal (mk_dec128 low high)
  | VRegex _ _ | VDbPointer _ _ => False
  | _ => True
  end.

(** [scope]: inside the scope of code; [own]: not directly in an array.  Code is
    read only outside scopes and under a key of its own. *)
Fixpoint readable (scope own : bool) (v : value) : Prop :=
  match v with
  | VDocument els =>
      (fix all els := match els with [] => True | (k, v) :: els => key_readable k /\ readable scope true v /\ all els end) els
  | VArray els =>
      (fix all (i : Z) els := match els with [] => True | (k, v) :: els => k = fmt_u i /\ readable scope false v /\ all (i + 1) els end) 0 els
  | VCodeWScope js els =>
      scope = false /\ own = true /\ scalar_text false js /\
      (fix all els := match els with [] => True | (k, v) :: els => key_readable k /\ readable true true v /\ all els end) els
  | VCode js => scope = false /\ own = true /\ scalar_text false js
  | v => leaf_readable v
  end.
Fixpoint readable_els (scope : bool) (els : list (bytes * value)) : Prop :=
  match els with [] => True | (k, v) :: els => key_readable k /\ readable scope true v /\ readable_els scope els end.
Fixpoint readable_items (scope : bool) (i : Z) (els : list (bytes * value)) : Prop :=
  match els with [] => True | (k, v) :: els => k = fmt_u i /\ readable scope false v /\ readable_items scope (i + 1) els end.
End Readable.

(** How many frames of the stack a value needs. *)
Fixpoint height (v : value) : Z :=
  match v with
  | VDocument els | VArray els | VCodeWScope _ els =>
      1 + (fix heights els := match els with [] => 0 | (_, v) :: els => Z.max (height v) (heights els) end) els
  | _ => 0
  end.
Fixpoint heights (els : list (bytes * value)) : Z := match els with [] => 0 | (_, v) :: els => Z.max (height v) (heights els) end.

(** ** Keys *)

Lemma not_reserved (lit : string) k : key_readable k -> head (chars lit) = Some 36 -> strcmp_lit lit (k ++ [0]) = Ret false.
Proof.
  intros [_ Hk] Hl. unfold strcmp_lit. destruct (chars lit) as [|x l]; [done|]. injection Hl as ->.
  destruct k as [|y k]; [done|]. cbn [app strcmp_eq]. destruct (36 =? y) eqn:E; [|done]. exfalso. apply Hk. cbn. f_equal. lia.
Qed.

Lemma key_bounds ty k (x : bytes) : zlen (elem_hdr ty k ++ x) <= 2 ^ 30 -> zlen k < 2 ^ 31 /\ zlen x < 2 ^ 30.
Proof. rewrite zlen_app, zlen_elem_hdr. pose proof (zlen_nonneg k). pose proof (zlen_nonneg x). lia. Qed.

Lemma elem_bounds k v els : zlen (encode_body ((k, v) :: els)) <= 2 ^ 30 -> zlen k < 2 ^ 31.
Proof.
  rewrite encode_body_cons, zlen_app. unfold encode_elem. cbn [fst snd]. rewrite zlen_app, zlen_elem_hdr.
  pose proof (zlen_nonneg k). pose proof (zlen_nonneg (encode_value v)). pose proof (zlen_nonneg (encode_body els)). lia.
Qed.

Lemma yields_ext {A} (x y : M A) b data Q : (forall m, x m = y m) -> yields y b data Q -> yields x b data Q.
Proof. intros E H m o pre body slack. rewrite E. apply H. Qed.

Section Nested.
Context (strtod : bytes -> Z * bool).
#[local] Abbreviation callback := (callback strtod).
#[local] Abbreviation run_events := (run_events strtod).

Lemma valid_key k : key_readable k -> zlen k < 2 ^ 31 -> bson_utf8_validate (k ++ [0]) (zlen k) true = Ret true.
Proof. intros [Hk _] Hl. pose proof (zlen_nonneg k). apply valid_text; [by apply scalar_weaken | lia]. Qed.

(** A key in a document. *)
Lemma plain_key_spec b fs f c r k : idle b (fs ++ [f]) c r -> f_type f <> BSON_JSON_FRAME_ARRAY -> key_readable k -> zlen k < 2 ^ 31 ->
  exists r1, ready b (fs ++ [f]) c k true r1 /\ forall m, callback (EKey k) r m = Ret (m, r1).
Proof.
  intros [H S] Hf Hk Hl. destruct (save_key_spec _ _ _ _ k H Hl) as (r1 & E & H1 & K1 & O1 & S1 & _). exists r1. rewrite S in S1. split.
  - apply (idle_ready b fs f c r1 r1); [by split | by eapply fixup_none; [|left] | by split | done | done].
  - intros m. cbn [JsonRead.callback]. unfold _bson_json_read_map_key. rewrite (eval_lift _ _ _ _ (valid_key k Hk Hl)). cbn [negb]. rewrite S.
    unfold read_key_in_state. rewrite S. unfold read_plain_key. rewrite (eval_lift _ _ _ _ E). destruct (jr_n r1 >? 0); [|done].
    rewrite (eval_lift _ _ _ _ (stack_ele _ _ _ _ _ H1)). by rewrite (eval_lift _ _ _ _ (not_reserved "$ref" k Hk eq_refl)), (eval_lift _ _ _ _ (not_reserved "$id" k Hk eq_refl)), (eval_lift _ _ _ _ (not_reserved "$db" k Hk eq_refl)).
Qed.

(** ** Entering and leaving a document *)

(** The events that may follow the start of an object that is not a wrapped type. *)
Definition opens (e : json_event) : Prop := e = EEndMap \/ exists k, e = EKey k /\ key_readable k /\ zlen k < 2 ^ 31.

Lemma first_opens els tail : readable_els strtod true els \/ readable_els strtod false els -> zlen (encode_body els) <= 2 ^ 30 ->
  exists e es, member_events els ++ EEndMap :: tail = e :: es /\ opens e.
Proof.
  intros Hr Hl. destruct els as [|[k v] els].
  - exists EEndMap, tail. split; [done | by left].
  - eexists _, _. split; [reflexivity|]. right. exists k. split; [done|]. split; [destruct Hr as [Hr|Hr]; apply Hr | by eapply elem_bounds].
Qed.

Lemma run_first e es r r' m m' : jr_stopped r = false -> jr_stopped r' = false -> callback e r m = callback e r' m' ->
  run_events (e :: es) r m = run_events (e :: es) r' m'.
Proof. intros H H' E. cbn [JsonRead.run_events]. rewrite H, H'. unfold mbind, M_bind. by rewrite E. Qed.

Lemma enter_document b gs c k r : stands b gs c r -> jr_read_state r = BSON_JSON_IN_START_MAP -> zlen gs < 100 -> (gs <> [] -> keyed k r) ->
  exists i r1, idle b (gs ++ [mk_frame i BSON_JSON_FRAME_DOC false false]) c r1 /\ jr_key r1 = jr_key r /\ jr_key_buf r1 = jr_key_buf r /\
    forall e es m m', opens e -> (if negb (zlen gs =? 0) then begin_child bson_append_document_begin r1 else mret ()) m = Ret (m', ()) ->
      run_events (e :: es) r m = run_events (e :: es) r1 m'.
Proof.
  intros H S Hd K. destruct (push_spec b gs c (set_read_state r BSON_JSON_REGULAR) (fun f => mk_frame (f_i f) BSON_JSON_FRAME_DOC false false)) as (f & _ & H1 & E);
    [same | done | intros Hg; by apply (keyed_some k), K |].
  cbn zeta in *. set (r1 := set_stack _ _) in *. exists (f_i f), r1. split; [by split|]. split; [done|]. split; [done|].
  intros e es m m' Ho Eb. apply run_first; [exact (stands_runs _ _ _ _ H) | exact (stands_runs _ _ _ _ H1) |]. destruct Ho as [->|(k0 & -> & Hk & Hl)]; cbn [JsonRead.callback].
  - unfold _bson_json_read_end_map. rewrite S. change (jr_read_state r1) with BSON_JSON_REGULAR. cbv iota. unfold STACK_PUSH_DOC. rewrite E. by rewrite (run_bind _ _ _ _ _ Eb).
  - unfold _bson_json_read_map_key. rewrite !(eval_lift _ _ _ _ (valid_key k0 Hk Hl)). cbn [negb]. rewrite S. change (jr_read_state r1) with BSON_JSON_REGULAR. cbv iota.
    assert (exists x, (if zlen k0 >? 0 then lift (rd (k0 ++ [0]) 0) else mret 0 : M Z) m = Ret (m, x) /\ (zlen k0 >? 0) && (x =? 36) = false) as (x & Ex & Ex2).
    { destruct Hk as [_ Hk]. destruct k0 as [|y k0]; [by exists 0|]. exists y. rewrite zlen_cons. pose proof (zlen_nonneg k0). replace (_ >? 0) with true by lia.
      split; [done|]. cbn [andb]. destruct (y =? 36) eqn:Ey; [|done]. exfalso. apply Hk. cbn. f_equal. lia. }
    rewrite (run_bind _ _ _ _ _ Ex), Ex2. cbn [andb]. cbv iota. unfold STACK_PUSH_DOC. rewrite E. by rewrite (run_bind _ _ _ _ _ Eb).
Qed.

(** The addresses of the top and of the one below. *)
Lemma top_address b fs f g c r : stands b ((fs ++ [f]) ++ [g]) c r -> STACK_BSON_PARENT r = b + zlen fs /\ STACK_BSON_CHILD r = b + zlen fs + 1.
Proof.
  intros H. pose proof (top_n _ _ _ _ _ H) as Hn. rewrite zlen_app in Hn. change (zlen [f]) with 1 in Hn.
  unfold STACK_BSON_PARENT, STACK_BSON_CHILD, STACK_BSON. rewrite Hn, (stands_bson _ _ _ _ H). lia.
Qed.

Lemma begin_child_event b fs f g c k r (begin : Z -> bytes -> Z -> Z -> M bool) m m' key : stands b ((fs ++ [f]) ++ [g]) c r -> keyed k r -> zlen k < 2 ^ 31 ->
  key_arg r = Ret key -> begin (b + zlen fs) key (zlen k) (b + zlen fs + 1) m = Ret (m', true) -> begin_child begin r m = Ret (m', ()).
Proof.
  intros H K Hl Ek Eb. destruct (top_address _ _ _ _ _ _ H) as [A1 A2]. unfold begin_child.
  rewrite (eval_lift _ _ _ _ Ek), (key_length_spec k r K Hl), A1, A2. by rewrite (run_bind _ _ _ _ _ Eb).
Qed.

(** The end of a document inside another. *)
Lemma end_document_spec b fs f g c r m m' : idle b ((fs ++ [f]) ++ [g]) c r -> f_type g = BSON_JSON_FRAME_DOC -> f_has_id g = f_has_ref g ->
  bson_append_document_end (b + zlen fs) (b + zlen fs + 1) m = Ret (m', true) ->
  exists r1, callback EEndMap r m = Ret (m', r1) /\ idle b (fs ++ [f]) c r1.
Proof.
  intros [H S] Hg Hi Ee. exists (set_n r (jr_n r - 1)). pose proof (top_n _ _ _ _ _ H) as Hn. rewrite zlen_app in Hn. change (zlen [f]) with 1 in Hn. pose proof (zlen_nonneg fs).
  destruct (top_address _ _ _ _ _ _ H) as [A1 A2]. split; [|split; [by eapply pop_top | done]].
  cbn [JsonRead.callback]. unfold _bson_json_read_end_map, end_in_state. rewrite S. unfold end_document.
  rewrite (eval_lift _ _ _ _ (stack_ele _ _ _ _ _ H)), Hg, Hi, eqb_reflx. cbn [negb]. cbv iota. unfold STACK_POP_DOC, STACK_POP.
  rewrite (eval_lift _ _ _ _ (stack_is _ _ _ _ _ H _)), Hg. cbn [is_frame eqb negb]. cbv iota. rewrite Hn.
  replace (zlen fs + 1 <? 0) with false by lia. replace (zlen fs + 1 >? 0) with true by lia. rewrite A1, A2.
  erewrite run_bind by (by rewrite (run_bind _ _ _ _ _ Ee)). cbn [jr_n set_n]. replace (zlen fs + 1 - 1 =? -1) with false by lia. done.
Qed.

Lemma end_array_spec b fs f g c r m m' : idle b ((fs ++ [f]) ++ [g]) c r -> f_type g = BSON_JSON_FRAME_ARRAY ->
  bson_append_array_end (b + zlen fs) (b + zlen fs + 1) m = Ret (m', true) ->
  exists r1, callback EEndArray r m = Ret (m', r1) /\ idle b (fs ++ [f]) c r1.
Proof.
  intros [H S] Hg Ee. exists (set_n r (jr_n r - 1)). pose proof (top_n _ _ _ _ _ H) as Hn. rewrite zlen_app in Hn. change (zlen [f]) with 1 in Hn. pose proof (zlen_nonneg fs).
  destruct (top_address _ _ _ _ _ _ H) as [A1 A2]. split; [|split; [by eapply pop_top | done]].
  cbn [JsonRead.callback]. unfold _bson_json_read_end_array. rewrite S, bool_decide_eq_true_2 by done. cbn [negb]. cbv iota. unfold STACK_POP_ARRAY, STACK_POP.
  rewrite (eval_lift _ _ _ _ (stack_is _ _ _ _ _ H _)), Hg. cbn [is_frame eqb negb]. cbv iota. rewrite Hn.
  replace (zlen fs + 1 <? 0) with false by lia. replace (zlen fs + 1 >? 0) with true by lia. rewrite A1, A2.
  erewrite run_bind by (by rewrite (run_bind _ _ _ _ _ Ee)). cbn [jr_n set_n]. replace (zlen fs + 1 - 1 =? -1) with false by lia. done.
Qed.

(** ** The members of documents and arrays *)

Definition reading (v : value) : Prop := forall b fs f c k own scope r,
  value_ok v -> readable strtod scope own v -> zlen fs + 1 + height v <= 100 -> (scope = false -> forall x, c x <-> code_idle x) ->
  ready b (fs ++ [f]) c k own r ->
  yields (run_events (value_events v) r) (b + zlen fs) (encode_elem (k, v)) (idle b (fs ++ [f]) c).

Section Members.
Context (b : Z) (fs : list bson_json_stack_frame_t) (f : bson_json_stack_frame_t) (c : bson_json_code_t -> Prop) (scope : bool).
Context (Hc : scope = false -> forall x, c x <-> code_idle x).

Lemma members_read els : Forall (fun kv => reading kv.2) els -> f_type f <> BSON_JSON_FRAME_ARRAY ->
  elems_ok els -> readable_els strtod scope els -> zlen fs + 1 + heights els <= 100 ->
  forall r, idle b (fs ++ [f]) c r -> yields (run_events (member_events els) r) (b + zlen fs) (encode_body els) (idle b (fs ++ [f]) c).
Proof using Hc.
  intros Hv Hf. induction Hv as [|[k v] els Hv _ IH]; intros Hok Hre Hh r Hi; [by apply yields_ret|].
  apply yields_small. intros Hsz. apply elem_bounds in Hsz as Hk. inversion_clear Hok as [|? ? ? _ Hvo Hel]. destruct Hre as (Hkr & Hvr & Hre). cbn [heights snd] in *.
  destruct (plain_key_spec b fs f c r k Hi Hf Hkr Hk) as (r1 & Hr1 & E1). rewrite encode_body_cons.
  eapply yields_ext with (y := r' ← run_events (value_events v) r1; run_events (member_events els) r').
  { intros m. change (member_events ((k, v) :: els)) with (EKey k :: value_events v ++ member_events els).
    rewrite (run_cons _ _ _ _ _ _ _ (stands_runs _ _ _ _ (proj1 Hi)) (E1 m)). apply run_app. }
  eapply yields_bind; [by apply (Hv b fs f c k true scope); first [assumption | lia]|]. intros r2 Hr2. apply IH; [done | done | lia | done].
Qed.
End Members.

Definition item_events (els : list (bytes * value)) : list json_event := concat (map (fun '(_, v) => value_events v) els).

Lemma items_read b fs x y c scope els : (scope = false -> forall x, c x <-> code_idle x) -> Forall (fun kv => reading kv.2) els ->
  elems_ok els -> zlen fs + 1 + heights els <= 100 -> forall i r, readable_items strtod scope i els -> 0 <= i -> i + zlen els <= 2 ^ 31 ->
  idle b (fs ++ [mk_frame i BSON_JSON_FRAME_ARRAY x y]) c r ->
  yields (run_events (item_events els) r) (b + zlen fs) (encode_body els) (fun r' => exists j, idle b (fs ++ [mk_frame j BSON_JSON_FRAME_ARRAY x y]) c r').
Proof.
  intros Hc Hv. induction Hv as [|[k v] els Hv _ IH]; intros Hok Hh i r Hre Hi Hn Hid; [apply yields_ret; by exists i|].
  inversion_clear Hok as [|? ? ? _ Hvo Hel]. destruct Hre as (-> & Hvr & Hre). cbn [heights snd] in *. rewrite zlen_cons in Hn. pose proof (zlen_nonneg els).
  destruct (fixup_array b fs i x y c r Hid ltac:(lia)) as (r1 & E1 & Hid1 & K1). rewrite encode_body_cons.
  eapply yields_ext with (y := r' ← run_events (value_events v) r; run_events (item_events els) r').
  { intros m. apply (run_app strtod (value_events v)). }
  eapply yields_bind.
  - eapply (Hv b fs (mk_frame (i + 1) BSON_JSON_FRAME_ARRAY x y) c (fmt_u i) false scope); [done | done | lia | done |]. by eapply idle_ready.
  - intros r2 Hr2. eapply IH; [done | lia | done | lia | lia | done].
Qed.

Lemma count_bound els : 3 * zlen els <= zlen (encode_body els) + 2 * zlen els.
Proof.
  induction els as [|[k v] els IH]; [done|]. rewrite encode_body_cons, zlen_app, zlen_cons. unfold encode_elem. cbn [fst snd].
  rewrite zlen_app, zlen_elem_hdr. pose proof (zlen_nonneg k). pose proof (zlen_nonneg (encode_value v)). lia.
Qed.

(** ** Documents and arrays *)

(** The nested loops of the definitions. *)
Lemma document_parts scope own els : (readable strtod scope own (VDocument els) <-> readable_els strtod scope els) /\
  height (VDocument els) = 1 + heights els /\ value_events (VDocument els) = EStartMap :: member_events els ++ [EEndMap].
Proof.
  split; [|done]. cbn [readable]. induction els as [|[k v] els IH]; [done|]. cbn [readable_els]. by rewrite <- IH.
Qed.
Lemma array_parts scope own els : (readable strtod scope own (VArray els) <-> readable_items strtod scope 0 els) /\
  height (VArray els) = 1 + heights els /\ value_events (VArray els) = EStartArray :: item_events els ++ [EEndArray].
Proof.
  split; [|done]. cbn [readable]. generalize 0. induction els as [|[k v] els IH]; [done|]. intros i. cbn [readable_items]. by rewrite <- IH.
Qed.
Lemma scope_parts scope own js els :
  (readable strtod scope own (VCodeWScope js els) <-> scope = false /\ own = true /\ scalar_text false js /\ readable_els strtod true els) /\
  height (VCodeWScope js els) = 1 + heights els /\
  value_events (VCodeWScope js els) = EStartMap :: EKey (chars "$code") :: EString js :: EKey (chars "$scope") :: EStartMap :: member_events els ++ [EEndMap; EEndMap].
Proof.
  split; [|done]. cbn [readable]. assert (E : forall els, (fix all els := match els with [] => True | (k, v) :: els => key_readable k /\ readable strtod true true v /\ all els end) els
    <-> readable_els strtod true els); [|by rewrite E]. clear. induction els as [|[k v] els IH]; [done|]. cbn [readable_els]. by rewrite <- IH.
Qed.

Lemma document_read els : Forall (fun kv => reading kv.2) els -> reading (VDocument els).
Proof.
  intros Hv b fs f c k own scope r Hok Hre Hh Hc Hr. destruct (document_parts scope own els) as (P1 & P2 & P3). apply P1 in Hre. rewrite P2 in Hh.
  inversion_clear Hok as [|? Hel| |]; [done|]. assert (Hn : 0 <= heights els) by (clear; induction els as [|[]]; cbn [heights]; lia).
  apply yields_small. unfold encode_elem. cbn [fst snd type_of]. rewrite encode_document. intros Hsz. apply key_bounds in Hsz as [Hk Hsz].
  unfold encode_doc in *. rewrite zlen_doc_bytes in Hsz.
  destruct (start_map_spec strtod _ _ _ _ _ _ Hr) as (r1 & H1 & S1 & K1 & _ & E1).
  destruct (enter_document b (fs ++ [f]) c k r1) as (i & r2 & I2 & Ek2 & Ekb2 & E2); [done | done | rewrite zlen_app; change (zlen [f]) with 1; lia | done |].
  set (g := mk_frame i BSON_JSON_FRAME_DOC false false) in *. assert (K2 : keyed k r2) by by eapply keyed_same. destruct (proj1 K2) as [post Ek].
  assert (Hg : zlen (fs ++ [f]) = zlen fs + 1) by by rewrite zlen_app.
  destruct (first_opens els []) as (e & es & Ees & Ho); [destruct scope; auto | lia |].
  eapply yields_child with (key := k ++ 0 :: post) (n := zlen k) (c := run_events (member_events els) r2) (Q := idle b ((fs ++ [f]) ++ [g]) c);
    [by left | intros; by apply key_ok_here | |].
  { replace (b + zlen fs + 1) with (b + zlen (fs ++ [f])) by lia. eapply members_read; [exact Hc | done | done | done | done | rewrite Hg; lia | done]. }
  intros m m1 m2 m3 r3 Eb Ec I3 Ee. destruct (end_document_spec b fs f g c r3 m2 m3 I3 eq_refl eq_refl Ee) as (r4 & E4 & I4). exists r4. split; [|done].
  rewrite P3, (run_cons _ _ _ _ _ _ _ (ready_runs _ _ _ _ _ _ Hr) (E1 m)), Ees, (E2 e es m m1 Ho).
  - rewrite <- Ees, run_app, (run_bind _ _ _ _ _ Ec). by rewrite (run_cons _ _ _ _ _ _ _ (stands_runs _ _ _ _ (proj1 I3)) E4).
  - rewrite Hg. pose proof (zlen_nonneg fs). replace (zlen fs + 1 =? 0) with false by lia. cbn [negb].
    eapply begin_child_event; [exact (proj1 I2) | exact K2 | done | exact Ek | exact Eb].
Qed.

Lemma array_read els : Forall (fun kv => reading kv.2) els -> reading (VArray els).
Proof.
  intros Hv b fs f c k own scope r Hok Hre Hh Hc Hr. destruct (array_parts scope own els) as (P1 & P2 & P3). apply P1 in Hre. rewrite P2 in Hh.
  inversion_clear Hok as [| |? Hel|]; [done|]. assert (Hn : 0 <= heights els) by (clear; induction els as [|[]]; cbn [heights]; lia).
  apply yields_small. unfold encode_elem. cbn [fst snd type_of]. rewrite encode_array. intros Hsz. apply key_bounds in Hsz as [Hk Hsz].
  unfold encode_doc in *. rewrite zlen_doc_bytes in Hsz. pose proof (count_bound els) as Hcount. pose proof (zlen_nonneg els) as Hels. pose proof (zlen_nonneg fs) as Hfs.
  pose proof (ready_runs _ _ _ _ _ _ Hr) as Hrun. pose proof Hr as ((Sr & Nr & _) & r1 & E1 & [H1 S1] & K1 & _).
  destruct (push_spec b (fs ++ [f]) c r1 (fun f => mk_frame 0 BSON_JSON_FRAME_ARRAY (f_has_ref f) (f_has_id f)) H1) as (f0 & _ & H2 & E2);
    [rewrite zlen_app; change (zlen [f]) with 1; lia | intros; by apply (keyed_some k) |].
  cbn zeta in *. set (r2 := set_stack _ _) in *. set (g := mk_frame 0 BSON_JSON_FRAME_ARRAY (f_has_ref f0) (f_has_id f0)) in *.
  assert (I2 : idle b ((fs ++ [f]) ++ [g]) c r2) by by split. assert (K2 : keyed k r2) by by eapply keyed_same. destruct (proj1 K2) as [post Ek].
  assert (Hg : zlen (fs ++ [f]) = zlen fs + 1) by by rewrite zlen_app.
  eapply yields_child with (key := k ++ 0 :: post) (n := zlen k) (c := run_events (item_events els) r2)
    (Q := fun r' => exists j, idle b ((fs ++ [f]) ++ [mk_frame j BSON_JSON_FRAME_ARRAY (f_has_ref f0) (f_has_id f0)]) c r');
    [by right | intros; by apply key_ok_here | |].
  { replace (b + zlen fs + 1) with (b + zlen (fs ++ [f])) by lia. eapply items_read; [exact Hc | done | done | rewrite Hg; lia | exact Hre | lia | lia | exact I2]. }
  intros m m1 m2 m3 r3 Eb Ec [j I3] Ee. destruct (end_array_spec b fs f _ c r3 m2 m3 I3 eq_refl Ee) as (r4 & E4 & I4). exists r4. split; [|done].
  rewrite P3. rewrite (run_cons _ _ _ _ _ m1 r2 Hrun).
  - rewrite run_app, (run_bind _ _ _ _ _ Ec). by rewrite (run_cons _ _ _ _ _ _ _ (stands_runs _ _ _ _ (proj1 I3)) E4).
  - cbn [JsonRead.callback]. unfold _bson_json_read_start_array. rewrite Sr, bool_decide_eq_true_2 by done. replace (jr_n r <? 0) with false by lia. cbn [negb]. cbv iota. rewrite (eval_lift _ _ _ _ E1). unfold STACK_PUSH_ARRAY. rewrite E2.
    rewrite Hg. replace (zlen fs + 1 =? 0) with false by lia. cbn [negb]. erewrite run_bind; [reflexivity|].
    eapply begin_child_event; [exact (proj1 I2) | exact K2 | done | exact Ek | exact Eb].
Qed.

(** ** Scopes *)

Definition with_scope (c : bson_json_code_t) (x : bool) : bson_json_code_t := mk_code (has_code c) (has_scope c) x (code_key_buf c) (code_buf c).

Lemma enter_scope b gs c r : stands b gs (eq c) r -> jr_read_state r = BSON_JSON_IN_SCOPE -> has_scope c = true -> 0 < zlen gs < 100 -> jr_key r <> None ->
  exists i x y r1, idle b (gs ++ [mk_frame i BSON_JSON_FRAME_SCOPE x y]) (eq (with_scope c true)) r1 /\
    forall e es m m', opens e -> bson_init (b + zlen gs) m = Ret (m', ()) -> run_events (e :: es) r m = run_events (e :: es) r1 m'.
Proof.
  intros H S Hs Hd K. set (enter := fun f => mk_frame (f_i f) BSON_JSON_FRAME_SCOPE (f_has_ref f) (f_has_id f)).
  destruct (push_spec b gs (eq c) (set_read_state r BSON_JSON_REGULAR) enter) as (f & Hf & H1 & E1); [same | lia | done |].
  destruct (push_spec b gs (eq c) r enter H) as (f' & Hf' & H2 & E2); [lia | done |].
  assert (f' = f) as -> by (cbn [jr_stack set_read_state] in Hf; congruence). cbn zeta in *. cbn [jr_stack set_read_state] in H1, E1.
  set (rp := set_stack (set_n (set_read_state r BSON_JSON_REGULAR) _) _) in *. set (rq := set_stack (set_n r _) _) in *.
  pose proof (stands_code _ _ _ _ H) as Ec. exists (f_i f), (f_has_ref f), (f_has_id f), (set_in_scope rp true).
  assert (H1' : stands b (gs ++ [enter f]) (eq (with_scope c true)) (set_in_scope rp true)).
  { unfold set_in_scope. eapply stands_other_code; [exact H1|]. change (jr_code rp) with (jr_code r). by rewrite <- Ec. }
  split; [by split|]. intros e es m m' Ho Ei.
  assert (Ep : bson_init (STACK_BSON_CHILD rp) m = Ret (m', ())) by by rewrite (child_address _ _ _ _ _ H1).
  assert (Eq : bson_init (STACK_BSON_CHILD rq) m = Ret (m', ())) by by rewrite (child_address _ _ _ _ _ H2).
  apply run_first; [exact (stands_runs _ _ _ _ H) | exact (stands_runs _ _ _ _ H1') |]. destruct Ho as [->|(k0 & -> & Hk & Hl)]; cbn [JsonRead.callback].
  - unfold _bson_json_read_end_map. rewrite S. change (jr_read_state (set_in_scope rp true)) with BSON_JSON_REGULAR. cbv iota. unfold end_in_state at 1. rewrite S, <- Ec, Hs.
    erewrite run_bind by reflexivity. unfold STACK_PUSH_SCOPE. rewrite E2. replace (zlen gs =? 0) with false by lia. cbn [negb]. rewrite (run_bind _ _ _ _ _ Eq).
    unfold end_in_state. change (jr_read_state (set_in_scope rp true)) with BSON_JSON_REGULAR. cbv iota. unfold end_document.
    rewrite (eval_lift _ _ _ _ (stack_ele _ _ _ _ _ H1')). cbn [f_type enter]. cbv iota. unfold STACK_POP_DOC, STACK_POP.
    rewrite (eval_lift _ _ _ _ (stack_is b gs (enter f) (fun _ => True) (set_in_scope rq true) ltac:(unfold set_in_scope; by eapply stands_other_code) _)).
    rewrite (eval_lift _ _ _ _ (stack_is b gs (enter f) (eq (with_scope c true)) (set_bson_type (set_read_state (set_in_scope rp true) BSON_JSON_IN_BSON_TYPE) BSON_TYPE_CODE) ltac:(same) _)).
    cbn [f_type enter is_frame eqb negb]. cbv iota. change (jr_n (set_in_scope rq true)) with (zlen gs).
    change (jr_n (set_bson_type (set_read_state (set_in_scope rp true) BSON_JSON_IN_BSON_TYPE) BSON_TYPE_CODE)) with (zlen gs).
    replace (zlen gs <? 0) with false by lia. replace (zlen gs >? 0) with true by lia. rewrite !eval_mret.
    cbn [jr_n set_in_scope set_code set_n]. replace (zlen gs - 1 =? -1) with false by lia. reflexivity.
  - unfold _bson_json_read_map_key. rewrite !(eval_lift _ _ _ _ (valid_key k0 Hk Hl)). cbn [negb]. rewrite S. change (jr_read_state (set_in_scope rp true)) with BSON_JSON_REGULAR. cbv iota.
    unfold STACK_PUSH_SCOPE. rewrite E1. replace (zlen gs =? 0) with false by lia. cbn [negb]. rewrite (run_bind _ _ _ _ _ Ep).
    destruct (save_key_spec _ _ _ _ k0 H1' Hl) as (r2 & Es & H3 & K3 & O3 & S3 & Es2). rewrite (eval_lift _ _ _ _ Es).
    unfold read_key_in_state. rewrite S3. change (jr_read_state (set_in_scope rp true)) with BSON_JSON_REGULAR. cbv iota. unfold read_plain_key.
    by rewrite (eval_lift _ _ _ _ Es), (eval_lift _ _ _ _ Es2).
Qed.

Lemma leave_scope b gs g c r m : idle b (gs ++ [g]) (eq c) r -> f_type g = BSON_JSON_FRAME_SCOPE -> 0 < zlen gs ->
  exists r1, callback EEndMap r m = Ret (m, r1) /\ stands b gs (eq (with_scope c false)) r1 /\ jr_read_state r1 = BSON_JSON_IN_BSON_TYPE /\
    jr_bson_type r1 = BSON_TYPE_CODE /\ jr_key r1 <> None.
Proof.
  intros [H S] Hg Hd. set (rt := set_bson_type (set_read_state r BSON_JSON_IN_BSON_TYPE) BSON_TYPE_CODE).
  assert (Ht : stands b (gs ++ [g]) (eq c) rt) by same. pose proof (top_n _ _ _ _ _ Ht) as Hn. pose proof (stands_code _ _ _ _ Ht) as Ec.
  exists (set_in_scope (set_n rt (jr_n rt - 1)) false). split; [|split; [|split; [done|split; [done|]]]].
  - cbn [JsonRead.callback]. unfold _bson_json_read_end_map, end_in_state. rewrite S. unfold end_document. rewrite (eval_lift _ _ _ _ (stack_ele _ _ _ _ _ H)), Hg. fold rt.
    unfold STACK_POP_DOC, STACK_POP. rewrite (eval_lift _ _ _ _ (stack_is _ _ _ _ _ Ht _)), Hg. cbn [is_frame eqb negb]. cbv iota. rewrite Hn.
    replace (zlen gs <? 0) with false by lia. replace (zlen gs >? 0) with true by lia. rewrite eval_mret.
    cbn [jr_n set_in_scope set_code set_n]. replace (zlen gs - 1 =? -1) with false by lia. reflexivity.
  - unfold set_in_scope. eapply stands_other_code; [by eapply pop_top|]. change (jr_code (set_n rt _)) with (jr_code rt). by rewrite <- Ec.
  - change (jr_key r <> None). apply (stands_key _ _ _ _ H). rewrite zlen_app. change (zlen [g]) with 1. lia.
Qed.

(** The scope is freed when the value is appended. *)
Lemma destroy_scope m a o body s : rep m a o [] body s -> has_flag (b_flags o) BSON_FLAG_STATIC = true -> own_cell a o = a ->
  exists m', bson_destroy a m = Ret (m', ()) /\ objs m' = objs m /\ (forall l, l <> a -> cells m' !! l = cells m !! l).
Proof.
  intros R Hs Ho. destruct (rep_view _ _ _ _ _ _ R) as [V1 V2]. unfold bson_destroy, own_cell in *. step (run_get_obj _ _ _ V1). rewrite !has_flag_or, Hs. cbn [negb].
  destruct (b_impl o) as [d|al]; [destruct V2 as [-> _]|destruct V2 as [-> V2]].
  - rewrite orb_true_r. by exists m.
  - destruct (has_flag (b_flags o) BSON_FLAG_RDONLY || false || has_flag (b_flags o) BSON_FLAG_NO_FREE); cbn [negb]; [by exists m|].
    assert (Eg : free_buf (a_buf al) m = Ret (mk_mem (objs m) (<[a_buf al := mk_cell None (c_len (mk_cell (Some (image [] body s)) (zlen (image [] body s))))]> (cells m)), ()))
      by (unfold free_buf, get_cell, mbind, M_bind; by rewrite V2).
    rewrite (run_bind _ _ _ _ _ Eg). eexists. split; [reflexivity|]. split; [done|]. intros l Hl. cbn [cells]. by rewrite lookup_insert_ne by lia.
Qed.

(** The key of the scope. *)
Lemma scope_key_spec b fs f k c kept r : stands b (fs ++ [f]) (eq c) r -> keyed k r -> jr_key r = Some KBuf -> jr_read_state r = BSON_JSON_IN_BSON_TYPE ->
  in_scope c = false -> code_key_buf c = kept -> key_copy k kept -> zlen k < 2 ^ 31 ->
  exists kept' r1, key_copy k kept' /\ stands b (fs ++ [f]) (eq (mk_code (has_code c) true false kept' (code_buf c))) r1 /\
    jr_read_state r1 = BSON_JSON_IN_SCOPE /\ jr_key r1 <> None /\
    forall es m, run_events (EKey (chars "$scope") :: EStartMap :: es) r m = run_events es r1 m.
Proof.
  intros H K O S Hi <- Hc Hl. pose proof (stands_code _ _ _ _ H) as Ec.
  destruct (code_key_spec k Hl r K O) as (kept' & Hc' & E); [by rewrite <- Ec | right; by rewrite <- Ec |].
  set (r4 := code_keyed r true kept') in E.
  assert (H4 : stands b (fs ++ [f]) (eq (mk_code (has_code c) true false kept' (code_buf c))) r4).
  { apply stands_bson_state, stands_read_state, stands_bson_type. eapply stands_other_code; [exact H|]. by rewrite <- Ec, Hi. }
  exists kept', (set_read_state r4 BSON_JSON_IN_SCOPE). split; [done|]. split; [same|]. split; [done|]. split; [by apply (keyed_some k)|]. intros es m.
  rewrite (run_cons _ _ _ _ _ m r4 (stands_runs _ _ _ _ H)).
  - erewrite run_cons; [reflexivity | exact (stands_runs _ _ _ _ H4) |]. eapply start_inner; [exact H4 | discriminate | reflexivity].
  - cbn [JsonRead.callback]. unfold _bson_json_read_map_key. rewrite (eval_lift _ true) by (vm_compute; reflexivity). cbn [negb]. rewrite S.
    unfold read_key_in_state. rewrite S. by rewrite read_scope_key, E.
Qed.

(** The end of code with scope: what is appended and freed. *)
Lemma append_code_spec b fs f k r js post postk m m1 m2 : let c := mk_code true true false (mk_buf (Some (k ++ 0 :: postk)) (zlen k)) (mk_buf (Some (js ++ 0 :: post)) (zlen js)) in
  stands b (fs ++ [f]) (eq c) r -> zlen k < 2 ^ 31 ->
  bson_append_code_with_scope (b + zlen fs) (k ++ 0 :: postk) (zlen k) (js ++ 0 :: post) (Some (b + zlen fs + 1)) m = Ret (m1, true) ->
  bson_destroy (b + zlen fs + 1) m1 = Ret (m2, ()) ->
  _bson_json_read_append_code r m = Ret (m2, set_code r (mk_code false false false (mk_buf (Some (k ++ 0 :: postk)) 0) (mk_buf (Some (js ++ 0 :: post)) (zlen js)))).
Proof.
  intros c H Hk Ea Ed. pose proof (zlen_nonneg k). unfold _bson_json_read_append_code. rewrite <- (stands_code _ _ _ _ H).
  cbn [in_scope has_code has_scope code_buf code_key_buf jb_buf jb_len negb c]. erewrite run_bind by reflexivity. rewrite !(eval_lift _ _ _ _ (eq_refl (Ret _))).
  rewrite (child_address _ _ _ _ _ H), (s32_id (zlen k)) by lia. unfold STACK_BSON. rewrite (top_n _ _ _ _ _ H), (stands_bson _ _ _ _ H).
  replace (b + (1 + zlen fs)) with (b + zlen fs + 1) by lia. rewrite (run_bind _ _ _ _ _ Ea), (run_bind _ _ _ _ _ Ed). reflexivity.
Qed.

Lemma codewscope_read js els : Forall (fun kv => reading kv.2) els -> reading (VCodeWScope js els).
Proof.
  intros Hv b fs f c k own scope r Hok Hre Hh Hc Hr. destruct (scope_parts scope own js els) as (P1 & P2 & P3). apply P1 in Hre as (-> & -> & Hjs & Hre). rewrite P2 in Hh. specialize (Hc eq_refl).
  inversion_clear Hok as [| | |? ? Hlf Hel]; [done|]. assert (Hn : 0 <= heights els) by (clear; induction els as [|[]]; cbn [heights]; lia).
  destruct Hlf as [Hnn _]. pose proof (zlen_nonneg fs) as Hfs. pose proof (zlen_nonneg js) as Hjl.
  apply yields_small. unfold encode_elem. cbn [fst snd type_of]. rewrite encode_codewscope. intros Hsz. apply key_bounds in Hsz as [Hk Hsz].
  unfold encode_doc in *. rewrite !zlen_app, zlen_string_bytes, zlen_doc_bytes, zlen_le_bytes in Hsz. pose proof (zlen_nonneg (encode_body els)) as Hbl.
  destruct (code_entry strtod b fs f c k true r Hr Hk js Hc eq_refl (scalar_weaken _ Hjs) ltac:(lia)) as (r3 & kept & post & Hkc & H3 & K3 & O3 & S3 & T3 & E3). cbn zeta in *.
  destruct (scope_key_spec b fs f k _ kept r3 H3 K3 O3 S3 eq_refl eq_refl Hkc Hk) as (kept' & r5 & [postk ->] & H5 & S5 & O5 & E5). cbn [has_code code_buf] in H5.
  assert (Hg : zlen (fs ++ [f]) = zlen fs + 1) by by rewrite zlen_app.
  destruct (enter_scope b (fs ++ [f]) _ r5 H5 S5 eq_refl ltac:(lia) O5) as (i & x & y & r6 & I6 & E6). set (c6 := with_scope _ true) in I6.
  destruct (first_opens els [EEndMap]) as (e & es & Ees & Ho); [auto | lia |].
  eapply yields_scope with (key := k ++ 0 :: postk) (n := zlen k) (post := post) (c := run_events (member_events els) r6)
    (Q := idle b ((fs ++ [f]) ++ [mk_frame i BSON_JSON_FRAME_SCOPE x y]) (eq c6)); [intros; by apply key_ok_here | done | |].
  { replace (b + zlen fs + 1) with (b + zlen (fs ++ [f])) by lia. apply (members_read b (fs ++ [f]) _ (eq c6) true); [done | done | done | done | done | rewrite Hg; lia | exact I6]. }
  intros m m1 m2 m3 r7 o s Ei Ec I7 Ea Rs Hst Hown.
  destruct (destroy_scope _ _ _ _ _ Rs Hst Hown) as (m4 & Ed & Fo & Fc).
  destruct (leave_scope b (fs ++ [f]) _ c6 r7 m2 I7 eq_refl ltac:(lia)) as (r8 & E8 & H8 & S8 & T8 & O8).
  eexists m4, _. split; [|split; [|split; [intros; by rewrite Fo | intros; apply Fc; lia]]].
  - rewrite P3, E3, E5, Ees, (E6 e es m m1 Ho) by (rewrite Hg; by replace (b + (zlen fs + 1)) with (b + zlen fs + 1) by lia).
    rewrite <- Ees, run_app, (run_bind _ _ _ _ _ Ec), (run_cons _ _ _ _ _ _ _ (stands_runs _ _ _ _ (proj1 I7)) E8).
    erewrite run_cons; [reflexivity | exact (stands_runs _ _ _ _ H8) |]. rewrite end_typed by done. unfold append_typed.
    change (jr_bson_type (set_read_state r8 BSON_JSON_REGULAR)) with (jr_bson_type r8). rewrite T8. calc_tests.
    eapply append_code_spec; [apply stands_read_state; exact H8 | done | exact Ea | exact Ed].
  - split; [|done]. eapply stands_other_code; [apply stands_read_state; exact H8|]. by apply Hc.
Qed.

(** ** Every value *)

Lemma leaf_read v : match v with VDocument _ | VArray _ | VCodeWScope _ _ => True | _ => reading v end.
Proof.
  destruct v as [d|s| | |st data| |oid|x|n| |re op|cl oid|js|s| |n|t i|n|lo hi| |]; try exact I; intros b fs f c k own scope r Hok Hre Hh Hc Hr;
    inversion_clear Hok as [? _ Hl| | |]; cbn [leaf_ok readable leaf_readable value_events] in *; try done;
    apply yields_small; unfold encode_elem at 1; cbn [fst snd]; intros Hsz; apply key_bounds in Hsz as [Hk Hsz].
  - by eapply reads_double.
  - apply (reads_utf8 strtod b fs f c k own r Hr Hk); [done|]. cbn [encode_value] in Hsz. rewrite zlen_string_bytes in Hsz. lia.
  - destruct Hl. eapply reads_binary; [done..|]. cbn [encode_value] in Hsz. revert Hsz. unfold binary_bytes. pose proof (zlen_nonneg data). destruct (_ =? _); autorewrite with zlen; lia.
  - by eapply reads_undefined.
  - destruct Hl. by eapply reads_oid.
  - by apply (reads_bool strtod b fs f c k own r Hr Hk).
  - by eapply reads_date.
  - by apply (reads_null strtod b fs f c k own r Hr Hk).
  - destruct Hre as (-> & -> & Hjs). destruct Hl as [Hn _]. eapply reads_code; [done | done | by apply Hc | done | by apply scalar_weaken | done |].
    cbn [encode_value] in Hsz. rewrite zlen_string_bytes in Hsz. lia.
  - eapply reads_symbol; [done | done | done |]. cbn [encode_value] in Hsz. rewrite zlen_string_bytes in Hsz. lia.
  - by eapply reads_int32.
  - destruct Hl. by eapply reads_timestamp.
  - by eapply reads_int64.
  - destruct Hl. by eapply reads_decimal.
  - by eapply reads_maxkey.
  - by eapply reads_minkey.
Qed.

Lemma all_read v : reading v.
Proof. apply (value_ind' reading); [exact document_read | exact array_read | exact codewscope_read | exact leaf_read]. Qed.

(** ** The whole document *)

(** The last event. *)
Lemma end_top b g c r m : idle b [g] c r -> f_type g = BSON_JSON_FRAME_DOC -> f_has_id g = f_has_ref g ->
  callback EEndMap r m = Ret (m, set_read_state (set_n r (-1)) BSON_JSON_DONE).
Proof.
  intros [H S] Hg Hi. change [g] with ([] ++ [g]) in H. pose proof (top_n _ _ _ _ _ H) as Hn. change (zlen []) with 0 in Hn.
  cbn [JsonRead.callback]. unfold _bson_json_read_end_map, end_in_state. rewrite S. unfold end_document.
  rewrite (eval_lift _ _ _ _ (stack_ele _ _ _ _ _ H)), Hg, Hi, eqb_reflx. cbn [negb]. cbv iota. unfold STACK_POP_DOC, STACK_POP.
  rewrite (eval_lift _ _ _ _ (stack_is _ _ _ _ _ H _)), Hg. cbn [is_frame eqb negb]. cbv iota. rewrite Hn. reflexivity.
Qed.

Lemma reader_started r b : jr_bson r = b -> length (jr_stack r) = 100%nat -> code_idle (jr_code r) -> jr_stopped r = false ->
  idle b [] code_idle (set_error (set_read_state (set_n r (-1)) BSON_JSON_REGULAR) None).
Proof. intros. split; [|done]. constructor; try done. Qed.

(** Reading into a document that was just initialised. *)
Lemma document_events_read els r b m : jr_bson r = b -> length (jr_stack r) = 100%nat -> code_idle (jr_code r) -> jr_stopped r = false ->
  elems_ok els -> readable_els strtod false els -> heights els <= 99 -> zlen (encode_doc els) <= 2 ^ 30 ->
  exists m' r' slack, (bson_init b;; bson_json_reader_read strtod r (document_events els)) m = Ret (m', (1, r')) /\
    bson_get_data b m' = Ret (m', encode_doc els ++ slack) /\
    length (jr_stack r') = 100%nat /\ code_idle (jr_code r') /\ jr_stopped r' = false /\ jr_error r' = None.
Proof.
  intros Hb Hst Hco Hrun Hok Hre Hh Hsz. destruct (reader_started r b Hb Hst Hco Hrun) as [H0 S0]. set (r0 := set_error _ None) in *.
  unfold encode_doc in Hsz. rewrite zlen_doc_bytes in Hsz.
  assert (H1 : stands b [] code_idle (set_read_state r0 BSON_JSON_IN_START_MAP)) by same.
  destruct (enter_document b [] code_idle [] _ H1 eq_refl) as (i & r2 & I2 & _ & _ & E2); [done | done |]. cbn [app] in I2.
  destruct (first_opens els []) as (e & es & Ees & Ho); [auto | lia |].
  destruct (init_rep m b) as (m1 & o & s & Ei & R & W & G & Hown & Hd & _ & _).
  assert (Y : yields (run_events (member_events els) r2) b (encode_body els) (idle b [mk_frame i BSON_JSON_FRAME_DOC false false] code_idle)).
  { replace b with (b + zlen (@nil bson_json_stack_frame_t)) at 1 by (change (zlen []) with 0; lia). change [mk_frame i BSON_JSON_FRAME_DOC false false] with ([] ++ [mk_frame i BSON_JSON_FRAME_DOC false false]).
    apply (members_read b [] _ code_idle false); [done | | done | done | done | change (zlen []) with 0; lia | done]. apply Forall_forall. intros. apply all_read. }
  destruct (Y m1 o [] [] s R W G) as (m2 & o2 & s2 & r3 & E3 & I3 & R2 & _ & _); [lia | change (zlen (@nil Z)) with 0; lia |].
  exists m2, (set_read_state (set_n r3 (-1)) BSON_JSON_DONE), s2. pose proof I3 as [H3 S3].
  split; [|split; [by rewrite (get_data_spec _ _ _ _ _ _ R2)|]].
  - assert (Er : run_events (document_events els) r0 m1 = Ret (m2, set_read_state (set_n r3 (-1)) BSON_JSON_DONE)).
    { unfold document_events. cbn [app]. rewrite (run_cons _ _ _ _ _ m1 (set_read_state r0 BSON_JSON_IN_START_MAP) (stands_runs _ _ _ _ H0)) by reflexivity.
      rewrite Ees, (E2 e es m1 m1 Ho eq_refl), <- Ees, run_app, (run_bind _ _ _ _ _ E3).
      rewrite (run_cons _ _ _ _ _ m2 (set_read_state (set_n r3 (-1)) BSON_JSON_DONE) (stands_runs _ _ _ _ H3)); [done | by eapply end_top]. }
    rewrite (run_bind _ _ _ _ _ Ei). unfold bson_json_reader_read. fold r0. rewrite (run_bind _ _ _ _ _ Er).
    change (jr_error (set_read_state (set_n r3 (-1)) BSON_JSON_DONE)) with (jr_error r3). by rewrite (stands_fine _ _ _ _ H3).
  - split; [exact (stands_size _ _ _ _ H3)|]. split; [exact (stands_code _ _ _ _ H3)|]. split; [exact (stands_runs _ _ _ _ H3) | exact (stands_fine _ _ _ _ H3)].
Qed.
End Nested.
