(* ===== verification/JsonTokens.v ===== *)
(** * The events of a JSON text

    RFC 8259 with the events that a lexer reports: [json_tokens t es] says that the text
    [t] is a value whose structure is [es], with the strings decoded.  The text
    that is printed in canonical mode has the events of [JsonEvents]. *)
From stdpp Require Import strings.
From S2P Require Import Prelude Memory Utf8 Strings Format Document Append Lifecycle Iter IterSafe Find Values Numbers Oid Dates Calendar Timegm Iso8601 DateText Decimal128 DecimalText RoundTrip Visit Validate Base64 Printf Json JsonText JsonPrint JsonGrammar JsonRead JsonEvents JsonLeaves.
#[local] Open Scope Z_scope.

(** ** The grammar *)

(** The code unit of four hexadecimal digits. *)
Definition hex4 (a b c d : Z) : option Z :=
  match hex_digit_val a, hex_digit_val b, hex_digit_val c, hex_digit_val d with
  | Some a, Some b, Some c, Some d => Some (((a * 16 + b) * 16 + c) * 16 + d)
  | _, _, _, _ => None
  end.
Definition surrogate (n : Z) : bool := (0xD800 <=? n) && (n <? 0xE000).

(** One character of a string and its bytes; a pair of surrogates is one character. *)
Inductive char_of : bytes -> bytes -> Prop :=
| char_of_plain b : 32 <= b < 256 -> b <> 34 -> b <> 92 -> char_of [b] [b]
| char_of_escape b : b ∈ [34; 92; 47; 98; 102; 110; 114; 116] -> char_of [92; b] [escaped_char b]
| char_of_unicode a b c d n : hex4 a b c d = Some n -> surrogate n = false -> char_of [92; 117; a; b; c; d] (utf8_encode n)
| char_of_pair a b c d e f g h hi lo : hex4 a b c d = Some hi -> hex4 e f g h = Some lo -> 0xD800 <= hi < 0xDC00 -> 0xDC00 <= lo < 0xE000 ->
    char_of [92; 117; a; b; c; d; 92; 117; e; f; g; h] (utf8_encode (0x10000 + (hi - 0xD800) * 0x400 + (lo - 0xDC00))).

Inductive chars_of : bytes -> bytes -> Prop :=
| chars_of_nil : chars_of [] []
| chars_of_cons t c ts s : char_of t c -> chars_of ts s -> chars_of (t ++ ts) (c ++ s).

Inductive string_of : bytes -> bytes -> Prop :=
| string_of_intro t s : chars_of t s -> string_of ([34] ++ t ++ [34]) s.

(** A number without point and exponent is an integer. *)
Definition minus (neg : bool) : bytes := if neg then [45] else [].
Inductive number_of : bytes -> json_event -> Prop :=
| number_of_integer neg ds : canonical ds -> number_of (minus neg ++ ds) (EInteger (dval ds) neg)
| number_of_double neg ip fp ex : canonical ip -> fraction_part fp -> exponent_part ex -> fp ++ ex <> [] ->
    number_of (minus neg ++ ip ++ fp ++ ex) (EDouble (minus neg ++ ip ++ fp ++ ex)).

Inductive json_tokens : bytes -> list json_event -> Prop :=
| tokens_true : json_tokens (lit "true") [EBoolean true]
| tokens_false : json_tokens (lit "false") [EBoolean false]
| tokens_null : json_tokens (lit "null") [ENull]
| tokens_string t s : string_of t s -> json_tokens t [EString s]
| tokens_number t e : number_of t e -> json_tokens t [e]
| tokens_empty_object w : ws w -> json_tokens ([123] ++ w ++ [125]) [EStartMap; EEndMap]
| tokens_object t es : members_of t es -> json_tokens ([123] ++ t ++ [125]) ([EStartMap] ++ es ++ [EEndMap])
| tokens_empty_array w : ws w -> json_tokens ([91] ++ w ++ [93]) [EStartArray; EEndArray]
| tokens_array t es : elements_of t es -> json_tokens ([91] ++ t ++ [93]) ([EStartArray] ++ es ++ [EEndArray])
with members_of : bytes -> list json_event -> Prop :=
| members_of_one t es : member_of t es -> members_of t es
| members_of_more t es ts ess : member_of t es -> members_of ts ess -> members_of (t ++ [44] ++ ts) (es ++ ess)
with member_of : bytes -> list json_event -> Prop :=
| member_of_intro w1 t k w2 e es : ws w1 -> string_of t k -> ws w2 -> element_of e es -> member_of (w1 ++ t ++ w2 ++ [58] ++ e) (EKey k :: es)
with elements_of : bytes -> list json_event -> Prop :=
| elements_of_one t es : element_of t es -> elements_of t es
| elements_of_more t es ts ess : element_of t es -> elements_of ts ess -> elements_of (t ++ [44] ++ ts) (es ++ ess)
with element_of : bytes -> list json_event -> Prop :=
| element_of_intro w1 t es w2 : ws w1 -> json_tokens t es -> ws w2 -> element_of (w1 ++ t ++ w2) es.

Scheme tokens_ind' := Induction for json_tokens Sort Prop
with members_of_ind' := Induction for members_of Sort Prop
with member_of_ind' := Induction for member_of Sort Prop
with elements_of_ind' := Induction for elements_of Sort Prop
with element_of_ind' := Induction for element_of Sort Prop.

(** ** It is the grammar of [JsonGrammar] *)

Lemma hex_digit_letter a x : hex_digit_val a = Some x -> hex_letter a.
Proof.
  unfold hex_digit_val, hex_letter. intros H. destruct (isdigit a) eqn:E; [left; by apply isdigit_spec | right].
  destruct ((97 <=? a) && (a <=? 102)) eqn:E1; bool_hyps; [lia|]. destruct ((65 <=? a) && (a <=? 70)) eqn:E2; [bool_hyps; lia | done].
Qed.

Lemma hex4_letters a b c d n : hex4 a b c d = Some n -> hex_letter a /\ hex_letter b /\ hex_letter c /\ hex_letter d.
Proof.
  unfold hex4. intros H. destruct (hex_digit_val a) eqn:Ea; [|done]. destruct (hex_digit_val b) eqn:Eb; [|done].
  destruct (hex_digit_val c) eqn:Ec; [|done]. destruct (hex_digit_val d) eqn:Ed; [|done]. split_and!; by eapply hex_digit_letter.
Qed.

Lemma chars_of_text t s : chars_of t s -> chars_text t.
Proof.
  assert (Hu : forall a b c d n, hex4 a b c d = Some n -> char_text [92; 117; a; b; c; d]) by (intros ? ? ? ? ? (? & ? & ? & ?)%hex4_letters; by apply char_unicode).
  induction 1 as [|t c ts s Hc _ IH]; [constructor|]. destruct Hc as [b| |a b c d n|a b c d e f g h hi lo H1 H2]; [by constructor; [apply char_plain|] | by constructor; [apply char_escape|] | constructor; eauto |].
  change ([92; 117; a; b; c; d; 92; 117; e; f; g; h] ++ ts) with ([92; 117; a; b; c; d] ++ [92; 117; e; f; g; h] ++ ts). constructor; [eauto|]. constructor; eauto.
Qed.

Lemma string_of_lit t s : string_of t s -> string_lit t.
Proof. intros [t' s' H]. constructor. by eapply chars_of_text. Qed.

Lemma number_of_lit t e : number_of t e -> number_lit t.
Proof.
  intros [neg ds H|neg ip fp ex H1 H2 H3 _]; apply (number_lit_intro neg).
  - exists ds, [], []. rewrite !app_nil_r. split; [done|]. split; [done|]. split; by left.
  - by exists ip, fp, ex.
Qed.

(** A text with events is JSON. *)
Lemma tokens_json t es : json_tokens t es -> json t.
Proof.
  intros H. induction H using tokens_ind' with (P0 := fun t _ _ => json_members t) (P1 := fun t _ _ => json_member t) (P2 := fun t _ _ => json_elements t) (P3 := fun t _ _ => json_element t);
    try (constructor; done); eauto using json_string, json_number, string_of_lit, number_of_lit.
  constructor; eauto using string_of_lit.
Qed.

(** ** Strings *)

Lemma hex_char_val n : 0 <= n < 16 -> hex_digit_val (hex_char n) = Some n.
Proof.
  intros H. unfold hex_char, hex_digit_val, isdigit. destruct (n <? 10) eqn:E; bool_hyps.
  - replace (_ && _) with true by lia. f_equal. lia.
  - replace ((48 <=? 87 + n) && _) with false by lia. replace (_ && _) with true by lia. f_equal. lia.
Qed.

Lemma escape_byte_decoded b : is_byte b -> char_of (escape_byte b) [b].
Proof.
  unfold is_byte. intros Hb. unfold escape_byte.
  destruct ((b =? 92) || (b =? 34)) eqn:E0; [assert (b = 92 \/ b = 34) as [-> | ->] by lia; refine (char_of_escape _ _); set_solver|].
  repeat match goal with |- context [if b =? ?k then _ else _] => destruct (b =? k) eqn:?; [assert (b = k) as -> by lia; refine (char_of_escape _ _); set_solver|] end.
  destruct (b <? 32) eqn:E; bool_hyps; [|apply char_of_plain; lia].
  replace [b] with (utf8_encode b) by (unfold utf8_encode; by replace (b <? 0x80) with true by lia).
  unfold unicode_escape, hex2. apply (char_of_unicode 48 48 (hex_char (b / 16)) (hex_char (b mod 16)) b).
  - unfold hex4. rewrite !hex_char_val by divmod. change (hex_digit_val 48) with (Some 0). cbv iota beta. f_equal. divmod.
  - unfold surrogate. lia.
Qed.

Lemma escaped_decoded s : Forall is_byte s -> chars_of (json_escape s) s.
Proof.
  induction 1 as [|b s Hb _ IH]; [constructor|]. change (json_escape (b :: s)) with (escape_byte b ++ json_escape s).
  apply (chars_of_cons _ [b]); [by apply escape_byte_decoded | done].
Qed.

Lemma plain_decoded s : plain_text s -> chars_of s s.
Proof.
  induction 1 as [|b s Hb _ IH]; [constructor|]. unfold plain_char in Hb. change (b :: s) with ([b] ++ s). constructor; [constructor; lia | done].
Qed.

Lemma name_decoded s : plain_name s = true -> string_of (name s) (chars s).
Proof.
  unfold plain_name, name. intros H. assert (E : lit s = chars s).
  { unfold lit in *. induction (chars s) as [|c cs IH]; [done|]. cbn [map forallb] in *. apply andb_true_iff in H as [H1 H2]. rewrite IH by done.
    destruct (c =? 39) eqn:Ec; [cbn in H1; lia | done]. }
  rewrite E in *. apply string_of_intro, plain_decoded, Forall_forall. intros b Hb. rewrite forallb_forall in H.
  apply list_elem_of_In in Hb. specialize (H b Hb). unfold plain_char. lia.
Qed.

(** ** Objects and arrays *)

#[local] Hint Resolve ws_space ws_nil : core.

(** A member: the text and the bytes of its key, the text and the events of its value. *)
Definition field : Type := bytes * bytes * (bytes * list json_event).
Definition field_ok (x : field) : Prop := let '(k, key, (v, es)) := x in string_of k key /\ json_tokens v es.
Definition field_text (x : field) : bytes := let '(k, _, (v, _)) := x in colon k v.
Definition field_events (x : field) : list json_event := let '(_, key, (_, es)) := x in EKey key :: es.
Definition object_of (xs : list field) : bytes := lit "{ " ++ separated (map field_text xs) ++ lit " }".
Definition events_of (xs : list field) : list json_event := [EStartMap] ++ concat (map field_events xs) ++ [EEndMap].

Lemma fields_tokens xs : xs <> [] -> Forall field_ok xs -> members_of ([32] ++ separated (map field_text xs) ++ [32]) (concat (map field_events xs)).
Proof.
  intros Hn H. induction H as [|[[k key] [v es]] xs [Hk Hv] _ IH]; [done|]. cbn [map separated concat field_text field_events]. destruct xs as [|x xs]; cbn [map].
  - cbn [concat]. rewrite app_nil_r. apply members_of_one. unfold colon. change (lit " : ") with ([32] ++ [58] ++ [32]). rewrite <- !app_assoc.
    apply (member_of_intro [32] k key [32]); auto. apply (element_of_intro [32] v es [32]); auto.
  - specialize (IH ltac:(done)). cbn [map] in IH. set (rest := separated (_ :: _)) in *.
    replace ([32] ++ (colon k v ++ lit ", " ++ rest) ++ [32]) with (([32] ++ k ++ [32] ++ [58] ++ [32] ++ v ++ []) ++ [44] ++ [32] ++ rest ++ [32])
      by (unfold colon; rewrite app_nil_r, <- !app_assoc; reflexivity).
    apply (members_of_more _ (EKey key :: es)); [|done]. apply (member_of_intro [32] k key [32]); auto. apply (element_of_intro [32] v es []); auto.
Qed.

Lemma object_tokens xs : Forall field_ok xs -> json_tokens (object_of xs) (events_of xs).
Proof.
  intros H. unfold object_of, events_of. destruct xs as [|x xs]; [apply (tokens_empty_object [32; 32]); repeat (apply Forall_cons_2; [by left|]); apply Forall_nil_2|].
  change (lit "{ ") with ([123] ++ [32]). change (lit " }") with ([32] ++ [125]).
  pose proof (tokens_object _ _ (fields_tokens (x :: xs) ltac:(done) H)) as Hj. by rewrite <- !app_assoc in *.
Qed.

Definition item_ok (x : bytes * list json_event) : Prop := json_tokens x.1 x.2.

Lemma items_tokens xs : xs <> [] -> Forall item_ok xs -> elements_of ([32] ++ separated (map fst xs) ++ [32]) (concat (map snd xs)).
Proof.
  intros Hn H. induction H as [|[v es] xs Hv _ IH]; [done|]. cbn [map separated concat fst snd] in *. destruct xs as [|x xs]; cbn [map].
  - cbn [concat]. rewrite app_nil_r. apply elements_of_one, (element_of_intro [32] v es [32]); auto.
  - specialize (IH ltac:(done)). cbn [map] in IH. set (rest := separated (_ :: _)) in *.
    replace ([32] ++ (v ++ lit ", " ++ rest) ++ [32]) with (([32] ++ v ++ []) ++ [44] ++ [32] ++ rest ++ [32]) by (rewrite app_nil_r, <- !app_assoc; reflexivity).
    apply elements_of_more; [|done]. apply (element_of_intro [32] v es []); auto.
Qed.

Lemma array_tokens xs : Forall item_ok xs -> json_tokens (lit "[ " ++ separated (map fst xs) ++ lit " ]") ([EStartArray] ++ concat (map snd xs) ++ [EEndArray]).
Proof.
  intros H. destruct xs as [|x xs]; [apply (tokens_empty_array [32; 32]); repeat (apply Forall_cons_2; [by left|]); apply Forall_nil_2|].
  change (lit "[ ") with ([91] ++ [32]). change (lit " ]") with ([32] ++ [93]).
  pose proof (tokens_array _ _ (items_tokens (x :: xs) ltac:(done) H)) as Hj. by rewrite <- !app_assoc in *.
Qed.

(** ** Leaves *)

Lemma fmt_u_tokens n : 0 <= n < 2 ^ 64 -> json_tokens (fmt_u n) [EInteger n false].
Proof. intros Hn. destruct (fmt_u_spec n Hn) as [H E]. rewrite <- E at 2. by apply tokens_number, (number_of_integer false). Qed.

Lemma escaped_tokens s : Forall is_byte s -> json_tokens (in_quotes (json_escape s)) [EString s].
Proof. intros H. by apply tokens_string, string_of_intro, escaped_decoded. Qed.

Lemma plain_tokens s : plain_text s -> json_tokens (in_quotes s) [EString s].
Proof. intros H. by apply tokens_string, string_of_intro, plain_decoded. Qed.

(** Members with the names of the printer: any value, a plain text, an escaped
    text, an object. *)
Definition named (k : string) (v : bytes) (es : list json_event) : field := (name k, chars k, (v, es)).
Definition plain (k : string) (s : bytes) : field := named k (in_quotes s) [EString s].
Definition escaped (k : string) (s : bytes) : field := named k (in_quotes (json_escape s)) [EString s].
Definition inner (k : string) (xs : list field) : field := named k (object_of xs) (events_of xs).

Section names.
Context (k : string) (Hk : plain_name k = true).

Lemma named_ok v es : json_tokens v es -> field_ok (named k v es).
Proof using Hk. intros H. split; [by apply name_decoded | done]. Qed.
Lemma plain_ok s : plain_text s -> field_ok (plain k s).
Proof using Hk. intros. by apply named_ok, plain_tokens. Qed.
Lemma escaped_ok s : Forall is_byte s -> field_ok (escaped k s).
Proof using Hk. intros. by apply named_ok, escaped_tokens. Qed.
Lemma inner_ok xs : Forall field_ok xs -> field_ok (inner k xs).
Proof using Hk. intros. by apply named_ok, object_tokens. Qed.
End names.

Lemma fmt_d_plain_64 n : int64_range n -> plain_text (fmt_d n).
Proof. unfold int64_range. intros. apply fmt_d_plain. lia. Qed.
Lemma fmt_d_plain_32 n : int32_range n -> plain_text (fmt_d n).
Proof. unfold int32_range. intros. apply fmt_d_plain. lia. Qed.
Lemma fmt_u_tokens_32 n : uint_range 32 n -> json_tokens (fmt_u n) [EInteger n false].
Proof. unfold uint_range. intros. apply fmt_u_tokens. lia. Qed.

Create HintDb decoded.
#[local] Hint Resolve fmt_d_plain_64 fmt_d_plain_32 hex2_plain hex_of_plain b64_text_plain options_plain fmt_u_tokens_32 tokens_true : decoded.

(** The text and the events as those of members, which are in the grammar. *)
Ltac as_fields xs := match goal with |- json_tokens ?x ?es =>
  replace x with (object_of xs)
    by (cbv beta iota fix match delta [leaf_text extended canonical_mode is_mode orb object_of inner plain escaped named field_text map separated colon name in_quotes quoted];
        rewrite <- ?app_assoc; reflexivity);
  change es with (events_of xs); apply object_tokens;
  repeat first [apply Forall_nil_2 | apply Forall_cons_2 | apply inner_ok; [reflexivity|] | apply plain_ok; [reflexivity|] | apply escaped_ok; [reflexivity|] | apply named_ok; [reflexivity|]];
  auto with decoded end.

Lemma double_decoded d : uint_range 64 d -> json_tokens (double_text BSON_JSON_MODE_CANONICAL d) (leaf_events (VDouble d)).
Proof.
  intros Hd. unfold double_text. change (is_mode BSON_JSON_MODE_CANONICAL BSON_JSON_MODE_LEGACY) with false. cbn [orb andb leaf_events].
  pose proof (double_chars d Hd) as Hc. as_fields [plain "$numberDouble" (double_string d)].
  unfold double_string. destruct (is_nan d); [by vm_compute; repeat constructor; discriminate|].
  destruct (not_finite d); [destruct (dbl_positive d); by vm_compute; repeat constructor; discriminate|].
  apply plain_both; [done|]. destruct (digits_only_text _); [by vm_compute; repeat constructor; discriminate | constructor].
Qed.

(** The spacing of these two is their own. *)
Lemma binary_decoded b st : plain_text b -> plain_text st ->
  json_tokens (lit "{ '$binary' : { 'base64': '" ++ b ++ lit "', 'subType' : '" ++ st ++ lit "' } }")
    (wrapped "$binary" [EStartMap; EKey (chars "base64"); EString b; EKey (chars "subType"); EString st; EEndMap]).
Proof.
  intros Hb Hs.
  as_fields [named "$binary" ([123] ++ (([32] ++ name "base64" ++ [] ++ [58] ++ [32] ++ in_quotes b ++ []) ++ [44] ++ ([32] ++ name "subType" ++ [32] ++ [58] ++ [32] ++ in_quotes st ++ [32])) ++ [125])
    ([EStartMap] ++ ([EKey (chars "base64"); EString b] ++ [EKey (chars "subType"); EString st]) ++ [EEndMap])].
  apply tokens_object, members_of_more; [|apply members_of_one]; apply member_of_intro; auto; try (by apply name_decoded).
  - apply (element_of_intro [32] _ _ []); auto. by apply plain_tokens.
  - apply (element_of_intro [32] _ _ [32]); auto. by apply plain_tokens.
Qed.

Lemma number_long_decoded s : plain_text s -> json_tokens (lit "{ '$numberLong' : '" ++ s ++ lit "'}") (wrapped "$numberLong" [EString s]).
Proof.
  intros Hs. replace (lit _ ++ _) with ([123] ++ ([32] ++ name "$numberLong" ++ [32] ++ [58] ++ [32] ++ in_quotes s ++ []) ++ [125])
    by (unfold name, in_quotes; rewrite <- ?app_assoc; reflexivity).
  apply (tokens_object _ [EKey (chars "$numberLong"); EString s]), members_of_one, member_of_intro; auto; [by apply name_decoded|].
  apply (element_of_intro [32] _ _ []); auto. by apply plain_tokens.
Qed.

Lemma leaf_decoded v : leaf_ok v -> printable BSON_JSON_MODE_CANONICAL v -> match v with VDocument _ | VArray _ | VCodeWScope _ _ => False | _ => True end ->
  json_tokens (leaf_text BSON_JSON_MODE_CANONICAL v) (leaf_events v).
Proof.
  intros Hok Hp Hv. destruct Hp as [| | |v Hp]; [done..|]. destruct v; try done; cbn [leaf_ok] in Hok.
  - by apply double_decoded.
  - apply escaped_tokens. by eapply scalar_bytes.
  - destruct Hok as [Hs Hb]. apply binary_decoded; auto with decoded.
  - as_fields [named "$undefined" (lit "true") [EBoolean true]].
  - destruct Hok as [_ Hb]. as_fields [plain "$oid" (hex_of oid)].
  - destruct b; constructor.
  - as_fields [inner "$date" [plain "$numberLong" (fmt_d msec)]].
  - constructor.
  - destruct Hok as (_ & _ & Hb & _). as_fields [inner "$regularExpression" [escaped "pattern" regex; plain "options" (regex_options options)]].
  - destruct Hok as (_ & Hb & _ & Ho). as_fields [inner "$dbPointer" [escaped "$ref" collection; inner "$id" [plain "$oid" (hex_of oid)]]].
  - destruct Hok as [_ Hb]. as_fields [escaped "$code" js].
  - as_fields [escaped "$symbol" s].
  - as_fields [plain "$numberInt" (fmt_d n)].
  - destruct Hok as [Ht Hi]. as_fields [inner "$timestamp" [named "t" (fmt_u timestamp) [EInteger timestamp false]; named "i" (fmt_u increment) [EInteger increment false]]].
  - apply number_long_decoded. auto with decoded.
  - destruct (decimal_printed _ Hp) as [_ Hc]. as_fields [plain "$numberDecimal" (decimal_text (mk_dec128 low high))].
  - as_fields [named "$maxKey" (fmt_d 1) [EInteger 1 false]]. by apply fmt_u_tokens.
  - as_fields [named "$minKey" (fmt_d 1) [EInteger 1 false]]. by apply fmt_u_tokens.
Qed.

(** ** Documents *)

(** The values of a document, each with its events. *)
Definition all_decoded (els : list (bytes * value)) : Prop :=
  Forall (fun kv => forall depth, value_ok kv.2 -> printable BSON_JSON_MODE_CANONICAL kv.2 -> representable BSON_JSON_MODE_CANONICAL depth kv.2 = true ->
    json_tokens (json_value BSON_JSON_MODE_CANONICAL depth kv.2) (value_events kv.2)) els.

Definition member_of_value (depth : Z) (kv : bytes * value) : field := (quoted kv.1, kv.1, (json_value BSON_JSON_MODE_CANONICAL depth kv.2, value_events kv.2)).

Lemma members_decoded depth els : all_decoded els -> elems_ok els -> printable_els BSON_JSON_MODE_CANONICAL els -> representable_els BSON_JSON_MODE_CANONICAL depth els = true ->
  Forall field_ok (map (member_of_value depth) els).
Proof.
  intros Hall Hok Hp Hr. induction Hall as [|[k v] els Hv _ IH]; [constructor|]. inversion_clear Hok as [|? ? ? [_ Hk] Hvo Hels]. inversion_clear Hp as [|? ? ? Hks Hvp Hpe].
  cbn in Hr. apply andb_true_iff in Hr as [Hr1 Hr2]. constructor; [|by apply IH]. split; [by apply string_of_intro, escaped_decoded | by apply Hv].
Qed.

Lemma document_decoded depth els : all_decoded els -> elems_ok els -> printable_els BSON_JSON_MODE_CANONICAL els -> representable_els BSON_JSON_MODE_CANONICAL depth els = true ->
  json_tokens (lit "{ " ++ members BSON_JSON_MODE_CANONICAL depth true els ++ lit " }") (document_events els).
Proof.
  intros H1 H2 H3 H4. pose proof (object_tokens _ (members_decoded depth els H1 H2 H3 H4)) as H. unfold object_of, events_of in H. rewrite !map_map in H.
  unfold members, document_events, member_events.
  replace (map (fun '(k, v) => key_text _ _ ++ _) els) with (map (fun kv => field_text (member_of_value depth kv)) els)
    by (apply map_ext; intros [k v]; cbn [member_of_value field_text fst snd]; unfold colon, key_text; by rewrite <- app_assoc).
  replace (map (fun '(k, v) => EKey k :: value_events v) els) with (map (fun kv => field_events (member_of_value depth kv)) els) by (apply map_ext; by intros []). done.
Qed.

Lemma array_decoded depth els : all_decoded els -> elems_ok els -> printable_els BSON_JSON_MODE_CANONICAL els -> representable_els BSON_JSON_MODE_CANONICAL depth els = true ->
  json_tokens (lit "[ " ++ members BSON_JSON_MODE_CANONICAL depth false els ++ lit " ]") (value_events (VArray els)).
Proof.
  intros H1 H2 H3 H4. pose proof (array_tokens (map (fun kv => (json_value BSON_JSON_MODE_CANONICAL depth kv.2, value_events kv.2)) els)) as H. rewrite !map_map in H.
  unfold members. cbn [value_events fst snd] in *.
  replace (map (fun '(k, v) => key_text _ _ ++ _) els) with (map (fun kv => json_value BSON_JSON_MODE_CANONICAL depth kv.2) els) by (apply map_ext; by intros []).
  replace (map (fun '(_, v) => value_events v) els) with (map (fun kv => value_events kv.2) els) by (apply map_ext; by intros []). apply H.
  pose proof (members_decoded depth els H1 H2 H3 H4) as Hm. apply Forall_map. rewrite Forall_map in Hm. eapply Forall_impl; [exact Hm|]. by intros [k v] [_ Ht].
Qed.

Lemma value_decoded v : forall depth, value_ok v -> printable BSON_JSON_MODE_CANONICAL v -> representable BSON_JSON_MODE_CANONICAL depth v = true ->
  json_tokens (json_value BSON_JSON_MODE_CANONICAL depth v) (value_events v).
Proof.
  revert v. apply (value_ind' (fun v => forall depth, value_ok v -> printable BSON_JSON_MODE_CANONICAL v -> representable BSON_JSON_MODE_CANONICAL depth v = true ->
      json_tokens (json_value BSON_JSON_MODE_CANONICAL depth v) (value_events v)));
    [intros els IH depth Hok Hp Hr | intros els IH depth Hok Hp Hr | intros js els IH depth Hok Hp Hr |].
  1-2: inversion Hok; subst; [done|]; inversion Hp; subst; [|done]; cbn [representable] in Hr; apply andb_true_iff in Hr as [Hd Hr];
    cbn [json_value]; replace (depth >=? BSON_MAX_RECURSION) with false by lia.
  - by apply (document_decoded (depth + 1)).
  - by apply (array_decoded (depth + 1)).
  - inversion Hok as [| | |? ? [_ Hb] Hels]; subst; [done|]. inversion Hp; subst; [|done]. cbn [representable] in Hr.
    pose proof (document_decoded 0 els IH Hels ltac:(done) Hr) as Hs.
    assert (Hs' : json_tokens (match els with [] => lit "{ }" | _ => lit "{ " ++ members BSON_JSON_MODE_CANONICAL 0 true els ++ lit " }" end) (document_events els)).
    { destruct els; [apply (tokens_empty_object [32]), ws_space | done]. }
    clear - Hb Hs'. unfold members in Hs'. cbn [json_value]. set (scope := match els with [] => _ | _ => _ end) in *. 
    replace (value_events _) with (events_of [escaped "$code" js; named "$scope" scope (document_events els)])
      by (unfold events_of, document_events, member_events; cbn [map concat field_events escaped named value_events app]; by rewrite <- ?app_assoc, ?app_nil_r).
    as_fields [escaped "$code" js; named "$scope" scope (document_events els)].
  - intros v. destruct v; try done; intros depth Hok Hp Hr; inversion Hok; subst; by apply leaf_decoded.
Qed.

(** The printed text has the events of the document. *)
Lemma text_decoded els : elems_ok els -> printable_els BSON_JSON_MODE_CANONICAL els -> representable_els BSON_JSON_MODE_CANONICAL 0 els = true ->
  json_tokens (json_text BSON_JSON_MODE_CANONICAL els) (document_events els).
Proof.
  intros Hok Hp Hr. destruct els as [|kv els]; [apply (tokens_empty_object [32]), ws_space|].
  apply (document_decoded 0 (kv :: els)); [|done..]. apply Forall_true. intros x depth. apply value_decoded.
Qed.
