(* ===== verification/JsonLexer.v ===== *)
(** * A lexer for JSON text

    [json_events] finds the events of a text.  It finds them for every text of the
    grammar of [JsonTokens], which therefore gives a text at most one list of
    events. *)
From stdpp Require Import strings.
From S2P Require Import Prelude Memory Utf8 Strings Format Document Append Lifecycle Iter IterSafe Find Values Numbers Oid Dates Calendar Timegm Iso8601 DateText Decimal128 DecimalText RoundTrip Visit Validate Base64 Printf Json JsonText JsonPrint JsonGrammar JsonRead JsonEvents JsonTokens.
#[local] Open Scope Z_scope.

(** ** The lexer *)

Definition is_ws (b : Z) : bool := (b =? 32) || (b =? 9) || (b =? 10) || (b =? 13).
Fixpoint skip_ws (s : bytes) : bytes :=
  match s with b :: s' => if is_ws b then skip_ws s' else s | [] => [] end.

(** The rest behind an expected byte. *)
Definition expect (b : Z) (s : bytes) : option bytes := match s with c :: s => if c =? b then Some s else None | [] => None end.
Fixpoint expect_all (p s : bytes) : option bytes := match p with [] => Some s | b :: p => s ← expect b s; expect_all p s end.

(** One character of a string: its bytes and the rest. *)
Definition lex_hex4 (s : bytes) : option (Z * bytes) :=
  match s with a :: b :: c :: d :: s => n ← hex4 a b c d; Some (n, s) | _ => None end.
Definition lex_char (b : Z) (s : bytes) : option (bytes * bytes) :=
  if negb (b =? 92) then (if (32 <=? b) && (b <? 256) then Some ([b], s) else None)
  else match s with
       | [] => None
       | c :: s =>
           if c =? 117 then
             '(n, s) ← lex_hex4 s;
             if negb (surrogate n) then Some (utf8_encode n, s)
             else if 0xDC00 <=? n then None
             else s ← expect_all [92; 117] s; '(lo, s) ← lex_hex4 s;
                  if (0xDC00 <=? lo) && (lo <? 0xE000) then Some (utf8_encode (0x10000 + (n - 0xD800) * 0x400 + (lo - 0xDC00)), s) else None
           else if bool_decide (c ∈ [34; 92; 47; 98; 102; 110; 114; 116]) then Some ([escaped_char c], s) else None
       end.

(** A string behind its first quotation mark. *)
Fixpoint lex_chars (fuel : nat) (s : bytes) : option (bytes * bytes) :=
  match fuel, s with
  | S fuel, b :: s =>
      if b =? 34 then Some ([], s)
      else '(c, s) ← lex_char b s; '(cs, s) ← lex_chars fuel s; Some (c ++ cs, s)
  | _, _ => None
  end.

(** A number is all that can belong to one. *)
Definition number_byte (b : Z) : bool := isdigit b || (b =? 43) || (b =? 45) || (b =? 46) || (b =? 69) || (b =? 101).
Fixpoint number_span (s : bytes) : bytes * bytes :=
  match s with
  | b :: s' => if number_byte b then (b :: (number_span s').1, (number_span s').2) else ([], s)
  | [] => ([], [])
  end.
Definition number_event (t : bytes) : json_event :=
  let neg := bool_decide (head t = Some 45) in
  let ds := if neg then tail t else t in
  if forallb isdigit ds then EInteger (dval ds) neg else EDouble t.

(** The key of a member and what comes behind its colon. *)
Definition lex_key (s : bytes) : option (bytes * bytes) :=
  s ← expect 34 (skip_ws s); '(k, s) ← lex_chars (length s) s; s ← expect 58 (skip_ws s); Some (k, skip_ws s).

Fixpoint lex_value (fuel : nat) (s : bytes) : option (list json_event * bytes) :=
  match fuel, s with
  | S fuel, b :: s' =>
      if b =? 123 then
        (if bool_decide (head (skip_ws s') = Some 125) then Some ([EStartMap; EEndMap], tail (skip_ws s'))
         else '(es, s) ← lex_members fuel s'; s ← expect 125 s; Some ([EStartMap] ++ es ++ [EEndMap], s))
      else if b =? 91 then
        (if bool_decide (head (skip_ws s') = Some 93) then Some ([EStartArray; EEndArray], tail (skip_ws s'))
         else '(es, s) ← lex_elements fuel s'; s ← expect 93 s; Some ([EStartArray] ++ es ++ [EEndArray], s))
      else if b =? 34 then '(t, s) ← lex_chars (length s') s'; Some ([EString t], s)
      else if b =? 116 then s ← expect_all (lit "true") s; Some ([EBoolean true], s)
      else if b =? 102 then s ← expect_all (lit "false") s; Some ([EBoolean false], s)
      else if b =? 110 then s ← expect_all (lit "null") s; Some ([ENull], s)
      else let '(t, s) := number_span s in Some ([number_event t], s)
  | _, _ => None
  end
with lex_members (fuel : nat) (s : bytes) : option (list json_event * bytes) :=
  match fuel with
  | O => None
  | S fuel =>
      '(k, s) ← lex_key s; '(es, s) ← lex_value fuel s;
      match expect 44 (skip_ws s) with
      | Some s => '(ess, s) ← lex_members fuel s; Some (EKey k :: es ++ ess, s)
      | None => Some (EKey k :: es, skip_ws s)
      end
  end
with lex_elements (fuel : nat) (s : bytes) : option (list json_event * bytes) :=
  match fuel with
  | O => None
  | S fuel =>
      '(es, s) ← lex_value fuel (skip_ws s);
      match expect 44 (skip_ws s) with
      | Some s => '(ess, s) ← lex_elements fuel s; Some (es ++ ess, s)
      | None => Some (es, skip_ws s)
      end
  end.

(** The events of a text that is one value and nothing else. *)
Definition json_events (t : bytes) : option (list json_event) :=
  match lex_value (length t) t with Some (es, []) => Some es | _ => None end.

(** ** Strings *)

Lemma ws_byte b : b = 32 \/ b = 9 \/ b = 10 \/ b = 13 <-> is_ws b = true.
Proof. unfold is_ws. lia. Qed.

Lemma skip_ws_app w s : ws w -> skip_ws (w ++ s) = skip_ws s.
Proof. induction 1 as [|b w Hb _ IH]; [done|]. cbn [app skip_ws]. by rewrite (proj1 (ws_byte b) Hb). Qed.

Lemma skip_ws_id b s : is_ws b = false -> skip_ws (b :: s) = b :: s.
Proof. intros H. cbn [skip_ws]. by rewrite H. Qed.

Lemma expect_all_app p s : expect_all p (p ++ s) = Some s.
Proof. induction p as [|b p IH]; [done|]. cbn [app expect_all expect]. by rewrite Z.eqb_refl. Qed.

Lemma lex_char_spec t c rest : char_of t c -> match t with b :: t => b <> 34 /\ lex_char b (t ++ rest) = Some (c, rest) | [] => False end.
Proof.
  intros [b H1 H2 H3|b H|a b c' d n H1 H2|a b c' d e f g h hi lo H1 H2 H3 H4].
  - split; [done|]. unfold lex_char. replace (b =? 92) with false by lia. cbn [negb]. by replace ((32 <=? b) && (b <? 256)) with true by lia.
  - split; [done|]. unfold lex_char. cbn [app]. rewrite bool_decide_eq_true_2 by done. replace (b =? 117) with false by (symmetry; apply Z.eqb_neq; set_solver). done.
  - split; [done|]. unfold lex_char, lex_hex4. cbn [app]. change (92 =? 92) with true. change (117 =? 117) with true. cbn [negb].
    rewrite H1. cbn [mbind option_bind]. by rewrite H2.
  - split; [done|]. unfold lex_char, lex_hex4. cbn [app]. change (92 =? 92) with true. change (117 =? 117) with true. cbn [negb].
    rewrite H1. cbn [mbind option_bind]. replace (surrogate hi) with true by (unfold surrogate; lia). cbn [negb].
    replace (0xDC00 <=? hi) with false by lia. rewrite (expect_all_app [92; 117] (e :: f :: g :: h :: rest) : expect_all _ (92 :: 117 :: _) = _). cbn [mbind option_bind].
    rewrite H2. cbn [mbind option_bind]. by replace ((0xDC00 <=? lo) && (lo <? 0xE000)) with true by lia.
Qed.

Lemma lex_chars_spec t s rest : chars_of t s -> forall fuel, (length t < fuel)%nat -> lex_chars fuel (t ++ 34 :: rest) = Some (s, rest).
Proof.
  induction 1 as [|t c ts s Hc _ IH]; intros [|fuel] Hf; [lia | done | lia|]. pose proof (lex_char_spec t c (ts ++ 34 :: rest) Hc) as H.
  destruct t as [|b t]; [done|]. destruct H as [Hb E]. rewrite length_app in Hf. cbn [length] in Hf. rewrite <- app_assoc. cbn [app lex_chars].
  replace (b =? 34) with false by lia. rewrite E. cbn [mbind option_bind]. by rewrite IH by lia.
Qed.

(** A string with its quotation marks: the fuel is the rest of the text. *)
Lemma lex_string_spec t s rest : string_of t s -> exists t', t ++ rest = 34 :: t' /\ lex_chars (length t') t' = Some (s, rest).
Proof.
  intros [t' s' H]. exists (t' ++ 34 :: rest). split; [by rewrite <- !app_assoc|]. apply lex_chars_spec; [done|]. rewrite length_app. cbn [length]. lia.
Qed.

(** ** Numbers *)

Definition number_ends (rest : bytes) : Prop := match rest with b :: _ => number_byte b = false | [] => True end.

Lemma number_span_app t rest : Forall (fun b => number_byte b = true) t -> number_ends rest -> number_span (t ++ rest) = (t, rest).
Proof.
  intros H Hr. induction H as [|b t Hb _ IH].
  - destruct rest as [|b rest]; [done|]. cbn [app number_span]. cbn in Hr. by rewrite Hr.
  - cbn [app number_span]. by rewrite Hb, IH.
Qed.

Lemma digits_number ds : Forall digit ds -> Forall (fun b => number_byte b = true) ds.
Proof. intros H. eapply Forall_impl; [exact H|]. intros b Hb. unfold number_byte. by rewrite (proj2 (isdigit_spec b) Hb). Qed.

Lemma minus_number neg : Forall (fun b => number_byte b = true) (minus neg).
Proof. destruct neg; repeat constructor. Qed.

Lemma number_of_bytes t e : number_of t e -> Forall (fun b => number_byte b = true) t.
Proof.
  intros [neg ds (Hd & _)|neg ip fp ex (Hd & _) Hf He _]; repeat (apply Forall_app; split); try apply minus_number; try by apply digits_number.
  - destruct Hf as [->|(ds & -> & _ & H)]; [constructor|]. apply Forall_cons_2; [done | by apply digits_number].
  - destruct He as [->|(sg & ds & -> & Hs & _ & H)]; [constructor|]. apply Forall_cons_2; [done|]. apply Forall_cons_2; [by destruct Hs as [-> | ->] | by apply digits_number].
Qed.

Lemma digits_all ds : Forall digit ds -> forallb isdigit ds = true.
Proof. intros H. apply forallb_forall. intros b Hb%list_elem_of_In. rewrite Forall_forall in H. by apply isdigit_spec, H. Qed.

Lemma number_event_spec t e : number_of t e -> number_event t = e.
Proof.
  intros H. assert (Hm : forall neg (ds t : bytes), Forall digit ds -> ds <> [] ->
    bool_decide (head (minus neg ++ ds ++ t) = Some 45) = neg /\ (if neg then tail (minus neg ++ ds ++ t) else minus neg ++ ds ++ t) = ds ++ t).
  { intros [] ds t' Hd Hn; [done|]. destruct ds as [|d ds]; [done|]. split; [|done]. apply bool_decide_eq_false. inversion_clear Hd. unfold digit in *. cbn. intros [=]. lia. }
  destruct H as [neg ds (Hd & Hn & _)|neg ip fp ex (Hd & Hn & _) Hf He Hne]; unfold number_event.
  - destruct (Hm neg ds [] Hd Hn) as [E1 E2]. rewrite app_nil_r in E1, E2. rewrite E1, E2. by rewrite digits_all.
  - destruct (Hm neg ip (fp ++ ex) Hd Hn) as [E1 E2]. rewrite E1, E2, !forallb_app.
    replace (forallb isdigit ip && _) with false; [done|]. symmetry. rewrite digits_all by done. cbn [andb].
    destruct Hf as [->|(ds & -> & _)]; [|done]. destruct He as [->|(sg & ds & -> & _)]; done.
Qed.

(** ** Values *)

(** What follows an element. *)
Definition stops (rest : bytes) : Prop := match rest with b :: _ => b = 44 \/ b = 93 \/ b = 125 | [] => False end.

Lemma stops_skip rest : stops rest -> skip_ws rest = rest.
Proof. destruct rest as [|b rest]; [done|]. intros H. apply skip_ws_id. cbn in H. unfold is_ws. lia. Qed.

Lemma stops_number w rest : ws w -> stops rest -> number_ends (w ++ rest).
Proof.
  intros [|b w' Hb _] Hr; cbn.
  - destruct rest as [|b rest]; [done|]. cbn in *. unfold number_byte, isdigit. lia.
  - unfold number_byte, isdigit. lia.
Qed.

Lemma value_start t es : json_tokens t es -> match t with b :: _ => is_ws b = false /\ b <> 93 | [] => False end.
Proof.
  intros H%tokens_json%json_start. destruct t as [|b t]; [done|]. unfold starts_value in H. unfold is_ws.
  apply orb_true_iff in H as [H|H%bool_decide_eq_true]; [apply orb_true_iff in H as [H|H%bool_decide_eq_true]; [apply orb_true_iff in H as [H|H%bool_decide_eq_true]|]|];
    [lia | injection H as -> _; by split..].
Qed.

Lemma members_key fuel s x : lex_members fuel s = Some x -> head (skip_ws s) = Some 34.
Proof.
  destruct fuel as [|fuel]; [done|]. cbn [lex_members]. unfold lex_key. destruct (skip_ws s) as [|b s']; [done|]. cbn [expect].
  destruct (b =? 34) eqn:E; [|done]. intros _. cbn. f_equal. lia.
Qed.

(** What the lexer makes of a value, members, a member, elements and an element. *)
Definition value_lexed (t : bytes) (es : list json_event) : Prop :=
  forall fuel rest, (length t <= fuel)%nat -> number_ends rest -> lex_value fuel (t ++ rest) = Some (es, rest).
Definition members_lexed (t : bytes) (es : list json_event) : Prop :=
  forall fuel rest, (length t <= fuel)%nat -> lex_members fuel (t ++ 125 :: rest) = Some (es, 125 :: rest).
Definition member_lexed (t : bytes) (es : list json_event) : Prop :=
  forall fuel rest, (length t <= S fuel)%nat -> stops rest ->
    exists k es' s1 s2, es = EKey k :: es' /\ lex_key (t ++ rest) = Some (k, s1) /\ lex_value fuel s1 = Some (es', s2) /\ skip_ws s2 = rest.
Definition elements_lexed (t : bytes) (es : list json_event) : Prop :=
  forall fuel rest, (length t < fuel)%nat -> lex_elements fuel (t ++ 93 :: rest) = Some (es, 93 :: rest) /\ head (skip_ws (t ++ 93 :: rest)) <> Some 93.
Definition element_lexed (t : bytes) (es : list json_event) : Prop :=
  forall fuel rest, (length t <= fuel)%nat -> stops rest ->
    exists s, lex_value fuel (skip_ws (t ++ rest)) = Some (es, s) /\ skip_ws s = rest /\ head (skip_ws (t ++ rest)) <> Some 93.

Lemma element_is_lexed w1 t es w2 : ws w1 -> json_tokens t es -> value_lexed t es -> ws w2 -> element_lexed (w1 ++ t ++ w2) es.
Proof.
  intros H1 Ht IH H2 fuel rest Hf Hr. rewrite !length_app in Hf. rewrite <- !app_assoc, skip_ws_app by done.
  exists (w2 ++ rest). pose proof (value_start t es Ht) as Hs. destruct t as [|b t]; [done|]. destruct Hs as [Hs Hb].
  cbn [app]. rewrite skip_ws_id by done. split_and!.
  - apply (IH fuel (w2 ++ rest)); [cbn [length] in *; lia | by apply stops_number].
  - by rewrite skip_ws_app, stops_skip.
  - cbn. intros [=]. done.
Qed.

Lemma member_is_lexed w1 t k w2 e es : ws w1 -> string_of t k -> ws w2 -> element_lexed e es -> member_lexed (w1 ++ t ++ w2 ++ [58] ++ e) (EKey k :: es).
Proof.
  intros H1 Ht H2 IH fuel rest Hf Hr. destruct (lex_string_spec t k (w2 ++ [58] ++ e ++ rest) Ht) as (t' & E & El).
  assert (Hl : (length e <= fuel)%nat) by (destruct Ht; rewrite !length_app in Hf; cbn [length] in Hf; lia).
  destruct (IH fuel rest Hl Hr) as (s & Ev & Es & _). exists k, es, (skip_ws (e ++ rest)), s. split_and!; [done | | done | done].
  unfold lex_key. rewrite <- !app_assoc, skip_ws_app, E, skip_ws_id by done. cbn [expect]. change (34 =? 34) with true. cbn [mbind option_bind].
  rewrite El. cbn [mbind option_bind]. rewrite skip_ws_app by done. cbn [app]. rewrite skip_ws_id by done. reflexivity.
Qed.

Lemma members_one_lexed t es : member_lexed t es -> members_lexed t es.
Proof.
  intros IH [|fuel] rest Hf; [destruct t; [|cbn in Hf; lia]|].
  - destruct (IH 0%nat (125 :: rest)) as (k & es' & s1 & s2 & _ & _ & E & _); [cbn; lia | by right; right | done].
  - destruct (IH fuel (125 :: rest) Hf) as (k & es' & s1 & s2 & -> & E1 & E2 & E3); [by right; right|].
    cbn [lex_members]. rewrite E1. cbn [mbind option_bind]. rewrite E2. cbn [mbind option_bind]. by rewrite E3.
Qed.

Lemma members_more_lexed t es ts ess : member_lexed t es -> members_lexed ts ess -> members_lexed (t ++ [44] ++ ts) (es ++ ess).
Proof.
  intros IH1 IH2 [|fuel] rest Hf; rewrite !length_app in Hf; cbn [length] in Hf; [lia|]. rewrite <- !app_assoc.
  destruct (IH1 fuel ([44] ++ ts ++ 125 :: rest)) as (k & es' & s1 & s2 & -> & E1 & E2 & E3); [lia | by left|].
  cbn [lex_members]. rewrite E1. cbn [mbind option_bind]. rewrite E2. cbn [mbind option_bind]. rewrite E3.
  cbn [app expect]. change (44 =? 44) with true. cbv iota. by rewrite IH2 by lia.
Qed.

Lemma elements_one_lexed t es : element_lexed t es -> elements_lexed t es.
Proof.
  intros IH [|fuel] rest Hf; [lia|]. destruct (IH fuel (93 :: rest)) as (s & E1 & E2 & E3); [lia | by right; left|]. split; [|done].
  cbn [lex_elements]. rewrite E1. cbn [mbind option_bind]. by rewrite E2.
Qed.

Lemma elements_more_lexed t es ts ess : element_lexed t es -> elements_lexed ts ess -> elements_lexed (t ++ [44] ++ ts) (es ++ ess).
Proof.
  intros IH1 IH2 [|fuel] rest Hf; rewrite !length_app in Hf; cbn [length] in Hf; [lia|]. rewrite <- !app_assoc.
  destruct (IH1 fuel ([44] ++ ts ++ 93 :: rest)) as (s & E1 & E2 & E3); [lia | by left|]. split; [|done].
  cbn [lex_elements]. rewrite E1. cbn [mbind option_bind]. rewrite E2. cbn [app expect]. change (44 =? 44) with true. cbv iota.
  destruct (IH2 fuel rest) as [E _]; [lia|]. by rewrite E.
Qed.

Lemma object_lexed t es : members_lexed t es -> value_lexed ([123] ++ t ++ [125]) ([EStartMap] ++ es ++ [EEndMap]).
Proof.
  intros IH [|fuel] rest Hf Hr; rewrite !length_app in Hf; cbn [length] in Hf; [lia|]. rewrite <- !app_assoc. cbn [app lex_value].
  change (123 =? 123) with true. cbv iota. pose proof (IH fuel rest ltac:(lia)) as E. rewrite (members_key _ _ _ E), bool_decide_eq_false_2 by done.
  rewrite E. cbn [mbind option_bind expect]. by change (125 =? 125) with true.
Qed.

Lemma array_lexed t es : elements_lexed t es -> value_lexed ([91] ++ t ++ [93]) ([EStartArray] ++ es ++ [EEndArray]).
Proof.
  intros IH [|fuel] rest Hf Hr; rewrite !length_app in Hf; cbn [length] in Hf; [lia|]. rewrite <- !app_assoc. cbn [app lex_value].
  change (91 =? 123) with false. change (91 =? 91) with true. cbv iota. destruct (IH fuel rest ltac:(lia)) as [E Hh]. rewrite bool_decide_eq_false_2 by done.
  rewrite E. cbn [mbind option_bind expect]. by change (93 =? 93) with true.
Qed.

Lemma number_lexed t e : number_of t e -> value_lexed t [e].
Proof.
  intros H [|fuel] rest Hf Hr; pose proof (number_of_bytes t e H) as Hb; pose proof (number_of_lit t e H) as Hl.
  all: destruct t as [|b t]; [exfalso; pose proof (json_start [] (json_number _ Hl)); done|]; cbn [length] in Hf; try lia.
  pose proof (number_span_app (b :: t) rest Hb Hr) as E. cbn [app] in *. cbn [lex_value].
  inversion_clear Hb as [|? ? Hnb _]. unfold number_byte, isdigit in Hnb.
  repeat match goal with |- context [b =? ?k] => replace (b =? k) with false by lia end. rewrite E. by rewrite (number_event_spec _ e H).
Qed.

Lemma lexed t es : json_tokens t es -> value_lexed t es.
Proof.
  intros H. induction H using tokens_ind' with (P0 := fun t es _ => members_lexed t es) (P1 := fun t es _ => member_lexed t es)
    (P2 := fun t es _ => elements_lexed t es) (P3 := fun t es _ => element_lexed t es);
    eauto using number_lexed, object_lexed, array_lexed, members_one_lexed, members_more_lexed, member_is_lexed, elements_one_lexed, elements_more_lexed, element_is_lexed.
  - intros [|fuel] rest Hf Hr; [cbn in Hf; lia|]. reflexivity.
  - intros [|fuel] rest Hf Hr; [cbn in Hf; lia|]. reflexivity.
  - intros [|fuel] rest Hf Hr; [cbn in Hf; lia|]. reflexivity.
  - intros [|fuel] rest Hf Hr; [destruct s0; cbn in Hf; lia|]. destruct (lex_string_spec t s rest s0) as (t' & E & El). rewrite E. cbn [lex_value].
    change (34 =? 123) with false. change (34 =? 91) with false. change (34 =? 34) with true. cbv iota. by rewrite El.
  - intros [|fuel] rest Hf Hr; [cbn in Hf; lia|]. rewrite <- !app_assoc. cbn [app lex_value]. change (123 =? 123) with true. cbv iota.
    by rewrite skip_ws_app.
  - intros [|fuel] rest Hf Hr; [cbn in Hf; lia|]. rewrite <- !app_assoc. cbn [app lex_value]. change (91 =? 123) with false. change (91 =? 91) with true. cbv iota.
    by rewrite skip_ws_app.
Qed.

(** The lexer finds the events of every text of the grammar. *)
Lemma json_events_complete t es : json_tokens t es -> json_events t = Some es.
Proof. intros H. unfold json_events. pose proof (lexed t es H (length t) [] ltac:(lia) I) as E. rewrite app_nil_r in E. by rewrite E. Qed.

(** A text has one structure. *)
Lemma tokens_unique t es es' : json_tokens t es -> json_tokens t es' -> es = es'.
Proof. intros H%json_events_complete H'%json_events_complete. congruence. Qed.
