(* ===== verification/JsonRoundTrip.v ===== *)
(** * Extended JSON round trip

    The text that [bson_as_canonical_extended_json] prints, read by the handlers
    of the JSON reader, gives the document back. *)
From stdpp Require Import strings.
From S2P Require Import Prelude Memory Utf8 Strings Format Document Append Lifecycle Build Iter IterSafe RoundTrip Find Values Numbers Oid Dates Calendar Timegm Iso8601 DateText Decimal128 DecimalText Visit Validate Base64 Printf Json JsonText JsonPrint JsonGrammar JsonRead JsonEvents JsonSteps JsonLeaves JsonTypes JsonNested JsonTokens JsonLexer.
#[local] Open Scope Z_scope.

(** What the stack of the reader has room for, the printer does not cut. *)
Lemma height_representable v : forall depth, depth + height v <= BSON_MAX_RECURSION -> height v <= BSON_MAX_RECURSION -> representable BSON_JSON_MODE_CANONICAL depth v = true.
Proof.
  assert (Hg : forall els, 0 <= heights els) by (induction els as [|[k v'] els IH]; cbn [heights]; lia).
  assert (Hels : forall els depth, Forall (fun kv => forall depth, depth + height kv.2 <= BSON_MAX_RECURSION -> height kv.2 <= BSON_MAX_RECURSION -> representable BSON_JSON_MODE_CANONICAL depth kv.2 = true) els ->
    depth + heights els <= BSON_MAX_RECURSION -> heights els <= BSON_MAX_RECURSION -> representable_els BSON_JSON_MODE_CANONICAL depth els = true).
  { intros els depth H. induction H as [|[k v'] els Hv _ IH]; [done|]. cbn [heights]. intros H1 H2. cbn. apply andb_true_iff. split; [apply Hv; cbn; lia | apply IH; lia]. }
  revert v. apply (value_ind' (fun v => forall depth, depth + height v <= BSON_MAX_RECURSION -> height v <= BSON_MAX_RECURSION -> representable BSON_JSON_MODE_CANONICAL depth v = true)).
  - intros els IH depth H1 H2. change (height (VDocument els)) with (1 + heights els) in *. pose proof (Hg els). cbn [representable]. apply andb_true_iff.
    split; [lia | apply Hels; [done | lia..]].
  - intros els IH depth H1 H2. change (height (VArray els)) with (1 + heights els) in *. pose proof (Hg els). cbn [representable]. apply andb_true_iff.
    split; [lia | apply Hels; [done | lia..]].
  - intros js els IH depth H1 H2. change (height (VCodeWScope js els)) with (1 + heights els) in *. cbn [representable]. apply Hels; [done | lia..].
  - intros []; done.
Qed.

Lemma heights_representable els : heights els <= 99 -> representable_els BSON_JSON_MODE_CANONICAL 0 els = true.
Proof.
  induction els as [|[k v] els IH]; [done|]. cbn [heights]. intros H. cbn. apply andb_true_iff.
  split; [apply height_representable; unfold BSON_MAX_RECURSION; lia | apply IH; lia].
Qed.

(** * Properties *)

(** C15: Canonical extended JSON is read back.  The text that
    [bson_as_canonical_extended_json] prints for a document is one JSON value with
    one list of events, and the handlers of the reader turn these events, in a
    document that was just initialised, into the same document byte for byte; they
    report success and the reader can be used again.  The document has UTF-8 keys
    that do not start with a dollar sign, arrays with the keys 0, 1, ..., at most
    99 levels, doubles whose text strtod reads back, and no regular expressions,
    no database pointers and no code in arrays and scopes: these are not read
    back. *)
Theorem json_round_trip strtod els R r b m :
  elems_ok els -> printable_els BSON_JSON_MODE_CANONICAL els -> readable_els strtod false els -> heights els <= 99 ->
  zlen (encode_doc els) <= 2 ^ 30 -> zlen (json_text BSON_JSON_MODE_CANONICAL els) <= room ->
  jr_bson r = b -> length (jr_stack r) = 100%nat -> code_idle (jr_code r) -> jr_stopped r = false ->
  exists text slack es, bson_as_canonical_extended_json (doc_in els R) = Ret (Some (text ++ 0 :: slack), zlen text) /\
    (forall es', json_tokens text es' <-> es' = es) /\
    exists m' r' slack', (bson_init b;; bson_json_reader_read strtod r es) m = Ret (m', (1, r')) /\
      bson_get_data b m' = Ret (m', encode_doc els ++ slack') /\
      length (jr_stack r') = 100%nat /\ code_idle (jr_code r') /\ jr_stopped r' = false /\ jr_error r' = None.
Proof.
  intros Hok Hp Hre Hh Hz Ht Hb Hs Hc Hr.
  destruct (entry_point_spec BSON_JSON_MODE_CANONICAL els R Hok Hp ltac:(unfold INT_MAX; lia) Ht) as [slack E].
  exists (json_text BSON_JSON_MODE_CANONICAL els), slack, (document_events els). split; [done|].
  pose proof (text_decoded els Hok Hp (heights_representable els Hh)) as Hd.
  split; [intros es'; split; [intros H; by eapply tokens_unique | by intros ->]|]. by apply document_events_read.
Qed.

(** Doubles, strings with escapes, arrays, nested documents, a date, an object id
    and code with scope. *)
Definition round_els : list (bytes * value) :=
  [([101], VDouble 0); ([102], VOid (replicate 12 171)); ([103], VDateTime (-5)); ([104], VBinary 128 [1; 2; 3])] ++ nested_els.

Lemma round_els_readable : elems_ok round_els /\ printable_els BSON_JSON_MODE_CANONICAL round_els /\ readable_els no_numbers false round_els.
Proof.
  destruct (nested_els_ok BSON_JSON_MODE_CANONICAL) as [H1 H2].
  assert (Hc : forall nul b, 0 < b < 128 -> scalar_text nul [b]).
  { intros nul b Hb. change [b] with ([b] ++ []). replace [b] with (utf8_encode b) by (unfold utf8_encode; by replace (b <? 0x80) with true by lia).
    constructor; [unfold scalar_value; lia | left; lia | constructor]. }
  assert (Hk : forall b, 0 < b < 128 -> b <> 36 -> key_readable [b]) by (intros b ? ?; split; [by apply Hc | cbn; congruence]).
  unfold round_els. split_and!.
  - cbn [app]. repeat first [done | apply elems_ok_cons | apply value_ok_leaf | split | apply Forall_replicate | apply Forall_nil_2 | apply Forall_cons_2 | unfold is_byte; lia].
  - cbn [app]. repeat first [done | apply printable_cons; [apply Hc; lia| |] | by apply printable_leaf].
  - unfold nested_els. cbn [app readable_els readable leaf_readable].
    split_and!; try done; try (apply Hk; [lia | done]); try (apply Hc; lia); try (vm_compute; reflexivity).
    change [195; 169; 10] with (utf8_encode 233 ++ [10]). constructor; [unfold scalar_value; lia | by right | apply Hc; lia].
Qed.

Lemma json_round_trip_witness :
  exists text slack es, bson_as_canonical_extended_json (doc_in round_els [9]) = Ret (Some (text ++ 0 :: slack), zlen text) /\
    (forall es', json_tokens text es' <-> es' = es) /\
    exists m' r' slack', (bson_init 1;; bson_json_reader_read no_numbers (bson_json_reader_new 1) es) (mk_mem ∅ ∅) = Ret (m', (1, r')) /\
      bson_get_data 1 m' = Ret (m', encode_doc round_els ++ slack') /\
      length (jr_stack r') = 100%nat /\ code_idle (jr_code r') /\ jr_stopped r' = false /\ jr_error r' = None.
Proof.
  destruct round_els_readable as (H1 & H2 & H3).
  apply (json_round_trip no_numbers round_els [9] (bson_json_reader_new 1) 1 (mk_mem ∅ ∅) H1 H2 H3); try reflexivity; try (vm_compute; discriminate).
  repeat split; reflexivity.
Defined.
