(* ===== verification/Service.v ===== *)
(** * Service life cycle (InizializableService, StartableService, SWEService)

    Every component of the framework is a service that is initialised, started,
    stopped and deinitialised by static functions which drive a boost::msm state
    machine and then call the virtual method of the component.  The transition
    tables are those of the source; the boost::msm back end is the class [BoostMsm]. *)
From S2P Require Import Prelude.

(** ** States, events and tables *)

Inductive st := Deinit | Init | Start | Stop | RecoverableError | FatalError.
Inductive ev := ev_init | ev_deinit | ev_start | ev_stop | ev_recoverable_error | ev_fatal_error.

#[export] Instance st_eq_dec : EqDecision st.
Proof. solve_decision. Defined.
#[export] Instance ev_eq_dec : EqDecision ev.
Proof. solve_decision. Defined.

Record row := Row { r_from : st; r_ev : ev; r_to : st }.

Definition id_states_machine : list row := [Row Deinit ev_init Init; Row Init ev_deinit Deinit].

Definition ss_state_machine : list row := [
  Row Deinit ev_init Init; Row Init ev_deinit Deinit; Row Init ev_start Start; Row Start ev_stop Stop;
  Row Stop ev_start Start; Row Stop ev_deinit Deinit].

Definition swe_state_machine : list row := [
  Row Deinit ev_init Init; Row Init ev_deinit Deinit; Row Init ev_start Start; Row Start ev_stop Stop;
  Row Stop ev_start Start; Row Stop ev_deinit Deinit;
  Row Init ev_recoverable_error RecoverableError; Row Start ev_recoverable_error RecoverableError;
  Row Stop ev_recoverable_error RecoverableError; Row Deinit ev_recoverable_error RecoverableError;
  Row RecoverableError ev_init Init; Row RecoverableError ev_start Start;
  Row RecoverableError ev_stop Stop; Row RecoverableError ev_deinit Deinit;
  Row Init ev_fatal_error FatalError; Row Start ev_fatal_error FatalError;
  Row Stop ev_fatal_error FatalError; Row Deinit ev_fatal_error FatalError;
  Row FatalError ev_init Init].

(** [CUStateKey::ControlUnitState] *)
Definition DEINIT : Z := 0.
Definition INIT : Z := 1.
Definition START : Z := 2.
Definition STOP : Z := 3.
Definition RECOVERABLE_ERROR : Z := 4.
Definition FATAL_ERROR : Z := 5.

Definition cu_state (s : st) : Z :=
  match s with
  | Deinit => DEINIT | Init => INIT | Start => START | Stop => STOP
  | RecoverableError => RECOVERABLE_ERROR | FatalError => FATAL_ERROR
  end.

(** ** boost::msm

    [process_event] is [None] when it does not return HANDLED_TRUE;
    [current_state] is the number the back end gives a state.  The back end
    takes the row of the current state and the event, does nothing when there
    is none, and numbers the states in the order in which they appear in the
    first column of the table. *)
Fixpoint position (s : st) (l : list row) (seen : list st) : option Z :=
  match l with
  | [] => None
  | r :: l =>
    if decide (r_from r = s) then Some (zlen seen)
    else position s l (if decide (r_from r ∈ seen) then seen else seen ++ [r_from r])
  end.

Class BoostMsm := {
  process_event : list row -> st -> ev -> option st;
  current_state : list row -> st -> Z;
  msm_row : forall tbl s e t, Row s e t ∈ tbl -> (forall t', Row s e t' ∈ tbl -> t' = t) -> process_event tbl s e = Some t;
  msm_no_row : forall tbl s e, (forall t, Row s e t ∉ tbl) -> process_event tbl s e = None;
  msm_number : forall tbl s n, position s tbl [] = Some n -> current_state tbl s = n;
}.

(** ** Services *)

(** What a virtual method does. *)
Inductive exn := CException (code : Z) | bad_function_call | other_exception.
Inductive virt := VReturns | VThrows (e : exn).

(** Each class has its machine; [serviceState] belongs to the base class. *)
Record service := mk_service {
  id_machine : st;
  ss_machine : st;
  swe_machine : st;
  serviceState : Z;
  last_state : Z;
}.

Definition new_service : service := mk_service Deinit Deinit Deinit DEINIT (-1).

Definition set_id (s : service) (m : st) : service := mk_service m (ss_machine s) (swe_machine s) (serviceState s) (last_state s).
Definition set_ss (s : service) (m : st) : service := mk_service (id_machine s) m (swe_machine s) (serviceState s) (last_state s).
Definition set_swe (s : service) (m : st) : service := mk_service (id_machine s) (ss_machine s) m (serviceState s) (last_state s).
Definition set_state (s : service) (n : Z) : service := mk_service (id_machine s) (ss_machine s) (swe_machine s) n (last_state s).
Definition set_last (s : service) (n : Z) : service := mk_service (id_machine s) (ss_machine s) (swe_machine s) (serviceState s) n.

(** A call returns a boolean or throws. *)
Definition result := (service * (exn + bool))%type.
Definition ret (s : service) (b : bool) : result := (s, inr b).
Definition throw (s : service) (e : exn) : result := (s, inl e).

(** bad_function_call is reported as a CException. *)
Definition outer_catch (code : Z) (e : exn) : exn := match e with bad_function_call => CException code | _ => e end.

(** [process_event] for its effect only. *)
Definition push_event `{M : BoostMsm} (tbl : list row) (m : st) (e : ev) : st := default m (process_event tbl m e).

Module Inizializable.
Section Impl.
Context `{M : BoostMsm}.

(** The handler of a CException pushes [deinit] once more, also for the
    exception thrown when the service cannot be initialised. *)
Definition initImplementation (s : service) (init : virt) : result :=
  match process_event id_states_machine (id_machine s) ev_init with
  | Some q =>
    let s := set_id s q in
    match init with
    | VReturns => ret (set_state s (current_state id_states_machine (id_machine s))) true
    | VThrows (CException c) =>
      let s := set_id s (push_event id_states_machine (id_machine s) ev_deinit) in
      throw (set_id s (push_event id_states_machine (id_machine s) ev_deinit)) (CException c)
    | VThrows e => throw s (outer_catch (-3) e)
    end
  | None => throw (set_id s (push_event id_states_machine (id_machine s) ev_deinit)) (CException (-2))
  end.

Definition deinitImplementation (s : service) (deinit : virt) : result :=
  match process_event id_states_machine (id_machine s) ev_deinit with
  | Some q =>
    let s := set_id s q in
    match deinit with
    | VReturns => ret (set_state s (current_state id_states_machine (id_machine s))) true
    | VThrows e => throw s (outer_catch (-3) e)
    end
  | None => throw s (CException (-2))
  end.
End Impl.
End Inizializable.

Module Startable.
Section Impl.
Context `{M : BoostMsm}.

(** The common shape of the four functions: the machine, the virtual method,
    and the event that undoes the step when it throws a CException. *)
Definition drive (e : ev) (undo : option ev) (s : service) (method : virt) : result :=
  match process_event ss_state_machine (ss_machine s) e with
  | Some q =>
    let s := set_ss s q in
    match method with
    | VReturns => ret (set_state s (current_state ss_state_machine (ss_machine s))) true
    | VThrows (CException c) =>
      throw (match undo with
             | Some u => set_ss s (push_event ss_state_machine (ss_machine s) u)
             | None => s
             end) (CException c)
    | VThrows e => throw s (outer_catch (-1) e)
    end
  | None => throw s (CException 0)
  end.

Definition initImplementation := drive ev_init (Some ev_deinit).
Definition deinitImplementation := drive ev_deinit None.
Definition startImplementation := drive ev_start (Some ev_init).
Definition stopImplementation := drive ev_stop (Some ev_start).
End Impl.
End Startable.

Module SWE.
Section Impl.
Context `{M : BoostMsm}.

Definition drive (e : ev) (s : service) : service * bool :=
  match process_event swe_state_machine (swe_machine s) e with
  | Some q => (set_state (set_swe s q) (current_state swe_state_machine q), true)
  | None => (s, false)
  end.

Definition initImplementation := drive ev_init.
Definition deinitImplementation := drive ev_deinit.
Definition startImplementation := drive ev_start.
Definition stopImplementation := drive ev_stop.

(** The error handlers of the component may throw; all exceptions are caught
    after [result] and the state are set. *)
Definition go_in_error (e : ev) (s : service) : service * bool :=
  let s := if negb (serviceState s =? RECOVERABLE_ERROR) && negb (serviceState s =? FATAL_ERROR)
           then set_last s (current_state swe_state_machine (swe_machine s)) else s in
  drive e s.

Definition goInFatalError := go_in_error ev_fatal_error.
Definition goInRecoverableError := go_in_error ev_recoverable_error.

(** [before] is the answer of [beforeRecoverErrorFromState] ([None]: it
    throws), [after] whether [recoveredToState] returns. *)
Definition recoverError (before : option bool) (after : bool) (s : service) : service * bool :=
  match before with
  | Some true =>
    let '(s, result) :=
      match (if last_state s =? INIT then Some ev_init else if last_state s =? START then Some ev_start
             else if last_state s =? STOP then Some ev_stop else if last_state s =? DEINIT then Some ev_deinit else None) with
      | Some e => match process_event swe_state_machine (swe_machine s) e with
                  | Some q => (set_swe s q, true)
                  | None => (s, false)
                  end
      | None => (s, true)
      end in
    if (result : bool) then
      let s := set_state s (current_state swe_state_machine (swe_machine s)) in
      (if after then set_last s (-1) else s, true)
    else (s, false)
  | _ => (s, false)
  end.
End Impl.
End SWE.

(** * Proofs *)

(** ** The back end on the three tables *)

Definition row_unique (tbl : list row) : Prop :=
  forall s e t t', Row s e t ∈ tbl -> Row s e t' ∈ tbl -> t' = t.

Lemma tables_unique : row_unique id_states_machine /\ row_unique ss_state_machine /\ row_unique swe_state_machine.
Proof. repeat split; intros s e t t'; rewrite !list_elem_of_In; cbn; intuition congruence. Qed.

(** The target of a row, by evaluation. *)
Fixpoint target (tbl : list row) (s : st) (e : ev) : option st :=
  match tbl with
  | [] => None
  | r :: tbl => if decide (r_from r = s /\ r_ev r = e) then Some (r_to r) else target tbl s e
  end.

Lemma target_row tbl s e t : target tbl s e = Some t -> Row s e t ∈ tbl.
Proof.
  induction tbl as [|[a b c] tbl IH]; cbn; [done|]. case_decide as H; [destruct H as [-> ->]; intros [= ->]; by left | right; auto].
Qed.

Lemma target_none tbl s e t : target tbl s e = None -> Row s e t ∉ tbl.
Proof.
  induction tbl as [|[a b c] tbl IH]; cbn; [intros _ ?%not_elem_of_nil; done|]. case_decide as H; [done|].
  intros Hn [[= <- <- <-]|?]%elem_of_cons; [by apply H | by apply IH].
Qed.

(** Number and step of the documented back end, for any of the three tables. *)
Lemma process_target `{M : BoostMsm} tbl s e : row_unique tbl -> process_event tbl s e = target tbl s e.
Proof.
  intros Hu. destruct (target tbl s e) as [t|] eqn:E.
  - apply target_row in E. apply msm_row; [done|]. intros t' Ht'. by eapply Hu.
  - apply msm_no_row. intros t. by apply target_none.
Qed.

Lemma numbers `{M : BoostMsm} s :
  (s = Deinit \/ s = Init -> current_state id_states_machine s = cu_state s) /\
  (s = Deinit \/ s = Init \/ s = Start \/ s = Stop -> current_state ss_state_machine s = cu_state s) /\
  current_state swe_state_machine s = cu_state s.
Proof. destruct s; repeat split; intros; try (apply msm_number; reflexivity); intuition discriminate. Qed.

(** A back end that behaves as documented. *)
Definition msm_model : BoostMsm.
Proof.
  refine {| process_event := target; current_state := fun tbl s => default 0 (position s tbl []) |}.
  - intros tbl s e t Ht Hu. destruct (target tbl s e) as [t'|] eqn:E.
    + apply target_row in E. f_equal. by apply Hu.
    + by apply (target_none _ _ _ t) in E.
  - intros tbl s e H. destruct (target tbl s e) as [t|] eqn:E; [|done]. apply target_row in E. by destruct (H t).
  - intros tbl s n ->. done.
Defined.

(** ** Life cycle of a startable service *)

Inductive call := CInit (v : virt) | CDeinit (v : virt) | CStart (v : virt) | CStop (v : virt).

Definition perform `{M : BoostMsm} (c : call) (s : service) : result :=
  match c with
  | CInit v => Startable.initImplementation s v
  | CDeinit v => Startable.deinitImplementation s v
  | CStart v => Startable.startImplementation s v
  | CStop v => Startable.stopImplementation s v
  end.

Definition event_of (c : call) : ev :=
  match c with CInit _ => ev_init | CDeinit _ => ev_deinit | CStart _ => ev_start | CStop _ => ev_stop end.

(** The virtual method returns, or throws a CException from a step that can be undone. *)
Definition tidy (c : call) : Prop :=
  match c with
  | CInit (VThrows e) | CStop (VThrows e) => exists n, e = CException n
  | CDeinit v | CStart v => v = VReturns
  | _ => True
  end.

Definition ss_consistent (s : service) : Prop :=
  (ss_machine s = Deinit \/ ss_machine s = Init \/ ss_machine s = Start \/ ss_machine s = Stop) /\
  serviceState s = cu_state (ss_machine s).

(** The services a sequence of calls reaches. *)
Inductive reached `{M : BoostMsm} : service -> Prop :=
| reached_new : reached new_service
| reached_call s c : reached s -> tidy c -> reached (perform c s).1.

Lemma ss_process `{M : BoostMsm} s e : process_event ss_state_machine s e = target ss_state_machine s e.
Proof. apply process_target, tables_unique. Qed.

Lemma set_ss_id s m : set_ss (set_ss s m) (ss_machine s) = s.
Proof. by destruct s. Qed.

Lemma undone `{M : BoostMsm} s e u q :
  ss_consistent s -> target ss_state_machine (ss_machine s) e = Some q -> (e = ev_init /\ u = ev_deinit) \/ (e = ev_stop /\ u = ev_start) ->
  set_ss (set_ss s q) (push_event ss_state_machine q u) = s.
Proof.
  intros [Hm _] Hq Hu. unfold push_event. rewrite ss_process.
  assert (E : target ss_state_machine q u = Some (ss_machine s)).
  { destruct Hu as [[-> ->]|[-> ->]], Hm as [Hm|[Hm|[Hm|Hm]]]; rewrite Hm in *; vm_compute in Hq;
      try discriminate Hq; injection Hq as <-; reflexivity. }
  rewrite E. apply set_ss_id.
Qed.

Lemma moved `{M : BoostMsm} s e q :
  ss_consistent s -> target ss_state_machine (ss_machine s) e = Some q ->
  ss_consistent (set_state (set_ss s q) (current_state ss_state_machine q)).
Proof.
  intros [Hm _] Hq. assert (H : q = Deinit \/ q = Init \/ q = Start \/ q = Stop).
  { destruct e, Hm as [Hm|[Hm|[Hm|Hm]]]; rewrite Hm in Hq; vm_compute in Hq; try discriminate Hq; injection Hq as <-; tauto. }
  split; [done|]. by apply numbers.
Qed.

(** The three outcomes of a call. *)
Lemma drive_moves `{M : BoostMsm} e u s q :
  target ss_state_machine (ss_machine s) e = Some q ->
  Startable.drive e u s VReturns = ret (set_state (set_ss s q) (current_state ss_state_machine q)) true.
Proof. intros H. unfold Startable.drive. by rewrite ss_process, H. Qed.

Lemma drive_throws `{M : BoostMsm} e u s q n :
  target ss_state_machine (ss_machine s) e = Some q ->
  Startable.drive e (Some u) s (VThrows (CException n))
    = throw (set_ss (set_ss s q) (default q (target ss_state_machine q u))) (CException n).
Proof. intros H. unfold Startable.drive, push_event. rewrite ss_process, H. cbn [ss_machine set_ss]. by rewrite ss_process. Qed.

Lemma drive_refused `{M : BoostMsm} e u s v :
  target ss_state_machine (ss_machine s) e = None -> Startable.drive e u s v = throw s (CException 0).
Proof. intros H. unfold Startable.drive. by rewrite ss_process, H. Qed.

(** A call of [drive] that can be undone. *)
Lemma drive_transaction `{M : BoostMsm} e u s v :
  ss_consistent s -> (v = VReturns \/ exists n, v = VThrows (CException n) /\
    ((e = ev_init /\ u = Some ev_deinit) \/ (e = ev_stop /\ u = Some ev_start))) ->
  let '(s', r) := Startable.drive e u s v in
  match r with
  | inr b => b = true /\ target ss_state_machine (ss_machine s) e = Some (ss_machine s') /\ ss_consistent s'
  | inl x => s' = s /\ (target ss_state_machine (ss_machine s) e = None \/ v = VThrows x)
  end.
Proof.
  intros Hs Hv. unfold Startable.drive. rewrite ss_process.
  destruct (target ss_state_machine (ss_machine s) e) as [q|] eqn:Eq; [|by split; [|left]].
  destruct Hv as [->|(n & -> & [[-> ->]|[-> ->]])].
  - split; [done|]. split; [done|]. by apply moved with e.
  - split; [|by right]. eapply undone; [done | exact Eq | by left].
  - split; [|by right]. eapply undone; [done | exact Eq | by right].
Qed.

Lemma perform_transaction `{M : BoostMsm} s c :
  ss_consistent s -> tidy c ->
  let '(s', r) := perform c s in
  match r with
  | inr b => b = true /\ target ss_state_machine (ss_machine s) (event_of c) = Some (ss_machine s') /\ ss_consistent s'
  | inl x => s' = s
  end.
Proof.
  intros Hs Hc.
  assert (H : forall e u v, v = VReturns \/ (exists n, v = VThrows (CException n) /\
    ((e = ev_init /\ u = Some ev_deinit) \/ (e = ev_stop /\ u = Some ev_start))) ->
    let '(s', r) := Startable.drive e u s v in
    match r with inr b => b = true /\ target ss_state_machine (ss_machine s) e = Some (ss_machine s') /\ ss_consistent s' | inl x => s' = s end).
  { intros e u v Hv. pose proof (drive_transaction e u s v Hs Hv) as D. destruct (Startable.drive e u s v) as [s' [x|b]]; tauto. }
  destruct c as [[|e]|v|v|[|e]]; cbn in Hc; cbn [perform event_of]; apply H; subst; eauto;
    destruct Hc as [n ->]; right; exists n; tauto.
Qed.

Lemma reached_consistent `{M : BoostMsm} s : reached s -> ss_consistent s.
Proof.
  induction 1 as [|s c _ IH Hc]; [split; [by left | done]|]. pose proof (perform_transaction s c IH Hc) as T.
  destruct (perform c s) as [s' [x|b]]; cbn [fst]; [by subst | tauto].
Qed.

(** ** Errors of an SWE service *)

Lemma swe_process `{M : BoostMsm} s e : process_event swe_state_machine s e = target swe_state_machine s e.
Proof. apply process_target, tables_unique. Qed.

Lemma swe_number `{M : BoostMsm} s : current_state swe_state_machine s = cu_state s.
Proof. apply numbers. Qed.

Definition swe_consistent (s : service) : Prop := serviceState s = cu_state (swe_machine s).

Lemma swe_drive `{M : BoostMsm} e s :
  SWE.drive e s = match target swe_state_machine (swe_machine s) e with
                  | Some q => (set_state (set_swe s q) (cu_state q), true)
                  | None => (s, false)
                  end.
Proof. unfold SWE.drive. rewrite swe_process. destruct (target _ _ _); [by rewrite swe_number | done]. Qed.

(** The four regular states and the event that leads to each. *)
Definition regular (m : st) : Prop := m <> RecoverableError /\ m <> FatalError.
Definition event_to (m : st) : ev :=
  match m with Init => ev_init | Start => ev_start | Stop => ev_stop | _ => ev_deinit end.

Lemma swe_error `{M : BoostMsm} e s q :
  swe_consistent s -> regular (swe_machine s) -> target swe_state_machine (swe_machine s) e = Some q ->
  SWE.go_in_error e s = (set_state (set_swe (set_last s (cu_state (swe_machine s))) q) (cu_state q), true).
Proof.
  intros Hs [H1 H2] Hq. unfold SWE.go_in_error. rewrite Hs, swe_number.
  replace (negb (cu_state (swe_machine s) =? RECOVERABLE_ERROR) && negb (cu_state (swe_machine s) =? FATAL_ERROR)) with true
    by (by destruct (swe_machine s)).
  rewrite swe_drive. cbn [set_last swe_machine]. by rewrite Hq.
Qed.

Lemma swe_recover `{M : BoostMsm} m s :
  regular m -> last_state s = cu_state m ->
  SWE.recoverError (Some true) true s =
    match target swe_state_machine (swe_machine s) (event_to m) with
    | Some q => (set_last (set_state (set_swe s q) (cu_state q)) (-1), true)
    | None => (s, false)
    end.
Proof.
  intros [H1 H2] Hl. unfold SWE.recoverError. rewrite Hl.
  destruct m; try done; cbn -[target process_event current_state]; rewrite swe_process;
    (destruct (target _ _ _); [by rewrite swe_number | done]).
Qed.

(** * Properties *)

(** The virtual method of a call. *)
Definition method_of (c : call) : virt := match c with CInit v | CDeinit v | CStart v | CStop v => v end.

(** The step of the machine is undone when [init] or [stop] throws a CException. *)
Definition undoes (c : call) (e : exn) : bool :=
  match c, e with (CInit _ | CStop _), CException _ => true | _, _ => false end.

(** C9: A life-cycle call of a startable service, in any state reached by calls
    that return or, being an [init] or a [stop], throw a CException: there
    [serviceState] is the state of the machine.  A call without a row in the
    transition table throws and changes nothing.  One with a row moves both along
    it when its virtual method returns; when the method throws, the service is
    exactly as before for a CException out of [init] or [stop], and in all other
    cases the machine has moved and [serviceState] has not. *)
Theorem lifecycle_transaction `{M : BoostMsm} s c :
  reached s ->
  serviceState s = cu_state (ss_machine s) /\
  match target ss_state_machine (ss_machine s) (event_of c), method_of c with
  | None, _ => perform c s = throw s (CException 0)
  | Some q, VReturns => perform c s = ret (set_state (set_ss s q) (cu_state q)) true
  | Some q, VThrows e => perform c s = throw (if undoes c e then s else set_ss s q) (outer_catch (-1) e)
  end.
Proof.
  intros Hs%reached_consistent. split; [apply Hs|]. destruct (target _ _ _) as [q|] eqn:Eq.
  - assert (current_state ss_state_machine q = cu_state q) as Eq' by apply (moved s (event_of c) q Hs Eq).
    destruct c as [v|v|v|v], v as [|[n| |]]; cbn [method_of perform event_of undoes] in *;
      unfold Startable.initImplementation, Startable.deinitImplementation, Startable.startImplementation, Startable.stopImplementation, Startable.drive;
      rewrite ss_process, Eq; cbn [ss_machine set_ss]; rewrite ?Eq'; try done; unfold throw; f_equal.
    + eapply undone; eauto.
    + unfold push_event. rewrite ss_process. by destruct Hs as [[E | [E | [E | E]]] _]; rewrite E in Eq; vm_compute in Eq; simplify_eq.
    + eapply undone; eauto.
  - destruct c; by apply drive_refused.
Qed.

Lemma lifecycle_transaction_witness :
  let s := (@perform msm_model (CInit VReturns) new_service).1 in
  serviceState s = INIT /\
  @perform msm_model (CStart VReturns) s = ret (set_state (set_ss s Start) START) true /\
  @perform msm_model (CInit VReturns) s = throw s (CException 0) /\
  @perform msm_model (CDeinit (VThrows (CException 7))) s = throw (set_ss s Deinit) (CException 7).
Proof.
  assert (@reached msm_model (@perform msm_model (CInit VReturns) new_service).1) as Hr
    by (apply (@reached_call msm_model); [apply reached_new | done]).
  split; [exact (proj1 (@lifecycle_transaction msm_model _ (CStart VReturns) Hr))|].
  split; [exact (proj2 (@lifecycle_transaction msm_model _ (CStart VReturns) Hr))|].
  split; [exact (proj2 (@lifecycle_transaction msm_model _ (CInit VReturns) Hr))|].
  exact (proj2 (@lifecycle_transaction msm_model _ (CDeinit (VThrows (CException 7))) Hr)).
Defined.

(** A failed [deinit] is not undone either.  The machine stays in Deinit while
    [serviceState] says INIT, and the service cannot be deinitialised any more. *)
Theorem failed_deinit_sticks `{M : BoostMsm} n :
  let s0 := (perform (CInit VReturns) new_service).1 in
  let s := (perform (CDeinit (VThrows (CException n))) s0).1 in
  ss_machine s = Deinit /\ serviceState s = INIT /\ perform (CDeinit VReturns) s = throw s (CException 0).
Proof.
  cbn [perform]. unfold Startable.initImplementation, Startable.deinitImplementation.
  rewrite (drive_moves _ _ new_service Init) by reflexivity. cbn [fst ret].
  assert (forall t, ss_machine t = Init -> Startable.drive ev_deinit None t (VThrows (CException n)) = throw (set_ss t Deinit) (CException n)) as H
    by (intros t Ht; unfold Startable.drive; by rewrite ss_process, Ht).
  rewrite H by reflexivity. cbn [fst throw]. split; [reflexivity|]. split; [by apply msm_number|]. by apply drive_refused.
Qed.

(** A failed start is not undone.  When [start] throws a CException,
    [startImplementation] pushes the event [init] to go back, but the table has
    no row for it: the machine stays in Start while [serviceState] says INIT, and
    the service can then neither be started nor be deinitialised. *)
Theorem failed_start_sticks `{M : BoostMsm} n :
  let s0 := (perform (CInit VReturns) new_service).1 in
  let s := (perform (CStart (VThrows (CException n))) s0).1 in
  ss_machine s = Start /\ serviceState s = INIT /\
  perform (CStart VReturns) s = throw s (CException 0) /\ perform (CDeinit VReturns) s = throw s (CException 0).
Proof.
  cbn [perform]. unfold Startable.initImplementation, Startable.startImplementation, Startable.deinitImplementation.
  rewrite (drive_moves _ _ new_service Init) by reflexivity. cbn [fst ret].
  rewrite (drive_throws _ _ _ Start) by reflexivity. cbn [fst throw].
  split; [reflexivity|]. split; [by apply msm_number|]. split; by apply drive_refused.
Qed.

Lemma failed_start_sticks_witness :
  let s0 := (@perform msm_model (CInit VReturns) new_service).1 in
  let s := (@perform msm_model (CStart (VThrows (CException 7))) s0).1 in
  ss_machine s = Start /\ serviceState s = INIT /\
  @perform msm_model (CStart VReturns) s = throw s (CException 0) /\ @perform msm_model (CDeinit VReturns) s = throw s (CException 0).
Proof. exact (@failed_start_sticks msm_model 7). Defined.

(** A second initialisation breaks an initialised service.
    [InizializableService::initImplementation] pushes [deinit] when it throws
    because the service is already initialised: the machine goes back to Deinit
    while [serviceState] stays INIT, and the service cannot be deinitialised. *)
Theorem double_init_breaks `{M : BoostMsm} :
  let s0 := (Inizializable.initImplementation new_service VReturns).1 in
  let '(s, r) := Inizializable.initImplementation s0 VReturns in
  r = inl (CException (-2)) /\ id_machine s = Deinit /\ serviceState s = INIT /\
  Inizializable.deinitImplementation s VReturns = throw s (CException (-2)).
Proof.
  assert (P : forall m e, process_event id_states_machine m e = target id_states_machine m e) by (intros; apply process_target, tables_unique).
  unfold Inizializable.initImplementation at 2. rewrite P.
  change (target id_states_machine (id_machine new_service) ev_init) with (Some Init). cbn [fst ret].
  unfold Inizializable.initImplementation, push_event. cbn [set_state set_id id_machine]. rewrite !P.
  change (target id_states_machine Init ev_init) with (@None st). cbn iota beta. cbn [set_state set_id id_machine].
  change (target id_states_machine Init ev_deinit) with (Some Deinit). unfold throw. cbn [default].
  split; [done|]. split; [done|]. split; [by apply msm_number|]. unfold Inizializable.deinitImplementation. cbn [set_id id_machine].
  by rewrite P.
Qed.

(** Recovery goes back to where the error came from.  A consistent service
    in any of the four regular states that goes into the recoverable error state
    and is then recovered (its handlers agreeing) is in the state it came from,
    machine and [serviceState] alike; out of a fatal error only a service that was
    in Init comes back, any other stays in the error state. *)
Theorem swe_recovery `{M : BoostMsm} s :
  swe_consistent s -> swe_machine s <> RecoverableError -> swe_machine s <> FatalError ->
  (let '(s1, r1) := SWE.goInRecoverableError s in
   r1 = true /\ serviceState s1 = RECOVERABLE_ERROR /\
   SWE.recoverError (Some true) true s1 = (set_last s (-1), true)) /\
  (let '(s1, r1) := SWE.goInFatalError s in
   r1 = true /\ serviceState s1 = FATAL_ERROR /\
   SWE.recoverError (Some true) true s1 =
     if decide (swe_machine s = Init) then (set_last s (-1), true) else (s1, false)).
Proof.
  intros Hs H1 H2. assert (Hr : regular (swe_machine s)) by done. unfold SWE.goInRecoverableError, SWE.goInFatalError.
  rewrite (swe_error _ _ RecoverableError Hs Hr), (swe_error _ _ FatalError Hs Hr) by (by destruct (swe_machine s)).
  split; (split; [done|]; split; [done|]); rewrite (swe_recover (swe_machine s)) by done;
    unfold swe_consistent in Hs; destruct s as [im sm wm n l]; cbn [swe_machine serviceState] in *; subst n; by destruct wm.
Qed.

Lemma swe_recovery_witness :
  (let '(s1, r1) := @SWE.goInRecoverableError msm_model new_service in
   r1 = true /\ serviceState s1 = RECOVERABLE_ERROR /\
   @SWE.recoverError msm_model (Some true) true s1 = (set_last new_service (-1), true)) /\
  (let '(s1, r1) := @SWE.goInFatalError msm_model new_service in
   r1 = true /\ serviceState s1 = FATAL_ERROR /\
   @SWE.recoverError msm_model (Some true) true s1 =
     if decide (swe_machine new_service = Init) then (set_last new_service (-1), true) else (s1, false)).
Proof. apply (@swe_recovery msm_model new_service); [reflexivity | discriminate | discriminate]. Defined.
