(* ===== verification/Semaphore.v ===== *)
(** * The semaphore of the threads (thread/WaitSemaphore)

    One thread waits, others unlock.  [wait] tests [answered] without the mutex
    and then sleeps on the condition variable under it, so between the two there
    is a point where an [unlock] finds nobody asleep.  The threads of Sandbox.v
    wait by the steps of [wait_loop]. *)
From S2P Require Import Prelude.

(** Inside the loop of [wait]: at the test of [answered], before the lock and the
    sleep, and asleep. *)
Inductive wait_phase := WTest | WLock | WSleep.

#[export] Instance wait_phase_eq_dec : EqDecision wait_phase.
Proof. solve_decision. Defined.

(** A step of the loop: [Some None] is its end, [None] is a thread that sleeps.  A
    signal between the test that ends the loop and the reset of [answered] is the
    same as one before the test. *)
Definition wait_loop (answered : bool) (p : wait_phase) : option (option wait_phase) :=
  match p with
  | WTest => Some (if answered then None else Some WLock)
  | WLock => Some (Some WSleep)
  | WSleep => None
  end.

(** The condition variable is signalled: a thread asleep goes back to the test. *)
Definition signalled (p : wait_phase) : wait_phase := match p with WSleep => WTest | p => p end.

(** Where the waiting thread is: before [wait], inside its loop, and after [wait];
    in [waitRaw] before the sleep and asleep. *)
Inductive wait_pc := WBefore | WIn (p : wait_phase) | WDone | WRawLock | WRawSleep.

Record WaitSemaphore := mk_sem { inWait : bool; answered : bool; waiter : wait_pc }.

Definition new_semaphore : WaitSemaphore := mk_sem false false WBefore.

(** A step of [wait]; a sleeping thread makes none. *)
Definition wait_step (s : WaitSemaphore) : option WaitSemaphore :=
  match waiter s with
  | WBefore => Some (if inWait s then mk_sem (inWait s) (answered s) WDone else mk_sem true (answered s) (WIn WTest))
  | WIn p =>
      match wait_loop (answered s) p with
      | Some None => Some (mk_sem false false WDone)
      | Some (Some p') => Some (mk_sem (inWait s) (answered s) (WIn p'))
      | None => None
      end
  | WDone | WRawLock | WRawSleep => None
  end.

(** A step of [waitRaw], which looks at no flag. *)
Definition waitRaw_step (s : WaitSemaphore) : option WaitSemaphore :=
  match waiter s with
  | WBefore => Some (mk_sem (inWait s) (answered s) WRawLock)
  | WRawLock => Some (mk_sem (inWait s) (answered s) WRawSleep)
  | _ => None
  end.

(** A signal ends a [waitRaw] that sleeps. *)
Definition notified (w : wait_pc) : wait_pc := match w with WIn p => WIn (signalled p) | WRawSleep => WDone | w => w end.

Definition unlock (s : WaitSemaphore) : WaitSemaphore := mk_sem (inWait s) true (notified (waiter s)).

(** [notifyAll] does not take the mutex; a thread that holds it before its sleep is
    at the same point as one that waits for it, and misses the signal too. *)
Definition notifyAll (s : WaitSemaphore) : WaitSemaphore := mk_sem (inWait s) true (notified (waiter s)).
Definition isInWait (s : WaitSemaphore) : bool := inWait s.

(** [wait(ms)] and [waitUSec] hold the mutex from the start; they return at the
    latest when the time is over, and forget the signal. *)
Definition wait_timed (s : WaitSemaphore) : WaitSemaphore :=
  if inWait s then s else mk_sem false false (waiter s).

Inductive sem_op := OWait | OUnlock | ONotifyAll.
Definition sem_step (o : sem_op) (s : WaitSemaphore) : option WaitSemaphore :=
  match o with OWait => wait_step s | OUnlock => Some (unlock s) | ONotifyAll => Some (notifyAll s) end.
Fixpoint sem_run (os : list sem_op) (s : WaitSemaphore) : option WaitSemaphore :=
  match os with [] => Some s | o :: os' => s' ← sem_step o s; sem_run os' s' end.

(** No signal comes between the test and the sleep. *)
Fixpoint race_free (os : list sem_op) (s : WaitSemaphore) : Prop :=
  match os with
  | [] => True
  | o :: os' =>
      match waiter s, o with WIn WLock, OWait => True | WIn WLock, _ => False | _, _ => True end /\
      match sem_step o s with Some s' => race_free os' s' | None => True end
  end.

(** A signal that was given is not slept on. *)
Definition attentive (s : WaitSemaphore) : Prop :=
  (waiter s = WIn WSleep \/ waiter s = WIn WLock -> answered s = false) /\
  (waiter s = WBefore -> inWait s = false) /\ waiter s <> WRawLock /\ waiter s <> WRawSleep /\ (forall p, waiter s = WIn p -> inWait s = true).

Lemma attentive_step o s s' :
  attentive s -> match waiter s, o with WIn WLock, OWait => True | WIn WLock, _ => False | _, _ => True end -> sem_step o s = Some s' -> attentive s'.
Proof.
  unfold attentive. intros Ha Hr Hs. destruct s as [i a w]; cbn in *.
  destruct o, w as [|[]| | |]; cbn in Hs; repeat case_match; simplify_eq; cbn in *; naive_solver.
Qed.

Lemma attentive_run os s s' : attentive s -> race_free os s -> sem_run os s = Some s' -> attentive s'.
Proof.
  revert s. induction os as [|o os IH]; intros s Ha Hr Hs; cbn in *; [by simplify_eq|].
  destruct Hr as [Hr Hrest]. destruct (sem_step o s) as [s1|] eqn:E; [|done]. cbn in Hs.
  eapply IH; [|done..]. by eapply attentive_step.
Qed.

(** [wait] can sleep on a signal that was given: an [unlock] between the test
    of [answered] and the sleep leaves the thread asleep with [answered] set and
    no step of its own; without such an [unlock], a wait that was signalled
    returns, in at most two steps of the thread. *)
Theorem wait_lost_wakeup :
  (exists s, sem_run [OWait; OWait; OUnlock; OWait] new_semaphore = Some s /\ answered s = true /\ waiter s = WIn WSleep /\ wait_step s = None) /\
  (forall os s, race_free os new_semaphore -> sem_run os new_semaphore = Some s -> answered s = true -> waiter s <> WDone ->
     exists n s', (n <= 2)%nat /\ sem_run (repeat OWait n) s = Some s' /\ waiter s' = WDone /\ answered s' = false).
Proof.
  split; [by eexists|]. intros os s Hr Hs Ha Hw.
  assert (attentive new_semaphore) as H0 by (unfold attentive; cbn; intuition discriminate).
  destruct (attentive_run os new_semaphore s H0 Hr Hs) as (H1 & H2 & H3 & H4 & H5).
  destruct s as [i a w]; cbn in *. subst a. destruct w as [|[]| | |]; try done; try (by discriminate H1; auto).
  - exists 2%nat. cbn. rewrite H2 by done. cbn. eauto 6.
  - exists 1%nat. cbn. eauto 6.
Qed.

(** [waitRaw] does not know of signals: it sleeps on one that was given before, and
    the next signal ends it with [answered] left set, so that the [wait] that
    follows returns at once. *)
Theorem raw_wait_ignores_signal (i : bool) :
  exists s, waitRaw_step (unlock (mk_sem i false WBefore)) = Some s /\ exists s', waitRaw_step s = Some s' /\ waitRaw_step s' = None /\ wait_step s' = None /\
    unlock s' = mk_sem i true WDone /\ notifyAll s' = unlock s'.
Proof. repeat (eexists; split; [reflexivity|]). done. Qed.

