(* ===== verification/Command.v ===== *)
(** * Batch commands (batch_command/BatchCommand, BatchCommandTypes.h, AbstractSandbox.cpp)

    A command as the sandbox sees it: its running property, submission rule,
    features and fault, and what the code of its handlers can do to them.  The
    handlers themselves belong to the user of the framework; what one run of a
    handler does is a value ([handler_run], [timeout_run]). *)
From S2P Require Import Prelude.

(** ** Commands *)

Definition SUBMIT_AND_STACK : Z := 0.
Definition SUBMIT_AND_KILL : Z := 1.
Definition SUBMIT_NORMAL : Z := 2.

Definition RP_EXSC : Z := 0.
Definition RP_NORMAL : Z := 1.
Definition RP_END : Z := 2.
Definition RP_FAULT : Z := 3.
Definition RP_FATAL_FAULT : Z := 4.

Definition HT_Set : Z := 1.
Definition HT_Acquisition : Z := 2.
Definition HT_Correlation : Z := 4.

Definition FF_SET_SCHEDULER_DELAY : Z := 1.
Definition FF_SET_SUBMISSION_RETRY : Z := 2.
Definition FF_SET_COMMAND_TIMEOUT : Z := 4.

Definition has_bit (flags f : Z) : bool := negb (Z.land flags f =? 0).

Record Features := mk_features {
  featuresFlag : Z;
  featureSchedulerStepsDelay : Z;
  featureSubmissionRetryDelay : Z;
  featureCommandTimeout : Z;
}.

(** [lock0] to [lock2] are [lockFeaturePropertyFlag]; [handlers] is what the
    virtual [implementedHandler] returns. *)
Record BatchCommand := mk_command {
  sticky : bool;
  already_setupped : bool;
  command_set_time_usec : Z;
  command_step_counter : Z;
  lock0 : bool; lock1 : bool; lock2 : bool;
  commandFeatures : Features;
  runningProperty : Z;
  submissionRule : Z;
  fault_code : Z;
  handlers : Z;
}.

Definition with_property (c : BatchCommand) (p : Z) : BatchCommand :=
  mk_command (sticky c) (already_setupped c) (command_set_time_usec c) (command_step_counter c) (lock0 c) (lock1 c) (lock2 c)
    (commandFeatures c) p (submissionRule c) (fault_code c) (handlers c).
Definition with_features (c : BatchCommand) (f : Features) : BatchCommand :=
  mk_command (sticky c) (already_setupped c) (command_set_time_usec c) (command_step_counter c) (lock0 c) (lock1 c) (lock2 c)
    f (runningProperty c) (submissionRule c) (fault_code c) (handlers c).
Definition with_fault (c : BatchCommand) (code : Z) : BatchCommand :=
  mk_command (sticky c) (already_setupped c) (command_set_time_usec c) (command_step_counter c) (lock0 c) (lock1 c) (lock2 c)
    (commandFeatures c) (runningProperty c) (submissionRule c) code (handlers c).
Definition with_setup (c : BatchCommand) (b : bool) : BatchCommand :=
  mk_command (sticky c) b (command_set_time_usec c) (command_step_counter c) (lock0 c) (lock1 c) (lock2 c)
    (commandFeatures c) (runningProperty c) (submissionRule c) (fault_code c) (handlers c).
Definition with_set_time (c : BatchCommand) (t : Z) : BatchCommand :=
  mk_command (sticky c) (already_setupped c) t (command_step_counter c) (lock0 c) (lock1 c) (lock2 c)
    (commandFeatures c) (runningProperty c) (submissionRule c) (fault_code c) (handlers c).
Definition with_counter (c : BatchCommand) (n : Z) : BatchCommand :=
  mk_command (sticky c) (already_setupped c) (command_set_time_usec c) n (lock0 c) (lock1 c) (lock2 c)
    (commandFeatures c) (runningProperty c) (submissionRule c) (fault_code c) (handlers c).
Definition with_lock0 (c : BatchCommand) (b : bool) : BatchCommand :=
  mk_command (sticky c) (already_setupped c) (command_set_time_usec c) (command_step_counter c) b (lock1 c) (lock2 c)
    (commandFeatures c) (runningProperty c) (submissionRule c) (fault_code c) (handlers c).
Definition with_sticky (c : BatchCommand) (b : bool) : BatchCommand :=
  mk_command b (already_setupped c) (command_set_time_usec c) (command_step_counter c) (lock0 c) (lock1 c) (lock2 c)
    (commandFeatures c) (runningProperty c) (submissionRule c) (fault_code c) (handlers c).

Definition setRunningProperty (c : BatchCommand) (property : Z) : BatchCommand :=
  if lock1 c then c else with_property c (u8 property).

(** [setFeatures]: the 32-bit version has the retry delay, the 64-bit version
    does not. *)
Definition setFeatures (wide : bool) (c : BatchCommand) (f v : Z) : BatchCommand :=
  if lock0 c || lock2 c then c
  else
    let ft := commandFeatures c in
    let flag := Z.lor (featuresFlag ft) f in
    if f =? FF_SET_SCHEDULER_DELAY then
      with_features c (mk_features flag v (featureSubmissionRetryDelay ft) (featureCommandTimeout ft))
    else if f =? FF_SET_COMMAND_TIMEOUT then
      with_features c (mk_features flag (featureSchedulerStepsDelay ft) (featureSubmissionRetryDelay ft) v)
    else if (f =? FF_SET_SUBMISSION_RETRY) && negb wide then
      with_features c (mk_features flag (featureSchedulerStepsDelay ft) v (featureCommandTimeout ft))
    else c.

Definition clearFeatures (c : BatchCommand) (f : Z) : BatchCommand :=
  if lock0 c || lock2 c then c
  else
    let ft := commandFeatures c in
    let flag := Z.ldiff (featuresFlag ft) f in
    with_features c
      (if f =? FF_SET_SCHEDULER_DELAY then mk_features flag 0 (featureSubmissionRetryDelay ft) (featureCommandTimeout ft)
       else if f =? FF_SET_SUBMISSION_RETRY then mk_features flag (featureSchedulerStepsDelay ft) 0 (featureCommandTimeout ft)
       else if f =? FF_SET_COMMAND_TIMEOUT then mk_features flag (featureSchedulerStepsDelay ft) (featureSubmissionRetryDelay ft) 0
       else mk_features flag (featureSchedulerStepsDelay ft) (featureSubmissionRetryDelay ft) (featureCommandTimeout ft)).

(** ** Handlers

    The code of a command can reach the base class through these calls, and can
    throw. *)
Inductive act :=
| ASetRunningProperty (p : Z)
| ASetFeatures (wide : bool) (f v : Z)
| AClearFeatures (f : Z).

Definition do_act (c : BatchCommand) (a : act) : BatchCommand :=
  match a with
  | ASetRunningProperty p => setRunningProperty c p
  | ASetFeatures wide f v => setFeatures wide c f v
  | AClearFeatures f => clearFeatures c f
  end.

Inductive thrown := TFatal (code : Z) | TChaos (code : Z) | TStd | TOther.
Record handler_run := mk_run { acts : list act; raised : option thrown }.

(** [SET_NAMED_FAULT] *)
Definition SET_FAULT (c : BatchCommand) (code property : Z) : BatchCommand := with_fault (setRunningProperty c property) code.

(** The catch clauses of the functors and of [installHandler]. *)
Definition catch_handler (c : BatchCommand) (e : option thrown) : BatchCommand :=
  match e with
  | None => c
  | Some (TFatal code) => SET_FAULT c code RP_FATAL_FAULT
  | Some (TChaos code) => SET_FAULT c code RP_FAULT
  | Some TStd => SET_FAULT c (-1) RP_FATAL_FAULT
  | Some TOther => SET_FAULT c (-2) RP_FATAL_FAULT
  end.

(** [AcquireFunctor] and [CorrelationFunctor] on their command. *)
Definition run_functor (c : BatchCommand) (h : handler_run) : BatchCommand :=
  if runningProperty c <? RP_END then catch_handler (fold_left do_act (acts h) c) (raised h) else c.

(** [timeoutHandler]: its calls, and its answer or exception. *)
Record timeout_run := mk_timeout { t_acts : list act; t_answer : thrown + bool }.

(** [last_start] is [shared_stat->last_cmd_step_start_usec]; the comparison is
    unsigned. *)
Definition commandPost (c : BatchCommand) (last_start : Z) (h : timeout_run) : BatchCommand :=
  if has_bit (featuresFlag (commandFeatures c)) FF_SET_COMMAND_TIMEOUT then
    let time_offset := s64 (last_start - command_set_time_usec c) in
    if u64 time_offset >=? featureCommandTimeout (commandFeatures c) then
      let c := fold_left do_act (t_acts h) c in
      match t_answer h with
      | inr true => SET_FAULT c (-1) RP_FAULT
      | inr false => c
      | inl (TFatal code) | inl (TChaos code) => SET_FAULT c code RP_FAULT
      | inl TStd => SET_FAULT c (-2) RP_FAULT
      | inl TOther => SET_FAULT c (-3) RP_FAULT
      end
    else c
  else c.
