(* ===== verification/Sandbox.v ===== *)
(** * The command sandbox (batch_command/BatchCommandSandbox, AbstractSandbox, BatchCommand)

    The sandbox runs the commands of a control unit.  Two threads share it: the
    scheduler ([runCommand]) runs the steps of the current command, the checker
    ([checkNextCommand]) installs, stacks, resumes and removes commands; the
    owner enqueues commands and posts operations.  A step of the model is what a
    thread does while it holds the mutex of the current command or of the queue;
    the places where a thread is between such regions are its program counter.
    What the handlers of the commands do is part of the label of a step. *)
From S2P Require Import Prelude Semaphore Command.

(** ** The sandbox *)

Record element := mk_element { priority : Z; sequence_id : Z }.

Inductive RunningCommandFunctionOpcode := RCFOTerminate.
Inductive WaitingCommandFunctionOpcode := WCFOClearQueue.

Inductive command_event :=
| EVT_QUEUED | EVT_WAITING | EVT_RUNNING | EVT_PAUSED | EVT_COMPLETED | EVT_FAULT | EVT_KILLED | EVT_FATAL_FAULT | EVT_DEQUEUE.

#[export] Instance command_event_eq_dec : EqDecision command_event.
Proof. solve_decision. Defined.

(** A call of [handleCommandEvent]: the command, the event, the statistics, and
    the fault code of [command_and_fault]. *)
Record event := mk_event { e_id : Z; e_type : command_event; e_queued : Z; e_stacked : Z; e_fault : option Z }.

(** Where the checker is: before its first wait returns, at the head of the
    loop, after looking at a queue that was not empty or was empty, after seeing
    that the current command has ended, before it looks at the default command,
    in [wait] and in the timed wait, and after the loop. *)
Inductive checker_pc := CIdle | CTop | CHave | CEmpty | CEnded | CSticky | CWait | CTimed | CDone.

(** Where the scheduler is: before the step, after it with the pointer to the
    command that was run, in the timed wait, in [wait], and after the loop. *)
Inductive runner_pc := RTop | RAfter (id : Z) | RSleep | RPause | RDone.

(** Commands are named by their unique id, which stands for the pointer too;
    [cmds] holds those that are allocated.  The top of the stack is first, the
    newest event is first.  Of the semaphore on which the checker waits,
    [next_check] is the flag [answered] and [next_check_wait] is where the checker
    is inside [wait]; of the one on which the scheduler waits, [pause] and
    [pause_wait]. *)
Record sandbox := mk_sandbox {
  cmds : gmap Z BatchCommand;
  command_sequence_id : Z;
  default_sticky_command : option Z;
  current_executing_command : option Z;
  command_stack : list Z;
  command_submitted_queue : list element;
  stack_run_cmd_op : list RunningCommandFunctionOpcode;
  stack_wait_cmd_op : list WaitingCommandFunctionOpcode;
  acquire_functor : option Z;
  correlation_functor : option Z;
  end_functor : option Z;
  step_start : Z;
  step_duration : Z;
  queued_commands : Z;
  stacked_commands : Z;
  schedule_work_flag : bool;
  next_check : bool;
  next_check_wait : wait_phase;
  pause : bool;
  pause_wait : wait_phase;
  checker : checker_pc;
  runner : runner_pc;
  next_predicted_run : Z;
  next_prediction_error : Z;
  events : list event;
}.

Definition set_cmds (x : gmap Z BatchCommand) (s : sandbox) : sandbox :=
  mk_sandbox x (command_sequence_id s) (default_sticky_command s) (current_executing_command s) (command_stack s)
    (command_submitted_queue s) (stack_run_cmd_op s) (stack_wait_cmd_op s) (acquire_functor s)
    (correlation_functor s) (end_functor s) (step_start s) (step_duration s) (queued_commands s)
    (stacked_commands s) (schedule_work_flag s) (next_check s) (next_check_wait s) (pause s) (pause_wait s)
    (checker s) (runner s) (next_predicted_run s) (next_prediction_error s) (events s).
Definition set_command_sequence_id (x : Z) (s : sandbox) : sandbox :=
  mk_sandbox (cmds s) x (default_sticky_command s) (current_executing_command s) (command_stack s)
    (command_submitted_queue s) (stack_run_cmd_op s) (stack_wait_cmd_op s) (acquire_functor s)
    (correlation_functor s) (end_functor s) (step_start s) (step_duration s) (queued_commands s)
    (stacked_commands s) (schedule_work_flag s) (next_check s) (next_check_wait s) (pause s) (pause_wait s)
    (checker s) (runner s) (next_predicted_run s) (next_prediction_error s) (events s).
Definition set_default_sticky_command (x : option Z) (s : sandbox) : sandbox :=
  mk_sandbox (cmds s) (command_sequence_id s) x (current_executing_command s) (command_stack s)
    (command_submitted_queue s) (stack_run_cmd_op s) (stack_wait_cmd_op s) (acquire_functor s)
    (correlation_functor s) (end_functor s) (step_start s) (step_duration s) (queued_commands s)
    (stacked_commands s) (schedule_work_flag s) (next_check s) (next_check_wait s) (pause s) (pause_wait s)
    (checker s) (runner s) (next_predicted_run s) (next_prediction_error s) (events s).
Definition set_current_executing_command (x : option Z) (s : sandbox) : sandbox :=
  mk_sandbox (cmds s) (command_sequence_id s) (default_sticky_command s) x (command_stack s)
    (command_submitted_queue s) (stack_run_cmd_op s) (stack_wait_cmd_op s) (acquire_functor s)
    (correlation_functor s) (end_functor s) (step_start s) (step_duration s) (queued_commands s)
    (stacked_commands s) (schedule_work_flag s) (next_check s) (next_check_wait s) (pause s) (pause_wait s)
    (checker s) (runner s) (next_predicted_run s) (next_prediction_error s) (events s).
Definition set_command_stack (x : list Z) (s : sandbox) : sandbox :=
  mk_sandbox (cmds s) (command_sequence_id s) (default_sticky_command s) (current_executing_command s) x
    (command_submitted_queue s) (stack_run_cmd_op s) (stack_wait_cmd_op s) (acquire_functor s)
    (correlation_functor s) (end_functor s) (step_start s) (step_duration s) (queued_commands s)
    (stacked_commands s) (schedule_work_flag s) (next_check s) (next_check_wait s) (pause s) (pause_wait s)
    (checker s) (runner s) (next_predicted_run s) (next_prediction_error s) (events s).
Definition set_command_submitted_queue (x : list element) (s : sandbox) : sandbox :=
  mk_sandbox (cmds s) (command_sequence_id s) (default_sticky_command s) (current_executing_command s)
    (command_stack s) x (stack_run_cmd_op s) (stack_wait_cmd_op s) (acquire_functor s) (correlation_functor s)
    (end_functor s) (step_start s) (step_duration s) (queued_commands s) (stacked_commands s) (schedule_work_flag s)
    (next_check s) (next_check_wait s) (pause s) (pause_wait s) (checker s) (runner s) (next_predicted_run s)
    (next_prediction_error s) (events s).
Definition set_stack_run_cmd_op (x : list RunningCommandFunctionOpcode) (s : sandbox) : sandbox :=
  mk_sandbox (cmds s) (command_sequence_id s) (default_sticky_command s) (current_executing_command s)
    (command_stack s) (command_submitted_queue s) x (stack_wait_cmd_op s) (acquire_functor s)
    (correlation_functor s) (end_functor s) (step_start s) (step_duration s) (queued_commands s)
    (stacked_commands s) (schedule_work_flag s) (next_check s) (next_check_wait s) (pause s) (pause_wait s)
    (checker s) (runner s) (next_predicted_run s) (next_prediction_error s) (events s).
Definition set_stack_wait_cmd_op (x : list WaitingCommandFunctionOpcode) (s : sandbox) : sandbox :=
  mk_sandbox (cmds s) (command_sequence_id s) (default_sticky_command s) (current_executing_command s)
    (command_stack s) (command_submitted_queue s) (stack_run_cmd_op s) x (acquire_functor s) (correlation_functor s)
    (end_functor s) (step_start s) (step_duration s) (queued_commands s) (stacked_commands s) (schedule_work_flag s)
    (next_check s) (next_check_wait s) (pause s) (pause_wait s) (checker s) (runner s) (next_predicted_run s)
    (next_prediction_error s) (events s).
Definition set_acquire_functor (x : option Z) (s : sandbox) : sandbox :=
  mk_sandbox (cmds s) (command_sequence_id s) (default_sticky_command s) (current_executing_command s)
    (command_stack s) (command_submitted_queue s) (stack_run_cmd_op s) (stack_wait_cmd_op s) x
    (correlation_functor s) (end_functor s) (step_start s) (step_duration s) (queued_commands s)
    (stacked_commands s) (schedule_work_flag s) (next_check s) (next_check_wait s) (pause s) (pause_wait s)
    (checker s) (runner s) (next_predicted_run s) (next_prediction_error s) (events s).
Definition set_correlation_functor (x : option Z) (s : sandbox) : sandbox :=
  mk_sandbox (cmds s) (command_sequence_id s) (default_sticky_command s) (current_executing_command s)
    (command_stack s) (command_submitted_queue s) (stack_run_cmd_op s) (stack_wait_cmd_op s) (acquire_functor s) x
    (end_functor s) (step_start s) (step_duration s) (queued_commands s) (stacked_commands s) (schedule_work_flag s)
    (next_check s) (next_check_wait s) (pause s) (pause_wait s) (checker s) (runner s) (next_predicted_run s)
    (next_prediction_error s) (events s).
Definition set_end_functor (x : option Z) (s : sandbox) : sandbox :=
  mk_sandbox (cmds s) (command_sequence_id s) (default_sticky_command s) (current_executing_command s)
    (command_stack s) (command_submitted_queue s) (stack_run_cmd_op s) (stack_wait_cmd_op s) (acquire_functor s)
    (correlation_functor s) x (step_start s) (step_duration s) (queued_commands s) (stacked_commands s)
    (schedule_work_flag s) (next_check s) (next_check_wait s) (pause s) (pause_wait s) (checker s) (runner s)
    (next_predicted_run s) (next_prediction_error s) (events s).
Definition set_step_start (x : Z) (s : sandbox) : sandbox :=
  mk_sandbox (cmds s) (command_sequence_id s) (default_sticky_command s) (current_executing_command s)
    (command_stack s) (command_submitted_queue s) (stack_run_cmd_op s) (stack_wait_cmd_op s) (acquire_functor s)
    (correlation_functor s) (end_functor s) x (step_duration s) (queued_commands s) (stacked_commands s)
    (schedule_work_flag s) (next_check s) (next_check_wait s) (pause s) (pause_wait s) (checker s) (runner s)
    (next_predicted_run s) (next_prediction_error s) (events s).
Definition set_step_duration (x : Z) (s : sandbox) : sandbox :=
  mk_sandbox (cmds s) (command_sequence_id s) (default_sticky_command s) (current_executing_command s)
    (command_stack s) (command_submitted_queue s) (stack_run_cmd_op s) (stack_wait_cmd_op s) (acquire_functor s)
    (correlation_functor s) (end_functor s) (step_start s) x (queued_commands s) (stacked_commands s)
    (schedule_work_flag s) (next_check s) (next_check_wait s) (pause s) (pause_wait s) (checker s) (runner s)
    (next_predicted_run s) (next_prediction_error s) (events s).
Definition set_queued_commands (x : Z) (s : sandbox) : sandbox :=
  mk_sandbox (cmds s) (command_sequence_id s) (default_sticky_command s) (current_executing_command s)
    (command_stack s) (command_submitted_queue s) (stack_run_cmd_op s) (stack_wait_cmd_op s) (acquire_functor s)
    (correlation_functor s) (end_functor s) (step_start s) (step_duration s) x (stacked_commands s)
    (schedule_work_flag s) (next_check s) (next_check_wait s) (pause s) (pause_wait s) (checker s) (runner s)
    (next_predicted_run s) (next_prediction_error s) (events s).
Definition set_stacked_commands (x : Z) (s : sandbox) : sandbox :=
  mk_sandbox (cmds s) (command_sequence_id s) (default_sticky_command s) (current_executing_command s)
    (command_stack s) (command_submitted_queue s) (stack_run_cmd_op s) (stack_wait_cmd_op s) (acquire_functor s)
    (correlation_functor s) (end_functor s) (step_start s) (step_duration s) (queued_commands s) x
    (schedule_work_flag s) (next_check s) (next_check_wait s) (pause s) (pause_wait s) (checker s) (runner s)
    (next_predicted_run s) (next_prediction_error s) (events s).
Definition set_schedule_work_flag (x : bool) (s : sandbox) : sandbox :=
  mk_sandbox (cmds s) (command_sequence_id s) (default_sticky_command s) (current_executing_command s)
    (command_stack s) (command_submitted_queue s) (stack_run_cmd_op s) (stack_wait_cmd_op s) (acquire_functor s)
    (correlation_functor s) (end_functor s) (step_start s) (step_duration s) (queued_commands s)
    (stacked_commands s) x (next_check s) (next_check_wait s) (pause s) (pause_wait s) (checker s) (runner s)
    (next_predicted_run s) (next_prediction_error s) (events s).
Definition set_next_check (x : bool) (s : sandbox) : sandbox :=
  mk_sandbox (cmds s) (command_sequence_id s) (default_sticky_command s) (current_executing_command s)
    (command_stack s) (command_submitted_queue s) (stack_run_cmd_op s) (stack_wait_cmd_op s) (acquire_functor s)
    (correlation_functor s) (end_functor s) (step_start s) (step_duration s) (queued_commands s)
    (stacked_commands s) (schedule_work_flag s) x (next_check_wait s) (pause s) (pause_wait s) (checker s)
    (runner s) (next_predicted_run s) (next_prediction_error s) (events s).
Definition set_next_check_wait (x : wait_phase) (s : sandbox) : sandbox :=
  mk_sandbox (cmds s) (command_sequence_id s) (default_sticky_command s) (current_executing_command s)
    (command_stack s) (command_submitted_queue s) (stack_run_cmd_op s) (stack_wait_cmd_op s) (acquire_functor s)
    (correlation_functor s) (end_functor s) (step_start s) (step_duration s) (queued_commands s)
    (stacked_commands s) (schedule_work_flag s) (next_check s) x (pause s) (pause_wait s) (checker s) (runner s)
    (next_predicted_run s) (next_prediction_error s) (events s).
Definition set_pause (x : bool) (s : sandbox) : sandbox :=
  mk_sandbox (cmds s) (command_sequence_id s) (default_sticky_command s) (current_executing_command s)
    (command_stack s) (command_submitted_queue s) (stack_run_cmd_op s) (stack_wait_cmd_op s) (acquire_functor s)
    (correlation_functor s) (end_functor s) (step_start s) (step_duration s) (queued_commands s)
    (stacked_commands s) (schedule_work_flag s) (next_check s) (next_check_wait s) x (pause_wait s) (checker s)
    (runner s) (next_predicted_run s) (next_prediction_error s) (events s).
Definition set_pause_wait (x : wait_phase) (s : sandbox) : sandbox :=
  mk_sandbox (cmds s) (command_sequence_id s) (default_sticky_command s) (current_executing_command s)
    (command_stack s) (command_submitted_queue s) (stack_run_cmd_op s) (stack_wait_cmd_op s) (acquire_functor s)
    (correlation_functor s) (end_functor s) (step_start s) (step_duration s) (queued_commands s)
    (stacked_commands s) (schedule_work_flag s) (next_check s) (next_check_wait s) (pause s) x (checker s)
    (runner s) (next_predicted_run s) (next_prediction_error s) (events s).
Definition set_checker (x : checker_pc) (s : sandbox) : sandbox :=
  mk_sandbox (cmds s) (command_sequence_id s) (default_sticky_command s) (current_executing_command s)
    (command_stack s) (command_submitted_queue s) (stack_run_cmd_op s) (stack_wait_cmd_op s) (acquire_functor s)
    (correlation_functor s) (end_functor s) (step_start s) (step_duration s) (queued_commands s)
    (stacked_commands s) (schedule_work_flag s) (next_check s) (next_check_wait s) (pause s) (pause_wait s) x
    (runner s) (next_predicted_run s) (next_prediction_error s) (events s).
Definition set_runner (x : runner_pc) (s : sandbox) : sandbox :=
  mk_sandbox (cmds s) (command_sequence_id s) (default_sticky_command s) (current_executing_command s)
    (command_stack s) (command_submitted_queue s) (stack_run_cmd_op s) (stack_wait_cmd_op s) (acquire_functor s)
    (correlation_functor s) (end_functor s) (step_start s) (step_duration s) (queued_commands s)
    (stacked_commands s) (schedule_work_flag s) (next_check s) (next_check_wait s) (pause s) (pause_wait s)
    (checker s) x (next_predicted_run s) (next_prediction_error s) (events s).
Definition set_next_predicted_run (x : Z) (s : sandbox) : sandbox :=
  mk_sandbox (cmds s) (command_sequence_id s) (default_sticky_command s) (current_executing_command s)
    (command_stack s) (command_submitted_queue s) (stack_run_cmd_op s) (stack_wait_cmd_op s) (acquire_functor s)
    (correlation_functor s) (end_functor s) (step_start s) (step_duration s) (queued_commands s)
    (stacked_commands s) (schedule_work_flag s) (next_check s) (next_check_wait s) (pause s) (pause_wait s)
    (checker s) (runner s) x (next_prediction_error s) (events s).
Definition set_next_prediction_error (x : Z) (s : sandbox) : sandbox :=
  mk_sandbox (cmds s) (command_sequence_id s) (default_sticky_command s) (current_executing_command s)
    (command_stack s) (command_submitted_queue s) (stack_run_cmd_op s) (stack_wait_cmd_op s) (acquire_functor s)
    (correlation_functor s) (end_functor s) (step_start s) (step_duration s) (queued_commands s)
    (stacked_commands s) (schedule_work_flag s) (next_check s) (next_check_wait s) (pause s) (pause_wait s)
    (checker s) (runner s) (next_predicted_run s) x (events s).
Definition set_events (x : list event) (s : sandbox) : sandbox :=
  mk_sandbox (cmds s) (command_sequence_id s) (default_sticky_command s) (current_executing_command s)
    (command_stack s) (command_submitted_queue s) (stack_run_cmd_op s) (stack_wait_cmd_op s) (acquire_functor s)
    (correlation_functor s) (end_functor s) (step_start s) (step_duration s) (queued_commands s)
    (stacked_commands s) (schedule_work_flag s) (next_check s) (next_check_wait s) (pause s) (pause_wait s)
    (checker s) (runner s) (next_predicted_run s) (next_prediction_error s) x.

(** An [unlock] of [whait_for_next_check], on which only the checker waits, and
    of [thread_scheduler_pause_condition], on which only the scheduler waits. *)
Definition signal_check (s : sandbox) : sandbox := set_next_check_wait (signalled (next_check_wait s)) (set_next_check true s).
Definition signal_run (s : sandbox) : sandbox := set_pause_wait (signalled (pause_wait s)) (set_pause true s).

(** ** Pointers, events and the queue *)

Definition cmd_at (s : sandbox) (id : Z) : outcome BatchCommand := match cmds s !! id with Some c => Ret c | None => Oob end.
Definition put (id : Z) (c : BatchCommand) (s : sandbox) : sandbox := set_cmds (<[id := c]> (cmds s)) s.
Definition update (id : Z) (f : BatchCommand -> BatchCommand) (s : sandbox) : outcome sandbox := c ← cmd_at s id; mret (put id (f c) s).
(** The last reference to a command goes away. *)
Definition release (id : Z) (s : sandbox) : sandbox := set_cmds (delete id (cmds s)) s.

Definition fire (id : Z) (t : command_event) (fault : option Z) (s : sandbox) : sandbox :=
  set_events (mk_event id t (queued_commands s) (stacked_commands s) fault :: events s) s.

(** [lhs] comes after [rhs]. *)
Definition PriorityCommandCompare (lhs rhs : element) : bool :=
  if priority lhs <? priority rhs then true
  else if priority lhs =? priority rhs then sequence_id lhs >=? sequence_id rhs
  else false.

(** [std::priority_queue] over [PriorityCommandCompare]. *)
Fixpoint top (q : list element) : option element :=
  match q with
  | [] => None
  | e :: q' => match top q' with None => Some e | Some b => if PriorityCommandCompare b e then Some e else Some b end
  end.
Fixpoint drop_id (i : Z) (q : list element) : list element :=
  match q with [] => [] | e :: q' => if sequence_id e =? i then q' else e :: drop_id i q' end.

(** [command_submitted_queue.pop()] and the statistics. *)
Definition pop_submitted (e : element) (s : sandbox) : sandbox :=
  let s := set_command_submitted_queue (drop_id (sequence_id e) (command_submitted_queue s)) s in
  set_queued_commands (u32 (zlen (command_submitted_queue s))) s.

Inductive RunningVSSubmissioneResult :=
| RSR_NO_CHANGE | RSR_TIMED_RETRY | RSR_STACK_CURENT_COMMAND | RSR_KILL_KURRENT_COMMAND
| RSR_CURRENT_CMD_HAS_ENDED | RSR_CURRENT_CMD_HAS_FAULTED.

(** The table has four rows and three columns; an index outside is an access
    outside it. *)
Definition running_vs_submition : list (list RunningVSSubmissioneResult) :=
  [ [RSR_TIMED_RETRY; RSR_TIMED_RETRY; RSR_NO_CHANGE];
    [RSR_STACK_CURENT_COMMAND; RSR_KILL_KURRENT_COMMAND; RSR_NO_CHANGE];
    [RSR_CURRENT_CMD_HAS_ENDED; RSR_CURRENT_CMD_HAS_ENDED; RSR_CURRENT_CMD_HAS_ENDED];
    [RSR_CURRENT_CMD_HAS_FAULTED; RSR_CURRENT_CMD_HAS_FAULTED; RSR_CURRENT_CMD_HAS_FAULTED] ].
Definition CHECK_RUNNING_VS_SUBMISSION (r s : Z) : outcome RunningVSSubmissioneResult :=
  match running_vs_submition !! Z.to_nat r with
  | Some row => match row !! Z.to_nat s with Some v => Ret v | None => Oob end
  | None => Oob
  end.

(** ** Installing and removing *)

(** A run of [startHandler] and [setHandler]: the time, their calls and what
    they throw. *)
Record set_run := mk_set { set_time : Z; set_handler : handler_run }.

Definition run_set_handler (c : BatchCommand) (h : set_run) : BatchCommand :=
  if negb (already_setupped c) && has_bit (handlers c) HT_Set then
    let c := fold_left do_act (acts (set_handler h)) (with_set_time c (set_time h)) in
    match raised (set_handler h) with
    | None => with_setup c true
    | e => catch_handler c e
    end
  else c.

Definition installHandler (h : set_run) (cmd_to_install : option Z) (s : sandbox) : outcome sandbox :=
  match cmd_to_install with
  | Some id =>
      c ← cmd_at s id;
      let s := fire id EVT_RUNNING None s in
      let s := put id (run_set_handler c h) s in
      let s := if has_bit (handlers c) HT_Acquisition then set_acquire_functor (Some id) s else s in
      let s := if has_bit (handlers c) HT_Correlation then set_correlation_functor (Some id) s else s in
      mret (set_current_executing_command (Some id) (set_end_functor (Some id) s))
  | None =>
      mret (set_end_functor None (set_correlation_functor None (set_acquire_functor None
              (set_current_executing_command None s))))
  end.

(** [h]: the calls of [endHandler]. *)
Definition removeHandler (h : list act) (id : Z) (s : sandbox) : outcome sandbox :=
  c ← cmd_at s id;
  let s := put id (fold_left do_act h c) s in
  if handlers c <=? 1 then mret s
  else
    let s := if has_bit (handlers c) HT_Acquisition && bool_decide (acquire_functor s = Some id)
             then set_acquire_functor None s else s in
    let s := if has_bit (handlers c) HT_Correlation && bool_decide (correlation_functor s = Some id)
             then set_correlation_functor None s else s in
    mret s.

(** ** Posted operations *)

(** [owns]: the try-lock on the stack of operations succeeded. *)
Definition consumeRunCmdOps (owns : bool) (id : Z) (s : sandbox) : outcome sandbox :=
  if owns then
    let consume s op :=
      match op with
      | RCFOTerminate => update id (fun c => if sticky c then c else setRunningProperty c RP_END) s
      end in
    s ← fold_left (fun o op => s ← o; consume s op) (stack_run_cmd_op s) (Ret s);
    mret (set_stack_run_cmd_op [] s)
  else mret s.

Fixpoint clear_submitted (n : nat) (s : sandbox) : sandbox :=
  match n with
  | O => s
  | S n' =>
      match top (command_submitted_queue s) with
      | None => s
      | Some e =>
          clear_submitted n' (release (sequence_id e) (fire (sequence_id e) EVT_DEQUEUE None (pop_submitted e s)))
      end
  end.

Definition consumeWaitCmdOps (owns : bool) (s : sandbox) : sandbox :=
  if owns then
    let consume s op :=
      match op with
      | WCFOClearQueue => clear_submitted (length (command_submitted_queue s)) s
      end in
    set_stack_wait_cmd_op [] (fold_left consume (stack_wait_cmd_op s) s)
  else s.

(** ** The scheduler thread *)

(** What a step of the scheduler meets: the try-lock, the two readings of the
    clock, and the runs of the handlers. *)
Record run_input := mk_run_input {
  r_owns : bool; r_start : Z; r_end : Z;
  r_acquire : handler_run; r_correlate : handler_run; r_timeout : timeout_run;
}.

Definition call_functor (f : option Z) (h : handler_run) (s : sandbox) : outcome sandbox :=
  match f with None => mret s | Some id => update id (fun c => run_functor c h) s end.

(** The head of the loop of [runCommand], up to the release of the mutex. *)
Definition run_step (i : run_input) (s : sandbox) : outcome sandbox :=
  match current_executing_command s with
  | Some id =>
      s ← consumeRunCmdOps (r_owns i) id s;
      s ← update id (fun c => with_counter c (u64 (command_step_counter c + 1))) s;
      let s := set_step_start (s64 (r_start i)) s in
      let s := if next_predicted_run s =? 0 then s
               else let e := s64 (step_start s - next_predicted_run s) in
                    set_next_prediction_error (if e <? 0 then 0 else e) s in
      s ← call_functor (acquire_functor s) (r_acquire i) s;
      s ← call_functor (correlation_functor s) (r_correlate i) s;
      let s := set_step_duration (s64 (r_end i - step_start s)) s in
      s ← update id (fun c => commandPost c (step_start s) (r_timeout i)) s;
      mret (set_runner (RAfter id) s)
  | None =>
      if negb (schedule_work_flag s) then mret (set_runner RDone s)
      else mret (set_runner RPause (signal_check (set_step_duration 0 (set_step_start 0 s))))
  end.

(** The rest of the loop of [runCommand], which reads [curr_executing_impl]
    after the mutex was released. *)
Definition run_after (now id : Z) (s : sandbox) : outcome sandbox :=
  c ← cmd_at s id;
  if negb (schedule_work_flag s) && negb (runningProperty c =? 0) then mret (set_runner RDone s)
  else if (runningProperty c =? RP_EXSC) || (runningProperty c =? RP_NORMAL) then
    let timeToWaith := s64 (featureSchedulerStepsDelay (commandFeatures c) - (step_duration s + next_prediction_error s)) in
    if timeToWaith >? 0 then mret (set_runner RSleep (set_next_predicted_run (u64 (now + timeToWaith)) s))
    else mret (set_runner RTop (set_next_prediction_error 0 (set_next_predicted_run 0 s)))
  else if (runningProperty c =? RP_FAULT) || (runningProperty c =? RP_FATAL_FAULT) || (runningProperty c =? RP_END) then
    _ ← match end_functor s with None => mret c | Some e => cmd_at s e end;
    mret (set_runner RPause (signal_check s))
  else mret (set_runner RTop s).

(** ** The checker thread *)

(** What a step of the checker meets: the try-lock, the runs of [setHandler] and
    [endHandler], and of [setHandler] of the default command. *)
Record check_input := mk_check_input {
  k_owns : bool; k_set : set_run; k_end : list act; k_sticky : set_run;
}.

(** The end of the command that ran, [KILL], [ENDED] and [FAULTED]. *)
Definition ending_event (v : RunningVSSubmissioneResult) (c : BatchCommand) : option (command_event * option Z) :=
  match v with
  | RSR_KILL_KURRENT_COMMAND => Some (EVT_KILLED, None)
  | RSR_CURRENT_CMD_HAS_ENDED => Some (EVT_COMPLETED, None)
  | RSR_CURRENT_CMD_HAS_FAULTED => Some (EVT_FAULT, Some (fault_code c))
  | _ => None
  end.
Definition fire_end (id : Z) (e : option (command_event * option Z)) (s : sandbox) : sandbox :=
  match e with Some (t, f) => fire id t f s | None => s end.

(** [RSR_STACK_CURENT_COMMAND]: lines 370-393. *)
Definition stack_current (i : check_input) (e : element) (cur : Z) (c : BatchCommand) (s : sandbox) : outcome sandbox :=
  let s := pop_submitted e s in
  let s := if sticky c then s else set_command_stack (cur :: command_stack s) s in
  let s := fire cur EVT_PAUSED None s in
  s ← installHandler (k_set i) (Some (sequence_id e)) s;
  mret (set_checker CTop (signal_run s)).

(** [RSR_KILL_KURRENT_COMMAND], [RSR_CURRENT_CMD_HAS_ENDED] and
    [RSR_CURRENT_CMD_HAS_FAULTED]: lines 395-462. *)
Definition replace_current (i : check_input) (v : RunningVSSubmissioneResult) (e : element) (cur : Z) (c : BatchCommand)
    (s : sandbox) : outcome sandbox :=
  let s := fire_end cur (ending_event v c) s in
  let s := pop_submitted e s in
  s ← removeHandler (k_end i) cur s;
  s ← installHandler (k_set i) (Some (sequence_id e)) s;
  let s := signal_run s in
  mret (set_checker CTop (if sticky c then s else release cur s)).

(** The queue is not empty: lines 330-473. *)
Definition check_have (i : check_input) (s : sandbox) : outcome sandbox :=
  match top (command_submitted_queue s), current_executing_command s with
  | None, _ => Oob
  | Some e, Some cur =>
      c ← cmd_at s cur;
      n ← cmd_at s (sequence_id e);
      v ← CHECK_RUNNING_VS_SUBMISSION (runningProperty c) (submissionRule n);
      let v := match v with RSR_NO_CHANGE => if sticky c then RSR_STACK_CURENT_COMMAND else v | _ => v end in
      match v with
      | RSR_NO_CHANGE => mret (set_checker CWait s)
      | RSR_TIMED_RETRY => mret (set_checker CTimed s)
      | RSR_STACK_CURENT_COMMAND => stack_current i e cur c s
      | _ => replace_current i v e cur c s
      end
  | Some e, None =>
      s ← installHandler (k_set i) (Some (sequence_id e)) s;
      mret (set_checker CTop (signal_run (pop_submitted e s)))
  end.

(** [RP_END], [RP_FAULT] and [RP_FATAL_FAULT]: lines 483-508 and 525-550. *)
Definition ended_event (c : BatchCommand) : option (command_event * option Z) :=
  if runningProperty c =? RP_END then Some (EVT_COMPLETED, None)
  else if runningProperty c =? RP_FAULT then Some (EVT_FAULT, Some (fault_code c))
  else if runningProperty c =? RP_FATAL_FAULT then Some (EVT_FATAL_FAULT, Some (fault_code c))
  else None.

(** Lines 561-571, after the mutex of the current command was released. *)
Definition check_sticky (h : set_run) (s : sandbox) : outcome sandbox :=
  s ← match current_executing_command s, default_sticky_command s with
      | None, Some d =>
          c ← cmd_at s d;
          if sticky c then
            s ← installHandler h (Some d) (put d (with_setup c false) s);
            mret (signal_run s)
          else mret s
      | _, _ => mret s
      end;
  mret (set_checker CWait s).

(** The queue was empty: lines 476-477, and lines 478-558 when the current
    command has ended. *)
Definition check_empty (i : check_input) (s : sandbox) : outcome sandbox :=
  match current_executing_command s with
  | Some cur =>
      c ← cmd_at s cur;
      mret (set_checker (if runningProperty c >=? RP_END then CEnded else CSticky) s)
  | None => mret (set_checker CSticky s)
  end.

Definition check_ended (i : check_input) (s : sandbox) : outcome sandbox :=
  match current_executing_command s with
  | None => Oob
  | Some cur =>
      c ← cmd_at s cur;
      let s := fire_end cur (ended_event c) (set_current_executing_command None s) in
      match command_stack s with
      | next :: rest =>
          s ← removeHandler (k_end i) cur s;
          s ← installHandler (k_set i) (Some next) s;
          let s := set_command_stack rest s in
          let s := signal_run (set_stacked_commands (u32 (zlen rest)) s) in
          mret (set_checker CSticky (if sticky c then s else release cur s))
      | [] =>
          s ← (if sticky c then mret s
               else s ← removeHandler (k_end i) cur s;
                    s ← installHandler (k_set i) None s;
                    mret (release cur s));
          mret (set_checker CSticky s)
      end
  end.

(** ** The owner's calls *)

(** [deinit]: [serviceState] is [DEINIT].  The priority goes from [uint32_t] to
    [int]; the result is the id. *)
Definition enqueueCommand (deinit : bool) (command_impl : BatchCommand) (prio : Z) (s : sandbox) : sandbox * Z :=
  if deinit then (s, 0)
  else
    let id := u64 (command_sequence_id s + 1) in
    let s := put id command_impl (set_command_sequence_id id s) in
    let s := fire id EVT_QUEUED None s in
    let s := set_command_submitted_queue (mk_element (s32 prio) id :: command_submitted_queue s) s in
    let s := set_queued_commands (u32 (zlen (command_submitted_queue s))) s in
    (signal_check s, id).

Definition killCurrentCommand (s : sandbox) : sandbox := set_stack_run_cmd_op (RCFOTerminate :: stack_run_cmd_op s) s.
Definition clearCommandQueue (s : sandbox) : sandbox :=
  signal_check (set_stack_wait_cmd_op (WCFOClearQueue :: stack_wait_cmd_op s) s).

Definition on_current (f : BatchCommand -> BatchCommand) (s : sandbox) : outcome sandbox :=
  match current_executing_command s with
  | None => mret s
  | Some id => s ← update id f s; mret (signal_run s)
  end.

Definition setCurrentCommandFeatures (f : Features) : sandbox -> outcome sandbox :=
  on_current (fun c =>
    let ft := commandFeatures c in
    with_features c (mk_features (Z.lor (featuresFlag ft) (featuresFlag f)) (featureSchedulerStepsDelay f)
                       (featureSubmissionRetryDelay ft) (featureCommandTimeout ft))).
Definition setCurrentCommandScheduerStepDelay (d : Z) : sandbox -> outcome sandbox :=
  on_current (fun c =>
    let ft := commandFeatures c in
    with_features c (mk_features (featuresFlag ft) d (featureSubmissionRetryDelay ft) (featureCommandTimeout ft))).
Definition lockCurrentCommandFeature (lock : bool) : sandbox -> outcome sandbox := on_current (fun c => with_lock0 c lock).

(** [stop], up to the joins. *)
Definition stop (s : sandbox) : sandbox := signal_check (signal_run (set_schedule_work_flag false s)).

(** The constructors, [setDefaultStickyCommand] and [init], then [start]. *)
Definition new_sandbox : sandbox :=
  mk_sandbox ∅ 0 None None [] [] [] [] None None None 0 0 0 0 false false WTest false WTest CDone RDone 0 0 [].
Definition setDefaultStickyCommand (command_impl : BatchCommand) (s : sandbox) : sandbox :=
  let id := u64 (command_sequence_id s + 1) in
  let s := match default_sticky_command s with Some d => release d s | None => s end in
  let s := put id (with_sticky command_impl true) (set_command_sequence_id id s) in
  set_default_sticky_command (Some id) s.
Definition init (s : sandbox) : sandbox :=
  set_schedule_work_flag false (set_end_functor None (set_correlation_functor None (set_acquire_functor None
    (set_current_executing_command None s)))).
Definition start (s : sandbox) : sandbox :=
  let s := set_step_duration 0 (set_step_start 0 (set_schedule_work_flag true s)) in
  set_checker CIdle (set_runner RTop (set_next_predicted_run 0 (set_next_prediction_error 0 s))).

Definition initial (sticky_command : option BatchCommand) : sandbox :=
  start (init match sticky_command with Some c => setDefaultStickyCommand c new_sandbox | None => new_sandbox end).

(** [deinit], once both threads have ended. *)
Definition kill_listed (id : Z) (s : sandbox) : sandbox := release id (fire id EVT_KILLED None s).
Fixpoint kill_stack (st : list Z) (s : sandbox) : sandbox :=
  match st with
  | [] => s
  | id :: rest =>
      kill_stack rest (kill_listed id (set_stacked_commands (u32 (zlen rest)) (set_command_stack rest s)))
  end.
Fixpoint kill_queue (n : nat) (s : sandbox) : sandbox :=
  match n with
  | O => s
  | S n' =>
      match top (command_submitted_queue s) with
      | None => s
      | Some e => kill_queue n' (kill_listed (sequence_id e) (pop_submitted e s))
      end
  end.
Definition deinit (s : sandbox) : outcome sandbox :=
  s ← match current_executing_command s with
      | Some cur =>
          c ← cmd_at s cur;
          if sticky c then mret s else mret (kill_listed cur (set_current_executing_command None s))
      | None => mret s
      end;
  let s := kill_stack (command_stack s) s in
  let s := kill_queue (length (command_submitted_queue s)) s in
  mret (set_correlation_functor None (set_acquire_functor None s)).

(** ** Steps of the system *)

Inductive label :=
| LRun (i : run_input) | LAfter (now : Z) | LRunnerWake
| LCheck (i : check_input) | LCheckerWake
| LEnqueue (deinit : bool) (c : BatchCommand) (prio : Z) | LKill | LClear
| LFeatures (f : Features) | LStepDelay (d : Z) | LLock (b : bool) | LStop.

(** A step of a thread inside [wait], which may be its last one. *)
Definition wait_check (next : checker_pc) (s : sandbox) : option sandbox :=
  match wait_loop (next_check s) (next_check_wait s) with
  | None => None
  | Some None => Some (set_checker next (set_next_check false s))
  | Some (Some w) => Some (set_next_check_wait w s)
  end.
Definition wait_run (s : sandbox) : option sandbox :=
  match wait_loop (pause s) (pause_wait s) with
  | None => None
  | Some None => Some (set_runner RTop (set_pause false s))
  | Some (Some w) => Some (set_pause_wait w s)
  end.

(** [Ret None]: the thread is not at that point, or it is asleep. *)
Definition step (l : label) (s : sandbox) : outcome (option sandbox) :=
  match l with
  | LRun i => match runner s with RTop => Some <$> run_step i s | _ => mret None end
  | LAfter now => match runner s with RAfter id => Some <$> run_after now id s | _ => mret None end
  | LRunnerWake =>
      match runner s with
      | RSleep => mret (Some (set_runner RTop (set_pause false s)))
      | RPause => mret (wait_run s)
      | _ => mret None
      end
  | LCheck i =>
      match checker s with
      | CTop =>
          mret (Some (if negb (schedule_work_flag s) then set_checker CDone s
                      else let s := consumeWaitCmdOps (k_owns i) s in
                           set_checker (match command_submitted_queue s with [] => CEmpty | _ => CHave end) s))
      | CHave => Some <$> check_have i s
      | CEmpty => Some <$> check_empty i s
      | CEnded => Some <$> check_ended i s
      | CSticky => Some <$> check_sticky (k_sticky i) s
      | _ => mret None
      end
  | LCheckerWake =>
      match checker s with
      | CIdle => mret (wait_check (if schedule_work_flag s then CTop else CDone) s)
      | CWait => mret (wait_check CTop s)
      | CTimed => mret (Some (set_checker CTop (set_next_check false s)))
      | _ => mret None
      end
  | LEnqueue d c p => mret (Some (fst (enqueueCommand d c p s)))
  | LKill => mret (Some (killCurrentCommand s))
  | LClear => mret (Some (clearCommandQueue s))
  | LFeatures f => Some <$> setCurrentCommandFeatures f s
  | LStepDelay d => Some <$> setCurrentCommandScheduerStepDelay d s
  | LLock b => Some <$> lockCurrentCommandFeature b s
  | LStop => mret (Some (stop s))
  end.

(** A run; a label that is not enabled ends it with [None]. *)
Fixpoint run (ls : list label) (s : sandbox) : outcome (option sandbox) :=
  match ls with
  | [] => mret (Some s)
  | l :: ls' => o ← step l s; match o with Some s' => run ls' s' | None => mret None end
  end.
