(* ===== verification/SandboxSpec.v ===== *)
(** * What the sandbox promises (batch_command/BatchCommandSandbox)

    The contract of the sandbox with its owner is an abstract machine over the
    submitted, running and paused commands and the log of the events that were
    announced ([spec_step]); [phase] reads the life of one command off the log.
    The invariants of the threads, and the theorem that every step of the
    sandbox is a sequence of steps of the contract, are in SandboxRefine.v. *)
From S2P Require Import Prelude Command Sandbox.

(** ** The life of a command *)

Inductive life := LNew | LQueued | LRunning | LPaused | LEnded.
#[export] Instance life_eq_dec : EqDecision life.
Proof. solve_decision. Defined.

Definition life_event (p : life) (t : command_event) : option life :=
  match p, t with
  | LNew, EVT_QUEUED => Some LQueued
  | LQueued, EVT_RUNNING => Some LRunning
  | LQueued, (EVT_DEQUEUE | EVT_KILLED) => Some LEnded
  | LRunning, EVT_PAUSED => Some LPaused
  | LRunning, (EVT_COMPLETED | EVT_FAULT | EVT_FATAL_FAULT | EVT_KILLED) => Some LEnded
  | LPaused, EVT_RUNNING => Some LRunning
  | LPaused, EVT_KILLED => Some LEnded
  | _, _ => None
  end.

(** The log has the newest event first. *)
Fixpoint phase (log : list (Z * command_event)) (id : Z) : option life :=
  match log with
  | [] => Some LNew
  | (i, t) :: log' => if i =? id then p ← phase log' id; life_event p t else phase log' id
  end.

(** ** The contract *)

Record contract := mk_contract {
  a_last : Z;
  a_default : option Z;
  a_running : option Z;
  a_paused : list Z;
  a_waiting : list element;
  a_log : list (Z * command_event);
}.

Definition ending (t : command_event) : Prop :=
  t = EVT_COMPLETED \/ t = EVT_FAULT \/ t = EVT_FATAL_FAULT \/ t = EVT_KILLED.

Definition is_default (a : contract) (id : Z) : Prop := a_default a = Some id.

(** One change of the commands that the sandbox makes on its own: a command
    taken out of the queue, the first of the queue started when nothing runs, or
    in place of a running command that is paused or that has ended, the last
    paused command resumed when the running one has ended, the end of the last
    command, and the default command started when nothing runs. *)
Inductive internal_step : contract -> contract -> Prop :=
| SDequeue n d r p q log e :
    top q = Some e ->
    internal_step (mk_contract n d r p q log) (mk_contract n d r p (drop_id (sequence_id e) q) ((sequence_id e, EVT_DEQUEUE) :: log))
| SStart n d p q log e :
    top q = Some e ->
    internal_step (mk_contract n d None p q log)
      (mk_contract n d (Some (sequence_id e)) p (drop_id (sequence_id e) q) ((sequence_id e, EVT_RUNNING) :: log))
| SPreempt n d c p q log e :
    top q = Some e -> d <> Some c ->
    internal_step (mk_contract n d (Some c) p q log)
      (mk_contract n d (Some (sequence_id e)) (c :: p) (drop_id (sequence_id e) q) ((sequence_id e, EVT_RUNNING) :: (c, EVT_PAUSED) :: log))
| SSuspendDefault n c p q log e :
    top q = Some e ->
    internal_step (mk_contract n (Some c) (Some c) p q log)
      (mk_contract n (Some c) (Some (sequence_id e)) p (drop_id (sequence_id e) q) ((sequence_id e, EVT_RUNNING) :: (c, EVT_PAUSED) :: log))
| SReplace n d c p q log e t :
    top q = Some e -> ending t ->
    internal_step (mk_contract n d (Some c) p q log)
      (mk_contract n d (Some (sequence_id e)) p (drop_id (sequence_id e) q) ((sequence_id e, EVT_RUNNING) :: (c, t) :: log))
| SResume n d c p x q log t :
    ending t ->
    internal_step (mk_contract n d (Some c) (x :: p) q log) (mk_contract n d (Some x) p q ((x, EVT_RUNNING) :: (c, t) :: log))
| SFinish n d c q log t :
    ending t ->
    internal_step (mk_contract n d (Some c) [] q log) (mk_contract n d None [] q ((c, t) :: log))
| SDefault n c p q log :
    internal_step (mk_contract n (Some c) None p q log) (mk_contract n (Some c) (Some c) p q ((c, EVT_RUNNING) :: log)).

(** With the submissions of the owner. *)
Inductive spec_step : contract -> contract -> Prop :=
| SSubmit n d r p q log prio :
    spec_step (mk_contract n d r p q log) (mk_contract (n + 1) d r p (mk_element prio (n + 1) :: q) ((n + 1, EVT_QUEUED) :: log))
| SInternal a a' : internal_step a a' -> spec_step a a'.

Definition spec_start (d : option Z) : contract := mk_contract (match d with Some i => i | None => 0 end) d None [] [] [].

(** ** The queue *)

Abbreviation ids q := (map sequence_id q).

Lemma top_in q e : top q = Some e -> e ∈ q.
Proof.
  revert e. induction q as [|x q IH]; intros e; [done|]; cbn.
  destruct (top q) as [b|]; [case_match|]; intros [= <-]; rewrite elem_of_cons; auto.
Qed.

Lemma top_none q : top q = None -> q = [].
Proof. destruct q as [|x q]; [done|]; cbn. destruct (top q); [case_match|]; done. Qed.

Lemma top_some q : q <> [] -> exists e, top q = Some e.
Proof. intros Hq. destruct (top q) eqn:E; [eauto|]. by apply top_none in E. Qed.

(** Nothing is before the top: it has the highest priority, and the lowest id
    among those. *)
Definition before (a b : element) : Prop :=
  priority b < priority a \/ (priority a = priority b /\ sequence_id a <= sequence_id b).

Lemma order_spec a b : PriorityCommandCompare a b = true -> before b a.
Proof. unfold PriorityCommandCompare, before. repeat case_match; rewrite ?Z.geb_leb; intros; bool_hyps; try done; lia. Qed.

Lemma order_spec_false a b : PriorityCommandCompare a b = false -> before a b.
Proof. unfold PriorityCommandCompare, before. repeat case_match; rewrite ?Z.geb_leb; intros; bool_hyps; try done; lia. Qed.

Lemma top_best q e x : top q = Some e -> x ∈ q -> before e x.
Proof.
  revert e. induction q as [|y q IH]; intros e Ht Hx; [by apply not_elem_of_nil in Hx|]; cbn in Ht.
  destruct (top q) as [b|] eqn:Eb.
  - apply elem_of_cons in Hx as [-> | Hx].
    + destruct (PriorityCommandCompare b y) eqn:Ec; simplify_eq.
      * unfold before; lia.
      * by apply order_spec_false.
    + pose proof (IH _ eq_refl Hx) as Hb.
      destruct (PriorityCommandCompare b y) eqn:Ec; simplify_eq; [|done].
      apply order_spec in Ec. unfold before in *; lia.
  - apply top_none in Eb as ->. simplify_eq. apply list_elem_of_singleton in Hx as ->. unfold before; lia.
Qed.

Lemma ids_drop i q x : x ∈ ids (drop_id i q) -> x ∈ ids q.
Proof.
  induction q as [|y q IH]; cbn; [done|]. case_match; cbn; rewrite ?elem_of_cons; intuition.
Qed.

Lemma ids_drop_other i q x : x ∈ ids q -> x <> i -> x ∈ ids (drop_id i q).
Proof.
  induction q as [|y q IH]; cbn; [done|]. rewrite elem_of_cons. intros [-> | Hx] Hne.
  - replace (sequence_id y =? i) with false by lia. cbn. rewrite elem_of_cons. auto.
  - case_match; cbn; rewrite ?elem_of_cons; auto.
Qed.

Lemma NoDup_drop i q : NoDup (ids q) -> NoDup (ids (drop_id i q)).
Proof.
  induction q as [|y q IH]; cbn; [done|]. rewrite NoDup_cons. intros [Hy Hq].
  case_match; cbn; [done|]. apply NoDup_cons; split; [|auto]. intros H'. by apply ids_drop in H'.
Qed.

Lemma ids_drop_self i q : NoDup (ids q) -> i ∉ ids (drop_id i q).
Proof.
  induction q as [|y q IH]; cbn; [intros; apply not_elem_of_nil|]. rewrite NoDup_cons. intros [Hy Hq].
  case_match; bool_hyps; cbn; [by subst|]. rewrite not_elem_of_cons; auto.
Qed.

Lemma drop_id_in i q : i ∈ ids q -> zlen (drop_id i q) = zlen q - 1.
Proof.
  induction q as [|y q IH]; cbn; [by intros ?%not_elem_of_nil|]. rewrite elem_of_cons. intros Hi.
  case_match; bool_hyps; [zl|]. destruct Hi as [-> | Hi]; [done|]. rewrite !zlen_cons, IH by done. lia.
Qed.

Lemma top_id q e : top q = Some e -> sequence_id e ∈ ids q.
Proof. intros H. apply list_elem_of_fmap. exists e. split; [done | by apply top_in]. Qed.

(** ** The invariant of the contract *)

Inductive placed (a : contract) (i : Z) : life -> Prop :=
| is_new : ~ (0 < i <= a_last a) -> placed a i LNew
| is_waiting : i ∈ ids (a_waiting a) -> placed a i LQueued
| is_running : a_running a = Some i -> placed a i LRunning
| is_paused : i ∈ a_paused a -> placed a i LPaused
| is_gone : 0 < i <= a_last a -> i ∉ ids (a_waiting a) -> a_running a <> Some i -> i ∉ a_paused a -> placed a i LEnded.

(** The log of a command other than the default one is a life that leads to the
    place where the command is. *)
Definition accounted (a : contract) : Prop :=
  forall i p, placed a i p -> a_default a <> Some i -> phase (a_log a) i = Some p.

Record consistent (a : contract) : Prop := mk_consistent {
  con_last : 0 <= a_last a;
  con_default i : a_default a = Some i -> 0 < i <= a_last a;
  con_reserved i : a_default a = Some i -> (i ∉ ids (a_waiting a)) /\ (i ∉ a_paused a);
  con_queue : NoDup (ids (a_waiting a));
  con_stack : NoDup (a_paused a);
  con_accounted : accounted a;
}.

Lemma phase_same log i t : phase ((i, t) :: log) i = (p ← phase log i; life_event p t).
Proof. cbn. by rewrite Z.eqb_refl. Qed.
Lemma phase_other log i j t : i <> j -> phase ((i, t) :: log) j = phase log j.
Proof. intros. cbn. by replace (i =? j) with false by lia. Qed.

Lemma consistent_start d : (forall i, d = Some i -> i = 1) -> consistent (spec_start d).
Proof.
  intros Hd. constructor; cbn; try apply NoDup_nil_2; try (intros i; split; apply not_elem_of_nil).
  - destruct d as [d|]; [rewrite (Hd d eq_refl); lia | lia].
  - intros i ->. specialize (Hd i eq_refl). lia.
  - intros i p Hpl Hne. destruct Hpl as [?|Hin|?|Hin|Hr ? ? ?]; cbn in *; try done; try (by apply not_elem_of_nil in Hin).
    destruct d as [d|]; cbn in *; [|lia]. rewrite (Hd d eq_refl) in *. destruct Hne. f_equal. lia.
Qed.

(** A command is in one place. *)
Lemma one_place a i p p' : accounted a -> a_default a <> Some i -> placed a i p -> placed a i p' -> p = p'.
Proof. intros Ha Hd Hp Hp'. pose proof (Ha _ _ Hp Hd). pose proof (Ha _ _ Hp' Hd). congruence. Qed.

(** One event moves one command. *)
Lemma accounted_moved a a' j t p p' :
  accounted a -> a_log a' = (j, t) :: a_log a -> a_default a' = a_default a ->
  placed a j p -> life_event p t = Some p' ->
  (forall x, placed a' j x -> a_default a <> Some j -> x = p') ->
  (forall i x, i <> j -> placed a' i x -> placed a i x) ->
  accounted a'.
Proof.
  intros Ha El Ed Hp Hlife Hj Hi i x Hx Hne. rewrite El. rewrite Ed in Hne.
  destruct (decide (i = j)) as [-> | ?].
  - rewrite phase_same, (Ha j p Hp Hne), (Hj x Hx Hne). done.
  - rewrite phase_other by done. apply Ha; [by apply Hi | done].
Qed.

(** An event of the default command moves nobody else. *)
Lemma accounted_default a a' c t :
  accounted a -> a_log a' = (c, t) :: a_log a -> a_default a = Some c -> a_default a' = Some c ->
  (forall i x, i <> c -> placed a' i x -> placed a i x) ->
  accounted a'.
Proof.
  intros Ha El Ed Ed' Hi i x Hx Hne. rewrite El, phase_other by congruence. apply Ha; [|congruence]. apply Hi; congruence.
Qed.

(** Every rule is a sequence of moves of one command. *)
Inductive move : contract -> contract -> Prop :=
| MSubmit n d r p q log prio :
    move (mk_contract n d r p q log) (mk_contract (n + 1) d r p (mk_element prio (n + 1) :: q) ((n + 1, EVT_QUEUED) :: log))
| MDequeue n d r p q log i t :
    i ∈ ids q -> t = EVT_DEQUEUE \/ t = EVT_KILLED ->
    move (mk_contract n d r p q log) (mk_contract n d r p (drop_id i q) ((i, t) :: log))
| MDrop n d r x p q log :
    move (mk_contract n d r (x :: p) q log) (mk_contract n d r p q ((x, EVT_KILLED) :: log))
| MStart n d p q log i :
    i ∈ ids q -> move (mk_contract n d None p q log) (mk_contract n d (Some i) p (drop_id i q) ((i, EVT_RUNNING) :: log))
| MPause n d c p q log :
    d <> Some c -> move (mk_contract n d (Some c) p q log) (mk_contract n d None (c :: p) q ((c, EVT_PAUSED) :: log))
| MEnd n d c p q log t :
    ending t -> move (mk_contract n d (Some c) p q log) (mk_contract n d None p q ((c, t) :: log))
| MResume n d x p q log :
    move (mk_contract n d None (x :: p) q log) (mk_contract n d (Some x) p q ((x, EVT_RUNNING) :: log))
| MStop n c p q log :
    move (mk_contract n (Some c) (Some c) p q log) (mk_contract n (Some c) None p q ((c, EVT_PAUSED) :: log))
| MDefault n c p q log :
    move (mk_contract n (Some c) None p q log) (mk_contract n (Some c) (Some c) p q ((c, EVT_RUNNING) :: log)).

Lemma ending_life t : ending t -> life_event LRunning t = Some LEnded.
Proof. unfold ending. intros [-> | [-> | [-> | ->]]]; done. Qed.

Ltac fields := cbn [a_last a_default a_running a_paused a_waiting a_log] in *.

(** Places of the commands that did not move. *)
Ltac unmoved :=
  let i := fresh "i" in let x := fresh "x" in let Hi := fresh "Hi" in let Hx := fresh "Hx" in
  intros i x Hi Hx; destruct Hx; fields;
  repeat match goal with
  | H : _ ∈ ids (_ :: _) |- _ => cbn [map sequence_id] in H
  | H : _ ∉ ids (_ :: _) |- _ => cbn [map sequence_id] in H
  | H : _ ∈ _ :: _ |- _ => apply elem_of_cons in H as [? | H]; [congruence|]
  | H : _ ∉ _ :: _ |- _ => apply not_elem_of_cons in H as [? H]
  end;
  [ apply is_new; fields; lia
  | apply is_waiting; fields; eauto using ids_drop
  | apply is_running; fields; congruence
  | apply is_paused; fields; try apply elem_of_cons; auto
  | apply is_gone; fields;
    [lia | intros ?; eauto using ids_drop_other | congruence | rewrite ?elem_of_cons; intuition congruence ] ].

(** The place of the command that moved: the place it had excludes the others. *)
Ltac moved Hac H0 :=
  let x := fresh "x" in let Hx := fresh "Hx" in let Hne := fresh "Hne" in
  intros x Hx Hne; destruct Hx; fields; try done; exfalso;
  first
    [ lia | congruence
    | match goal with H : _ ∈ ids (drop_id _ _) |- _ => by eapply ids_drop_self in H end
    | match goal with H : _ ∉ ids (_ :: _) |- _ => by apply H; cbn; apply elem_of_cons; left end
    | match goal with H : _ ∉ _ :: _ |- _ => by apply H; apply elem_of_cons; left end
    | match type of Hac with accounted ?A =>
        match goal with
        | H : ~ (_ < _ <= _) |- _ => by pose proof (one_place _ _ _ _ Hac Hne H0 (is_new A _ H))
        | H : _ ∈ ids _ |- _ => by pose proof (one_place _ _ _ _ Hac Hne H0 (is_waiting A _ H))
        | H : _ = Some _ |- _ => by pose proof (one_place _ _ _ _ Hac Hne H0 (is_running A _ H))
        | H : _ ∈ _ |- _ => by pose proof (one_place _ _ _ _ Hac Hne H0 (is_paused A _ H))
        end
      end ].

Ltac by_move Hac H0 :=
  eapply (accounted_moved _ _ _ _ _ _ Hac); [reflexivity | reflexivity | exact H0 | first [reflexivity | by apply ending_life] | moved Hac H0 | unmoved].

Lemma consistent_submit n d r p q log prio :
  consistent (mk_contract n d r p q log) ->
  consistent (mk_contract (n + 1) d r p (mk_element prio (n + 1) :: q) ((n + 1, EVT_QUEUED) :: log)).
Proof.
  intros [Hl Hd Hres Hq Hp Hac]; fields.
  assert (placed (mk_contract n d r p q log) (n + 1) LNew) as H0 by (apply is_new; fields; lia).
  constructor; fields; [lia | | | | done |].
  - intros i Hi. apply Hd in Hi. lia.
  - intros i Hi. pose proof (Hd i Hi). apply Hres in Hi as [? ?]. cbn. rewrite not_elem_of_cons. intuition lia.
  - cbn. apply NoDup_cons. split; [|done]. intros Hin.
    destruct (decide (d = Some (n + 1))) as [E | E]; [apply Hd in E; lia|].
    by pose proof (one_place _ _ _ _ Hac E H0 (is_waiting (mk_contract n d r p q log) _ Hin)).
  - by_move Hac H0.
Qed.

(** The moves that keep [a_last] and [a_default]: what is left is the queue, the
    stack and the accounts. *)
Lemma consistent_rest n d r p q log r' p' q' log' :
  consistent (mk_contract n d r p q log) ->
  (forall i, i ∈ ids q' -> i ∈ ids q) -> NoDup (ids q') ->
  (forall i, i ∈ p' -> i ∈ p \/ d <> Some i) -> NoDup p' ->
  accounted (mk_contract n d r' p' q' log') ->
  consistent (mk_contract n d r' p' q' log').
Proof.
  intros [Hl Hd Hres Hq Hp Hac] Hq' Hnq Hp' Hnp Hac'; fields. constructor; fields; try done.
  intros i Hi. destruct (Hres i Hi). split; [by intros ?%Hq'|]. by intros [? | ?]%Hp'.
Qed.

Lemma consistent_move a a' : consistent a -> move a a' -> consistent a'.
Proof.
  intros Ha Hs. destruct Hs; [by apply consistent_submit | ..]; pose proof Ha as [Hl Hd Hres Hq Hp Hac]; fields;
    apply (consistent_rest _ _ _ _ _ _ _ _ _ _ Ha); try done; eauto using NoDup_drop, ids_drop.
  - assert (Hj := is_waiting (mk_contract n d r p q log) i H). assert (life_event LQueued t = Some LEnded) as Hlife by (by destruct H0; subst).
    eapply (accounted_moved _ _ _ _ _ _ Hac); [reflexivity | reflexivity | exact Hj | exact Hlife | moved Hac Hj | unmoved].
  - intros i Hi. left. by apply elem_of_cons; right.
  - by apply NoDup_cons in Hp as [? ?].
  - apply NoDup_cons in Hp as [? ?].
    assert (Hj := is_paused (mk_contract n d r (x :: p) q log) x ltac:(cbn; apply elem_of_cons; by left)). by_move Hac Hj.
  - assert (Hj := is_waiting (mk_contract n d None p q log) i H). by_move Hac Hj.
  - intros i [-> | ?]%elem_of_cons; auto.
  - apply NoDup_cons. split; [|done]. intros Hin.
    assert (Hj := is_running (mk_contract n d (Some c) p q log) c eq_refl).
    by pose proof (one_place _ _ _ _ Hac H Hj (is_paused (mk_contract n d (Some c) p q log) _ Hin)).
  - assert (Hj := is_running (mk_contract n d (Some c) p q log) c eq_refl). by_move Hac Hj.
  - assert (Hj := is_running (mk_contract n d (Some c) p q log) c eq_refl). by_move Hac Hj.
  - intros i Hi. left. by apply elem_of_cons; right.
  - by apply NoDup_cons in Hp as [? ?].
  - apply NoDup_cons in Hp as [? ?].
    assert (Hj := is_paused (mk_contract n d None (x :: p) q log) x ltac:(cbn; apply elem_of_cons; by left)). by_move Hac Hj.
  - eapply accounted_default; [exact Hac | done.. | unmoved].
  - eapply accounted_default; [exact Hac | done.. | unmoved].
Qed.

Lemma internal_moves a a' : internal_step a a' -> rtc move a a'.
Proof.
  destruct 1; try match goal with H : top _ = Some _ |- _ => apply top_id in H end;
    first [ by apply rtc_once; constructor; auto
          | by eapply rtc_l; [first [by apply MPause | by apply MEnd | by apply MStop] | apply rtc_once; constructor] ].
Qed.

Lemma spec_moves a a' : spec_step a a' -> rtc move a a'.
Proof. destruct 1; [apply rtc_once; constructor | by apply internal_moves]. Qed.

Lemma consistent_step a a' : consistent a -> spec_step a a' -> consistent a'.
Proof. intros Ha Hs%spec_moves. induction Hs; eauto using consistent_move. Qed.

Lemma consistent_steps a a' : consistent a -> rtc spec_step a a' -> consistent a'.
Proof. intros Ha Hs. induction Hs; eauto using consistent_step. Qed.

(** The default command is never announced as queued. *)
Definition unqueued (a : contract) : Prop := forall i, a_default a = Some i -> (i, EVT_QUEUED) ∉ a_log a.

Lemma unqueued_move a a' : consistent a -> move a a' -> unqueued a -> unqueued a'.
Proof.
  intros Hc Hm Hu. destruct Hm; intros j Hj; fields; specialize (Hu j Hj); fields; rewrite not_elem_of_cons; (split; [|done]);
    try congruence.
  - intros [= ->]. apply (con_default _ Hc) in Hj. fields. lia.
  - destruct H0; congruence.
  - destruct H as [-> | [-> | [-> | ->]]]; congruence.
Qed.

Lemma unqueued_steps a a' : consistent a -> rtc spec_step a a' -> unqueued a -> unqueued a'.
Proof.
  intros Hc Hs. induction Hs as [|a b c H1 _ IH]; [done|]. intros Hu. apply IH; [by eapply consistent_step|].
  apply spec_moves in H1. clear IH. induction H1 as [|x y z Hxy _ IH']; [done|].
  apply IH'; [by eapply consistent_move | by eapply unqueued_move].
Qed.

Lemma internal_spec a a' : rtc internal_step a a' -> rtc spec_step a a'.
Proof. apply rtc_subrel. intros ? ?. apply SInternal. Qed.

Lemma internal_last a a' : rtc internal_step a a' -> a_last a' = a_last a.
Proof. induction 1 as [|a b c Hs _ IH]; [done|]. rewrite IH. by destruct Hs. Qed.

(** Where a command is. *)
Definition whereabouts (a : contract) (i : Z) : life :=
  if decide (i ∈ ids (a_waiting a)) then LQueued
  else if decide (a_running a = Some i) then LRunning
  else if decide (i ∈ a_paused a) then LPaused
  else if decide (0 < i <= a_last a) then LEnded
  else LNew.

Lemma whereabouts_phase a i : consistent a -> a_default a <> Some i -> phase (a_log a) i = Some (whereabouts a i).
Proof.
  intros Ha Hd. apply (con_accounted _ Ha); [|done]. unfold whereabouts.
  repeat case_decide; by constructor.
Qed.
