(* ===== verification/SandboxSignals.v ===== *)
(** * The signals of the sandbox's threads (batch_command/BatchCommandSandbox, thread/WaitSemaphore)

    What every step of the sandbox does to the two semaphores: a thread that
    waits sleeps on a signal that was given only if the signal came between the
    test of the flag and the sleep. *)
From S2P Require Import Prelude Semaphore Command Sandbox.

(** The flag of a semaphore and where the thread that waits on it is in [wait]. *)
Definition semaphore : Type := bool * wait_phase.

(** The six fields through which the threads wait for each other. *)
Record threads := mk_threads { t_check : semaphore; t_run : semaphore; t_checker : checker_pc; t_runner : runner_pc }.
Definition threads_of (s : sandbox) : threads :=
  mk_threads (next_check s, next_check_wait s) (pause s, pause_wait s) (checker s) (runner s).

(** What the other thread and the owner, and the waiting thread, do to a semaphore. *)
Definition given (x x' : semaphore) : Prop := x' = x \/ x' = (true, signalled (snd x)).
Definition waited (x x' : semaphore) : Prop :=
  x' = (false, snd x) \/ exists w, wait_loop (fst x) (snd x) = Some (Some w) /\ x' = (fst x, w).

(** Between the test and the sleep a signal is given. *)
Definition lost (x x' : semaphore) : Prop := x = (false, WLock) /\ fst x' = true.

(** A thread that has passed the test has not been signalled since. *)
Definition awake (x : semaphore) : Prop := snd x <> WTest -> fst x = false.

Lemma awake_given x x' : awake x -> given x x' -> ~ lost x x' -> awake x'.
Proof.
  unfold awake, lost. intros Hx [-> | ->] Hl; [done|]. destruct x as [b []]; cbn in *; try done.
  destruct Hl. by rewrite Hx.
Qed.

Lemma awake_waited x x' : awake x -> waited x x' -> awake x'.
Proof.
  unfold awake. intros Hx [-> | (w & Hw & ->)]; cbn; [done|]. destruct x as [b []]; cbn in *; simplify_eq; [|auto].
  destruct b; by simplify_eq.
Qed.

(** ** Every step of the sandbox *)

(** Takes apart the computation of a state. *)
Ltac unbind :=
  repeat match goal with
  | H : mbind _ _ = Ret _ |- _ => apply bind_inv in H as (? & ? & H)
  | H : mret _ = Ret _ |- _ => injection H as H
  | H : Ret _ = Ret _ |- _ => injection H as H
  | H : context [match ?x with _ => _ end] |- _ => destruct x eqn:?
  end; simplify_eq.

Lemma update_threads id f s s' : update id f s = Ret s' -> threads_of s' = threads_of s.
Proof. unfold update. intros H. unbind. done. Qed.

Lemma install_threads h o s s' : installHandler h o s = Ret s' -> threads_of s' = threads_of s.
Proof. unfold installHandler. intros H. destruct o; unbind; done. Qed.

Lemma remove_threads h id s s' : removeHandler h id s = Ret s' -> threads_of s' = threads_of s.
Proof. unfold removeHandler. intros H. unbind; done. Qed.

Lemma functor_threads f h s s' : call_functor f h s = Ret s' -> threads_of s' = threads_of s.
Proof. destruct f; cbn; [apply update_threads | by intros [= ->]]. Qed.

Lemma consume_run_threads owns id s s' : consumeRunCmdOps owns id s = Ret s' -> threads_of s' = threads_of s.
Proof.
  unfold consumeRunCmdOps. destruct owns; [|by intros [= ->]]. intros (t & Ht & [= <-])%bind_inv.
  change (threads_of t = threads_of s). revert Ht.
  assert (forall ops (o : outcome sandbox),
    (forall u, o = Ret u -> threads_of u = threads_of s) ->
    fold_left (fun o op => s ← o; match op with
      | RCFOTerminate => update id (fun c => if sticky c then c else setRunningProperty c RP_END) s end) ops o = Ret t ->
    threads_of t = threads_of s) as H.
  { induction ops as [|[] ops IH]; intros o Ho; [apply Ho|]. cbn. apply IH. intros u (v & Hv & Hu)%bind_inv.
    rewrite (update_threads _ _ _ _ Hu). auto. }
  apply H. by intros u [= ->].
Qed.

Lemma clear_threads n s : threads_of (clear_submitted n s) = threads_of s.
Proof. revert s. induction n as [|n IH]; intros s; [done|]. cbn. case_match; [by rewrite IH | done]. Qed.

Lemma consume_wait_threads owns s : threads_of (consumeWaitCmdOps owns s) = threads_of s.
Proof.
  unfold consumeWaitCmdOps. destruct owns; [|done].
  change (threads_of (fold_left (fun s op => match op with
    | WCFOClearQueue => clear_submitted (length (command_submitted_queue s)) s end) (stack_wait_cmd_op s) s) = threads_of s).
  generalize (stack_wait_cmd_op s) as ops. intros ops. revert s.
  induction ops as [|[] ops IH]; intros s; [done|]. cbn. by rewrite IH, clear_threads.
Qed.

(** A step of the scheduler, of the checker and of the owner. *)
Lemma run_step_threads i s s' :
  run_step i s = Ret s' -> given (t_check (threads_of s)) (t_check (threads_of s')) /\ t_run (threads_of s') = t_run (threads_of s) /\
    checker s' = checker s.
Proof.
  unfold run_step. intros H. destruct (current_executing_command s) as [id|].
  - cut (exists t, s' = set_runner (RAfter id) t /\ threads_of t = threads_of s).
    { intros (t & -> & E). injection E as E1 E2 E3 E4 E5 E6. unfold given; cbn. split_and!; [left | ..]; congruence. }
    apply bind_inv in H as (s1 & H1 & H). apply bind_inv in H as (s2 & H2 & H). cbv zeta in H.
    apply bind_inv in H as (s3 & H3 & H). apply bind_inv in H as (s4 & H4 & H). apply bind_inv in H as (s5 & H5 & [= <-]).
    eexists; split; [reflexivity|]. apply update_threads in H5, H2. apply functor_threads in H4, H3. apply consume_run_threads in H1.
    rewrite H5. etrans; [exact H4|]. rewrite H3, <- H1, <- H2. by case_match.
  - unbind; unfold given; cbn; auto.
Qed.

Lemma run_after_threads now id s s' :
  run_after now id s = Ret s' -> given (t_check (threads_of s)) (t_check (threads_of s')) /\ t_run (threads_of s') = t_run (threads_of s) /\
    checker s' = checker s.
Proof. unfold run_after. intros H. unbind; unfold given; cbn; auto. Qed.

(** What a step of the checker does to the scheduler. *)
Definition checker_step (s s' : sandbox) : Prop :=
  t_check (threads_of s') = t_check (threads_of s) /\ given (t_run (threads_of s)) (t_run (threads_of s')) /\ runner s' = runner s.

Lemma checker_quiet k s t : threads_of t = threads_of s -> checker_step s (set_checker k t).
Proof. intros E. injection E as E1 E2 E3 E4 E5 E6. unfold checker_step, given; cbn. split_and!; [ | left | ]; congruence. Qed.
Lemma checker_signals k s t : threads_of t = threads_of s -> checker_step s (set_checker k (signal_run t)).
Proof. intros E. injection E as E1 E2 E3 E4 E5 E6. unfold checker_step, given; cbn. split_and!; [ | right | ]; congruence. Qed.

Lemma check_have_threads i s s' : check_have i s = Ret s' -> checker_step s s'.
Proof.
  unfold check_have. intros H. destruct (top _) as [e|]; [|done]. destruct (current_executing_command s) as [cur|].
  - apply bind_inv in H as (c & _ & H). apply bind_inv in H as (n & _ & H). apply bind_inv in H as (v & _ & H). cbv zeta in H.
    assert (stack_current i e cur c s = Ret s' -> checker_step s s') as Hstack.
    { unfold stack_current. intros (t & Ht%install_threads & [= <-])%bind_inv. apply checker_signals. rewrite Ht. clear H. by destruct (sticky c). }
    assert (forall v, replace_current i v e cur c s = Ret s' -> checker_step s s') as Hrep.
    { unfold replace_current. intros v' (t & Ht%remove_threads & (u & Hu%install_threads & [= <-])%bind_inv)%bind_inv.
      assert (threads_of u = threads_of s) as E by (rewrite Hu, Ht; unfold fire_end; by repeat case_match).
      clear H. destruct (sticky c); [by apply checker_signals | by apply (checker_signals CTop s (release cur u))]. }
    destruct v; try destruct (sticky c); eauto; injection H as <-; by apply checker_quiet.
  - apply bind_inv in H as (t & Ht%install_threads & [= <-]). by apply (checker_signals CTop s (pop_submitted e t)).
Qed.

Lemma check_empty_threads i s s' : check_empty i s = Ret s' -> checker_step s s'.
Proof. unfold check_empty. intros H. unbind; by apply checker_quiet. Qed.

Lemma check_ended_threads i s s' : check_ended i s = Ret s' -> checker_step s s'.
Proof.
  unfold check_ended. intros H. destruct (current_executing_command s) as [cur|]; [|done].
  apply bind_inv in H as (c & _ & H). cbv zeta in H.
  assert (threads_of (fire_end cur (ended_event c) (set_current_executing_command None s)) = threads_of s) as E0
    by (unfold fire_end; by repeat case_match).
  destruct (command_stack _) as [|next rest].
  - apply bind_inv in H as (t & Ht & [= <-]). apply checker_quiet. rewrite <- E0. destruct (sticky c); [by injection Ht as <-|].
    apply bind_inv in Ht as (u & Hu%remove_threads & (w & Hw%install_threads & [= <-])%bind_inv). transitivity (threads_of w); [done | congruence].
  - apply bind_inv in H as (t & Ht%remove_threads & (u & Hu%install_threads & [= <-])%bind_inv).
    assert (threads_of u = threads_of s) as E by congruence.
    destruct (sticky c); [by apply (checker_signals CSticky s (set_stacked_commands (u32 (zlen rest)) (set_command_stack rest u))) |
                         by apply (checker_signals CSticky s (release cur (set_stacked_commands (u32 (zlen rest)) (set_command_stack rest u))))].
Qed.

Lemma check_sticky_threads h s s' : check_sticky h s = Ret s' -> checker_step s s'.
Proof.
  unfold check_sticky. intros (t & Ht & [= <-])%bind_inv. repeat case_match; try (injection Ht as <-; by apply checker_quiet).
  apply bind_inv in Ht as (c & _ & Ht). case_match; [|injection Ht as <-; by apply checker_quiet].
  apply bind_inv in Ht as (u & Hu%install_threads & [= <-]). by apply checker_signals.
Qed.

Lemma on_current_threads f s s' :
  on_current f s = Ret s' -> threads_of s' = threads_of s \/ exists t, s' = signal_run t /\ threads_of t = threads_of s.
Proof.
  unfold on_current. destruct (current_executing_command s); [|intros [= ->]; auto].
  intros (t & Ht%update_threads & [= <-])%bind_inv. eauto.
Qed.

Definition in_wait_check (s : sandbox) : Prop := checker s = CWait \/ checker s = CIdle.
Definition in_wait_run (s : sandbox) : Prop := runner s = RPause.

(** A semaphore is signalled, or the thread that waits on it makes a step; a thread
    leaves [wait] from the test. *)
Record moves (s s' : sandbox) : Prop := mk_moves {
  mo_check : given (next_check s, next_check_wait s) (next_check s', next_check_wait s') /\
      (checker s' = checker s \/ ~ in_wait_check s) \/
    waited (next_check s, next_check_wait s) (next_check s', next_check_wait s') /\
      (in_wait_check s' \/ next_check_wait s' = next_check_wait s /\ (in_wait_check s -> next_check_wait s = WTest));
  mo_run : given (pause s, pause_wait s) (pause s', pause_wait s') /\ (runner s' = runner s \/ ~ in_wait_run s) \/
    waited (pause s, pause_wait s) (pause s', pause_wait s') /\
      (in_wait_run s' \/ pause_wait s' = pause_wait s /\ (in_wait_run s -> pause_wait s = WTest));
}.

Lemma given_signal b w : given (b, w) (true, signalled w).
Proof. by right. Qed.
Lemma given_same x : given x x.
Proof. by left. Qed.

Lemma owner_moves s s' :
  given (next_check s, next_check_wait s) (next_check s', next_check_wait s') -> given (pause s, pause_wait s) (pause s', pause_wait s') ->
  checker s' = checker s -> runner s' = runner s -> moves s s'.
Proof. intros. constructor; auto. Qed.

Lemma runner_moves s s' :
  ~ in_wait_run s -> given (t_check (threads_of s)) (t_check (threads_of s')) /\ t_run (threads_of s') = t_run (threads_of s) /\
    checker s' = checker s -> moves s s'.
Proof. intros Hw (H1 & H2 & H3). constructor; left; [by auto | split; [by left | auto]]. Qed.

Lemma checker_moves s s' : ~ in_wait_check s -> checker_step s s' -> moves s s'.
Proof. intros Hw (H1 & H2 & H3). constructor; left; [split; [by left | auto] | by auto]. Qed.

Lemma current_moves f s s' : Some <$> on_current f s = Ret (Some s') -> moves s s'.
Proof.
  intros H. destruct (on_current f s) as [t| | |] eqn:E; try done. injection H as ->.
  apply on_current_threads in E as [[= E1 E2 E3 E4 E5 E6] | (t & -> & [= E1 E2 E3 E4 E5 E6])]; apply owner_moves; cbn;
    rewrite ?E1, ?E2, ?E3, ?E4, ?E5, ?E6; auto using given_signal, given_same.
Qed.

Lemma fmap_some {A} (o : outcome A) a : Some <$> o = Ret (Some a) -> o = Ret a.
Proof. destruct o; cbn; congruence. Qed.

Lemma wait_check_moves next s s' : in_wait_check s -> wait_check next s = Some s' -> moves s s'.
Proof.
  intros Hk H. unfold wait_check in H.
  constructor; repeat case_match; simplify_eq; first [left; split; [by left | by auto] | right];
    (split; [unfold waited; cbn; by eauto|]); auto.
  right. split; [done|]. intros _. by destruct (next_check_wait s); simplify_eq/=.
Qed.

Lemma step_moves l s s' : step l s = Ret (Some s') -> moves s s'.
Proof.
  destruct l; cbn [step]; intros H.
  - destruct (runner s) eqn:Hr; try done. apply runner_moves; [by unfold in_wait_run; rewrite Hr|].
    by apply (run_step_threads i), fmap_some.
  - destruct (runner s) eqn:Hr; try done. apply runner_moves; [by unfold in_wait_run; rewrite Hr|].
    by apply (run_after_threads now id), fmap_some.
  - destruct (runner s) eqn:Hr; try done; injection H as H.
    + subst s'. constructor; [left; split; [by left | auto] |]. right. unfold waited, in_wait_run. rewrite Hr. cbn. split; [auto | by right].
    + unfold wait_run in H. constructor; repeat case_match; simplify_eq; first [left; split; [by left | by auto] | right];
        (split; [unfold waited; cbn; by eauto|]); unfold in_wait_run; cbn; auto.
      right. split; [done|]. intros _. by destruct (pause_wait s); simplify_eq/=.
  - destruct (checker s) eqn:Hk; try done; (apply checker_moves; [by unfold in_wait_check; rewrite Hk; intros [?|?]|]).
    + injection H as <-. case_match; [by apply checker_quiet | apply checker_quiet, consume_wait_threads].
    + by apply (check_have_threads i), fmap_some.
    + by apply (check_empty_threads i), fmap_some.
    + by apply (check_ended_threads i), fmap_some.
    + by apply (check_sticky_threads (k_sticky i)), fmap_some.
  - destruct (checker s) eqn:Hk; try done; injection H as H.
    1, 2: by eapply wait_check_moves; [unfold in_wait_check; auto |].
    subst s'. constructor; [|left; split; [by left | auto]]. right. unfold waited, in_wait_check. rewrite Hk. cbn.
    split; [auto|]. right. split; [done | by intros [?|?]].
  - injection H as <-. unfold enqueueCommand. destruct deinit; apply owner_moves; cbn; auto using given_signal, given_same.
  - injection H as <-. apply owner_moves; cbn; auto using given_same.
  - injection H as <-. apply owner_moves; cbn; auto using given_signal, given_same.
  - by eapply current_moves.
  - by eapply current_moves.
  - by eapply current_moves.
  - injection H as <-. apply owner_moves; cbn; auto using given_signal.
Qed.

(** ** Runs in which no signal is lost *)

(** A step gives a signal to a thread that is between the test and the sleep. *)
Definition loses_signal (s s' : sandbox) : Prop :=
  lost (next_check s, next_check_wait s) (next_check s', next_check_wait s') /\ in_wait_check s \/
  lost (pause s, pause_wait s) (pause s', pause_wait s') /\ in_wait_run s.

(** No thread sleeps on a signal that was given, and outside of [wait] a thread is
    where [wait] starts. *)
Record attentive (s : sandbox) : Prop := mk_attentive {
  at_check : awake (next_check s, next_check_wait s);
  at_run : awake (pause s, pause_wait s);
  at_check_pc : next_check_wait s <> WTest -> in_wait_check s;
  at_run_pc : pause_wait s <> WTest -> in_wait_run s;
}.

Lemma sandbox_attentive_step l s s' : attentive s -> step l s = Ret (Some s') -> ~ loses_signal s s' -> attentive s'.
Proof.
  intros [Hc Hr Hcp Hrp] [Mc Mr]%step_moves Hl. unfold loses_signal in Hl.
  assert (forall x x' : semaphore, given x x' -> snd x' <> WTest -> snd x <> WTest) as Hkeep.
  { intros [b w] x' [-> | ->]; [done|]. by destruct w. }
  constructor.
  - destruct Mc as [[Hg _] | [Hw _]]; [|exact (awake_waited _ _ Hc Hw)]. eapply awake_given; [exact Hc | exact Hg|].
    intros Hlo. apply Hl. left. split; [done|]. apply Hcp. destruct Hlo as [[= _ E] _]. congruence.
  - destruct Mr as [[Hg _] | [Hw _]]; [|exact (awake_waited _ _ Hr Hw)]. eapply awake_given; [exact Hr | exact Hg|].
    intros Hlo. apply Hl. right. split; [done|]. apply Hrp. destruct Hlo as [[= _ E] _]. congruence.
  - intros Hn. destruct Mc as [[Hg Hk] | [_ [? | [E Ht]]]]; [|assumption|].
    + specialize (Hcp (Hkeep _ _ Hg Hn)). destruct Hk as [E | ?]; [|done]. unfold in_wait_check. by rewrite E.
    + rewrite E in Hn. exfalso. auto.
  - intros Hn. destruct Mr as [[Hg Hk] | [_ [? | [E Ht]]]]; [|assumption|].
    + specialize (Hrp (Hkeep _ _ Hg Hn)). destruct Hk as [E | ?]; [|done]. unfold in_wait_run. by rewrite E.
    + rewrite E in Hn. exfalso. auto.
Qed.

Lemma sandbox_attentive_initial d : attentive (initial d).
Proof. by destruct d. Qed.

(** Along a run either no signal is lost or there is a first one that is. *)
Lemma sandbox_attentive_run ls s s' :
  attentive s -> run ls s = Ret (Some s') ->
  attentive s' \/ exists ls1 l ls2 t t', ls = ls1 ++ l :: ls2 /\ run ls1 s = Ret (Some t) /\ step l t = Ret (Some t') /\ loses_signal t t'.
Proof.
  revert s. induction ls as [|l ls IH]; intros s Ha Hrun; cbn [run] in Hrun; [injection Hrun as ->; by left|].
  apply bind_inv in Hrun as ([t|] & Ht & Hrun); [|done].
  assert (loses_signal s t \/ ~ loses_signal s t) as [Hl | Hl].
  { unfold loses_signal, lost, in_wait_check, in_wait_run. destruct (next_check s), (next_check_wait s), (next_check t), (pause s), (pause_wait s), (pause t), (checker s), (runner s); cbn; intuition discriminate. }
  - right. exists [], l, ls, s, t. done.
  - destruct (IH t) as [? | (ls1 & l' & ls2 & u & u' & -> & Hr & Hs & Hlo)]; [by eapply sandbox_attentive_step | exact Hrun | by left |].
    right. exists (l :: ls1), l', ls2, u, u'. split_and!; try done. cbn [run]. by rewrite Ht.
Qed.
