(* ===== verification/SandboxRefine.v ===== *)
(** * The sandbox keeps its contract (batch_command/BatchCommandSandbox)

    The invariants of the sandbox and of its two threads, and the simulation:
    every step of the sandbox is a sequence of steps of the contract of
    SandboxSpec.v. *)
From S2P Require Import Prelude Command Sandbox SandboxSpec.

(** ** What a run of a handler can change *)

(** The values of [RunningPropertyType] and of [SubmissionRuleType]. *)
Definition property_ok (p : Z) : Prop := 0 <= p <= 4.
Definition rule_ok (r : Z) : Prop := 0 <= r <= 2.

Definition agree (c c' : BatchCommand) : Prop :=
  sticky c' = sticky c /\ handlers c' = handlers c /\ submissionRule c' = submissionRule c /\
  (property_ok (runningProperty c) -> property_ok (runningProperty c')).

(** Not brought back once it has ended. *)
Definition runs (c c' : BatchCommand) : Prop := agree c c' /\ (2 <= runningProperty c -> 2 <= runningProperty c').

Ltac same_command := unfold runs, agree; split_and!; (done || intros ?; done).

#[export] Instance agree_refl : Reflexive agree.
Proof. intros c. by split_and!. Qed.
#[export] Instance agree_trans : Transitive agree.
Proof. intros x y z (? & ? & ? & ?) (? & ? & ? & ?). split_and!; try congruence. auto. Qed.
#[export] Instance runs_refl : Reflexive runs.
Proof. intros c. by split. Qed.
#[export] Instance runs_trans : Transitive runs.
Proof. intros x y z [? ?] [? ?]. split; [by etrans | auto]. Qed.

Definition act_ok (low : Z) (a : act) : Prop :=
  match a with ASetRunningProperty p => low <= p <= 4 | _ => True end.
Definition run_ok (h : handler_run) : Prop := Forall (act_ok 0) (acts h).
Definition timeout_ok (h : timeout_run) : Prop := Forall (act_ok 2) (t_acts h).

Lemma agree_property c p : property_ok p -> agree c (setRunningProperty c p).
Proof.
  intros Hp. unfold setRunningProperty. case_match; [done|]. split_and!; try done. intros _. cbn.
  unfold property_ok, u8 in *. rewrite Z.mod_small; lia.
Qed.

Lemma runs_property c p : 2 <= p <= 4 -> runs c (setRunningProperty c p).
Proof.
  intros Hp. split; [by apply agree_property; unfold property_ok; lia|].
  unfold setRunningProperty. case_match; [done|]. cbn. unfold u8. rewrite Z.mod_small; lia.
Qed.

Lemma runs_features c f : runs c (with_features c f).
Proof. same_command. Qed.

Lemma runs_fault c code p : 2 <= p <= 4 -> runs c (SET_FAULT c code p).
Proof. intros Hp. etrans; [by apply (runs_property c p)|]. same_command. Qed.

Lemma agree_act c a : act_ok 0 a -> agree c (do_act c a).
Proof.
  destruct a; cbn; [by apply agree_property | intros _..].
  - unfold setFeatures. repeat case_match; first [done | apply runs_features].
  - unfold clearFeatures. case_match; [done | apply runs_features].
Qed.

Lemma runs_act c a : act_ok 2 a -> runs c (do_act c a).
Proof.
  destruct a; cbn; [by apply runs_property | intros _..].
  - unfold setFeatures. repeat case_match; first [done | apply runs_features].
  - unfold clearFeatures. case_match; [done | apply runs_features].
Qed.

Lemma agree_acts l c : Forall (act_ok 0) l -> agree c (fold_left do_act l c).
Proof. intros Hl. revert c. induction Hl as [|a l Ha Hl IH]; intros c; [done|]. cbn. etrans; [by apply agree_act | done]. Qed.
Lemma runs_acts l c : Forall (act_ok 2) l -> runs c (fold_left do_act l c).
Proof. intros Hl. revert c. induction Hl as [|a l Ha Hl IH]; intros c; [done|]. cbn. etrans; [by apply runs_act | done]. Qed.

Lemma runs_catch c e : runs c (catch_handler c e).
Proof. destruct e as [[]|]; cbn; try done; apply runs_fault; unfold RP_FAULT, RP_FATAL_FAULT; lia. Qed.

Lemma runs_functor c h : run_ok h -> runs c (run_functor c h).
Proof.
  intros Hh. unfold run_functor. destruct (runningProperty c <? RP_END) eqn:E; [|done].
  apply Z.ltb_lt in E. split; [|unfold RP_END in E; lia].
  etrans; [by apply agree_acts | apply runs_catch].
Qed.

Lemma runs_post c t h : timeout_ok h -> runs c (commandPost c t h).
Proof.
  intros Hh. unfold commandPost. repeat case_match; try done;
    (etrans; [by apply runs_acts|]); first [done | apply runs_fault; unfold RP_FAULT; lia].
Qed.

Lemma agree_set c h : run_ok (set_handler h) -> agree c (run_set_handler c h).
Proof.
  intros Hh. unfold run_set_handler. case_match; [|done].
  transitivity (with_set_time c (set_time h)); [same_command|].
  etrans; [by apply agree_acts|]. destruct (raised (set_handler h)); [apply runs_catch | same_command].
Qed.

(** ** The commands that are allocated *)

Definition evolves (R : BatchCommand -> BatchCommand -> Prop) (m m' : gmap Z BatchCommand) : Prop :=
  forall i, option_Forall2 R (m !! i) (m' !! i).

#[export] Instance evolves_refl R : Reflexive R -> Reflexive (evolves R).
Proof. intros HR m i. destruct (m !! i); by constructor. Qed.
#[export] Instance evolves_trans R : Transitive R -> Transitive (evolves R).
Proof. intros HR x y z H1 H2 i. specialize (H1 i); specialize (H2 i). destruct H1; inversion H2; constructor. by etrans. Qed.

Lemma evolves_insert (R : relation BatchCommand) m i c c' : Reflexive R -> m !! i = Some c -> R c c' -> evolves R m (<[i := c']> m).
Proof.
  intros ? Hi Hc j. destruct (decide (i = j)) as [<- | ?].
  - rewrite lookup_insert_eq, Hi. by constructor.
  - rewrite lookup_insert_ne by done. destruct (m !! j); by constructor.
Qed.

Lemma evolves_lookup R m m' i c : evolves R m m' -> m !! i = Some c -> exists c', m' !! i = Some c' /\ R c c'.
Proof. intros Hm Hi. specialize (Hm i). rewrite Hi in Hm. inversion Hm; eauto. Qed.

Lemma evolves_back R m m' i c' : evolves R m m' -> m' !! i = Some c' -> exists c, m !! i = Some c /\ R c c'.
Proof. intros Hm Hi. specialize (Hm i). rewrite Hi in Hm. inversion Hm; eauto. Qed.

Lemma evolves_agree m m' : evolves runs m m' -> evolves agree m m'.
Proof. intros Hm i. specialize (Hm i). destruct Hm; constructor. by destruct H. Qed.

(** A functor points to an allocated command that implements its handler and
    that has been installed. *)
Definition implements (bit : Z) (c : BatchCommand) : Prop := bit = 0 \/ has_bit (handlers c) bit = true.
Definition live (m : gmap Z BatchCommand) (q : list element) (bit : Z) (f : option Z) : Prop :=
  forall i, f = Some i -> (i ∉ ids q) /\ exists c, m !! i = Some c /\ implements bit c.

Definition command_ok (c : BatchCommand) : Prop :=
  property_ok (runningProperty c) /\ rule_ok (submissionRule c) /\ 0 <= handlers c.

Record owned (m : gmap Z BatchCommand) (d r : option Z) (p : list Z) (q : list element) : Prop := mk_owned {
  own_dom i : is_Some (m !! i) <-> i ∈ ids q \/ r = Some i \/ i ∈ p \/ d = Some i;
  own_sticky i c : m !! i = Some c -> (sticky c = true <-> d = Some i);
  own_ok i c : m !! i = Some c -> command_ok c;
}.

Lemma owned_evolves m m' d r p q : evolves agree m m' -> owned m d r p q -> owned m' d r p q.
Proof.
  intros Hm [Hd Hs Ho]. constructor.
  - intros i. rewrite <- Hd. specialize (Hm i). destruct Hm; by rewrite ?is_Some_alt.
  - intros i c Hc. destruct (evolves_back _ _ _ _ _ Hm Hc) as (c0 & H0 & E & _). rewrite E. eauto.
  - intros i c Hc. destruct (evolves_back _ _ _ _ _ Hm Hc) as (c0 & H0 & E1 & E2 & E3 & E4).
    destruct (Ho _ _ H0) as (? & ? & ?). unfold command_ok. rewrite E2, E3. auto.
Qed.

Lemma live_evolves m m' q b f : evolves agree m m' -> live m q b f -> live m' q b f.
Proof.
  intros Hm Hl i Hi. destruct (Hl i Hi) as (Hq & c & Hc & Hb). split; [done|].
  destruct (evolves_lookup _ _ _ _ _ Hm Hc) as (c' & Hc' & _ & E & _). exists c'. unfold implements in *. by rewrite E.
Qed.

Lemma live_queue m q q' b f : (forall i, i ∈ ids q' -> i ∈ ids q) -> live m q b f -> live m q' b f.
Proof. intros Hq Hl i Hi. destruct (Hl i Hi) as (? & ?). split; auto. Qed.

Lemma live_release m q b f c : live m q b f -> f <> Some c -> live (delete c m) q b f.
Proof.
  intros Hl Hf i Hi. destruct (Hl i Hi) as (Hq & x & Hx & Hb). split; [done|]. exists x.
  rewrite lookup_delete_ne by congruence. done.
Qed.

(** Moves that keep the set of the commands. *)
Lemma owned_same m d r p q r' p' q' :
  owned m d r p q ->
  (forall i, i ∈ ids q' \/ r' = Some i \/ i ∈ p' \/ d = Some i <-> i ∈ ids q \/ r = Some i \/ i ∈ p \/ d = Some i) ->
  owned m d r' p' q'.
Proof. intros [Hd Hs Ho] Hi. constructor; [|done..]. intros i. by rewrite Hd, Hi. Qed.

(** Moves that release a command. *)
Lemma owned_release m d r p q r' p' q' c :
  owned m d r p q -> c ∉ ids q' -> r' <> Some c -> c ∉ p' -> d <> Some c ->
  (forall i, i <> c -> i ∈ ids q' \/ r' = Some i \/ i ∈ p' \/ d = Some i <-> i ∈ ids q \/ r = Some i \/ i ∈ p \/ d = Some i) ->
  owned (delete c m) d r' p' q'.
Proof.
  intros [Hd Hs Ho] H1 H2 H3 H4 Hi. constructor.
  - intros i. destruct (decide (i = c)) as [-> | Hne].
    + rewrite lookup_delete_eq. split; [intros [? ?]; done | tauto].
    + rewrite lookup_delete_ne by done. by rewrite Hd, Hi.
  - intros i x. rewrite lookup_delete_Some. intros [_ ?]. eauto.
  - intros i x. rewrite lookup_delete_Some. intros [_ ?]. eauto.
Qed.

Lemma ids_drop_iff e q i : sequence_id e ∈ ids q -> NoDup (ids q) -> (i ∈ ids q <-> i = sequence_id e \/ i ∈ ids (drop_id (sequence_id e) q)).
Proof.
  intros He Hq. split.
  - intros Hi. destruct (decide (i = sequence_id e)); [by left | right; by apply ids_drop_other].
  - intros [-> | Hi]; [done | by apply ids_drop in Hi].
Qed.

(** ** The invariant *)

Definition view (s : sandbox) : contract :=
  mk_contract (command_sequence_id s) (default_sticky_command s) (current_executing_command s) (command_stack s)
    (command_submitted_queue s) (map (fun e => (e_id e, e_type e)) (events s)).

Definition has_ended (s : sandbox) (i : Z) : Prop := forall c, cmds s !! i = Some c -> 2 <= runningProperty c.

Definition nothing_to_do (s : sandbox) : Prop :=
  command_submitted_queue s = [] /\ command_stack s = [] /\ current_executing_command s = None /\ default_sticky_command s = None.

(** Ownership, and what the program counters of the threads say: the scheduler
    waits for a signal only if the current command has ended, a signal has been
    given since whenever the current command was changed, and both threads wait
    only if there is nothing to do. *)
Record sound (s : sandbox) : Prop := mk_sound {
  so_owned : owned (cmds s) (default_sticky_command s) (current_executing_command s) (command_stack s) (command_submitted_queue s);
  so_acquire : live (cmds s) (command_submitted_queue s) HT_Acquisition (acquire_functor s);
  so_correlate : live (cmds s) (command_submitted_queue s) HT_Correlation (correlation_functor s);
  so_end : live (cmds s) (command_submitted_queue s) 0 (end_functor s);
  so_idle : current_executing_command s = None -> command_stack s = [];
  so_have : checker s = CHave -> command_submitted_queue s <> [];
  so_ended : checker s = CEnded -> exists i, current_executing_command s = Some i /\ has_ended s i;
  so_empty : checker s = CEmpty \/ checker s = CEnded \/ checker s = CSticky -> command_submitted_queue s = [] \/ next_check s = true;
  so_sticky : checker s = CSticky -> runner s = RPause -> pause s = false -> next_check s = false ->
    current_executing_command s = None;
  so_after i : runner s = RAfter i ->
    current_executing_command s = Some i \/ current_executing_command s = None \/ pause s = true;
  so_pause i : runner s = RPause -> pause s = false -> current_executing_command s = Some i -> has_ended s i;
  so_wait : checker s = CWait \/ checker s = CIdle -> runner s = RPause -> pause s = false -> next_check s = false ->
    nothing_to_do s;
  so_done : checker s = CDone \/ runner s = RDone -> schedule_work_flag s = false;
}.

Lemma so_halted s : sound s -> runner s = RDone -> schedule_work_flag s = false.
Proof. intros Hs Hr. apply (so_done _ Hs). by right. Qed.

(** A step of the handlers of the current command. *)
Record ticks (s s' : sandbox) : Prop := mk_ticks {
  ti_cmds : evolves runs (cmds s) (cmds s');
  ti_view : view s' = view s;
  ti_functors : acquire_functor s' = acquire_functor s /\ correlation_functor s' = correlation_functor s /\ end_functor s' = end_functor s;
  ti_threads : checker s' = checker s /\ runner s' = runner s /\ pause s' = pause s /\ next_check s' = next_check s /\
    schedule_work_flag s' = schedule_work_flag s;
}.

#[export] Instance ticks_refl : Reflexive ticks.
Proof. intros s. split; by try reflexivity. Qed.
#[export] Instance ticks_trans : Transitive ticks.
Proof.
  intros x y z [? Hv Hf Ht] [? Hv' Hf' Ht']. split; [by etrans | congruence | destruct_and!; split_and!; congruence..].
Qed.

Lemma ended_ticks s s' i : evolves runs (cmds s) (cmds s') -> has_ended s i -> has_ended s' i.
Proof. intros Hm He c Hc. destruct (evolves_back _ _ _ _ _ Hm Hc) as (c0 & H0 & _ & Hk). auto. Qed.

Lemma sound_ticks s s' : ticks s s' -> sound s -> sound s'.
Proof.
  intros [Hm Hv (Ea & Ec & Ee) (Ek & Er & Ep & En & Ef)] [].
  pose proof (evolves_agree _ _ Hm). injection Hv as _ E1 E2 E3 E4 _.
  constructor; rewrite ?E1, ?E2, ?E3, ?E4, ?Ea, ?Ec, ?Ee, ?Ek, ?Er, ?Ep, ?En, ?Ef; eauto using owned_evolves, live_evolves.
  - intros Hc. destruct (so_ended0 Hc) as (i & ? & ?). eauto using ended_ticks.
  - intros i ? ? ?. eapply ended_ticks; eauto.
  - unfold nothing_to_do in *. rewrite E1, E2, E3, E4. auto.
Qed.

Lemma update_ticks s id f : is_Some (cmds s !! id) -> (forall c, runs c (f c)) -> exists s', update id f s = Ret s' /\ ticks s s'.
Proof.
  intros [c Hc] Hf. unfold update, cmd_at. rewrite Hc. eexists; split; [reflexivity|].
  split; try done. cbn. by eapply evolves_insert; [apply _ | ..].
Qed.

Lemma ticks_alive s s' id : ticks s s' -> is_Some (cmds s !! id) -> is_Some (cmds s' !! id).
Proof. intros [Hm _ _ _] [c Hc]. destruct (evolves_lookup _ _ _ _ _ Hm Hc) as (c' & ? & _). eauto. Qed.

Lemma consume_run_ticks s owns id :
  is_Some (cmds s !! id) -> exists s', consumeRunCmdOps owns id s = Ret s' /\ ticks s s'.
Proof.
  intros Hid. unfold consumeRunCmdOps. destruct owns; [|by eexists].
  generalize (stack_run_cmd_op s) as ops. intros ops.
  assert (forall t, ticks s t -> exists s',
    fold_left (fun o op => s ← o; match op with
      | RCFOTerminate => update id (fun c => if sticky c then c else setRunningProperty c RP_END) s end) ops (Ret t) = Ret s' /\ ticks s s') as H.
  { induction ops as [|[] ops IH]; intros t Ht; [by eexists|]. cbn.
    destruct (update_ticks t id (fun c => if sticky c then c else setRunningProperty c RP_END)) as (t' & -> & Ht').
    - by eapply ticks_alive.
    - intros c. case_match; [done | apply runs_property; unfold RP_END; lia].
    - apply IH. by etrans. }
  destruct (H s ltac:(done)) as (s' & E & Hs). cbn in E |- *. rewrite E. eexists; split; [reflexivity|].
  destruct Hs. split; done.
Qed.

Lemma call_functor_ticks s q f h b :
  live (cmds s) q b f -> run_ok h -> exists s', call_functor f h s = Ret s' /\ ticks s s'.
Proof.
  intros Hl Hh. destruct f as [id|]; [|by eexists]. destruct (Hl id eq_refl) as (_ & c & Hc & _).
  apply update_ticks; [by eexists | by intros; apply runs_functor].
Qed.

Definition run_input_ok (i : run_input) : Prop := run_ok (r_acquire i) /\ run_ok (r_correlate i) /\ timeout_ok (r_timeout i).

Lemma current_alive s id : sound s -> current_executing_command s = Some id -> is_Some (cmds s !! id).
Proof. intros Hs Hc. apply (own_dom _ _ _ _ _ (so_owned _ Hs)). auto. Qed.

(** The head of the loop with a current command. *)
Lemma run_step_ticks i s id :
  run_input_ok i -> sound s -> current_executing_command s = Some id ->
  exists s', run_step i s = Ret (set_runner (RAfter id) s') /\ ticks s s'.
Proof.
  intros (Ha & Hc & Ht) Hs Hid. pose proof (current_alive _ _ Hs Hid) as Hal. unfold run_step. rewrite Hid.
  destruct (consume_run_ticks s (r_owns i) id Hal) as (s1 & -> & T1). cbn.
  destruct (update_ticks s1 id (fun c => with_counter c (u64 (command_step_counter c + 1)))) as (s2 & -> & T2);
    [by eapply ticks_alive | intros c; same_command |]. cbn.
  set (s3 := if _ =? 0 then _ else _).
  assert (ticks s s3) as T3 by (do 2 (etrans; [eassumption|]); subst s3; case_match; by split; try reflexivity).
  pose proof (sound_ticks _ _ T3 Hs) as Hs3.
  destruct (call_functor_ticks s3 (command_submitted_queue s3) (acquire_functor s3) (r_acquire i) HT_Acquisition) as (s4 & -> & T4); [apply (so_acquire _ Hs3) | done |]. cbn.
  pose proof (sound_ticks _ _ T4 Hs3) as Hs4.
  destruct (call_functor_ticks s4 (command_submitted_queue s4) (correlation_functor s4) (r_correlate i) HT_Correlation) as (s5 & -> & T5); [apply (so_correlate _ Hs4) | done |]. cbn.
  assert (ticks s5 (set_step_duration (s64 (r_end i - step_start s5)) s5)) as T6 by (by split; try reflexivity).
  destruct (update_ticks (set_step_duration (s64 (r_end i - step_start s5)) s5) id (fun c => commandPost c (step_start s5) (r_timeout i)))
    as (s7 & E7 & T7); [|by intros; apply runs_post|].
  - do 3 (eapply ticks_alive; [eassumption|]). by eapply ticks_alive.
  - cbn in E7. rewrite E7. cbn. eexists; split; [reflexivity|].
    do 4 (etrans; [eassumption|]). done.
Qed.

(** What a thread returns keeps the invariant and follows the contract. *)
Definition good (s s' : sandbox) : Prop := sound s' /\ rtc internal_step (view s) (view s').

Lemma good_ticks s s' : sound s' -> view s' = view s -> good s s'.
Proof. intros Hs E. split; [done|]. by rewrite E. Qed.

Lemma run_step_good i s : run_input_ok i -> sound s -> runner s = RTop -> exists s', run_step i s = Ret s' /\ good s s'.
Proof.
  intros Hi Hs Hr. destruct (current_executing_command s) as [id|] eqn:Hid.
  - destruct (run_step_ticks i s id Hi Hs Hid) as (s' & -> & T). eexists; split; [reflexivity|].
    apply good_ticks; [|apply T]. pose proof (ti_view _ _ T) as Hv. injection Hv as _ _ E _ _ _.
    destruct (sound_ticks _ _ T Hs). constructor; cbn; try done; [intros ? [= <-]; left; congruence | intuition discriminate].
  - unfold run_step. rewrite Hid. destruct (schedule_work_flag s) eqn:Hf; cbn; eexists; (split; [reflexivity|]);
      (apply good_ticks; [|done]); destruct Hs; constructor; cbn; try done; intuition congruence.
Qed.

Lemma cmd_at_some s id c : cmds s !! id = Some c -> cmd_at s id = Ret c.
Proof. unfold cmd_at. by intros ->. Qed.

Lemma run_after_good now id s c :
  sound s -> runner s = RAfter id -> cmds s !! id = Some c -> exists s', run_after now id s = Ret s' /\ good s s'.
Proof.
  intros Hs Hr Hc. unfold run_after. rewrite (cmd_at_some _ _ _ Hc). cbn.
  assert (forall t, runner t <> RPause -> (forall i, runner t <> RAfter i) ->
            (runner t = RDone -> schedule_work_flag t = false) -> ticks s (set_runner (runner s) t) -> good s t) as Hother.
  { intros t H1 H2 H3 T. apply good_ticks; [|apply (ti_view _ _ T)].
    destruct (sound_ticks _ _ T Hs); cbn in *. constructor; try done; intros;
      first [by exfalso; eapply H2; eassumption | by exfalso; apply H1 | tauto]. }
  destruct (_ && _) eqn:E0.
  { eexists; split; [reflexivity|]. apply Hother; try done. intros _. cbn. by destruct (schedule_work_flag s). }
  destruct (_ || _) eqn:E1; [case_match; eexists; (split; [reflexivity | by apply Hother])|].
  destruct (_ || _ || _) eqn:E2; [|by eexists; split; [reflexivity | apply Hother]].
  assert (exists c', match end_functor s with Some e => cmd_at s e | None => mret c end = Ret c') as [c' ->].
  { destruct (end_functor s) as [e|] eqn:Ee; [|by eexists].
    destruct (so_end _ Hs e Ee) as (_ & x & Hx & _). rewrite (cmd_at_some _ _ _ Hx). by eexists. }
  eexists; split; [reflexivity|]. apply good_ticks; [|done].
  destruct Hs; constructor; cbn; try done; try (intuition discriminate).
  intros i _ Hp Hi. destruct (so_after0 id Hr) as [? | [? | ?]]; try congruence.
  assert (i = id) as -> by congruence. intros x Hx. cbn in Hx. assert (x = c) as -> by congruence.
  unfold RP_EXSC, RP_NORMAL, RP_FAULT, RP_FATAL_FAULT, RP_END in *. lia.
Qed.

(** ** Clearing the queue *)

Definition invariant (s : sandbox) : Prop := consistent (view s) /\ sound s.

Lemma good_invariant s s' : invariant s -> good s s' -> invariant s'.
Proof. intros [Hc Hs] [Hs' Hr]. split; [by eapply consistent_steps, internal_spec | done]. Qed.

(** A waiting command is nowhere else. *)
Lemma waiting_only s i :
  consistent (view s) -> i ∈ ids (command_submitted_queue s) ->
  default_sticky_command s <> Some i /\ current_executing_command s <> Some i /\ (i ∉ command_stack s).
Proof.
  intros Hc Hi. assert (default_sticky_command s <> Some i) as Hd by (intros ?; by destruct (con_reserved _ Hc i)).
  split_and!; [done | |]; intros H;
    [pose proof (is_running (view s) i H) | pose proof (is_paused (view s) i H)];
    by pose proof (one_place _ _ _ _ (con_accounted _ Hc) Hd (is_waiting (view s) i Hi) H0).
Qed.

Lemma dequeue_good s e :
  invariant s -> checker s = CTop -> top (command_submitted_queue s) = Some e ->
  good s (release (sequence_id e) (fire (sequence_id e) EVT_DEQUEUE None (pop_submitted e s))).
Proof.
  intros [Hc Hs] Hk He. apply top_id in He as Hin. destruct (waiting_only s _ Hc Hin) as (Hd & Hr & Hp).
  pose proof (con_queue _ Hc) as Hq. cbn in Hq. split.
  - destruct Hs. constructor; cbn; try done; try (rewrite Hk; intuition discriminate).
    + eapply owned_release; [done | by apply ids_drop_self | done..|].
      intros i Hi. rewrite (ids_drop_iff e (command_submitted_queue s) i Hin Hq). tauto.
    + apply live_release; [eapply live_queue; [|done]; apply ids_drop | intros E; by destruct (so_acquire0 _ E)].
    + apply live_release; [eapply live_queue; [|done]; apply ids_drop | intros E; by destruct (so_correlate0 _ E)].
    + apply live_release; [eapply live_queue; [|done]; apply ids_drop | intros E; by destruct (so_end0 _ E)].
    + intros i H1 H2 H3 c Hx. cbn in Hx. apply lookup_delete_Some in Hx as [_ Hx]. by apply (so_pause0 i).
  - apply rtc_once. by apply (SDequeue _ _ _ _ _ _ e).
Qed.

Lemma clear_good n s : invariant s -> checker s = CTop -> good s (clear_submitted n s).
Proof.
  revert s. induction n as [|n IH]; intros s Hi Hk; [by split; [apply Hi|]|]. cbn.
  destruct (top (command_submitted_queue s)) as [e|] eqn:He; [|by split; [apply Hi|]].
  pose proof (dequeue_good s e Hi Hk He) as Hg. destruct (IH _ (good_invariant _ _ Hi Hg) Hk) as [Hs Hr].
  split; [done|]. etrans; [apply Hg | done].
Qed.

Lemma clear_checker n s : checker (clear_submitted n s) = checker s.
Proof. revert s. induction n as [|n IH]; intros s; [done|]. cbn. case_match; [by rewrite IH | done]. Qed.

Lemma clear_empties s : command_submitted_queue (clear_submitted (length (command_submitted_queue s)) s) = [].
Proof.
  remember (length (command_submitted_queue s)) as n eqn:En. revert s En. induction n as [|n IH]; intros s En.
  - by apply nil_length_inv.
  - cbn. destruct (top (command_submitted_queue s)) as [e|] eqn:He; [|by apply top_none in He as ->].
    apply IH. cbn. pose proof (drop_id_in (sequence_id e) _ (top_id _ _ He)). zl.
Qed.

Lemma consume_wait_good owns s : invariant s -> checker s = CTop -> good s (consumeWaitCmdOps owns s) /\ checker (consumeWaitCmdOps owns s) = CTop.
Proof.
  intros Hi Hk. unfold consumeWaitCmdOps. destruct owns; [|by split; [split; [apply Hi|]|]].
  assert (forall ops t, invariant t -> checker t = CTop -> good t (fold_left (fun s op => match op with
     | WCFOClearQueue => clear_submitted (length (command_submitted_queue s)) s end) ops t) /\
     checker (fold_left (fun s op => match op with
     | WCFOClearQueue => clear_submitted (length (command_submitted_queue s)) s end) ops t) = CTop) as H.
  { induction ops as [|[] ops IH]; intros t Ht Hkt; [by split; [split; [apply Ht|]|]|]. cbn.
    pose proof (clear_good (length (command_submitted_queue t)) t Ht Hkt) as Hg.
    destruct (IH _ (good_invariant _ _ Ht Hg)) as [[Hs Hr] Hk']; [by rewrite clear_checker|].
    split; [|done]. split; [done | etrans; [apply Hg | done]]. }
  destruct (H (stack_wait_cmd_op s) s Hi Hk) as [[Hs Hr] Hk']. split; [|done]. split; [|done].
  destruct Hs; by constructor.
Qed.

(** ** Installing and removing *)

Lemma install_some h id s c :
  cmds s !! id = Some c ->
  installHandler h (Some id) s =
  Ret (set_current_executing_command (Some id) (set_end_functor (Some id)
        (set_correlation_functor (if has_bit (handlers c) HT_Correlation then Some id else correlation_functor s)
          (set_acquire_functor (if has_bit (handlers c) HT_Acquisition then Some id else acquire_functor s)
            (put id (run_set_handler c h) (fire id EVT_RUNNING None s)))))).
Proof.
  intros Hc. unfold installHandler. rewrite (cmd_at_some _ _ _ Hc), bind_ret. cbv zeta.
  destruct (has_bit (handlers c) HT_Acquisition), (has_bit (handlers c) HT_Correlation); by destruct s.
Qed.

(** What [removeHandler] leaves of a functor. *)
Definition cleared (c : BatchCommand) (bit id : Z) (f : option Z) : option Z :=
  if negb (handlers c <=? 1) && has_bit (handlers c) bit && bool_decide (f = Some id) then None else f.

Lemma remove_some h id s c :
  cmds s !! id = Some c ->
  removeHandler h id s =
  Ret (set_correlation_functor (cleared c HT_Correlation id (correlation_functor s))
        (set_acquire_functor (cleared c HT_Acquisition id (acquire_functor s)) (put id (fold_left do_act h c) s))).
Proof.
  intros Hc. unfold removeHandler, cleared. rewrite (cmd_at_some _ _ _ Hc), bind_ret. cbv zeta.
  destruct (handlers c <=? 1); [by destruct s|].
  destruct (has_bit (handlers c) HT_Acquisition), (has_bit (handlers c) HT_Correlation),
    (bool_decide (acquire_functor s = Some id)) eqn:E1, (bool_decide (correlation_functor s = Some id)) eqn:E2;
    cbn; rewrite ?E1; cbn; rewrite ?E2; by destruct s.
Qed.

Lemma live_install m q q' b f id c :
  live m q b f -> m !! id = Some c -> (forall i, i ∈ ids q' -> i ∈ ids q) -> id ∉ ids q' ->
  live m q' b (if has_bit (handlers c) b then Some id else f).
Proof.
  intros Hl Hc Hq Hid. case_match eqn:E; [|by eapply live_queue].
  intros i [= <-]. split; [done|]. exists c. split; [done | by right].
Qed.

Lemma live_cleared m q b c id f : live m q b f -> live m q b (cleared c b id f).
Proof. intros Hl. unfold cleared. case_match; [done | exact Hl]. Qed.

Lemma cleared_other m q b c id f :
  live m q b f -> m !! id = Some c -> command_ok c -> Z.land 1 b = 0 -> b <> 0 -> cleared c b id f <> Some id.
Proof.
  intros Hl Hc (_ & _ & Hh) Hb1 Hb. unfold cleared. case_match eqn:E; [done|]. intros ->.
  destruct (Hl id eq_refl) as (_ & c' & Hc' & [? | Hbit]); [done|]. simplify_eq. rewrite Hbit in E.
  rewrite bool_decide_true in E by done. destruct (handlers c <=? 1) eqn:E1; [|done]. apply Z.leb_le in E1.
  unfold has_bit in Hbit. assert (handlers c = 0 \/ handlers c = 1) as [H | H] by lia; rewrite H in Hbit; [done|].
  by rewrite Hb1 in Hbit.
Qed.

(** A command has been installed and the scheduler has been told. *)
Lemma sound_installed s e :
  owned (cmds s) (default_sticky_command s) (current_executing_command s) (command_stack s) (command_submitted_queue s) ->
  live (cmds s) (command_submitted_queue s) HT_Acquisition (acquire_functor s) ->
  live (cmds s) (command_submitted_queue s) HT_Correlation (correlation_functor s) ->
  end_functor s = Some e -> current_executing_command s = Some e -> e ∉ ids (command_submitted_queue s) -> pause s = true ->
  (runner s = RDone -> schedule_work_flag s = false) -> checker s = CTop \/ checker s = CWait \/ checker s = CSticky ->
  (checker s = CSticky -> command_submitted_queue s = [] \/ next_check s = true) -> sound s.
Proof.
  intros Ho Ha Hc Ee Er Hq Hp Hd Hk Hs. constructor; try done; try congruence; try (destruct Hk as [-> | [-> | ->]]; intuition discriminate).
  - intros i Hi. assert (i = e) as -> by congruence. split; [done|].
    destruct (proj2 (own_dom _ _ _ _ _ Ho e)) as [c ?]; [auto|]. exists c. split; [done | by left].
  - intros Hk'. apply Hs. destruct Hk as [E | [E | E]]; rewrite E in *; intuition discriminate.
  - auto.
Qed.

(** A running command other than the default one is nowhere else. *)
Lemma running_only s i :
  consistent (view s) -> current_executing_command s = Some i -> default_sticky_command s <> Some i ->
  (i ∉ ids (command_submitted_queue s)) /\ (i ∉ command_stack s).
Proof.
  intros Hc Hi Hd. split; intros H;
    [pose proof (is_waiting (view s) i H) | pose proof (is_paused (view s) i H)];
    by pose proof (one_place _ _ _ _ (con_accounted _ Hc) Hd (is_running (view s) i Hi) H0).
Qed.

(** ** The checker *)

Definition check_input_ok (i : check_input) : Prop :=
  run_ok (set_handler (k_set i)) /\ Forall (act_ok 0) (k_end i) /\ run_ok (set_handler (k_sticky i)).

Lemma table_total p r :
  property_ok p -> p <> RP_FATAL_FAULT -> rule_ok r ->
  exists v, CHECK_RUNNING_VS_SUBMISSION p r = Ret v /\ (v = RSR_NO_CHANGE -> p < 2).
Proof.
  unfold property_ok, rule_ok, RP_FATAL_FAULT. intros Hp Hne Hr.
  assert (p = 0 \/ p = 1 \/ p = 2 \/ p = 3) as Hp' by lia. assert (r = 0 \/ r = 1 \/ r = 2) as Hr' by lia.
  destruct Hp' as [-> | [-> | [-> | ->]]], Hr' as [-> | [-> | ->]]; eexists; (split; [reflexivity|]); intros; by try lia.
Qed.

Lemma evolves_put m i c c' : m !! i = Some c -> agree c c' -> evolves agree m (<[i := c']> m).
Proof. intros. by eapply evolves_insert; [apply _ | ..]. Qed.

(** What installing [e] out of the queue does to the ownership. *)
Lemma owned_start m d p q e :
  owned m d None p q -> NoDup (ids q) -> sequence_id e ∈ ids q -> owned m d (Some (sequence_id e)) p (drop_id (sequence_id e) q).
Proof.
  intros Ho Hq He. eapply owned_same; [done|]. intros i. rewrite (ids_drop_iff e q i He Hq). intuition (subst; eauto; congruence).
Qed.

(** Replacing the command [cur] that runs by [x]: the commands after
    [endHandler] of the one and [setHandler] of the other. *)
Section swap.
Context (m : gmap Z BatchCommand) (cur x : Z) (c n : BatchCommand) (hend : list act) (hset : set_run).
Context (Hc : m !! cur = Some c) (Hn : m !! x = Some n) (Hne : x <> cur).
Context (Hend : Forall (act_ok 0) hend) (Hset : run_ok (set_handler hset)).

Definition swapped : gmap Z BatchCommand := <[x := run_set_handler n hset]> (<[cur := fold_left do_act hend c]> m).

Lemma swapped_evolves : evolves agree m swapped.
Proof.
  transitivity (<[cur := fold_left do_act hend c]> m).
  - eapply evolves_put; [done | by apply agree_acts].
  - eapply evolves_put; [by rewrite lookup_insert_ne | by apply agree_set].
Qed.

Context (d : option Z) (p p' : list Z) (q q' : list element).
Context (Ho : owned m d (Some cur) p q).
Context (Hq : forall i, i ∈ ids q' -> i ∈ ids q) (Hx : x ∉ ids q').

Lemma swapped_live b f :
  live m q b f -> Z.land 1 b = 0 -> b <> 0 ->
  live (if sticky c then swapped else delete cur swapped) q' b (if has_bit (handlers n) b then Some x else cleared c b cur f).
Proof.
  intros Hl H1 H0.
  assert (live swapped q' b (if has_bit (handlers n) b then Some x else cleared c b cur f)) as Hm.
  { destruct (evolves_lookup _ _ _ _ _ swapped_evolves Hn) as (n' & Hn' & _ & <- & _).
    eapply live_install; [|done..]. apply live_cleared. eapply live_evolves; [apply swapped_evolves | done]. }
  destruct (sticky c); [done|]. apply live_release; [done|]. case_match; [congruence|].
  eapply cleared_other; try done. apply (own_ok _ _ _ _ _ Ho _ _ Hc).
Qed.

Lemma swapped_owned :
  (d <> Some cur -> (cur ∉ ids q) /\ (cur ∉ p')) ->
  (forall j, j ∈ ids q' \/ j = x \/ j ∈ p' <-> j ∈ ids q \/ j ∈ p) ->
  owned (if sticky c then swapped else delete cur swapped) d (Some x) p' q'.
Proof.
  intros Hcur Hall. pose proof (own_sticky _ _ _ _ _ Ho _ _ Hc) as Hd.
  pose proof (owned_evolves _ _ _ _ _ _ swapped_evolves Ho) as Ho'.
  assert (forall a j : Z, Some a = Some j <-> j = a) as Hsome by (intros; split; congruence).
  destruct (sticky c).
  - assert (d = Some cur) as -> by (by apply Hd). eapply owned_same; [done|]. intros j. rewrite !Hsome.
    specialize (Hall j). tauto.
  - assert (d <> Some cur) as Hd' by (intros E; by apply Hd in E). destruct (Hcur Hd') as [Hw Hp].
    eapply owned_release; [done | by intros ?%Hq | congruence | done | done |].
    intros j Hj. rewrite !Hsome. specialize (Hall j). tauto.
Qed.
End swap.

Section have.
Context (i : check_input) (s : sandbox) (e : element) (n : BatchCommand).
Context (Hi : check_input_ok i) (Hinv : invariant s) (Hk : checker s = CHave).
Context (He : top (command_submitted_queue s) = Some e) (Hn : cmds s !! sequence_id e = Some n).

Let Hin : sequence_id e ∈ ids (command_submitted_queue s) := top_id _ _ He.
Let Hq : NoDup (ids (command_submitted_queue s)) := con_queue _ (proj1 Hinv).

Lemma install_next_live m b f :
  live m (command_submitted_queue s) b f -> evolves agree (cmds s) m ->
  live m (drop_id (sequence_id e) (command_submitted_queue s)) b (if has_bit (handlers n) b then Some (sequence_id e) else f).
Proof.
  intros Hl Hm. destruct (evolves_lookup _ _ _ _ _ Hm Hn) as (n' & Hn' & _ & <- & _).
  eapply live_install; [done.. | apply ids_drop | by apply ids_drop_self].
Qed.

(** Nothing runs: the first of the queue is started. *)
Lemma have_start_good :
  current_executing_command s = None -> exists s', check_have i s = Ret s' /\ good s s'.
Proof.
  intros Hr. pose proof Hinv as [Hc Hs]. unfold check_have. rewrite He, Hr, (install_some _ _ _ n Hn), bind_ret.
  eexists; split; [reflexivity|].
  assert (evolves agree (cmds s) (<[sequence_id e := run_set_handler n (k_set i)]> (cmds s))) as Hm
    by (eapply evolves_put; [done | apply agree_set, Hi]).
  split; [|apply rtc_once; cbn; unfold view; rewrite Hr; by apply (SStart _ _ _ _ _ e)].
  eapply (sound_installed _ (sequence_id e)); try done; try (by left); cbn.
  - eapply owned_evolves; [done|]. apply owned_start; [|done..]. rewrite <- Hr. apply Hs.
  - apply install_next_live; [|done]. eapply live_evolves; [done | apply Hs].
  - apply install_next_live; [|done]. eapply live_evolves; [done | apply Hs].
  - by apply ids_drop_self.
  - by apply so_halted.
Qed.

Context (cur : Z) (c : BatchCommand) (Hcur : current_executing_command s = Some cur) (Hc : cmds s !! cur = Some c).

Lemma next_not_current : sequence_id e <> cur.
Proof. intros E. destruct (waiting_only s _ (proj1 Hinv) Hin) as (_ & H & _). congruence. Qed.

Lemma sticky_default : sticky c = true <-> default_sticky_command s = Some cur.
Proof. apply (own_sticky _ _ _ _ _ (so_owned _ (proj2 Hinv)) _ _ Hc). Qed.
(** The current command is paused, the first of the queue is started. *)
Lemma stack_current_good : exists s', stack_current i e cur c s = Ret s' /\ good s s'.
Proof.
  pose proof Hinv as [Hcon Hs]. unfold stack_current.
  erewrite (install_some _ _ _ n) by (by destruct (sticky c)). rewrite bind_ret. eexists; split; [reflexivity|].
  assert (evolves agree (cmds s) (<[sequence_id e := run_set_handler n (k_set i)]> (cmds s))) as Hm
    by (eapply evolves_put; [done | apply agree_set, Hi]).
  split.
  - eapply (sound_installed _ (sequence_id e)); try done; try (by left).
    + cbn. eapply owned_evolves; [by destruct (sticky c)|]. eapply owned_same; [by destruct (sticky c); apply Hs|].
      intros j. cbn. rewrite Hcur, (ids_drop_iff e _ j Hin Hq). pose proof sticky_default.
      destruct (sticky c); cbn; rewrite ?elem_of_cons; intuition (subst; eauto; congruence).
    + cbn. destruct (sticky c); cbn; (apply install_next_live; [|done]); (eapply live_evolves; [done | apply Hs]).
    + cbn. destruct (sticky c); cbn; (apply install_next_live; [|done]); (eapply live_evolves; [done | apply Hs]).
    + destruct (sticky c); by apply ids_drop_self.
    + destruct (sticky c); by apply (so_halted s).
  - apply rtc_once. unfold view. rewrite Hcur. destruct (sticky c) eqn:Es; cbn.
    + rewrite (proj1 sticky_default Es). by apply (SSuspendDefault _ _ _ _ _ e).
    + apply (SPreempt _ _ _ _ _ _ e); [done|]. intros E. by apply sticky_default in E as ?; congruence.
Qed.
(** The current command has ended or is killed, the first of the queue is started. *)
Lemma replace_current_good v t f :
  ending_event v c = Some (t, f) -> ending t -> exists s', replace_current i v e cur c s = Ret s' /\ good s s'.
Proof.
  intros Ev Ht. unfold replace_current. rewrite Ev. unfold fire_end.
  erewrite (remove_some _ _ _ c) by done. rewrite bind_ret.
  erewrite (install_some _ _ _ n) by (cbn; by rewrite lookup_insert_ne by (symmetry; apply next_not_current)). rewrite bind_ret.
  eexists; split; [reflexivity|]. split.
  - pose proof (so_owned _ (proj2 Hinv)) as Ho. rewrite Hcur in Ho. pose proof next_not_current as Hne.
    pose proof (ids_drop_self (sequence_id e) _ Hq) as Hx. destruct Hi as (H1 & H2 & _).
    pose proof (swapped_owned _ cur _ c n (k_end i) (k_set i) Hc Hn Hne H2 H1 _ _ (command_stack s) _ _ Ho (ids_drop (sequence_id e) _)) as Ho'.
    pose proof (fun b f => swapped_live _ cur _ c n (k_end i) (k_set i) Hc Hn Hne H2 H1 _ _ _ _ Ho (ids_drop (sequence_id e) _) Hx b f) as Hl.
    destruct (sticky c) eqn:Es; (eapply (sound_installed _ (sequence_id e)); [| | | done | done | done | done | by apply (so_halted s), Hinv | by left | done]);
      [ apply Ho' | apply (Hl HT_Acquisition); [apply Hinv | done..] | apply (Hl HT_Correlation); [apply Hinv | done..]
      | apply Ho' | apply (Hl HT_Acquisition); [apply Hinv | done..] | apply (Hl HT_Correlation); [apply Hinv | done..] ];
      (by apply running_only) || (intros j; rewrite (ids_drop_iff e _ j Hin Hq); tauto) || (intros Hd; by apply running_only; [apply Hinv | ..]).
  - apply rtc_once. unfold view. rewrite Hcur. destruct (sticky c); by apply (SReplace _ _ _ _ _ _ e).
Qed.
End have.

Lemma have_installs i s :
  check_input_ok i -> invariant s -> checker s = CHave ->
  (exists cur c, current_executing_command s = Some cur /\ cmds s !! cur = Some c /\ runningProperty c = RP_FATAL_FAULT) \/
  exists s', check_have i s = Ret s' /\ good s s'.
Proof.
  intros Hi Hinv Hk. pose proof (proj2 Hinv) as Hs. destruct (top_some _ (so_have _ Hs Hk)) as [e He].
  destruct (proj2 (own_dom _ _ _ _ _ (so_owned _ Hs) (sequence_id e))) as [n Hn]; [left; by apply top_id|].
  destruct (current_executing_command s) as [cur|] eqn:Hcur; [|right; by eapply have_start_good].
  destruct (current_alive s cur Hs Hcur) as [c Hc].
  destruct (decide (runningProperty c = RP_FATAL_FAULT)) as [Hf | Hf]; [left; eauto 6 | right].
  destruct (own_ok _ _ _ _ _ (so_owned _ Hs) _ _ Hc) as (Hp & _). destruct (own_ok _ _ _ _ _ (so_owned _ Hs) _ _ Hn) as (_ & Hr & _).
  destruct (table_total _ _ Hp Hf Hr) as (v & Hv & Hno).
  unfold check_have. rewrite He, Hcur, (cmd_at_some _ _ _ Hc), bind_ret, (cmd_at_some _ _ _ Hn), bind_ret, Hv, bind_ret.
  destruct v; [destruct (sticky c) eqn:Es | ..].
  - by eapply stack_current_good.
  - eexists; split; [reflexivity|]. apply good_ticks; [|done]. specialize (Hno eq_refl).
    destruct Hs; constructor; cbn; try done; try (intuition discriminate).
    intros _ E1 E2 E3. specialize (so_pause0 cur E1 E2 Hcur c Hc). lia.
  - eexists; split; [reflexivity|]. apply good_ticks; [|done].
    destruct Hs; constructor; cbn; try done; intuition discriminate.
  - by eapply stack_current_good.
  - eapply replace_current_good; try done. by unfold ending; auto.
  - eapply replace_current_good; try done. by unfold ending; auto.
  - eapply replace_current_good; try done. by unfold ending; auto.
Qed.

(** The default command is installed when nothing runs. *)
Lemma check_sticky_good h s :
  run_ok (set_handler h) -> invariant s -> checker s = CSticky -> exists s', check_sticky h s = Ret s' /\ good s s'.
Proof.
  intros Hh [Hc Hs] Hk. pose proof (so_empty _ Hs (or_intror (or_intror Hk))) as Hq. unfold check_sticky.
  destruct (current_executing_command s) as [cur|] eqn:Hcur; [|destruct (default_sticky_command s) as [d|] eqn:Hd].
  - eexists; split; [reflexivity|]. apply good_ticks; [|done].
    destruct Hs; constructor; cbn in *; try done; try (intuition discriminate).
    intros _ E1 E2 E3. rewrite (so_sticky0 Hk E1 E2 E3) in Hcur. done.
  - pose proof (so_owned _ Hs) as Ho. cbn in Ho. destruct (proj2 (own_dom _ _ _ _ _ Ho d)) as [c Hdc]; [auto|].
    rewrite (cmd_at_some _ _ _ Hdc), bind_ret, (proj2 (own_sticky _ _ _ _ _ Ho _ _ Hdc) Hd).
    erewrite (install_some _ _ _ (with_setup c false)) by (cbn; apply lookup_insert_eq). rewrite !bind_ret.
    eexists; split; [reflexivity|]. destruct (con_reserved _ Hc d Hd) as [Hdq _].
    assert (evolves agree (cmds s) (<[d := run_set_handler (with_setup c false) h]> (<[d := with_setup c false]> (cmds s)))) as Hm.
    { rewrite insert_insert_eq. eapply evolves_put; [done|]. etrans; [|by apply agree_set]. same_command. }
    split; [eapply (sound_installed _ d); try done; try (by right; left); cbn|].
    + eapply owned_evolves; [done|]. eapply owned_same; [done|]. intros j. rewrite Hcur, Hd. intuition congruence.
    + eapply live_evolves; [done|]. apply (live_install _ _ _ HT_Acquisition _ d c (so_acquire _ Hs)); done.
    + eapply live_evolves; [done|]. apply (live_install _ _ _ HT_Correlation _ d c (so_correlate _ Hs)); done.
    + by apply (so_halted _ Hs).
    + apply rtc_once. unfold view; cbn. rewrite Hcur, Hd. apply SDefault.
  - eexists; split; [reflexivity|]. apply good_ticks; [|done].
    destruct Hs; constructor; cbn in *; try done; try (intuition discriminate).
    intros _ E1 E2 E3. unfold nothing_to_do; cbn. intuition congruence.
Qed.

Lemma check_empty_good i s : invariant s -> checker s = CEmpty -> exists s', check_empty i s = Ret s' /\ good s s'.
Proof.
  intros [Hc Hs] Hk. unfold check_empty. destruct (current_executing_command s) as [cur|] eqn:Hcur.
  - destruct (current_alive s cur Hs Hcur) as [c Hcc]. rewrite (cmd_at_some _ _ _ Hcc), bind_ret.
    eexists; split; [reflexivity|]. apply good_ticks; [|by case_match].
    destruct (_ >=? _) eqn:E; unfold RP_END in E; destruct Hs; constructor; cbn; try done; try (intuition discriminate).
    + intros _. exists cur. split; [done|]. intros x Hx; cbn in Hx. assert (x = c) as -> by congruence. lia.
    + intros _ E1 E2 _. specialize (so_pause0 cur E1 E2 Hcur c Hcc). lia.
  - eexists; split; [reflexivity|]. apply good_ticks; [|done].
    destruct Hs; constructor; cbn; try done; intuition discriminate.
Qed.

Lemma ended_event_some c : 2 <= runningProperty c <= 4 -> exists t f, ended_event c = Some (t, f) /\ ending t.
Proof.
  intros Hp. unfold ended_event, RP_END, RP_FAULT, RP_FATAL_FAULT, ending.
  repeat case_match; bool_hyps; [eexists _, _; split; [done | auto]..|lia].
Qed.

Section ended.
Context (i : check_input) (s : sandbox) (cur : Z) (c : BatchCommand) (t : command_event) (f : option Z).
Context (Hi : check_input_ok i) (Hinv : invariant s) (Hk : checker s = CEnded).
Context (Hcur : current_executing_command s = Some cur) (Hc : cmds s !! cur = Some c).
Context (Ev : ended_event c = Some (t, f)) (Ht : ending t).

Let Hq : command_submitted_queue s = [] \/ next_check s = true := so_empty _ (proj2 Hinv) (or_intror (or_introl Hk)).

(** The last paused command is resumed. *)
Lemma ended_resume_good x rest :
  command_stack s = x :: rest -> exists s', check_ended i s = Ret s' /\ good s s'.
Proof.
  intros Est. pose proof Hinv as [Hcon Hs]. pose proof (so_owned _ Hs) as Ho. rewrite Hcur, Est in Ho. destruct Hi as (H1 & H2 & _).
  assert (x ∈ command_stack s) as Hx by (rewrite Est; apply elem_of_cons; by left).
  assert (default_sticky_command s <> Some x) as Hdx by (intros E; by destruct (con_reserved _ Hcon x E)).
  assert (x <> cur) as Hne.
  { intros ->. by pose proof (one_place _ _ _ _ (con_accounted _ Hcon) Hdx (is_running (view s) _ Hcur) (is_paused (view s) _ Hx)). }
  assert (x ∉ ids (command_submitted_queue s)) as Hxq by (intros E; by destruct (waiting_only s x Hcon E) as (_ & _ & ?)).
  destruct (proj2 (own_dom _ _ _ _ _ Ho x)) as [n Hn]; [right; right; left; apply elem_of_cons; by left|].
  unfold check_ended. rewrite Hcur, (cmd_at_some _ _ _ Hc), bind_ret, Ev. cbn [fire_end fire command_stack set_events set_current_executing_command].
  rewrite Est. erewrite (remove_some _ _ _ c) by done. rewrite bind_ret.
  erewrite (install_some _ _ _ n) by (cbn; by rewrite lookup_insert_ne). rewrite bind_ret.
  eexists; split; [reflexivity|]. split.
  - pose proof (swapped_owned _ cur _ c n (k_end i) (k_set i) Hc Hn Hne H2 H1 _ _ rest _ _ Ho (fun _ H => H)) as Ho'.
    pose proof (fun b f => swapped_live _ cur _ c n (k_end i) (k_set i) Hc Hn Hne H2 H1 _ _ _ _ Ho (fun _ H => H) Hxq b f) as Hl.
    destruct (sticky c) eqn:Es; (eapply (sound_installed _ x);
      [| | | done | done | done | done | by apply (so_halted s), Hinv | by right; right | intros _; exact Hq]);
      [ apply Ho' | apply (Hl HT_Acquisition); [apply Hs | done..] | apply (Hl HT_Correlation); [apply Hs | done..]
      | apply Ho' | apply (Hl HT_Acquisition); [apply Hs | done..] | apply (Hl HT_Correlation); [apply Hs | done..] ].
    all: try (intros j; rewrite elem_of_cons; tauto).
    all: intros Hd; destruct (running_only s cur Hcon Hcur Hd) as [? Hnp]; rewrite Est, not_elem_of_cons in Hnp; tauto.
  - apply rtc_once. unfold view. rewrite Hcur, Est. destruct (sticky c); by apply SResume.
Qed.
(** Nothing is paused: the default command is restarted, or nothing runs. *)
Lemma ended_last_good :
  command_stack s = [] -> exists s', check_ended i s = Ret s' /\ good s s'.
Proof.
  intros Est. pose proof Hinv as [Hcon Hs]. pose proof (so_owned _ Hs) as Ho. rewrite Hcur in Ho.
  pose proof (own_sticky _ _ _ _ _ Ho _ _ Hc) as Hd. destruct Hi as (_ & H2 & _).
  unfold check_ended. rewrite Hcur, (cmd_at_some _ _ _ Hc), bind_ret, Ev. cbn [fire_end fire command_stack set_events set_current_executing_command].
  rewrite Est.
  assert (forall st, view st = mk_contract (command_sequence_id s) (default_sticky_command s) None [] (command_submitted_queue s)
                             ((cur, t) :: a_log (view s)) -> sound (set_checker CSticky st) -> good s (set_checker CSticky st)) as Hfin.
  { intros st Ev' Hst. split; [done|]. change (view (set_checker CSticky st)) with (view st). rewrite Ev'.
    apply rtc_once. unfold view. rewrite Hcur, Est. by apply SFinish. }
  destruct (sticky c) eqn:Es.
  - rewrite bind_ret. eexists; split; [reflexivity|]. apply Hfin; [by unfold view; cbn; rewrite Est|].
    destruct Hs; constructor; cbn; try done; try (intuition discriminate).
    eapply owned_same; [done|]. intros j. rewrite (proj1 Hd eq_refl). intuition congruence.
  - erewrite (remove_some _ _ _ c) by done. rewrite !bind_ret. eexists; split; [reflexivity|].
    assert (default_sticky_command s <> Some cur) as Hd' by (intros E; by apply Hd in E).
    destruct (running_only s cur Hcon Hcur Hd') as [Hw Hp].
    apply Hfin; [by unfold view; cbn; rewrite Est |].
    constructor; cbn; try done; try (intuition discriminate); [|intros [? | ?]; [done | by apply so_halted]].
    eapply owned_release; [eapply owned_evolves; [by eapply evolves_put; [|by apply agree_acts] | done] | done.. |].
    intros j Hj. intuition congruence.
Qed.
End ended.

Lemma check_ended_good i s : check_input_ok i -> invariant s -> checker s = CEnded -> exists s', check_ended i s = Ret s' /\ good s s'.
Proof.
  intros Hi Hinv Hk. pose proof (proj2 Hinv) as Hs. destruct (so_ended _ Hs Hk) as (cur & Hcur & He).
  destruct (current_alive s cur Hs Hcur) as [c Hc]. specialize (He c Hc).
  destruct (own_ok _ _ _ _ _ (so_owned _ Hs) _ _ Hc) as (Hp & _). unfold property_ok in Hp.
  destruct (ended_event_some c) as (t & f & Ev & Ht); [lia|].
  destruct (command_stack s) as [|x rest] eqn:Est; [by eapply ended_last_good | by eapply ended_resume_good].
Qed.

(** ** Steps *)

(** What the owner and the handlers may do: commands as [BatchCommand]'s
    constructor and the executor make them, the values of the enumerations, and
    a timeout handler that does not bring back a command that has ended. *)
Definition tame (l : label) : Prop :=
  match l with
  | LRun i => run_input_ok i
  | LCheck i => check_input_ok i
  | LEnqueue _ c _ => sticky c = false /\ command_ok c
  | _ => True
  end.

(** A submitted command gets an id that no command has. *)
Section submit.
Context (m : gmap Z BatchCommand) (d r : option Z) (p : list Z) (q : list element) (prio id : Z) (c : BatchCommand).
Context (Hfresh : m !! id = None) (Ho : owned m d r p q) (Hst : sticky c = false) (Hok : command_ok c).

Lemma submit_lookup i x : <[id := c]> m !! i = Some x -> (i = id /\ x = c) \/ (i <> id /\ m !! i = Some x).
Proof. intros [[<- <-] | [? ?]]%lookup_insert_Some; auto. Qed.

Lemma submit_owned : owned (<[id := c]> m) d r p (mk_element prio id :: q).
Proof.
  destruct Ho as [Hd Hsk Hko]. constructor.
  - intros i. cbn. rewrite elem_of_cons. destruct (decide (i = id)) as [-> | Hne].
    + rewrite lookup_insert_eq. by split; [auto | eexists].
    + rewrite lookup_insert_ne by done. rewrite Hd. tauto.
  - intros i x [[-> ->] | [? ?]]%submit_lookup; [|eauto]. rewrite Hst. split; [done|]. intros E.
    destruct (proj2 (Hd (id))); [auto | congruence].
  - intros i x [[-> ->] | [? ?]]%submit_lookup; eauto.
Qed.

Lemma submit_live b f : live m q b f -> live (<[id := c]> m) (mk_element prio id :: q) b f.
Proof.
  intros Hf i Hi. destruct (Hf i Hi) as (? & x & Hx & ?). assert (i <> id) by congruence.
  split; [cbn; by rewrite not_elem_of_cons|]. exists x. by rewrite lookup_insert_ne by congruence.
Qed.
End submit.

Lemma fresh_id s : invariant s -> cmds s !! (command_sequence_id s + 1) = None.
Proof.
  intros [Hc Hs]. set (id := command_sequence_id s + 1). apply eq_None_not_Some. intros Hal.
  apply (own_dom _ _ _ _ _ (so_owned _ Hs)) in Hal.
  assert (default_sticky_command s <> Some id) as Hd by (intros E; apply (con_default _ Hc) in E; cbn in E; lia).
  pose proof (is_new (view s) id ltac:(cbn; lia)) as Hnew.
  pose proof (fun p H => one_place _ id LNew p (con_accounted _ Hc) Hd Hnew H) as Hone.
  destruct Hal as [H | [H | [H | H]]]; [| | |done].
  - by specialize (Hone _ (is_waiting (view s) id H)).
  - by specialize (Hone _ (is_running (view s) id H)).
  - by specialize (Hone _ (is_paused (view s) id H)).
Qed.

(** [enqueueCommand] once the id is known. *)
Lemma submit_good s c prio id n :
  sticky c = false -> command_ok c -> invariant s -> id = command_sequence_id s + 1 ->
  let s' := signal_check (set_queued_commands n
              (set_command_submitted_queue (mk_element prio id :: command_submitted_queue s)
                (fire id EVT_QUEUED None (put id c (set_command_sequence_id id s))))) in
  sound s' /\ spec_step (view s) (view s').
Proof.
  intros Hst Hok Hinv Eid. cbv zeta. pose proof (fresh_id s Hinv) as Hfresh. rewrite <- Eid in Hfresh. destruct Hinv as [Hc Hs].
  split; [|unfold view; cbn; rewrite Eid; apply SSubmit].
  assert (forall i x, current_executing_command s = Some i -> <[id := c]> (cmds s) !! i = Some x -> cmds s !! i = Some x) as Hcur.
  { intros i x Hi [[-> _] | [_ ?]]%submit_lookup; [|done].
    destruct (current_alive _ _ Hs Hi). congruence. }
  destruct Hs; constructor; cbn -[map]; try done; try (intuition discriminate).
  - by apply submit_owned.
  - by apply submit_live.
  - by apply submit_live.
  - by apply submit_live.
  - intros Hk. destruct (so_ended0 Hk) as (i & Hi & He). exists i. split; [done|]. intros x Hx. cbn in Hx. apply He. by apply Hcur.
  - intros i Hr Hp Hi x Hx. cbn in Hx. apply (so_pause0 i Hr Hp Hi). by apply Hcur.
Qed.

Lemma enqueue_good d c p s :
  sticky c = false -> command_ok c -> invariant s -> command_sequence_id s < 2 ^ 64 - 1 ->
  let s' := fst (enqueueCommand d c p s) in
  sound s' /\ rtc spec_step (view s) (view s') /\ command_sequence_id s' <= command_sequence_id s + 1.
Proof.
  intros Hst Hok Hinv Hlt. cbv zeta. unfold enqueueCommand. destruct d; [by split_and!; [apply Hinv | | cbn; lia]|]. cbn [fst].
  pose proof (con_last _ (proj1 Hinv)) as Hl. cbn [view a_last] in Hl.
  assert (u64 (command_sequence_id s + 1) = command_sequence_id s + 1) as Eid by (unfold u64; apply Z.mod_small; lia).
  destruct (submit_good s c (s32 p) (u64 (command_sequence_id s + 1)) (u32 (zlen (mk_element (s32 p) (u64 (command_sequence_id s + 1)) :: command_submitted_queue s)))
              Hst Hok Hinv Eid) as [Hs Hr].
  split_and!; [exact Hs | by apply rtc_once |]. cbn. rewrite Eid. lia.
Qed.

Lemma on_current_good f s : (forall c, runs c (f c)) -> sound s -> exists s', on_current f s = Ret s' /\ good s s'.
Proof.
  intros Hf Hs. unfold on_current. destruct (current_executing_command s) as [id|] eqn:Hid; [|by eexists; split; [|split]].
  destruct (update_ticks s id f (current_alive s id Hs Hid) Hf) as (s1 & -> & T). rewrite bind_ret. eexists; split; [reflexivity|].
  apply good_ticks; [|apply (ti_view _ _ T)]. destruct (sound_ticks _ _ T Hs).
  constructor; cbn; try done; try (intuition discriminate); auto.
Qed.

Lemma top_good i s : invariant s -> checker s = CTop -> schedule_work_flag s = true ->
  let s1 := consumeWaitCmdOps (k_owns i) s in
  good s (set_checker (match command_submitted_queue s1 with [] => CEmpty | _ => CHave end) s1).
Proof.
  intros Hinv Hk Hf. destruct (consume_wait_good (k_owns i) s Hinv Hk) as [[Hs Hr] _]. cbv zeta.
  split; [|done]. destruct (command_submitted_queue _) eqn:Eq; destruct Hs; constructor; cbn;
    try done; try (intuition discriminate); intros; rewrite Eq; by try left.
Qed.

(** A step of [wait] keeps the contract. *)
Lemma wait_check_good next s s' :
  sound s -> wait_check next s = Some s' -> checker s = CWait \/ checker s = CIdle ->
  next = CTop \/ next = CDone /\ schedule_work_flag s = false -> good s s'.
Proof.
  intros Hs Hw Hk Hn. unfold wait_check in Hw. repeat case_match; simplify_eq; apply good_ticks; try done; destruct Hs;
    constructor; cbn; try done; intuition congruence.
Qed.
Lemma wait_run_good s s' : sound s -> wait_run s = Some s' -> runner s = RPause -> good s s'.
Proof.
  intros Hs Hw Hk. unfold wait_run in Hw. repeat case_match; simplify_eq; apply good_ticks; try done; destruct Hs;
    constructor; cbn; try done; intuition congruence.
Qed.

(** The two accesses outside an object: the scheduler reads the command it has
    run after another thread released it, and the checker indexes the table with
    a fatal fault. *)
Definition dangling (l : label) (s : sandbox) : Prop :=
  match l with
  | LAfter _ => exists id, runner s = RAfter id /\ cmds s !! id = None
  | LCheck _ => checker s = CHave /\ exists cur c, current_executing_command s = Some cur /\ cmds s !! cur = Some c /\ runningProperty c = RP_FATAL_FAULT
  | _ => False
  end.

(** The invariant holds again, the contract was followed, and at most one id was
    given. *)
Definition advances (s s' : sandbox) : Prop :=
  sound s' /\ rtc spec_step (view s) (view s') /\ command_sequence_id s' <= command_sequence_id s + 1.

Lemma good_advances s s' : good s s' -> advances s s'.
Proof.
  intros [Hs Hr]. split_and!; [done | by apply internal_spec |]. apply internal_last in Hr. cbn in Hr. lia.
Qed.

Lemma current_step f s :
  (forall c, runs c (f c)) -> sound s -> exists s', Some <$> on_current f s = Ret (Some s') /\ good s s'.
Proof. intros Hf Hs. destruct (on_current_good f s Hf Hs) as (s' & -> & Hg). eauto. Qed.

Lemma step_good l s :
  tame l -> invariant s -> command_sequence_id s < 2 ^ 64 - 1 ->
  dangling l s \/ step l s = Ret None \/ exists s', step l s = Ret (Some s') /\ advances s s'.
Proof.
  intros Hl Hinv Hlt. pose proof (proj2 Hinv) as Hs.
  cut (dangling l s \/ step l s = Ret None \/ (exists s', step l s = Ret (Some s') /\ good s s') \/
       exists d c p, l = LEnqueue d c p).
  { intros [? | [? | [(s' & ? & ?%good_advances) | (d & c & p & ->)]]]; eauto. destruct Hl as [? ?].
    right. right. eexists; split; [reflexivity|]. by apply enqueue_good. }
  destruct l; cbn [tame step dangling] in *.
  - destruct (runner s) eqn:Hr; auto. destruct (run_step_good i s Hl Hs Hr) as (s' & -> & Hg). eauto 8.
  - destruct (runner s) eqn:Hr; auto. destruct (cmds s !! id) as [c|] eqn:Hc; [|eauto 8].
    destruct (run_after_good now id s c Hs Hr Hc) as (s' & -> & Hg). eauto 8.
  - right. destruct (runner s) eqn:Hr; auto; [|destruct (wait_run s) as [s'|] eqn:Hw; [|auto]]; right; left; eexists; (split; [reflexivity|]).
    + apply good_ticks; [|done]. destruct Hs; constructor; cbn; try done; intuition congruence.
    + by apply wait_run_good.
  - destruct (checker s) eqn:Hk; auto.
    + right. right. left. eexists; split; [reflexivity|]. destruct (schedule_work_flag s) eqn:Hf; [by apply top_good|].
      apply good_ticks; [|done]. destruct Hs; constructor; cbn; try done; intuition discriminate.
    + destruct (have_installs i s Hl Hinv Hk) as [H | (s' & -> & Hg)]; eauto 8.
    + destruct (check_empty_good i s Hinv Hk) as (s' & -> & Hg); eauto 8.
    + destruct (check_ended_good i s Hl Hinv Hk) as (s' & -> & Hg); eauto 8.
    + destruct (check_sticky_good (k_sticky i) s (proj2 (proj2 Hl)) Hinv Hk) as (s' & -> & Hg); eauto 8.
  - right. destruct (checker s) eqn:Hk; auto; try (destruct (wait_check _ s) as [s'|] eqn:Hw; [|by auto]);
      right; left; (eexists; split; [reflexivity|]).
    + eapply wait_check_good; eauto. destruct (schedule_work_flag s); auto.
    + eapply wait_check_good; eauto.
    + apply good_ticks; [|done]. destruct Hs; constructor; cbn; try done; intuition congruence.
  - eauto 8.
  - right. right. left. eexists; split; [reflexivity|]. apply good_ticks; [|done]. by destruct Hs.
  - right. right. left. eexists; split; [reflexivity|]. apply good_ticks; [|done].
    destruct Hs; constructor; cbn; try done; intuition discriminate.
  - right. right. left. by apply current_step; [intros c; apply runs_features|].
  - right. right. left. by apply current_step; [intros c; apply runs_features|].
  - right. right. left. by apply current_step; [intros c; same_command|].
  - right. right. left. eexists; split; [reflexivity|]. apply good_ticks; [|done].
    destruct Hs; constructor; cbn; try done; auto; intuition discriminate.
Qed.

Lemma initial_invariant d :
  (forall c, d = Some c -> command_ok c) -> invariant (initial d) /\ command_sequence_id (initial d) <= 1.
Proof.
  intros Hd.
  assert (view (initial d) = spec_start ((fun _ => 1) <$> d)) as Ev by (by destruct d).
  split; [|by destruct d]. split.
  - rewrite Ev. apply consistent_start. destruct d; naive_solver.
  - destruct d as [c|]; constructor; try done; try (intuition discriminate); constructor.
    + change (forall i, is_Some (<[1 := with_sticky c true]> (∅ : gmap Z BatchCommand) !! i) <-> i ∈ [] \/ None = Some i \/ i ∈ [] \/ Some 1 = Some i).
      intros i. rewrite !elem_of_nil, lookup_insert_is_Some', lookup_empty. split; [intros [-> | [? ?]]; auto; done|].
      intros [? | [? | [? | [= <-]]]]; auto; done.
    + intros i x. cbn. intros [[<- <-] | [_ Hx]]%lookup_insert_Some; [done|]. by rewrite lookup_empty in Hx.
    + intros i x. cbn. intros [[<- <-] | [_ Hx]]%lookup_insert_Some; [apply (Hd c eq_refl)|]. by rewrite lookup_empty in Hx.
    + intros i. cbn. rewrite lookup_empty. split; [by intros [? ?]|]. rewrite !elem_of_nil. intuition discriminate.
    + intros i x. cbn. by rewrite lookup_empty.
    + intros i x. cbn. by rewrite lookup_empty.
Qed.

Lemma dangling_oob l s : invariant s -> dangling l s -> step l s = Oob.
Proof.
  intros [Hc Hs] Hd. destruct l; try done; cbn in *.
  - destruct Hd as (id & -> & Hid). unfold run_after, cmd_at. by rewrite Hid.
  - destruct Hd as (Hk & cur & c & Hcur & Hcc & Hf). rewrite Hk.
    destruct (top_some _ (so_have _ Hs Hk)) as [e He].
    destruct (proj2 (own_dom _ _ _ _ _ (so_owned _ Hs) (sequence_id e))) as [n Hn]; [left; by apply top_id|].
    unfold check_have. rewrite He, Hcur, (cmd_at_some _ _ _ Hcc), bind_ret, (cmd_at_some _ _ _ Hn), bind_ret, Hf. done.
Qed.

(** A run keeps the invariant, and stops only at a wait or at one of the two
    accesses of [dangling]. *)
Lemma run_advances ls s :
  Forall tame ls -> invariant s -> command_sequence_id s + zlen ls < 2 ^ 64 ->
  match run ls s with
  | Ret (Some s') => invariant s' /\ rtc spec_step (view s) (view s')
  | Ret None => True
  | Oob => exists ls1 l ls2 s', ls = ls1 ++ l :: ls2 /\ run ls1 s = Ret (Some s') /\ dangling l s'
  | Abort | Fuel => False
  end.
Proof.
  intros Hl. revert s. induction Hl as [|l ls Hl Hls IH]; intros s Hinv Hlt; cbn [run]; [done|].
  rewrite zlen_cons in Hlt. pose proof (zlen_nonneg ls).
  destruct (step_good l s Hl Hinv ltac:(lia)) as [Hd | [-> | (s1 & E1 & Hs & Hr & Hq)]].
  - rewrite (dangling_oob l s Hinv Hd). cbn. by exists [], l, ls, s.
  - done.
  - rewrite E1, bind_ret. pose proof (consistent_steps _ _ (proj1 Hinv) Hr) as Hc1.
    specialize (IH s1 (conj Hc1 Hs) ltac:(lia)). destruct (run ls s1) as [[s2|]| | |]; try done.
    + destruct IH as (? & ?). split; [done | by etrans].
    + destruct IH as (ls1 & l' & ls2 & s2 & -> & E2 & Hd). exists (l :: ls1), l', ls2, s2. split; [done|]. split; [|done].
      cbn [run]. by rewrite E1, bind_ret.
Qed.
