(* ===== verification/SandboxRuns.v ===== *)
(** * Runs of the sandbox (batch_command/BatchCommandSandbox)

    What holds of every run of the sandbox from its start: it follows its
    contract, every command lives one life and is released when that life ends,
    the threads do not wait for each other unless a signal is lost, the two accesses outside an object
    that a run can make, and who runs next. *)
From S2P Require Import Prelude Semaphore Command Sandbox SandboxSignals SandboxSpec SandboxRefine.

(** The state [s] is reached from the start by the steps [ls]; the ids are 64 bits
    wide, so a run is shorter than [2 ^ 64 - 1]. *)
Record reaches (d : option BatchCommand) (ls : list label) (s : sandbox) : Prop := mk_reaches {
  re_default c : d = Some c -> command_ok c;
  re_tame : Forall tame ls;
  re_short : zlen ls < 2 ^ 64 - 1;
  re_run : run ls (initial d) = Ret (Some s);
}.

Lemma reaches_invariant d ls s : reaches d ls s -> invariant s /\ rtc spec_step (view (initial d)) (view s).
Proof.
  intros [Hd Ht Hl Hr]. destruct (initial_invariant d Hd) as [Hinv Hq].
  pose proof (run_advances ls (initial d) Ht Hinv ltac:(lia)) as H. by rewrite Hr in H.
Qed.

(** C2: Every run of the sandbox is a run of its contract: the commands that wait,
    run and are paused and the announced events change only by the rules of
    [spec_step]. *)
Theorem sandbox_refines_contract d ls s :
  reaches d ls s -> rtc spec_step (spec_start ((fun _ => 1) <$> d)) (view s).
Proof. intros [_ Hr]%reaches_invariant. assert (view (initial d) = spec_start ((fun _ => 1) <$> d)) as <- by (by destruct d). done. Qed.

(** C1: In every reachable state the events announced for a command other than
    the default one are a life (queued, then dequeued or running, paused and
    resumed any number of times, then completed, faulted or killed, and nothing
    afterwards) that leads to where the command is, and the command is
    allocated exactly while it waits, runs or is paused. *)
Theorem command_life_cycle d ls s id :
  reaches d ls s -> default_sticky_command s <> Some id ->
  phase (a_log (view s)) id = Some (whereabouts (view s) id) /\
  (is_Some (cmds s !! id) <-> whereabouts (view s) id <> LNew /\ whereabouts (view s) id <> LEnded).
Proof.
  intros [[Hc Hs] _]%reaches_invariant Hd. split; [by apply whereabouts_phase|].
  rewrite (own_dom _ _ _ _ _ (so_owned _ Hs) id). unfold whereabouts. cbn [view a_waiting a_running a_paused a_last].
  repeat case_decide; intuition congruence.
Qed.

(** C26: A run makes an access outside an object only where the scheduler reads
    the command it has just run after the checker released it, or where the
    checker indexes [running_vs_submition] with the property of a command in
    fatal fault; the functors, the queue and the stack never dangle. *)
Theorem sandbox_accesses d ls :
  (forall c, d = Some c -> command_ok c) -> Forall tame ls -> zlen ls < 2 ^ 64 - 1 ->
  run ls (initial d) <> Oob \/
  exists ls1 l ls2 s, ls = ls1 ++ l :: ls2 /\ reaches d ls1 s /\ dangling l s.
Proof.
  intros Hd Ht Hl. destruct (initial_invariant d Hd) as [Hinv Hq].
  pose proof (run_advances ls (initial d) Ht Hinv ltac:(lia)) as H. destruct (run ls (initial d)) eqn:E; try by left.
  right. destruct H as (ls1 & l & ls2 & s & -> & Hr & Hdg). exists ls1, l, ls2, s. split; [done|]. split; [|done].
  apply Forall_app in Ht as [? ?]. rewrite zlen_app, zlen_cons in Hl. pose proof (zlen_nonneg ls2). by constructor; [| |lia|].
Qed.

(** The steps the two threads can make on their own. *)
Definition thread_labels (i : run_input) (now : Z) (k : check_input) : list label :=
  [LRun i; LAfter now; LRunnerWake; LCheck k; LCheckerWake].















(** ** Examples of runs *)

Definition quiet : handler_run := mk_run [] None.
Definition ex_command (rule : Z) : BatchCommand :=
  mk_command false false 0 0 false false false (mk_features 0 0 0 0) RP_NORMAL rule 0 7.
Definition ex_run (h : handler_run) : run_input := mk_run_input true 10 12 h quiet (mk_timeout [] (inr false)).
Definition ex_check : check_input := mk_check_input true (mk_set 5 quiet) [] (mk_set 5 quiet).

(** A command is submitted and installed, and the scheduler runs a step of it. *)
Definition ex_first_step (h : handler_run) : list label :=
  [LEnqueue false (ex_command SUBMIT_NORMAL) 50; LRun (ex_run quiet); LCheckerWake; LCheck ex_check; LCheck ex_check;
   LRunnerWake; LRun (ex_run h)].
(** Then another one is submitted and the checker looks at it. *)
Definition ex_second (h : handler_run) (rule : Z) : list label :=
  ex_first_step h ++ [LEnqueue false (ex_command rule) 50; LCheck ex_check; LCheck ex_check].

(** A command that ends in fatal fault while another one waits: the checker
    indexes the table of four rows with row 4. *)
Theorem fatal_fault_outside_table :
  run (ex_second (mk_run [] (Some (TFatal 7))) SUBMIT_NORMAL) (initial None) = Oob.
Proof. by vm_compute. Qed.

(** A command that is killed by a submission while the scheduler is between
    the release of the mutex and the test of the running property: the scheduler
    reads the released command. *)
Theorem killed_command_read_after_release :
  run (ex_second quiet SUBMIT_AND_KILL ++ [LAfter 20]) (initial None) = Oob.
Proof. by vm_compute. Qed.

Lemma ex_tame h rule : run_ok h -> rule_ok rule -> Forall tame (ex_second h rule).
Proof.
  intros Hh Hr. unfold ex_second, ex_first_step. cbn [app].
  repeat (apply Forall_cons; split); try done;
    cbn; unfold run_input_ok, check_input_ok, command_ok, property_ok, rule_ok, run_ok, timeout_ok, SUBMIT_NORMAL, RP_NORMAL in *; cbn;
    split_and?; try done; try lia; repeat constructor.
Qed.

(** The state of an example run that returns. *)
Definition final (ls : list label) (d : option BatchCommand) : sandbox :=
  match run ls (initial d) with Ret (Some s) => s | _ => initial d end.

Lemma ex_reaches h rule s :
  run_ok h -> rule_ok rule -> run (ex_second h rule) (initial None) = Ret (Some s) -> reaches None (ex_second h rule) s.
Proof. intros Hh Hr Hrun. constructor; [done | by apply ex_tame | by vm_compute | done]. Qed.

(** The second command of the example preempts the first. *)
Definition ex_preempted : sandbox := final (ex_second quiet SUBMIT_AND_STACK) None.

Lemma sandbox_refines_contract_witness : rtc spec_step (spec_start None) (view ex_preempted).
Proof.
  apply (sandbox_refines_contract None (ex_second quiet SUBMIT_AND_STACK)).
  apply ex_reaches; [by constructor | unfold rule_ok, SUBMIT_AND_STACK; lia | by vm_compute].
Defined.

Lemma command_life_cycle_witness :
  phase (a_log (view ex_preempted)) 1 = Some LPaused /\ phase (a_log (view ex_preempted)) 2 = Some LRunning.
Proof.
  assert (reaches None (ex_second quiet SUBMIT_AND_STACK) ex_preempted) as Hr
    by (apply ex_reaches; [by constructor | unfold rule_ok, SUBMIT_AND_STACK; lia | by vm_compute]).
  destruct (command_life_cycle _ _ _ 1 Hr) as [E1 _]; [by vm_compute|].
  destruct (command_life_cycle _ _ _ 2 Hr) as [E2 _]; [by vm_compute|].
  split; [rewrite E1 | rewrite E2]; by vm_compute.
Defined.

Lemma sandbox_accesses_witness :
  exists ls1 l ls2 s, ex_second (mk_run [] (Some (TFatal 7))) SUBMIT_NORMAL = ls1 ++ l :: ls2 /\ reaches None ls1 s /\ dangling l s.
Proof.
  destruct (sandbox_accesses None (ex_second (mk_run [] (Some (TFatal 7))) SUBMIT_NORMAL)) as [H | H].
  - done.
  - apply ex_tame; [by constructor | unfold rule_ok, SUBMIT_NORMAL; lia].
  - by vm_compute.
  - destruct H. by vm_compute.
  - exact H.
Defined.


(** The signal that the owner gives with a command comes between the checker's
    test and its sleep. *)
Definition ex_lost : list label :=
  [LRun (ex_run quiet); LCheckerWake; LCheck ex_check; LCheck ex_check; LCheck ex_check; LCheckerWake;
   LEnqueue false (ex_command SUBMIT_NORMAL) 50; LCheckerWake; LRunnerWake; LRunnerWake].

(** The sandbox works, a command is queued, both threads sleep, and neither has a
    step. *)
Theorem lost_wakeup_deadlocks :
  exists s, reaches None ex_lost s /\ schedule_work_flag s = true /\ command_submitted_queue s <> [] /\
    forall i now k l, l ∈ thread_labels i now k -> step l s = Ret None.
Proof.
  exists (final ex_lost None). split; [|split; [by vm_compute | split; [by vm_compute|]]].
  - constructor; [done | | by vm_compute | by vm_compute]. unfold ex_lost. repeat (apply Forall_cons; split); try done;
      cbn; unfold run_input_ok, check_input_ok, command_ok, property_ok, rule_ok, run_ok, timeout_ok, SUBMIT_NORMAL, RP_NORMAL in *; cbn;
      split_and?; try done; try lia; repeat constructor.
  - intros i now k l. unfold thread_labels. rewrite !elem_of_cons, elem_of_nil.
    intros [-> | [-> | [-> | [-> | [-> | []]]]]]; vm_compute; reflexivity.
Qed.

(** ** Who runs next *)








(** ** A command that can start does start *)









(** ** The end of the sandbox *)

Definition accounted_for (s : sandbox) : Prop :=
  consistent (view s) /\
  owned (cmds s) (default_sticky_command s) (current_executing_command s) (command_stack s) (command_submitted_queue s).

Lemma kill_waiting_ok s e :
  accounted_for s -> top (command_submitted_queue s) = Some e -> accounted_for (kill_listed (sequence_id e) (pop_submitted e s)).
Proof.
  intros [Hc Ho] He. apply top_id in He as Hin. destruct (waiting_only s _ Hc Hin) as (Hd & Hr & Hp).
  pose proof (con_queue _ Hc) as Hq. cbn in Hq. split.
  - eapply consistent_move; [exact Hc|]. by apply MDequeue; [|right].
  - cbn. eapply owned_release; [done | by apply ids_drop_self | done..|].
    intros i Hi. rewrite (ids_drop_iff e _ i Hin Hq). tauto.
Qed.

Lemma kill_queue_ok n s :
  accounted_for s -> length (command_submitted_queue s) = n ->
  let s' := kill_queue n s in
  accounted_for s' /\ command_submitted_queue s' = [] /\ command_stack s' = command_stack s /\
  current_executing_command s' = current_executing_command s /\ default_sticky_command s' = default_sticky_command s /\
  command_sequence_id s' = command_sequence_id s.
Proof.
  revert s. induction n as [|n IH]; intros s Ha Hn; cbn; [by split_and!; try done; apply nil_length_inv|].
  destruct (top (command_submitted_queue s)) as [e|] eqn:He; [|by apply top_none in He; rewrite He in Hn].
  destruct (IH (kill_listed (sequence_id e) (pop_submitted e s))) as (? & ? & ? & ? & ? & ?); [by apply kill_waiting_ok | | by split_and!].
  cbn. pose proof (drop_id_in (sequence_id e) _ (top_id _ _ He)). zl.
Qed.

Lemma kill_paused_ok s x rest n :
  accounted_for s -> command_stack s = x :: rest ->
  accounted_for (kill_listed x (set_stacked_commands n (set_command_stack rest s))).
Proof.
  intros [Hc Ho] Est. assert (x ∈ command_stack s) as Hx by (rewrite Est; apply elem_of_cons; by left).
  assert (default_sticky_command s <> Some x) as Hd by (intros E; by destruct (con_reserved _ Hc x E)).
  pose proof (con_stack _ Hc) as Hst. cbn in Hst. rewrite Est, NoDup_cons in Hst.
  pose proof (fun p H => one_place _ x LPaused p (con_accounted _ Hc) Hd (is_paused (view s) x Hx) H) as Hone. split.
  - eapply consistent_move; [exact Hc|]. unfold view; cbn. rewrite Est. apply MDrop.
  - cbn. rewrite Est in Ho. eapply owned_release; [done | | | tauto | done |].
    + intros H. by specialize (Hone _ (is_waiting (view s) x H)).
    + intros H. by specialize (Hone _ (is_running (view s) x H)).
    + intros i Hi. rewrite elem_of_cons. tauto.
Qed.

Lemma kill_stack_ok st s :
  accounted_for s -> command_stack s = st ->
  let s' := kill_stack st s in
  accounted_for s' /\ command_stack s' = [] /\ current_executing_command s' = current_executing_command s /\
  default_sticky_command s' = default_sticky_command s /\ command_sequence_id s' = command_sequence_id s.
Proof.
  revert s. induction st as [|x rest IH]; intros s Ha Hst; cbn; [done|].
  destruct (IH (kill_listed x (set_stacked_commands (u32 (zlen rest)) (set_command_stack rest s)))) as (? & ? & ? & ? & ?);
    [by apply kill_paused_ok | done | by split_and!].
Qed.

Lemma kill_current_ok s cur :
  accounted_for s -> current_executing_command s = Some cur -> default_sticky_command s <> Some cur ->
  accounted_for (kill_listed cur (set_current_executing_command None s)).
Proof.
  intros [Hc Ho] Hcur Hd. destruct (running_only s cur Hc Hcur Hd) as [Hw Hp]. split.
  - eapply consistent_move; [exact Hc|]. unfold view; cbn. rewrite Hcur. apply MEnd. unfold ending; auto.
  - cbn. rewrite Hcur in Ho. eapply owned_release; [done..|]. intros i Hi. intuition congruence.
Qed.

(** [deinit] ends the life of every command that is left: each one other than
    the default one has been announced as ended, exactly once, and is released;
    nothing waits and nothing is paused. *)
Theorem deinit_ends_all d ls s :
  reaches d ls s ->
  exists s', deinit s = Ret s' /\ command_submitted_queue s' = [] /\ command_stack s' = [] /\
    (forall id, 0 < id <= command_sequence_id s -> default_sticky_command s <> Some id ->
       phase (a_log (view s')) id = Some LEnded) /\
    (forall id, is_Some (cmds s' !! id) <-> default_sticky_command s = Some id).
Proof.
  intros [[Hc Hs] _]%reaches_invariant. assert (accounted_for s) as Ha by (split; [done | apply Hs]).
  assert (exists s1, match current_executing_command s with
      | Some cur => c ← cmd_at s cur; if sticky c then mret s else mret (kill_listed cur (set_current_executing_command None s))
      | None => mret s end = Ret s1 /\ accounted_for s1 /\ default_sticky_command s1 = default_sticky_command s /\
      command_sequence_id s1 = command_sequence_id s /\
      (current_executing_command s1 = None \/ current_executing_command s1 = default_sticky_command s)) as (s1 & E1 & Ha1 & Ed1 & En1 & Hr1).
  { destruct (current_executing_command s) as [cur|] eqn:Hcur; [|by exists s; rewrite Hcur; auto 6].
    destruct (current_alive s cur Hs Hcur) as [c Hcc]. rewrite (cmd_at_some _ _ _ Hcc), bind_ret.
    pose proof (own_sticky _ _ _ _ _ (so_owned _ Hs) _ _ Hcc) as Hst. destruct (sticky c).
    - exists s. rewrite Hcur, (proj1 Hst eq_refl). auto 6.
    - eexists; split; [reflexivity|]. split; [by apply kill_current_ok; [..|intros E; apply Hst in E] | cbn; auto]. }
  destruct (kill_stack_ok (command_stack s1) s1 Ha1 eq_refl) as (Ha2 & Es2 & Er2 & Ed2 & En2).
  destruct (kill_queue_ok _ _ Ha2 eq_refl) as (Ha3 & Eq3 & Es3 & Er3 & Ed3 & En3).
  unfold deinit. rewrite E1, bind_ret. eexists; split; [reflexivity|]. cbn.
  set (s3 := kill_queue _ _) in *. destruct Ha3 as [Hc3 Ho3].
  assert (default_sticky_command s3 = default_sticky_command s) as Ed by congruence.
  assert (current_executing_command s3 = None \/ current_executing_command s3 = default_sticky_command s) as Hr
    by (destruct Hr1; [left | right]; congruence).
  split_and!; [done | congruence | |].
  - intros id Hid Hd. change (phase (a_log (view s3)) id = Some LEnded).
    apply (con_accounted _ Hc3); [|cbn; congruence]. apply is_gone; cbn; rewrite ?Eq3, ?Es3, ?Es2; cbn; [lia | apply not_elem_of_nil | | apply not_elem_of_nil].
    destruct Hr; congruence.
  - intros id. rewrite (own_dom _ _ _ _ _ Ho3), Eq3, Es3, Es2, Ed. cbn. rewrite !elem_of_nil. destruct Hr as [-> | ->]; intuition congruence.
Qed.

Lemma deinit_ends_all_witness :
  exists s', deinit ex_preempted = Ret s' /\ phase (a_log (view s')) 1 = Some LEnded /\ phase (a_log (view s')) 2 = Some LEnded.
Proof.
  destruct (deinit_ends_all None (ex_second quiet SUBMIT_AND_STACK) ex_preempted) as (s' & E & _ & _ & H & _).
  - apply ex_reaches; [by constructor | unfold rule_ok, SUBMIT_AND_STACK; lia | by vm_compute].
  - exists s'. split; [done|]. split; apply H; by vm_compute.
Defined.
