(* ===== verification/Executor.v ===== *)
(** * The command executor (batch_command/BatchCommandExecutor)

    The executor owns the sandboxes, makes commands out of their descriptions,
    and keeps the history of the commands: a queue of states in the order of
    submission and a map from ids to the same states.  The states are shared
    between the queue and the map, so they live in a store of their own.  What
    the sandbox announces goes to [handleCommandEvent]; a timer caps the
    history. *)
From S2P Require Import Prelude Command Sandbox SandboxSpec SandboxRefine SandboxRuns.

(** ** The history of the commands *)

(** The values of [BatchCommandEventType]. *)
Definition event_number (t : command_event) : Z :=
  match t with
  | EVT_QUEUED => 0 | EVT_WAITING => 1 | EVT_RUNNING => 2 | EVT_PAUSED => 3 | EVT_COMPLETED => 4
  | EVT_FAULT => 5 | EVT_KILLED => 6 | EVT_FATAL_FAULT => 7 | EVT_DEQUEUE => 8
  end.

Record CommandState := mk_state { command_id : Z; last_event : command_event; fault_description : Z }.

Record history := mk_history {
  store : gmap nat CommandState;
  next_loc : nat;
  command_state_queue : list nat;
  command_state_fast_access_map : gmap Z nat;
  command_state_queue_max_size : Z;
}.

Definition COMMAND_STATE_QUEUE_DEFAULT_SIZE : Z := 50.
Definition new_history : history := mk_history ∅ 0 [] ∅ COMMAND_STATE_QUEUE_DEFAULT_SIZE.

Definition addComamndState (id : Z) (h : history) : history :=
  let l := next_loc h in
  mk_history (<[l := mk_state id EVT_QUEUED 0]> (store h)) (S l) (command_state_queue h ++ [l])
    (match command_state_fast_access_map h !! id with
     | Some _ => command_state_fast_access_map h
     | None => <[id := l]> (command_state_fast_access_map h)
     end) (command_state_queue_max_size h).

Definition getCommandState (h : history) (id : Z) : option CommandState :=
  l ← command_state_fast_access_map h !! id; store h !! l.

Definition set_state (h : history) (id : Z) (f : CommandState -> CommandState) : history :=
  match command_state_fast_access_map h !! id with
  | Some l => mk_history (alter f l (store h)) (next_loc h) (command_state_queue h) (command_state_fast_access_map h)
                (command_state_queue_max_size h)
  | None => h
  end.

(** [fault] is the code of [command_and_fault]. *)
Definition handleCommandEvent (e : event) (h : history) : history :=
  match e_type e with
  | EVT_QUEUED => addComamndState (e_id e) h
  | EVT_FAULT => set_state h (e_id e) (fun st => mk_state (command_id st) EVT_FAULT (default (fault_description st) (e_fault e)))
  | t => set_state h (e_id e) (fun st => mk_state (command_id st) t (fault_description st))
  end.

(** The command has not ended. *)
Definition unfinished (st : CommandState) : bool := event_number (last_event st) <? event_number EVT_COMPLETED.

(** The loop of [capCommanaQueue] over the queue: the states kept aside, what is
    left of the queue, and the map. *)
Fixpoint cap_loop (s : gmap nat CommandState) (max idx : Z) (q kept : list nat) (m : gmap Z nat) : outcome (list nat * list nat * gmap Z nat) :=
  if idx >=? max then
    match q with
    | [] => mret (q, kept, m)
    | l :: q' =>
        match s !! l with
        | None => Oob
        | Some st =>
            if unfinished st then cap_loop s max idx q' (kept ++ [l]) m
            else cap_loop s max (u64 (idx - 1)) q' kept (delete (command_id st) m)
        end
    end
  else mret (q, kept, m).

Definition capCommanaQueue (h : history) : outcome history :=
  if zlen (command_state_queue h) <=? command_state_queue_max_size h then mret h
  else
    r ← cap_loop (store h) (command_state_queue_max_size h) (zlen (command_state_queue h) - 1) (command_state_queue h) []
          (command_state_fast_access_map h);
    let '(q, kept, m) := r in
    mret (mk_history (store h) (next_loc h) (rev kept ++ q) m (command_state_queue_max_size h)).

(** [flushCommandStates]; [q] is the queue from its back. *)
Fixpoint flush_loop (s : gmap nat CommandState) (q : list nat) (m : gmap Z nat) : outcome (list nat * gmap Z nat) :=
  match q with
  | [] => mret (q, m)
  | l :: q' =>
      match s !! l with
      | None => Oob
      | Some st => if unfinished st then mret (q, m) else flush_loop s q' (delete (command_id st) m)
      end
  end.
Definition flushCommandStates (h : history) : outcome history :=
  r ← flush_loop (store h) (rev (command_state_queue h)) (command_state_fast_access_map h);
  mret (mk_history (store h) (next_loc h) (rev (fst r)) (snd r) (command_state_queue_max_size h)).

(** What happens to the history: an event of the sandbox, the timer, a flush. *)
Inductive history_op := HEvent (e : event) | HCap | HFlush.

Definition history_step (o : history_op) (h : history) : outcome history :=
  match o with
  | HEvent e => mret (handleCommandEvent e h)
  | HCap => capCommanaQueue h
  | HFlush => flushCommandStates h
  end.
Fixpoint history_run (os : list history_op) (h : history) : outcome history :=
  match os with [] => mret h | o :: os' => h' ← history_step o h; history_run os' h' end.

(** The events among the operations, newest first. *)
Fixpoint history_events (os : list history_op) : list event :=
  match os with [] => [] | HEvent e :: os' => history_events os' ++ [e] | _ :: os' => history_events os' end.

(** ** The invariant of the history *)

(** The queue [q] and the map [m] hold the same states. *)
Record linked (s : gmap nat CommandState) (q : list nat) (m : gmap Z nat) : Prop := mk_linked {
  li_nodup : NoDup q;
  li_queue l : l ∈ q -> exists st, s !! l = Some st /\ m !! command_id st = Some l;
  li_map id l : m !! id = Some l -> l ∈ q /\ exists st, s !! l = Some st /\ command_id st = id;
}.

Record tidy (h : history) : Prop := mk_tidy {
  ti_linked : linked (store h) (command_state_queue h) (command_state_fast_access_map h);
  ti_next l st : store h !! l = Some st -> (l < next_loc h)%nat;
  ti_max : 0 < command_state_queue_max_size h;
}.

Lemma linked_perm s q q' m : q ≡ₚ q' -> linked s q m -> linked s q' m.
Proof.
  intros Hp [Hn Hq Hm]. constructor.
  - by rewrite <- Hp.
  - intros l. rewrite <- Hp. apply Hq.
  - intros id l. rewrite <- Hp. apply Hm.
Qed.

(** Dropping a state from the queue and from the map. *)
Lemma linked_drop s l q m st : linked s (l :: q) m -> s !! l = Some st -> linked s q (delete (command_id st) m).
Proof.
  intros [Hn Hq Hm] Hl. apply NoDup_cons in Hn as [Hnl Hn]. constructor; [done | |].
  - intros l' Hl'. destruct (Hq l') as (st' & Hs' & Hm'); [by apply elem_of_cons; right|]. exists st'. split; [done|].
    rewrite lookup_delete_ne; [done|]. intros E. destruct (Hq l) as (st'' & Hs'' & Hm''); [by apply elem_of_cons; left|].
    simplify_eq. rewrite E in Hm''. congruence.
  - intros id l'. rewrite lookup_delete_Some. intros [Hne Hid]. destruct (Hm id l' Hid) as ([-> | Hin]%elem_of_cons & st' & Hs' & <-).
    + by simplify_eq.
    + eauto.
Qed.

(** What capping and flushing do to the map: only states of ended commands go. *)
Definition prunes (s : gmap nat CommandState) (m m' : gmap Z nat) : Prop :=
  forall id, m' !! id = m !! id \/
    (m' !! id = None /\ exists l st, m !! id = Some l /\ s !! l = Some st /\ unfinished st = false).

Lemma prunes_refl s m : prunes s m m.
Proof. by left. Qed.

Lemma prunes_drop s l q m m' st :
  linked s (l :: q) m -> s !! l = Some st -> unfinished st = false -> prunes s (delete (command_id st) m) m' -> prunes s m m'.
Proof.
  intros [_ Hq _] Hl Hu Hp id. destruct (Hq l) as (st' & Hs' & Hm'); [by apply elem_of_cons; left|]. simplify_eq.
  destruct (decide (id = command_id st)) as [-> | Hne].
  - right. split; [|eauto]. destruct (Hp (command_id st)) as [E | [E _]]; [by rewrite lookup_delete_eq in E | done].
  - destruct (Hp id) as [E | (E & H)]; rewrite lookup_delete_ne in * by done; auto.
Qed.

Lemma cap_loop_spec s max idx q kept m :
  0 < max -> idx = zlen (kept ++ q) - 1 -> idx < 2 ^ 64 -> linked s (kept ++ q) m ->
  Forall (fun l => exists st, s !! l = Some st /\ unfinished st = true) kept ->
  exists q' kept' m', cap_loop s max idx q kept m = Ret (q', kept', m') /\
    linked s (kept' ++ q') m' /\ prunes s m m' /\ zlen (kept' ++ q') <= zlen (kept ++ q) /\
    (zlen (kept' ++ q') <= max \/ Forall (fun l => exists st, s !! l = Some st /\ unfinished st = true) (kept' ++ q')).
Proof.
  intros Hmax. revert idx kept m. induction q as [|l q IH]; intros idx kept m Hidx Hlt Hli Hk; cbn [cap_loop].
  - exists [], kept, m. split; [by case_match|]. split_and!; [done | apply prunes_refl | done |]. rewrite app_nil_r. auto.
  - destruct (idx >=? max) eqn:E.
    + destruct (li_queue _ _ _ Hli l) as (st & Hl & _); [apply elem_of_app; right; apply elem_of_cons; by left|]. rewrite Hl.
      destruct (unfinished st) eqn:Hu.
      * destruct (IH idx (kept ++ [l]) m) as (q' & k' & m' & -> & H); [by rewrite <- app_assoc | done | by rewrite <- app_assoc | | rewrite <- app_assoc in H; eauto 8].
        apply Forall_app. split; [done|]. by repeat constructor; eauto.
      * assert (linked s (l :: kept ++ q) m) as Hli' by (eapply linked_perm; [|done]; by rewrite Permutation_middle).
        destruct (IH (u64 (idx - 1)) kept (delete (command_id st) m)) as (q' & k' & m' & -> & H1 & H2 & H3 & H4); try done.
        -- unfold u64. rewrite Z.mod_small; [|lia]. rewrite Hidx, !zlen_app, zlen_cons. lia.
        -- unfold u64. apply Z.mod_pos_bound. lia.
        -- by eapply linked_drop.
        -- exists q', k', m'. split_and!; try done; [by eapply prunes_drop|].
           rewrite (zlen_app kept (l :: q)), zlen_cons. rewrite (zlen_app kept q) in H3. lia.
    + exists (l :: q), kept, m. split_and!; [done | done | apply prunes_refl | done | left]. lia.
Qed.

Lemma flush_loop_spec s q m :
  linked s q m -> exists q' m', flush_loop s q m = Ret (q', m') /\ linked s q' m' /\ prunes s m m' /\ zlen q' <= zlen q.
Proof.
  revert m. induction q as [|l q IH]; intros m Hli; cbn [flush_loop]; [by exists [], m; split_and!; [| |apply prunes_refl|]|].
  destruct (li_queue _ _ _ Hli l) as (st & Hl & _); [apply elem_of_cons; by left|]. rewrite Hl.
  destruct (unfinished st) eqn:Hu; [by exists (l :: q), m; split_and!; [| |apply prunes_refl|]|].
  destruct (IH (delete (command_id st) m)) as (q' & m' & -> & H1 & H2 & H3); [by eapply linked_drop|].
  exists q', m'. split_and!; try done; [by eapply prunes_drop | rewrite zlen_cons; lia].
Qed.

Definition history_alive (h : history) (id : Z) : Prop := exists st, getCommandState h id = Some st /\ unfinished st = true.

(** Capping and flushing. *)
Record trims (h h' : history) : Prop := mk_trims {
  tr_tidy : tidy h';
  tr_store : store h' = store h;
  tr_prunes : prunes (store h) (command_state_fast_access_map h) (command_state_fast_access_map h');
  tr_length : zlen (command_state_queue h') <= zlen (command_state_queue h);
}.

Lemma cap_trims h :
  tidy h -> zlen (command_state_queue h) < 2 ^ 64 ->
  exists h', capCommanaQueue h = Ret h' /\ trims h h' /\
    (zlen (command_state_queue h') <= command_state_queue_max_size h \/
     Forall (fun l => exists st, store h !! l = Some st /\ unfinished st = true) (command_state_queue h')).
Proof.
  intros [Hl Hn Hm] Hlt. unfold capCommanaQueue. destruct (_ <=? _) eqn:E.
  { exists h. split_and!; [done | by split; [split| |apply prunes_refl|] | left; lia]. }
  destruct (cap_loop_spec (store h) (command_state_queue_max_size h) (zlen (command_state_queue h) - 1) (command_state_queue h) []
              (command_state_fast_access_map h)) as (q' & k' & m' & -> & H1 & H2 & H4 & H3); [done | done | lia | done | constructor |].
  rewrite bind_ret. eexists; split; [reflexivity|]. cbn.
  assert (k' ++ q' ≡ₚ rev k' ++ q') as Hperm by (by rewrite <- (Permutation_rev k')).
  assert (zlen (rev k' ++ q') = zlen (k' ++ q')) as Hlen by (unfold zlen; by rewrite Hperm).
  split; [split; [split | | |]; try done; cbn; [by eapply linked_perm | rewrite Hlen; done]|].
  destruct H3 as [H3 | H3]; [left | right].
  - by rewrite Hlen.
  - by rewrite <- Hperm.
Qed.

Lemma flush_trims h : tidy h -> exists h', flushCommandStates h = Ret h' /\ trims h h'.
Proof.
  intros [Hl Hn Hm]. unfold flushCommandStates.
  destruct (flush_loop_spec (store h) (rev (command_state_queue h)) (command_state_fast_access_map h)) as (q' & m' & -> & H1 & H2 & H3).
  - eapply linked_perm; [apply Permutation_rev | done].
  - rewrite bind_ret. eexists; split; [reflexivity|]. split; [split | | |]; try done; cbn.
    + eapply linked_perm; [apply Permutation_rev | done].
    + unfold zlen in *. by rewrite !length_rev in *.
Qed.

(** What is left of a state. *)
Lemma trims_state h h' id :
  trims h h' -> getCommandState h' id = getCommandState h id \/
  (getCommandState h' id = None /\ exists st, getCommandState h id = Some st /\ unfinished st = false).
Proof.
  intros [_ Hs Hp _]. unfold getCommandState. rewrite Hs. destruct (Hp id) as [-> | (-> & l & st & -> & Hl & Hu)]; [by left|].
  right. split; [done|]. eauto.
Qed.

Lemma tidy_queued h id : tidy h -> command_state_fast_access_map h !! id = None -> tidy (addComamndState id h).
Proof.
  intros [[Hn Hq Hm] Hx Hmax] Hid. unfold addComamndState. rewrite Hid.
  assert (store h !! next_loc h = None) as Hfresh by (apply eq_None_not_Some; intros [st Hst]; apply Hx in Hst; lia).
  assert (next_loc h ∉ command_state_queue h) as Hnq by (intros Hin; destruct (Hq _ Hin) as (? & ? & ?); congruence).
  constructor; cbn; [constructor | |done].
  - apply NoDup_app. split_and!; [done | | apply NoDup_singleton]. intros l Hl ->%list_elem_of_singleton. done.
  - intros l [Hl | ->%list_elem_of_singleton]%elem_of_app.
    + destruct (Hq l Hl) as (st & Hs & Hms). exists st. rewrite !lookup_insert_ne; [done | | ]; congruence.
    + exists (mk_state id EVT_QUEUED 0). by rewrite !lookup_insert_eq.
  - intros i l Hi. rewrite elem_of_app, list_elem_of_singleton. apply lookup_insert_Some in Hi as [[<- <-] | [Hne Hi]].
    + split; [by right|]. rewrite lookup_insert_eq. by eexists.
    + destruct (Hm i l Hi) as (Hl & st & Hs & <-). split; [by left|]. exists st. rewrite lookup_insert_ne by congruence. done.
  - intros l st [[<- _] | [_ Hs]]%lookup_insert_Some; [lia|]. apply Hx in Hs. lia.
Qed.

Lemma queued_state h id i :
  command_state_fast_access_map h !! id = None -> tidy h ->
  getCommandState (addComamndState id h) i = if decide (i = id) then Some (mk_state id EVT_QUEUED 0) else getCommandState h i.
Proof.
  intros Hid [[_ _ Hm] Hx _]. unfold addComamndState, getCommandState. rewrite Hid. cbn. case_decide as E.
  - subst. rewrite lookup_insert_eq. cbn. by rewrite lookup_insert_eq.
  - rewrite lookup_insert_ne by done. destruct (command_state_fast_access_map h !! i) as [l|] eqn:Hi; [|done]. cbn.
    rewrite lookup_insert_ne; [done|]. intros <-. destruct (Hm i _ Hi) as (_ & st & Hs & _). apply Hx in Hs. lia.
Qed.

Lemma tidy_set h id f : (forall st, command_id (f st) = command_id st) -> tidy h -> tidy (set_state h id f).
Proof.
  intros Hf [[Hn Hq Hm] Hx Hmax]. unfold set_state. destruct (command_state_fast_access_map h !! id) as [l|]; [|done].
  constructor; cbn; [constructor; [done | |] | | done].
  - intros k Hk. destruct (Hq k Hk) as (st & Hs & Hms). destruct (decide (l = k)) as [<- | Hne].
    + exists (f st). rewrite lookup_alter_eq, Hs. by rewrite Hf.
    + exists st. by rewrite lookup_alter_ne by done.
  - intros i k Hi. destruct (Hm i k Hi) as (Hk & st & Hs & <-). split; [done|]. destruct (decide (l = k)) as [<- | Hne].
    + exists (f st). by rewrite lookup_alter_eq, Hs.
    + exists st. by rewrite lookup_alter_ne by done.
  - intros k st Hst. destruct (decide (l = k)) as [<- | Hne].
    + rewrite lookup_alter_eq in Hst. destruct (store h !! l) eqn:E; [|done]. eauto.
    + rewrite lookup_alter_ne in Hst by done. eauto.
Qed.

Lemma set_state_lookup h id f i :
  tidy h -> getCommandState (set_state h id f) i = if decide (i = id) then f <$> getCommandState h id else getCommandState h i.
Proof.
  intros [[_ _ Hm] _ _]. unfold set_state, getCommandState. destruct (command_state_fast_access_map h !! id) as [l|] eqn:Hid; cbn.
  - case_decide as E.
    + subst. rewrite Hid. cbn. by rewrite lookup_alter_eq.
    + destruct (command_state_fast_access_map h !! i) as [k|] eqn:Hi; [|done]. cbn. rewrite lookup_alter_ne; [done|].
      intros <-. destruct (Hm _ _ Hid) as (_ & st & Hs & ?), (Hm _ _ Hi) as (_ & st' & Hs' & ?). congruence.
  - case_decide as E; [subst; by rewrite Hid | done].
Qed.

(** ** The history follows the sandbox *)

Fixpoint last_of (log : list (Z * command_event)) (id : Z) : option command_event :=
  match log with [] => None | (i, t) :: log' => if i =? id then Some t else last_of log' id end.

(** The last event of a command tells its phase. *)
Definition announces (p : life) (t : option command_event) : Prop :=
  match p with
  | LNew => t = None
  | LQueued => t = Some EVT_QUEUED
  | LRunning => t = Some EVT_RUNNING
  | LPaused => t = Some EVT_PAUSED
  | LEnded => exists e, t = Some e /\ event_number EVT_COMPLETED <= event_number e
  end.

Lemma phase_last log id p : phase log id = Some p -> announces p (last_of log id).
Proof.
  revert p. induction log as [|[i t] log IH]; intros p; [by intros [= <-]|]. cbn. destruct (i =? id); [|apply IH].
  destruct (phase log id) as [p0|]; [|done]. cbn. intros H. destruct p0, t; try done; injection H as <-; cbn; eauto; by eexists; split.
Qed.

(** What the history knows of a command in phase [p] whose last event is [t];
    [kept]: the history was neither capped nor flushed. *)
Definition knows (kept : bool) (h : history) (id : Z) (p : life) (t : option command_event) : Prop :=
  match p with
  | LNew => getCommandState h id = None
  | LEnded => (forall st, getCommandState h id = Some st -> Some (last_event st) = t) /\
              (kept = true -> is_Some (getCommandState h id))
  | _ => exists st, getCommandState h id = Some st /\ Some (last_event st) = t
  end.

Record follows (kept : bool) (d : option Z) (log : list (Z * command_event)) (h : history) : Prop := mk_follows {
  fo_tidy : tidy h;
  fo_default i : d = Some i -> getCommandState h i = None;
  fo_knows i p : d <> Some i -> phase log i = Some p -> knows kept h i p (last_of log i);
}.

Definition is_event (o : history_op) : bool := match o with HEvent _ => true | _ => false end.

Lemma unknown h id : tidy h -> getCommandState h id = None -> command_state_fast_access_map h !! id = None.
Proof.
  intros [[_ _ Hm] _ _] Hg. unfold getCommandState in Hg. destruct (command_state_fast_access_map h !! id) as [l|] eqn:E; [|done].
  destruct (Hm _ _ E) as (_ & st & Hs & _). cbn in Hg. congruence.
Qed.

Lemma life_event_not_new p t : life_event p t <> Some LNew.
Proof. by destruct p, t. Qed.

(** An event of a command whose life allows it. *)
Lemma follows_event kept d log h e :
  follows kept d log h -> (d <> Some (e_id e) -> phase ((e_id e, e_type e) :: log) (e_id e) <> None) ->
  (d = Some (e_id e) -> e_type e <> EVT_QUEUED) ->
  follows kept d ((e_id e, e_type e) :: log) (handleCommandEvent e h).
Proof.
  intros [Ht Hd Hk] Hlife Hq. set (id := e_id e) in *.
  destruct (decide (e_type e = EVT_QUEUED)) as [Eq | Hne].
  - assert (d <> Some id) as Hdi by (intros E; by apply Hq).
    specialize (Hlife Hdi). rewrite phase_same, Eq in Hlife.
    destruct (phase log id) as [p|] eqn:Ep; [|done]. destruct p; try done.
    pose proof (Hk id LNew Hdi Ep) as Hnone. cbn in Hnone. pose proof (unknown h id Ht Hnone) as Hmap.
    unfold handleCommandEvent. rewrite Eq. fold id. split; [by apply tidy_queued | |].
    + intros i Hi. rewrite queued_state by done. rewrite decide_False by congruence. auto.
    + intros i p Hi. destruct (decide (id = i)) as [<- | Hne].
      * rewrite phase_same, Ep. intros [= <-]. cbn [knows]. rewrite queued_state by done. rewrite decide_True by done.
        cbn. rewrite Z.eqb_refl. by eexists.
      * rewrite phase_other by done. intros Hp. specialize (Hk i p Hi Hp). unfold knows in *. rewrite queued_state by done.
        rewrite decide_False by congruence. cbn. by replace (id =? i) with false by lia.
  - assert (exists f, handleCommandEvent e h = set_state h id f /\ (forall st, command_id (f st) = command_id st /\ last_event (f st) = e_type e))
      as (f & -> & Hf) by (unfold handleCommandEvent; destruct (e_type e); try done; eexists; by split).
    split; [apply tidy_set; [apply Hf | done] | |].
    + intros i Hi. rewrite set_state_lookup by done. case_decide as E; [subst; by rewrite Hd | auto].
    + intros i p Hi. destruct (decide (id = i)) as [<- | Hii].
      * rewrite phase_same. destruct (phase log id) as [p0|] eqn:Ep; [|done]. cbn [mbind option_bind]. intros Hp.
        pose proof (Hk id p0 Hi Ep) as Hkn. cbn [last_of]. rewrite Z.eqb_refl.
        assert (exists st, getCommandState h id = Some st) as [st Hst].
        { destruct p0, (e_type e); try done; destruct Hkn as (st & Hst & _); eauto. }
        assert (getCommandState (set_state h id f) id = Some (f st)) as Hset by (rewrite set_state_lookup by done; by rewrite decide_True, Hst).
        assert (Some (last_event (f st)) = Some (e_type e)) as Hlast by (f_equal; apply Hf).
        unfold knows. destruct p; [by apply life_event_not_new in Hp | by exists (f st).. | split; [intros st' Hst'; congruence | by eexists]].
      * rewrite phase_other by done. intros Hp. specialize (Hk i p Hi Hp). unfold knows in *. rewrite set_state_lookup by done.
        rewrite decide_False by congruence. cbn. by replace (id =? i) with false by lia.
Qed.

(** Capping and flushing forget ended commands only. *)
Lemma follows_trims kept d log h h' : follows kept d log h -> trims h h' -> follows false d log h'.
Proof.
  intros [Ht Hd Hk] Htr. split; [apply Htr | |].
  - intros i Hi. destruct (trims_state h h' i Htr) as [-> | [? _]]; auto.
  - intros i p Hi Hp. specialize (Hk i p Hi Hp). pose proof (phase_last log i p Hp) as Ha.
    destruct (trims_state h h' i Htr) as [E | (E & st & Hst & Hu)]; [unfold knows in *; rewrite E; destruct p; try done; by split; [apply Hk|]|].
    destruct p; unfold knows in *; rewrite E; try done; destruct Hk as (st' & Hst' & Hl); simplify_eq; cbn in Ha;
      rewrite Ha in Hl; injection Hl as Hl; unfold unfinished in Hu; by rewrite Hl in Hu.
Qed.

Lemma phase_older log log' id : phase (log ++ log') id <> None -> phase log' id <> None.
Proof.
  induction log as [|[i t] log IH]; [done|]. cbn. destruct (i =? id); [|done].
  destruct (phase (log ++ log') id); [|done]. intros _. by apply IH.
Qed.

Definition log_of (es : list event) : list (Z * command_event) := map (fun e => (e_id e, e_type e)) es.

Lemma follows_run kept d os log h :
  follows kept d log h ->
  (forall id, d <> Some id -> phase (log_of (history_events os) ++ log) id <> None) ->
  (forall id, d = Some id -> (id, EVT_QUEUED) ∉ log_of (history_events os) ++ log) ->
  zlen (command_state_queue h) + zlen os < 2 ^ 64 ->
  exists h', history_run os h = Ret h' /\ follows (kept && forallb is_event os) d (log_of (history_events os) ++ log) h'.
Proof.
  revert kept log h. induction os as [|o os IH]; intros kept log h Hf Hlife Hq Hlt; [cbn; rewrite andb_true_r; by eexists|].
  rewrite zlen_cons in Hlt. pose proof (zlen_nonneg os). destruct o as [e| |]; cbn [history_run history_step history_events forallb is_event andb] in *; rewrite ?andb_false_r.
  - unfold log_of in *. rewrite map_app, <- app_assoc in *. cbn [map app] in *.
    rewrite bind_ret. apply IH; [|done..|].
    + apply follows_event; [done | |].
      * intros Hd. by apply (phase_older (map (fun e => (e_id e, e_type e)) (history_events os))), Hlife.
      * intros Hd Et. apply (Hq _ Hd). rewrite Et. apply elem_of_app. right. apply elem_of_cons. by left.
    + assert (zlen (command_state_queue (handleCommandEvent e h)) <= zlen (command_state_queue h) + 1); [|lia].
      unfold handleCommandEvent, set_state. destruct (e_type e); cbn; rewrite ?zlen_app; repeat case_match; cbn; try lia; zl.
  - destruct (cap_trims h (fo_tidy _ _ _ _ Hf) ltac:(lia)) as (h1 & -> & Ht & _). rewrite bind_ret.
    pose proof (tr_length _ _ Ht). apply (IH false); [by eapply follows_trims | done.. | lia].
  - destruct (flush_trims h (fo_tidy _ _ _ _ Hf)) as (h1 & -> & Ht). rewrite bind_ret.
    pose proof (tr_length _ _ Ht). apply (IH false); [by eapply follows_trims | done.. | lia].
Qed.

Lemma follows_new d : follows true d [] new_history.
Proof.
  split.
  - split; [split| |]; try done; [apply NoDup_nil_2 | by intros l ?%not_elem_of_nil].
  - done.
  - intros i p _ [= <-]. done.
Qed.

(** C8: The sandbox and the executor together: whenever the events of a run of
    the sandbox are handled, with the history capped and flushed in between at
    any times, the state of every command that waits, runs or is paused is in
    the history with that as its last event, and a command that has ended is
    either there with the event that ended it, the last one announced for it, or
    has been forgotten, which only a cap or a flush does. *)
Theorem history_follows_sandbox d ls s os id :
  reaches d ls s -> history_events os = events s -> zlen os < 2 ^ 64 -> default_sticky_command s <> Some id ->
  exists h, history_run os new_history = Ret h /\
    match whereabouts (view s) id with
    | LNew => getCommandState h id = None
    | LQueued => last_event <$> getCommandState h id = Some EVT_QUEUED
    | LRunning => last_event <$> getCommandState h id = Some EVT_RUNNING
    | LPaused => last_event <$> getCommandState h id = Some EVT_PAUSED
    | LEnded => exists t, last_of (a_log (view s)) id = Some t /\ event_number EVT_COMPLETED <= event_number t /\
        (forall st, getCommandState h id = Some st -> last_event st = t) /\
        (forallb is_event os = true -> is_Some (getCommandState h id))
    end.
Proof.
  intros Hr He Hlt Hd. destruct (reaches_invariant d ls s Hr) as [[Hc _] Hsteps].
  destruct (initial_invariant d (re_default _ _ _ Hr)) as [[Hci _] _].
  assert (unqueued (view s)) as Hu by (eapply unqueued_steps; [exact Hci | done |]; intros i _; destruct d; apply not_elem_of_nil).
  assert (log_of (history_events os) ++ [] = a_log (view s)) as Elog by (rewrite app_nil_r, He; done).
  destruct (follows_run true (default_sticky_command s) os [] new_history (follows_new _)) as (h & E & Hf).
  - intros i Hi. rewrite Elog, (whereabouts_phase _ _ Hc Hi). done.
  - rewrite Elog. exact Hu.
  - cbn. zl.
  - exists h. split; [done|]. rewrite Elog in Hf. pose proof (whereabouts_phase _ _ Hc Hd) as Hp.
    pose proof (fo_knows _ _ _ _ Hf id _ Hd Hp) as Hk. pose proof (phase_last _ _ _ Hp) as Ha.
    destruct (whereabouts (view s) id); unfold knows in Hk; unfold announces in Ha;
      [done | by destruct Hk as (st & -> & Hl); rewrite Ha in Hl.. |].
    destruct Ha as (t & Et & Hn), Hk as [Hk Hkept]. rewrite Et in Hk. exists t. split_and!; try done.
    intros st Hst. specialize (Hk st Hst). congruence.
Qed.

(** The run of the example, its events, and a cap. *)
Lemma history_follows_sandbox_witness :
  exists h, history_run (map HEvent (rev (events ex_preempted)) ++ [HCap]) new_history = Ret h /\
    last_event <$> getCommandState h 1 = Some EVT_PAUSED.
Proof.
  destruct (history_follows_sandbox None (ex_second quiet SUBMIT_AND_STACK) ex_preempted
              (map HEvent (rev (events ex_preempted)) ++ [HCap]) 1) as (h & E & H).
  - apply ex_reaches; [by constructor | unfold rule_ok, SUBMIT_AND_STACK; lia | by vm_compute].
  - by vm_compute.
  - by vm_compute.
  - by vm_compute.
  - exists h. split; [exact E | exact H].
Defined.

(** The timer keeps the history within its size unless the states in it are
    all of commands that have not ended, and never forgets such a command. *)
Theorem history_capped h :
  tidy h -> zlen (command_state_queue h) < 2 ^ 64 ->
  exists h', capCommanaQueue h = Ret h' /\
    (zlen (command_state_queue h') <= command_state_queue_max_size h \/
     Forall (fun l => exists st, store h' !! l = Some st /\ unfinished st = true) (command_state_queue h')) /\
    (forall id, history_alive h id -> getCommandState h' id = getCommandState h id).
Proof.
  intros Hf Hlt. destruct (cap_trims h Hf Hlt) as (h' & E & Ht & Hb). exists h'. split; [done|].
  split; [by rewrite (tr_store _ _ Ht)|].
  intros id (st & Hst & Hu). destruct (trims_state h h' id Ht) as [? | (_ & st' & Hst' & Hu')]; [done | congruence].
Qed.

(** Three commands, the first of which has ended, in a history of size two. *)
Definition ex_history : history :=
  addComamndState 3 (addComamndState 2 (handleCommandEvent (mk_event 1 EVT_COMPLETED 0 0 None)
    (addComamndState 1 (mk_history ∅ 0 [] ∅ 2)))).

Lemma ex_history_tidy : tidy ex_history.
Proof.
  apply tidy_queued; [apply tidy_queued; [apply tidy_set; [done|]; apply tidy_queued|]|]; try by vm_compute.
  split; [split| |]; try done; [apply NoDup_nil_2 | by intros l ?%not_elem_of_nil].
Qed.

Lemma history_capped_witness :
  exists h', capCommanaQueue ex_history = Ret h' /\
    (zlen (command_state_queue h') <= 2 \/
     Forall (fun l => exists st, store h' !! l = Some st /\ unfinished st = true) (command_state_queue h')) /\
    getCommandState h' 2 = Some (mk_state 2 EVT_QUEUED 0).
Proof.
  destruct (history_capped ex_history ex_history_tidy ltac:(by vm_compute)) as (h' & E & Hb & Hk).
  exists h'. split; [done|]. split; [exact Hb|]. rewrite (Hk 2); [by vm_compute|]. by exists (mk_state 2 EVT_QUEUED 0); split; vm_compute.
Defined.

(** ** Submitting commands *)

Definition is_returned {A} (o : outcome (option A)) : bool := match o with Ret (Some _) => true | _ => false end.

(** [CUStateKey::START] *)
Definition CU_START : Z := 2.
Definition COMMAND_BASE_SANDOXX_ID : Z := 0.

(** [map_command_description] by alias; an instancer may fail. *)
Record executor := mk_executor {
  sandbox_map : gmap Z sandbox;
  map_command_description : gmap Z (option BatchCommand);
  default_command_alias : option Z;
  serviceState : Z;
  command_history : history;
}.

(** The keys of the description of a submission that the executor reads. *)
Record submission := mk_submission {
  COMMAND_EXECUTION_CHANNEL : option Z;
  SUBMISSION_PRIORITY : option Z;
  SUBMISSION_RULE : option Z;
  SUBMISSION_RETRY_DELAY : option Z;
  SCHEDULER_STEP_TIME_INTERVALL : option Z;
}.

Definition instanceCommandInfo (x : executor) (alias rule retry step : Z) : option BatchCommand :=
  match map_command_description x !! alias with
  | Some (Some c) =>
      let ft := commandFeatures c in
      Some (mk_command (sticky c) (already_setupped c) (command_set_time_usec c) (command_step_counter c) (lock0 c) (lock1 c) (lock2 c)
              (mk_features (Z.lor (Z.lor (featuresFlag ft) FF_SET_SCHEDULER_DELAY) FF_SET_SUBMISSION_RETRY) step retry (featureCommandTimeout ft))
              (runningProperty c) (u8 rule) (fault_code c) (handlers c))
  | _ => None
  end.

Definition instanceCommandInfo_from (x : executor) (alias : Z) (info : option submission) : option BatchCommand :=
  let get f d := match info with Some i => default d (f i) | None => d end in
  instanceCommandInfo x alias (u32 (get SUBMISSION_RULE SUBMIT_NORMAL)) (u32 (get SUBMISSION_RETRY_DELAY 1000000))
    (u64 (get SCHEDULER_STEP_TIME_INTERVALL 1000000)).

(** The events that a sandbox has announced since [old], the newest first, reach
    [handleCommandEvent] in their order. *)
Definition hear (old new : list event) (h : history) : history :=
  foldr handleCommandEvent h (take (length new - length old) new).

(** The sandbox of the channel goes from [s] to [s']. *)
Definition with_sandbox (channel : Z) (s s' : sandbox) (x : executor) : executor :=
  mk_executor (<[channel := s']> (sandbox_map x)) (map_command_description x) (default_command_alias x) (serviceState x)
    (hear (events s) (events s') (command_history x)).

(** [deinit] is the state of the sandbox. *)
Definition enqueue_in (deinit : bool) (channel : Z) (s : sandbox) (c : BatchCommand) (prio : Z) (x : executor) : executor * Z :=
  let '(s', id) := enqueueCommand deinit c prio s in (with_sandbox channel s s' x, id).

(** What the threads of the sandbox and its other callers do between two
    statements of [submitCommand], which holds none of the sandbox's mutexes. *)
Definition meanwhile (channel : Z) (ls : list label) (x : executor) : outcome (option executor) :=
  match sandbox_map x !! channel with
  | None => Ret (Some x)
  | Some s => o ← run ls s; Ret (match o with Some s' => Some (with_sandbox channel s s' x) | None => None end)
  end.

(** [cmd_instance->unique_id]: the constructor of the command leaves [garbage] in
    it, [enqueueCommand] gives it the id unless the sandbox is not initialised;
    the command may have been released since. *)
Definition read_unique_id (deinit : bool) (garbage channel id : Z) (x : executor) : outcome Z :=
  if deinit then mret garbage
  else match sandbox_map x !! channel with
       | Some s => _ ← cmd_at s id; mret id
       | None => mret id
       end.

(** The executor after the call, and the code of the exception or the id;
    [ls] is what happens to the sandbox before the id is read. *)
Definition submitCommand (deinit : bool) (garbage : Z) (ls : list label) (alias : Z) (info : option submission) (x : executor)
    : outcome (option (executor * (Z + Z))) :=
  match info with
  | None => mret (Some (x, inl (-1)))
  | Some i =>
      if negb (serviceState x =? CU_START) then mret (Some (x, inl (-2)))
      else
        let channel := default COMMAND_BASE_SANDOXX_ID (COMMAND_EXECUTION_CHANNEL i) in
        match sandbox_map x !! channel with
        | None => mret (Some (x, inl (-3)))
        | Some s =>
            match instanceCommandInfo_from x alias info with
            | None => mret (Some (x, inl (-4)))
            | Some c =>
                let '(x, id) := enqueue_in deinit channel s c (default 50 (SUBMISSION_PRIORITY i)) x in
                o ← meanwhile channel ls x;
                match o with
                | None => mret None
                | Some x => id ← read_unique_id deinit garbage channel id x; mret (Some (x, inr id))
                end
            end
        end
  end.

(** The second overload, which does not look at the state of the service and
    reports the result of [enqueueCommand]. *)
Definition submitCommand_with (deinit : bool) (alias channel prio rule retry step : Z) (x : executor) : executor * (Z + Z) :=
  match sandbox_map x !! channel with
  | None => (x, inl (-3))
  | Some s =>
      match instanceCommandInfo x alias rule retry step with
      | None => (x, inl (-4))
      | Some c => let '(x, id) := enqueue_in deinit channel s c prio x in (x, inr id)
      end
  end.

(** [sandbox_instance] is not used: the default command goes to the base sandbox. *)
Definition setDefaultCommand (alias sandbox_instance : Z) (x : executor) : Z + executor :=
  if serviceState x =? CU_START then inl 1
  else
    let x := mk_executor (sandbox_map x) (map_command_description x) (Some alias) (serviceState x) (command_history x) in
    inr match instanceCommandInfo_from x alias None, sandbox_map x !! COMMAND_BASE_SANDOXX_ID with
        | Some c, Some s =>
            mk_executor (<[COMMAND_BASE_SANDOXX_ID := setDefaultStickyCommand c s]> (sandbox_map x)) (map_command_description x)
              (default_command_alias x) (serviceState x) (command_history x)
        | _, _ => x
        end.

Lemma info_rule x alias i c : instanceCommandInfo_from x alias (Some i) = Some c ->
  submissionRule c = u8 (u32 (default SUBMIT_NORMAL (SUBMISSION_RULE i))).
Proof. unfold instanceCommandInfo_from, instanceCommandInfo. intros H. repeat case_match; simplify_eq; reflexivity. Qed.

(** The command [c] waits in the sandbox of the channel, which was [s], under the
    next id, and the history of [x] has got it as queued. *)
Record queued_in (x : executor) (channel : Z) (s : sandbox) (c : BatchCommand) (prio id : Z) (x1 : executor) : Prop := mk_queued {
  qu_id : id = u64 (command_sequence_id s + 1);
  qu_sandbox : exists s1, sandbox_map x1 !! channel = Some s1 /\ cmds s1 !! id = Some c /\
    command_submitted_queue s1 = mk_element (s32 prio) id :: command_submitted_queue s /\ next_check s1 = true;
  qu_others j : j <> channel -> sandbox_map x1 !! j = sandbox_map x !! j;
  qu_history : command_history x1 = handleCommandEvent (mk_event id EVT_QUEUED (queued_commands s) (stacked_commands s) None) (command_history x);
}.

Lemma enqueue_queued x channel s c prio : queued_in x channel s c prio (u64 (command_sequence_id s + 1)) (fst (enqueue_in false channel s c prio x)) /\
  snd (enqueue_in false channel s c prio x) = u64 (command_sequence_id s + 1).
Proof.
  split; [|done]. constructor; cbn -[take].
  - done.
  - eexists. split; [apply lookup_insert_eq|]. cbn. split; [apply lookup_insert_eq | done].
  - intros j Hj. by rewrite lookup_insert_ne.
  - unfold hear. cbn -[take]. by replace (S (length (events s)) - length (events s))%nat with 1%nat by lia.
Qed.

Lemma enqueue_nothing channel s c prio x :
  sandbox_map x !! channel = Some s -> enqueue_in true channel s c prio x = (x, 0).
Proof.
  intros Hs. unfold enqueue_in, with_sandbox, hear. cbn. rewrite Nat.sub_diag, insert_id by done. by destruct x.
Qed.

(** What is reported, [x1] being the executor when [enqueueCommand] returned. *)
Definition reports (deinit : bool) (garbage : Z) (channel : Z) (ls : list label) (id : Z) (x1 : executor) (o : outcome (option (executor * (Z + Z)))) : Prop :=
  match meanwhile channel ls x1 with
  | Ret (Some x2) =>
      if deinit then o = Ret (Some (x2, inr garbage))
      else exists s2, sandbox_map x2 !! channel = Some s2 /\
        (is_Some (cmds s2 !! id) /\ o = Ret (Some (x2, inr id)) \/ cmds s2 !! id = None /\ o = Oob)
  | Ret None => o = Ret None
  | Oob => o = Oob
  | Abort => o = Abort
  | Fuel => o = Fuel
  end.

Lemma meanwhile_sandbox x channel s c prio id x1 ls x2 :
  queued_in x channel s c prio id x1 -> meanwhile channel ls x1 = Ret (Some x2) -> exists s2, sandbox_map x2 !! channel = Some s2.
Proof.
  intros [_ (s1 & Hs & _) _ _] H. unfold meanwhile in H. rewrite Hs in H. apply bind_inv in H as ([s2|] & _ & H); [|done].
  injection H as <-. exists s2. cbn. apply lookup_insert_eq.
Qed.

(** C40: [submitCommand] on every branch.  The four errors leave the executor as it
    was.  In a sandbox that is not initialised nothing is queued or announced,
    and what is reported is whatever the memory of the command held.  Otherwise
    the command waits in the sandbox of its channel under the next id, with the
    rule cut to eight bits, and the history has it as queued; that id is
    reported if the command is still there once the other threads have run, and
    if it has been released the id is read from a released command. *)
Theorem submitCommand_spec deinit garbage ls alias info x :
  let o := submitCommand deinit garbage ls alias info x in
  (info = None /\ o = Ret (Some (x, inl (-1)))) \/
  exists i, info = Some i /\
    let channel := default COMMAND_BASE_SANDOXX_ID (COMMAND_EXECUTION_CHANNEL i) in
    let prio := default 50 (SUBMISSION_PRIORITY i) in
    (serviceState x <> CU_START /\ o = Ret (Some (x, inl (-2)))) \/
    serviceState x = CU_START /\
    ((sandbox_map x !! channel = None /\ o = Ret (Some (x, inl (-3)))) \/
     exists s, sandbox_map x !! channel = Some s /\
       ((instanceCommandInfo_from x alias info = None /\ o = Ret (Some (x, inl (-4)))) \/
        exists c, instanceCommandInfo_from x alias info = Some c /\
          submissionRule c = u8 (u32 (default SUBMIT_NORMAL (SUBMISSION_RULE i))) /\
          exists x1, (if deinit then x1 = x else queued_in x channel s c prio (u64 (command_sequence_id s + 1)) x1) /\
            reports deinit garbage channel ls (u64 (command_sequence_id s + 1)) x1 o)).
Proof.
  cbv zeta. unfold submitCommand. destruct info as [i|]; [right; exists i; split; [done|] | by left].
  destruct (serviceState x =? CU_START) eqn:Es; cbn [negb]; [right; split; [lia|] | left; split; [lia | done]].
  destruct (sandbox_map x !! default COMMAND_BASE_SANDOXX_ID (COMMAND_EXECUTION_CHANNEL i)) as [s|] eqn:Ec; [right | by left].
  exists s. split; [done|]. destruct (instanceCommandInfo_from x alias (Some i)) as [c|] eqn:Ei; [right | by left].
  exists c. split; [done|]. split; [by eapply info_rule|]. destruct deinit.
  - exists x. split; [done|]. rewrite enqueue_nothing by done. unfold reports. destruct (meanwhile _ _ _) as [[x2|]| | |]; done.
  - destruct (enqueue_queued x (default COMMAND_BASE_SANDOXX_ID (COMMAND_EXECUTION_CHANNEL i)) s c (default 50 (SUBMISSION_PRIORITY i))) as [Hq Hid].
    destruct (enqueue_in _ _ _ _ _ _) as [x1 id]. cbn in Hq, Hid. subst id. exists x1. split; [done|]. unfold reports.
    destruct (meanwhile _ _ _) as [[x2|]| | |] eqn:Em; try done.
    destruct (meanwhile_sandbox _ _ _ _ _ _ _ _ _ Hq Em) as [s2 Hs2]. exists s2. split; [done|].
    rewrite bind_ret. unfold read_unique_id, cmd_at. rewrite Hs2. destruct (cmds s2 !! _); [left | right]; by split.
Qed.

(** The submission rule of a description is not checked: a command submitted
    with rule 3 while another one runs makes the checker index the table outside
    its three columns. *)
Theorem submission_rule_outside_table :
  let x := mk_executor {[0 := final (ex_first_step quiet) None]} {[9 := Some (ex_command SUBMIT_NORMAL)]} None CU_START new_history in
  submitCommand false 0 [LCheck ex_check; LCheck ex_check] 9 (Some (mk_submission None None (Some 3) None None)) x = Oob /\
  is_returned (submitCommand false 0 [LCheck ex_check] 9 (Some (mk_submission None None (Some 3) None None)) x).
Proof. split; by vm_compute. Qed.

(** Nothing protects the command between [enqueueCommand] and the reading of its
    id: the checker starts it, the scheduler runs it to its end and the checker
    releases it, and the id is read from the released command. *)
Theorem submitted_id_read_after_release :
  let x := mk_executor {[0 := initial None]} {[9 := Some (ex_command SUBMIT_NORMAL)]} None CU_START new_history in
  let info := Some (mk_submission None None None None None) in
  let ls := [LRun (ex_run quiet); LCheckerWake; LCheck ex_check; LCheck ex_check; LRunnerWake;
             LRun (ex_run (mk_run [ASetRunningProperty RP_END] None)); LCheck ex_check; LCheck ex_check] in
  is_returned (submitCommand false 0 ls 9 info x) /\ submitCommand false 0 (ls ++ [LCheck ex_check]) 9 info x = Oob.
Proof. split; by vm_compute. Qed.
