(* ===== verification/Event.v ===== *)
(** * Events (event/)

    An event is a packet of at most 1024 bytes: a header with the length in bit
    fields, type and priority, a code, a name and a typed value.  Channels build
    events, a forwarder sends the part that is in use, a handler receives it into
    its buffer and a server makes a descriptor of it for the handler of its type.

    The host is little-endian, so that [byte_swap] between the host and
    little-endian is the identity, and bit fields are laid out from the lowest bit.
    The scratch members tmp8 and tmp32 are local.  A pointer is the bytes that can
    be read from it; a std::string is its bytes. *)
From stdpp Require Import strings.
From S2P Require Import Prelude Utf8 Numbers.
#[local] Open Scope Z_scope.

Definition u16 (z : Z) : Z := z mod 2 ^ 16.

(** ** The descriptor (evt_desc/EventDescriptor) *)

Definition EVENT_DATA_BYTE_LENGTH : Z := 1024.
Definition EVT_HEADER_BYTE_LENGTH : Z := 4.
Definition EVT_DATA_MAX_BYTE_LENGTH : Z := 1019.
Definition EVT_SUB_CODE_OFFSET : Z := 5.
Definition EVT_SUB_CODE_PRIORITY_OFFSET : Z := 7.
Definition EVT_IDENTIFICATION_LENGTH_INFO_OFFSET : Z := 9.
Definition EVT_IDENTIFICATION_VALUE_INFO_OFFSET : Z := 10.

Definition EventTypeAlert : Z := 0.
Definition EventTypeInstrument : Z := 1.

Definition EventDataInt8 : Z := 0.
Definition EventDataInt16 : Z := 1.
Definition EventDataInt32 : Z := 2.
Definition EventDataInt64 : Z := 3.
Definition EventDataDouble : Z := 4.
Definition EventDataCString : Z := 5.
Definition EventDataBinary : Z := 6.

(** The bit fields sign:16, version:3, length:13 in 32 bits, and type:2,
    priority:6 in 8. *)
Definition EventHeader (sign version length : Z) : Z :=
  Z.lor (Z.land sign 0xFFFF) (Z.lor (Z.shiftl (Z.land version 7) 16) (Z.shiftl (Z.land length 0x1FFF) 19)).
Definition header_version (h : Z) : Z := Z.land (Z.shiftr h 16) 7.
Definition header_length (h : Z) : Z := Z.land (Z.shiftr h 19) 0x1FFF.
Definition set_header_length (h length : Z) : Z := Z.lor (Z.land h 0x7FFFF) (Z.shiftl (Z.land length 0x1FFF) 19).

Definition EventTypeAndPriority (type priority : Z) : Z := Z.lor (Z.land type 3) (Z.shiftl (Z.land priority 63) 2).
Definition event_type (b : Z) : Z := Z.land b 3.
Definition event_priority (b : Z) : Z := Z.land (Z.shiftr b 2) 63.

Record EventDescriptor := mk_event { instanceType : Z; instancePriority : Z; eventData : bytes }.
Definition set_eventData (e : EventDescriptor) (data : bytes) : EventDescriptor := mk_event (instanceType e) (instancePriority e) data.

(** Writing at an offset of the packet. *)
Definition put (e : EventDescriptor) (off : Z) (bs : bytes) : outcome EventDescriptor :=
  data ← wrn (eventData e) off bs; Ret (set_eventData e data).

Definition initData (e : EventDescriptor) : outcome EventDescriptor :=
  e ← put e 0 (replicate (Z.to_nat EVENT_DATA_BYTE_LENGTH) 0);
  e ← put e 0 (le_bytes 4 (EventHeader 0x4345 1 5));
  put e EVT_HEADER_BYTE_LENGTH (le_bytes 1 (EventTypeAndPriority (u8 (instanceType e)) (instancePriority e))).

Definition new_event (_instanceType _instancePriority : Z) : outcome EventDescriptor :=
  initData (mk_event _instanceType (u8 _instancePriority) (replicate (Z.to_nat EVENT_DATA_BYTE_LENGTH) undef_byte)).

Definition getEventHeaderVersion (e : EventDescriptor) : outcome Z := h ← rd_le 4 (eventData e) 0; Ret (header_version h).
Definition setEventDataLength (e : EventDescriptor) (newSize : Z) : outcome EventDescriptor :=
  h ← rd_le 4 (eventData e) 0; put e 0 (le_bytes 4 (set_header_length h (u8 newSize))).
Definition getEventDataLength (e : EventDescriptor) : outcome Z := h ← rd_le 4 (eventData e) 0; Ret (header_length h).

Definition setEventData (e : EventDescriptor) (serializedEvent : bytes) (length : Z) : outcome EventDescriptor :=
  bs ← rdn serializedEvent 0 length; put e 0 bs.

Definition getEventType (e : EventDescriptor) : outcome Z := b ← rd (eventData e) EVT_HEADER_BYTE_LENGTH; Ret (event_type b).
Definition getEventPriority (e : EventDescriptor) : outcome Z := b ← rd (eventData e) EVT_HEADER_BYTE_LENGTH; Ret (event_priority b).

Definition setSubCode (e : EventDescriptor) (subCode : Z) : outcome EventDescriptor := put e EVT_SUB_CODE_OFFSET (le_bytes 2 (u16 subCode)).
Definition getSubCode (e : EventDescriptor) : outcome Z := rd_le 2 (eventData e) EVT_SUB_CODE_OFFSET.
Definition setSubCodePriority (e : EventDescriptor) (p : Z) : outcome EventDescriptor := put e EVT_SUB_CODE_PRIORITY_OFFSET (le_bytes 2 (u16 p)).
Definition getSubCodePriority (e : EventDescriptor) : outcome Z := rd_le 2 (eventData e) EVT_SUB_CODE_PRIORITY_OFFSET.

Definition getIdentificationlength (e : EventDescriptor) : outcome Z := rd (eventData e) EVT_IDENTIFICATION_LENGTH_INFO_OFFSET.
(** What can be read from the pointer. *)
Definition getIdentification (e : EventDescriptor) : bytes := drop (Z.to_nat EVT_IDENTIFICATION_VALUE_INFO_OFFSET) (eventData e).

Definition setSenderIdentification (e : EventDescriptor) (identification : bytes) : outcome (EventDescriptor * Z) :=
  e ← put e EVT_IDENTIFICATION_LENGTH_INFO_OFFSET [u8 (zlen identification)];
  e ← (if zlen identification >? 0 then put e EVT_IDENTIFICATION_VALUE_INFO_OFFSET identification else Ret e);
  Ret (e, u16 (zlen identification)).

(** The size of the number types. *)
Definition number_size (valueType : Z) : option Z :=
  if valueType =? EventDataInt8 then Some 1 else if valueType =? EventDataInt16 then Some 2 else if valueType =? EventDataInt32 then Some 4
  else if (valueType =? EventDataInt64) || (valueType =? EventDataDouble) then Some 8 else None.

Definition setIdentificationAndValueWithType (e : EventDescriptor) (identification : bytes) (valueType : Z) (valuePtr : bytes) (valueSize : Z)
  : outcome EventDescriptor :=
  '(e, indetificationSize) ← setSenderIdentification e identification;
  let off := EVT_IDENTIFICATION_VALUE_INFO_OFFSET + indetificationSize in
  e ← put e off [u8 valueType];
  '(e, dataDim) ← (match number_size valueType with
                   | Some n => v ← rd_le n valuePtr 0; e ← put e (off + 1) (le_bytes (Z.to_nat n) v); Ret (e, n)
                   | None =>
                       if (valueType =? EventDataCString) || (valueType =? EventDataBinary)
                       then bs ← rdn valuePtr 0 valueSize; e ← put e (off + 1) bs; Ret (e, valueSize)
                       else Ret (e, 0)
                   end);
  setEventDataLength e (EVT_IDENTIFICATION_VALUE_INFO_OFFSET + dataDim + indetificationSize + 1).

Definition getEventValueType (e : EventDescriptor) : outcome Z :=
  idLen ← rd (eventData e) EVT_IDENTIFICATION_LENGTH_INFO_OFFSET; rd (eventData e) (EVT_IDENTIFICATION_VALUE_INFO_OFFSET + idLen).
Definition getEventValueSize (e : EventDescriptor) : outcome Z :=
  idLen ← rd (eventData e) EVT_IDENTIFICATION_LENGTH_INFO_OFFSET; packDimension ← getEventDataLength e;
  Ret (u16 (packDimension - (EVT_IDENTIFICATION_LENGTH_INFO_OFFSET + idLen + 2))).
(** What can be read from the pointer. *)
Definition getEventValue (e : EventDescriptor) : outcome bytes :=
  idLen ← rd (eventData e) EVT_IDENTIFICATION_LENGTH_INFO_OFFSET; Ret (drop (Z.to_nat (EVT_IDENTIFICATION_VALUE_INFO_OFFSET + idLen + 1)) (eventData e)).
(** The overload that copies into the caller's object; the size is only an output. *)
Definition getEventValue_into (e : EventDescriptor) (valuePtr : bytes) : outcome (bytes * Z) :=
  size ← getEventValueSize e; value ← getEventValue e; bs ← rdn value 0 size; valuePtr ← wrn valuePtr 0 bs; Ret (valuePtr, size).

(** ** Alerts (evt_desc/AlertEventDescriptor) *)

Definition EventAlertThresholdCrossing : Z := 0.
Definition EventAlertThresholdReset : Z := 1.
Definition EventAlertLogSubmitted : Z := 2.
Definition EventAlertAgentCheckProcessSubmitted : Z := 3.
Definition EventAlertLastCodeNumber : Z := EventAlertThresholdReset.
Definition EVT_ALERT_DEFAULT_PRIORITY : Z := 63.

Definition AlertEventDescriptor : outcome EventDescriptor := new_event EventTypeAlert EVT_ALERT_DEFAULT_PRIORITY.
Definition setAlertCode (e : EventDescriptor) (alertCode : Z) : outcome EventDescriptor := setSubCode e alertCode.
Definition getAlertCode (e : EventDescriptor) : outcome Z := getSubCode e.
Definition setAlertCustomCode (e : EventDescriptor) (alertCustomCode : Z) : outcome EventDescriptor := setSubCode e (alertCustomCode + EventAlertLastCodeNumber).
Definition getAlertCustomCode (e : EventDescriptor) : outcome Z := c ← getSubCode e; Ret (u16 (c - EventAlertLastCodeNumber)).

(** The name and the value, copied into strings. *)
Definition assign_identification (e : EventDescriptor) : outcome bytes := n ← getIdentificationlength e; rdn (getIdentification e) 0 n.
Definition assign_value (e : EventDescriptor) : outcome bytes := value ← getEventValue e; n ← getEventValueSize e; rdn value 0 n.

Definition setLogAlert (e : EventDescriptor) (indetifier log_domain : bytes) : outcome EventDescriptor :=
  e ← setSubCode e EventAlertLogSubmitted; e ← setSubCodePriority e 10;
  setIdentificationAndValueWithType e indetifier EventDataCString (log_domain ++ [0]) (u16 (zlen log_domain)).
(** [None]: the strings of the caller are not changed. *)
Definition getLogAlert (e : EventDescriptor) : outcome (option (bytes * bytes)) :=
  code ← getAlertCode e;
  if negb (code =? EventAlertLogSubmitted) then Ret None
  else ty ← getEventValueType e;
       if negb (ty =? EventDataCString) then Ret None
       else indetifier ← assign_identification e; log_domain ← assign_value e; Ret (Some (indetifier, log_domain)).

Definition setAgentCheckProcessAlert (e : EventDescriptor) (indetifier : bytes) (check_result : Z) : outcome EventDescriptor :=
  e ← setSubCode e EventAlertAgentCheckProcessSubmitted; e ← setSubCodePriority e 5;
  setIdentificationAndValueWithType e indetifier EventDataInt32 (le_bytes 4 (u32 check_result)) 0.
Definition getAgentCheckProcessAlert (e : EventDescriptor) : outcome (option (bytes * Z)) :=
  code ← getAlertCode e;
  if negb (code =? EventAlertAgentCheckProcessSubmitted) then Ret None
  else ty ← getEventValueType e;
       if negb (ty =? EventDataInt32) then Ret None
       else indetifier ← assign_identification e; value ← getEventValue e; r ← rd_le 4 value 0; Ret (Some (indetifier, s32 r)).

Definition setAlert (e : EventDescriptor) (indetifier : bytes) (alertCode priority valueType : Z) (valuePtr : bytes) (valueSize : Z) : outcome EventDescriptor :=
  e ← setAlertCode e alertCode; e ← setSubCodePriority e priority; setIdentificationAndValueWithType e indetifier valueType valuePtr valueSize.
Definition setCustomAlert (e : EventDescriptor) (indetifier : bytes) (alertCustomCode priority valueType : Z) (valuePtr : bytes) (valueSize : Z) : outcome EventDescriptor :=
  e ← setAlertCustomCode e alertCustomCode; e ← setSubCodePriority e priority; setIdentificationAndValueWithType e indetifier valueType valuePtr valueSize.

(** ** Events of instruments (evt_desc/InstrumentEventDescriptor) *)

Definition EventInstrumentNewScheduleDelay : Z := 4.
Definition EventInstrumentInputDatasetAttributeChanged : Z := 5.
Definition EventInstrumentHeartbeat : Z := 6.
Definition instrument_EventAlertLastCodeNumber : Z := EventInstrumentHeartbeat.
Definition EVT_INSTRUMENT_DEFAULT_PRIORITY : Z := 31.

Definition InstrumentEventDescriptor : outcome EventDescriptor := new_event EventTypeInstrument EVT_INSTRUMENT_DEFAULT_PRIORITY.
Definition setNewScheduleDelay (e : EventDescriptor) (instrumentID : bytes) (newValue : Z) : outcome EventDescriptor :=
  e ← setSubCode e EventInstrumentNewScheduleDelay; e ← setSubCodePriority e 0;
  setIdentificationAndValueWithType e instrumentID EventDataInt64 (le_bytes 8 (u64 newValue)) 0.
Definition setDatasetInputAttributeChanged (e : EventDescriptor) (instrumentID : bytes) (errorCode : Z) : outcome EventDescriptor :=
  e ← setSubCode e EventInstrumentInputDatasetAttributeChanged; e ← setSubCodePriority e 0;
  setIdentificationAndValueWithType e instrumentID EventDataInt16 (le_bytes 2 (u16 errorCode)) 0.
Definition setEartbeat (e : EventDescriptor) (instrumentID : bytes) : outcome EventDescriptor :=
  e ← setSubCode e EventInstrumentHeartbeat; e ← setSubCodePriority e 0;
  setIdentificationAndValueWithType e instrumentID EventDataInt8 [0] 0.

(** A call that can throw: the code of the CException on the left. *)
Definition setInstrument (e : EventDescriptor) (indetifier : bytes) (alert_code priority value_type : Z) (value_ptr : bytes) (value_size : Z)
  : outcome (Z + EventDescriptor) :=
  if alert_code <=? instrument_EventAlertLastCodeNumber then Ret (inl 0)
  else e ← setSubCode e alert_code; e ← setSubCodePriority e priority;
       e ← setIdentificationAndValueWithType e indetifier value_type value_ptr value_size; Ret (inr e).

(** ** Channels (channel/) *)

(** What the base class asks of a channel: the event that it hands to the broker. *)
Class EventChannel := { sendEvent : bytes -> Z -> Z -> Z -> bytes -> Z -> outcome (Z + EventDescriptor) }.

Definition AlertEventChannel : EventChannel := {|
  sendEvent id sub_code priority type_of_data value_ptr value_size :=
    aed ← AlertEventDescriptor; aed ← setAlert aed id sub_code priority type_of_data value_ptr value_size; Ret (inr aed) |}.
Definition sendLogAlert (node_uid log_domain : bytes) : outcome EventDescriptor := aed ← AlertEventDescriptor; setLogAlert aed node_uid log_domain.
Definition sendAgentProcessCheckAlert (agent_uid : bytes) (check_result : Z) : outcome EventDescriptor :=
  aed ← AlertEventDescriptor; setAgentCheckProcessAlert aed agent_uid check_result.

Definition InstrumentEventChannel : EventChannel := {|
  sendEvent id sub_code priority type_of_data value_ptr value_size :=
    ied ← InstrumentEventDescriptor; setInstrument ied id sub_code priority type_of_data value_ptr value_size |}.

(** [const char *] to [std::string]. *)
Definition c_string (s : bytes) : outcome bytes := n ← strlen s; rdn s 0 n.
Definition notifyForScheduleUpdateWithNewValue (insturmentID : bytes) (newScheduleUpdateTime : Z) : outcome EventDescriptor :=
  id ← c_string insturmentID; ied ← InstrumentEventDescriptor; setNewScheduleDelay ied id newScheduleUpdateTime.
Definition notifyForAttributeSetting (insturmentID : bytes) (error : Z) : outcome EventDescriptor :=
  id ← c_string insturmentID; ied ← InstrumentEventDescriptor; setDatasetInputAttributeChanged ied id error.
Definition notifyHeartbeat (insturmentID : bytes) : outcome EventDescriptor :=
  id ← c_string insturmentID; ied ← InstrumentEventDescriptor; setEartbeat ied id.

Section Sending.
Context `{EventChannel} (identificationString : bytes) (subCode priority : Z).
Definition sendEventInt8 (value : Z) := id ← c_string identificationString; sendEvent id subCode priority EventDataInt8 (le_bytes 1 value) 0.
Definition sendEventInt16 (value : Z) := id ← c_string identificationString; sendEvent id subCode priority EventDataInt16 (le_bytes 2 value) 0.
Definition sendEventInt32 (value : Z) := id ← c_string identificationString; sendEvent id subCode priority EventDataInt32 (le_bytes 4 value) 0.
Definition sendEventInt64 (value : Z) := id ← c_string identificationString; sendEvent id subCode priority EventDataInt64 (le_bytes 8 value) 0.
(** A double is its bits. *)
Definition sendEventDouble (value : Z) := id ← c_string identificationString; sendEvent id subCode priority EventDataDouble (le_bytes 8 value) 0.
Definition sendEventCString (value : bytes) :=
  id ← c_string identificationString; n ← strlen value; sendEvent id subCode priority EventDataDouble value (u16 n).
Definition sendEventBinary (value : bytes) (length : Z) := id ← c_string identificationString; sendEvent id subCode priority EventDataDouble value length.
End Sending.

(** ** Transport (AsioEventForwarder, AsioEventHandler, EventServer, EventFactory) *)

(** What [processBufferElement] sends. *)
Definition processBufferElement (e : EventDescriptor) : outcome bytes := n ← getEventDataLength e; rdn (eventData e) 0 n.

(** Which handler gets the event; an exception is logged. *)
Inductive dispatched :=
| executeAlertHandler (e : EventDescriptor)
| executeInstrumentHandler (e : EventDescriptor)
| CException (code : Z).

Definition dispatchEventToHandler (serializedEvent : bytes) (length : Z) : outcome dispatched :=
  if length =? 0 then Abort
  else
    sign ← rd_le 2 serializedEvent 0;
    if negb (sign =? 0x4345) then Ret (CException 2)
    else if length >? EVT_DATA_MAX_BYTE_LENGTH then Ret (CException 1)
    else
      b ← rd serializedEvent EVT_HEADER_BYTE_LENGTH;
      if event_type b =? EventTypeAlert then e ← AlertEventDescriptor; e ← setEventData e serializedEvent length; Ret (executeAlertHandler e)
      else if event_type b =? EventTypeInstrument then e ← InstrumentEventDescriptor; e ← setEventData e serializedEvent length; Ret (executeInstrumentHandler e)
      else Ret (CException 3).

Definition max_length : nat := 1024.
(** A datagram arrives in the buffer of the handler, which is cleared afterwards. *)
Definition handle_receive_from (data_ datagram : bytes) : outcome (bytes * dispatched) :=
  let received := take max_length datagram in
  data_ ← wrn data_ 0 received;
  r ← dispatchEventToHandler data_ (u16 (zlen received));
  data_ ← wrn data_ 0 (replicate (length received) 0);
  Ret (data_, r).

(** The factory has the same task; the object it reads the type into is one byte. *)
Definition getEventInstance (serializedEvent : option bytes) (length : Z) : outcome (Z + EventDescriptor) :=
  match serializedEvent with
  | None => Ret (inl 0)
  | Some serializedEvent =>
      if length >? EVT_DATA_MAX_BYTE_LENGTH then Ret (inl 1)
      else
        sign ← rd_le 2 serializedEvent 0;
        if negb (sign =? 0x4345) then Ret (inl 2)
        else
          w ← rd_le 2 serializedEvent EVT_HEADER_BYTE_LENGTH;
          eventTypeAndHeader ← wrn [undef_byte] 0 (le_bytes 2 w);
          b ← rd eventTypeAndHeader 0;
          if event_type b =? EventTypeAlert then e ← AlertEventDescriptor; e ← setEventData e serializedEvent length; Ret (inr e)
          else Ret (inl 3)
  end.

(** ** The header *)

Lemma header_new : EventHeader 0x4345 1 5 = 0x14345 + 5 * 2 ^ 19.
Proof. reflexivity. Qed.

Lemma land_13 n : Z.land n 0x1FFF = n mod 2 ^ 13.
Proof. by apply land_mask. Qed.

(** The length takes the place of the old one. *)
Lemma set_header_length_spec old n : 0 <= n < 2 ^ 13 -> set_header_length (0x14345 + old * 2 ^ 19) n = 0x14345 + n * 2 ^ 19.
Proof.
  intros Hn. unfold set_header_length. rewrite land_13, (Z.mod_small n) by lia. rewrite (land_mask _ 0x7FFFF 19), Z.mod_add by (reflexivity || lia).
  change (0x14345 mod 2 ^ 19) with 0x14345. rewrite Z.lor_comm, lor_shift_add by lia. lia.
Qed.

Lemma header_length_spec n : 0 <= n < 2 ^ 13 -> header_length (0x14345 + n * 2 ^ 19) = n.
Proof.
  intros Hn. unfold header_length. rewrite land_13, Z.shiftr_div_pow2, Z.div_add by lia. change (0x14345 / 2 ^ 19) with 0. rewrite Z.mod_small; lia.
Qed.

Lemma header_version_spec n : 0 <= n < 2 ^ 13 -> header_version (0x14345 + n * 2 ^ 19) = 1.
Proof.
  intros Hn. unfold header_version. rewrite (land_mask _ 7 3), Z.shiftr_div_pow2 by (reflexivity || lia).
  replace (0x14345 + n * 2 ^ 19) with (0x14345 + n * 8 * 2 ^ 16) by lia. rewrite Z.div_add by lia. change (0x14345 / 2 ^ 16) with 1.
  change (2 ^ 3) with 8. by rewrite Z.mod_add.
Qed.

(** Four bytes hold a header. *)
Lemma header_bytes n : 0 <= n < 2 ^ 13 -> le_val (le_bytes 4 (0x14345 + n * 2 ^ 19)) = 0x14345 + n * 2 ^ 19.
Proof. intros Hn. rewrite le_val_bytes, Z.mod_small; [done|]. change (256 ^ Z.of_nat 4) with (2 ^ 32). lia. Qed.

(** ** The layout *)

(** The bytes of an event: its length, type and priority, code, priority of the
    code, name, type of the value, value, and what is not in use. *)
Definition packet (n tp sub prio : Z) (id : bytes) (ty : Z) (v rest : bytes) : bytes :=
  le_bytes 4 (0x14345 + n * 2 ^ 19) ++ [tp] ++ le_bytes 2 sub ++ le_bytes 2 prio ++ [zlen id] ++ id ++ [ty] ++ v ++ rest.

(** The bytes that are copied as the value. *)
Definition copied (ty : Z) (value : bytes) (size : Z) : option bytes :=
  match number_size ty with
  | Some n => if n <=? zlen value then Some (take (Z.to_nat n) value) else None
  | None => if (ty =? EventDataCString) || (ty =? EventDataBinary)
            then (if (0 <=? size) && (size <=? zlen value) then Some (take (Z.to_nat size) value) else None)
            else Some []
  end.

Lemma put_mid e l m k off bs : eventData e = l ++ m ++ k -> off = zlen l -> zlen bs = zlen m -> put e off bs = Ret (set_eventData e (l ++ bs ++ k)).
Proof. intros E Ho Hb. unfold put. by rewrite E, (wrn_mid l m k). Qed.
Lemma put_part t p data l m k off bs : data = l ++ m ++ k -> off = zlen l -> zlen bs = zlen m -> put (mk_event t p data) off bs = Ret (mk_event t p (l ++ bs ++ k)).
Proof. intros. by rewrite (put_mid _ l m k). Qed.

Definition fresh (t p tp : Z) : EventDescriptor := mk_event t p (le_bytes 4 (0x14345 + 5 * 2 ^ 19) ++ [tp] ++ replicate 1019 0).

Lemma alert_fresh : AlertEventDescriptor = Ret (fresh 0 63 252).
Proof. vm_compute. reflexivity. Qed.
Lemma instrument_fresh : InstrumentEventDescriptor = Ret (fresh 1 31 125).
Proof. vm_compute. reflexivity. Qed.

Section Built.
Context (t p tp sub prio : Z) (id : bytes) (ty : Z) (value : bytes) (size : Z) (v : bytes).
Context (Hsub : 0 <= sub < 2 ^ 16) (Hprio : 0 <= prio < 2 ^ 16) (Hty : 0 <= ty < 256).
Context (Hv : copied ty value size = Some v) (Hb : Forall is_byte value) (Hfit : 11 + zlen id + zlen v <= 1024) (Hid : zlen id <= 255).

Definition rest : bytes := replicate (1013 - length id - length v) 0.

Lemma copied_number n : number_size ty = Some n -> zlen v = n /\ v = le_bytes (Z.to_nat n) (le_val (take (Z.to_nat n) value)) /\ rd_le n value 0 = Ret (le_val (take (Z.to_nat n) value)).
Proof using Hv Hb Hfit.
  intros E. unfold copied in Hv. rewrite E in Hv. destruct (n <=? zlen value) eqn:El; [|done]. injection Hv as <-. bool_hyps.
  assert (0 <= n) by (unfold number_size in E; repeat (case_match; [by simplify_eq|]); done).
  assert (length (take (Z.to_nat n) value) = Z.to_nat n) as Hl by (rewrite length_take; zl).
  split; [zl|]. split; [|by rewrite rd_le_ret by zl]. symmetry. apply le_bytes_val; [done | by apply Forall_take].
Qed.

(** The packet with the parts that were written up to the name. *)
Lemma value_written e pre k : eventData e = pre ++ replicate (length v) 0 ++ k ->
  (match number_size ty with
   | Some n => w ← rd_le n value 0; e ← put e (zlen pre) (le_bytes (Z.to_nat n) w); Ret (e, n)
   | None =>
       if (ty =? EventDataCString) || (ty =? EventDataBinary)
       then bs ← rdn value 0 size; e ← put e (zlen pre) bs; Ret (e, size)
       else Ret (e, 0)
   end) = Ret (set_eventData e (pre ++ v ++ k), zlen v).
Proof using Hv Hb Hfit.
  intros E. destruct (number_size ty) as [n|] eqn:En.
  - destruct (copied_number n En) as (Hl & Ev & Er). rewrite Er. cbn [mbind outcome_bind]. rewrite <- Ev.
    rewrite (put_mid e pre (replicate (length v) 0) k) by (done || zl). cbn [mbind outcome_bind]. by rewrite Hl.
  - unfold copied in Hv. rewrite En in Hv. destruct (_ || _).
    + destruct ((0 <=? size) && (size <=? zlen value)) eqn:Es; [|done]. injection Hv as Hv'. bool_hyps.
      rewrite rdn_ret by lia. cbn [mbind outcome_bind]. change (Z.to_nat 0) with 0%nat. rewrite drop_0, Hv'.
      rewrite (put_mid e pre (replicate (length v) 0) k) by (done || zl). cbn [mbind outcome_bind]. rewrite <- Hv'. do 2 f_equal. zl.
    + injection Hv as <-. cbn [length replicate app] in *. rewrite <- E. by destruct e.
Qed.

Lemma build_event :
  (e ← setSubCode (fresh t p tp) sub; e ← setSubCodePriority e prio; setIdentificationAndValueWithType e id ty value size) =
  Ret (mk_event t p (packet (u8 (11 + zlen id + zlen v)) tp sub prio id ty v rest)).
Proof using Hsub Hprio Hty Hv Hb Hfit Hid.
  set (hdr := le_bytes 4 (0x14345 + 5 * 2 ^ 19)). set (z := fun n => replicate n 0).
  assert (Ez : replicate 1019 0 = z 2%nat ++ z 2%nat ++ z 1%nat ++ z (length id) ++ z 1%nat ++ z (length v) ++ rest).
  { unfold z, rest. rewrite <- !replicate_add. f_equal. zl. }
  assert (E1 : setSubCode (fresh t p tp) sub = Ret (mk_event t p ((hdr ++ [tp]) ++ le_bytes 2 sub ++ z 2%nat ++ z 1%nat ++ z (length id) ++ z 1%nat ++ z (length v) ++ rest))).
  { unfold setSubCode, u16. rewrite Z.mod_small by done. unfold fresh. apply (put_part t p _ (hdr ++ [tp]) (z 2%nat)); [|done|done].
    rewrite Ez. by rewrite <- app_assoc. }
  rewrite E1. cbn [mbind outcome_bind].
  assert (E2 : setSubCodePriority (mk_event t p ((hdr ++ [tp]) ++ le_bytes 2 sub ++ z 2%nat ++ z 1%nat ++ z (length id) ++ z 1%nat ++ z (length v) ++ rest)) prio =
    Ret (mk_event t p (((hdr ++ [tp]) ++ le_bytes 2 sub) ++ le_bytes 2 prio ++ z 1%nat ++ z (length id) ++ z 1%nat ++ z (length v) ++ rest))).
  { unfold setSubCodePriority, u16. rewrite Z.mod_small by done. apply (put_part t p _ ((hdr ++ [tp]) ++ le_bytes 2 sub) (z 2%nat)); [|done|done].
    by rewrite <- !app_assoc. }
  rewrite E2. cbn [mbind outcome_bind]. unfold setIdentificationAndValueWithType, setSenderIdentification.
  set (pre := (hdr ++ [tp]) ++ le_bytes 2 sub ++ le_bytes 2 prio).
  rewrite (put_part t p _ pre (z 1%nat) (z (length id) ++ z 1%nat ++ z (length v) ++ rest)) by (unfold pre; rewrite <- ?app_assoc; done).
  cbn [mbind outcome_bind]. rewrite (u8_id (zlen id)) by (pose proof (zlen_nonneg id); lia).
  assert (E3 : (if zlen id >? 0 then put (mk_event t p (pre ++ [zlen id] ++ z (length id) ++ z 1%nat ++ z (length v) ++ rest)) EVT_IDENTIFICATION_VALUE_INFO_OFFSET id
    else Ret (mk_event t p (pre ++ [zlen id] ++ z (length id) ++ z 1%nat ++ z (length v) ++ rest))) =
    Ret (mk_event t p ((pre ++ [zlen id] ++ id) ++ z 1%nat ++ z (length v) ++ rest))).
  { destruct (zlen id >? 0) eqn:E.
    - rewrite (put_part t p _ (pre ++ [zlen id]) (z (length id)) (z 1%nat ++ z (length v) ++ rest)) by (unfold z; rewrite <- ?app_assoc; done || zl).
      by rewrite <- !app_assoc.
    - assert (id = []) as -> by (destruct id; [done | zl]). by rewrite <- !app_assoc. }
  rewrite E3. cbn [mbind outcome_bind]. unfold u16. rewrite Z.mod_small by (pose proof (zlen_nonneg id); lia).
  assert (Hpre : zlen pre = 9) by reflexivity. rewrite (u8_id ty) by done. set (body := pre ++ [zlen id] ++ id). assert (Hbody : zlen body = 10 + zlen id) by (unfold body; zl).
  rewrite (put_part t p _ body (z 1%nat) (z (length v) ++ rest)) by (done || (unfold EVT_IDENTIFICATION_VALUE_INFO_OFFSET; lia)).
  cbn [mbind outcome_bind].
  replace (EVT_IDENTIFICATION_VALUE_INFO_OFFSET + zlen id + 1) with (zlen (body ++ [ty])) by (unfold EVT_IDENTIFICATION_VALUE_INFO_OFFSET; zl).
  rewrite (value_written _ _ rest) by (cbn [eventData]; by rewrite <- app_assoc). cbn [mbind outcome_bind set_eventData instanceType instancePriority].
  unfold setEventDataLength, set_eventData. cbn [eventData instanceType instancePriority].
  replace ((body ++ [ty]) ++ v ++ rest) with ([] ++ hdr ++ [tp] ++ le_bytes 2 sub ++ le_bytes 2 prio ++ [zlen id] ++ id ++ [ty] ++ v ++ rest)
    by (unfold body, pre; rewrite <- !app_assoc; done).
  rewrite (rd_le_mid 4 [] hdr) by done. cbn [mbind outcome_bind]. rewrite (header_bytes 5 ltac:(lia) : le_val hdr = _), set_header_length_spec by (done || (pose proof (u8_range (EVT_IDENTIFICATION_VALUE_INFO_OFFSET + zlen v + zlen id + 1)); lia)).
  rewrite (put_part t p _ [] hdr _ 0 (le_bytes 4 _) eq_refl) by done. unfold packet, EVT_IDENTIFICATION_VALUE_INFO_OFFSET. cbn [app].
  replace (10 + zlen v + zlen id + 1) with (11 + zlen id + zlen v) by lia. done.
Qed.
End Built.

(** ** Reading a packet *)

Lemma rd_part l b k i : i = zlen l -> rd (l ++ [b] ++ k) i = Ret b.
Proof. intros ->. rewrite rd_app_r, Z.sub_diag by lia. done. Qed.

Lemma rd_le_front n m k : n = zlen m -> rd_le n (m ++ k) 0 = Ret (le_val m).
Proof. intros. by apply (rd_le_mid n [] m). Qed.

Section Read.
Context (e : EventDescriptor) (n tp sub prio : Z) (id : bytes) (ty : Z) (v rest : bytes).
Context (He : eventData e = packet n tp sub prio id ty v rest) (Hn : 0 <= n < 2 ^ 13).

Lemma read_length : getEventDataLength e = Ret n.
Proof using He Hn.
  unfold getEventDataLength. rewrite He. unfold packet. rewrite rd_le_front by done. cbn [mbind outcome_bind].
  by rewrite header_bytes, header_length_spec.
Qed.

Lemma read_sub_code : 0 <= sub < 2 ^ 16 -> getSubCode e = Ret sub.
Proof using He.
  intros Hs. unfold getSubCode. rewrite He. unfold packet. rewrite (app_assoc (le_bytes 4 _)), (rd_le_mid 2 (le_bytes 4 _ ++ [tp]) (le_bytes 2 sub)) by done.
  by rewrite le_val_bytes, Z.mod_small.
Qed.

Lemma read_sub_code_priority : 0 <= prio < 2 ^ 16 -> getSubCodePriority e = Ret prio.
Proof using He.
  intros Hs. unfold getSubCodePriority. rewrite He. unfold packet.
  rewrite !app_assoc, <- (app_assoc _ [zlen id]), <- !(app_assoc (_ ++ le_bytes 2 prio)), <- (app_assoc _ (le_bytes 2 prio)).
  rewrite (rd_le_mid 2 _ (le_bytes 2 prio)) by done. by rewrite le_val_bytes, Z.mod_small.
Qed.

(** What is in front of the name. *)
Definition front : bytes := le_bytes 4 (0x14345 + n * 2 ^ 19) ++ [tp] ++ le_bytes 2 sub ++ le_bytes 2 prio.

Lemma packet_name : eventData e = front ++ [zlen id] ++ id ++ [ty] ++ v ++ rest.
Proof using He. rewrite He. unfold packet, front. by rewrite <- !app_assoc. Qed.

Lemma read_identification_length : getIdentificationlength e = Ret (zlen id).
Proof using He. unfold getIdentificationlength. rewrite packet_name. by apply rd_part. Qed.

Lemma read_identification : assign_identification e = Ret id.
Proof using He.
  unfold assign_identification. rewrite read_identification_length. cbn [mbind outcome_bind]. unfold getIdentification. rewrite packet_name, app_assoc.
  rewrite drop_app_length' by done. by apply (rdn_mid [] id).
Qed.

Lemma read_value_type : getEventValueType e = Ret ty.
Proof using He.
  unfold getEventValueType. rewrite packet_name. rewrite (rd_part front) by done. cbn [mbind outcome_bind].
  rewrite !app_assoc, <- (app_assoc _ v), <- (app_assoc _ [ty]). apply rd_part. unfold EVT_IDENTIFICATION_VALUE_INFO_OFFSET. zl.
Qed.

Lemma read_value : getEventValue e = Ret (v ++ rest).
Proof using He.
  unfold getEventValue. rewrite packet_name. rewrite (rd_part front) by done. cbn [mbind outcome_bind]. f_equal.
  rewrite !app_assoc, <- (app_assoc _ v). apply drop_app_length'. unfold EVT_IDENTIFICATION_VALUE_INFO_OFFSET. zl.
Qed.

Lemma read_value_size : getEventValueSize e = Ret (u16 (n - (11 + zlen id))).
Proof using He Hn.
  unfold getEventValueSize. rewrite packet_name at 1. rewrite (rd_part front) by done. cbn [mbind outcome_bind]. rewrite read_length.
  cbn [mbind outcome_bind]. unfold EVT_IDENTIFICATION_LENGTH_INFO_OFFSET. do 2 f_equal. lia.
Qed.

Lemma read_assigned_value : n = 11 + zlen id + zlen v -> assign_value e = Ret v.
Proof using He Hn.
  intros En. unfold assign_value. rewrite read_value, read_value_size. cbn [mbind outcome_bind]. unfold u16.
  pose proof (zlen_nonneg v). pose proof (zlen_nonneg id). rewrite Z.mod_small by lia. apply (rdn_mid [] v); [done | lia].
Qed.

Lemma read_type : getEventType e = Ret (event_type tp) /\ getEventPriority e = Ret (event_priority tp).
Proof using He. unfold getEventType, getEventPriority. rewrite He. unfold packet. by rewrite !(rd_part (le_bytes 4 _)). Qed.
End Read.

(** ** Transport *)

(** The bytes that are in use. *)
Definition used (n tp sub prio : Z) (id : bytes) (ty : Z) (v : bytes) : bytes := packet n tp sub prio id ty v [].

Lemma packet_used n tp sub prio id ty v rest : packet n tp sub prio id ty v rest = used n tp sub prio id ty v ++ rest.
Proof. unfold used, packet. by rewrite app_nil_r, <- !app_assoc. Qed.

Lemma zlen_used n tp sub prio id ty v : zlen (used n tp sub prio id ty v) = 11 + zlen id + zlen v.
Proof. unfold used, packet. zl. Qed.

Lemma header_sign n : le_val (take 2 (le_bytes 4 (0x14345 + n * 2 ^ 19))) = 0x4345.
Proof.
  change (take 2 _) with (le_bytes 2 (0x14345 + n * 2 ^ 19)). rewrite le_val_bytes. change (256 ^ Z.of_nat 2) with (2 ^ 16).
  replace (0x14345 + n * 2 ^ 19) with (0x14345 + n * 8 * 2 ^ 16) by lia. by rewrite Z.mod_add.
Qed.

Lemma packet_sign n tp sub prio id ty v rest : rd_le 2 (packet n tp sub prio id ty v rest) 0 = Ret 0x4345.
Proof. rewrite <- (header_sign n). unfold packet. rewrite <- (take_drop 2 (le_bytes 4 _)) at 1. rewrite <- app_assoc. by apply rd_le_front. Qed.

Lemma packet_type n tp sub prio id ty v rest : rd (packet n tp sub prio id ty v rest) EVT_HEADER_BYTE_LENGTH = Ret tp.
Proof. by apply (rd_part (le_bytes 4 _)). Qed.

(** Bytes written over the head of an object. *)
Lemma wrn_front bs m k : zlen bs = zlen m -> wrn (m ++ k) 0 bs = Ret (bs ++ k).
Proof. intros. by apply (wrn_mid [] m k). Qed.

Lemma zeros_split n : (n <= 1024)%nat -> replicate 1024 0 = replicate n 0 ++ replicate (1024 - n) 0.
Proof. intros. rewrite <- replicate_add. f_equal. lia. Qed.

(** The handler of each type. *)
Definition handled (t : Z) (e : EventDescriptor) : dispatched := if t =? EventTypeAlert then executeAlertHandler e else executeInstrumentHandler e.

Lemma set_event_data e bs k k' : zlen bs <= 1024 -> zlen (eventData e) = 1024 -> drop (length bs) (eventData e) = k' ->
  setEventData e (bs ++ k) (zlen bs) = Ret (set_eventData e (bs ++ k')).
Proof.
  intros Hl He <-. unfold setEventData. rewrite (rdn_mid [] bs k) by done. cbn [mbind outcome_bind].
  apply (put_mid e [] (take (length bs) (eventData e)) (drop (length bs) (eventData e))); [by rewrite app_nil_l, take_drop | done | zl].
Qed.

Lemma fresh_tail t p tp n : (5 <= n <= 1024)%nat -> drop n (eventData (fresh t p tp)) = replicate (1024 - n) 0.
Proof.
  intros Hn. unfold fresh. cbn [eventData]. rewrite app_assoc, drop_app_ge by (cbn; lia).
  change (length (le_bytes 4 (0x14345 + 5 * 2 ^ 19) ++ [tp])) with 5%nat. rewrite drop_replicate. f_equal. lia.
Qed.

Section Transport.
Context (t p tp : Z) (Hkind : (t, p, tp) = (0, 63, 252) \/ (t, p, tp) = (1, 31, 125)).
Context (n sub prio : Z) (id : bytes) (ty : Z) (v : bytes) (Hn : n = 11 + zlen id + zlen v) (Hfit : n <= EVT_DATA_MAX_BYTE_LENGTH).
#[local] Abbreviation bs := (used n tp sub prio id ty v).

Definition sent : EventDescriptor := mk_event t p (bs ++ replicate (1024 - length bs) 0).

Lemma used_bounds : (11 <= length bs <= 1019)%nat /\ zlen bs = n.
Proof using Hn Hfit.
  clear Hkind. pose proof (zlen_used n tp sub prio id ty v) as E. pose proof (zlen_nonneg id). pose proof (zlen_nonneg v). unfold EVT_DATA_MAX_BYTE_LENGTH in Hfit.
  rewrite <- Hn in E. split; [|done]. unfold zlen in *. lia.
Qed.

Lemma dispatch_event : dispatchEventToHandler (bs ++ replicate (1024 - length bs) 0) n = Ret (handled t sent).
Proof using Hkind Hn Hfit.
  destruct used_bounds as [Hl Hz]. unfold dispatchEventToHandler. replace (n =? 0) with false by (unfold zlen in Hz; lia).
  rewrite <- !packet_used, packet_sign, packet_type. cbn [mbind outcome_bind]. change (17221 =? 17221) with true. cbn [negb].
  replace (n >? EVT_DATA_MAX_BYTE_LENGTH) with false by lia. rewrite packet_used, alert_fresh, instrument_fresh.
  assert (Hset : forall t p tp', setEventData (fresh t p tp') (bs ++ replicate (1024 - length bs) 0) n = Ret (mk_event t p (bs ++ replicate (1024 - length bs) 0))).
  { intros t' p' tp'. pose proof (set_event_data (fresh t' p' tp') bs (replicate (1024 - length bs) 0) (replicate (1024 - length bs) 0)) as H. rewrite Hz in H.
    apply H; [unfold zlen in *; lia | by vm_compute | apply fresh_tail; lia]. }
  cbn [mbind outcome_bind]. rewrite !Hset. unfold sent, handled. by destruct Hkind as [[= -> -> ->] | [= -> -> ->]].
Qed.

(** Forwarded, received and dispatched; the buffer of the handler is clean again. *)
Lemma event_transported : n < 256 -> processBufferElement sent = Ret bs /\ handle_receive_from (replicate 1024 0) bs = Ret (replicate 1024 0, handled t sent).
Proof using Hkind Hn Hfit.
  intros Hs. destruct used_bounds as [Hl Hz]. split.
  - unfold processBufferElement. rewrite (read_length sent n tp sub prio id ty v (replicate (1024 - length bs) 0)) by (try (unfold zlen in *; lia); unfold sent; cbn [eventData]; by rewrite packet_used).
    cbn [mbind outcome_bind]. by apply (rdn_mid [] bs).
  - unfold handle_receive_from. rewrite take_ge by (unfold max_length; lia). rewrite (zeros_split (length bs)) at 1 by lia.
    rewrite wrn_front by (unfold zlen; by rewrite length_replicate). cbn [mbind outcome_bind]. rewrite Hz. unfold u16. rewrite Z.mod_small by (unfold zlen in Hz; lia).
    rewrite dispatch_event. cbn [mbind outcome_bind]. rewrite wrn_front by (unfold zlen; by rewrite length_replicate). cbn [mbind outcome_bind].
    by rewrite <- zeros_split by lia.
Qed.
End Transport.

(** ** What a channel promises *)

(** A channel of events of one type: the events it accepts are built on a fresh
    descriptor of that type. *)
Class ChannelOf (C : EventChannel) (t p tp : Z) (accepts : Z -> bool) := {
  channel_kind : (t, p, tp) = (0, 63, 252) \/ (t, p, tp) = (1, 31, 125);
  channel_sends id sub prio ty value size : accepts sub = true ->
    sendEvent id sub prio ty value size =
    (e ← (e ← setSubCode (fresh t p tp) sub; e ← setSubCodePriority e prio; setIdentificationAndValueWithType e id ty value size); Ret (inr e))
}.

Lemma bind_assoc {A B C} (x : outcome A) (f : A -> outcome B) (g : B -> outcome C) : mbind g (mbind f x) = mbind (fun a => mbind g (f a)) x.
Proof. by destruct x. Qed.

#[export] Instance alert_channel : ChannelOf AlertEventChannel 0 63 252 (fun _ => true).
Proof.
  split; [by left|]. intros. cbn [sendEvent AlertEventChannel]. rewrite alert_fresh. cbn [mbind outcome_bind]. unfold setAlert, setAlertCode. done.
Qed.
#[export] Instance instrument_channel : ChannelOf InstrumentEventChannel 1 31 125 (fun sub => instrument_EventAlertLastCodeNumber <? sub).
Proof.
  split; [by right|]. intros id sub prio ty value size H. cbn [sendEvent InstrumentEventChannel]. rewrite instrument_fresh. cbn [mbind outcome_bind]. unfold setInstrument.
  replace (sub <=? instrument_EventAlertLastCodeNumber) with false by lia. destruct (setSubCode _ _) as [e| | |]; [|done..]. cbn [mbind outcome_bind].
  by destruct (setSubCodePriority _ _).
Qed.

(** What can be read from an event. *)
Record event_reads (e : EventDescriptor) (t p sub prio : Z) (id : bytes) (ty : Z) (v : bytes) : Prop := {
  reads_type : getEventType e = Ret t;
  reads_priority : getEventPriority e = Ret p;
  reads_version : getEventHeaderVersion e = Ret 1;
  reads_sub_code : getSubCode e = Ret sub;
  reads_sub_code_priority : getSubCodePriority e = Ret prio;
  reads_identification : assign_identification e = Ret id;
  reads_value_type : getEventValueType e = Ret ty;
  reads_value : assign_value e = Ret v
}.

(** The event that is built arrives as it is. *)
Lemma built_event_delivered t p tp id sub prio ty value size v :
  (t, p, tp) = (0, 63, 252) \/ (t, p, tp) = (1, 31, 125) ->
  0 <= sub < 2 ^ 16 -> 0 <= prio < 2 ^ 16 -> 0 <= ty < 256 -> copied ty value size = Some v -> Forall is_byte value -> zlen id + zlen v <= 244 ->
  exists e datagram,
    (e ← setSubCode (fresh t p tp) sub; e ← setSubCodePriority e prio; setIdentificationAndValueWithType e id ty value size) = Ret e /\
    processBufferElement e = Ret datagram /\ handle_receive_from (replicate 1024 0) datagram = Ret (replicate 1024 0, handled t e) /\
    event_reads e t p sub prio id ty v.
Proof.
  intros Hk Hsub Hprio Hty Hv Hb Hfit. pose proof (zlen_nonneg id). pose proof (zlen_nonneg v). set (n := 11 + zlen id + zlen v).
  set (e := sent t p tp n sub prio id ty v). exists e, (used n tp sub prio id ty v).
  assert (He : eventData e = packet n tp sub prio id ty v (rest id v)).
  { unfold e, sent. cbn [eventData]. rewrite packet_used. unfold rest. pose proof (zlen_used n tp sub prio id ty v). do 2 f_equal. unfold zlen in *. lia. }
  assert (Hn : 0 <= n < 2 ^ 13) by lia.
  destruct (event_transported t p tp Hk n sub prio id ty v eq_refl ltac:(unfold EVT_DATA_MAX_BYTE_LENGTH; lia) ltac:(lia)) as [T1 T2].
  split; [|split; [|split]].
  - rewrite (build_event t p tp sub prio id ty value size v) by (done || lia). rewrite u8_id by lia. fold n. f_equal.
    destruct e as [t' p' d] eqn:E. unfold e, sent in E. injection E as <- <- _. cbn [eventData] in He. by rewrite He.
  - exact T1.
  - exact T2.
  - destruct (read_type e n tp sub prio id ty v _ He) as [E1 E2].
    split; [rewrite E1 | rewrite E2 | | by eapply read_sub_code | by eapply read_sub_code_priority | by eapply read_identification | by eapply read_value_type | by eapply read_assigned_value].
    1,2: by destruct Hk as [[= -> -> ->] | [= -> -> ->]].
    unfold getEventHeaderVersion. rewrite He. unfold packet. rewrite rd_le_front by done. cbn [mbind outcome_bind]. by rewrite header_bytes, header_version_spec.
Qed.

(** * Properties *)

(** C18: An event that a channel sends arrives.  For every code the channel accepts,
    every name and every value of the type's size that fit in 244 bytes together,
    [sendEvent] builds an event, the forwarder sends the part in use, the receiving
    handler gives the server a descriptor equal to the one that was sent, which is
    passed to the handler of its type, and leaves its buffer clean; type, priority,
    code, name and value are read from it as they were given. *)
Theorem event_delivered {C : EventChannel} {t p tp accepts} {H : ChannelOf C t p tp accepts} id sub prio ty value size v :
  accepts sub = true -> 0 <= sub < 2 ^ 16 -> 0 <= prio < 2 ^ 16 -> 0 <= ty < 256 -> copied ty value size = Some v -> Forall is_byte value ->
  zlen id + zlen v <= 244 ->
  exists e datagram, sendEvent id sub prio ty value size = Ret (inr e) /\ processBufferElement e = Ret datagram /\
    handle_receive_from (replicate 1024 0) datagram = Ret (replicate 1024 0, handled t e) /\ event_reads e t p sub prio id ty v.
Proof.
  intros Ha Hsub Hprio Hty Hv Hb Hfit. destruct (built_event_delivered t p tp id sub prio ty value size v channel_kind) as (e & datagram & E & E1 & E2 & E3); [done..|].
  exists e, datagram. rewrite channel_sends by done. rewrite E. done.
Qed.

Lemma event_delivered_witness :
  exists e datagram, @sendEvent InstrumentEventChannel [100; 101; 118] 7 300 EventDataInt32 [1; 2; 3; 4] 0 = Ret (inr e) /\ processBufferElement e = Ret datagram /\
    handle_receive_from (replicate 1024 0) datagram = Ret (replicate 1024 0, handled 1 e) /\ event_reads e 1 31 7 300 [100; 101; 118] EventDataInt32 [1; 2; 3; 4].
Proof.
  apply (event_delivered (H := instrument_channel) [100; 101; 118] 7 300 EventDataInt32 [1; 2; 3; 4] 0 [1; 2; 3; 4]); try reflexivity; try (split; vm_compute; done || discriminate).
  - repeat (apply Forall_cons_2; [unfold is_byte; lia|]). apply Forall_nil_2.
  - vm_compute. discriminate.
Defined.

(** The alerts of logs and of process checks are read back by the receiver:
    [getLogAlert] and [getAgentCheckProcessAlert] on what arrives give the name and
    the domain, or the name and the result, that [sendLogAlert] and
    [sendAgentProcessCheckAlert] were given, when name and domain fit in 244 bytes. *)
Theorem alerts_read_back :
  (forall id domain, Forall is_byte domain -> zlen id + zlen domain <= 244 ->
     exists e datagram, sendLogAlert id domain = Ret e /\ processBufferElement e = Ret datagram /\
       handle_receive_from (replicate 1024 0) datagram = Ret (replicate 1024 0, executeAlertHandler e) /\
       getLogAlert e = Ret (Some (id, domain)) /\ getAgentCheckProcessAlert e = Ret None) /\
  (forall id result, - 2 ^ 31 <= result < 2 ^ 31 -> zlen id <= 240 ->
     exists e datagram, sendAgentProcessCheckAlert id result = Ret e /\ processBufferElement e = Ret datagram /\
       handle_receive_from (replicate 1024 0) datagram = Ret (replicate 1024 0, executeAlertHandler e) /\
       getAgentCheckProcessAlert e = Ret (Some (id, result)) /\ getLogAlert e = Ret None).
Proof.
  split.
  - intros id domain Hb Hfit. pose proof (zlen_nonneg id). pose proof (zlen_nonneg domain).
    destruct (built_event_delivered 0 63 252 id EventAlertLogSubmitted 10 EventDataCString (domain ++ [0]) (u16 (zlen domain)) domain) as (e & datagram & E & E1 & E2 & E3);
      [by left | done | done | done | | | done |].
    + unfold copied, u16. rewrite Z.mod_small by lia. cbn [number_size Z.eqb]. change (EventDataCString =? EventDataCString) with true. cbn [orb].
      replace ((0 <=? zlen domain) && (zlen domain <=? zlen (domain ++ [0]))) with true by (rewrite zlen_app; change (zlen [0]) with 1; lia).
      unfold zlen. by rewrite Nat2Z.id, take_app_length.
    + apply Forall_app. split; [done|]. by repeat constructor.
    + exists e, datagram. split; [unfold sendLogAlert; rewrite alert_fresh; exact E|]. split; [done|]. split; [done|].
      destruct E3 as [_ _ _ Ec _ Ei Et Ev]. unfold getLogAlert, getAgentCheckProcessAlert, getAlertCode. rewrite Ec. cbn [mbind outcome_bind].
      change (EventAlertLogSubmitted =? EventAlertLogSubmitted) with true. change (EventAlertLogSubmitted =? EventAlertAgentCheckProcessSubmitted) with false.
      cbn [negb]. split; [|done]. rewrite Et. cbn [mbind outcome_bind]. change (EventDataCString =? EventDataCString) with true. cbn [negb].
      rewrite Ei, Ev. done.
  - intros id result Hr Hfit. pose proof (zlen_nonneg id).
    destruct (built_event_delivered 0 63 252 id EventAlertAgentCheckProcessSubmitted 5 EventDataInt32 (le_bytes 4 (u32 result)) 0 (le_bytes 4 (u32 result)))
      as (e & datagram & E & E1 & E2 & E3); [by left | done | done | done | done | apply le_bytes_byte | zl |].
    exists e, datagram. split; [unfold sendAgentProcessCheckAlert; rewrite alert_fresh; exact E|]. split; [done|]. split; [done|].
    destruct E3 as [_ _ _ Ec _ Ei Et Ev]. unfold getLogAlert, getAgentCheckProcessAlert, getAlertCode. rewrite Ec. cbn [mbind outcome_bind].
    change (EventAlertAgentCheckProcessSubmitted =? EventAlertLogSubmitted) with false. change (EventAlertAgentCheckProcessSubmitted =? EventAlertAgentCheckProcessSubmitted) with true.
    cbn [negb]. split; [|done]. rewrite Et. cbn [mbind outcome_bind]. change (EventDataInt32 =? EventDataInt32) with true. cbn [negb]. rewrite Ei. cbn [mbind outcome_bind].
    unfold assign_value in Ev. destruct (getEventValue e) as [value| | |] eqn:Eg; [|done..]. cbn [mbind outcome_bind] in *.
    destruct (getEventValueSize e) as [k| | |]; [|done..]. cbn [mbind outcome_bind] in Ev. apply rdn_Ret_inv in Ev as (_ & Hk & Hle & Et').
    assert (k = 4) as -> by (apply (f_equal zlen) in Et'; zl). rewrite rd_le_ret by lia. rewrite <- Et'. cbn [mbind outcome_bind].
    rewrite le_val_bytes. change (256 ^ Z.of_nat 4) with (2 ^ 32). rewrite (Z.mod_small (u32 result)) by apply u32_range. by rewrite s32_u32, s32_id.
Qed.

(** ** What arrives from the network *)

Lemma byte_at l i b : Forall is_byte l -> rd l i = Ret b -> is_byte b.
Proof. intros H [_ E]%rd_Ret_inv. rewrite Forall_forall in H. by eapply H, list_elem_of_lookup_2. Qed.

Section Received.
Context (e : EventDescriptor) (Hl : zlen (eventData e) = 1024) (Hb : Forall is_byte (eventData e)).

Lemma received_name_length : exists idLen, getIdentificationlength e = Ret idLen /\ 0 <= idLen < 256.
Proof using Hl Hb.
  destruct (rd_ret (eventData e) EVT_IDENTIFICATION_LENGTH_INFO_OFFSET) as [b E]; [unfold EVT_IDENTIFICATION_LENGTH_INFO_OFFSET; lia|].
  exists b. split; [exact E | by eapply byte_at].
Qed.

Lemma received_length : exists h, rd_le 4 (eventData e) 0 = Ret h /\ 0 <= header_length h < 2 ^ 13.
Proof using Hl.
  rewrite rd_le_ret by lia. eexists. split; [done|]. unfold header_length. rewrite land_13. by apply Z.mod_pos_bound.
Qed.

Lemma received_name : returns (assign_identification e) /\ returns (getEventValueType e).
Proof using Hl Hb.
  destruct received_name_length as (idLen & E & Hi). unfold assign_identification, getEventValueType. rewrite E. unfold getIdentificationlength in E. rewrite E. cbn [mbind outcome_bind].
  unfold getIdentification, EVT_IDENTIFICATION_VALUE_INFO_OFFSET. split; [|apply rd_ret; lia]. rewrite rdn_ret by (rewrite ?zlen_drop; lia). by eexists.
Qed.

(** The value can be copied exactly when the size that the header gives it stays in
    the object. *)
Lemma received_value : exists idLen n, getIdentificationlength e = Ret idLen /\ getEventDataLength e = Ret n /\
  (returns (assign_value e) <-> 11 + idLen + u16 (n - (11 + idLen)) <= EVENT_DATA_BYTE_LENGTH).
Proof using Hl Hb.
  destruct received_name_length as (idLen & E & Hi), received_length as (h & Eh & Hh). exists idLen, (header_length h).
  unfold getEventDataLength at 1. rewrite Eh. split; [done|]. split; [done|]. unfold getIdentificationlength in E.
  unfold assign_value, getEventValue, getEventValueSize, getEventDataLength. rewrite E, Eh. cbn [mbind outcome_bind].
  unfold EVT_IDENTIFICATION_LENGTH_INFO_OFFSET, EVT_IDENTIFICATION_VALUE_INFO_OFFSET, EVENT_DATA_BYTE_LENGTH.
  replace (9 + idLen + 2) with (11 + idLen) by lia. pose proof (Z.mod_pos_bound (header_length h - (11 + idLen)) (2 ^ 16)). fold (u16 (header_length h - (11 + idLen))) in *.
  split.
  - intros [bs (_ & _ & Hle & _)%rdn_Ret_inv]. rewrite zlen_drop in Hle. lia.
  - intros Hle. rewrite rdn_ret by (rewrite ?zlen_drop; lia). by eexists.
Qed.
End Received.

Lemma received_object t p tp data n : zlen data = 1024 -> Forall is_byte data -> 0 <= n <= 1024 -> is_byte tp ->
  exists d, setEventData (fresh t p tp) data n = Ret (mk_event t p d) /\ zlen d = 1024 /\ Forall is_byte d.
Proof.
  intros Hl Hb Hn Htp. unfold setEventData, put. rewrite rdn_ret by lia. cbn [mbind outcome_bind].
  assert (Hz : zlen (take (Z.to_nat n) (drop (Z.to_nat 0) data)) = n) by zl.
  assert (Hf : zlen (eventData (fresh t p tp)) = 1024) by (unfold fresh; cbn [eventData]; zl).
  assert (Hfb : Forall is_byte (eventData (fresh t p tp))).
  { unfold fresh. cbn [eventData]. apply Forall_app. split; [apply le_bytes_byte|]. apply Forall_app. split; [by repeat constructor; destruct Htp|].
    by apply Forall_replicate. }
  rewrite wrn_ret by lia. cbn [mbind outcome_bind]. eexists. split; [reflexivity|]. split; [zl|].
  repeat (apply Forall_app; split); auto using Forall_take, Forall_drop.
Qed.

(** The buffer with a datagram at its head is dispatched and cleaned. *)
Lemma receive_clean rcv : (1 <= length rcv <= 1024)%nat ->
  handle_receive_from (replicate 1024 0) rcv =
  (r ← dispatchEventToHandler (rcv ++ replicate (1024 - length rcv) 0) (zlen rcv); Ret (replicate 1024 0, r)).
Proof.
  intros Hl. unfold handle_receive_from. rewrite take_ge by (unfold max_length; lia). rewrite (zeros_split (length rcv)) at 1 by lia.
  rewrite wrn_front by (unfold zlen; by rewrite length_replicate). cbn [mbind outcome_bind]. unfold u16. rewrite Z.mod_small by (unfold zlen; lia).
  destruct (dispatchEventToHandler _ _); [|done..]. cbn [mbind outcome_bind]. rewrite wrn_front by (unfold zlen; by rewrite length_replicate).
  cbn [mbind outcome_bind]. by rewrite <- zeros_split by lia.
Qed.

(** What is longer than the buffer is cut by the socket. *)
Lemma receive_cut datagram data : handle_receive_from data datagram = handle_receive_from data (take max_length datagram).
Proof. unfold handle_receive_from. by rewrite take_take, Nat.min_id. Qed.

(** The accessors other than that of the value. *)
Lemma received_accessors e : zlen (eventData e) = 1024 -> Forall is_byte (eventData e) ->
  returns (getEventType e) /\ returns (getSubCode e) /\ returns (getSubCodePriority e) /\ returns (assign_identification e) /\ returns (getEventValueType e) /\
  exists idLen n, getIdentificationlength e = Ret idLen /\ getEventDataLength e = Ret n /\
    (returns (assign_value e) <-> 11 + idLen + u16 (n - (11 + idLen)) <= EVENT_DATA_BYTE_LENGTH).
Proof.
  intros He Heb. destruct (received_name e He Heb) as [H1 H2]. unfold getEventType, getSubCode, getSubCodePriority, EVT_HEADER_BYTE_LENGTH, EVT_SUB_CODE_OFFSET, EVT_SUB_CODE_PRIORITY_OFFSET.
  destruct (rd_ret (eventData e) 4) as [b ->]; [lia|]. rewrite !rd_le_ret by lia. split_and!; try (by eexists); try done. by apply received_value.
Qed.

(** What the server makes of a datagram: an error of the three it knows, or a
    descriptor whose accessors stay inside the object, that of the value exactly
    when the size computed from the header does. *)
Definition dispatched_safe (r : dispatched) : Prop :=
  match r with
  | CException code => code = 1 \/ code = 2 \/ code = 3
  | executeAlertHandler e | executeInstrumentHandler e =>
      returns (getEventType e) /\ returns (getSubCode e) /\ returns (getSubCodePriority e) /\ returns (assign_identification e) /\ returns (getEventValueType e) /\
      exists idLen n, getIdentificationlength e = Ret idLen /\ getEventDataLength e = Ret n /\
        (returns (assign_value e) <-> 11 + idLen + u16 (n - (11 + idLen)) <= EVENT_DATA_BYTE_LENGTH)
  end.

(** C19: Receiving is safe up to the size of the value.  An empty datagram ends the
    process with a failed assertion.  Whatever other datagram arrives, the handler
    and the server read inside their objects and the buffer is clean again; a
    descriptor that is passed on has its type, codes,
    name and type of the value inside the object.  The value is inside exactly when
    the size computed from the header is: nothing tests it. *)
Theorem event_received datagram : Forall is_byte datagram ->
  (datagram = [] /\ handle_receive_from (replicate 1024 0) datagram = Abort) \/
  exists r, datagram <> [] /\ handle_receive_from (replicate 1024 0) datagram = Ret (replicate 1024 0, r) /\
  dispatched_safe r.
Proof.
  intros Hb. destruct (decide (datagram = [])) as [-> | Hne]; [left; split; [done | by vm_compute]|]. right.
  cut (exists r, handle_receive_from (replicate 1024 0) datagram = Ret (replicate 1024 0, r) /\ dispatched_safe r); [by intros (r & ? & ?); exists r|].
  rewrite receive_cut. set (rcv := take max_length datagram). assert (Hl : (1 <= length rcv <= 1024)%nat).
  { unfold rcv, max_length. rewrite length_take. destruct datagram; [done|]. cbn [length]. lia. }
  assert (Hrb : Forall is_byte rcv) by (by apply Forall_take). rewrite receive_clean by done. clearbody rcv.
  set (data := rcv ++ replicate (1024 - length rcv) 0). assert (Hd : zlen data = 1024) by (unfold data, zlen; rewrite length_app, length_replicate; lia).
  assert (Hdb : Forall is_byte data) by (apply Forall_app; split; [done | by apply Forall_replicate]). clearbody data.
  assert (Hok : forall t p tp, is_byte tp -> exists d, setEventData (fresh t p tp) data (zlen rcv) = Ret (mk_event t p d) /\ zlen d = 1024 /\ Forall is_byte d).
  { intros. apply received_object; [done | done | unfold zlen; lia | done]. }
  unfold dispatchEventToHandler. replace (zlen rcv =? 0) with false by (unfold zlen; lia).
  rewrite (rd_le_ret 2 data) by lia. cbn [mbind outcome_bind]. destruct (negb _); [eexists; split; [done | by right; left]|].
  destruct (_ >? _); [eexists; split; [done | by left]|].
  destruct (rd_ret data EVT_HEADER_BYTE_LENGTH) as [b ->]; [unfold EVT_HEADER_BYTE_LENGTH; lia|]. cbn [mbind outcome_bind]. rewrite alert_fresh, instrument_fresh. cbn [mbind outcome_bind].
  destruct (_ =? EventTypeAlert); [|destruct (_ =? EventTypeInstrument)].
  - destruct (Hok 0 63 252) as (d & -> & Hz & Hby); [done|]. eexists. split; [done|]. by apply received_accessors.
  - destruct (Hok 1 31 125) as (d & -> & Hz & Hby); [done|]. eexists. split; [done|]. by apply received_accessors.
  - eexists. split; [done | by right; right].
Qed.

Definition short_datagram : bytes := [0x45; 0x43; 1; 0; 0; 2; 0; 0; 0; 0; 5].

Lemma event_received_witness :
  handle_receive_from (replicate 1024 0) [] = Abort /\
  exists r, handle_receive_from (replicate 1024 0) short_datagram = Ret (replicate 1024 0, r) /\ dispatched_safe r.
Proof.
  split.
  - by destruct (event_received []) as [[_ H] | (r & H & _)]; [apply Forall_nil_2 | exact H | ].
  - destruct (event_received short_datagram) as [[H _] | (r & _ & H)]; [|done | by exists r].
    unfold short_datagram. repeat (apply Forall_cons_2; [unfold is_byte; lia|]). apply Forall_nil_2.
Defined.

(** ** Defects *)

(** A datagram whose header gives the value a size below 0: the size wraps and the
    domain of the alert is copied from behind the object. *)
Theorem received_value_overread :
  match handle_receive_from (replicate 1024 0) short_datagram with
  | Ret (_, executeAlertHandler e) => getEventValueSize e = Ret 65525 /\ getLogAlert e = Oob
  | _ => False
  end.
Proof. vm_compute. done. Qed.

(** The length is passed as 8 bits: an event of 256 bytes or more is sent with its
    length modulo 256, and its own value cannot be read. *)
Theorem long_event_cut :
  (forall id domain, Forall is_byte domain -> zlen id <= 255 -> zlen domain < 256 -> 244 < zlen id + zlen domain ->
     exists e, sendLogAlert id domain = Ret e /\ getEventDataLength e = Ret ((11 + zlen id + zlen domain) mod 256) /\ getLogAlert e = Oob) /\
  (e ← sendLogAlert (replicate 10 97) (replicate 240 98); processBufferElement e) = Ret [0x45; 0x43; 0x29; 0; 252].
Proof.
  split; [|vm_compute; reflexivity]. intros id domain Hb Hi Hd Hlong. pose proof (zlen_nonneg id). pose proof (zlen_nonneg domain).
  assert (Hcp : copied EventDataCString (domain ++ [0]) (u16 (zlen domain)) = Some domain).
  { unfold copied, u16. rewrite Z.mod_small by lia. change (number_size EventDataCString) with (@None Z). change (EventDataCString =? EventDataCString) with true. cbn [orb].
    replace ((0 <=? zlen domain) && (zlen domain <=? zlen (domain ++ [0]))) with true by (rewrite zlen_app; change (zlen [0]) with 1; lia).
    unfold zlen. by rewrite Nat2Z.id, take_app_length. }
  assert (Hby : Forall is_byte (domain ++ [0])) by (apply Forall_app; split; [done | by repeat constructor]).
  pose proof (build_event 0 63 252 EventAlertLogSubmitted 10 id EventDataCString (domain ++ [0]) (u16 (zlen domain)) domain) as E.
  eexists. split; [unfold sendLogAlert; rewrite alert_fresh; cbn [mbind outcome_bind]; apply E; done || lia|].
  set (n := u8 (11 + zlen id + zlen domain)). assert (En : exists k, 1 <= k <= 2 /\ n = 11 + zlen id + zlen domain - 256 * k /\ 0 <= n < 256).
  { exists ((11 + zlen id + zlen domain) / 256). unfold n, u8. change (2 ^ 8) with 256. divmod. }
  destruct En as (k & Hk & En & Hn8).
  set (e := mk_event _ _ _). assert (He : eventData e = packet n 252 EventAlertLogSubmitted 10 id EventDataCString domain (rest id domain)) by done.
  assert (Hn : 0 <= n < 2 ^ 13) by lia. split; [by rewrite (read_length _ _ _ _ _ _ _ _ _ He Hn)|].
  unfold getLogAlert, getAlertCode. rewrite (read_sub_code _ _ _ _ _ _ _ _ _ He) by done. cbn [mbind outcome_bind]. change (EventAlertLogSubmitted =? EventAlertLogSubmitted) with true. cbn [negb].
  rewrite (read_value_type _ _ _ _ _ _ _ _ _ He). cbn [mbind outcome_bind]. change (EventDataCString =? EventDataCString) with true. cbn [negb].
  rewrite (read_identification _ _ _ _ _ _ _ _ _ He). cbn [mbind outcome_bind]. unfold assign_value. rewrite (read_value _ _ _ _ _ _ _ _ _ He), (read_value_size _ _ _ _ _ _ _ _ _ He Hn).
  cbn [mbind outcome_bind]. assert (Hs : u16 (n - (11 + zlen id)) = zlen domain - 256 * k + 65536).
  { unfold u16. rewrite <- (Z.mod_add _ 1) by lia. rewrite Z.mod_small; lia. }
  rewrite Hs. unfold rdn. replace (0 + (zlen domain - 256 * k + 65536) <=? zlen (domain ++ rest id domain)) with false; [by rewrite andb_false_r|].
  symmetry. apply Z.leb_gt. unfold rest. rewrite zlen_app, zlen_replicate. unfold zlen in *. lia.
Qed.

(** Name and value are written without a test of the room in the packet. *)
Theorem event_overflows : sendLogAlert [97] (replicate 1013 98) = Oob /\ (e ← sendLogAlert [97] (replicate 1012 98); getEventDataLength e) = Ret 0.
Proof. split; vm_compute; reflexivity. Qed.

(** A name of more than 255 bytes is not cut; its length is stored modulo 256. *)
Theorem identification_not_truncated : (e ← sendLogAlert (replicate 256 97) [98]; getIdentificationlength e) = Ret 0.
Proof. vm_compute. reflexivity. Qed.

(** Strings and binary data are sent as doubles: eight bytes, whatever their length. *)
Theorem string_sent_as_double :
  @sendEventCString AlertEventChannel [97; 0] 1 1 [98; 99; 0] = Oob /\
  match @sendEventCString AlertEventChannel [97; 0] 1 1 (replicate 10 98 ++ [0]) with
  | Ret (inr e) => getEventValueType e = Ret EventDataDouble /\ assign_value e = Ret (replicate 8 98)
  | _ => False
  end.
Proof. split; [vm_compute; reflexivity|]. vm_compute. done. Qed.

(** The codes of custom alerts start at the code of log alerts. *)
Theorem custom_alert_taken_for_log :
  (e ← AlertEventDescriptor; e ← setCustomAlert e [97] 1 0 EventDataCString [98; 99] 2; getLogAlert e) = Ret (Some ([97], [98; 99])).
Proof. vm_compute. reflexivity. Qed.

(** The factory writes two bytes into an object of one byte, for every event that
    passes its tests. *)
Theorem factory_writes_past_object serialized length :
  length <= EVT_DATA_MAX_BYTE_LENGTH -> rd_le 2 serialized 0 = Ret 0x4345 -> getEventInstance (Some serialized) length = Oob.
Proof.
  intros Hl Hs. unfold getEventInstance. replace (length >? EVT_DATA_MAX_BYTE_LENGTH) with false by lia. rewrite Hs. cbn [mbind outcome_bind].
  change (17221 =? 17221) with true. cbn [negb]. by destruct (rd_le 2 serialized EVT_HEADER_BYTE_LENGTH) eqn:E; [|unfold rd_le, rdn in E; case_match..].
Qed.

(** An empty datagram fails the assertion of the server. *)
Theorem empty_datagram_aborts : handle_receive_from (replicate 1024 0) [] = Abort.
Proof. vm_compute. reflexivity. Qed.
