(* ===== verification/Sets.v ===== *)
(** * Ordered sets of the C++ library

    A [std::set] of numbers or addresses is the list of its elements in
    increasing order. *)
From S2P Require Import Prelude.
From Stdlib Require Import Sorted.
#[local] Open Scope Z_scope.

(** [insert] and [erase] *)
Fixpoint set_insert (i : Z) (l : list Z) : list Z :=
  match l with [] => [i] | j :: l' => if i <? j then i :: l else if i =? j then l else j :: set_insert i l' end.
Fixpoint set_erase (i : Z) (l : list Z) : list Z :=
  match l with [] => [] | j :: l' => if i =? j then l' else j :: set_erase i l' end.

Lemma set_insert_in i l j : j ∈ set_insert i l <-> j = i \/ j ∈ l.
Proof.
  induction l as [|k l IH]; cbn; [by rewrite list_elem_of_singleton, elem_of_nil; tauto|].
  repeat case_match; bool_hyps; rewrite ?elem_of_cons, ?IH; intuition (subst; auto).
Qed.

Lemma set_insert_sorted i l : StronglySorted Z.lt l -> StronglySorted Z.lt (set_insert i l).
Proof.
  induction 1 as [|k l Hs IH Hk]; cbn; [repeat constructor|]. repeat case_match; bool_hyps.
  - constructor; [by constructor|]. constructor; [done|]. eapply Forall_impl; [done|]. intros; lia.
  - by constructor.
  - constructor; [done|]. apply Forall_forall. intros j [-> | Hj]%set_insert_in; [lia|]. by eapply Forall_forall in Hj.
Qed.

Lemma fold_insert_in new l j : j ∈ foldl (fun l i => set_insert i l) l new <-> j ∈ new \/ j ∈ l.
Proof.
  revert l. induction new as [|i new IH]; intros l; cbn; [rewrite elem_of_nil; tauto|].
  rewrite IH, set_insert_in, elem_of_cons. tauto.
Qed.
Lemma fold_insert_sorted new l : StronglySorted Z.lt l -> StronglySorted Z.lt (foldl (fun l i => set_insert i l) l new).
Proof. revert l. induction new as [|i new IH]; intros l Hl; cbn; [done|]. by apply IH, set_insert_sorted. Qed.
Lemma foldr_insert_in new j : j ∈ foldr set_insert [] new <-> j ∈ new.
Proof. induction new as [|i new IH]; cbn; [done|]. rewrite set_insert_in, IH, elem_of_cons. tauto. Qed.
Lemma foldr_insert_sorted new : StronglySorted Z.lt (foldr set_insert [] new).
Proof. induction new as [|i new IH]; cbn; [constructor|]. by apply set_insert_sorted. Qed.

Lemma set_erase_other i l j : j <> i -> j ∈ set_erase i l <-> j ∈ l.
Proof.
  intros Hne. induction l as [|k l IH]; cbn; [done|]. case_match; bool_hyps; rewrite ?elem_of_cons, ?IH; intuition (subst; done).
Qed.

Lemma set_erase_in i l j : j ∈ set_erase i l -> j ∈ l.
Proof.
  induction l as [|k l IH]; cbn; [done|]. case_match; bool_hyps; rewrite ?elem_of_cons; intuition.
Qed.

Lemma set_erase_sorted i l : StronglySorted Z.lt l -> StronglySorted Z.lt (set_erase i l) /\ (i ∉ set_erase i l).
Proof.
  induction 1 as [|k l Hs [IHs IHi] Hk]; cbn; [split; [constructor | apply not_elem_of_nil]|].
  case_match eqn:E; bool_hyps; subst.
  - split; [done|]. intros Hin. eapply Forall_forall in Hk; [|done]. lia.
  - split; [|rewrite not_elem_of_cons; split; [lia | done]]. constructor; [done|]. apply Forall_forall.
    intros j Hj%set_erase_in. by eapply Forall_forall in Hj.
Qed.
