(* ===== verification/Feeder.v ===== *)
(** * The service feeder (network/URLServiceFeeder, utility/Bimap)

    The feeder hands out the services of a list of URLs, in turn or the first one
    that is online.  The set of the services that are online is a multi-index
    container; it is modelled as its sequence in the order of the round robin
    position, which is unique.  The service that the handler makes for a URL, or
    its failure, is an argument. *)
From S2P Require Import Prelude.
From S2P Require Import Sets.
From stdpp Require Import strings.
From Stdlib Require Import Sorted.
#[local] Open Scope Z_scope.

(** ** Data *)

Record URLService := mk_service { url_priority : Z; url_online : bool; url : option string; service : option Z }.

Record URLServiceIndex := mk_index { global_index : Z; index_priority : Z; round_robing_start_position : Z }.

Inductive URLServiceFeedMode := URLServiceFeedModeFailOver | URLServiceFeedModeRoundRobin.

(** utility/Bimap.h *)
Record Bimap := mk_bimap { left_map : gmap string Z; right_map : gmap Z string }.
Definition map_insert {K} `{Countable K} {A} (k : K) (a : A) (m : gmap K A) : gmap K A :=
  match m !! k with Some _ => m | None => <[k := a]> m end.
Definition bimap_insert (a : string) (b : Z) (m : Bimap) : Bimap := mk_bimap (map_insert a b (left_map m)) (map_insert b a (right_map m)).
Definition removebyRightKey (b : Z) (m : Bimap) : Bimap :=
  match right_map m !! b with
  | None => m
  | Some a => mk_bimap (delete a (left_map m)) (delete b (right_map m))
  end.
(** The assertion of [size]. *)
Definition bimap_size (m : Bimap) : outcome Z :=
  if bool_decide (size (left_map m) = size (right_map m)) then mret (Z.of_nat (size (left_map m))) else Abort.

(** [service_list], with [list_size] its length; [available_url] in order;
    [disposed] are the services given back to the handler. *)
Record URLServiceFeeder := mk_feeder {
  service_list : list URLService;
  available_url : list Z;
  set_urls_online : list URLServiceIndex;
  offline_urls : list Z;
  mapping_url_index : Bimap;
  last_round_robin_index : Z;
  current_service : option Z;
  feed_mode : URLServiceFeedMode;
  disposed : list (option Z);
}.

Definition new_feeder : URLServiceFeeder := mk_feeder [] [] [] [] (mk_bimap ∅ ∅) 0 None URLServiceFeedModeRoundRobin [].

(** ** Containers *)

(** [multi_index_container::insert]: both keys are unique. *)
Definition has_index (i : Z) (l : list URLServiceIndex) : bool := existsb (fun x => global_index x =? i) l.
Definition has_position (p : Z) (l : list URLServiceIndex) : bool := existsb (fun x => round_robing_start_position x =? p) l.
Fixpoint place (x : URLServiceIndex) (l : list URLServiceIndex) : list URLServiceIndex :=
  match l with
  | [] => [x]
  | y :: l' => if round_robing_start_position x <? round_robing_start_position y then x :: l else y :: place x l'
  end.
Definition online_insert (x : URLServiceIndex) (l : list URLServiceIndex) : list URLServiceIndex :=
  if has_index (global_index x) l || has_position (round_robing_start_position x) l then l else place x l.
Fixpoint online_erase (i : Z) (l : list URLServiceIndex) : list URLServiceIndex :=
  match l with [] => [] | x :: l' => if global_index x =? i then l' else x :: online_erase i l' end.
(** [get<position_index>().begin()] *)
Fixpoint first_index (l : list URLServiceIndex) : option Z :=
  match l with
  | [] => None
  | x :: l' => match first_index l' with None => Some (global_index x) | Some j => Some (Z.min (global_index x) j) end
  end.

(** ** Operations *)

Definition service_at (f : URLServiceFeeder) (i : Z) : outcome URLService :=
  if i <? 0 then Oob else match service_list f !! Z.to_nat i with Some s => Ret s | None => Oob end.
Definition service_set (f : URLServiceFeeder) (i : Z) (s : URLService) : list URLService := <[Z.to_nat i := s]> (service_list f).

(** [getNextFromSetByRoundRobin]: the element whose new position another element
    already has is erased by [modify]. *)
Definition getNextFromSetByRoundRobin (f : URLServiceFeeder) : URLServiceFeeder * option Z :=
  match set_urls_online f with
  | [] => (f, None)
  | x :: l =>
      let p := u64 (last_round_robin_index f + 1) in
      (mk_feeder (service_list f) (available_url f)
         (if has_position p l then l else place (mk_index (global_index x) (index_priority x) p) l)
         (offline_urls f) (mapping_url_index f) p (current_service f) (feed_mode f) (disposed f),
       Some (global_index x))
  end.
Definition getNextFromSetByPriority (f : URLServiceFeeder) : option Z := first_index (set_urls_online f).

Definition getService (f : URLServiceFeeder) : outcome (URLServiceFeeder * option Z) :=
  let '(f, cur) := match feed_mode f with
                   | URLServiceFeedModeRoundRobin => getNextFromSetByRoundRobin f
                   | URLServiceFeedModeFailOver => (f, getNextFromSetByPriority f)
                   end in
  let f := mk_feeder (service_list f) (available_url f) (set_urls_online f) (offline_urls f) (mapping_url_index f)
             (last_round_robin_index f) cur (feed_mode f) (disposed f) in
  match cur with
  | None => mret (f, None)
  | Some i => s ← service_at f i; mret (f, service s)
  end.
Definition getService_at (i : Z) (f : URLServiceFeeder) : outcome (option Z) := s ← service_at f i; mret (service s).
Definition isOnline (i : Z) (f : URLServiceFeeder) : outcome bool := s ← service_at f i; mret (url_online s).

(** [grow]: ten more entries when none is available. *)
Definition grow (f : URLServiceFeeder) : URLServiceFeeder :=
  match available_url f with
  | [] =>
      let n := zlen (service_list f) in
      let new := seqZ n 10 in
      mk_feeder (service_list f ++ map (fun i => mk_service i false None None) new) (foldr set_insert [] new) (set_urls_online f)
        (offline_urls f) (mapping_url_index f) (last_round_robin_index f) (current_service f) (feed_mode f) (disposed f)
  | _ => f
  end.

(** The handler is given the URL and the index; [inl (-1)] is the exception. *)
Definition addURL (serviceForURL : string -> Z -> option Z) (new_url : string) (prio : Z) (f : URLServiceFeeder) :
    URLServiceFeeder * (Z + Z) :=
  let f := grow f in
  match available_url f with
  | [] => (f, inl (-1))
  | i :: rest =>
      match serviceForURL new_url i with
      | None => (f, inl (-1))
      | Some srv =>
          let p := u64 (last_round_robin_index f + 1) in
          (mk_feeder (service_set f i (mk_service prio true (Some new_url) (Some srv))) rest
             (online_insert (mk_index i prio p) (set_urls_online f)) (offline_urls f)
             (bimap_insert new_url i (mapping_url_index f)) p (current_service f) (feed_mode f) (disposed f), inr i)
      end
  end.

(** The test of the index, as written. *)
Definition out_of_range (f : URLServiceFeeder) (i : Z) : bool := i >? zlen (service_list f).

Definition setURLOffline (i : Z) (f : URLServiceFeeder) : outcome URLServiceFeeder :=
  if out_of_range f i then mret f
  else
    s ← service_at f i;
    mret (mk_feeder (service_set f i (mk_service (url_priority s) false (url s) (service s))) (available_url f)
            (online_erase i (set_urls_online f)) (set_insert i (offline_urls f)) (mapping_url_index f) (last_round_robin_index f)
            (if bool_decide (current_service f = Some i) then None else current_service f) (feed_mode f) (disposed f)).

Definition setURLOnline (i : Z) (f : URLServiceFeeder) : outcome URLServiceFeeder :=
  if out_of_range f i then mret f
  else
    s ← service_at f i;
    let p := u64 (last_round_robin_index f + 1) in
    mret (mk_feeder (service_set f i (mk_service (url_priority s) true (url s) (service s))) (available_url f)
            (online_insert (mk_index i (url_priority s) p) (set_urls_online f)) (set_erase i (offline_urls f)) (mapping_url_index f) p
            (current_service f) (feed_mode f) (disposed f)).

Definition removeURL (i : Z) (dispose_service : bool) (f : URLServiceFeeder) : outcome URLServiceFeeder :=
  if out_of_range f i then mret f
  else
    s ← service_at f i;
    mret (mk_feeder (service_set f i (mk_service 0 (url_online s) (url s) None)) (set_insert i (available_url f))
            (online_erase i (set_urls_online f)) (offline_urls f) (removebyRightKey i (mapping_url_index f)) (last_round_robin_index f)
            (current_service f) (feed_mode f) (if dispose_service then service s :: disposed f else disposed f)).

Definition clear (dispose_service : bool) (f : URLServiceFeeder) : URLServiceFeeder :=
  let all := seqZ 0 (zlen (service_list f)) in
  mk_feeder (map (fun s => mk_service 0 (url_online s) (url s) None) (service_list f)) (foldl (fun l i => set_insert i l) (available_url f) all) []
    (foldl (fun l i => set_erase i l) (offline_urls f) all) (mapping_url_index f) (last_round_robin_index f) (current_service f)
    (feed_mode f)
    (foldl (fun d s => match service s with Some srv => if dispose_service then Some srv :: d else d | None => d end) (disposed f) (service_list f)).

Definition getURLForIndex (i : Z) (f : URLServiceFeeder) : Z + string :=
  match right_map (mapping_url_index f) !! i with Some a => inr a | None => inl (-1) end.
Definition getIndexFromURL (a : string) (f : URLServiceFeeder) : Z + Z :=
  match left_map (mapping_url_index f) !! a with Some i => inr i | None => inl (-1) end.
Definition getNumberOfURL (f : URLServiceFeeder) : outcome Z := bimap_size (mapping_url_index f).
Definition setFeedMode (m : URLServiceFeedMode) (f : URLServiceFeeder) : URLServiceFeeder :=
  mk_feeder (service_list f) (available_url f) (set_urls_online f) (offline_urls f) (mapping_url_index f) (last_round_robin_index f)
    (current_service f) m (disposed f).

(** ** Containers, as sets *)

Abbreviation indexes l := (map global_index l).
Abbreviation positions l := (map round_robing_start_position l).

Lemma has_index_in i l : has_index i l = true <-> i ∈ indexes l.
Proof.
  unfold has_index. rewrite existsb_exists, list_elem_of_fmap. split.
  - intros (x & Hx%list_elem_of_In & E). exists x. split; [lia | done].
  - intros (x & -> & Hx%list_elem_of_In). exists x. split; [done | lia].
Qed.
Lemma has_position_in p l : has_position p l = true <-> p ∈ positions l.
Proof.
  unfold has_position. rewrite existsb_exists, list_elem_of_fmap. split.
  - intros (x & Hx%list_elem_of_In & E). exists x. split; [lia | done].
  - intros (x & -> & Hx%list_elem_of_In). exists x. split; [done | lia].
Qed.

(** A new position is the last one. *)
Lemma place_last x l : Forall (fun y => round_robing_start_position y < round_robing_start_position x) l -> place x l = l ++ [x].
Proof.
  induction 1 as [|y l Hy Hl IH]; cbn; [done|]. replace (_ <? _) with false by lia. by rewrite IH.
Qed.

Lemma fresh_position p l : Forall (fun y => round_robing_start_position y < p) l -> has_position p l = false.
Proof.
  intros Hl. destruct (has_position p l) eqn:E; [|done]. apply has_position_in, list_elem_of_fmap in E as (x & -> & Hx).
  eapply Forall_forall in Hx; [|done]. cbn in Hx. lia.
Qed.

Lemma online_insert_last x l :
  Forall (fun y => round_robing_start_position y < round_robing_start_position x) l ->
  online_insert x l = if has_index (global_index x) l then l else l ++ [x].
Proof. intros Hl. unfold online_insert. rewrite fresh_position by done. rewrite orb_false_r. case_match; [done | by apply place_last]. Qed.

Lemma erase_sublist i l : online_erase i l `sublist_of` l.
Proof. induction l as [|x l IH]; cbn; [done|]. case_match; by constructor. Qed.

Lemma erase_in i l j : NoDup (indexes l) -> j ∈ indexes (online_erase i l) <-> j ∈ indexes l /\ j <> i.
Proof.
  induction l as [|x l IH]; cbn; [rewrite elem_of_nil; tauto|]. rewrite NoDup_cons. intros [Hx Hl].
  case_match; bool_hyps; cbn; rewrite !elem_of_cons.
  - subst. split; [intros Hj; split; [by right | by intros ->] | tauto].
  - rewrite IH by done. intuition (subst; auto).
Qed.

(** ** The invariant *)

Definition entry (f : URLServiceFeeder) (i : Z) : option URLService := if i <? 0 then None else service_list f !! Z.to_nat i.
Definition registered (f : URLServiceFeeder) (i : Z) : Prop := exists s, entry f i = Some s /\ service s <> None.
Definition is_online (f : URLServiceFeeder) (i : Z) : Prop := exists s, entry f i = Some s /\ service s <> None /\ url_online s = true.

Record feeder_ok (f : URLServiceFeeder) : Prop := mk_feeder_ok {
  ok_sorted : StronglySorted Z.lt (available_url f);
  ok_available i : i ∈ available_url f <-> exists s, entry f i = Some s /\ service s = None;
  ok_nodup : NoDup (indexes (set_urls_online f));
  ok_online i : i ∈ indexes (set_urls_online f) <-> is_online f i;
  ok_positions : StronglySorted Z.lt (positions (set_urls_online f));
  ok_last : Forall (fun x => round_robing_start_position x <= last_round_robin_index f) (set_urls_online f);
  ok_count : 0 <= last_round_robin_index f;
}.

Lemma service_at_entry f i : service_at f i = match entry f i with Some s => Ret s | None => Oob end.
Proof. unfold service_at, entry. by case_match. Qed.

Lemma entry_range f i : is_Some (entry f i) <-> 0 <= i < zlen (service_list f).
Proof.
  unfold entry. destruct (i <? 0) eqn:E; [split; [by intros [? ?] | lia]|].
  rewrite lookup_lt_is_Some. split; intros; zl.
Qed.

(** Writing an entry. *)
Lemma entry_set f i s j l :
  0 <= i < zlen (service_list f) -> l = service_set f i s ->
  (if j <? 0 then None else l !! Z.to_nat j) = if decide (j = i) then Some s else entry f j.
Proof.
  intros Hi ->. unfold service_set, entry. destruct (j <? 0) eqn:E; [rewrite decide_False by lia; done|].
  case_decide as Ej.
  - subst. rewrite list_lookup_insert_eq; [done | zl].
  - rewrite list_lookup_insert_ne by lia. done.
Qed.

Lemma sorted_snoc l p : StronglySorted Z.lt l -> Forall (fun x => x < p) l -> StronglySorted Z.lt (l ++ [p]).
Proof.
  intros Hs Hl. induction Hs as [|x l Hs IH Hx]; cbn; [repeat constructor|]. inversion Hl; subst.
  constructor; [by apply IH|]. apply Forall_app. split; [done | by constructor].
Qed.

Lemma sorted_sublist (l k : list Z) : l `sublist_of` k -> StronglySorted Z.lt k -> StronglySorted Z.lt l.
Proof.
  induction 1 as [|x l k Hlk IH|x l k Hlk IH]; intros Hk; [done | |]; inversion Hk; subst; [|by apply IH].
  constructor; [by apply IH|]. apply Forall_forall. intros y Hy.
  eapply Forall_forall; [done|]. by eapply elem_of_sublist.
Qed.

(** A new element goes to the end of the round. *)
Section append.
Context (l : list URLServiceIndex) (last : Z).
Context (Hs : StronglySorted Z.lt (positions l)) (Hl : Forall (fun x => round_robing_start_position x <= last) l).

Lemma below_next x : round_robing_start_position x = last + 1 ->
  Forall (fun y => round_robing_start_position y < round_robing_start_position x) l.
Proof. intros ->. eapply Forall_impl; [done|]. intros; cbn in *; lia. Qed.

Lemma append_sorted x : round_robing_start_position x = last + 1 -> StronglySorted Z.lt (positions (l ++ [x])).
Proof.
  intros Hx. rewrite map_app. apply sorted_snoc; [done|]. apply Forall_map.
  eapply Forall_impl; [by apply (below_next x)|]. done.
Qed.

Lemma append_last x : round_robing_start_position x = last + 1 ->
  Forall (fun y => round_robing_start_position y <= last + 1) (l ++ [x]).
Proof. intros Hx. apply Forall_app. split; [eapply Forall_impl; [done|]; intros; cbn in *; lia | constructor; [lia | done]]. Qed.
End append.

Lemma next_position n : 0 <= n < 2 ^ 64 - 1 -> u64 (n + 1) = n + 1.
Proof. intros. unfold u64. apply Z.mod_small. lia. Qed.

(** ** Operations keep it *)

Lemma grow_ok f : feeder_ok f -> feeder_ok (grow f) /\ available_url (grow f) <> [] /\
  set_urls_online (grow f) = set_urls_online f /\ last_round_robin_index (grow f) = last_round_robin_index f /\
  (forall i s, entry f i = Some s -> entry (grow f) i = Some s).
Proof.
  intros Hok. unfold grow. destruct (available_url f) as [|a av] eqn:Ea; [|split_and!; try done; by rewrite Ea].
  destruct Hok as [Hs Hav Hn Ho Hp Hl Hc]. set (n := zlen (service_list f)). pose proof (zlen_nonneg (service_list f)).
  set (new := map (fun i => mk_service i false None None) (seqZ n 10)).
  assert (forall i, entry (mk_feeder (service_list f ++ new) (foldr set_insert [] (seqZ n 10)) (set_urls_online f) (offline_urls f)
     (mapping_url_index f) (last_round_robin_index f) (current_service f) (feed_mode f) (disposed f)) i =
     if decide (0 <= i < n) then entry f i else if decide (n <= i < n + 10) then Some (mk_service i false None None) else None) as Hent.
  { intros i. unfold entry; cbn [service_list]. destruct (i <? 0) eqn:E; [rewrite !decide_False by lia; done|].
    case_decide; [rewrite lookup_app_l; [done | zl]|]. rewrite lookup_app_r by zl.
    subst new. rewrite list_lookup_fmap. case_decide.
    - erewrite lookup_seqZ_lt; [cbn; do 2 f_equal; zl | zl].
    - rewrite lookup_seqZ_ge; [done | zl]. }
  assert (forall i s, entry f i = Some s -> 0 <= i < n) as Hin by (intros i s E; apply entry_range; by eexists).
  assert (forall i s, entry f i = Some s -> service s = None -> False) as Hfull.
  { intros i s E1 E2. assert (i ∈ @nil Z) as Hi by (rewrite <- Ea; apply Hav; eauto). by apply not_elem_of_nil in Hi. }
  split_and!; cbn; try done.
  - constructor; cbn; try done.
    + apply foldr_insert_sorted.
    + intros i. rewrite foldr_insert_in, elem_of_seqZ, Hent. repeat case_decide; try lia.
      * split; [lia|]. intros (s & E1 & E2). by exfalso; eapply Hfull.
      * split; [by eexists | done].
      * split; [lia | by intros (? & ? & ?)].
    + intros i. rewrite Ho. unfold is_online. rewrite Hent. repeat case_decide; try done.
      * split; intros (s & E & Hns & _); [apply Hin in E; lia | by simplify_eq; destruct Hns].
      * split; intros (s & E & ?); [apply Hin in E; lia | done].
  - intros E. assert (n ∈ @nil Z) as Hi by (rewrite <- E; apply foldr_insert_in, elem_of_seqZ; lia). by apply not_elem_of_nil in Hi.
  - intros i s E. rewrite Hent. rewrite decide_True by (by eapply Hin). done.
Qed.

(** One entry is written. *)
Lemma write_ok f f' i s' :
  feeder_ok f -> 0 <= i < zlen (service_list f) -> service_list f' = service_set f i s' ->
  StronglySorted Z.lt (available_url f') ->
  (forall j, j ∈ available_url f' <-> if decide (j = i) then service s' = None else j ∈ available_url f) ->
  NoDup (indexes (set_urls_online f')) ->
  (forall j, j ∈ indexes (set_urls_online f') <->
     if decide (j = i) then service s' <> None /\ url_online s' = true else j ∈ indexes (set_urls_online f)) ->
  StronglySorted Z.lt (positions (set_urls_online f')) ->
  Forall (fun x => round_robing_start_position x <= last_round_robin_index f') (set_urls_online f') ->
  0 <= last_round_robin_index f' ->
  feeder_ok f' /\ (forall j, entry f' j = if decide (j = i) then Some s' else entry f j).
Proof.
  intros Hok Hi El Hs Hav Hn Ho Hp Hl Hc.
  assert (forall j, entry f' j = if decide (j = i) then Some s' else entry f j) as Hent by (intros j; by apply entry_set).
  split; [|done]. constructor; try done.
  - intros j. rewrite Hav, Hent. case_decide; [|by apply Hok]. split; [by eexists | by intros (? & [= <-] & ?)].
  - intros j. rewrite Ho. unfold is_online. rewrite Hent. case_decide; [|by apply Hok].
    split; [by eexists | by intros (? & [= <-] & ?)].
Qed.

Ltac feeder_fields :=
  cbn [service_list available_url set_urls_online offline_urls mapping_url_index last_round_robin_index current_service feed_mode
       service url_online url_priority url global_index index_priority round_robing_start_position].

Lemma addURL_ok h u prio f :
  feeder_ok f -> last_round_robin_index f < 2 ^ 64 - 1 ->
  let '(f', r) := addURL h u prio f in
  feeder_ok f' /\ last_round_robin_index f' <= last_round_robin_index f + 1 /\
  match r with
  | inr i => exists srv, h u i = Some srv /\ ~ registered f i /\ entry f' i = Some (mk_service prio true (Some u) (Some srv)) /\
               (forall j s, j <> i -> entry f j = Some s -> entry f' j = Some s)
  | inl e => e = -1 /\ (forall j s, entry f j = Some s -> entry f' j = Some s)
  end.
Proof.
  intros Hok Hlt. unfold addURL. destruct (grow_ok f Hok) as (Hg & Hne & Eo & El & Hent).
  destruct (available_url (grow f)) as [|i rest] eqn:Eav; [done|].
  destruct (h u i) as [srv|] eqn:Eh; [|split_and!; [done | lia | done..]].
  rewrite next_position by (rewrite El; split; [apply Hok | lia]).
  pose proof Hg as [Hs Hav Hn Ho Hp Hl Hc]. rewrite Eav in Hs, Hav.
  assert (exists s, entry (grow f) i = Some s /\ service s = None) as (s & Es & Hsn) by (apply Hav, elem_of_cons; by left).
  assert (i ∉ indexes (set_urls_online (grow f))) as Hni by (rewrite Ho; intros (s' & E & Hs' & _); congruence).
  rewrite online_insert_last by (by apply (below_next _ (last_round_robin_index (grow f)))).
  cbn [global_index]. destruct (has_index i (set_urls_online (grow f))) eqn:Ei; [by apply has_index_in in Ei|].
  apply StronglySorted_inv in Hs as [Hs' Hrest].
  match goal with |- feeder_ok ?F /\ _ =>
    destruct (write_ok (grow f) F i (mk_service prio true (Some u) (Some srv)) Hg) as [Hw Hew] end;
    [apply entry_range; by eexists | done | feeder_fields.. |].
  - exact Hs'.
  - intros j. case_decide as Ej; [subst | rewrite Eav, elem_of_cons; tauto]. split; [|done]. intros Hin.
    eapply Forall_forall in Hin; [|done]. lia.
  - rewrite map_app. apply NoDup_app. split_and!; [done | | apply NoDup_singleton]. intros j Hj ->%list_elem_of_singleton. done.
  - intros j. rewrite map_app, elem_of_app. cbn [map global_index]. rewrite list_elem_of_singleton.
    case_decide as Ej; [subst; by split; [|right] | tauto].
  - by eapply append_sorted.
  - by eapply append_last.
  - lia.
  - split_and!; [exact Hw | cbn; lia |]. exists srv. split_and!; [done | | by rewrite Hew, decide_True | intros j s0 Hj Hsj; rewrite Hew, decide_False by done; auto].
    intros (s' & E & Hs2). apply Hent in E. congruence.
Qed.

(** The operations on the index of a URL that is registered. *)
Section registered.
Context (f : URLServiceFeeder) (i : Z) (s : URLService).
Context (Hok : feeder_ok f) (Hs : entry f i = Some s) (Hreg : service s <> None).
Context (Hlt : last_round_robin_index f < 2 ^ 64 - 1).

Lemma registered_range : 0 <= i < zlen (service_list f).
Proof. apply entry_range. by eexists. Qed.

Lemma registered_access : out_of_range f i = false /\ service_at f i = Ret s.
Proof. unfold out_of_range. pose proof registered_range. rewrite service_at_entry, Hs. split; [lia | done]. Qed.

Lemma not_available : i ∉ available_url f.
Proof. rewrite (ok_available _ Hok). intros (s' & E & ?). congruence. Qed.

Lemma erased_nodup : NoDup (indexes (online_erase i (set_urls_online f))).
Proof. eapply sublist_NoDup; [apply (ok_nodup _ Hok)|]. apply fmap_sublist, erase_sublist. Qed.

Lemma erased_sorted : StronglySorted Z.lt (positions (online_erase i (set_urls_online f))).
Proof. eapply sorted_sublist; [|apply (ok_positions _ Hok)]. apply fmap_sublist, erase_sublist. Qed.

Lemma erased_last : Forall (fun x => round_robing_start_position x <= last_round_robin_index f) (online_erase i (set_urls_online f)).
Proof.
  apply Forall_forall. intros x Hx. pose proof (ok_last _ Hok) as Hl. eapply Forall_forall in Hl; [exact Hl|].
  eapply elem_of_sublist; [done | apply erase_sublist].
Qed.

Lemma setURLOffline_ok :
  exists f', setURLOffline i f = Ret f' /\ feeder_ok f' /\ last_round_robin_index f' = last_round_robin_index f /\
    (forall j, entry f' j = if decide (j = i) then Some (mk_service (url_priority s) false (url s) (service s)) else entry f j).
Proof.
  destruct registered_access as [E1 E2]. unfold setURLOffline. rewrite E1, E2, bind_ret. eexists; split; [reflexivity|].
  match goal with |- feeder_ok ?F /\ _ =>
    destruct (write_ok f F i (mk_service (url_priority s) false (url s) (service s)) Hok registered_range eq_refl) as [Hw Hew] end;
    feeder_fields; [apply Hok | | apply erased_nodup | | apply erased_sorted | apply erased_last | apply Hok | by split_and!].
  - intros j. case_decide as Ej; [subst | done]. split; [|done]. by intros ?%not_available.
  - intros j. rewrite erase_in by apply Hok. case_decide as Ej; [subst; intuition congruence | tauto].
Qed.

Lemma removeURL_ok b :
  exists f', removeURL i b f = Ret f' /\ feeder_ok f' /\ last_round_robin_index f' = last_round_robin_index f /\
    (forall j, entry f' j = if decide (j = i) then Some (mk_service 0 (url_online s) (url s) None) else entry f j).
Proof.
  destruct registered_access as [E1 E2]. unfold removeURL. rewrite E1, E2, bind_ret. eexists; split; [reflexivity|].
  match goal with |- feeder_ok ?F /\ _ =>
    destruct (write_ok f F i (mk_service 0 (url_online s) (url s) None) Hok registered_range eq_refl) as [Hw Hew] end;
    feeder_fields; [apply set_insert_sorted, Hok | | apply erased_nodup | | apply erased_sorted | apply erased_last | apply Hok | by split_and!].
  - intros j. rewrite set_insert_in. case_decide as Ej; [subst; tauto | tauto].
  - intros j. rewrite erase_in by apply Hok. case_decide as Ej; [subst; intuition congruence | tauto].
Qed.

Lemma setURLOnline_ok :
  exists f', setURLOnline i f = Ret f' /\ feeder_ok f' /\ last_round_robin_index f' = last_round_robin_index f + 1 /\
    (forall j, entry f' j = if decide (j = i) then Some (mk_service (url_priority s) true (url s) (service s)) else entry f j).
Proof.
  destruct registered_access as [E1 E2]. unfold setURLOnline. rewrite E1, E2, bind_ret. eexists; split; [reflexivity|].
  pose proof (ok_count _ Hok) as Hc. rewrite next_position by lia.
  rewrite online_insert_last by (by apply (below_next _ _ (ok_last _ Hok))). cbn [global_index].
  match goal with |- feeder_ok ?F /\ _ =>
    destruct (write_ok f F i (mk_service (url_priority s) true (url s) (service s)) Hok registered_range eq_refl) as [Hw Hew] end;
    feeder_fields; [apply Hok | | | | | | lia | by split_and!].
  - intros j. case_decide as Ej; [subst | done]. split; [|done]. by intros ?%not_available.
  - case_match eqn:Eh; [apply Hok|]. rewrite map_app. apply NoDup_app. split_and!; [apply Hok | | apply NoDup_singleton].
    intros j Hj ->%list_elem_of_singleton. apply has_index_in in Hj. cbn in Hj. congruence.
  - intros j. case_match eqn:Eh.
    + apply has_index_in in Eh. case_decide as Ej; [subst; by split | done].
    + rewrite map_app, elem_of_app. cbn [map global_index]. rewrite list_elem_of_singleton.
      case_decide as Ej; [subst; by split; [|right] | tauto].
  - case_match; [apply Hok|]. by eapply append_sorted; [apply Hok.. |].
  - case_match; [eapply Forall_impl; [apply (ok_last _ Hok)|]; intros; cbn in *; lia|]. by eapply append_last; [apply Hok|].
Qed.
End registered.

(** ** Handing out services *)

Lemma first_index_min l i : first_index l = Some i -> i ∈ indexes l /\ forall j, j ∈ indexes l -> i <= j.
Proof.
  revert i. induction l as [|x l IH]; intros i; cbn; [done|]. destruct (first_index l) as [k|] eqn:E; intros [= <-].
  - destruct (IH k eq_refl) as [Hk Hmin]. split.
    + rewrite elem_of_cons. destruct (Z.min_spec (global_index x) k) as [[_ ->] | [_ ->]]; auto.
    + intros j [-> | Hj]%elem_of_cons; [lia|]. specialize (Hmin j Hj). lia.
  - destruct l as [|y l]; [|cbn in E; destruct (first_index l); done]. split; [cbn; apply elem_of_cons; by left|].
    intros j [-> | Hj]%elem_of_cons; [lia|]. by apply not_elem_of_nil in Hj.
Qed.

Lemma first_index_none l : first_index l = None -> l = [].
Proof. destruct l as [|x l]; [done|]. cbn. by destruct (first_index l). Qed.

(** The next of the round goes to its end. *)
Lemma round_robin_head f x l :
  feeder_ok f -> last_round_robin_index f < 2 ^ 64 - 1 -> set_urls_online f = x :: l ->
  set_urls_online (fst (getNextFromSetByRoundRobin f)) =
    l ++ [mk_index (global_index x) (index_priority x) (last_round_robin_index f + 1)] /\
  last_round_robin_index (fst (getNextFromSetByRoundRobin f)) = last_round_robin_index f + 1.
Proof.
  intros Hok Hlt E. pose proof (ok_last _ Hok) as Hl. rewrite E in Hl. inversion Hl; subst.
  unfold getNextFromSetByRoundRobin. rewrite E, next_position by (split; [apply Hok | lia]). cbn.
  assert (Forall (fun y => round_robing_start_position y < last_round_robin_index f + 1) l) as Hb
    by (eapply Forall_impl; [done|]; intros; cbn in *; lia).
  rewrite fresh_position by done. split; [by apply place_last | done].
Qed.

Lemma rotate_ok f x l :
  feeder_ok f -> last_round_robin_index f < 2 ^ 64 - 1 -> set_urls_online f = x :: l -> feeder_ok (fst (getNextFromSetByRoundRobin f)).
Proof.
  intros Hok Hlt E. destruct (round_robin_head f x l Hok Hlt E) as [E1 E2].
  assert (forall i, entry (fst (getNextFromSetByRoundRobin f)) i = entry f i) as Hent
    by (intros i; unfold getNextFromSetByRoundRobin; by rewrite E).
  destruct Hok as [Hs Hav Hn Ho Hp Hl Hc]. rewrite E in *. cbn in Hn, Hp. apply NoDup_cons in Hn as [Hnx Hn].
  apply StronglySorted_inv in Hp as [Hp Hpx]. inversion_clear Hl as [|? ? Hlx Hl'].
  constructor; rewrite ?E1, ?E2.
  - unfold getNextFromSetByRoundRobin. by rewrite E.
  - intros i. rewrite Hent, <- Hav. unfold getNextFromSetByRoundRobin. by rewrite E.
  - rewrite map_app. apply NoDup_app. split_and!; [done | | apply NoDup_singleton]. by intros j Hj ->%list_elem_of_singleton.
  - intros i. unfold is_online. rewrite Hent. change (i ∈ indexes (l ++ [mk_index (global_index x) (index_priority x) (last_round_robin_index f + 1)]) <-> is_online f i).
    rewrite <- Ho, map_app, elem_of_app. cbn [map global_index]. rewrite list_elem_of_singleton, elem_of_cons. tauto.
  - by eapply append_sorted.
  - by eapply append_last.
  - lia.
Qed.

Definition with_current (c : option Z) (f : URLServiceFeeder) : URLServiceFeeder :=
  mk_feeder (service_list f) (available_url f) (set_urls_online f) (offline_urls f) (mapping_url_index f) (last_round_robin_index f) c
    (feed_mode f) (disposed f).

Lemma with_current_ok c f : feeder_ok f -> feeder_ok (with_current c f).
Proof. intros []. by constructor. Qed.

Lemma getService_ok f :
  feeder_ok f -> last_round_robin_index f < 2 ^ 64 - 1 ->
  exists f' r, getService f = Ret (f', r) /\ feeder_ok f' /\ last_round_robin_index f' <= last_round_robin_index f + 1 /\
    (forall j, entry f' j = entry f j) /\ feed_mode f' = feed_mode f /\
    match current_service f' with
    | Some i => is_online f i /\ (exists s, entry f i = Some s /\ r = service s)
    | None => r = None /\ set_urls_online f = []
    end.
Proof.
  intros Hok Hlt. unfold getService. destruct (feed_mode f) eqn:Em.
  - unfold getNextFromSetByPriority. destruct (first_index (set_urls_online f)) as [i|] eqn:Ei.
    + apply first_index_min in Ei as [Hi _]. apply (ok_online _ Hok) in Hi as (s & Es & Hs & Hon).
      rewrite service_at_entry. change (entry _ i) with (entry f i). rewrite Es, bind_ret. eexists _, _; split; [reflexivity|].
      split_and!; [by apply (with_current_ok (Some i)) | cbn; lia | done | done |]. cbn. split; [by exists s | by exists s].
    + apply first_index_none in Ei. eexists _, _; split; [reflexivity|].
      split_and!; [by apply (with_current_ok None) | cbn; lia | done..].
  - destruct (set_urls_online f) as [|x l] eqn:El.
    + unfold getNextFromSetByRoundRobin. rewrite El. eexists _, _; split; [reflexivity|].
      split_and!; [by apply (with_current_ok None) | cbn; lia | done..].
    + pose proof (rotate_ok f x l Hok Hlt El) as Hr. pose proof (round_robin_head f x l Hok Hlt El) as [_ Hn].
      assert (is_online f (global_index x)) as (s & Es & Hs & Hon) by (apply (ok_online _ Hok); rewrite El; cbn; apply elem_of_cons; by left).
      destruct (getNextFromSetByRoundRobin f) as [g r] eqn:Eg.
      assert (r = Some (global_index x) /\ service_list g = service_list f /\ feed_mode g = feed_mode f) as (-> & Hsl & Hm)
        by (unfold getNextFromSetByRoundRobin in Eg; rewrite El in Eg; by injection Eg as <- <-).
      rewrite service_at_entry. assert (forall j, entry (with_current (Some (global_index x)) g) j = entry f j) as Hent
        by (intros j; unfold entry; cbn; by rewrite Hsl).
      change (mk_feeder _ _ _ _ _ _ _ _ _) with (with_current (Some (global_index x)) g). rewrite Hent, Es, bind_ret. eexists _, _; split; [reflexivity|].
      cbn in Hr, Hn. split_and!; [by apply with_current_ok | cbn; lia | done | cbn; congruence |]. cbn. split; by exists s.
Qed.

Lemma clear_ok b f : feeder_ok f -> feeder_ok (clear b f).
Proof.
  intros [Hs Hav Hn Ho Hp Hl Hc].
  assert (forall i, entry (clear b f) i = (fun s => mk_service 0 (url_online s) (url s) None) <$> entry f i) as Hent.
  { intros i. unfold entry; cbn. case_match; [done|]. by rewrite list_lookup_fmap. }
  constructor; try done; cbn.
  - by apply fold_insert_sorted.
  - intros i. rewrite fold_insert_in, elem_of_seqZ, Hent. split.
    + intros [Hi | Hi].
      * destruct (proj2 (entry_range f i)) as [s ->]; [lia|]. by eexists.
      * apply Hav in Hi as (s & -> & _). by eexists.
    + intros (s & E & _). left. destruct (entry f i) as [s0|] eqn:E0; [|done].
      assert (0 <= i < zlen (service_list f)) by (apply entry_range; by eexists). lia.
  - apply NoDup_nil_2.
  - intros i. split; [by intros ?%not_elem_of_nil|]. intros (s & E & Hns & _). rewrite Hent in E.
    destruct (entry f i); [|done]. cbn in E. by simplify_eq; destruct Hns.
  - constructor.
Qed.

Lemma new_feeder_ok : feeder_ok new_feeder.
Proof.
  constructor; cbn; try done; try constructor.
  - by intros ?%not_elem_of_nil.
  - intros (s & E & _). unfold entry in E; cbn in E. by destruct (i <? 0).
  - by intros ?%not_elem_of_nil.
  - intros (s & E & _). unfold entry in E; cbn in E. by destruct (i <? 0).
Qed.

(** ** Runs of the feeder *)

Inductive feeder_op :=
| FAdd (serviceForURL : string -> Z -> option Z) (u : string) (prio : Z)
| FRemove (i : Z) (dispose_service : bool)
| FOffline (i : Z)
| FOnline (i : Z)
| FGet
| FMode (m : URLServiceFeedMode)
| FClear (dispose_service : bool).

Definition feeder_step (o : feeder_op) (f : URLServiceFeeder) : outcome URLServiceFeeder :=
  match o with
  | FAdd h u prio => mret (fst (addURL h u prio f))
  | FRemove i b => removeURL i b f
  | FOffline i => setURLOffline i f
  | FOnline i => setURLOnline i f
  | FGet => fst <$> getService f
  | FMode m => mret (setFeedMode m f)
  | FClear b => mret (clear b f)
  end.

(** The owner uses the indexes of URLs that are registered. *)
Definition proper_op (o : feeder_op) (f : URLServiceFeeder) : Prop :=
  match o with FRemove i _ | FOffline i | FOnline i => registered f i | _ => True end.
Fixpoint feeder_run (os : list feeder_op) (f : URLServiceFeeder) : outcome URLServiceFeeder :=
  match os with [] => mret f | o :: os' => f' ← feeder_step o f; feeder_run os' f' end.
Fixpoint proper_run (os : list feeder_op) (f : URLServiceFeeder) : Prop :=
  match os with
  | [] => True
  | o :: os' => proper_op o f /\ match feeder_step o f with Ret f' => proper_run os' f' | _ => True end
  end.

Lemma feeder_step_ok o f :
  feeder_ok f -> proper_op o f -> last_round_robin_index f < 2 ^ 64 - 1 ->
  exists f', feeder_step o f = Ret f' /\ feeder_ok f' /\ last_round_robin_index f' <= last_round_robin_index f + 1.
Proof.
  intros Hok Hp Hlt. destruct o as [h u prio|i b|i|i| |m|b]; cbn in *.
  - pose proof (addURL_ok h u prio f Hok Hlt) as H. destruct (addURL h u prio f) as [f' r]. destruct H as (? & ? & _). eauto.
  - destruct Hp as (s & Es & Hs). destruct (removeURL_ok f i s Hok Es b) as (f' & -> & H & E & _). exists f'. split_and!; [done..|lia].
  - destruct Hp as (s & Es & Hs). destruct (setURLOffline_ok f i s Hok Es Hs) as (f' & -> & H & E & _). exists f'. split_and!; [done..|lia].
  - destruct Hp as (s & Es & Hs). destruct (setURLOnline_ok f i s Hok Es Hs Hlt) as (f' & -> & H & E & _). exists f'. split_and!; [done..|lia].
  - destruct (getService_ok f Hok Hlt) as (f' & r & -> & H & E & _). exists f'. split_and!; [done..|lia].
  - eexists; split; [reflexivity|]. cbn. split; [|lia]. destruct Hok. by constructor.
  - eexists; split; [reflexivity|]. cbn. split; [by apply clear_ok | lia].
Qed.

Lemma feeder_run_ok os f :
  feeder_ok f -> proper_run os f -> last_round_robin_index f + zlen os < 2 ^ 64 ->
  exists f', feeder_run os f = Ret f' /\ feeder_ok f' /\ last_round_robin_index f' <= last_round_robin_index f + zlen os.
Proof.
  revert f. induction os as [|o os IH]; intros f Hok Hp Hlt; cbn; [exists f; split_and!; [done..|zl]|].
  rewrite zlen_cons in Hlt. pose proof (zlen_nonneg os). destruct Hp as [Hp Hps].
  destruct (feeder_step_ok o f Hok Hp ltac:(lia)) as (f1 & E & Hok1 & Hl). rewrite E in *. rewrite bind_ret.
  destruct (IH f1 Hok1 Hps ltac:(lia)) as (f2 & -> & ? & ?). exists f2. split_and!; [done..|]. rewrite zlen_cons. lia.
Qed.

(** C17: Whatever sequence of calls a well-behaved owner makes, no call leaves the
    list, and the feeder hands out a service exactly when a registered URL is
    online, and then the service of such a URL. *)
Theorem feeder_serves os :
  proper_run os new_feeder -> zlen os < 2 ^ 64 - 1 ->
  exists f, feeder_run os new_feeder = Ret f /\
  exists f' r, getService f = Ret (f', r) /\
    (r <> None <-> exists i, is_online f i) /\
    (r <> None -> exists i s, is_online f i /\ entry f i = Some s /\ r = service s).
Proof.
  intros Hp Hlt. destruct (feeder_run_ok os new_feeder new_feeder_ok Hp) as (f & E & Hok & Hl); [cbn; lia|]. cbn in Hl.
  exists f. split; [done|]. destruct (getService_ok f Hok ltac:(lia)) as (f' & r & Eg & _ & _ & _ & _ & Hc).
  exists f', r. split; [done|]. destruct (current_service f') as [i|].
  - destruct Hc as (Hon & s & Es & ->). assert (service s <> None) as Hs by (destruct Hon as (s' & E' & ? & _); congruence).
    split; [by split; [eauto | done] | eauto].
  - destruct Hc as (-> & Hnil). split; [|done]. split; [done|]. intros (i & Hi). apply (ok_online _ Hok) in Hi.
    rewrite Hnil in Hi. by apply not_elem_of_nil in Hi.
Qed.

(** [n] services in a row. *)
Fixpoint take_services (n : nat) (f : URLServiceFeeder) : outcome (URLServiceFeeder * list (option Z)) :=
  match n with
  | O => mret (f, [])
  | S n' => r ← getService f; let '(f1, s) := r in rest ← take_services n' f1; mret (fst rest, s :: snd rest)
  end.

Definition service_of (f : URLServiceFeeder) (i : Z) : option Z := match entry f i with Some s => service s | None => None end.

Lemma round_robin_step f x l :
  feeder_ok f -> feed_mode f = URLServiceFeedModeRoundRobin -> last_round_robin_index f < 2 ^ 64 - 1 -> set_urls_online f = x :: l ->
  exists f', getService f = Ret (f', service_of f (global_index x)) /\ feeder_ok f' /\ feed_mode f' = URLServiceFeedModeRoundRobin /\
    set_urls_online f' = l ++ [mk_index (global_index x) (index_priority x) (last_round_robin_index f + 1)] /\
    last_round_robin_index f' = last_round_robin_index f + 1 /\ (forall i, service_of f' i = service_of f i).
Proof.
  intros Hok Hm Hlt El. pose proof (round_robin_head f x l Hok Hlt El) as [E1 E2].
  destruct (getService_ok f Hok Hlt) as (f' & r & Eg & Hok' & _ & Hent & Hm' & _). rewrite Hm in Hm'.
  unfold getService in Eg. rewrite Hm in Eg. destruct (getNextFromSetByRoundRobin f) as [g c] eqn:En.
  assert (c = Some (global_index x) /\ service_list g = service_list f) as [-> Hsl]
    by (unfold getNextFromSetByRoundRobin in En; rewrite El in En; by injection En as <- <-).
  change (mk_feeder _ _ _ _ _ _ _ _ _) with (with_current (Some (global_index x)) g) in Eg. cbn in E1, E2.
  assert (forall j, entry (with_current (Some (global_index x)) g) j = entry f j) as Hent'
    by (intros j; unfold entry; cbn; by rewrite Hsl).
  assert (is_online f (global_index x)) as (s & Es & _ & _) by (apply (ok_online _ Hok); rewrite El; cbn; apply elem_of_cons; by left).
  assert (forall i, service_of (with_current (Some (global_index x)) g) i = service_of f i) as Hso
    by (intros i; unfold service_of; by rewrite Hent').
  rewrite service_at_entry, Hent', Es, bind_ret in Eg. injection Eg as <- <-. exists (with_current (Some (global_index x)) g).
  split; [|by split_and!].
  unfold getService. rewrite Hm, En. change (mk_feeder _ _ _ _ _ _ _ _ _) with (with_current (Some (global_index x)) g).
  rewrite service_at_entry, Hent', Es, bind_ret. unfold service_of. by rewrite Es.
Qed.

Lemma round_robin_prefix f l r :
  feeder_ok f -> feed_mode f = URLServiceFeedModeRoundRobin -> last_round_robin_index f + zlen l < 2 ^ 64 - 1 ->
  set_urls_online f = l ++ r ->
  exists f', take_services (length l) f = Ret (f', map (fun x => service_of f (global_index x)) l) /\
    indexes (set_urls_online f') = indexes (r ++ l).
Proof.
  revert f r. induction l as [|x l IH]; intros f r Hok Hm Hlt El; cbn.
  - exists f. rewrite El, app_nil_r. done.
  - rewrite zlen_cons in Hlt. pose proof (zlen_nonneg l).
    destruct (round_robin_step f x (l ++ r) Hok Hm ltac:(lia) El) as (f1 & -> & Hok1 & Hm1 & El1 & Hn1 & Hs1).
    rewrite bind_ret. destruct (IH f1 (r ++ [mk_index (global_index x) (index_priority x) (last_round_robin_index f + 1)])) as (f2 & -> & E2);
      [done | done | lia | by rewrite El1, app_assoc|].
    rewrite bind_ret. exists f2. cbn. split.
    + do 3 f_equal. apply map_ext. intros. by rewrite Hs1.
    + rewrite E2, !map_app. cbn. by rewrite <- app_assoc.
Qed.

(** C20: In the round robin mode every service that is online is handed out exactly
    once, the one that waited longest first, before any of them is handed out
    again, and the round then starts over in the same order. *)
Theorem round_robin_fair os f :
  proper_run os new_feeder -> feeder_run os new_feeder = Ret f -> zlen os + zlen (set_urls_online f) < 2 ^ 64 - 1 ->
  feed_mode f = URLServiceFeedModeRoundRobin ->
  NoDup (indexes (set_urls_online f)) /\ (forall i, i ∈ indexes (set_urls_online f) <-> is_online f i) /\
  exists f', take_services (length (set_urls_online f)) f = Ret (f', map (service_of f) (indexes (set_urls_online f))) /\
    indexes (set_urls_online f') = indexes (set_urls_online f).
Proof.
  intros Hp Hr Hlt Hm. pose proof (zlen_nonneg (set_urls_online f)).
  destruct (feeder_run_ok os new_feeder new_feeder_ok Hp) as (f0 & E & Hok & Hl); [cbn; lia|]. cbn in Hl.
  rewrite Hr in E. injection E as <-. split; [apply Hok|]. split; [apply Hok|].
  destruct (round_robin_prefix f (set_urls_online f) []) as (f' & E & Hi); [done | done | lia | by rewrite app_nil_r|].
  exists f'. rewrite map_map. split; [done | by rewrite Hi].
Qed.

(** In the fail over mode the service of the URL with the lowest index that is
    online is handed out, whatever the priorities are. *)
Theorem failover_lowest_index os f :
  proper_run os new_feeder -> feeder_run os new_feeder = Ret f -> zlen os < 2 ^ 64 - 1 ->
  feed_mode f = URLServiceFeedModeFailOver ->
  match first_index (set_urls_online f) with
  | Some i => is_online f i /\ (forall j, is_online f j -> i <= j) /\ exists f', getService f = Ret (f', service_of f i)
  | None => (forall j, ~ is_online f j) /\ exists f', getService f = Ret (f', None)
  end.
Proof.
  intros Hp Hr Hlt Hm. destruct (feeder_run_ok os new_feeder new_feeder_ok Hp) as (f0 & E & Hok & Hl); [cbn; lia|].
  rewrite Hr in E. injection E as <-. unfold getService, getNextFromSetByPriority. rewrite Hm.
  destruct (first_index (set_urls_online f)) as [i|] eqn:Ei.
  - apply first_index_min in Ei as [Hi Hmin]. pose proof (proj1 (ok_online _ Hok i) Hi) as Hon.
    split; [done|]. split; [intros j Hj; apply Hmin, (ok_online _ Hok), Hj|].
    destruct Hon as (s & Es & _). rewrite service_at_entry. change (entry _ i) with (entry f i). rewrite Es, bind_ret.
    unfold service_of. rewrite Es. eauto.
  - apply first_index_none in Ei. split; [|eauto]. intros j Hj. apply (ok_online _ Hok) in Hj. rewrite Ei in Hj.
    by apply not_elem_of_nil in Hj.
Qed.

(** The test of the index in [setURLOffline], [setURLOnline] and [removeURL] is
    off by one: the index just after the last entry passes it and leaves the
    list; every other index is either refused or in the list. *)
Theorem feeder_index_off_by_one f i :
  0 <= i ->
  (setURLOffline i f = Oob <-> i = zlen (service_list f)) /\ (setURLOnline i f = Oob <-> i = zlen (service_list f)) /\
  (forall b, removeURL i b f = Oob <-> i = zlen (service_list f)).
Proof.
  intros Hi. unfold setURLOffline, setURLOnline, removeURL, out_of_range.
  assert (forall (k : URLService -> outcome URLServiceFeeder), (forall s, exists g, k s = Ret g) ->
            (if i >? zlen (service_list f) then mret f else s ← service_at f i; k s) = Oob <-> i = zlen (service_list f)) as H.
  { intros k Hk. rewrite service_at_entry. destruct (i >? zlen (service_list f)) eqn:E; [split; [done | lia]|].
    destruct (entry f i) as [s|] eqn:Es.
    - assert (0 <= i < zlen (service_list f)) by (apply entry_range; by eexists). rewrite bind_ret.
      destruct (Hk s) as [g ->]. split; [done | lia].
    - split; [intros _ | done]. destruct (decide (i < zlen (service_list f))); [|lia].
      destruct (proj2 (entry_range f i)) as [? ?]; [lia | congruence]. }
  split_and!; [|.. | intros b]; apply H; by eexists.
Qed.

Definition ex_service (_ : string) (i : Z) : option Z := Some (100 + i).
Definition ex_two : list feeder_op := [FAdd ex_service "a" 5; FAdd ex_service "b" 1].

(** A URL that was removed can be put online again by its index: the feeder
    then hands out no service for it although another URL is online. *)
Theorem removed_url_revived :
  (f ← feeder_run (ex_two ++ [FRemove 0 true; FOnline 0]) new_feeder; take_services 2 f ≫= (fun r => mret (snd r)))
  = Ret [Some 101; None].
Proof. by vm_compute. Qed.

(** The same URL added twice: the two maps differ in size and [getNumberOfURL]
    fails its assertion. *)
Theorem url_added_twice_asserts : (f ← feeder_run [FAdd ex_service "a" 0; FAdd ex_service "a" 0] new_feeder; getNumberOfURL f) = Abort.
Proof. by vm_compute. Qed.

(** [clear] leaves the association of the URLs. *)
Theorem clear_keeps_urls : (f ← feeder_run (ex_two ++ [FClear true]) new_feeder; mret (getIndexFromURL "a" f)) = Ret (inr 0).
Proof. by vm_compute. Qed.

Lemma feeder_index_off_by_one_witness : setURLOffline 0 new_feeder = Oob.
Proof. apply (feeder_index_off_by_one new_feeder 0); [lia | done]. Defined.

Definition ex_feeder (os : list feeder_op) : URLServiceFeeder := match feeder_run os new_feeder with Ret f => f | _ => new_feeder end.

Lemma ex_proper : proper_run (ex_two ++ [FOffline 0; FOnline 0]) new_feeder.
Proof.
  split; [done|]. split; [done|]. cbn [app proper_run].
  assert (registered (ex_feeder ex_two) 0) as H0 by (eexists; split; [by vm_compute | done]).
  assert (registered (ex_feeder (ex_two ++ [FOffline 0])) 0) as H1 by (eexists; split; [by vm_compute | done]).
  split; [exact H0|]. split; [exact H1|]. exact I.
Qed.

Lemma feeder_serves_witness :
  exists f, feeder_run (ex_two ++ [FOffline 0; FOnline 0]) new_feeder = Ret f /\ exists f' r, getService f = Ret (f', r) /\ r <> None.
Proof.
  destruct (feeder_serves (ex_two ++ [FOffline 0; FOnline 0]) ex_proper ltac:(by vm_compute)) as (f & E & f' & r & Eg & Hr & _).
  exists f. split; [done|]. exists f', r. split; [done|]. apply Hr. exists 1.
  vm_compute in E. injection E as <-. eexists; split; [by vm_compute | by split].
Defined.

Lemma round_robin_fair_witness :
  exists f', take_services 2 (ex_feeder (ex_two ++ [FOffline 0; FOnline 0])) = Ret (f', [Some 101; Some 100]).
Proof.
  destruct (round_robin_fair (ex_two ++ [FOffline 0; FOnline 0]) (ex_feeder (ex_two ++ [FOffline 0; FOnline 0])) ex_proper)
    as (_ & _ & f' & E & _); try by vm_compute.
  exists f'. exact E.
Defined.

Lemma failover_lowest_index_witness :
  exists f', getService (ex_feeder (ex_two ++ [FOffline 0; FOnline 0; FMode URLServiceFeedModeFailOver])) = Ret (f', Some 100).
Proof.
  assert (proper_run (ex_two ++ [FOffline 0; FOnline 0; FMode URLServiceFeedModeFailOver]) new_feeder) as Hp.
  { pose proof ex_proper as H. cbn [app ex_two proper_run] in H |- *. destruct H as (_ & _ & H2 & H3 & _).
    split; [done|]. split; [done|]. split; [exact H2|]. split; [exact H3|]. split; done. }
  pose proof (failover_lowest_index _ (ex_feeder (ex_two ++ [FOffline 0; FOnline 0; FMode URLServiceFeedModeFailOver])) Hp
    ltac:(by vm_compute) ltac:(by vm_compute) ltac:(by vm_compute)) as H.
  destruct H as (_ & _ & f' & E). exists f'. exact E.
Defined.
