(* ===== verification/Flags.v ===== *)
(** * State flags and alarms (state_flag/, alarm/, utility/AbstractListenerContainer)

    A flag has levels, one of which is current, and tells its listeners when that
    changes.  A catalog numbers its flags and keeps, for each severity, a bit per
    flag; it is a listener of every flag it holds, and flags are shared between
    catalogs.  Flags, catalogs and handlers are therefore objects of a store and
    are named by their address.  The unique ids that UUIDUtil makes are arguments.
    The catalogs are used by one thread at a time. *)
From S2P Require Import Prelude.
From S2P Require Import Sets.
From stdpp Require Import strings.
From Stdlib Require Import Sorted.
#[local] Open Scope Z_scope.

(** ** Data *)

Inductive StateFlagServerity :=
| StateFlagServerityRegular | StateFlagServerityWarning | StateFlagServerityHigh | StateFlagServeritySevere
| StateFlagServerityUndefuned.

#[export] Instance severity_eq_dec : EqDecision StateFlagServerity.
Proof. solve_decision. Defined.

Definition severity_number (s : StateFlagServerity) : Z :=
  match s with
  | StateFlagServerityRegular => 0 | StateFlagServerityWarning => 1 | StateFlagServerityHigh => 2
  | StateFlagServeritySevere => 3 | StateFlagServerityUndefuned => 4
  end.

#[export] Instance severity_countable : Countable StateFlagServerity.
Proof.
  refine (inj_countable' severity_number (fun n =>
    if n =? 0 then StateFlagServerityRegular else if n =? 1 then StateFlagServerityWarning
    else if n =? 2 then StateFlagServerityHigh else if n =? 3 then StateFlagServeritySevere
    else StateFlagServerityUndefuned) _).
  by intros [].
Defined.

(** The loops run from Regular up to, and without, Undefuned. *)
Definition severities : list StateFlagServerity :=
  [StateFlagServerityRegular; StateFlagServerityWarning; StateFlagServerityHigh; StateFlagServeritySevere].

Record StateLevel := mk_level {
  value : Z; level_tag : string; level_description : string; severity : StateFlagServerity; occurence : Z;
}.
Definition new_level (v : Z) (tag description : string) (s : StateFlagServerity) : StateLevel := mk_level v tag description s 0.

(** [set_levels] by the value of the level; [listeners] by address. *)
Record StateFlag := mk_flag {
  flag_tag : string; flag_uuid : Z; flag_name : string; flag_description : string;
  current_level : Z;
  set_levels : gmap Z StateLevel;
  listeners : list Z;
}.

Definition with_current_level (f : StateFlag) (v : Z) : StateFlag :=
  mk_flag (flag_tag f) (flag_uuid f) (flag_name f) (flag_description f) v (set_levels f) (listeners f).
Definition with_levels (f : StateFlag) (l : gmap Z StateLevel) : StateFlag :=
  mk_flag (flag_tag f) (flag_uuid f) (flag_name f) (flag_description f) (current_level f) l (listeners f).
Definition with_listeners (f : StateFlag) (l : list Z) : StateFlag :=
  mk_flag (flag_tag f) (flag_uuid f) (flag_name f) (flag_description f) (current_level f) (set_levels f) l.
Definition setTag (f : StateFlag) (tag : string) : StateFlag :=
  mk_flag tag (flag_uuid f) (flag_name f) (flag_description f) (current_level f) (set_levels f) (listeners f).

(** An element names the shared flag by its address. *)
Record StateFlagElement := mk_element { seq_id : Z; element_name : string; status_flag : Z }.

(** [catalog_container] in the order of [seq_id]. *)
Record StateFlagCatalog := mk_catalog {
  catalog_name : string;
  catalog_container : list StateFlagElement;
  map_severity_bf_flag : gmap StateFlagServerity (list bool);
}.

(** What an [AlarmHandler] is told: tag and name of the alarm, and the severity. *)
Record notice := mk_notice { n_tag : string; n_name : string; n_severity : StateFlagServerity }.

Record store := mk_store {
  flags : gmap Z StateFlag;
  catalogs : gmap Z StateFlagCatalog;
  handlers : gmap Z (list notice);
}.

Definition put_flag (p : Z) (f : StateFlag) (st : store) : store := mk_store (<[p := f]> (flags st)) (catalogs st) (handlers st).
Definition put_catalog (x : Z) (c : StateFlagCatalog) (st : store) : store := mk_store (flags st) (<[x := c]> (catalogs st)) (handlers st).
Definition put_handler (x : Z) (l : list notice) (st : store) : store := mk_store (flags st) (catalogs st) (<[x := l]> (handlers st)).

Definition flag_at (st : store) (p : Z) : outcome StateFlag := match flags st !! p with Some f => mret f | None => Oob end.
Definition catalog_at (st : store) (x : Z) : outcome StateFlagCatalog := match catalogs st !! x with Some c => mret c | None => Oob end.

(** ** Flags *)

Definition new_flag (name description : string) (uuid : Z) : StateFlag := mk_flag EmptyString uuid name description 0 ∅ [].

(** The copy constructor does not copy the levels nor the listeners. *)
Definition copy_flag (f : StateFlag) : StateFlag :=
  mk_flag (flag_tag f) (flag_uuid f) (flag_name f) (flag_description f) (current_level f) ∅ [].

(** [operator=] *)
Definition assign_flag (f rhs : StateFlag) : StateFlag :=
  mk_flag (flag_tag f) (flag_uuid f) (flag_name rhs) (flag_description rhs) (current_level rhs) (set_levels rhs) (listeners f).

Definition addLevel (l : StateLevel) (f : StateFlag) : StateFlag * bool :=
  match set_levels f !! value l with
  | Some _ => (f, false)
  | None =>
      let f := with_levels f (<[value l := l]> (set_levels f)) in
      (if bool_decide (size (set_levels f) = 1%nat) then with_current_level f (value l) else f, true)
  end.

Fixpoint addLevelsFromSet (src : list StateLevel) (f : StateFlag) : StateFlag :=
  match src with
  | [] => f
  | l :: src =>
      addLevelsFromSet src
        match set_levels f !! value l with
        | Some _ => f
        | None => with_levels f (<[value l := l]> (set_levels f))
        end
  end.

(** The iterator is not compared with the end. *)
Definition getCurrentStateLevel (f : StateFlag) : outcome StateLevel :=
  match set_levels f !! current_level f with Some l => mret l | None => Oob end.

Definition StateFlagBoolState (name description : string) (off_state_level on_state_level : StateLevel) (uuid : Z) : StateFlag :=
  (addLevel on_state_level (addLevel off_state_level (new_flag name description uuid)).1).1.

(** [StateLevelContainerIncrementCounter] *)
Definition increment_counter (l : StateLevel) : StateLevel :=
  mk_level (value l) (level_tag l) (level_description l) (severity l) (u32 (occurence l + 1)).

Definition addListener (x : Z) (f : StateFlag) : StateFlag := with_listeners f (set_insert x (listeners f)).
Definition removeListener (x : Z) (f : StateFlag) : StateFlag := with_listeners f (set_erase x (listeners f)).

(** ** The container of a catalog *)

Definition uuid_of (st : store) (p : Z) : option Z := flag_uuid <$> flags st !! p.

Definition find_name (n : string) (l : list StateFlagElement) : option StateFlagElement :=
  find (fun e => bool_decide (element_name e = n)) l.
Definition find_seq (i : Z) (l : list StateFlagElement) : option StateFlagElement := find (fun e => seq_id e =? i) l.
Definition find_uuid (st : store) (u : option Z) (l : list StateFlagElement) : option StateFlagElement :=
  find (fun e => bool_decide (uuid_of st (status_flag e) = u)) l.

Fixpoint place_element (e : StateFlagElement) (l : list StateFlagElement) : list StateFlagElement :=
  match l with [] => [e] | x :: l' => if seq_id e <? seq_id x then e :: l else x :: place_element e l' end.

(** [multi_index_container::insert]: the three keys are unique. *)
Definition container_insert (st : store) (e : StateFlagElement) (l : list StateFlagElement) : list StateFlagElement :=
  match find_seq (seq_id e) l, find_name (element_name e) l, find_uuid st (uuid_of st (status_flag e)) l with
  | None, None, None => place_element e l
  | _, _, _ => l
  end.

(** ** The bit fields *)

(** [operator[]] of the map makes an empty bit field. *)
Definition bits (m : gmap StateFlagServerity (list bool)) (s : StateFlagServerity) : list bool := default [] (m !! s).

(** [set] and [reset] of [boost::dynamic_bitset]. *)
Definition set_bit (i : Z) (b : bool) (l : list bool) : outcome (list bool) :=
  if (0 <=? i) && (i <? zlen l) then mret (<[Z.to_nat i := b]> l) else Oob.

Fixpoint mark (ss : list StateFlagServerity) (i : Z) (sv : StateFlagServerity) (m : gmap StateFlagServerity (list bool)) :
    outcome (gmap StateFlagServerity (list bool)) :=
  match ss with
  | [] => mret m
  | s :: ss => b ← set_bit i (bool_decide (s = sv)) (bits m s); mark ss i sv (<[s := b]> m)
  end.

Definition stateFlagUpdated (st : store) (c : StateFlagCatalog) (uuid : Z) (current_level_severity : StateFlagServerity) :
    outcome StateFlagCatalog :=
  match find_uuid st (Some uuid) (catalog_container c) with
  | None => mret c
  | Some e =>
      m ← mark severities (seq_id e) current_level_severity (map_severity_bf_flag c);
      mret (mk_catalog (catalog_name c) (catalog_container c) m)
  end.

Definition addMemberToSeverityMap (f : StateFlag) (m : gmap StateFlagServerity (list bool)) :
    outcome (gmap StateFlagServerity (list bool)) :=
  l ← getCurrentStateLevel f;
  mret (foldl (fun m s => <[s := bits m s ++ [bool_decide (s = severity l)]]> m) m severities).

(** ** Notification *)

(** [AlarmHandler::stateFlagUpdated] passes the call on to [alarmChanged]. *)
Definition fireToListener (p x : Z) (st : store) : outcome store :=
  f ← flag_at st p;
  l ← getCurrentStateLevel f;
  match catalogs st !! x with
  | Some c => c ← stateFlagUpdated st c (flag_uuid f) (severity l); mret (put_catalog x c st)
  | None =>
      match handlers st !! x with
      | Some told => mret (put_handler x (told ++ [mk_notice (flag_tag f) (flag_name f) (severity l)]) st)
      | None => Oob
      end
  end.

Fixpoint fire_to (p : Z) (l : list Z) (st : store) : outcome store :=
  match l with [] => mret st | x :: l => st ← fireToListener p x st; fire_to p l st end.

(** [AbstractListenerContainer::fire] *)
Definition fire (p : Z) (st : store) : outcome store := f ← flag_at st p; fire_to p (listeners f) st.

Definition setCurrentLevel (p v : Z) (st : store) : outcome store :=
  f ← flag_at st p;
  match set_levels f !! v with
  | None => mret st
  | Some l =>
      if negb (current_level f =? v) then fire p (put_flag p (with_current_level f v) st)
      else mret (put_flag p (with_levels f (<[v := increment_counter l]> (set_levels f))) st)
  end.

(** [StateFlagBoolState::setState] *)
Definition setState (p : Z) (state : bool) (st : store) : outcome store := setCurrentLevel p (if state then 1 else 0) st.

(** ** Catalogs *)

Definition new_catalog (name : string) : StateFlagCatalog :=
  mk_catalog name [] (foldl (fun m s => <[s := []]> m) ∅ severities).

(** The common end of [addFlag] and of the loop of [appendCatalog]. *)
Definition enrol (x : Z) (name : string) (p : Z) (st : store) : outcome store :=
  c ← catalog_at st x;
  f ← flag_at st p;
  let l := container_insert st (mk_element (zlen (catalog_container c)) name p) (catalog_container c) in
  m ← addMemberToSeverityMap f (map_severity_bf_flag c);
  mret (put_flag p (addListener x f) (put_catalog x (mk_catalog (catalog_name c) l m) st)).

Definition addFlag (x p : Z) (st : store) : outcome store :=
  c ← catalog_at st x;
  f ← flag_at st p;
  match find_name (flag_name f) (catalog_container c) with Some _ => mret st | None => enrol x (flag_name f) p st end.

Fixpoint append_elements (x : Z) (prefix : string) (l : list StateFlagElement) (st : store) : outcome store :=
  match l with
  | [] => mret st
  | e :: l =>
      c ← catalog_at st x;
      let name := (prefix ++ "/" ++ element_name e)%string in
      st ← match find_name name (catalog_container c) with Some _ => mret st | None => enrol x name (status_flag e) st end;
      append_elements x prefix l st
  end.

(** [src] is another catalog: the locks are not recursive. *)
Definition appendCatalog (x src : Z) (st : store) : outcome store :=
  c ← catalog_at st src; append_elements x (catalog_name c) (catalog_container c) st.

Definition set_element (e : option StateFlagElement) (v : Z) (st : store) : outcome store :=
  match e with None => mret st | Some e => setCurrentLevel (status_flag e) v st end.

Definition setFlagState (x : Z) (name : string) (v : Z) (st : store) : outcome store :=
  c ← catalog_at st x; set_element (find_name name (catalog_container c)) v st.
Definition setFlagState_id (x i v : Z) (st : store) : outcome store :=
  c ← catalog_at st x; set_element (find_seq i (catalog_container c)) v st.

(** The level for an element may differ from one to the next. *)
Fixpoint set_elements (level : StateFlagElement -> outcome Z) (l : list StateFlagElement) (st : store) : outcome store :=
  match l with
  | [] => mret st
  | e :: l => v ← level e; st ← setCurrentLevel (status_flag e) v st; set_elements level l st
  end.

Definition setAllFlagState (x v : Z) (st : store) : outcome store :=
  c ← catalog_at st x; set_elements (fun _ => mret v) (catalog_container c) st.

Definition getFlagByName (st : store) (x : Z) (name : string) : outcome (option Z) :=
  c ← catalog_at st x; mret (status_flag <$> find_name name (catalog_container c)).
Definition getFlagByOrderedID (st : store) (x i : Z) : outcome (option Z) :=
  c ← catalog_at st x; mret (status_flag <$> find_seq i (catalog_container c)).

(** [find_first] and [find_next] visit the bits that are set, in order. *)
Fixpoint set_positions (i : Z) (l : list bool) : list Z :=
  match l with [] => [] | b :: l => if b then i :: set_positions (i + 1) l else set_positions (i + 1) l end.

Definition getFlagsForSeverity (st : store) (x : Z) (s : StateFlagServerity) : outcome (list (option Z)) :=
  c ← catalog_at st x;
  mret (map (fun i => status_flag <$> find_seq i (catalog_container c)) (set_positions 0 (bits (map_severity_bf_flag c) s))).

(** [getRawFlagsLevel]: [block] is what [malloc] returns, one byte for a flag. *)
Fixpoint write_levels (st : store) (l : list StateFlagElement) (block : list Z) : outcome (list Z) :=
  match l with
  | [] => mret block
  | e :: l =>
      f ← flag_at st (status_flag e);
      if (0 <=? seq_id e) && (seq_id e <? zlen block)
      then write_levels st l (<[Z.to_nat (seq_id e) := current_level f]> block) else Oob
  end.
Definition getRawFlagsLevel (st : store) (x : Z) (block : list Z) : outcome (list Z) :=
  c ← catalog_at st x; write_levels st (catalog_container c) (take (length (catalog_container c)) block).

Definition raw_at (raw : list Z) (e : StateFlagElement) : outcome Z :=
  if 0 <=? seq_id e then match raw !! Z.to_nat (seq_id e) with Some v => mret v | None => Oob end else Oob.
Fixpoint apply_times (n : nat) (raw : list Z) (l : list StateFlagElement) (st : store) : outcome store :=
  match n with O => mret st | S n => st ← set_elements (raw_at raw) l st; apply_times n raw l st end.
Definition setApplyRawFlagsValue (x : Z) (raw : option (list Z)) (st : store) : outcome store :=
  match raw with
  | None => mret st
  | Some raw =>
      c ← catalog_at st x;
      if negb (u32 (zlen raw) =? zlen (catalog_container c)) then mret st
      else apply_times (length raw) raw (catalog_container c) st
  end.

Definition catalog_size (st : store) (x : Z) : outcome Z := c ← catalog_at st x; mret (zlen (catalog_container c)).

Fixpoint max_level (st : store) (l : list StateFlagElement) (maxv : Z) : outcome Z :=
  match l with
  | [] => mret maxv
  | e :: l => f ← flag_at st (status_flag e); max_level st l (if maxv <? current_level f then u8 (current_level f) else maxv)
  end.
Definition maxLevel (st : store) (x : Z) : outcome Z := c ← catalog_at st x; max_level st (catalog_container c) 0.

Fixpoint on_flags (g : StateFlag -> StateFlag) (l : list StateFlagElement) (st : store) : outcome store :=
  match l with
  | [] => mret st
  | e :: l => f ← flag_at st (status_flag e); on_flags g l (put_flag (status_flag e) (g f) st)
  end.

(** [operator=] does not copy the bit fields; the copy constructor starts
    without any. *)
Definition assign_catalog (x rhs : Z) (st : store) : outcome store :=
  if x =? rhs then mret st
  else
    c ← catalog_at st x;
    r ← catalog_at st rhs;
    on_flags (addListener x) (catalog_container r)
      (put_catalog x (mk_catalog (catalog_name r) (catalog_container r) (map_severity_bf_flag c)) st).
Definition copy_catalog (x src : Z) (st : store) : outcome store := assign_catalog x src (put_catalog x (mk_catalog EmptyString [] ∅) st).

(** [~StateFlagCatalog] *)
Definition destroy_catalog (x : Z) (st : store) : outcome store :=
  c ← catalog_at st x;
  st ← on_flags (removeListener x) (catalog_container c) st;
  mret (mk_store (flags st) (delete x (catalogs st)) (handlers st)).

(** ** Alarms *)

Definition AlarmDescription (tag name description : string) (uuid : Z) : StateFlag := setTag (new_flag name description uuid) tag.
Definition addState (code : Z) (tag description : string) (s : StateFlagServerity) (f : StateFlag) : StateFlag * bool :=
  addLevel (new_level code tag description s) f.

Definition MultiSeverityAlarm (tag name description : string) (uuid : Z) : StateFlag :=
  let f := AlarmDescription tag name description uuid in
  let f := (addState 0 "clear" "Alarm is in a regular state" StateFlagServerityRegular f).1 in
  let f := (addState 1 "Warning" "Low probability that something will fails, attention is needed" StateFlagServerityWarning f).1 in
  (addState 2 "High" "High probability that something is going to fails" StateFlagServerityHigh f).1.

(** The code comes as [uint8_t] and goes on as [int8_t]. *)
Definition s8 (z : Z) : Z := (z + 2 ^ 7) mod 2 ^ 8 - 2 ^ 7.
Definition setCurrentSeverity (p code : Z) (st : store) : outcome store := setCurrentLevel p (s8 code) st.

(** [MultiSeverityAlarm::setNewSeverity], with the number of the enumeration. *)
Definition setNewSeverity (p new_severity : Z) (st : store) : outcome store := setCurrentLevel p (s8 new_severity) st.

(** The catalog takes the ownership: when it does not keep the flag, the only
    shared pointer to it is a temporary, which deletes it at the end of the call. *)
Definition adopt (x p : Z) (st : store) : outcome store :=
  c ← catalog_at st x;
  st ← addFlag x p st;
  c' ← catalog_at st x;
  if bool_decide (length (catalog_container c') = length (catalog_container c))
  then mret (mk_store (delete p (flags st)) (catalogs st) (handlers st)) else mret st.

Definition addAlarm := adopt.

Definition on_alarm (x : Z) (name : string) (g : StateFlag -> StateFlag) (st : store) : outcome (store * bool) :=
  a ← getFlagByName st x name;
  match a with
  | None => mret (st, false)
  | Some p => f ← flag_at st p; mret (put_flag p (g f) st, true)
  end.
Definition addAlarmHandler (x : Z) (name : string) (h : Z) := on_alarm x name (addListener h).
Definition removeAlarmHandler (x : Z) (name : string) (h : Z) := on_alarm x name (removeListener h).

Definition isCatalogClear (st : store) (x : Z) : outcome bool :=
  l ← getFlagsForSeverity st x StateFlagServerityRegular; n ← catalog_size st x; mret (n =? zlen l).

(** ** DeclareStateFlag *)

Definition addBoolFlag (x p : Z) (name description : string) (off_level on_level : StateLevel) (uuid : Z) (st : store) : outcome store :=
  adopt x p (put_flag p (StateFlagBoolState name description off_level on_level uuid) st).
Definition addLevelFlagWithStates (x p : Z) (name description : string) (levels : list StateLevel) (uuid : Z) (st : store) : outcome store :=
  adopt x p (put_flag p (addLevelsFromSet levels (new_flag name description uuid)) st).
Definition declareFlag (x p : Z) (name description : string) (uuid : Z) (st : store) : outcome store :=
  adopt x p (put_flag p (new_flag name description uuid) st).
Definition addStateToFlag (x : Z) (name : string) (l : StateLevel) (st : store) : outcome store :=
  r ← on_alarm x name (fun f => (addLevel l f).1) st; mret r.1.

(** ** Histories of calls *)

Inductive flag_op :=
| ONewFlag (p : Z) (name description : string) (uuid : Z)
| OMultiSeverityAlarm (p : Z) (tag name description : string) (uuid : Z)
| OAddLevel (p : Z) (l : StateLevel)
| OAddLevelsFromSet (p : Z) (src : list StateLevel)
| OSetCurrentLevel (p v : Z)
| ONewCatalog (x : Z) (name : string)
| ODestroyCatalog (x : Z)
| OAddFlag (x p : Z)
| OAppendCatalog (x src : Z)
| OSetFlagState (x : Z) (name : string) (v : Z)
| OSetFlagStateId (x i v : Z)
| OSetAllFlagState (x v : Z)
| OSetApplyRawFlagsValue (x : Z) (raw : option (list Z))
| ONewHandler (h : Z)
| OAddAlarmHandler (x : Z) (name : string) (h : Z)
| ORemoveAlarmHandler (x : Z) (name : string) (h : Z).

Definition flag_step (o : flag_op) (st : store) : outcome store :=
  match o with
  | ONewFlag p name description uuid => mret (put_flag p (new_flag name description uuid) st)
  | OMultiSeverityAlarm p tag name description uuid => mret (put_flag p (MultiSeverityAlarm tag name description uuid) st)
  | OAddLevel p l => f ← flag_at st p; mret (put_flag p (addLevel l f).1 st)
  | OAddLevelsFromSet p src => f ← flag_at st p; mret (put_flag p (addLevelsFromSet src f) st)
  | OSetCurrentLevel p v => setCurrentLevel p v st
  | ONewCatalog x name => mret (put_catalog x (new_catalog name) st)
  | ODestroyCatalog x => destroy_catalog x st
  | OAddFlag x p => addFlag x p st
  | OAppendCatalog x src => appendCatalog x src st
  | OSetFlagState x name v => setFlagState x name v st
  | OSetFlagStateId x i v => setFlagState_id x i v st
  | OSetAllFlagState x v => setAllFlagState x v st
  | OSetApplyRawFlagsValue x raw => setApplyRawFlagsValue x raw st
  | ONewHandler h => mret (put_handler h [] st)
  | OAddAlarmHandler x name h => r ← addAlarmHandler x name h st; mret r.1
  | ORemoveAlarmHandler x name h => r ← removeAlarmHandler x name h st; mret r.1
  end.

Fixpoint flag_run (l : list flag_op) (st : store) : outcome store :=
  match l with [] => mret st | o :: l => st ← flag_step o st; flag_run l st end.

Definition no_store : store := mk_store ∅ ∅ ∅.
