(* ===== verification/FlagsInv.v ===== *)
(** * State flags: the bit fields follow the flags

    The invariant of a store of flags and catalogs, and that the operations keep
    it.  While a flag notifies its listeners, the catalogs that have not been told
    yet are behind by the bits of that flag; [firing] describes this. *)
From S2P Require Import Prelude.
From S2P Require Import Sets.
From S2P Require Import Flags.
From stdpp Require Import strings.
From Stdlib Require Import Sorted.
#[local] Open Scope Z_scope.

(** ** The invariant *)

Definition level_of (st : store) (p : Z) : option Z := current_level <$> flags st !! p.
Definition severity_of (st : store) (p : Z) : option StateFlagServerity :=
  f ← flags st !! p; severity <$> set_levels f !! current_level f.

(** What the bit field for [s] should be. *)
Definition shown (st : store) (s : StateFlagServerity) (l : list StateFlagElement) : list bool :=
  map (fun e => bool_decide (severity_of st (status_flag e) = Some s)) l.

Definition ready (f : StateFlag) : Prop := is_Some (set_levels f !! current_level f).

Record catalog_ok (st : store) (x : Z) (l : list StateFlagElement) : Prop := {
  co_seq : forall i e, l !! i = Some e -> seq_id e = Z.of_nat i;
  co_names : NoDup (map element_name l);
  co_flags : NoDup (map status_flag l);
  co_enrolled : forall e, e ∈ l -> exists f, flags st !! status_flag e = Some f /\ (x ∈ listeners f) /\ ready f;
}.

Definition tracks (st : store) (c : StateFlagCatalog) : Prop :=
  forall s, s ∈ severities -> map_severity_bf_flag c !! s = Some (shown st s (catalog_container c)).

(** The bits are right except for those of the flag [p]. *)
Definition tracks_but (p : Z) (st : store) (c : StateFlagCatalog) : Prop :=
  forall s, s ∈ severities -> exists b, map_severity_bf_flag c !! s = Some b /\ length b = length (catalog_container c) /\
    forall i e, catalog_container c !! i = Some e -> status_flag e <> p -> b !! i = shown st s (catalog_container c) !! i.

Record well_formed (st : store) : Prop := {
  wf_uuid : forall p q f g, flags st !! p = Some f -> flags st !! q = Some g -> flag_uuid f = flag_uuid g -> p = q;
  wf_listeners : forall p f x, flags st !! p = Some f -> x ∈ listeners f -> is_Some (catalogs st !! x) \/ is_Some (handlers st !! x);
  wf_sorted : forall p f, flags st !! p = Some f -> StronglySorted Z.lt (listeners f);
  wf_apart : forall x, is_Some (catalogs st !! x) -> handlers st !! x = None;
  wf_catalogs : forall x c, catalogs st !! x = Some c -> catalog_ok st x (catalog_container c);
  wf_members : forall x c p f, catalogs st !! x = Some c -> flags st !! p = Some f -> x ∈ listeners f ->
    p ∈ map status_flag (catalog_container c);
}.

Definition coherent (st : store) : Prop :=
  well_formed st /\ forall x c, catalogs st !! x = Some c -> tracks st c.

Definition firing (p : Z) (l : list Z) (st : store) : Prop :=
  well_formed st /\
  forall x c, catalogs st !! x = Some c -> tracks_but p st c /\ (x ∉ l -> tracks st c).

(** ** Bit fields *)

Lemma severities_nodup : NoDup severities.
Proof. by apply (bool_decide_unpack _). Qed.

Lemma length_shown st s l : length (shown st s l) = length l.
Proof. apply length_map. Qed.

Lemma shown_lookup st s l i e : l !! i = Some e -> shown st s l !! i = Some (bool_decide (severity_of st (status_flag e) = Some s)).
Proof. intros E. unfold shown. by rewrite list_lookup_fmap, E. Qed.

(** [mark] sets one bit of every field. *)
Lemma mark_spec i sv ss m : NoDup ss -> (forall s, s ∈ ss -> exists b, m !! s = Some b /\ 0 <= i < zlen b) ->
  exists m', mark ss i sv m = Ret m' /\
    forall s, m' !! s = if decide (s ∈ ss) then <[Z.to_nat i := bool_decide (s = sv)]> <$> m !! s else m !! s.
Proof.
  revert m. induction ss as [|s ss IH]; intros m Hnd Hm.
  - exists m. split; [done|]. intros s. by case_decide as Hs; [apply not_elem_of_nil in Hs|].
  - apply NoDup_cons in Hnd as [Hs Hnd]. destruct (Hm s) as (b & Eb & Hi); [by left|]. cbn. unfold set_bit, bits. rewrite Eb. cbn.
    replace ((0 <=? i) && (i <? zlen b)) with true by (symmetry; apply andb_true_iff; lia). rewrite bind_ret.
    destruct (IH (<[s := <[Z.to_nat i := bool_decide (s = sv)]> b]> m)) as (m' & -> & Hm'); [done | |].
    + intros t Ht. rewrite lookup_insert_ne by (by intros ->). apply Hm. by right.
    + eexists; split; [done|]. intros t. rewrite Hm'. destruct (decide (t = s)) as [->|Hne].
      * rewrite decide_False by done. rewrite decide_True by (by left). by rewrite lookup_insert_eq, Eb.
      * rewrite lookup_insert_ne by done. destruct (decide (t ∈ ss)) as [Hi'|Hi'].
        -- by rewrite decide_True by (by right).
        -- by rewrite decide_False by (by rewrite elem_of_cons; intros [?|?]).
Qed.

Lemma elem_map {A B} (f : A -> B) (l : list A) e : e ∈ l -> f e ∈ map f l.
Proof. intros. apply list_elem_of_fmap. eauto. Qed.

Lemma same_element (l : list StateFlagElement) i j a b :
  NoDup (map status_flag l) -> l !! i = Some a -> l !! j = Some b -> status_flag a = status_flag b -> i = j.
Proof.
  intros Hnd Ha Hb E. eapply NoDup_lookup; [exact Hnd | |]; rewrite list_lookup_fmap; [by rewrite Ha | by rewrite Hb, E].
Qed.

(** [find] by a key that tells the elements apart. *)
Lemma find_spec (P : StateFlagElement -> bool) l :
  match find P l with
  | Some e => e ∈ l /\ P e = true
  | None => forall e, e ∈ l -> P e = false
  end.
Proof.
  induction l as [|a l IH]; cbn; [intros e He; by apply not_elem_of_nil in He|]. destruct (P a) eqn:E; [by split; [left|]|].
  destruct (find P l) as [e|]; [destruct IH; by split; [right|]|]. intros e [->|He]%elem_of_cons; auto.
Qed.

Lemma find_seq_spec st x l i e : catalog_ok st x l -> l !! i = Some e -> find_seq (Z.of_nat i) l = Some e.
Proof.
  intros Hok Hi. pose proof (find_spec (fun e => seq_id e =? Z.of_nat i) l) as Hf. unfold find_seq. destruct (find _ l) as [e'|] eqn:E.
  - destruct Hf as [Hin Hs]. apply Z.eqb_eq in Hs. apply list_elem_of_lookup in Hin as [j Hj].
    rewrite (co_seq _ _ _ Hok _ _ Hj) in Hs. replace i with j in Hi by lia. congruence.
  - exfalso. specialize (Hf e (list_elem_of_lookup_2 _ _ _ Hi)). cbn in Hf. rewrite (co_seq _ _ _ Hok _ _ Hi) in Hf. lia.
Qed.

Lemma find_seq_out st x l i : catalog_ok st x l -> zlen l <= i -> find_seq i l = None.
Proof.
  intros Hok Hi. pose proof (find_spec (fun e => seq_id e =? i) l) as Hf. unfold find_seq. destruct (find _ l) as [e'|] eqn:E; [|done].
  destruct Hf as [Hin Hs]. apply Z.eqb_eq in Hs. apply list_elem_of_lookup in Hin as [j Hj].
  rewrite (co_seq _ _ _ Hok _ _ Hj) in Hs. apply lookup_lt_Some in Hj. unfold zlen in *. lia.
Qed.

Lemma find_uuid_spec st x l p f : well_formed st -> catalog_ok st x l -> flags st !! p = Some f ->
  match find_uuid st (Some (flag_uuid f)) l with
  | Some e => e ∈ l /\ status_flag e = p
  | None => forall e, e ∈ l -> status_flag e <> p
  end.
Proof.
  intros Hwf Hok Hf. pose proof (find_spec (fun e => bool_decide (uuid_of st (status_flag e) = Some (flag_uuid f))) l) as Hs.
  unfold find_uuid. destruct (find _ l) as [e|] eqn:E.
  - destruct Hs as [Hin Hb%bool_decide_eq_true]. split; [done|]. unfold uuid_of in Hb.
    destruct (flags st !! status_flag e) as [g|] eqn:Eg; [|done]. injection Hb as Hb. by eapply wf_uuid.
  - intros e He <-. specialize (Hs _ He). cbn in Hs. apply bool_decide_eq_false in Hs. apply Hs. unfold uuid_of. by rewrite Hf.
Qed.

(** ** Notification *)

(** A catalog that is told the severity of a flag follows it again. *)
Lemma told_tracks st x c p f l : well_formed st -> catalogs st !! x = Some c -> flags st !! p = Some f ->
  set_levels f !! current_level f = Some l -> tracks_but p st c ->
  exists c', stateFlagUpdated st c (flag_uuid f) (severity l) = Ret c' /\ tracks st c' /\
    catalog_name c' = catalog_name c /\ catalog_container c' = catalog_container c.
Proof.
  intros Hwf Hx Hf Hl Ht. pose proof (wf_catalogs _ Hwf _ _ Hx) as Hok. unfold stateFlagUpdated.
  pose proof (find_uuid_spec _ _ _ _ _ Hwf Hok Hf) as Hu.
  assert (severity_of st p = Some (severity l)) as Hsev by (unfold severity_of; rewrite Hf; cbn; by rewrite Hl).
  destruct (find_uuid st (Some (flag_uuid f)) (catalog_container c)) as [e|].
  - destruct Hu as [Hin <-]. apply list_elem_of_lookup in Hin as [i Hi]. pose proof (co_seq _ _ _ Hok _ _ Hi) as Hseq.
    destruct (mark_spec (seq_id e) (severity l) severities (map_severity_bf_flag c)) as (m & -> & Hm); [apply severities_nodup | |].
    { intros s Hs. destruct (Ht s Hs) as (b & Eb & Hb & _). exists b. split; [done|]. apply lookup_lt_Some in Hi. unfold zlen. lia. }
    rewrite bind_ret. eexists; split; [reflexivity|]. split; [|done]. intros s Hs. cbn [map_severity_bf_flag catalog_container]. rewrite Hm, decide_True by done.
    destruct (Ht s Hs) as (b & Eb & Hb & Hrest). rewrite Eb. cbn [fmap option_fmap option_map]. f_equal. apply list_eq. intros j. rewrite Hseq, Nat2Z.id.
    destruct (decide (j = i)) as [->|Hne].
    + rewrite list_lookup_insert_eq by (apply lookup_lt_Some in Hi; lia). rewrite (shown_lookup _ _ _ _ _ Hi), Hsev.
      f_equal. apply bool_decide_ext. split; congruence.
    + rewrite list_lookup_insert_ne by done. destruct (catalog_container c !! j) as [e'|] eqn:Ej.
      * apply (Hrest _ e'); [done|]. intros E. by eapply Hne, same_element; [apply Hok | ..].
      * apply lookup_ge_None in Ej. rewrite !lookup_ge_None_2; [done | rewrite length_shown; lia | lia].
  - exists c. split; [done|]. split; [|done]. intros s Hs. destruct (Ht s Hs) as (b & Eb & Hb & Hrest). rewrite Eb. f_equal.
    apply list_eq. intros j. destruct (catalog_container c !! j) as [e'|] eqn:Ej.
    + apply (Hrest _ e'); [done|]. apply Hu. by eapply list_elem_of_lookup_2.
    + apply lookup_ge_None in Ej. rewrite !lookup_ge_None_2; [done | rewrite length_shown; lia | lia].
Qed.

(** Replacing one catalog by another with the same elements, or a handler. *)
Lemma wf_put_catalog st x c c' : well_formed st -> catalogs st !! x = Some c -> catalog_container c' = catalog_container c ->
  well_formed (put_catalog x c' st).
Proof.
  intros [] Hx Hc. split; cbn; try done.
  - intros p f y Hf Hy. destruct (decide (y = x)) as [->|]; [left; rewrite lookup_insert_eq; eauto|].
    rewrite lookup_insert_ne by done. eauto.
  - intros y. destruct (decide (y = x)) as [->|]; [intros _; eauto|]. rewrite lookup_insert_ne by done. auto.
  - intros y d. destruct (decide (y = x)) as [->|].
    + rewrite lookup_insert_eq. intros [= <-]. rewrite Hc. by destruct (wf_catalogs0 _ _ Hx).
    + rewrite lookup_insert_ne by done. intros Hy. by destruct (wf_catalogs0 _ _ Hy).
  - intros y d p f. destruct (decide (y = x)) as [->|].
    + rewrite lookup_insert_eq. intros [= <-]. rewrite Hc. eauto.
    + rewrite lookup_insert_ne by done. eauto.
Qed.

Lemma wf_put_handler st x t t' : well_formed st -> handlers st !! x = Some t -> well_formed (put_handler x t' st).
Proof.
  intros [] Hx. split; cbn; try done.
  - intros p f y Hf Hy. destruct (decide (y = x)) as [->|]; [right; rewrite lookup_insert_eq; eauto|].
    rewrite lookup_insert_ne by done. eauto.
  - intros y Hy. destruct (decide (y = x)) as [->|]; [|rewrite lookup_insert_ne by done; auto].
    specialize (wf_apart0 _ Hy). congruence.
  - intros y d Hy. by destruct (wf_catalogs0 _ _ Hy).
Qed.

(** The listeners, one after the other: every catalog is told, every handler
    gets a notice. *)
Definition told (f : StateFlag) (l : StateLevel) : notice := mk_notice (flag_tag f) (flag_name f) (severity l).

Record fired (l : list Z) (n : notice) (st st' : store) : Prop := {
  fi_flags : flags st' = flags st;
  fi_shape : forall x, (fun c => (catalog_name c, catalog_container c)) <$> catalogs st' !! x =
                       (fun c => (catalog_name c, catalog_container c)) <$> catalogs st !! x;
  fi_handlers : forall x, catalogs st !! x = None -> NoDup l -> handlers st' !! x = (fun t => t ++ (if decide (x ∈ l) then [n] else [])) <$> handlers st !! x;
  fi_dom : forall x, is_Some (handlers st' !! x) <-> is_Some (handlers st !! x);
}.

Lemma tracks_flags st st' c : flags st' = flags st -> tracks st c -> tracks st' c.
Proof. intros E H s Hs. rewrite (H s Hs). unfold shown, severity_of. by rewrite E. Qed.

Lemma tracks_but_flags p st st' c : flags st' = flags st -> tracks_but p st c -> tracks_but p st' c.
Proof.
  intros E H s Hs. destruct (H s Hs) as (b & ? & ? & Hb). exists b. split; [done|]. split; [done|].
  intros i e Hi He. rewrite (Hb i e Hi He). unfold shown, severity_of. by rewrite E.
Qed.

Lemma tracks_weaken p st c : tracks st c -> tracks_but p st c.
Proof. intros H s Hs. eexists. split; [by apply H|]. split; [apply length_shown | done]. Qed.

Lemma fire_one p x l st f lv : firing p (x :: l) st -> flags st !! p = Some f -> (x ∈ listeners f) ->
  set_levels f !! current_level f = Some lv ->
  exists st', fireToListener p x st = Ret st' /\ firing p l st' /\ fired [x] (told f lv) st st'.
Proof.
  intros [Hwf Hc] Hf Hx Hl. unfold fireToListener, flag_at, getCurrentStateLevel. rewrite Hf, bind_ret, Hl, bind_ret.
  destruct (catalogs st !! x) as [c|] eqn:Ex.
  - destruct (told_tracks st x c p f lv) as (c' & -> & Ht & Hn & Hcc); [done.. | by destruct (Hc _ _ Ex) |]. rewrite bind_ret.
    eexists; split; [reflexivity|]. split; [split; [by eapply wf_put_catalog|]|].
    + intros y d. cbn. destruct (decide (y = x)) as [->|Hne].
      * rewrite lookup_insert_eq. intros [= <-]. split; [apply tracks_weaken | intros _]; by apply (tracks_flags st).
      * rewrite lookup_insert_ne by done. intros Hy. destruct (Hc _ _ Hy) as [H1 H2]. split; [by apply (tracks_but_flags _ st)|].
        intros Hnl. apply (tracks_flags st); [done|]. apply H2. by rewrite not_elem_of_cons.
    + split; cbn; try done.
      * intros y. destruct (decide (y = x)) as [->|]; [|by rewrite lookup_insert_ne]. rewrite lookup_insert_eq, Ex. cbn. by rewrite Hn, Hcc.
      * intros y Hy _. rewrite decide_False; [|intros ->%list_elem_of_singleton; congruence].
        destruct (handlers st !! y); cbn; by rewrite ?app_nil_r.
  - destruct (wf_listeners _ Hwf p f x Hf Hx) as [[? ?]|[t Ht]]; [congruence|]. rewrite Ht.
    eexists; split; [reflexivity|]. split; [split; [by eapply wf_put_handler|]|].
    + intros y d Hy. destruct (Hc _ _ Hy) as [H1 H2]. split; [by apply (tracks_but_flags _ st)|].
      intros Hnl. apply (tracks_flags st); [done|]. apply H2. rewrite not_elem_of_cons. split; [|done].
      intros ->. change (catalogs st !! x = Some d) in Hy. congruence.
    + split; cbn; try done.
      * intros y Hy _. destruct (decide (y = x)) as [->|].
        -- rewrite lookup_insert_eq, Ht, decide_True by (by apply list_elem_of_singleton). done.
        -- rewrite lookup_insert_ne, decide_False by (rewrite ?list_elem_of_singleton; done).
           destruct (handlers st !! y); cbn; by rewrite ?app_nil_r.
      * intros y. destruct (decide (y = x)) as [->|]; [|by rewrite lookup_insert_ne]. rewrite lookup_insert_eq, Ht. split; eauto.
Qed.

Lemma fire_to_ok p l st f lv : firing p l st -> flags st !! p = Some f -> (forall x, x ∈ l -> x ∈ listeners f) ->
  set_levels f !! current_level f = Some lv ->
  exists st', fire_to p l st = Ret st' /\ firing p [] st' /\ fired l (told f lv) st st'.
Proof.
  revert st. induction l as [|x l IH]; intros st Hfi Hf Hl Hlv.
  - eexists; split; [reflexivity|]. split; [done|]. split; try done. intros x _ _. rewrite decide_False by apply not_elem_of_nil.
    destruct (handlers st !! x); cbn; by rewrite ?app_nil_r.
  - destruct (fire_one p x l st f lv) as (st1 & E1 & Hfi1 & [F1 S1 H1 D1]); [done | done | apply Hl; by left | done |].
    destruct (IH st1) as (st2 & E2 & Hfi2 & [F2 S2 H2 D2]); [done | by rewrite F1 | intros y Hy; apply Hl; by right | done |].
    exists st2. cbn. rewrite E1, bind_ret. split; [done|]. split; [done|]. split.
    + congruence.
    + intros y. by rewrite S2, S1.
    + intros y Hy [Hx Hnd]%NoDup_cons. assert (catalogs st1 !! y = None) as Hy1 by (specialize (S1 y); rewrite Hy in S1; by destruct (catalogs st1 !! y)).
      rewrite (H2 _ Hy1 Hnd), (H1 _ Hy (NoDup_singleton _)). destruct (handlers st !! y); [|done]. cbn. rewrite <- app_assoc. do 2 f_equal.
      destruct (decide (y = x)) as [->|Hne].
      * rewrite (decide_True (P := x ∈ [x])), (decide_True (P := x ∈ x :: l)) by (by left). by rewrite (decide_False (P := x ∈ l)).
      * rewrite (decide_False (P := y ∈ [x])) by (by rewrite list_elem_of_singleton). cbn.
        destruct (decide (y ∈ l)); [rewrite decide_True by (by right) | rewrite decide_False by (by intros [?|?]%elem_of_cons)]; done.
    + intros y. by rewrite D2, D1.
Qed.

(** ** Changing the level of a flag *)

Record kept (f f' : StateFlag) : Prop := {
  kp_tag : flag_tag f' = flag_tag f; kp_uuid : flag_uuid f' = flag_uuid f; kp_name : flag_name f' = flag_name f;
  kp_listeners : listeners f' = listeners f;
  kp_levels : forall v, severity <$> set_levels f' !! v = severity <$> set_levels f !! v;
}.

(** Only the levels and what the listeners know may differ. *)
Record releveled (st st' : store) : Prop := {
  rl_flags : forall q, option_Forall2 kept (flags st !! q) (flags st' !! q);
  rl_catalogs : forall x, (fun c => (catalog_name c, catalog_container c)) <$> catalogs st' !! x =
                          (fun c => (catalog_name c, catalog_container c)) <$> catalogs st !! x;
  rl_handlers : forall x, is_Some (handlers st' !! x) <-> is_Some (handlers st !! x);
}.

#[export] Instance kept_preorder : PreOrder kept.
Proof.
  split; [by intros f; split|]. intros f g h [] []. split; congruence.
Qed.

#[export] Instance releveled_preorder : PreOrder releveled.
Proof.
  split; [intros st; split; [intros q; reflexivity | done | done]|]. intros a b c [F1 C1 H1] [F2 C2 H2]. split.
  - intros q. specialize (F1 q). specialize (F2 q). destruct F1; inversion F2; subst; constructor. by etrans.
  - intros x. by rewrite C2, C1.
  - intros x. by rewrite H2, H1.
Qed.

Lemma releveled_flag st st' p f : releveled st st' -> flags st !! p = Some f -> exists f', flags st' !! p = Some f' /\ kept f f'.
Proof. intros Hr Hf. pose proof (rl_flags _ _ Hr p) as H. rewrite Hf in H. inversion H; subst. eauto. Qed.

Lemma releveled_catalog st st' x c : releveled st st' -> catalogs st !! x = Some c ->
  exists c', catalogs st' !! x = Some c' /\ catalog_name c' = catalog_name c /\ catalog_container c' = catalog_container c.
Proof.
  intros Hr Hx. pose proof (rl_catalogs _ _ Hr x) as H. rewrite Hx in H. destruct (catalogs st' !! x) as [c'|]; [|done].
  injection H as ? ?. eauto.
Qed.

Lemma severity_put st p f q :
  severity_of (put_flag p f st) q = if decide (q = p) then severity <$> set_levels f !! current_level f else severity_of st q.
Proof.
  unfold severity_of. cbn. case_decide as E; [subst; by rewrite lookup_insert_eq | by rewrite lookup_insert_ne].
Qed.

Lemma shown_ext st st' s l : (forall e, e ∈ l -> severity_of st' (status_flag e) = severity_of st (status_flag e)) -> shown st' s l = shown st s l.
Proof. intros H. unfold shown. apply map_ext_in. intros e He%list_elem_of_In. by rewrite H. Qed.

Lemma tracks_put st p f f' c : flags st !! p = Some f ->
  severity <$> set_levels f' !! current_level f' = severity <$> set_levels f !! current_level f -> tracks st c -> tracks (put_flag p f' st) c.
Proof.
  intros Hf E Ht s Hs. rewrite (Ht s Hs). f_equal. symmetry. apply shown_ext. intros e _. rewrite severity_put.
  case_decide as Ee; [|done]. rewrite Ee. unfold severity_of. by rewrite Hf.
Qed.

Lemma tracks_put_but st p f c : tracks st c -> tracks_but p (put_flag p f st) c.
Proof.
  intros Ht s Hs. eexists. split; [by apply Ht|]. split; [apply length_shown|]. intros i e Hi Hne.
  rewrite !(shown_lookup _ _ _ _ _ Hi), severity_put. by rewrite decide_False.
Qed.

Lemma tracks_absent st p f c : (forall e, e ∈ catalog_container c -> status_flag e <> p) -> tracks st c -> tracks (put_flag p f st) c.
Proof.
  intros Hne Ht s Hs. rewrite (Ht s Hs). f_equal. symmetry. apply shown_ext. intros e He. rewrite severity_put.
  by rewrite decide_False by (by apply Hne).
Qed.

Lemma wf_put_flag st p f f' : well_formed st -> flags st !! p = Some f -> flag_uuid f' = flag_uuid f ->
  (ready f -> ready f') -> StronglySorted Z.lt (listeners f') ->
  (forall x, x ∈ listeners f' -> is_Some (catalogs st !! x) \/ is_Some (handlers st !! x)) ->
  (forall x, is_Some (catalogs st !! x) -> x ∈ listeners f <-> x ∈ listeners f') ->
  well_formed (put_flag p f' st).
Proof.
  intros [] Hf Hu Hr Hs Hl Hk. split; cbn; try done.
  - intros q q' g g'. destruct (decide (q = p)) as [->|], (decide (q' = p)) as [->|]; rewrite ?lookup_insert_eq, ?lookup_insert_ne by done;
      intros Hg Hg'; simplify_eq; rewrite ?Hu; eauto.
  - intros q g x. destruct (decide (q = p)) as [->|]; rewrite ?lookup_insert_eq, ?lookup_insert_ne by done; [intros [= <-]; auto | eauto].
  - intros q g. destruct (decide (q = p)) as [->|]; rewrite ?lookup_insert_eq, ?lookup_insert_ne by done; [by intros [= <-] | eauto].
  - intros x c Hx. destruct (wf_catalogs0 _ _ Hx) as [Hq Hn Hnd He]. split; try done. intros e Hin.
    destruct (He e Hin) as (g & Hg & Hxg & Hrg). cbn. destruct (decide (status_flag e = p)) as [E|].
    + rewrite E in *. rewrite lookup_insert_eq. simplify_eq. eexists; split; [done|]. split; [|auto]. apply Hk; eauto.
    + rewrite lookup_insert_ne by done. eauto.
  - intros x c q g Hx. destruct (decide (q = p)) as [->|]; rewrite ?lookup_insert_eq, ?lookup_insert_ne by done; [|by eauto].
    intros [= <-] Hin. eapply wf_members0; [done..|]. apply Hk; eauto.
Qed.

Lemma kept_ready f f' : kept f f' -> is_Some (set_levels f !! current_level f') -> ready f'.
Proof. intros Hk [l Hl]. unfold ready. pose proof (kp_levels _ _ Hk (current_level f')) as E. rewrite Hl in E. by destruct (set_levels f' !! _). Qed.

Lemma wf_put_kept st p f f' : well_formed st -> flags st !! p = Some f -> kept f f' -> (ready f -> ready f') -> well_formed (put_flag p f' st).
Proof.
  intros Hwf Hf Hk Hr. apply (wf_put_flag _ _ f); try done.
  - apply Hk.
  - rewrite (kp_listeners _ _ Hk). by eapply wf_sorted.
  - intros x. rewrite (kp_listeners _ _ Hk). by eapply wf_listeners.
  - intros x _. by rewrite (kp_listeners _ _ Hk).
Qed.

Lemma releveled_put st p f f' : flags st !! p = Some f -> kept f f' -> releveled st (put_flag p f' st).
Proof.
  intros Hf Hk. split; cbn; try done. intros q. destruct (decide (q = p)) as [->|].
  - rewrite lookup_insert_eq, Hf. by constructor.
  - rewrite lookup_insert_ne by done. reflexivity.
Qed.

Lemma level_put st p f q : level_of (put_flag p f st) q = if decide (q = p) then Some (current_level f) else level_of st q.
Proof. unfold level_of. cbn. case_decide; [subst; by rewrite lookup_insert_eq | by rewrite lookup_insert_ne]. Qed.

Lemma set_unlevelled st p f f' : coherent st -> flags st !! p = Some f -> kept f f' -> current_level f' = current_level f ->
  coherent (put_flag p f' st).
Proof.
  intros [Hwf Ht] Hf Hk Hc. split.
  - apply (wf_put_kept _ _ f); try done. intros Hr. apply (kept_ready f); [done|]. by rewrite Hc.
  - intros x c Hx. apply (tracks_put _ _ f); [done | rewrite Hc; apply Hk | by eapply Ht].
Qed.

(** The levels after a call: [p] goes to [v] when it has that level. *)
Definition knows (st : store) (p v : Z) : Prop := exists f, flags st !! p = Some f /\ is_Some (set_levels f !! v).

#[export] Instance knows_dec st p v : Decision (knows st p v).
Proof.
  unfold knows. destruct (flags st !! p) as [f|]; [|right; naive_solver].
  destruct (set_levels f !! v) as [l|] eqn:E; [left; eauto | right; intros (? & [= <-] & [? ?]); congruence].
Defined.

(** What a handler is told by a call. *)
Definition news (f : StateFlag) (v h : Z) : list notice :=
  match set_levels f !! v with
  | Some l => if decide (current_level f <> v /\ h ∈ listeners f) then [told f l] else []
  | None => []
  end.

Lemma sorted_nodup (l : list Z) : StronglySorted Z.lt l -> NoDup l.
Proof. induction 1 as [|x l _ IH Hx]; constructor; [|done]. intros Hin. eapply Forall_forall in Hx; [|done]. lia. Qed.

Lemma handler_apart st h t : well_formed st -> handlers st !! h = Some t -> catalogs st !! h = None.
Proof. intros Hwf Hh. destruct (catalogs st !! h) as [c|] eqn:E; [|done]. rewrite (wf_apart _ Hwf h) in Hh by eauto. done. Qed.

Lemma setCurrentLevel_ok st p v f : coherent st -> flags st !! p = Some f ->
  exists st', setCurrentLevel p v st = Ret st' /\ coherent st' /\ releveled st st' /\
    (forall q, level_of st' q = if decide (q = p /\ knows st p v) then Some v else level_of st q) /\
    (forall h t, handlers st !! h = Some t -> handlers st' !! h = Some (t ++ news f v h)).
Proof.
  intros Hco Hf. unfold news. unfold setCurrentLevel, flag_at. rewrite Hf, bind_ret. destruct (set_levels f !! v) as [l|] eqn:Hl.
  - assert (knows st p v) as Hk by (exists f; eauto).
    assert (forall q, (if decide (q = p /\ knows st p v) then Some v else level_of st q) = if decide (q = p) then Some v else level_of st q) as Hd
      by (intros q; repeat case_decide; naive_solver).
    destruct (Z.eqb_spec (current_level f) v) as [Ev|Ev]; cbn.
    + set (f' := with_levels f _). assert (kept f f') as Hkp.
      { split; try done. intros w. cbn. destruct (decide (w = v)) as [->|]; [by rewrite lookup_insert_eq, Hl | by rewrite lookup_insert_ne]. }
      eexists; split; [reflexivity|]. split; [by eapply set_unlevelled|]. split; [by eapply releveled_put|].
      split; [intros q; rewrite level_put, Hd; by rewrite <- Ev|]. intros h t Hh. rewrite decide_False by tauto. by rewrite app_nil_r.
    + set (f' := with_current_level f v). assert (kept f f') as Hkp by by split. destruct Hco as [Hwf Ht].
      assert (well_formed (put_flag p f' st)) as Hwf1 by (apply (wf_put_kept _ _ f); try done; intros _; exists l; done).
      assert (flags (put_flag p f' st) !! p = Some f') as Hf1 by (cbn; by rewrite lookup_insert_eq).
      destruct (fire_to_ok p (listeners f') (put_flag p f' st) f' l) as (st' & E & [Hwf' Ht'] & [Ffl Fsh Fha Fdo]); [|done..|].
      { split; [done|]. intros x c Hx. pose proof (Ht _ _ Hx) as Hxt. split; [by apply tracks_put_but|]. intros Hn.
        apply tracks_absent; [|done]. intros e He Ep. destruct (co_enrolled _ _ _ (wf_catalogs _ Hwf _ _ Hx) e He) as (g & Hg & Hxg & _).
        rewrite Ep in Hg. by simplify_eq. }
      exists st'. split; [unfold fire, flag_at; by rewrite Hf1, bind_ret|]. split; [split; [done|]; intros x c Hx; by apply (Ht' _ _ Hx), not_elem_of_nil|].
      assert (releveled (put_flag p f' st) st') as Hr by (split; [intros q; by rewrite Ffl | done | done]).
      split; [by etrans; [eapply releveled_put|]|]. split; [intros q; rewrite Hd; unfold level_of at 1; rewrite Ffl; apply level_put|].
      intros h t Hh. rewrite Fha; cbn; [|by eapply handler_apart | apply (sorted_nodup (listeners f)), (wf_sorted _ Hwf _ _ Hf)]. rewrite Hh. cbn.
      change (told f' l) with (told f l). do 2 f_equal. repeat case_decide; tauto.
  - exists st. split; [done|]. split; [done|]. split; [done|]. split; [|intros h t Hh; by rewrite app_nil_r].
    intros q. case_decide as Hd; [|done]. destruct Hd as [_ (g & Hg & [? ?])]. simplify_eq.
Qed.

(** ** Enrolment *)

Lemma place_element_last e l : (forall x, x ∈ l -> seq_id x < seq_id e) -> place_element e l = l ++ [e].
Proof.
  induction l as [|x l IH]; intros H; cbn; [done|]. destruct (Z.ltb_spec (seq_id e) (seq_id x)); [specialize (H x (list_elem_of_here _ _)); lia|].
  f_equal. apply IH. intros y Hy. apply H. by right.
Qed.

Lemma find_name_none n l : find_name n l = None <-> n ∉ map element_name l.
Proof.
  unfold find_name. pose proof (find_spec (fun e => bool_decide (element_name e = n)) l) as Hs. destruct (find _ l) as [e|].
  - destruct Hs as [Hin He%bool_decide_eq_true]. split; [done|]. intros []. subst n. by apply elem_map.
  - split; [|done]. intros _ (e & -> & He)%list_elem_of_fmap. specialize (Hs e He). by apply bool_decide_eq_false in Hs.
Qed.

Lemma container_insert_new st x l n p f : well_formed st -> catalog_ok st x l -> flags st !! p = Some f ->
  n ∉ map element_name l -> p ∉ map status_flag l ->
  container_insert st (mk_element (zlen l) n p) l = l ++ [mk_element (zlen l) n p].
Proof.
  intros Hwf Hok Hf Hn Hp. unfold container_insert. cbn [seq_id element_name status_flag].
  rewrite (find_seq_out _ _ _ _ Hok) by lia. rewrite (proj2 (find_name_none n l) Hn).
  replace (uuid_of st p) with (Some (flag_uuid f)) by (unfold uuid_of; by rewrite Hf).
  pose proof (find_uuid_spec _ _ _ _ _ Hwf Hok Hf) as Hu. destruct (find_uuid _ _ l) as [e|].
  - destruct Hu as [Hin <-]. destruct Hp. by apply elem_map.
  - apply place_element_last. intros e [i Hi]%list_elem_of_lookup. rewrite (co_seq _ _ _ Hok _ _ Hi). cbn. apply lookup_lt_Some in Hi. unfold zlen. lia.
Qed.

(** Every field gets one bit more. *)
Lemma push_bits (P : StateFlagServerity -> bool) ss m s : NoDup ss ->
  foldl (fun m s => <[s := bits m s ++ [P s]]> m) m ss !! s = if decide (s ∈ ss) then Some (bits m s ++ [P s]) else m !! s.
Proof.
  revert m. induction ss as [|t ss IH]; intros m Hnd; cbn; [by rewrite decide_False by apply not_elem_of_nil|].
  apply NoDup_cons in Hnd as [Ht Hnd]. rewrite IH by done. destruct (decide (s = t)) as [->|Hne].
  - rewrite decide_False, decide_True by (done || by left). by rewrite lookup_insert_eq.
  - unfold bits. rewrite !lookup_insert_ne by done. destruct (decide (s ∈ ss)).
    + by rewrite decide_True by (by right).
    + by rewrite decide_False by (by intros [?|?]%elem_of_cons).
Qed.

Lemma catalog_ok_grow st x l n p f : catalog_ok st x l -> flags st !! p = Some f -> ready f ->
  n ∉ map element_name l -> p ∉ map status_flag l ->
  catalog_ok (put_flag p (addListener x f) st) x (l ++ [mk_element (zlen l) n p]).
Proof.
  intros [Hs Hn Hf He] Hp Hr Hnn Hpp. split.
  - intros i e [Hi|[Hi Hl]]%lookup_app_Some; [by apply Hs|]. apply list_lookup_singleton_Some in Hl as [Hi0 <-]. cbn. unfold zlen. lia.
  - rewrite map_app. apply NoDup_app. split; [done|]. split; [|apply NoDup_singleton]. intros y Hy ->%list_elem_of_singleton. done.
  - rewrite map_app. apply NoDup_app. split; [done|]. split; [|apply NoDup_singleton]. intros y Hy ->%list_elem_of_singleton. done.
  - intros e Hin. apply elem_of_app in Hin as [Hin|Hin]; [|apply list_elem_of_singleton in Hin as ->]; cbn.
    + destruct (decide (status_flag e = p)) as [E|]; [destruct Hpp; rewrite <- E; by apply elem_map|].
      rewrite lookup_insert_ne by done. auto.
    + rewrite lookup_insert_eq. eexists; split; [done|]. split; [cbn; apply set_insert_in; by left | done].
Qed.

Lemma catalog_ok_flags st st' x l : flags st' = flags st -> catalog_ok st x l -> catalog_ok st' x l.
Proof. intros E [? ? ? He]. split; try done. by rewrite E. Qed.

(** The store after [enrol]. *)
Definition enrolled (x : Z) (c : StateFlagCatalog) (n : string) (p : Z) (f : StateFlag) (st st' : store) : Prop :=
  flags st' = <[p := addListener x f]> (flags st) /\ handlers st' = handlers st /\
  exists m, catalogs st' = <[x := mk_catalog (catalog_name c) (catalog_container c ++ [mk_element (zlen (catalog_container c)) n p]) m]> (catalogs st).

Lemma catalog_ok_other st x y l p f : catalog_ok st y l -> flags st !! p = Some f -> catalog_ok (put_flag p (addListener x f) st) y l.
Proof.
  intros [Hs Hn Hnd He] Hf. split; try done. intros e Hin. destruct (He e Hin) as (g & Hg & Hy & Hr). cbn.
  destruct (decide (status_flag e = p)) as [E|]; [|rewrite lookup_insert_ne by done; eauto].
  rewrite E in *. rewrite lookup_insert_eq. simplify_eq. eexists; split; [done|]. split; [|done]. cbn. apply set_insert_in. by right.
Qed.

Lemma wf_enrolled st st' x c n p f : well_formed st -> catalogs st !! x = Some c -> flags st !! p = Some f -> ready f ->
  n ∉ map element_name (catalog_container c) -> p ∉ map status_flag (catalog_container c) ->
  enrolled x c n p f st st' -> well_formed st'.
Proof.
  intros Hwf Hx Hf Hr Hn Hp (Hfl & Hh & m & Hca). pose proof Hwf as []. destruct st' as [fl ca ha]. cbn in Hfl, Hh, Hca. subst fl ca ha.
  split; cbn.
  - intros q q' g g'. destruct (decide (q = p)) as [->|], (decide (q' = p)) as [->|]; rewrite ?lookup_insert_eq, ?lookup_insert_ne by done;
      intros Hg Hg'; simplify_eq; cbn; eauto.
  - intros q g y Hg Hy. destruct (decide (y = x)) as [->|Hne]; [left; rewrite lookup_insert_eq; eauto|]. rewrite (lookup_insert_ne (catalogs st)) by done.
    destruct (decide (q = p)) as [->|]; [|rewrite lookup_insert_ne in Hg by done; by eapply wf_listeners0].
    rewrite lookup_insert_eq in Hg. injection Hg as <-. cbn in Hy. apply set_insert_in in Hy as [?|Hy]; [done|]. by eapply wf_listeners0.
  - intros q g. destruct (decide (q = p)) as [->|]; [rewrite lookup_insert_eq; intros [= <-]; cbn; apply set_insert_sorted; eauto | rewrite lookup_insert_ne by done; eauto].
  - intros y. destruct (decide (y = x)) as [->|]; [intros _; apply wf_apart0; eauto | rewrite lookup_insert_ne by done; auto].
  - intros y d. destruct (decide (y = x)) as [->|]; [rewrite lookup_insert_eq; intros [= <-] | rewrite lookup_insert_ne by done; intros Hy].
    + eapply (catalog_ok_flags (put_flag p (addListener x f) st)); [done|]. cbn. eapply (catalog_ok_grow st); eauto.
    + eapply (catalog_ok_flags (put_flag p (addListener x f) st)); [done|]. eapply (catalog_ok_other st); eauto.
  - intros y d q g Hy Hg Hin. assert (y = x /\ q = p \/ exists g', flags st !! q = Some g' /\ (y ∈ listeners g')) as [[-> ->]|(g' & Hg' & Hyg)].
    { destruct (decide (q = p)) as [->|]; [|rewrite lookup_insert_ne in Hg by done; eauto]. rewrite lookup_insert_eq in Hg. injection Hg as <-.
      apply set_insert_in in Hin as [->|?]; [by left | eauto]. }
    + rewrite lookup_insert_eq in Hy. injection Hy as <-. cbn. rewrite map_app. apply elem_of_app. right. by left.
    + destruct (decide (y = x)) as [->|]; [|rewrite lookup_insert_ne in Hy by done; eauto]. rewrite lookup_insert_eq in Hy. injection Hy as <-.
      cbn. rewrite map_app. apply elem_of_app. left. eauto.
Qed.

Lemma severity_enrol st st' x p f : flags st !! p = Some f -> flags st' = <[p := addListener x f]> (flags st) ->
  forall q, severity_of st' q = severity_of st q.
Proof.
  intros Hf E q. unfold severity_of. rewrite E. destruct (decide (q = p)) as [->|]; [by rewrite lookup_insert_eq, Hf | by rewrite lookup_insert_ne].
Qed.

Lemma enrol_ok st x c n p f : coherent st -> catalogs st !! x = Some c -> flags st !! p = Some f -> ready f ->
  n ∉ map element_name (catalog_container c) -> p ∉ map status_flag (catalog_container c) ->
  exists st', enrol x n p st = Ret st' /\ coherent st' /\ enrolled x c n p f st st'.
Proof.
  intros [Hwf Ht] Hx Hf [l Hl] Hn Hp. pose proof (wf_catalogs _ Hwf _ _ Hx) as Hok. unfold enrol, catalog_at, flag_at.
  rewrite Hx, bind_ret, Hf, bind_ret. cbv zeta. rewrite (container_insert_new _ x _ _ _ f) by done.
  unfold addMemberToSeverityMap, getCurrentStateLevel. rewrite Hl, bind_ret. rewrite bind_ret.
  pose proof (fun s => push_bits (fun s => bool_decide (s = severity l)) severities (map_severity_bf_flag c) s severities_nodup) as Hm.
  set (m := foldl _ _ severities) in *. clearbody m. eexists; split; [reflexivity|].
  assert (enrolled x c n p f st (put_flag p (addListener x f) (put_catalog x (mk_catalog (catalog_name c)
    (catalog_container c ++ [mk_element (zlen (catalog_container c)) n p]) m) st))) as Hen by (split; [done|]; split; [done|]; by exists m).
  split; [|done]. split; [eapply (wf_enrolled st); eauto; by exists l|].
  intros y d. cbn. destruct (decide (y = x)) as [->|].
  - rewrite lookup_insert_eq. intros [= <-] s Hs. cbn [map_severity_bf_flag catalog_container]. rewrite Hm, decide_True by done.
    unfold bits. rewrite (Ht _ _ Hx s Hs). cbn [default from_option id]. f_equal. unfold shown at 2. rewrite map_app. f_equal.
    + apply shown_ext. intros e _. symmetry. by apply (severity_enrol st _ x p f).
    + cbn [map status_flag]. f_equal. rewrite (severity_enrol st _ x p f) by done. unfold severity_of. rewrite Hf. cbn. rewrite Hl. cbn.
      apply bool_decide_ext. split; congruence.
  - rewrite lookup_insert_ne by done. intros Hy s Hs. rewrite (Ht _ _ Hy s Hs). f_equal. apply shown_ext. intros e _.
    symmetry. by apply (severity_enrol st _ x p f).
Qed.
