(* ===== verification/FlagsRuns.v ===== *)
(** * State flags and alarms: what every history of calls guarantees *)
From S2P Require Import Prelude.
From S2P Require Import Sets.
From S2P Require Import Flags.
From S2P Require Import FlagsInv.
From stdpp Require Import strings.
From Stdlib Require Import Sorted.
#[local] Open Scope Z_scope.

(** ** One flag changes, what the catalogs show does not *)

Lemma put_coherent st p f f' : coherent st -> flags st !! p = Some f -> flag_uuid f' = flag_uuid f ->
  StronglySorted Z.lt (listeners f') ->
  (forall x, x ∈ listeners f' -> is_Some (catalogs st !! x) \/ is_Some (handlers st !! x)) ->
  (forall x, is_Some (catalogs st !! x) -> x ∈ listeners f <-> x ∈ listeners f') ->
  (ready f -> severity <$> set_levels f' !! current_level f' = severity <$> set_levels f !! current_level f) ->
  coherent (put_flag p f' st).
Proof.
  intros [Hwf Ht] Hf Hu Hs Hl Hk Hr. split.
  - apply (wf_put_flag _ _ f); try done. intros Hrf. specialize (Hr Hrf). destruct Hrf as [l El]. rewrite El in Hr. unfold ready.
    destruct (set_levels f' !! current_level f'); [eauto | done].
  - intros x c Hx. destruct (set_levels f !! current_level f) as [l|] eqn:El.
    + apply (tracks_put _ _ f); [done | rewrite El; apply Hr; by exists l | by eapply Ht].
    + apply tracks_absent; [|by eapply Ht]. intros e He Ep.
      destruct (co_enrolled _ _ _ (wf_catalogs _ Hwf _ _ Hx) e He) as (g & Hg & _ & [? ?]). rewrite Ep in Hg. simplify_eq.
Qed.

(** The levels grow; the listeners stay. *)
Lemma put_levels st p f f' : coherent st -> flags st !! p = Some f -> flag_uuid f' = flag_uuid f -> listeners f' = listeners f ->
  (ready f -> severity <$> set_levels f' !! current_level f' = severity <$> set_levels f !! current_level f) ->
  coherent (put_flag p f' st).
Proof.
  intros Hco Hf Hu Hl. pose proof Hco as [Hwf _].
  apply (put_coherent _ _ f); rewrite ?Hl; [done.. | by eapply wf_sorted | intros x; by eapply wf_listeners | done].
Qed.

Lemma addLevel_fields l f : let f' := (addLevel l f).1 in
  flag_uuid f' = flag_uuid f /\ listeners f' = listeners f /\
  (ready f -> severity <$> set_levels f' !! current_level f' = severity <$> set_levels f !! current_level f).
Proof.
  unfold addLevel. destruct (set_levels f !! value l) as [k|] eqn:E; [done|]. cbn.
  destruct (decide (size (<[value l := l]> (set_levels f)) = 1%nat)) as [Hs|Hs].
  - rewrite bool_decide_eq_true_2 by done. cbn. split; [done|]. split; [done|]. intros [k Hk]. rewrite map_size_insert_None in Hs by done.
    assert (size (set_levels f) = 0%nat) as H0 by lia. apply map_size_empty_iff in H0. rewrite H0 in Hk. by rewrite lookup_empty in Hk.
  - rewrite bool_decide_eq_false_2 by done. cbn. split; [done|]. split; [done|]. intros [k Hk].
    destruct (decide (current_level f = value l)) as [Ev|]; [congruence|]. by rewrite lookup_insert_ne.
Qed.

Lemma addLevelsFromSet_fields src f : let f' := addLevelsFromSet src f in
  flag_uuid f' = flag_uuid f /\ listeners f' = listeners f /\ current_level f' = current_level f /\
  (ready f -> set_levels f' !! current_level f = set_levels f !! current_level f).
Proof.
  revert f. induction src as [|l src IH]; intros f; cbn; [done|]. destruct (set_levels f !! value l) as [k|] eqn:E; [apply IH|].
  destruct (IH (with_levels f (<[value l := l]> (set_levels f)))) as (-> & -> & -> & H). cbn in H. do 3 (split; [done|]).
  intros [k Hk]. destruct (decide (current_level f = value l)) as [Ev|]; [congruence|]. rewrite H; [by rewrite lookup_insert_ne|].
  exists k. cbn. by rewrite lookup_insert_ne.
Qed.

Lemma put_listener st p f x (g : StateFlag -> StateFlag) : coherent st -> flags st !! p = Some f -> is_Some (handlers st !! x) ->
  g = addListener x \/ g = removeListener x -> coherent (put_flag p (g f) st).
Proof.
  intros Hco Hf [t Hx] Hg. pose proof Hco as [Hwf _]. pose proof (wf_sorted _ Hwf _ _ Hf) as Hs.
  pose proof (handler_apart _ _ _ Hwf Hx) as Hno.
  assert (forall y, y <> x -> y ∈ listeners (g f) <-> y ∈ listeners f) as Hother.
  { intros y Hy. destruct Hg as [-> | ->]; cbn; [rewrite set_insert_in; naive_solver | by apply set_erase_other]. }
  apply (put_coherent _ _ f); [done | done | by destruct Hg as [-> | ->] | | | | by destruct Hg as [-> | ->]].
  - destruct Hg as [-> | ->]; cbn; [by apply set_insert_sorted | by apply set_erase_sorted].
  - intros y Hy. destruct (decide (y = x)) as [->|Hne]; [right; eauto|]. eapply wf_listeners; [done..|]. by apply Hother.
  - intros y [c Hc]. symmetry. apply Hother. intros ->. congruence.
Qed.

(** ** New objects *)

Lemma new_flag_ok st p f : coherent st -> flags st !! p = None -> (forall q g, flags st !! q = Some g -> flag_uuid g <> flag_uuid f) ->
  listeners f = [] -> coherent (put_flag p f st).
Proof.
  intros [Hwf Ht] Hp Hu Hl. pose proof Hwf as [Wu Wl Ws Wa Wc Wm].
  assert (forall x c e, catalogs st !! x = Some c -> e ∈ catalog_container c -> status_flag e <> p) as Hne.
  { intros x c e Hx He E. destruct (co_enrolled _ _ _ (Wc _ _ Hx) e He) as (g & Hg & _). congruence. }
  split; [split; cbn|].
  - intros q q' g g'. destruct (decide (q = p)) as [->|], (decide (q' = p)) as [->|]; rewrite ?lookup_insert_eq, ?lookup_insert_ne by done;
      intros Hg Hg'; simplify_eq; eauto; intros E; exfalso; by eapply Hu.
  - intros q g x. destruct (decide (q = p)) as [->|]; rewrite ?lookup_insert_eq, ?lookup_insert_ne by done; [|by eauto].
    intros [= <-]. rewrite Hl. intros Hx. by apply not_elem_of_nil in Hx.
  - intros q g. destruct (decide (q = p)) as [->|]; rewrite ?lookup_insert_eq, ?lookup_insert_ne by done; [|by eauto].
    intros [= <-]. rewrite Hl. constructor.
  - done.
  - intros x c Hx. destruct (Wc _ _ Hx) as [? ? ? He]. split; try done. intros e Hin. cbn. rewrite lookup_insert_ne by (by apply not_eq_sym; eauto). eauto.
  - intros x c q g Hx. destruct (decide (q = p)) as [->|]; rewrite ?lookup_insert_eq, ?lookup_insert_ne by done; [|by eauto].
    intros [= <-]. rewrite Hl. intros Hin. by apply not_elem_of_nil in Hin.
  - intros x c Hx. apply tracks_absent; [|by eapply Ht]. intros e. by eapply Hne.
Qed.

Lemma new_catalog_tracks st name : tracks st (new_catalog name).
Proof.
  intros s Hs. unfold new_catalog, severities in *. cbn.
  repeat (apply elem_of_cons in Hs as [->|Hs]; [by rewrite ?lookup_insert_ne, lookup_insert_eq by done|]). by apply not_elem_of_nil in Hs.
Qed.

Lemma new_catalog_ok st x name : coherent st -> catalogs st !! x = None -> handlers st !! x = None -> coherent (put_catalog x (new_catalog name) st).
Proof.
  intros [Hwf Ht] Hx Hh. pose proof Hwf as [Wu Wl Ws Wa Wc Wm].
  assert (forall p f, flags st !! p = Some f -> x ∉ listeners f) as Hnl.
  { intros p f Hf Hin. destruct (Wl _ _ _ Hf Hin) as [[? ?]|[? ?]]; congruence. }
  split; [split; cbn; try done|].
  - intros p f y Hf Hy. destruct (decide (y = x)) as [->|]; [by destruct (Hnl _ _ Hf)|]. rewrite lookup_insert_ne by done. eauto.
  - intros y. destruct (decide (y = x)) as [->|]; [done|]. rewrite lookup_insert_ne by done. auto.
  - intros y c. destruct (decide (y = x)) as [->|]; rewrite ?lookup_insert_eq, ?lookup_insert_ne by done.
    + intros [= <-]. split; cbn; [done | constructor | constructor |]. intros e He. by apply not_elem_of_nil in He.
    + intros Hy. by apply (catalog_ok_flags st), Wc.
  - intros y c p f. destruct (decide (y = x)) as [->|]; rewrite ?lookup_insert_eq, ?lookup_insert_ne by done; [|by eauto].
    intros _ Hf Hin. by destruct (Hnl _ _ Hf).
  - intros y c. cbn. destruct (decide (y = x)) as [->|]; rewrite ?lookup_insert_eq, ?lookup_insert_ne by done.
    + intros [= <-]. apply new_catalog_tracks.
    + intros Hy. apply (tracks_flags st); [done|]. by eapply Ht.
Qed.

Lemma new_handler_ok st h : coherent st -> catalogs st !! h = None -> coherent (put_handler h [] st).
Proof.
  intros [Hwf Ht] Hh. pose proof Hwf as [Wu Wl Ws Wa Wc Wm]. split; [split; cbn; try done|].
  - intros p f y Hf Hy. destruct (decide (y = h)) as [->|]; [right; rewrite lookup_insert_eq; eauto|]. rewrite lookup_insert_ne by done. eauto.
  - intros y [c Hy]. rewrite lookup_insert_ne by congruence. eauto.
  - intros y c Hy. by apply (catalog_ok_flags st), Wc.
  - intros y c Hy. apply (tracks_flags st); [done|]. by eapply Ht.
Qed.

(** ** Catalogs *)

Definition names (c : StateFlagCatalog) : list string := map element_name (catalog_container c).
Definition members (c : StateFlagCatalog) : list Z := map status_flag (catalog_container c).

Lemma addFlag_ok st x p c f : coherent st -> catalogs st !! x = Some c -> flags st !! p = Some f ->
  (flag_name f ∈ names c) \/ ready f /\ (p ∉ members c) -> exists st', addFlag x p st = Ret st' /\ coherent st'.
Proof.
  intros Hco Hx Hf Hp. unfold addFlag, catalog_at, flag_at. rewrite Hx, bind_ret, Hf, bind_ret.
  destruct (find_name (flag_name f) (catalog_container c)) eqn:E; [by eexists|]. apply find_name_none in E.
  destruct Hp as [Hp|[Hr Hp]]; [done|]. destruct (enrol_ok st x c (flag_name f) p f) as (st' & -> & ? & _); eauto.
Qed.

Definition appendable (c : StateFlagCatalog) (prefix : string) (e : StateFlagElement) : Prop :=
  ((prefix ++ "/" ++ element_name e)%string ∈ names c) \/ (status_flag e ∉ members c).

Lemma append_ok x prefix l : NoDup (map status_flag l) -> forall st c, coherent st -> catalogs st !! x = Some c ->
  (forall e, e ∈ l -> exists f, flags st !! status_flag e = Some f /\ ready f) -> (forall e, e ∈ l -> appendable c prefix e) ->
  exists st', append_elements x prefix l st = Ret st' /\ coherent st'.
Proof.
  induction l as [|e l IH]; intros Hnd st c Hco Hx Hr Ha; [by eexists|]. apply NoDup_cons in Hnd as [He Hnd].
  cbn. unfold catalog_at at 1. rewrite Hx, bind_ret. cbv zeta.
  destruct (find_name (prefix ++ "/" ++ element_name e)%string (catalog_container c)) as [e'|] eqn:E; [rewrite bind_ret|apply find_name_none in E].
  - eapply IH; [done | done | done | intros; apply Hr; by right | intros; apply Ha; by right].
  - destruct (Hr e (list_elem_of_here _ _)) as (f & Hf & Hrf). destruct (Ha e (list_elem_of_here _ _)) as [?|Hm]; [done|].
    destruct (enrol_ok st x c (prefix ++ "/" ++ element_name e)%string (status_flag e) f) as (st1 & -> & Hco1 & Hfl & _ & m & Hca); [done..|].
    rewrite bind_ret. eapply IH; [done | done | rewrite Hca; apply lookup_insert_eq | |].
    + intros e' He'. rewrite Hfl, lookup_insert_ne; [apply Hr; by right|]. intros E'. apply He. rewrite E'. by apply elem_map.
    + intros e' He'. unfold appendable, names, members. cbn [catalog_container]. rewrite !map_app. cbn [map element_name status_flag]. rewrite !elem_of_app, !list_elem_of_singleton.
      destruct (Ha e' (list_elem_of_further _ _ _ He')) as [?|Hm']; [by left; left|]. right. intros [?|E']; [done|].
      apply He. cbn in E'. rewrite <- E'. by apply elem_map.
Qed.

Lemma members_flag st x c e : coherent st -> catalogs st !! x = Some c -> e ∈ catalog_container c ->
  exists f, flags st !! status_flag e = Some f /\ ready f.
Proof. intros [Hwf _] Hx He. destruct (co_enrolled _ _ _ (wf_catalogs _ Hwf _ _ Hx) e He) as (f & ? & _ & ?). eauto. Qed.

Lemma set_element_ok st x c v oe : coherent st -> catalogs st !! x = Some c -> (forall e, oe = Some e -> e ∈ catalog_container c) ->
  exists st', set_element oe v st = Ret st' /\ coherent st'.
Proof.
  intros Hco Hx Hin. destruct oe as [e|]; cbn; [|by eexists]. destruct (members_flag _ _ _ e Hco Hx (Hin e eq_refl)) as (f & Hf & _).
  destruct (setCurrentLevel_ok st (status_flag e) v f) as (st' & ? & ? & _); eauto.
Qed.

Lemma find_in P (l : list StateFlagElement) e : find P l = Some e -> e ∈ l.
Proof. intros E. pose proof (find_spec P l) as H. rewrite E in H. apply H. Qed.

Lemma knows_releveled st st' p v : releveled st st' -> knows st p v -> knows st' p v.
Proof.
  intros Hr (f & Hf & [l Hl]). destruct (releveled_flag _ _ _ _ Hr Hf) as (f' & Hf' & Hk). exists f'. split; [done|].
  pose proof (kp_levels _ _ Hk v) as E. rewrite Hl in E. by destruct (set_levels f' !! v).
Qed.

(** Setting the level of several flags, each once. *)
Lemma set_elements_ok (level : StateFlagElement -> outcome Z) (g : StateFlagElement -> Z) l : NoDup (map status_flag l) ->
  (forall e, e ∈ l -> level e = Ret (g e)) -> forall st, coherent st ->
  (forall e, e ∈ l -> is_Some (flags st !! status_flag e)) ->
  exists st', set_elements level l st = Ret st' /\ coherent st' /\ releveled st st' /\
    (forall e, e ∈ l -> knows st (status_flag e) (g e) -> level_of st' (status_flag e) = Some (g e)) /\
    (forall q, q ∉ map status_flag l -> level_of st' q = level_of st q).
Proof.
  induction l as [|e l IH]; intros Hnd Hg st Hco Hin.
  - exists st. split; [done|]. split; [done|]. split; [done|]. split; [|done]. intros e He. by apply not_elem_of_nil in He.
  - apply NoDup_cons in Hnd as [He Hnd]. cbn. rewrite (Hg e) by (by left). rewrite bind_ret. destruct (Hin e (list_elem_of_here _ _)) as [f Hf].
    destruct (setCurrentLevel_ok st (status_flag e) (g e) f) as (st1 & -> & Hco1 & Hr1 & Hl1 & _); [done..|]. rewrite bind_ret.
    destruct (IH Hnd) with (st := st1) as (st2 & -> & Hco2 & Hr2 & Hl2 & Hq2); [intros; apply Hg; by right | done | |].
    { intros e' He'. destruct (Hin e' (list_elem_of_further _ _ _ He')) as [f' Hf'].
      destruct (releveled_flag _ _ _ _ Hr1 Hf') as (? & ? & _). eauto. }
    exists st2. split; [done|]. split; [done|]. split; [by etrans|]. split.
    + intros e' [->|He']%elem_of_cons Hk; [|by eapply Hl2, knows_releveled]. rewrite Hq2, Hl1 by done. by rewrite decide_True.
    + intros q Hq. cbn in Hq. rewrite not_elem_of_cons in Hq. destruct Hq as [Hqe Hql]. rewrite Hq2, Hl1 by done.
      rewrite decide_False; [done | naive_solver].
Qed.

Lemma apply_times_ok raw g l : NoDup (map status_flag l) -> (forall e, e ∈ l -> raw_at raw e = Ret (g e)) ->
  forall n st, coherent st -> (forall e, e ∈ l -> is_Some (flags st !! status_flag e)) ->
  exists st', apply_times n raw l st = Ret st' /\ coherent st' /\ releveled st st' /\
    (forall e, e ∈ l -> knows st (status_flag e) (g e) -> (0 < n)%nat \/ level_of st (status_flag e) = Some (g e) ->
       level_of st' (status_flag e) = Some (g e)).
Proof.
  intros Hnd Hg. induction n as [|n IH]; intros st Hco Hin; [exists st; do 3 (split; [done|]); by intros e _ _ [?%Nat.lt_irrefl|?]|]. cbn.
  destruct (set_elements_ok (raw_at raw) g l Hnd Hg st Hco Hin) as (st1 & -> & Hco1 & Hr1 & Hl1 & _). rewrite bind_ret.
  destruct (IH st1) as (st2 & -> & Hco2 & Hr2 & Hl2); [done | |].
  { intros e He. destruct (Hin e He) as [f Hf]. destruct (releveled_flag _ _ _ _ Hr1 Hf) as (? & ? & _). eauto. }
  exists st2. split; [done|]. split; [done|]. split; [by etrans|]. intros e He Hk _.
  apply Hl2; [done | by eapply knows_releveled | right; auto].
Qed.

Lemma raw_at_member st x l raw : catalog_ok st x l -> length raw = length l -> forall i e, l !! i = Some e ->
  raw_at raw e = Ret (default 0 (raw !! i)).
Proof.
  intros Hok Hlen i e Hi. unfold raw_at. rewrite (co_seq _ _ _ Hok _ _ Hi), Nat2Z.id.
  destruct (lookup_lt_is_Some_2 raw i) as [v Hv]; [rewrite Hlen; by eapply lookup_lt_Some|]. rewrite Hv.
  by destruct (Z.leb_spec 0 (Z.of_nat i)); [|lia].
Qed.

(** ** Destruction *)

Lemma on_flags_spec g l : NoDup (map status_flag l) -> forall st, (forall e, e ∈ l -> is_Some (flags st !! status_flag e)) ->
  exists fl, on_flags g l st = Ret (mk_store fl (catalogs st) (handlers st)) /\
    forall q, fl !! q = if decide (q ∈ map status_flag l) then g <$> flags st !! q else flags st !! q.
Proof.
  induction l as [|e l IH]; intros Hnd st Hin.
  - exists (flags st). split; [by destruct st|]. intros q. by rewrite decide_False by apply not_elem_of_nil.
  - apply NoDup_cons in Hnd as [He Hnd]. cbn. destruct (Hin e (list_elem_of_here _ _)) as [f Hf]. unfold flag_at. rewrite Hf, bind_ret.
    destruct (IH Hnd (put_flag (status_flag e) (g f) st)) as (fl & -> & Hfl).
    { intros e' He'. cbn. destruct (decide (status_flag e' = status_flag e)) as [->|]; [rewrite lookup_insert_eq; eauto|].
      rewrite lookup_insert_ne by done. apply Hin. by right. }
    exists fl. split; [done|]. intros q. rewrite Hfl. cbn [flags put_flag]. destruct (decide (q = status_flag e)) as [->|Hne].
    + rewrite decide_False, decide_True by (done || by left). by rewrite lookup_insert_eq, Hf.
    + rewrite lookup_insert_ne by done. destruct (decide (q ∈ map status_flag l)).
      * by rewrite decide_True by (by right).
      * by rewrite decide_False by (by intros [?|?]%elem_of_cons).
Qed.

Lemma destroy_catalog_ok st x c : coherent st -> catalogs st !! x = Some c ->
  exists st', destroy_catalog x st = Ret st' /\ coherent st' /\ (forall p f, flags st' !! p = Some f -> x ∉ listeners f).
Proof.
  intros [Hwf Ht] Hx. pose proof Hwf as [Wu Wl Ws Wa Wc Wm]. pose proof (Wc _ _ Hx) as Hok.
  unfold destroy_catalog, catalog_at. rewrite Hx, bind_ret.
  destruct (on_flags_spec (removeListener x) (catalog_container c) (co_flags _ _ _ Hok) st) as (fl & -> & Hfl).
  { intros e He. destruct (co_enrolled _ _ _ Hok e He) as (f & Hf & _). eauto. }
  rewrite bind_ret. eexists; split; [reflexivity|]. cbn [flags catalogs handlers].
  assert (forall p f', fl !! p = Some f' -> exists f, flags st !! p = Some f /\ f' = with_listeners f (listeners f') /\
    (x ∉ listeners f') /\ StronglySorted Z.lt (listeners f') /\ forall y, y <> x -> y ∈ listeners f' <-> y ∈ listeners f) as Hback.
  { intros p f' Hp. rewrite Hfl in Hp. case_decide as Hin.
    - destruct (flags st !! p) as [f|] eqn:Hf; [|done]. injection Hp as <-. exists f. split; [done|]. split; [done|]. cbn.
      destruct (set_erase_sorted x (listeners f) (Ws _ _ Hf)) as [? ?]. do 2 (split; [done|]). intros y Hy. by apply set_erase_other.
    - exists f'. split; [done|]. split; [by destruct f'|]. split; [|split; [by eapply Ws | done]]. intros Hxl. by eapply Hin, Wm. }
  assert (forall q ca ha, severity_of (mk_store fl ca ha) q = severity_of st q) as Hsev.
  { intros q ca ha. unfold severity_of. cbn. rewrite Hfl. case_decide; [by destruct (flags st !! q) | done]. }
  split; [|by intros p f Hf; destruct (Hback _ _ Hf) as (? & _ & _ & ? & _)]. split; [split; cbn|].
  - intros p q f g Hf Hg. destruct (Hback _ _ Hf) as (f0 & Hf0 & -> & _), (Hback _ _ Hg) as (g0 & Hg0 & -> & _). cbn. eauto.
  - intros p f y Hf Hy. destruct (Hback _ _ Hf) as (f0 & Hf0 & _ & Hn & _ & Ho). assert (y <> x) by (by intros ->).
    rewrite lookup_delete_ne by done. eapply Wl; [done|]. by apply Ho.
  - intros p f Hf. by destruct (Hback _ _ Hf) as (? & _ & _ & _ & ? & _).
  - intros y [d [_ Hd]%lookup_delete_Some]. eauto.
  - intros y d [Hne Hd]%lookup_delete_Some. destruct (Wc _ _ Hd) as [? ? ? He]. split; try done. intros e Hin.
    destruct (He e Hin) as (f & Hf & Hyl & Hr). cbn. rewrite Hfl, Hf. case_decide; [|eauto]. eexists; split; [done|].
    split; [by apply set_erase_other | done].
  - intros y d p f [Hne Hd]%lookup_delete_Some Hf Hin. destruct (Hback _ _ Hf) as (f0 & Hf0 & _ & _ & _ & Ho). eapply Wm; [done..|]. by apply Ho.
  - intros y d Hy s Hs. cbn in Hy. apply lookup_delete_Some in Hy as [Hne Hd]. rewrite (Ht _ _ Hd s Hs). f_equal. symmetry. apply shown_ext. intros e _. apply Hsev.
Qed.

(** ** Histories *)

(** What the callers owe: objects exist when they are used, addresses and unique
    ids are not used twice, a flag has its current level when it enters a catalog,
    and it does not enter one catalog under two names. *)
Definition proper_op (o : flag_op) (st : store) : Prop :=
  match o with
  | ONewFlag p _ _ u | OMultiSeverityAlarm p _ _ _ u => flags st !! p = None /\ forall q g, flags st !! q = Some g -> flag_uuid g <> u
  | OAddLevel p _ | OAddLevelsFromSet p _ | OSetCurrentLevel p _ => is_Some (flags st !! p)
  | ONewCatalog x _ | ONewHandler x => catalogs st !! x = None /\ handlers st !! x = None
  | ODestroyCatalog x | OSetFlagState x _ _ | OSetFlagStateId x _ _ | OSetAllFlagState x _ => is_Some (catalogs st !! x)
  | OSetApplyRawFlagsValue x raw => exists c, catalogs st !! x = Some c /\ forall r, raw = Some r -> zlen r < 2 ^ 32
  | OAddFlag x p => exists c f, catalogs st !! x = Some c /\ flags st !! p = Some f /\
      ((flag_name f ∈ names c) \/ ready f /\ (p ∉ members c))
  | OAppendCatalog x src => x <> src /\ exists c d, catalogs st !! x = Some c /\ catalogs st !! src = Some d /\
      forall e, e ∈ catalog_container d -> appendable c (catalog_name d) e
  | OAddAlarmHandler x _ h | ORemoveAlarmHandler x _ h => is_Some (catalogs st !! x) /\ is_Some (handlers st !! h)
  end.

Fixpoint proper_run (l : list flag_op) (st : store) : Prop :=
  match l with [] => True | o :: l => proper_op o st /\ match flag_step o st with Ret st' => proper_run l st' | _ => True end end.

Lemma alarm_op_ok st x name h g : coherent st -> is_Some (catalogs st !! x) -> is_Some (handlers st !! h) ->
  g = addListener h \/ g = removeListener h -> exists r, on_alarm x name g st = Ret r /\ coherent r.1.
Proof.
  intros Hco [c Hx] Hh Hg. unfold on_alarm, getFlagByName, catalog_at. rewrite Hx, !bind_ret.
  destruct (find_name name (catalog_container c)) as [e|] eqn:E; cbn; [|by eexists]. apply find_in in E.
  destruct (members_flag _ _ _ e Hco Hx E) as (f & Hf & _). unfold flag_at. rewrite Hf, bind_ret. eexists; split; [reflexivity|].
  by eapply put_listener.
Qed.

Lemma apply_raw_ok st x c raw : coherent st -> catalogs st !! x = Some c -> length raw = length (catalog_container c) ->
  zlen raw < 2 ^ 32 ->
  exists st', setApplyRawFlagsValue x (Some raw) st = Ret st' /\ coherent st' /\ releveled st st' /\
    forall i e v, catalog_container c !! i = Some e -> raw !! i = Some v -> knows st (status_flag e) v -> level_of st' (status_flag e) = Some v.
Proof.
  intros Hco Hx Hlen Hb. pose proof Hco as [Hwf _]. pose proof (wf_catalogs _ Hwf _ _ Hx) as Hok.
  unfold setApplyRawFlagsValue, catalog_at. rewrite Hx, bind_ret. rewrite u32_id by (unfold zlen in *; lia).
  replace (zlen raw =? zlen (catalog_container c)) with true by (symmetry; apply Z.eqb_eq; unfold zlen; lia). cbn [negb].
  set (g e := default 0 (raw !! Z.to_nat (seq_id e))).
  destruct (apply_times_ok raw g (catalog_container c) (co_flags _ _ _ Hok)) with (n := length raw) (st := st) as (st' & -> & ? & ? & Hl).
  - intros e [i Hi]%list_elem_of_lookup. unfold g. rewrite (raw_at_member _ _ _ _ Hok Hlen _ _ Hi).
    by rewrite (co_seq _ _ _ Hok _ _ Hi), Nat2Z.id.
  - done.
  - intros e He. destruct (members_flag _ _ _ e Hco Hx He) as (f & ? & _). eauto.
  - eexists; split; [reflexivity|]. do 2 (split; [done|]). intros i e v Hi Hv Hk.
    assert (g e = v) as Eg by (unfold g; by rewrite (co_seq _ _ _ Hok _ _ Hi), Nat2Z.id, Hv).
    rewrite <- Eg in *. apply Hl; [by eapply list_elem_of_lookup_2 | done|]. left. apply lookup_lt_Some in Hv. lia.
Qed.

Lemma set_all_ok st x c v : coherent st -> catalogs st !! x = Some c -> exists st', setAllFlagState x v st = Ret st' /\ coherent st'.
Proof.
  intros Hco Hx. pose proof Hco as [Hwf _]. unfold setAllFlagState, catalog_at. rewrite Hx, bind_ret.
  destruct (set_elements_ok (fun _ => mret v) (fun _ => v) (catalog_container c)) with (st := st) as (st' & ? & ? & _); eauto.
  - by eapply co_flags, wf_catalogs.
  - intros e He. destruct (members_flag _ _ _ e Hco Hx He) as (f & ? & _). eauto.
Qed.

Lemma alarm_fields tag name d u : flag_uuid (MultiSeverityAlarm tag name d u) = u /\ listeners (MultiSeverityAlarm tag name d u) = [].
Proof.
  unfold MultiSeverityAlarm, addState. rewrite !(proj1 (addLevel_fields _ _)), !(proj1 (proj2 (addLevel_fields _ _))). done.
Qed.

Lemma flag_step_ok o st : coherent st -> proper_op o st -> exists st', flag_step o st = Ret st' /\ coherent st'.
Proof.
  intros Hco. pose proof Hco as [Hwf _]. destruct o; cbn [flag_step proper_op].
  - intros [Hp Hu]. eexists; split; [reflexivity|]. by apply new_flag_ok.
  - intros [Hp Hu]. eexists; split; [reflexivity|]. destruct (alarm_fields tag name description uuid) as [E1 E2].
    apply new_flag_ok; [done | done | by rewrite E1 | done].
  - intros [f Hf]. unfold flag_at. rewrite Hf, bind_ret. eexists; split; [reflexivity|].
    destruct (addLevel_fields l f) as (? & ? & ?). by apply (put_levels _ _ f).
  - intros [f Hf]. unfold flag_at. rewrite Hf, bind_ret. eexists; split; [reflexivity|].
    destruct (addLevelsFromSet_fields src f) as (? & ? & Ec & Hl). apply (put_levels _ _ f); try done. intros Hr. by rewrite Ec, Hl.
  - intros [f Hf]. destruct (setCurrentLevel_ok st p v f) as (st' & ? & ? & _); eauto.
  - intros [? ?]. eexists; split; [reflexivity|]. by apply new_catalog_ok.
  - intros [c Hx]. destruct (destroy_catalog_ok st x c) as (st' & ? & ? & _); eauto.
  - intros (c & f & Hx & Hf & Hp). by eapply addFlag_ok.
  - intros (Hne & c & d & Hx & Hd & Ha). unfold appendCatalog, catalog_at. rewrite Hd, bind_ret.
    eapply append_ok; [by eapply co_flags, wf_catalogs | done.. | | done]. intros e. by eapply members_flag.
  - intros [c Hx]. unfold setFlagState, catalog_at. rewrite Hx, bind_ret. eapply set_element_ok; [done..|]. intros e. apply find_in.
  - intros [c Hx]. unfold setFlagState_id, catalog_at. rewrite Hx, bind_ret. eapply set_element_ok; [done..|]. intros e. apply find_in.
  - intros [c Hx]. by eapply set_all_ok.
  - intros (c & Hx & Hb). destruct raw as [raw|]; [|by eexists]. specialize (Hb raw eq_refl).
    destruct (decide (length raw = length (catalog_container c))) as [Hlen|Hlen].
    + destruct (apply_raw_ok st x c raw) as (st' & ? & ? & _); eauto.
    + exists st. split; [|done]. unfold setApplyRawFlagsValue, catalog_at. rewrite Hx, bind_ret, u32_id by (unfold zlen in *; lia).
      destruct (Z.eqb_spec (zlen raw) (zlen (catalog_container c))); [unfold zlen in *; lia | done].
  - intros [? ?]. eexists; split; [reflexivity|]. by apply new_handler_ok.
  - intros [Hx Hh]. destruct (alarm_op_ok st x name h (addListener h)) as (r & E & ?); [by auto..|].
    unfold addAlarmHandler. rewrite E, bind_ret. by eexists.
  - intros [Hx Hh]. destruct (alarm_op_ok st x name h (removeListener h)) as (r & E & ?); [by auto..|].
    unfold removeAlarmHandler. rewrite E, bind_ret. by eexists.
Qed.

Lemma no_store_coherent : coherent no_store.
Proof. split; [split|]; intros *; rewrite ?lookup_empty; done. Qed.

Lemma flag_run_ok l : forall st, coherent st -> proper_run l st -> exists st', flag_run l st = Ret st' /\ coherent st'.
Proof.
  induction l as [|o l IH]; intros st Hco Hl; [by eexists|]. destruct Hl as [Ho Hl].
  destruct (flag_step_ok o st Hco Ho) as (st1 & E & Hco1). cbn. rewrite E in Hl |- *. rewrite bind_ret. by apply IH.
Qed.

(** ** Reading a catalog *)

Definition flags_in (st : store) (c : StateFlagCatalog) (s : StateFlagServerity) : list Z :=
  map status_flag (filter (fun e => severity_of st (status_flag e) = Some s) (catalog_container c)).

Lemma positions_read st x l s : catalog_ok st x l -> forall l' k, (forall i e, l' !! i = Some e -> l !! (k + i)%nat = Some e) ->
  map (fun i => status_flag <$> find_seq i l) (set_positions (Z.of_nat k) (shown st s l')) =
  map Some (map status_flag (filter (fun e => severity_of st (status_flag e) = Some s) l')).
Proof.
  intros Hok. induction l' as [|e l' IH]; intros k Hl; [done|]. change (shown st s (e :: l')) with
    (bool_decide (severity_of st (status_flag e) = Some s) :: shown st s l'). cbn [set_positions].
  replace (Z.of_nat k + 1) with (Z.of_nat (S k)) by lia.
  assert (forall i e', l' !! i = Some e' -> l !! (S k + i)%nat = Some e') as Hl'.
  { intros i e' Hi. rewrite <- (Hl (S i) e' Hi). f_equal. lia. }
  destruct (decide (severity_of st (status_flag e) = Some s)) as [Hs|Hs].
  - rewrite bool_decide_eq_true_2, filter_cons_True by done. cbn [map]. f_equal; [|by apply IH].
    rewrite (find_seq_spec st x l k e); [done | done|]. rewrite <- (Hl 0%nat e eq_refl). f_equal. lia.
  - rewrite bool_decide_eq_false_2, filter_cons_False by done. by apply IH.
Qed.

Lemma severity_read st x c s : coherent st -> catalogs st !! x = Some c -> s ∈ severities ->
  getFlagsForSeverity st x s = Ret (map Some (flags_in st c s)).
Proof.
  intros [Hwf Ht] Hx Hs. unfold getFlagsForSeverity, catalog_at. rewrite Hx, bind_ret. unfold bits. rewrite (Ht _ _ Hx s Hs). cbn [default from_option id].
  f_equal. by apply (positions_read st x _ s (wf_catalogs _ Hwf _ _ Hx) _ 0).
Qed.

Lemma filter_full {A} (P : A -> Prop) `{forall x, Decision (P x)} (l : list A) : length (filter P l) = length l <-> Forall P l.
Proof.
  induction l as [|a l IH]; [by split; constructor|]. rewrite Forall_cons, <- IH. destruct (decide (P a)).
  - rewrite filter_cons_True by done. cbn. split; [intros; split; [done|lia] | intros [_ ?]; lia].
  - rewrite filter_cons_False by done. pose proof (length_filter P l). cbn. split; [lia | tauto].
Qed.

Lemma clear_read st x c : coherent st -> catalogs st !! x = Some c ->
  isCatalogClear st x =
    Ret (bool_decide (Forall (fun e => severity_of st (status_flag e) = Some StateFlagServerityRegular) (catalog_container c))).
Proof.
  intros Hco Hx. unfold isCatalogClear. rewrite (severity_read st x c) by (done || by left). rewrite bind_ret.
  unfold catalog_size, catalog_at. rewrite Hx, !bind_ret. change (mret ?b) with (Ret b). f_equal. unfold zlen, flags_in. rewrite !length_map.
  apply eq_bool_prop_intro. rewrite bool_decide_spec, Is_true_true, Z.eqb_eq,
    <- (filter_full (fun e => severity_of st (status_flag e) = Some StateFlagServerityRegular)). lia.
Qed.

Lemma levels_read st l : forall k block, (forall i e, l !! i = Some e -> seq_id e = Z.of_nat (k + i)) ->
  (k + length l <= length block)%nat -> forall lv, Forall2 (fun e v => level_of st (status_flag e) = Some v) l lv ->
  write_levels st l block = Ret (take k block ++ lv ++ drop (k + length l) block).
Proof.
  induction l as [|e l IH]; intros k block Hs Hlen lv Hlv; inversion Hlv as [|? v ? lv' Hv Hlv']; subst.
  - cbn. rewrite Nat.add_0_r. by rewrite take_drop.
  - cbn. unfold level_of in Hv. unfold flag_at. destruct (flags st !! status_flag e) as [f|]; [|done]. injection Hv as Hv. rewrite bind_ret.
    rewrite (Hs 0%nat e eq_refl), Nat.add_0_r. cbn in Hlen.
    replace ((0 <=? Z.of_nat k) && (Z.of_nat k <? zlen block)) with true by (symmetry; apply andb_true_iff; unfold zlen; lia).
    rewrite Nat2Z.id, Hv, (IH (S k)) with (lv := lv'); [| | rewrite length_insert; lia | done].
    + f_equal. rewrite (take_S_r _ k v) by (apply list_lookup_insert_eq; lia). rewrite take_insert_ge, drop_insert_lt by lia.
      rewrite <- app_assoc. cbn [app]. by replace (k + S (length l))%nat with (S k + length l)%nat by lia.
    + intros i e' Hi. rewrite (Hs (S i) e' Hi). lia.
Qed.

Lemma raw_read st x c block lv : coherent st -> catalogs st !! x = Some c -> (length (catalog_container c) <= length block)%nat ->
  Forall2 (fun e v => level_of st (status_flag e) = Some v) (catalog_container c) lv -> getRawFlagsLevel st x block = Ret lv.
Proof.
  intros [Hwf _] Hx Hlen Hlv. unfold getRawFlagsLevel, catalog_at. rewrite Hx, bind_ret.
  rewrite (levels_read st (catalog_container c) 0 _) with (lv := lv).
  - cbn. rewrite drop_ge by (rewrite length_take; lia). by rewrite app_nil_r.
  - intros i e Hi. by apply (co_seq _ _ _ (wf_catalogs _ Hwf _ _ Hx)).
  - rewrite length_take. lia.
  - done.
Qed.

(** ** Properties *)

(** C21: The catalogs follow their flags.  After any proper history of calls (flags
    shared between catalogs, catalogs appended and destroyed, levels set through
    any catalog, by raw bytes or directly), every call has returned, and each
    catalog answers [getFlagsForSeverity] with exactly its flags whose current
    level has that severity, in the order of enrolment, and [isCatalogClear]
    exactly when all of them are regular. *)
Theorem catalog_tracks_flags l : proper_run l no_store ->
  exists st, flag_run l no_store = Ret st /\
    forall x c, catalogs st !! x = Some c ->
      (forall s, s ∈ severities -> getFlagsForSeverity st x s = Ret (map Some (flags_in st c s))) /\
      isCatalogClear st x =
        Ret (bool_decide (Forall (fun e => severity_of st (status_flag e) = Some StateFlagServerityRegular) (catalog_container c))).
Proof.
  intros Hl. destruct (flag_run_ok l no_store no_store_coherent Hl) as (st & E & Hco). exists st. split; [done|].
  intros x c Hx. split; [intros s Hs; by apply severity_read | by apply clear_read].
Qed.

(** C27: A handler hears of every change of its alarm once, and of nothing else.
    After any proper history, setting a flag to a level it has makes that level the
    current one, and adds to what the handler was told one notice with the tag, the
    name and the new severity when the level is another one and the handler is
    registered; in every other case the handler is told nothing. *)
Theorem alarm_handler_notified l st p v f h told_before : proper_run l no_store -> flag_run l no_store = Ret st ->
  flags st !! p = Some f -> handlers st !! h = Some told_before ->
  exists st', setCurrentLevel p v st = Ret st' /\
    level_of st' p = Some (if bool_decide (is_Some (set_levels f !! v)) then v else current_level f) /\
    handlers st' !! h = Some (told_before ++
      match set_levels f !! v with
      | Some lv => if bool_decide (current_level f <> v /\ h ∈ listeners f)
                   then [mk_notice (flag_tag f) (flag_name f) (severity lv)] else []
      | None => []
      end).
Proof.
  intros Hl E Hf Hh. destruct (flag_run_ok l no_store no_store_coherent Hl) as (st0 & E0 & Hco). rewrite E in E0. injection E0 as <-.
  destruct (setCurrentLevel_ok st p v f Hco Hf) as (st' & Es & _ & _ & Hlv & Hn). exists st'. split; [done|]. split.
  - rewrite Hlv. destruct (set_levels f !! v) as [lv|] eqn:Ev.
    + rewrite decide_True by (split; [done | exists f; eauto]). by rewrite bool_decide_eq_true_2 by eauto.
    + rewrite decide_False by (intros [_ (g & Hg & [? ?])]; congruence). unfold level_of. rewrite Hf.
      by rewrite bool_decide_eq_false_2 by (by intros [? ?]).
  - rewrite (Hn _ _ Hh). unfold news. do 2 f_equal. destruct (set_levels f !! v); [|done]. unfold told.
    case_decide; case_bool_decide; tauto.
Qed.

(** C28: The raw levels of a catalog can be saved and restored.  After any proper
    history, [getRawFlagsLevel] gives one byte for each flag, a level the flag has;
    and for any such bytes [setApplyRawFlagsValue] brings every flag to its byte, so
    that [getRawFlagsLevel] then gives those bytes, whatever [malloc] returned. *)
Theorem raw_levels_roundtrip l st x c : proper_run l no_store -> flag_run l no_store = Ret st -> catalogs st !! x = Some c ->
  zlen (catalog_container c) < 2 ^ 32 ->
  (forall block, (length (catalog_container c) <= length block)%nat ->
     exists raw, getRawFlagsLevel st x block = Ret raw /\ Forall2 (fun e v => knows st (status_flag e) v) (catalog_container c) raw) /\
  (forall raw, Forall2 (fun e v => knows st (status_flag e) v) (catalog_container c) raw ->
     exists st', setApplyRawFlagsValue x (Some raw) st = Ret st' /\
       forall block, (length (catalog_container c) <= length block)%nat -> getRawFlagsLevel st' x block = Ret raw).
Proof.
  intros Hl E Hx Hb. destruct (flag_run_ok l no_store no_store_coherent Hl) as (st0 & E0 & Hco). rewrite E in E0. injection E0 as <-. split.
  - intros block Hlen. exists (map (fun e => default 0 (level_of st (status_flag e))) (catalog_container c)).
    assert (forall e, e ∈ catalog_container c -> exists f, flags st !! status_flag e = Some f /\ ready f) as Hm by (intros e; by eapply members_flag).
    assert (forall P : StateFlagElement -> Z -> Prop, (forall e f, flags st !! status_flag e = Some f -> ready f -> P e (current_level f)) ->
      Forall2 P (catalog_container c) (map (fun e => default 0 (level_of st (status_flag e))) (catalog_container c))) as Hall.
    { intros P HP. apply Forall2_same_length_lookup. split; [by rewrite length_map|]. intros i e v Hi. rewrite list_lookup_fmap, Hi. intros [= <-].
      destruct (Hm e (list_elem_of_lookup_2 _ _ _ Hi)) as (f & Hf & Hr). unfold level_of. rewrite Hf. by apply HP. }
    split; [eapply raw_read; [done..|]|]; apply Hall; intros e f Hf Hr; [unfold level_of; by rewrite Hf | exists f; eauto].
  - intros raw Hraw. pose proof (Forall2_length _ _ _ Hraw) as Hlen.
    destruct (apply_raw_ok st x c raw) as (st' & Es & Hco' & Hr & Hlv); [done.. | unfold zlen in *; lia|]. exists st'. split; [done|].
    intros block Hbl. destruct (releveled_catalog _ _ _ _ Hr Hx) as (c' & Hx' & _ & Hc'). rewrite <- Hc' in *.
    apply (raw_read st' x c'); [done..|]. apply Forall2_same_length_lookup. split; [done|]. intros i e v Hi Hv.
    eapply Hlv; [done..|]. by eapply Forall2_lookup_lr in Hraw.
Qed.

(** Runs a closed program and evaluates what is said of its result. *)
Ltac run_and_look :=
  match goal with
  | |- exists st, ?t = Ret st /\ _ =>
      let st := fresh "st" in let E := fresh "E" in
      destruct t as [st| | |] eqn:E; [exists st; split; [reflexivity|]; vm_compute in E; injection E as <-; by vm_compute | by vm_compute in E..]
  end.

(** A flag that enters a catalog under two names hides an alarm.  [addFlag]
    and [appendCatalog] test the name only; the container refuses the second
    entry, because the unique id is there already, but a bit is pushed
    nevertheless.  From then on the bits of the flags that are added are not those
    of their numbers: the catalog is reported clear while an alarm is high. *)
Theorem shared_flag_hides_alarm :
  let l := [ONewCatalog 100 "A"; ONewCatalog 101 "B"; OMultiSeverityAlarm 1 "t" "one" "d" 7; OMultiSeverityAlarm 2 "t" "two" "d" 8;
            OAddFlag 101 1; OAddFlag 100 1; OAppendCatalog 100 101; OAddFlag 100 2; OSetFlagState 100 "two" 2] in
  exists st, flag_run l no_store = Ret st /\ severity_of st 2 = Some StateFlagServerityHigh /\
    getFlagByName st 100 "two" = Ret (Some 2) /\ isCatalogClear st 100 = Ret true.
Proof.
  intros l. run_and_look.
Qed.

(** A copy of a catalog has no bit fields: the next change of one of its flags
    writes a bit that does not exist. *)
Theorem copied_catalog_breaks :
  exists st, (st ← flag_run [ONewCatalog 100 "A"; OMultiSeverityAlarm 1 "t" "one" "d" 7; OAddFlag 100 1] no_store; copy_catalog 101 100 st) = Ret st /\
    setFlagState 100 "one" 1 st = Oob.
Proof. run_and_look. Qed.

(** An alarm that is added twice is deleted by the second call while the catalog
    still holds it. *)
Theorem alarm_added_twice_freed :
  exists st, (st ← flag_run [ONewCatalog 100 "A"; OMultiSeverityAlarm 1 "t" "one" "d" 7] no_store; st ← addAlarm 100 1 st; addAlarm 100 1 st) = Ret st /\
    setFlagState 100 "one" 1 st = Oob.
Proof. run_and_look. Qed.

(** [DeclareStateFlag::addFlag] makes a flag without levels and reads its current
    level, which does not exist. *)
Theorem declared_flag_without_level st x c p name description uuid : catalogs st !! x = Some c -> name ∉ names c ->
  declareFlag x p name description uuid st = Oob.
Proof.
  intros Hx Hn. unfold declareFlag, adopt, addFlag, enrol, catalog_at, flag_at. cbn. rewrite Hx, !bind_ret, lookup_insert_eq, !bind_ret. cbn.
  by rewrite (proj2 (find_name_none _ _) Hn).
Qed.

(** ** Examples *)

Lemma proper_cons o l st st' : proper_op o st -> flag_step o st = Ret st' -> proper_run l st' -> proper_run (o :: l) st.
Proof. intros Ho E Hl. split; [done|]. by rewrite E. Qed.

Definition ex_flags : list flag_op :=
  [ONewCatalog 100 "A"; ONewHandler 200; OMultiSeverityAlarm 1 "t" "one" "d" 7; OMultiSeverityAlarm 2 "t" "two" "d" 8;
   OAddFlag 100 1; OAddFlag 100 2; OAddAlarmHandler 100 "two" 200; OSetFlagState 100 "two" 2].

Definition ex_store : store := match flag_run ex_flags no_store with Ret st => st | _ => no_store end.

Lemma fresh_uuid (m : gmap Z StateFlag) u : bool_decide (map_Forall (fun _ g => flag_uuid g <> u) m) = true ->
  forall q g, m !! q = Some g -> flag_uuid g <> u.
Proof. intros H%bool_decide_eq_true q g Hg. by apply (H q g). Qed.

Definition ex_flag : StateFlag := match flags ex_store !! 2 with Some f => f | None => new_flag EmptyString EmptyString 0 end.

(** The conditions of a concrete call. *)
Ltac check_op :=
  cbn [proper_op];
  lazymatch goal with
  | |- _ /\ _ => split; check_op
  | |- forall q g, ?m !! q = Some g -> flag_uuid g <> ?u =>
      apply (fresh_uuid m u); vm_compute; reflexivity
  | |- is_Some _ => eexists; vm_compute; reflexivity
  | |- exists c f, _ =>
      eexists; eexists; split; [vm_compute; reflexivity|]; split; [vm_compute; reflexivity|]; right; split;
        [eexists; vm_compute; reflexivity | apply (bool_decide_unpack _); vm_compute; exact I]
  | |- _ = None => vm_compute; reflexivity
  end.

Lemma ex_flags_proper : proper_run ex_flags no_store.
Proof. unfold ex_flags. repeat (eapply proper_cons; [check_op | vm_compute; reflexivity |]). exact I. Qed.

Lemma ex_flags_run : flag_run ex_flags no_store = Ret ex_store.
Proof. by vm_compute. Qed.

Lemma catalog_tracks_flags_witness :
  exists st, flag_run ex_flags no_store = Ret st /\
    forall x c, catalogs st !! x = Some c ->
      (forall s, s ∈ severities -> getFlagsForSeverity st x s = Ret (map Some (flags_in st c s))) /\
      isCatalogClear st x =
        Ret (bool_decide (Forall (fun e => severity_of st (status_flag e) = Some StateFlagServerityRegular) (catalog_container c))).
Proof. exact (catalog_tracks_flags ex_flags ex_flags_proper). Defined.

Lemma alarm_handler_notified_witness :
  exists st', setCurrentLevel 2 1 ex_store = Ret st' /\ level_of st' 2 = Some 1 /\
    handlers st' !! 200 = Some [mk_notice "t" "two" StateFlagServerityHigh; mk_notice "t" "two" StateFlagServerityWarning].
Proof.
  destruct (alarm_handler_notified ex_flags ex_store 2 1 ex_flag 200 [mk_notice "t" "two" StateFlagServerityHigh] ex_flags_proper ex_flags_run)
    as (st' & E & L & H); [vm_compute; reflexivity.. |].
  exists st'. split; [exact E|]. rewrite L, H. split; vm_compute; reflexivity.
Defined.

Lemma raw_levels_roundtrip_witness :
  exists c, catalogs ex_store !! 100 = Some c /\
  exists st', setApplyRawFlagsValue 100 (Some [1; 0]) ex_store = Ret st' /\
    forall block, (length (catalog_container c) <= length block)%nat -> getRawFlagsLevel st' 100 block = Ret [1; 0].
Proof.
  eexists. split; [vm_compute; reflexivity|].
  refine (proj2 (raw_levels_roundtrip ex_flags ex_store 100 _ ex_flags_proper ex_flags_run _ _) [1; 0] _); [vm_compute; reflexivity.. |].
  repeat constructor; apply (bool_decide_unpack _); vm_compute; exact I.
Defined.
